(* ===== verification/_CoqProject ===== *)
-Q . S2P
Prelude.v
RustStr.v
RustPath.v
DebugFmt.v
Bytes.v
Base64.v
Json.v
PolicyId.v
AdmissionResponse.v
ResponseHandler.v
Request.v
HostCapabilities.v
Callback.v
PolicyLog.v
HostWorld.v
FieldMask.v
WasiPipes.v
WasiStack.v
Runtime.v
Wapc.v
RegoInventory.v
Burrego.v
OpaBuiltins.v
Rego.v
FerricelExtensions.v
BuilderChains.v
Ferricel.v
Evaluator.v
PolicyBuilder.v
GroupEvaluator.v
GroupExpression.v
Config.v
Environment.v
Bootstrap.v
Service.v
EvaluationPool.v
Profiling.v
ServerRun.v
VerificationConstraints.v
Sources.v
Registry.v
Fetcher.v
Verify.v
Downloader.v
Metadata.v
MatchResources.v
OutputFile.v
ArtifactHub.v
Startup.v
TtlCache.v
SigstoreClient.v
KubeClient.v
CertificateTrust.v
CallbackHandler.v
Certs.v
SessionProxy.v
CommandLine.v
ServerStart.v
Clap.v
ServerCli.v
WasmScanner.v
Annotate.v
PolicyStore.v
WindowsPath.v
StoreArchive.v
KwctlRun.v
KwctlSettings.v
VapScaffold.v
Manifest.v
Inspect.v
PullCommand.v
AdmissionScaffold.v
KwctlCli.v
KwctlMain.v
KwctlCommands.v
