(* ===== verification/Prelude.v ===== *)
(** * Kubewarden admission controller: verification of the Rust core

    Kubewarden validates Kubernetes admission requests with policies that are
    WebAssembly modules. The policy server ([crates/policy-server]) downloads the
    modules ([crates/policy-fetcher]), precompiles them, builds an evaluation
    environment, and answers HTTP requests by running the policies through the
    runtimes of [crates/policy-evaluator] (waPC, WASI, Rego on [crates/burrego], CEL),
    which mediate what a policy may ask of its host; a callback handler serves what was
    granted. [kwctl] ([crates/kwctl]) annotates, stores, pushes, scaffolds and runs the same
    policies from the command line. This library models that core and proves what makes it correct.

    ** The program and its model

    Responses and requests ([policy-evaluator/src]):
    - [AdmissionResponse]: [admission_response.rs], how the verdict of a policy becomes an
      admission response;
    - [ResponseHandler]: [admission_response_handler.rs], monitor mode, mutation
      constraint and custom message, applied in this order;
    - [PolicyId]: [policy_id.rs], [policy_mode.rs] and the evaluation errors;
    - [Request]: [admission_request.rs] and the settings of a policy;
    - [Metadata]: [policy_metadata.rs], the metadata of a policy, how it is read in a module
      and its validators;
      [ArtifactHub]: [policy_artifacthub.rs], the document made of it.

    What a policy may do ([policy-evaluator/src]):
    - [HostCapabilities]: [host_capabilities.rs], the tree of capabilities and the
      patterns of the configuration;
    - [Callback]: [evaluation_context.rs], [callback_requests.rs] and
      [runtimes/callback.rs], the gate every host call goes through;
    - [PolicyLog]: [policy_tracing.rs] and [ferricel/logging.rs], what policies log.

    The runtimes ([policy-evaluator/src/runtimes]), on the state [HostWorld] of the host:
    - [WasiPipes], [WasiStack]: [wasi_cli], the pipes, the host call, the run of a guest;
    - [Wapc]: [wapc], with the reset after a deadline;
    - [RegoInventory], [Burrego], [OpaBuiltins], [Rego]: [rego] and the crate [burrego], the
      inventories and their cache, the Rego module and its memory, the builtins;
    - [FerricelExtensions], [BuilderChains], [Ferricel]: [ferricel], the extensions of CEL, the
      builder chains that reach them, and validation;
    - [Evaluator], [PolicyBuilder]: [policy_evaluator], one evaluator over the four, and
      its builder; [Runtime] is the interface [PolicyRuntime] its clients are proved
      against, [Evaluator.evaluator_runtime] the instance.

    The callback handler ([policy-evaluator/src/callback_handler]):
    - [TtlCache]: [cache_return.rs]; [SigstoreClient]: [sigstore_verification.rs];
      [KubeClient]: [kubernetes/client.rs] and [reflector.rs]; [FieldMask]:
      [kubernetes/field_mask.rs]; [CertificateTrust]: [crypto.rs];
    - [CallbackHandler]: [callback_handler.rs], [builder.rs], [oci.rs], [kubernetes.rs].

    Evaluation ([policy-server/src]):
    - [GroupEvaluator]: [policy_group_evaluator], groups of policies over an expression;
      [GroupExpression]: what these expressions mean, without the engine that evaluates them;
    - [Config]: [config.rs]; [CommandLine]: [Config::from_args]; [ServerCli]: [cli.rs], the declared
      flags, what is read of their matches, the set-up of logs and metrics, and [main.rs];
    - [Environment], [Bootstrap]: [evaluation_environment.rs], the environment, its builder
      loop and the invariant of what it builds;
    - [Service]: [api/service.rs], [api/handlers.rs] and [metrics.rs]; [EvaluationPool]: the
      semaphore of the handlers, as a step relation over the requests of the clients;
    - [Certs]: [certs.rs], the TLS configuration and its reloading;
    - [ServerStart]: [PolicyServer::new_from_config] of [lib.rs], from the settings to a server;
      [ServerRun]: [PolicyServer::run] and [task.rs], its futures as a step relation;
    - [Profiling]: [profiling.rs] and the profiling handlers, over concurrent requests.

    Obtaining policies ([policy-fetcher/src]):
    - [VerificationConstraints]: [verify/verification_constraints.rs], who signed an image;
    - [Sources]: [sources.rs], [proxy.rs], [fetcher.rs], how a server is talked to;
    - [Registry]: [registry/mod.rs] and [https.rs], protocols in order, manifests, download
      and push;
    - [Fetcher]: [lib.rs] and [store/mod.rs], from a URL to a file; [PolicyStore]: the listing
      and the lookups of [store/mod.rs], over a tree of files; [WindowsPath]: the names of files on
      Windows, [store/path/windows.rs];
    - [Verify]: [verify/config.rs] and [verify/mod.rs], configuration and verifier;
    - [Downloader]: [policy-server/src/policy_downloader.rs];
    - [Startup]: [precompiled_policy.rs] and the part of [policy-server/src/lib.rs] that takes the
      policies from the downloader to the environment.

    [kwctl] ([kwctl/src]):
    - [KwctlCli], [KwctlMain]: [cli.rs] and [main.rs], the declared commands and flags, and what
      each command is called with; [KwctlCommands]: [command/bench.rs], [info.rs],
      [scaffold/artifacthub.rs], and the Kubernetes client and callback handler of a run;
    - [CommandLine]: [config/verification.rs] and [config/sources.rs];
    - [KwctlRun]: [config/policy_definition.rs], [config/pull_and_run.rs] and [command/run];
      [KwctlSettings]: from the flags of a run to its settings;
    - [PolicyStore], [StoreArchive]: [utils.rs], [rm.rs], [save.rs] and [load.rs], the commands
      of the store; [Manifest]: [push.rs] and [scaffold/manifest.rs];
    - [PullCommand]: the commands of [main.rs] that reach a registry, from their flags on;
      [Inspect]: [inspect.rs] and [policies.rs], as the tables and texts that are printed;
    - [MatchResources], [OutputFile], [VapScaffold]: [scaffold/vap], from a
      ValidatingAdmissionPolicy and its binding to a Kubewarden policy;
    - [AdmissionScaffold]: [scaffold/admission_request.rs];
    - [SessionProxy]: [callback_handler/proxy.rs], recording and replaying host calls, over
      the interface [Responder] that [CallbackHandler] implements;
    - [WasmScanner], [Annotate]: [wasm_scanner.rs], [annotate.rs], [backend.rs].

    Shared: this file ([result] with its [?], the panic and state monad [M], the order
    of hash maps [HashIter]), [RustStr] (strings), [RustPath] (paths), [DebugFmt] (the [Debug] format), [Bytes]
    (UTF-8), [Base64], [Json], [Clap] (what both programs use of [clap]).

    ** Conventions

    A Rust [Result] is [result]; a panic is the [None] of [M]; a loop that may return
    early is [try_fold] or [mr_fold]. Strings are their bytes. The order in which a
    [HashMap] is visited is a parameter every theorem holds for. Integers that may wrap
    ([usize] in [WasiPipes], [WasiStack], [Config] and [SessionProxy], the addresses of
    [Burrego], the dates of [CertificateTrust]) are [Z] or [N] with the wrap-around
    written out, as in a release build. Code that is not in the repository is a
    type class of operations, with what the code relies on as a separate class of
    laws, for example [Rhai] with [RhaiLaws] and [RhaiBoolean], [TarGz] with [TarGzLaws], [UrlLib] with [UrlLaws], [Sigstore] with
    [SigstoreLaws], [HostIO] with [HostLaws], [Moka] with [MokaLaws], [Walrus] with
    [WalrusLaws], [SessionYaml] with [SessionYamlLaws], [Clap] with [ClapLaws], [Base64] with
    [Base64Laws]. Each has a concrete instance, which
    the witnesses of the theorems run. A guest is arbitrary: a list of actions in
    [WasiStack], the calls of its engine in the other runtimes. Requests to the callback
    handler are served one after the other; the events of a reflector happen between two
    of them, and between the publication of a change and its application. Requests of the
    policy server interleave ([EvaluationPool]), each evaluation being one step, or one that never
    ends. Files are a
    tree ([PolicyStore]) or a map with the faults of the calls to come ([OutputFile]);
    symbolic links are not modelled.

    Fuel: that of [parse_url] ([Fetcher.parse_url_terminates] shows that two calls are
    enough), of [trim] and [PolicyLog.to_uppercase] on strings and of the scans of [WasmScanner], [Burrego.read_string]
    and [Annotate.remove_all], each bounded by the length of what is scanned; the theorems
    state that it does not run out.

    ** What is proved

    - Answers. Every response carries the uid of its request
      ([Service.evaluate_answers_request]); the decision of the handler is exact; the validation
      endpoints return a patch only for a policy that is configured to mutate; Rego and CEL
      policies fail closed; a deadline leaves a fresh evaluator; [kwctl run] decides like
      the server.
    - Least privilege. A host call reaches the callback channel only if the binding,
      the capabilities and the resources of its policy grant it, on every runtime but Rego, where the
      resources alone decide ([Evaluator.evaluator_least_privilege]); capability patterns mean what their
      specification says; the environment hands each policy what its own configuration
      grants; a Gatekeeper policy sees only its own resources, whatever ran before;
      namespaced policies run by [kwctl] read nothing of the cluster.
    - The host. In every reachable state a listing answers the request it was made for, a
      cached lookup is recent, and a verification that is reported as trusted was made;
      every request is answered; a recorded session is replayed faithfully, requests about an instant
      excepted.
    - Robustness. A validation panics only if the runtime of a policy does
      ([Bootstrap.panics_come_from_runtime]); the pipes of a guest stay
      within their bounds; fetching a policy always returns; the builtins panic exactly on
      the arguments of [OpaBuiltins.builtin_panics_iff].
    - Concurrency. However requests interleave and clients come and go, at most as many
      evaluations as workers have a waiting client, every client gets the answer to its own
      request, and none starves while fewer evaluations than workers never end
      ([EvaluationPool.pool_answers_everyone]); at most one CPU profile runs; when [run] ends, both
      servers and the certificate watch end with it.
    - Command lines. No command line that [clap] accepts makes either program panic while it reads
      its flags, and what a command is called with satisfies what its code relies on
      ([ServerCli.server_arguments_sound], [KwctlMain.kwctl_arguments_sound]).
    - Scaffolding. A translated ValidatingAdmissionPolicy has the match constraints of the policy and
      its binding and is granted what it needs; its match conditions, which the interpreted output
      ignores, are left aside ([VapScaffold.translated_policy_faithful]); no file is lost
      whatever call fails; a manifest grants what the user allowed; the catalog of a cluster
      recovers from any damage, if its file can be written.
    - The store. What is listed is found, saved policies load with their contents, [rm]
      removes one policy; on Windows too a policy is
      listed under its URL ([WindowsPath.windows_listing]). What [annotate] writes
      is what the server reads ([Annotate.annotated_metadata_read_back]).
    - Groups. A group answers with the meaning of its expression by the answers of its members, one
      that tries to mutate counting as denying, and the causes of a denial are exactly the members
      whose last answer was a refusal ([GroupExpression.group_validate_refines]).
    - Supply chain. A module that the server can run has the digest of what is precompiled from the
      path recorded for its URL, which was recorded for an image whose signatures satisfied the
      configuration ([ServerStart.server_runs_verified_policies], from the command line to the running
      environment, if the trust root could be created; without one nothing is verified); signatures are accepted exactly when
      the configuration is satisfied; connections are authenticated unless the server is
      listed as insecure; flags ask for every signature they name, and a run that was asked to
      verify never goes on without ([KwctlSettings.requested_verification_enforced]); a pull
      that succeeds was verified as asked ([PullCommand.pull_command_verified]).
    - Reports. A log entry of a policy gives one event with its data, whatever it holds
      ([PolicyLog.guest_log_one_event]); an inspection shows all of the metadata
      ([Inspect.inspect_shows_metadata]).
    - TLS. On Linux the served certificate has its own key and client authentication is never
      dropped, from the command line on ([CommandLine.configured_client_auth_holds]).
    - Defects. Theorems about behaviour that the documentation does not announce, among
      them [Bootstrap.group_runs_failed_member], [Environment.register_deduplicates],
      [WasiStack.get_vec_from_memory_spec], [Config.policy_memory_limit_spec],
      [Verify.unversioned_config_unchecked], [Downloader.trust_root_failure_disables_verification],
      [Downloader.verified_file_can_be_replaced], [SigstoreClient.certificate_key_ambiguous],
      [KubeClient.stale_listing_not_reported], [CertificateTrust.early_dates_wrap],
      [Certs.client_ca_update_waits], [Certs.mismatched_pair_blocks_client_ca],
      [CommandLine.sources_file_proxies_ignored], [CommandLine.annotation_without_value_dropped],
      [SessionProxy.instant_request_moves], [Evaluator.rego_ignores_capabilities], [Annotate.kwctl_version_stricter],
      [EvaluationPool.abandoned_evaluations_exceed_pool], [EvaluationPool.zero_workers_hang],
      [EvaluationPool.stuck_evaluation_starves], [Certs.client_ca_ignored_elsewhere],
      [StoreArchive.save_ignores_finishing], [KwctlMain.force_ignored],
      [Sources.verification_trusts_every_authority], [PolicyStore.directory_found_as_policy],
      [VapScaffold.failed_scaffold_keeps_module], [PullCommand.refused_file_stays],
      [Inspect.missing_signatures_reported_as_failure], [Inspect.signatures_fetched_anonymously],
      [ServerStart.no_trust_root_start], [ServerCli.metrics_variables_ignored],
      [ServerCli.log_no_color_inverted], [Profiling.concurrent_profiles_poison],
      [KwctlMain.bench_declarations],
      [KwctlMain.yaml_ignores_execution_mode], [WindowsPath.one_letter_policy_lost],
      [WindowsPath.encoded_names_clash].

    ** What is not modelled

    Processes and I/O: sockets, the exporters of telemetry and the profilers, the system calls of
    the daemon. The inside of wasmtime, rhai, sigstore, serde, rustls, clap and the OCI client,
    which are parameters, as are tar and flate2. The clock that advances the epochs of wasmtime, of which
    only whether it runs is modelled. Interleavings inside one request of the callback handler. The fields of
    tracing spans and the texts of log messages, except what policies log. Help texts, and the
    documentation and completions that clap generates. The example program of [burrego] and the
    test policies. The network and verbatim prefixes of paths on Windows. The controller and the
    audit scanner, which are Go programs. *)

From stdpp Require Export base list gmap strings sorting ssreflect.
From Stdlib Require Export ZArith Lia.
From Stdlib Require Ascii.
Export Stdlib.Strings.Ascii (ascii(..), ascii_dec).
Export (notations) Stdlib.Strings.Ascii.

(** ** Rust results

    [result A E] is Rust's [Result<A, E>]; [?] is the bind notation of
    [rust_scope]. *)

Inductive result (A E : Type) : Type :=
| Ok (a : A)
| Err (e : E).
Arguments Ok {A E} a.
Arguments Err {A E} e.

Declare Scope rust_scope.
Delimit Scope rust_scope with rust.
Open Scope rust_scope.

Definition res_bind {A B E} (r : result A E) (k : A → result B E) : result B E :=
  match r with Ok a => k a | Err e => Err e end.

Definition map_err {A E F} (f : E → F) (r : result A E) : result A F :=
  match r with Ok a => Ok a | Err e => Err (f e) end.

Definition res_map {A B E} (f : A → B) (r : result A E) : result B E :=
  match r with Ok a => Ok (f a) | Err e => Err e end.

Definition ok_or {A E} (o : option A) (e : E) : result A E :=
  match o with Some a => Ok a | None => Err e end.

Definition is_ok {A E} (r : result A E) : bool :=
  match r with Ok _ => true | Err _ => false end.

Definition is_err {A E} (r : result A E) : bool := negb (is_ok r).

Definition unwrap_or {A} (d : A) (o : option A) : A :=
  match o with Some a => a | None => d end.

Notation "'let?' x ':=' c 'in' k" := (res_bind c (λ x, k))
  (at level 10, x pattern, c at level 200, k at level 200,
   format "'[v' 'let?'  x  ':='  c  'in' '/' k ']'") : rust_scope.

(** A [for] loop whose body may return early with [?]: the accumulator is the
    state the body mutates. *)
Fixpoint try_fold {A S E} (f : S → A → result S E) (s : S) (l : list A) : result S E :=
  match l with
  | [] => Ok s
  | a :: l => let? s' := f s a in try_fold f s' l
  end.

(** [collect] of an iterator of results: the first error ends it. *)
Fixpoint collect {A B E} (f : A → result B E) (l : list A) : result (list B) E :=
  match l with
  | [] => Ok []
  | a :: l => let? b := f a in let? bs := collect f l in Ok (b :: bs)
  end.

Section result_lemmas.
Context {A B E : Type}.

Lemma res_bind_Ok (r : result A E) (k : A → result B E) b :
  res_bind r k = Ok b ↔ ∃ a, r = Ok a ∧ k a = Ok b.
Proof. destruct r; naive_solver. Qed.

Lemma res_bind_Err (r : result A E) (k : A → result B E) e :
  res_bind r k = Err e ↔ r = Err e ∨ ∃ a, r = Ok a ∧ k a = Err e.
Proof. destruct r; naive_solver. Qed.

Lemma map_err_Ok {F} (f : E → F) (r : result A E) a :
  map_err f r = Ok a ↔ r = Ok a.
Proof. destruct r; naive_solver. Qed.

Lemma map_err_Err {F} (f : E → F) (r : result A E) x :
  map_err f r = Err x ↔ ∃ e, r = Err e ∧ x = f e.
Proof. destruct r; naive_solver. Qed.

Lemma res_map_Ok (f : A → B) (r : result A E) b :
  res_map f r = Ok b ↔ ∃ a, r = Ok a ∧ b = f a.
Proof. destruct r; naive_solver. Qed.

Lemma ok_or_Ok (o : option A) (e : E) a : ok_or o e = Ok a ↔ o = Some a.
Proof. destruct o; naive_solver. Qed.

Lemma ok_or_Err (o : option A) (e e' : E) : ok_or o e = Err e' ↔ o = None ∧ e' = e.
Proof. destruct o; naive_solver. Qed.
End result_lemmas.

Lemma collect_Ok {A B E} (f : A → result B E) l bs :
  collect f l = Ok bs ↔ Forall2 (λ a b, f a = Ok b) l bs.
Proof.
  revert bs. induction l as [|a l IH]; intros bs; simpl.
  - split; [intros [= <-]; constructor|by intros ->%Forall2_nil_inv_l].
  - rewrite res_bind_Ok. split.
    + intros (b & ? & (bs' & Hbs%IH & [= <-])%res_bind_Ok). by constructor.
    + intros (b & bs' & ? & Hbs%IH & ->)%Forall2_cons_inv_l. exists b. split; [done|].
      by rewrite Hbs.
Qed.

Section try_fold_lemmas.
Context {A S E : Type}.
Implicit Types (f : S → A → result S E) (P : S → Prop).

Lemma try_fold_app f s l1 l2 :
  try_fold f s (l1 ++ l2) = let? s' := try_fold f s l1 in try_fold f s' l2.
Proof.
  revert s. induction l1 as [|a l1 IH]; intros s; simpl; [done|].
  destruct (f s a); simpl; [apply IH|done].
Qed.

(** An invariant of the body is an invariant of the loop. *)
Lemma try_fold_inv f P s l s' :
  P s → (∀ s a s', a ∈ l → P s → f s a = Ok s' → P s') →
  try_fold f s l = Ok s' → P s'.
Proof.
  revert s. induction l as [|a l IH]; intros s Hs Hf; simpl; [naive_solver|].
  intros (s1 & Hs1 & Hl)%res_bind_Ok.
  eapply (IH s1); eauto using list_elem_of_further, list_elem_of_here.
Qed.

(** A body that cannot fail makes a loop that cannot fail. *)
Lemma try_fold_total f P s l :
  P s → (∀ s a, a ∈ l → P s → ∃ s', f s a = Ok s' ∧ P s') →
  ∃ s', try_fold f s l = Ok s' ∧ P s'.
Proof.
  revert s. induction l as [|a l IH]; intros s Hs Hf; simpl; [eauto|].
  destruct (Hf s a) as (s1 & -> & Hs1); [apply list_elem_of_here|done|].
  simpl. apply IH; [done|]. eauto using list_elem_of_further.
Qed.

(** Decomposition of a successful loop around one of its iterations. *)
Lemma try_fold_split f s l a s' :
  a ∈ l → try_fold f s l = Ok s' →
  ∃ l1 l2 s1 s2, l = l1 ++ a :: l2 ∧ try_fold f s l1 = Ok s1 ∧
    f s1 a = Ok s2 ∧ try_fold f s2 l2 = Ok s'.
Proof.
  intros (l1 & l2 & ->)%list_elem_of_split Hf.
  rw try_fold_app /= in Hf.
  apply res_bind_Ok in Hf as (s1 & ? & (s2 & ? & ?)%res_bind_Ok).
  exists l1, l2, s1, s2. auto.
Qed.
End try_fold_lemmas.

(** ** Computations that may panic

    [M W A] threads the state [W] of the world outside the program (guest
    instances, the cluster behind the callback channel) and is [None] when the
    thread panics. *)

Definition M (W A : Type) : Type := W → option (A * W).

Definition m_ret {W A} (a : A) : M W A := λ w, Some (a, w).

Definition m_bind {W A B} (c : M W A) (k : A → M W B) : M W B :=
  λ w, match c w with Some (a, w') => k a w' | None => None end.

Notation "'let!' x ':=' c 'in' k" := (m_bind c (λ x, k))
  (at level 10, x pattern, c at level 200, k at level 200,
   format "'[v' 'let!'  x  ':='  c  'in' '/' k ']'") : rust_scope.

(** The loop over a list, left to right. *)
Fixpoint m_fold {W A S} (f : S → A → M W S) (s : S) (l : list A) : M W S :=
  match l with
  | [] => m_ret s
  | a :: l => let! s' := f s a in m_fold f s' l
  end.

(** [?] inside such a computation. *)
Definition mr_bind {W A B E} (c : M W (result A E)) (k : A → M W (result B E)) :
    M W (result B E) :=
  m_bind c (λ r, match r with Ok a => k a | Err e => m_ret (Err e) end).

Notation "'let!?' x ':=' c 'in' k" := (mr_bind c (λ x, k))
  (at level 10, x pattern, c at level 200, k at level 200,
   format "'[v' 'let!?'  x  ':='  c  'in' '/' k ']'") : rust_scope.

Fixpoint mr_fold {W A S E} (f : S → A → M W (result S E)) (s : S) (l : list A) :
    M W (result S E) :=
  match l with
  | [] => m_ret (Ok s)
  | a :: l => let!? s' := f s a in mr_fold f s' l
  end.

Section panic_lemmas.
Context {W : Type}.

Lemma m_bind_Some {A B} (c : M W A) (k : A → M W B) w r :
  m_bind c k w = Some r ↔ ∃ a w', c w = Some (a, w') ∧ k a w' = Some r.
Proof. rw /m_bind. destruct (c w) as [[a w']|]; naive_solver. Qed.

Lemma m_ret_Some {A} (a : A) (w : W) r : m_ret a w = Some r ↔ r = (a, w).
Proof. rw /m_ret. naive_solver. Qed.

Lemma mr_bind_Ok {A B E} (c : M W (result A E)) (k : A → M W (result B E)) w b w' :
  mr_bind c k w = Some (Ok b, w') ↔
  ∃ a w1, c w = Some (Ok a, w1) ∧ k a w1 = Some (Ok b, w').
Proof.
  rw /mr_bind m_bind_Some. split.
  - intros ([a|e] & w1 & Hc & Hk); [eauto|done].
  - intros (a & w1 & Hc & Hk). by exists (Ok a), w1.
Qed.

(** *** Computations that keep an invariant, and what they return *)
Definition on_ok {A E} (P : A → Prop) (r : result A E) : Prop :=
  match r with Ok a => P a | Err _ => True end.

Definition ensures {A} (I : W → Prop) (c : M W A) (Q : A → Prop) : Prop :=
  ∀ w a w', I w → c w = Some (a, w') → I w' ∧ Q a.

Lemma ensures_ret {A} I (a : A) (Q : A → Prop) : Q a → ensures I (m_ret a) Q.
Proof. by intros HQ w b w' HI [= <- <-]. Qed.

Lemma ensures_bind {A B} I (c : M W A) (k : A → M W B) P Q :
  ensures I c P → (∀ a, P a → ensures I (k a) Q) → ensures I (m_bind c k) Q.
Proof.
  intros Hc Hk w b w' HI (a & w1 & Ha & Hb)%m_bind_Some.
  destruct (Hc _ _ _ HI Ha) as [HI1 HP]. by eapply Hk.
Qed.

Lemma ensures_mr_bind {A B E} I (c : M W (result A E)) (k : A → M W (result B E)) P Q :
  ensures I c (on_ok P) → (∀ a, P a → ensures I (k a) (on_ok Q)) →
  ensures I (mr_bind c k) (on_ok Q).
Proof.
  intros Hc Hk. eapply ensures_bind; [done|]. intros [a|e] HP; [by apply Hk|].
  by apply ensures_ret.
Qed.

Lemma ensures_weaken {A} I (c : M W A) (P Q : A → Prop) :
  (∀ a, P a → Q a) → ensures I c P → ensures I c Q.
Proof. intros HPQ Hc w a w' HI Ha. destruct (Hc _ _ _ HI Ha). auto. Qed.

(** *** Computations that never panic *)
Definition panic_free {A} (c : M W A) : Prop := ∀ w, is_Some (c w).

Lemma total_ret {A} (a : A) : panic_free (m_ret a).
Proof. by intros w; eexists. Qed.

Lemma total_bind {A B} (c : M W A) (k : A → M W B) :
  panic_free c → (∀ a, panic_free (k a)) → panic_free (m_bind c k).
Proof. intros Hc Hk w. rw /m_bind. destruct (Hc w) as [[a w'] ->]. apply Hk. Qed.

Lemma total_mr_bind {A B E} (c : M W (result A E)) (k : A → M W (result B E)) :
  panic_free c → (∀ a, panic_free (k a)) → panic_free (mr_bind c k).
Proof. intros Hc Hk. apply total_bind; [done|]. intros [a|e]; [apply Hk|apply total_ret]. Qed.

Lemma total_mr_ret {A B E} (r : result A E) (k : A → M W (result B E)) :
  (∀ a, r = Ok a → panic_free (k a)) → panic_free (mr_bind (m_ret r) k).
Proof. intros Hk w. destruct r as [a|e]; [by apply Hk|]. by eexists. Qed.

Lemma total_mr_fold {A S E} (f : S → A → M W (result S E)) s l :
  (∀ s a, panic_free (f s a)) → panic_free (mr_fold f s l).
Proof.
  intros Hf. revert s. induction l as [|a l IH]; intros s; [apply total_ret|].
  apply total_mr_bind; [apply Hf|apply IH].
Qed.

(** An invariant of the body, indexed by the elements still to visit. *)
Lemma mr_fold_inv {A S E} (P : list A → S → Prop) (f : S → A → M W (result S E)) s l w s' w' :
  P l s →
  (∀ s a l w s' w', P (a :: l) s → f s a w = Some (Ok s', w') → P l s') →
  mr_fold f s l w = Some (Ok s', w') → P [] s'.
Proof.
  revert s w. induction l as [|a l IH]; intros s w Hs Hf; simpl.
  { rw /m_ret. naive_solver. }
  intros (s1 & w1 & Hs1 & Hl)%mr_bind_Ok. by eapply (IH s1 w1); [eapply Hf| |].
Qed.

(** A preorder the body respects relates the two ends of the loop. *)
Lemma mr_fold_rel {A S E} (Rel : relation S) `{!PreOrder Rel}
    (f : S → A → M W (result S E)) s l w s' w' :
  (∀ s a w s' w', a ∈ l → f s a w = Some (Ok s', w') → Rel s s') →
  mr_fold f s l w = Some (Ok s', w') → Rel s s'.
Proof.
  revert s w. induction l as [|a l IH]; intros s w Hf; simpl.
  { rw /m_ret. naive_solver. }
  intros (s1 & w1 & Hs1 & Hl)%mr_bind_Ok. trans s1.
  - eauto using list_elem_of_here.
  - eapply IH; [|done]. eauto using list_elem_of_further.
Qed.

Lemma mr_fold_split {A S E} (f : S → A → M W (result S E)) s l a w s' w' :
  a ∈ l → mr_fold f s l w = Some (Ok s', w') →
  ∃ l1 l2 s1 w1 s2 w2, l = l1 ++ a :: l2 ∧ mr_fold f s l1 w = Some (Ok s1, w1) ∧
    f s1 a w1 = Some (Ok s2, w2) ∧ mr_fold f s2 l2 w2 = Some (Ok s', w').
Proof.
  revert s w. induction l as [|x l IH]; intros s w Hin; [by apply elem_of_nil in Hin|].
  simpl. intros (s1 & w1 & Hs1 & Hl)%mr_bind_Ok.
  apply elem_of_cons in Hin as [->|Hin]; [by exists [], l, s, w, s1, w1|].
  destruct (IH s1 w1 Hin Hl) as (l1 & l2 & s2 & w2 & s3 & w3 & -> & Hf1 & Hf2 & Hf3).
  exists (x :: l1), l2, s2, w2, s3, w3. split_and!; [done| |done|done].
  simpl. apply mr_bind_Ok. eauto.
Qed.

(** An invariant of the body is an invariant of the loop. *)
Lemma m_fold_inv {A S} (P : S → W → Prop) (f : S → A → M W S) s l w s' w' :
  P s w →
  (∀ s a w s' w', a ∈ l → P s w → f s a w = Some (s', w') → P s' w') →
  m_fold f s l w = Some (s', w') → P s' w'.
Proof.
  revert s w. induction l as [|a l IH]; intros s w Hs Hf; simpl.
  { rw /m_ret. naive_solver. }
  intros (s1 & w1 & Hs1 & Hl)%m_bind_Some.
  eapply (IH s1 w1); eauto using list_elem_of_further, list_elem_of_here.
Qed.
End panic_lemmas.

(** ** Hash map iteration

    Rust's [HashMap] yields its entries in an unspecified order. Every loop
    over one goes through this interface, and every theorem holds for each
    instance of it. *)

Class HashIter := {
  hash_iter : ∀ {V : Type}, gmap string V → list (string * V);
  hash_iter_perm : ∀ (V : Type) (m : gmap string V), hash_iter m ≡ₚ map_to_list m;
}.

#[export] Instance canonical_hash_iter : HashIter := {|
  hash_iter V m := map_to_list m;
  hash_iter_perm V m := Permutation_refl _;
|}.

Definition hash_keys `{HashIter} {V} (m : gmap string V) : list string :=
  (hash_iter m).*1.

Section hash_iter_lemmas.
Context `{HashIter} {V : Type}.
Implicit Types (m : gmap string V).

Lemma elem_of_hash_iter m k v : (k, v) ∈ hash_iter m ↔ m !! k = Some v.
Proof. by rw hash_iter_perm elem_of_map_to_list. Qed.

Lemma NoDup_hash_keys m : NoDup (hash_keys m).
Proof. rw /hash_keys hash_iter_perm. apply NoDup_fst_map_to_list. Qed.

Lemma elem_of_hash_keys m k : k ∈ hash_keys m ↔ is_Some (m !! k).
Proof.
  rw /hash_keys list_elem_of_fmap. split.
  - intros ([k' v] & -> & Hin). exists v. by apply elem_of_hash_iter.
  - intros [v Hv]. exists (k, v). by rw elem_of_hash_iter.
Qed.
End hash_iter_lemmas.

(** ** BTree iteration: sorted by key. *)

Definition key_le {V} (a b : string * V) : Prop := String.le a.1 b.1.

#[export] Instance key_le_dec {V} : RelDecision (@key_le V).
Proof. intros a b. unfold key_le. apply _. Defined.

Definition btree_iter {V} (m : gmap string V) : list (string * V) :=
  merge_sort key_le (map_to_list m).

Definition btree_set_iter (s : gset string) : list string :=
  merge_sort String.le (elements s).

Lemma elem_of_btree_set_iter s x : x ∈ btree_set_iter s ↔ x ∈ s.
Proof. by rw /btree_set_iter merge_sort_Permutation elem_of_elements. Qed.

Lemma elem_of_btree_iter {V} (m : gmap string V) k v :
  (k, v) ∈ btree_iter m ↔ m !! k = Some v.
Proof. by rw /btree_iter merge_sort_Permutation elem_of_map_to_list. Qed.

(** ** Lists *)

Lemma existsb_false {A} (f : A → bool) l : existsb f l = false ↔ Forall (λ x, f x = false) l.
Proof.
  rewrite Forall_forall. induction l as [|x l IH]; simpl; [set_solver|].
  rewrite orb_false_iff IH. set_solver.
Qed.

(** How many elements satisfy a test. *)
Definition count_if {A} (f : A → bool) (l : list A) : nat := length (List.filter f l).

Lemma count_if_app {A} (f : A → bool) l1 l2 : count_if f (l1 ++ l2) = count_if f l1 + count_if f l2.
Proof. by rewrite /count_if List.filter_app length_app. Qed.

Lemma count_if_update {A} (f : A → bool) l i x y :
  l !! i = Some x →
  count_if f (<[i := y]> l) + (if f x then 1 else 0) = count_if f l + (if f y then 1 else 0).
Proof.
  intros Hi. rewrite insert_take_drop; [|by eapply lookup_lt_Some].
  rewrite -{3}(take_drop_middle l i x Hi) !count_if_app /count_if /=.
  destruct (f x), (f y); simpl; lia.
Qed.

Lemma count_if_positive {A} (f : A → bool) l i x : l !! i = Some x → f x = true → 0 < count_if f l.
Proof.
  intros Hi Hf. rewrite -(take_drop_middle l i x Hi) count_if_app /count_if /= Hf /=. lia.
Qed.

Lemma NoDup_omap_inj {A B} (f : A → option B) (l : list A) :
  (∀ x y z, f x = Some z → f y = Some z → x = y) → NoDup l → NoDup (omap f l).
Proof.
  intros Hf. induction 1 as [|x l Hx _ IH]; simpl; [apply NoDup_nil_2|].
  destruct (f x) as [z|] eqn:Hz; [|done]. apply NoDup_cons. split; [|done].
  intros (y & Hy & Hfy)%list_elem_of_omap. by rw (Hf x y z Hz Hfy) in Hx.
Qed.

(** ** Automation

    [res_simpl] splits hypotheses about successful or failed [?] chains into
    one equation per step. *)

Ltac res_simpl_step :=
  match goal with
  | H : res_bind _ _ = Ok _ |- _ => apply res_bind_Ok in H as (? & ? & H)
  | H : map_err _ _ = Ok _ |- _ => apply map_err_Ok in H
  | H : ok_or _ _ = Ok _ |- _ => apply ok_or_Ok in H
  | H : res_map _ _ = Ok _ |- _ => apply res_map_Ok in H as (? & ? & ?)
  | H : map_err _ _ = Err _ |- _ => apply map_err_Err in H as (? & ? & ?)
  | H : ok_or _ _ = Err _ |- _ => apply ok_or_Err in H as [? ?]
  | H : _ ∧ _ |- _ => destruct H
  | H : ∃ _, _ |- _ => destruct H
  end.

Ltac simplify_eqs := simplify_eq/=.

Ltac res_simpl := repeat first [res_simpl_step | progress simplify_eqs].

(** Case split on every [match] and [if] of the goal and of the hypotheses. *)
Ltac split_matches := repeat first [case_match | case_decide]; simplify_eqs.

Create HintDb kw discriminated.
#[export] Hint Resolve list_elem_of_here list_elem_of_further : kw.
