(* ===== verification/RustStr.v ===== *)
(** * Rust's [&str] operations

    A Rust string is its UTF-8 byte sequence, a [string]. The operations are the
    ones the modelled code calls on [str]: [split], [contains], [starts_with],
    [ends_with], [strip_suffix], [strip_prefix], [join] and [trim]. [split] and
    the [contains] of a character are used on ASCII separators only, where byte
    and character positions agree. *)

From S2P Require Import Prelude.

Definition starts_with (s p : string) : bool := String.prefix p s.
Arguments starts_with : simpl never.

Fixpoint contains (s p : string) : bool :=
  starts_with s p ||
  match s with EmptyString => false | String _ s' => contains s' p end.

Fixpoint contains_char (s : string) (c : ascii) : bool :=
  match s with
  | EmptyString => false
  | String a s' => bool_decide (a = c) || contains_char s' c
  end.

Fixpoint strip_suffix (s q : string) : option string :=
  if decide (s = q) then Some "" else
  match s with
  | EmptyString => None
  | String a s' => String a <$> strip_suffix s' q
  end.

Definition ends_with (s q : string) : bool := bool_decide (is_Some (strip_suffix s q)).

Fixpoint strip_prefix (s p : string) {struct p} : option string :=
  match p, s with
  | EmptyString, _ => Some s
  | String a p', String b s' => if decide (a = b) then strip_prefix s' p' else None
  | String _ _, EmptyString => None
  end.

(** [str::split] on a one-character ASCII separator: never empty. *)
Fixpoint split (s : string) (c : ascii) : list string :=
  match s with
  | EmptyString => [""]
  | String a s' =>
      if decide (a = c) then "" :: split s' c else
      match split s' c with
      | h :: t => String a h :: t
      | [] => [String a ""]
      end
  end.

Definition join (sep : string) (l : list string) : string := String.concat sep l.

(** [str::trim] removes leading and trailing characters with the Unicode
    [White_Space] property; these are their UTF-8 encodings. *)
Definition byte_seq (l : list N) : string :=
  foldr (λ n s, String (Ascii.ascii_of_N n) s) "" l.

Definition white_space : list string :=
  byte_seq <$> ([[9]; [10]; [11]; [12]; [13]; [32]; [0xC2; 0x85]; [0xC2; 0xA0];
    [0xE1; 0x9A; 0x80]; [0xE2; 0x80; 0x80]; [0xE2; 0x80; 0x81]; [0xE2; 0x80; 0x82];
    [0xE2; 0x80; 0x83]; [0xE2; 0x80; 0x84]; [0xE2; 0x80; 0x85]; [0xE2; 0x80; 0x86];
    [0xE2; 0x80; 0x87]; [0xE2; 0x80; 0x88]; [0xE2; 0x80; 0x89]; [0xE2; 0x80; 0x8A];
    [0xE2; 0x80; 0xA8]; [0xE2; 0x80; 0xA9]; [0xE2; 0x80; 0xAF]; [0xE2; 0x81; 0x9F];
    [0xE3; 0x80; 0x80]]%N).

(** Remove pieces with [strip] while one of [ws] applies; each step removes at
    least one byte, so the length of the string is enough fuel. *)
Fixpoint trim_with (strip : string → string → option string) (ws : list string)
    (fuel : nat) (s : string) : string :=
  match fuel with
  | O => s
  | S fuel =>
      match head (omap (strip s) ws) with
      | Some s' => trim_with strip ws fuel s'
      | None => s
      end
  end.

Definition trim_start (s : string) : string :=
  trim_with strip_prefix white_space (String.length s) s.
Definition trim_end (s : string) : string :=
  trim_with strip_suffix white_space (String.length s) s.
Definition trim (s : string) : string := trim_end (trim_start s).

(** ** Appending *)

Lemma app_String a s t : String a s +:+ t = String a (s +:+ t).
Proof. done. Qed.
Lemma app_Empty t : "" +:+ t = t.
Proof. done. Qed.
#[export] Hint Rewrite app_String app_Empty : kw_str.

Lemma str_app_assoc s t u : (s +:+ t) +:+ u = s +:+ (t +:+ u).
Proof. induction s as [|a s IH]; [done|]. by rw !app_String IH. Qed.

Lemma str_app_nil_r s : s +:+ "" = s.
Proof. induction s as [|a s IH]; [done|]. by rw app_String IH. Qed.

Lemma str_length_app s t : String.length (s +:+ t) = String.length s + String.length t.
Proof. induction s as [|a s IH]; [done|]. rw app_String /=. by rw IH. Qed.

#[export] Instance str_app_inj_r s : Inj (=) (=) (String.append s).
Proof. induction s as [|a s IH]; intros t u; [done|]. rw !app_String.
  intros [= Heq]. by apply IH.
Qed.

Lemma str_app_inj_l s t u : s +:+ u = t +:+ u → s = t.
Proof.
  revert t. induction s as [|a s IH]; intros [|b t] Heq; [done| | |].
  - apply (f_equal String.length) in Heq.
    rw app_Empty !app_String /= str_length_app in Heq. lia.
  - apply (f_equal String.length) in Heq.
    rw app_Empty !app_String /= str_length_app in Heq. lia.
  - rw !app_String in Heq. simplify_eq. f_equal. by apply IH.
Qed.

(** ** Prefixes and suffixes *)

Lemma strip_prefix_Some s p t : strip_prefix s p = Some t ↔ s = p +:+ t.
Proof.
  revert s. induction p as [|a p IH]; intros s; simpl; [rw app_Empty; naive_solver|].
  destruct s as [|b s]; [done|]. rw app_String. case_decide; naive_solver.
Qed.

Lemma strip_suffix_Some s q t : strip_suffix s q = Some t ↔ s = t +:+ q.
Proof.
  revert t. induction s as [|a s IH]; intros t; simpl; case_decide as Hq; subst.
  - split; [intros [= <-]; done|]. intros Ht. f_equal.
    destruct t; [done|]. by rw app_String in Ht.
  - split; [done|]. destruct t; naive_solver.
  - split; [intros [= <-]; done|]. intros Ht. f_equal.
    symmetry. apply (str_app_inj_l _ _ (String a s)). by rw -Ht.
  - rw fmap_Some. split.
    + intros (x & Hx%IH & ->). by rw app_String Hx.
    + destruct t as [|b t]; [naive_solver|]. rw app_String. intros [= -> Hs].
      exists t. by rw IH.
Qed.

Lemma starts_with_spec s p : starts_with s p ↔ ∃ t, s = p +:+ t.
Proof.
  rw /starts_with. revert s. induction p as [|a p IH]; intros s; simpl.
  { split; [exists s; done|]. by destruct s. }
  destruct s as [|b s]; simpl.
  { split; [done|]. by intros [t ?]. }
  destruct (ascii_dec a b) as [->|Hne].
  - rw IH. setoid_rewrite app_String. split; [naive_solver|]. intros [t [= ?]]. eauto.
  - split; [done|]. intros [t Ht]. rw app_String in Ht. naive_solver.
Qed.

Lemma ends_with_spec s q : ends_with s q ↔ ∃ t, s = t +:+ q.
Proof.
  rw /ends_with bool_decide_spec /is_Some.
  by setoid_rewrite strip_suffix_Some.
Qed.

Lemma contains_spec s p : contains s p ↔ ∃ t u, s = t +:+ (p +:+ u).
Proof.
  induction s as [|a s IH]; simpl; rw orb_True starts_with_spec.
  - split.
    + intros [[u Hu]|[]]. by exists "", u.
    + intros (t & u & Ht). destruct t; [|done]. left. by exists u.
  - rw IH. split.
    + intros [[u Hu]|(t & u & ->)]; [by exists "", u|]. by exists (String a t), u.
    + intros ([|b t] & u & Ht); [left; by exists u|].
      rw app_String in Ht. naive_solver.
Qed.

Lemma contains_char_app s t c : contains_char (s +:+ t) c = contains_char s c || contains_char t c.
Proof. induction s as [|a s IH]; [done|]. rw app_String /= IH. by rw orb_assoc. Qed.

(** ** Splitting and joining *)

Lemma split_cons s c : ∃ h t, split s c = h :: t.
Proof.
  destruct s as [|a s]; simpl; [eauto|].
  case_decide; [eauto|]. destruct (split s c); eauto.
Qed.

Lemma split_no_sep s c : contains_char s c = false → split s c = [s].
Proof.
  induction s as [|a s IH]; simpl; [done|].
  intros [Ha Hs]%orb_false_iff. apply bool_decide_eq_false in Ha.
  rw decide_False // IH //.
Qed.

Lemma split_app s t c :
  contains_char s c = false → split (s +:+ String c t) c = s :: split t c.
Proof.
  induction s as [|a s IH]; simpl.
  { intros _. by rw decide_True. }
  intros [Ha Hs]%orb_false_iff. apply bool_decide_eq_false in Ha.
  by rw decide_False // IH.
Qed.

(** No piece contains the separator. *)
Lemma split_pieces s c : Forall (λ p, contains_char p c = false) (split s c).
Proof.
  induction s as [|a s IH]; simpl; [by repeat constructor|].
  case_decide as Ha; [by constructor|].
  destruct (split s c) as [|h t]; inv IH; repeat constructor; simpl; auto.
  all: by rw bool_decide_eq_false_2.
Qed.

Lemma split_other_char s c d :
  contains_char s d = false → Forall (λ p, contains_char p d = false) (split s c).
Proof.
  induction s as [|a s IH]; simpl; [by repeat constructor|].
  intros [Ha Hs]%orb_false_iff. specialize (IH Hs).
  destruct (decide (a = c)); [by constructor|].
  destruct (split s c) as [|h t]; inv IH; repeat constructor; simpl; auto.
  all: by rw Ha.
Qed.

Lemma join_cons sep a l :
  l ≠ [] → join sep (a :: l) = a +:+ (sep +:+ join sep l).
Proof. by destruct l. Qed.

Lemma join_String sep a h t : join sep (String a h :: t) = String a (join sep (h :: t)).
Proof. by destruct t. Qed.

Lemma join_split s c : join (String c "") (split s c) = s.
Proof.
  induction s as [|a s IH]; simpl; [done|].
  destruct (split_cons s c) as (h & t & Hs). rw Hs in IH |- *.
  case_decide as Ha.
  - by rw join_cons // IH Ha.
  - by rw join_String IH.
Qed.

Lemma split_join l c :
  l ≠ [] → Forall (λ p, contains_char p c = false) l →
  split (join (String c "") l) c = l.
Proof.
  induction l as [|a l IH]; [done|]. intros _ Hl. inv Hl.
  destruct l as [|b l]; [by apply split_no_sep|].
  rw join_cons // app_String app_Empty split_app // IH //.
Qed.

(** ** Trimming

    [trim_with] stops only where no white space is left to strip. *)

Section trim_with_lemmas.
Context (strip : string → string → option string) (ws : list string).
Hypothesis strip_shorter : ∀ s w t,
  w ∈ ws → strip s w = Some t → String.length t < String.length s.

Definition untrimmed (s : string) : Prop := ∃ w t, w ∈ ws ∧ strip s w = Some t.

Lemma head_omap_None s : head (omap (strip s) ws) = None ↔ ¬ untrimmed s.
Proof.
  split.
  - intros Hh%head_None (w & t & Hw & Ht).
    assert (t ∈ omap (strip s) ws) as Hin by (apply list_elem_of_omap; eauto).
    rw Hh in Hin. by apply elem_of_nil in Hin.
  - intros Hn. destruct (omap (strip s) ws) as [|t l] eqn:E; [done|].
    destruct Hn. assert (t ∈ omap (strip s) ws) as Hin.
    { rw E. apply list_elem_of_here. }
    apply list_elem_of_omap in Hin as (w & ? & ?). by exists w, t.
Qed.

Lemma head_omap_Some s t :
  head (omap (strip s) ws) = Some t → ∃ w, w ∈ ws ∧ strip s w = Some t.
Proof. intros Ht%head_Some_elem_of. by apply list_elem_of_omap in Ht. Qed.

Lemma trim_with_done fuel s :
  String.length s ≤ fuel → ¬ untrimmed (trim_with strip ws fuel s).
Proof.
  revert s. induction fuel as [|fuel IH]; intros s Hlen; simpl.
  - intros (w & t & Hw & Ht). apply strip_shorter in Ht; [lia|done].
  - destruct (head _) as [t|] eqn:E; [|by apply head_omap_None].
    apply IH. apply head_omap_Some in E as (w & Hw & Ht).
    apply strip_shorter in Ht; [lia|done].
Qed.

Lemma trim_with_id fuel s : ¬ untrimmed s → trim_with strip ws fuel s = s.
Proof.
  intros Hs. destruct fuel; simpl; [done|].
  by apply head_omap_None in Hs as ->.
Qed.

(** What holds of the string and is kept by one strip holds of the result. *)
Lemma trim_with_inv (P : string → Prop) fuel s :
  P s → (∀ s w t, w ∈ ws → strip s w = Some t → P s → P t) →
  P (trim_with strip ws fuel s).
Proof.
  intros Hs HP. revert s Hs. induction fuel as [|fuel IH]; intros s Hs; simpl; [done|].
  destruct (head _) as [t|] eqn:E; [|done].
  apply head_omap_Some in E as (w & Hw & Ht). eauto.
Qed.
End trim_with_lemmas.

Lemma white_space_nonempty w : w ∈ white_space → 0 < String.length w.
Proof.
  revert w. apply Forall_forall. vm_compute. repeat constructor.
Qed.

Lemma strip_prefix_shorter s w t :
  w ∈ white_space → strip_prefix s w = Some t → String.length t < String.length s.
Proof.
  intros ?%white_space_nonempty ->%strip_prefix_Some. rw str_length_app. lia.
Qed.

Lemma strip_suffix_shorter s w t :
  w ∈ white_space → strip_suffix s w = Some t → String.length t < String.length s.
Proof.
  intros ?%white_space_nonempty ->%strip_suffix_Some. rw str_length_app. lia.
Qed.

Definition starts_with_space := untrimmed strip_prefix white_space.
Definition ends_with_space := untrimmed strip_suffix white_space.

Lemma trim_start_done s : ¬ starts_with_space (trim_start s).
Proof. apply trim_with_done; [apply strip_prefix_shorter|done]. Qed.

Lemma trim_end_done s : ¬ ends_with_space (trim_end s).
Proof. apply trim_with_done; [apply strip_suffix_shorter|done]. Qed.

Lemma trim_end_no_leading s : ¬ starts_with_space s → ¬ starts_with_space (trim_end s).
Proof.
  intros Hs. apply (trim_with_inv _ _ (λ s, ¬ starts_with_space s)); [done|].
  intros s' w t _ ->%strip_suffix_Some Hn (w' & t' & Hw & ->%strip_prefix_Some).
  apply Hn. exists w', (t' +:+ w). split; [done|].
  apply strip_prefix_Some. by rw str_app_assoc.
Qed.

(** A trimmed string has no white space at either end, and trimming it again
    changes nothing. *)
Lemma trim_done s : ¬ starts_with_space (trim s) ∧ ¬ ends_with_space (trim s).
Proof.
  split; [|apply trim_end_done]. apply trim_end_no_leading, trim_start_done.
Qed.

Lemma trim_id s : ¬ starts_with_space s → ¬ ends_with_space s → trim s = s.
Proof.
  intros Hs He. rw /trim /trim_start (trim_with_id _ _ _ s) //.
  by apply trim_with_id.
Qed.

Lemma trim_idemp s : trim (trim s) = trim s.
Proof. destruct (trim_done s). by apply trim_id. Qed.

(** ** [{:?}] of a string

    The escapes of [str::escape_debug] for ASCII; other characters are printed
    as they are. *)

Definition dquote : string := String (Ascii.ascii_of_N 34) "".

Definition hex_digit (n : N) : ascii :=
  Ascii.ascii_of_N (if (n <? 10)%N then n + 48 else n + 87)%N.

Definition escape_char (c : ascii) : string :=
  let n := Ascii.N_of_ascii c in
  if (n =? 34)%N then String "\"%char dquote else
  if (n =? 92)%N then "\\" else
  if (n =? 9)%N then "\t" else
  if (n =? 10)%N then "\n" else
  if (n =? 13)%N then "\r" else
  if (n =? 0)%N then "\0" else
  if (n <? 16)%N then "\u{" +:+ String (hex_digit n) "}" else
  if (n <? 32)%N then "\u{1" +:+ String (hex_digit (n - 16)) "}" else
  if (n =? 127)%N then "\u{7f}" else String c "".

Fixpoint escape_debug (s : string) : string :=
  match s with EmptyString => "" | String c s => escape_char c +:+ escape_debug s end.

Definition debug_str (s : string) : string := dquote +:+ escape_debug s +:+ dquote.
