(* ===== verification/RustPath.v ===== *)
(** * Paths

    [std::path] on Unix, as far as the program uses it: the components of a path, its
    parent and its file name. *)

From S2P Require Import Prelude RustStr.

(** The components of a path: empty ones are dropped, and so is [.] except at the
    start of a relative path. *)
Record Path := { absolute : bool; components : list string }.

#[export] Instance Path_eq_dec : EqDecision Path.
Proof. solve_decision. Defined.

Definition path_of (s : string) : Path :=
  let parts := filter (λ c, c ≠ "") (split s "/"%char) in
  let keep l := filter (λ c, c ≠ ".") l in
  let absolute := starts_with s "/" in
  {| absolute := absolute;
     components := match parts with
                   | [] => []
                   | c :: l => if absolute then keep (c :: l) else c :: keep l
                   end |}.

Definition path_parent (p : Path) : option Path :=
  match components p with
  | [] => None
  | l => Some {| absolute := absolute p; components := take (length l - 1) l |}
  end.

Definition path_file_name (p : Path) : option string :=
  match last (components p) with
  | Some c => if decide (c = ".." ∨ c = ".") then None else Some c
  | None => None
  end.

Definition path_empty (p : Path) : bool :=
  negb (absolute p) && bool_decide (components p = []).

(** [Path::join] of a file name. *)
Definition path_join (p : Path) (name : string) : Path :=
  {| absolute := absolute p; components := components p ++ [name] |}.

(** The file a path denotes: the current directory at the start of a relative path
    does not count. Links are not followed. *)
Definition resolve (p : Path) : Path :=
  match components p with
  | "." :: l => if absolute p then p else {| absolute := false; components := l |}
  | _ => p
  end.

Lemma path_join_file_name p name :
  name ≠ "." → name ≠ ".." → path_file_name (path_join p name) = Some name.
Proof.
  intros H1 H2. rewrite /path_file_name /path_join /= last_snoc. by rewrite decide_False; [|naive_solver].
Qed.

Lemma resolve_components p :
  components (resolve p) = components p ∨ components p = "." :: components (resolve p).
Proof.
  rewrite /resolve. destruct (components p) as [|c l] eqn:Hc; [by left|].
  destruct (decide (c = ".")) as [->|Hne]; [destruct (absolute p); [by left|by right]|].
  left. repeat case_match; simplify_eq; congruence.
Qed.

(** Paths of the same file have the same name. *)
Lemma resolve_file_name p q name :
  resolve p = resolve q → path_file_name q = Some name → path_file_name p = Some name.
Proof.
  intros Heq. rewrite /path_file_name.
  assert (∀ p c, last (components p) = Some c → c ≠ "." → last (components (resolve p)) = Some c) as Hl.
  { intros r c. destruct (resolve_components r) as [->| ->]; [done|].
    destruct (components (resolve r)); simpl; [naive_solver|done]. }
  assert (∀ p c, last (components (resolve p)) = Some c → last (components p) = Some c) as Hr.
  { intros r c. destruct (resolve_components r) as [->| ->]; [done|].
    destruct (components (resolve r)); simpl; [naive_solver|done]. }
  destruct (last (components q)) as [c|] eqn:Hq; [|done].
  case_decide as Hd; [done|]. intros [= ->].
  rewrite (Hr p name); [by rewrite decide_False|]. rewrite Heq. apply Hl; naive_solver.
Qed.

#[export] Instance Path_countable : Countable Path.
Proof.
  refine (inj_countable' (λ p, (absolute p, components p))
    (λ t, {| absolute := t.1; components := t.2 |}) _). by intros [].
Defined.
