(* ===== verification/DebugFmt.v ===== *)
(** * [Debug] formats and the keys built from them

    Rust's [{:?}] of strings, options, lists, sets and maps, as the callback handler
    uses them to build the keys of its caches
    ([crates/policy-evaluator/src/callback_handler/]). A format is [decodable] when a
    text that starts with it determines the value and the rest; keys made of decodable
    formats do not collide. *)

From S2P Require Import Prelude RustStr.

Definition debug_option {A} (f : A → string) (o : option A) : string :=
  match o with None => "None" | Some a => "Some(" +:+ f a +:+ ")" end.

Definition debug_list {A} (f : A → string) (l : list A) : string :=
  "[" +:+ join ", " (f <$> l) +:+ "]".

Definition debug_set (s : gset string) : string :=
  "{" +:+ join ", " (debug_str <$> btree_set_iter s) +:+ "}".

Definition debug_entry (kv : string * string) : string :=
  debug_str kv.1 +:+ ": " +:+ debug_str kv.2.

Definition debug_map (m : gmap string string) : string :=
  "{" +:+ join ", " (debug_entry <$> btree_iter m) +:+ "}".

(** ** Decodable formats *)

Definition decodable {A} (f : A → string) : Prop :=
  ∀ a b r r', f a +:+ r = f b +:+ r' → a = b ∧ r = r'.

(** Every text of the format starts with [c]. *)
Definition begins {A} (c : ascii) (f : A → string) : Prop :=
  ∀ a, ∃ t, f a = String c t.

Lemma str_app_inj_r s t u : s +:+ t = s +:+ u → t = u.
Proof. induction s; simpl; [done|]. intros [= ?]. auto. Qed.

Lemma decodable_pre {A} (f : A → string) s : decodable f → decodable (λ a, s +:+ f a).
Proof. intros Hf a b r r'. rw !str_app_assoc. by intros ?%str_app_inj_r%Hf. Qed.

Lemma decodable_post {A} (f : A → string) s : decodable f → decodable (λ a, f a +:+ s).
Proof.
  intros Hf a b r r'. rw !str_app_assoc. intros [-> Hr]%Hf. split; [done|].
  by apply str_app_inj_r in Hr.
Qed.

Lemma decodable_pair {A B} (f : A → string) (g : B → string) s :
  decodable f → decodable g → decodable (λ p : A * B, f p.1 +:+ s +:+ g p.2).
Proof.
  intros Hf Hg [a1 b1] [a2 b2] r r'. rw !str_app_assoc. simpl.
  intros [-> Hr]%Hf. apply str_app_inj_r, Hg in Hr as [-> ->]. done.
Qed.

(** *** Strings *)

(** Reads one character back. *)
Definition unescape_char (s : string) : option (ascii * string) :=
  let hex (h : ascii) : N := let n := Ascii.N_of_ascii h in
    if (n <? 58)%N then (n - 48)%N else (n - 87)%N in
  match s with
  | String "\" (String "u" (String "{" (String h (String "}" s)))) => Some (Ascii.ascii_of_N (hex h), s)
  | String "\" (String "u" (String "{" (String h (String h' (String "}" s))))) =>
      Some (Ascii.ascii_of_N (16 * hex h + hex h'), s)
  | String "\" (String "t" s) => Some (Ascii.ascii_of_N 9, s)
  | String "\" (String "n" s) => Some (Ascii.ascii_of_N 10, s)
  | String "\" (String "r" s) => Some (Ascii.ascii_of_N 13, s)
  | String "\" (String "0" s) => Some (Ascii.ascii_of_N 0, s)
  | String "\" (String c s) => Some (c, s)
  | String c s => Some (c, s)
  | EmptyString => None
  end.

Lemma unescape_escape c r : unescape_char (escape_char c +:+ r) = Some (c, r).
Proof. destruct c as [[] [] [] [] [] [] [] []]; reflexivity. Qed.

Lemma escape_char_decodable : decodable escape_char.
Proof.
  intros a b r r' H. apply (f_equal unescape_char) in H. rewrite !unescape_escape in H.
  by simplify_eq.
Qed.

Definition quote : ascii := Ascii.ascii_of_N 34.

Lemma escape_char_not_quote c r t : escape_char c +:+ r ≠ String quote t.
Proof. destruct c as [[] [] [] [] [] [] [] []]; discriminate. Qed.

Lemma debug_str_decodable : decodable debug_str.
Proof.
  intros a b r r'. rw /debug_str !str_app_assoc. intros [= H]. revert b r r' H.
  induction a as [|c a IH]; intros [|d b] r r'; simpl; rw ?str_app_assoc.
  - by intros [= ?].
  - intros H. by destruct (escape_char_not_quote d (escape_debug b +:+ dquote +:+ r') r).
  - intros H. by destruct (escape_char_not_quote c (escape_debug a +:+ dquote +:+ r) r').
  - intros [-> [-> ->]%IH]%escape_char_decodable. done.
Qed.

Lemma debug_str_begins : begins quote debug_str.
Proof. intros s. by eexists. Qed.

Lemma debug_entry_decodable : decodable debug_entry.
Proof. apply (decodable_pair debug_str debug_str); apply debug_str_decodable. Qed.

Lemma debug_entry_begins : begins quote debug_entry.
Proof. intros [k v]. by eexists. Qed.

(** *** Options and sequences *)

Lemma debug_option_decodable {A} (f : A → string) : decodable f → decodable (debug_option f).
Proof.
  intros Hf [a|] [b|] r r'; simpl; rw ?str_app_assoc; try done.
  - intros H%(str_app_inj_r "Some("). apply Hf in H as [-> H]. by apply (str_app_inj_r ")") in H as ->.
  - intros H%(str_app_inj_r "None"). done.
Qed.

Lemma join_map_cons {A} (f : A → string) sep a b l :
  join sep (f <$> a :: b :: l) = f a +:+ sep +:+ join sep (f <$> b :: l).
Proof. done. Qed.

(** A sequence ended by a character that is neither a comma nor the first of an
    element. *)
Lemma join_decodable {A} (f : A → string) c e :
  decodable f → begins c f → c ≠ e → e ≠ ","%char →
  decodable (λ l : list A, join ", " (f <$> l) +:+ String e "").
Proof.
  intros Hf Hc Hce He l l' r r'. rw !str_app_assoc. simpl.
  assert (∀ a t t', f a +:+ t ≠ String e t') as Hstart.
  { intros a t t'. destruct (Hc a) as [u ->]. simpl. by intros [= ? _]. }
  assert (∀ a (k : list A) t, join ", " (f <$> a :: k) +:+ t = f a +:+ match k with
    | [] => t | b :: k => ", " +:+ join ", " (f <$> b :: k) +:+ t end) as Hcons.
  { intros a [|b k] t; [done|]. by rw join_map_cons !str_app_assoc. }
  destruct l as [|a l], l' as [|b l']; rw ?Hcons; simpl.
  - intros H. by injection H as H.
  - intros H. by destruct (Hstart b _ _ (eq_sym H)).
  - intros H. by destruct (Hstart a _ _ H).
  - revert a b l'. induction l as [|a' l IH]; intros a b [|b' l'].
    + intros [-> H]%Hf. by injection H as H.
    + intros [_ H]%Hf. by injection H.
    + intros [_ H]%Hf. by injection H.
    + intros [-> H]%Hf. simpl in H. injection H as H. rewrite !Hcons in H.
      destruct (IH a' b' l' H) as [Heq ->]. by rw Heq.
Qed.

Lemma debug_list_decodable {A} (f : A → string) c :
  decodable f → begins c f → c ≠ "]"%char → decodable (debug_list f).
Proof. intros. apply decodable_pre. by apply (join_decodable f c). Qed.

(** *** Sets and maps *)

Lemma btree_set_iter_inj (s t : gset string) : btree_set_iter s = btree_set_iter t → s = t.
Proof. intros H. apply set_eq. intros x. by rewrite -!elem_of_btree_set_iter H. Qed.

Lemma btree_iter_inj {V} (m m' : gmap string V) : btree_iter m = btree_iter m' → m = m'.
Proof.
  intros H. apply map_eq. intros k. apply option_eq. intros v. by rewrite -!elem_of_btree_iter H.
Qed.

Lemma debug_set_decodable : decodable debug_set.
Proof.
  intros s t r r' H.
  apply (decodable_pre _ "{" (join_decodable debug_str quote "}" debug_str_decodable
    debug_str_begins ltac:(done) ltac:(done))) in H as [H ->].
  split; [by apply btree_set_iter_inj|done].
Qed.

Lemma debug_map_decodable : decodable debug_map.
Proof.
  intros s t r r' H.
  apply (decodable_pre _ "{" (join_decodable debug_entry quote "}" debug_entry_decodable
    debug_entry_begins ltac:(done) ltac:(done))) in H as [H ->].
  split; [by apply btree_iter_inj|done].
Qed.

#[export] Hint Resolve debug_str_decodable debug_str_begins debug_option_decodable
  debug_set_decodable debug_map_decodable : decode.

(** A value that ends the text. *)
Lemma decodable_inj {A} (f : A → string) a b : decodable f → f a = f b → a = b.
Proof. intros Hf H. apply (Hf a b "" ""). by rewrite H. Qed.

(** *** Fields that are not quoted *)

(** A field without [c], ended by [c]. *)
Lemma field_decodable c s s' r r' :
  contains_char s c = false → contains_char s' c = false →
  s +:+ String c r = s' +:+ String c r' → s = s' ∧ r = r'.
Proof.
  revert s'. induction s as [|a s IH]; intros [|b s']; simpl; rw ?orb_false_iff.
  - by intros _ _ [= ->].
  - intros _ [Hb _] [= <- _]. by rewrite bool_decide_eq_true_2 in Hb.
  - intros [Ha _] _ [= -> _]. by rewrite bool_decide_eq_true_2 in Ha.
  - intros [_ Ha] [_ Hb] [= <- H]. by destruct (IH s' Ha Hb H) as [-> ->].
Qed.

(** A field without the first character of the format that follows it. *)
Lemma field_then_decodable {A} c (f : A → string) s s' a b r r' :
  decodable f → begins c f → contains_char s c = false → contains_char s' c = false →
  s +:+ f a +:+ r = s' +:+ f b +:+ r' → s = s' ∧ a = b ∧ r = r'.
Proof.
  intros Hf Hb Hs Hs' H. destruct (Hb a) as [t Ht], (Hb b) as [t' Ht'].
  assert (s = s') as ->.
  { rewrite Ht Ht' in H. simpl in H. by apply field_decodable in H as [-> _]. }
  apply str_app_inj_r, Hf in H. done.
Qed.

(** *** A free field, then an option at the end *)

Lemma str_app_eq_inv s1 s2 t1 t2 :
  s1 +:+ s2 = t1 +:+ t2 →
  (∃ k, t1 = s1 +:+ k ∧ s2 = k +:+ t2) ∨ (∃ k, s1 = t1 +:+ k ∧ t2 = k +:+ s2).
Proof.
  revert t1. induction s1 as [|a s1 IH]; intros [|b t1]; simpl.
  - intros H. left. exists "". split; [done|exact H].
  - intros H. left. eexists. split; [done|exact H].
  - intros H. right. eexists. split; [done|exact (eq_sym H)].
  - intros H. injection H as <- H. apply IH in H as [(k & -> & ->)|(k & -> & ->)]; [left|right]; by exists k.
Qed.

Lemma str_snoc_inj s t a b : s +:+ String a "" = t +:+ String b "" → a = b.
Proof.
  revert t. induction s as [|c s IH]; intros [|d t] H.
  - by injection H.
  - injection H as _ H. by destruct t.
  - injection H as _ H. by destruct s.
  - injection H as _ H. by apply (IH t).
Qed.

Definition open_paren : ascii := "("%char.

Lemma escape_char_paren c k l : escape_char c = k +:+ String open_paren l → k = "" ∧ l = "".
Proof.
  destruct c as [[] [] [] [] [] [] [] []]; destruct k as [|k0 [|k1 [|k2 [|k3 [|k4 [|k5 [|k6 k]]]]]]];
    intros H; simpl in H; try discriminate H; injection H; intros; subst; done.
Qed.

(** In an escaped string, a quote never follows a parenthesis. *)
Lemma escape_debug_no_open s a b : escape_debug s ≠ a +:+ String open_paren (String quote b).
Proof.
  revert a. induction s as [|c s IH]; intros a; simpl.
  { by destruct a. }
  intros [(k & -> & H)|(k & Hc & H)]%str_app_eq_inv; [by apply (IH k)|].
  destruct k as [|k0 k].
  { rewrite str_app_nil_r in Hc. simpl in H. by apply (IH ""). }
  injection H as <- H. apply escape_char_paren in Hc as [-> ->]. simpl in H.
  destruct s as [|d s]; [done|]. simpl in H. by apply eq_sym, escape_char_not_quote in H.
Qed.

Definition comma : ascii := ","%char.

Lemma debug_some s :
  debug_option debug_str (Some s) = "Some(" +:+ String quote (escape_debug s +:+ String quote ")").
Proof. rw /= /debug_str. by rw !str_app_assoc. Qed.

Lemma option_tail_inj k o o' :
  String comma (debug_option debug_str o) = k +:+ String comma (debug_option debug_str o') → k = "".
Proof.
  destruct k as [|k0 k]; [done|]. intros [= _ H]. exfalso.
  destruct o as [s|], o' as [s'|].
  - rewrite !debug_some in H.
    do 6 (destruct k as [|? k]; [discriminate H|injection H as _ H]).
    assert (escape_debug s +:+ String quote ")" =
      ((k +:+ ",Some") +:+ String open_paren (String quote (escape_debug s'))) +:+
      String quote ")") as E.
    { rewrite !str_app_assoc. exact H. }
    apply str_app_inj_l in E. by apply escape_debug_no_open in E.
  - assert (("Some(" +:+ debug_str s) +:+ ")" = (k +:+ ",Non") +:+ "e") as E.
    { rewrite (str_app_assoc "Some(") (str_app_assoc k). exact H. }
    by apply str_snoc_inj in E.
  - do 4 (destruct k as [|? k]; [discriminate H|injection H as _ H]). by destruct k.
  - do 4 (destruct k as [|? k]; [discriminate H|injection H as _ H]). by destruct k.
Qed.

(** Nothing is asked of the field. *)
Lemma field_option_inj s s' o o' :
  s +:+ String comma (debug_option debug_str o) = s' +:+ String comma (debug_option debug_str o') →
  s = s' ∧ o = o'.
Proof.
  intros H. assert (s = s') as ->.
  { apply str_app_eq_inv in H as [(k & -> & H)|(k & -> & H)];
      apply option_tail_inj in H as ->; by rw str_app_nil_r. }
  apply str_app_inj_r in H. injection H as H. split; [done|].
  eapply decodable_inj; [|done]. apply debug_option_decodable, debug_str_decodable.
Qed.
