(* ===== verification/Bytes.v ===== *)
(** * Bytes and UTF-8

    Byte buffers ([&[u8]], [Vec<u8>]) and the validation of
    [String::from_utf8]/[str::from_utf8], with the position and length that
    [Utf8Error] reports. A Rust [String] is the sequence of its bytes. *)

From S2P Require Import Prelude RustStr.
From stdpp Require Export pretty.

Definition bytes := list ascii.

Definition as_bytes (s : string) : bytes := Stdlib.Strings.String.list_ascii_of_string s.
Definition of_bytes (b : bytes) : string := Stdlib.Strings.String.string_of_list_ascii b.

Lemma of_bytes_as_bytes s : of_bytes (as_bytes s) = s.
Proof. apply Stdlib.Strings.String.string_of_list_ascii_of_string. Qed.

Lemma as_bytes_app s t : as_bytes (s +:+ t) = as_bytes s ++ as_bytes t.
Proof. induction s as [|c s IH]; [done|]. rw /= -IH //. Qed.

Lemma as_bytes_of_bytes b : as_bytes (of_bytes b) = b.
Proof. apply Stdlib.Strings.String.list_ascii_of_string_of_list_ascii. Qed.

(** [Utf8Error]: the bytes valid so far, and the length of the offending
    sequence unless the input merely ends too early. *)
Record Utf8Error := { valid_up_to : nat; error_len : option nat }.

Definition Utf8Error_to_string (e : Utf8Error) : string :=
  match error_len e with
  | Some n => "invalid utf-8 sequence of " +:+ pretty n +:+ " bytes from index " +:+
      pretty (valid_up_to e)
  | None => "incomplete utf-8 byte sequence from index " +:+ pretty (valid_up_to e)
  end.

Definition in_range (lo hi : N) (c : ascii) : bool :=
  let n := Stdlib.Strings.Ascii.N_of_ascii c in (lo <=? n)%N && (n <=? hi)%N.

Definition continuation : ascii → bool := in_range 0x80 0xBF.

(** The range of the second byte after a three- or four-byte lead. *)
Definition second_ok (b0 b1 : ascii) : bool :=
  (in_range 0xE0 0xE0 b0 && in_range 0xA0 0xBF b1)
  || (in_range 0xE1 0xEC b0 && continuation b1)
  || (in_range 0xED 0xED b0 && in_range 0x80 0x9F b1)
  || (in_range 0xEE 0xEF b0 && continuation b1)
  || (in_range 0xF0 0xF0 b0 && in_range 0x90 0xBF b1)
  || (in_range 0xF1 0xF3 b0 && continuation b1)
  || (in_range 0xF4 0xF4 b0 && in_range 0x80 0x8F b1).

Fixpoint utf8_check (i : nat) (b : bytes) : option Utf8Error :=
  let fail n := Some {| valid_up_to := i; error_len := n |} in
  match b with
  | [] => None
  | b0 :: r0 =>
      if in_range 0 0x7F b0 then utf8_check (i + 1) r0
      else if in_range 0xC2 0xDF b0 then
        match r0 with
        | [] => fail None
        | b1 :: r1 => if continuation b1 then utf8_check (i + 2) r1 else fail (Some 1)
        end
      else if in_range 0xE0 0xF4 b0 then
        match r0 with
        | [] => fail None
        | b1 :: r1 =>
            if second_ok b0 b1 then
              match r1 with
              | [] => fail None
              | b2 :: r2 =>
                  if continuation b2 then
                    if in_range 0xE0 0xEF b0 then utf8_check (i + 3) r2 else
                    match r2 with
                    | [] => fail None
                    | b3 :: r3 =>
                        if continuation b3 then utf8_check (i + 4) r3 else fail (Some 3)
                    end
                  else fail (Some 2)
              end
            else fail (Some 1)
        end
      else fail (Some 1)
  end.

Definition from_utf8 (b : bytes) : result string Utf8Error :=
  match utf8_check 0 b with None => Ok (of_bytes b) | Some e => Err e end.

Lemma from_utf8_Ok b s : from_utf8 b = Ok s → as_bytes s = b.
Proof.
  rw /from_utf8. case_match; intros; simplify_eq. apply as_bytes_of_bytes.
Qed.

(** [{:?}] of a [Vec<u8>] and of a [FromUtf8Error] *)
Definition debug_bytes (b : bytes) : string :=
  "[" +:+ RustStr.join ", " ((λ c, pretty (Stdlib.Strings.Ascii.N_of_ascii c)) <$> b) +:+ "]".

Definition debug_from_utf8_error (b : bytes) (e : Utf8Error) : string :=
  "FromUtf8Error { bytes: " +:+ debug_bytes b +:+ ", error: Utf8Error { valid_up_to: " +:+
  pretty (valid_up_to e) +:+ ", error_len: " +:+
  match error_len e with Some n => "Some(" +:+ pretty n +:+ ")" | None => "None" end +:+ " } }".

(** [String::from_utf8_lossy]: each invalid sequence becomes U+FFFD. *)
Definition REPLACEMENT : bytes := Ascii.ascii_of_N <$> [239; 191; 189]%N.

Fixpoint utf8_lossy (fuel : nat) (b : bytes) : bytes :=
  match fuel with
  | 0 => b
  | S fuel =>
      match utf8_check 0 b with
      | None => b
      | Some e =>
          take (valid_up_to e) b ++ REPLACEMENT ++
          match error_len e with
          | Some n => utf8_lossy fuel (drop (valid_up_to e + n) b)
          | None => []
          end
      end
  end.

Definition from_utf8_lossy (b : bytes) : string := of_bytes (utf8_lossy (S (length b)) b).

(** Every step of [utf8_lossy] that goes on consumes a byte, and valid text is kept. *)
Lemma utf8_lossy_valid b : utf8_check 0 b = None → from_utf8_lossy b = of_bytes b.
Proof. rewrite /from_utf8_lossy /=. by intros ->. Qed.
