(* ===== verification/Base64.v ===== *)
(** * Base64

    The engine of the crate [base64] that [crates/policy-fetcher/src/store/path/windows.rs]
    configures, URL-safe and without padding, is the parameter [Base64]. [Base64Laws] is its
    documentation: it encodes as in section 5 of RFC 4648, and decodes what it encodes. The
    reference encoder is written on the bits of the bytes. *)

From S2P Require Import Prelude RustStr Bytes.

(** ** The encoding of RFC 4648 *)

Definition URL_SAFE : string := "ABCDEFGHIJKLMNOPQRSTUVWXYZabcdefghijklmnopqrstuvwxyz0123456789-_".

(** Six bits, the highest first. *)
Definition sextet : Type := bool * bool * bool * bool * bool * bool.

Definition sextet_value (s : sextet) : nat :=
  let '(a, b, c, d, e, f) := s in
  32 * Nat.b2n a + 16 * Nat.b2n b + 8 * Nat.b2n c + 4 * Nat.b2n d + 2 * Nat.b2n e + Nat.b2n f.

Definition digit_of (s : sextet) : ascii := unwrap_or "A"%char (String.get (sextet_value s) URL_SAFE).

Definition bools : list bool := [false; true].

Definition sextets : list sextet :=
  a ← bools; b ← bools; c ← bools; d ← bools; e ← bools; f ← bools; [(a, b, c, d, e, f)].

Definition sextet_of (c : ascii) : option sextet := snd <$> list_find (λ s, digit_of s = c) sextets.

(** The first six bits of a byte; its last two bits before the first four of the next one;
    its last four bits before the first two of the next one; its last six bits. *)
Definition first_six (x : ascii) : sextet :=
  let 'Ascii.Ascii _ _ x2 x3 x4 x5 x6 x7 := x in (x7, x6, x5, x4, x3, x2).
Definition two_four (x y : ascii) : sextet :=
  let 'Ascii.Ascii x0 x1 _ _ _ _ _ _ := x in
  let 'Ascii.Ascii _ _ _ _ y4 y5 y6 y7 := y in (x1, x0, y7, y6, y5, y4).
Definition four_two (y z : ascii) : sextet :=
  let 'Ascii.Ascii y0 y1 y2 y3 _ _ _ _ := y in
  let 'Ascii.Ascii _ _ _ _ _ _ z6 z7 := z in (y3, y2, y1, y0, z7, z6).
Definition last_six (z : ascii) : sextet :=
  let 'Ascii.Ascii z0 z1 z2 z3 z4 z5 _ _ := z in (z5, z4, z3, z2, z1, z0).

Fixpoint sextets_of_bytes (b : bytes) : list sextet :=
  match b with
  | [] => []
  | [x] => [first_six x; two_four x Ascii.zero]
  | [x; y] => [first_six x; two_four x y; four_two y Ascii.zero]
  | x :: y :: z :: b => first_six x :: two_four x y :: four_two y z :: last_six z :: sextets_of_bytes b
  end.

Definition rfc4648_encode (b : bytes) : string := of_bytes (digit_of <$> sextets_of_bytes b).

(** The first and the second byte of four sextets, and the third one. *)
Definition byte1 (s t : sextet) : ascii :=
  let '(x7, x6, x5, x4, x3, x2) := s in let '(x1, x0, _, _, _, _) := t in Ascii.Ascii x0 x1 x2 x3 x4 x5 x6 x7.
Definition byte2 (t u : sextet) : ascii :=
  let '(_, _, y7, y6, y5, y4) := t in let '(y3, y2, y1, y0, _, _) := u in Ascii.Ascii y0 y1 y2 y3 y4 y5 y6 y7.
Definition byte3 (u v : sextet) : ascii :=
  let '(_, _, _, _, z7, z6) := u in let '(z5, z4, z3, z2, z1, z0) := v in Ascii.Ascii z0 z1 z2 z3 z4 z5 z6 z7.

Fixpoint bytes_of_sextets (l : list sextet) : option bytes :=
  match l with
  | [] => Some []
  | [_] => None
  | [s; t] => Some [byte1 s t]
  | [s; t; u] => Some [byte1 s t; byte2 t u]
  | s :: t :: u :: v :: l => (λ b, byte1 s t :: byte2 t u :: byte3 u v :: b) <$> bytes_of_sextets l
  end.

(** The text is refused when it has another character, an impossible length, or when the bits
    that are left over are not zero. *)
Definition rfc4648_decode (s : string) : option bytes :=
  l ← mapM sextet_of (as_bytes s); b ← bytes_of_sextets l;
  if bool_decide (sextets_of_bytes b = l) then Some b else None.

Lemma sextet_of_digit s : sextet_of (digit_of s) = Some s.
Proof. destruct s as [[[[[[] []] []] []] []] []]; vm_compute; reflexivity. Qed.

Lemma digit_in_alphabet s : digit_of s ∈ as_bytes URL_SAFE.
Proof. apply (bool_decide_unpack _). destruct s as [[[[[[] []] []] []] []] []]; vm_compute; exact I. Qed.

Lemma bytes_sextets b : bytes_of_sextets (sextets_of_bytes b) = Some b.
Proof.
  revert b. fix IH 1. intros [|x [|y [|z b]]]; [done|..].
  - by destruct x.
  - by destruct x, y.
  - specialize (IH b). destruct x, y, z. simpl. by rewrite IH.
Qed.

Lemma rfc4648_round_trip b : rfc4648_decode (rfc4648_encode b) = Some b.
Proof.
  rewrite /rfc4648_decode /rfc4648_encode as_bytes_of_bytes.
  assert (mapM sextet_of (digit_of <$> sextets_of_bytes b) = Some (sextets_of_bytes b)) as ->.
  { apply mapM_fmap_Some, sextet_of_digit. }
  simpl. rewrite bytes_sextets /=. by rewrite bool_decide_true.
Qed.

(** ** The engine *)

Class Base64 := {
  b64_encode : bytes → string;
  b64_decode : string → result bytes string;
}.

Class Base64Laws `{Base64} := {
  encode_as_rfc b : b64_encode b = rfc4648_encode b;
  decode_encode b : b64_decode (b64_encode b) = Ok b;
}.

Section engine.
Context `{BE : Base64, BL : !Base64Laws}.

Lemma b64_alphabet b : Forall (λ c, c ∈ as_bytes URL_SAFE) (as_bytes (b64_encode b)).
Proof.
  rewrite encode_as_rfc /rfc4648_encode as_bytes_of_bytes. apply Forall_fmap, Forall_true.
  intros s. apply digit_in_alphabet.
Qed.

Lemma b64_encode_inj b c : b64_encode b = b64_encode c → b = c.
Proof. intros H. pose proof (decode_encode b) as Hb. rewrite H decode_encode in Hb. congruence. Qed.

(** What decodes to nothing, or to bytes with another property, is not an encoding. *)
Lemma b64_encode_ne b s (P : bytes → Prop) :
  P b → (∀ c, rfc4648_decode s = Some c → P c → False) → b64_encode b ≠ s.
Proof. intros HP Hs <-. apply (Hs b); [|done]. rewrite encode_as_rfc. apply rfc4648_round_trip. Qed.

Lemma b64_encode_nonempty b : b ≠ [] → b64_encode b ≠ "".
Proof.
  intros Hb. apply (b64_encode_ne b "" (λ b, b ≠ [])); [done|]. intros c [= <-]. by destruct 1.
Qed.
End engine.

(** The reference is itself such an engine. *)
#[local] Instance rfc4648 : Base64 := {|
  b64_encode := rfc4648_encode;
  b64_decode s := match rfc4648_decode s with Some b => Ok b | None => Err "Invalid input" end;
|}.

#[local] Instance rfc4648_laws : Base64Laws.
Proof. split; [done|]. intros b. rewrite /= rfc4648_round_trip. done. Qed.

(** The test vectors of section 10 of the RFC, without padding. *)
Example test_vectors :
  (λ s, rfc4648_encode (as_bytes s)) <$> [""; "f"; "fo"; "foo"; "foob"; "fooba"; "foobar"] =
  [""; "Zg"; "Zm8"; "Zm9v"; "Zm9vYg"; "Zm9vYmE"; "Zm9vYmFy"].
Proof. vm_compute. reflexivity. Qed.
