(* ===== verification/Json.v ===== *)
(** * JSON values

    [serde_json::Value] as the modelled code uses it. A number is its printed
    form. An object is a list of fields with distinct keys ([Value_wf]), in the
    order the map yields them. *)

From S2P Require Import Prelude.

Inductive Value :=
| JNull
| JBool (b : bool)
| JNumber (n : string)
| JString (s : string)
| JArray (l : list Value)
| JObject (fields : list (string * Value)).

(** Induction that reaches the elements of arrays and objects. *)
Section Value_ind'.
Variable P : Value → Prop.
Hypothesis Hnull : P JNull.
Hypothesis Hbool : ∀ b, P (JBool b).
Hypothesis Hnumber : ∀ n, P (JNumber n).
Hypothesis Hstring : ∀ s, P (JString s).
Hypothesis Harray : ∀ l, Forall P l → P (JArray l).
Hypothesis Hobject : ∀ fs, Forall (λ kv, P kv.2) fs → P (JObject fs).

Fixpoint Value_ind' (v : Value) : P v :=
  match v with
  | JNull => Hnull
  | JBool b => Hbool b
  | JNumber n => Hnumber n
  | JString s => Hstring s
  | JArray l => Harray l
      ((fix go l : Forall P l :=
          match l with
          | [] => Forall_nil_2 _
          | v :: l => Forall_cons_2 _ _ _ (Value_ind' v) (go l)
          end) l)
  | JObject fs => Hobject fs
      ((fix go fs : Forall (λ kv, P kv.2) fs :=
          match fs with
          | [] => Forall_nil_2 _
          | kv :: fs => Forall_cons_2 _ _ _ (Value_ind' kv.2) (go fs)
          end) fs)
  end.
End Value_ind'.

(** [Map::get] *)
Fixpoint field_get {V} (fields : list (string * V)) (key : string) : option V :=
  match fields with
  | [] => None
  | (k, v) :: fields => if decide (k = key) then Some v else field_get fields key
  end.

(** [Value::get] with a string index: [None] unless the value is an object. *)
Definition value_get (v : Value) (key : string) : option Value :=
  match v with JObject fields => field_get fields key | _ => None end.

(** [Value::get] with a numeric index. *)
Definition value_get_nth (v : Value) (i : nat) : option Value :=
  match v with JArray l => l !! i | _ => None end.

Definition value_as_str (v : Value) : option string :=
  match v with JString s => Some s | _ => None end.

(** [Map::insert]: replaces in place, or adds. *)
Fixpoint field_insert {V} (key : string) (v : V) (fields : list (string * V)) :
    list (string * V) :=
  match fields with
  | [] => [(key, v)]
  | (k, w) :: fields =>
      if decide (k = key) then (k, v) :: fields else (k, w) :: field_insert key v fields
  end.

(** No object of the value repeats a key. *)
Fixpoint Value_wf (v : Value) : Prop :=
  match v with
  | JArray l => foldr (λ v P, Value_wf v ∧ P) True l
  | JObject fs => NoDup fs.*1 ∧ foldr (λ kv P, Value_wf kv.2 ∧ P) True fs
  | _ => True
  end.

Section fields.
Context {V : Type}.
Implicit Types (fs : list (string * V)).

Lemma field_get_Some_elem fs k v : field_get fs k = Some v → (k, v) ∈ fs.
Proof.
  induction fs as [|[k' v'] fs IH]; simpl; [done|]. case_decide; subst.
  - intros [= ->]. apply list_elem_of_here.
  - intros. apply list_elem_of_further. auto.
Qed.

Lemma field_get_elem fs k v : NoDup fs.*1 → (k, v) ∈ fs → field_get fs k = Some v.
Proof.
  induction fs as [|[k' v'] fs IH]; simpl; [by intros _ ?%elem_of_nil|].
  intros [Hk Hnd]%NoDup_cons [[= -> ->]|Hin]%elem_of_cons.
  { by rw decide_True. }
  rw decide_False; [by apply IH|]. intros ->.
  apply Hk, list_elem_of_fmap. by exists (k, v).
Qed.

Lemma field_get_insert fs k k' v :
  field_get (field_insert k v fs) k' = if decide (k = k') then Some v else field_get fs k'.
Proof.
  induction fs as [|[k0 v0] fs IH]; simpl; [done|].
  destruct (decide (k0 = k)) as [->|]; simpl; [by case_decide|].
  rw IH. repeat case_decide; congruence.
Qed.

Lemma field_get_snoc fs k v k' :
  field_get (fs ++ [(k, v)]) k' =
  match field_get fs k' with Some w => Some w | None => if decide (k = k') then Some v else None end.
Proof. induction fs as [|[k0 w] fs IH]; [done|]. cbn [app field_get]. by destruct (decide (k0 = k')). Qed.
End fields.
