(* ===== verification/PolicyId.v ===== *)
(** * Policy identifiers, modes and evaluation errors

    Models [crates/policy-evaluator/src/admission_response_handler/policy_id.rs],
    [policy_mode.rs] and [errors.rs]. *)

From S2P Require Import Prelude RustStr.

(** ** [PolicyID] *)

Inductive PolicyID :=
| Policy (name : string)
| PolicyGroupPolicy (group name : string).

#[export] Instance PolicyID_eq_dec : EqDecision PolicyID.
Proof. solve_decision. Defined.

#[export] Instance PolicyID_countable : Countable PolicyID.
Proof.
  refine (inj_countable'
    (λ id, match id with
           | Policy n => inl n
           | PolicyGroupPolicy g n => inr (g, n)
           end)
    (λ x, match x with
          | inl n => Policy n
          | inr (g, n) => PolicyGroupPolicy g n
          end) _).
  by intros [].
Defined.

(** ** [EvaluationError] *)

Inductive EvaluationError :=
| InvalidPolicyId (s : string)
| PolicyInitialization (s : string)
| PolicyNotFound (s : string)
| BootstrapFailure (s : string)
| WebAssemblyError (s : string)
| CannotRehydratePolicyGroup (s : string).

Definition EvaluationError_to_string (e : EvaluationError) : string :=
  match e with
  | InvalidPolicyId s => "Not a valid Policy ID: " +:+ s
  | PolicyInitialization s => s
  | PolicyNotFound s => "unknown policy: " +:+ s
  | BootstrapFailure s => "bootstrap failure: " +:+ s
  | WebAssemblyError s => "WebAssembly failure: " +:+ s
  | CannotRehydratePolicyGroup s =>
      "Attempted to rehydrated policy group '" +:+ s +:+ "'"
  end.

(** [impl Display for PolicyID] *)
Definition PolicyID_to_string (id : PolicyID) : string :=
  match id with
  | Policy name => name
  | PolicyGroupPolicy group name => group +:+ "/" +:+ name
  end.

Definition slash : ascii := "/"%char.

(** [impl FromStr for PolicyID] *)
Definition PolicyID_from_str (s : string) : result PolicyID EvaluationError :=
  if decide (s = "") then Err (InvalidPolicyId s) else
  match split s slash with
  | [_] => Ok (Policy s)
  | [group; name] => Ok (PolicyGroupPolicy group name)
  | _ => Err (InvalidPolicyId s)
  end.

(** ** [PolicyMode] *)

Inductive PolicyMode := Monitor | Protect.

#[export] Instance PolicyMode_eq_dec : EqDecision PolicyMode.
Proof. solve_decision. Defined.

Definition PolicyMode_default : PolicyMode := Protect.

Definition PolicyMode_to_string (m : PolicyMode) : string :=
  match m with Monitor => "monitor" | Protect => "protect" end.

(** ** Parsing and printing are inverse

    The identifiers the parser can produce: no component holds a slash, and the
    name of an individual policy is not empty. *)

Definition no_slash (s : string) : Prop := contains_char s slash = false.

Definition PolicyID_wf (id : PolicyID) : Prop :=
  match id with
  | Policy name => name ≠ "" ∧ no_slash name
  | PolicyGroupPolicy group name => no_slash group ∧ no_slash name
  end.

Lemma PolicyID_from_str_to_string id :
  PolicyID_wf id → PolicyID_from_str (PolicyID_to_string id) = Ok id.
Proof.
  rw /PolicyID_from_str. destruct id as [n|g n]; simpl; intros [Hn Hs].
  - by rw decide_False // split_no_sep.
  - rw decide_False; last by destruct g.
    by rw app_String app_Empty split_app // split_no_sep.
Qed.

Lemma PolicyID_from_str_inv s id :
  PolicyID_from_str s = Ok id → PolicyID_wf id ∧ s = PolicyID_to_string id.
Proof.
  rw /PolicyID_from_str. case_decide as Hs; [done|].
  pose proof (split_pieces s slash) as Hp. pose proof (join_split s slash) as Hj.
  destruct (split s slash) as [|g [|n [|? ?]]]; intros [= <-];
    rw /join /= in Hj; subst s; decompose_Forall; done.
Qed.

(** Parsing a policy identifier and printing it are exact inverses:
    [from_str] accepts a string exactly when it is the printed form of a
    well-formed identifier, and then returns that identifier. In particular a
    printed identifier determines the identifier, so two policies can never
    share the API path that names them. *)
Theorem policy_id_round_trip s id :
  PolicyID_from_str s = Ok id ↔ PolicyID_wf id ∧ s = PolicyID_to_string id.
Proof.
  split; [apply PolicyID_from_str_inv|].
  intros [Hwf ->]. by apply PolicyID_from_str_to_string.
Qed.
