(* ===== verification/AdmissionResponse.v ===== *)
(** * Admission responses

    Models [crates/policy-evaluator/src/admission_response.rs]: the response
    sent back to Kubernetes and how it is built from the answer of a policy.

    [kubewarden_policy_sdk::response::ValidationResponse], [json_patch::diff],
    [serde_json::to_string] on a patch and the base64 engine are third-party;
    the first is the record of the fields the code reads, the others are the
    operations of the class [PatchLib]. *)

From S2P Require Import Prelude Json.

Inductive PatchType := JSONPatch.

Inductive AdmissionResponseStatusValue := Success | Failure.

Inductive StatusReason :=
| SR_Unknown | SR_Unauthorized | SR_Forbidden | SR_NotFound | SR_AlreadyExists
| SR_Conflict | SR_Gone | SR_Invalid | SR_ServerTimeout | SR_Timeout
| SR_TooManyRequests | SR_BadRequest | SR_MethodNotAllowed | SR_NotAcceptable
| SR_RequestEntityTooLarge | SR_UnsupportedMediaType | SR_InternalError
| SR_Expired | SR_ServiceUnavailable.

Inductive CauseType :=
| CT_FieldValueNotFound | CT_FieldValueRequired | CT_FieldValueDuplicate
| CT_FieldValueInvalid | CT_FieldValueNotSupported | CT_FieldValueForbidden
| CT_FieldValueTooLong | CT_FieldValueTooMany | CT_InternalError
| CT_FieldValueTypeInvalid | CT_UnexpectedServerResponse
| CT_FieldManagerConflict | CT_ResourceVersionTooLarge.

Record StatusCause := {
  sc_reason : option CauseType;
  sc_message : option string;
  sc_field : option string;
}.

Definition StatusCause_default : StatusCause :=
  {| sc_reason := None; sc_message := None; sc_field := None |}.

Record StatusDetails := {
  sd_name : option string;
  sd_group : option string;
  sd_kind : option string;
  sd_uid : option string;
  sd_causes : list StatusCause;
  sd_retry_after_seconds : option Z;
}.

Definition StatusDetails_default : StatusDetails :=
  {| sd_name := None; sd_group := None; sd_kind := None; sd_uid := None;
     sd_causes := []; sd_retry_after_seconds := None |}.

Record AdmissionResponseStatus := {
  st_status : option AdmissionResponseStatusValue;
  st_message : option string;
  st_reason : option StatusReason;
  st_details : option StatusDetails;
  st_code : option N;
}.

Definition AdmissionResponseStatus_default : AdmissionResponseStatus :=
  {| st_status := None; st_message := None; st_reason := None; st_details := None;
     st_code := None |}.

Record AdmissionResponse := {
  uid : string;
  allowed : bool;
  patch_type : option PatchType;
  patch : option string;
  status : option AdmissionResponseStatus;
  audit_annotations : option (gmap string string);
  warnings : option (list string);
}.

(** A status with a message and a code, the other fields at their default. *)
Definition message_status (message : option string) (code : option N) :
    AdmissionResponseStatus :=
  {| st_status := None; st_message := message; st_reason := None; st_details := None;
     st_code := code |}.

Definition reject (u message : string) (code : N) : AdmissionResponse :=
  {| uid := u; allowed := false; patch_type := None; patch := None;
     status := Some (message_status (Some message) (Some code));
     audit_annotations := None; warnings := None |}.

Definition reject_internal_server_error (u message : string) : AdmissionResponse :=
  reject u ("internal server error: " +:+ message) 500.

(** The fields of the SDK's [ValidationResponse] that the code reads. *)
Record PolicyValidationResponse := {
  pv_accepted : bool;
  pv_message : option string;
  pv_code : option N;
  pv_mutated_object : option Value;
  pv_audit_annotations : option (gmap string string);
  pv_warnings : option (list string);
}.

(** JSON patch, its JSON form and base64: third-party operations. *)
Class PatchLib := {
  PatchOperation : Type;
  json_diff : Value → Value → list PatchOperation;
  patch_to_string : list PatchOperation → result string string;
  base64_encode : string → string;
}.

(** [ResponseError::Deserialize(e)] *)
Inductive ResponseError := ResponseError_Deserialize (e : string).

Definition ResponseError_to_string (e : ResponseError) : string :=
  match e with
  | ResponseError_Deserialize e => "cannot deserialize JSONPatch: " +:+ e
  end.

Definition delete_mutation_message : string :=
  "Incoming object is null, which happens only with DELETE operations, but the policy is attempting a mutation. This is not allowed".

Definition from_policy_validation_response `{PatchLib}
    (u : string) (req_obj : option Value) (pol_val_resp : PolicyValidationResponse) :
    result AdmissionResponse ResponseError :=
  match pv_mutated_object pol_val_resp, req_obj with
  | Some _, None =>
      Ok {| uid := u; allowed := false; patch_type := None; patch := None;
            status := Some (message_status (Some delete_mutation_message) None);
            audit_annotations := None; warnings := None |}
  | mutated_object, _ =>
      let? patch := match mutated_object, req_obj with
        | Some mut_obj, Some req_obj =>
            match json_diff req_obj mut_obj with
            | [] => Ok None
            | diff =>
                let? diff_str := map_err ResponseError_Deserialize
                    (res_map base64_encode (patch_to_string diff)) in
                Ok (Some diff_str)
            end
        | _, _ => Ok None
        end in
      let patch_type := match patch with Some _ => Some JSONPatch | None => None end in
      let status :=
        if (bool_decide (is_Some (pv_message pol_val_resp))
            || bool_decide (is_Some (pv_code pol_val_resp)))
        then Some (message_status (pv_message pol_val_resp) (pv_code pol_val_resp))
        else None in
      Ok {| uid := u; allowed := pv_accepted pol_val_resp; patch_type := patch_type;
            patch := patch; status := status;
            audit_annotations := pv_audit_annotations pol_val_resp;
            warnings := pv_warnings pol_val_resp |}
  end.

(** ** Properties *)

(** The response is well formed for the API server: a patch is sent exactly
    when its type is. *)
Definition patch_consistent (r : AdmissionResponse) : Prop :=
  is_Some (patch_type r) ↔ is_Some (patch r).

Section from_policy_validation_response.
Context `{PatchLib}.
Implicit Types (pvr : PolicyValidationResponse).

Lemma from_pvr_uid u obj pvr r :
  from_policy_validation_response u obj pvr = Ok r → uid r = u.
Proof.
  rw /from_policy_validation_response.
  destruct (pv_mutated_object pvr), obj; intros; res_simpl; done.
Qed.

Lemma from_pvr_patch_consistent u obj pvr r :
  from_policy_validation_response u obj pvr = Ok r → patch_consistent r.
Proof.
  rw /from_policy_validation_response /patch_consistent.
  destruct (pv_mutated_object pvr), obj; intros; res_simpl; try done.
  match goal with |- context [match ?x with _ => _ end] => destruct x end;
    by split; intros [? ?]; eauto.
Qed.

(** A response allows only what the policy accepted. *)
Lemma from_pvr_allowed u obj pvr r :
  from_policy_validation_response u obj pvr = Ok r → allowed r = true → pv_accepted pvr = true.
Proof.
  rw /from_policy_validation_response.
  destruct (pv_mutated_object pvr), obj; intros; res_simpl; done.
Qed.

(** The conversion can only fail while the patch is serialised. *)
Lemma from_pvr_error u obj pvr e :
  from_policy_validation_response u obj pvr = Err e →
  ∃ m o s, pv_mutated_object pvr = Some m ∧ obj = Some o ∧
    patch_to_string (json_diff o m) = Err s ∧ e = ResponseError_Deserialize s.
Proof.
  rw /from_policy_validation_response.
  destruct (pv_mutated_object pvr) as [m|], obj as [o|]; try done.
  intros [Hp|(p & _ & ?)]%res_bind_Err; [|done].
  destruct (json_diff o m) as [|op ops] eqn:E; [done|].
  apply res_bind_Err in Hp as [Hp|(? & _ & ?)]; [|done].
  apply map_err_Err in Hp as (s & Hs & ->).
  exists m, o, s. rw E. split_and!; try done. by destruct (patch_to_string _); simplify_eq/=.
Qed.

(** Conversion of a policy's answer: the response carries the request's
    uid; a mutation of a request that has no object (a DELETE) is always a
    rejection without a patch; otherwise the verdict is the policy's, a patch
    is present exactly when the policy returned an object that differs from
    the one in the request, and the patch type accompanies it. *)
Theorem from_policy_validation_response_spec u obj pvr r :
  from_policy_validation_response u obj pvr = Ok r →
  uid r = u ∧ patch_consistent r ∧
  match pv_mutated_object pvr, obj with
  | Some _, None => allowed r = false ∧ patch r = None
  | Some m, Some o =>
      allowed r = pv_accepted pvr ∧
      (is_Some (patch r) ↔ json_diff o m ≠ []) ∧
      (∀ s, patch_to_string (json_diff o m) = Ok s → json_diff o m ≠ [] →
         patch r = Some (base64_encode s))
  | None, _ => allowed r = pv_accepted pvr ∧ patch r = None
  end.
Proof.
  intros Hr. split_and!; [by eapply from_pvr_uid|by eapply from_pvr_patch_consistent|].
  revert Hr. rw /from_policy_validation_response.
  destruct (pv_mutated_object pvr) as [m|], obj as [o|]; intros; res_simpl; try done.
  destruct (json_diff o m) as [|op ops]; res_simpl.
  - split_and!; [done| |done]. split; [by intros []|done].
  - split_and!; [done|done|]. intros s Hs _. congruence.
Qed.
End from_policy_validation_response.

(** A patch library with one operation, used to evaluate the definitions. *)
#[local] Instance demo_patch_lib : PatchLib := {|
  PatchOperation := string;
  json_diff a b := match a, b with JBool true, JBool true => [] | _, _ => ["replace"] end;
  patch_to_string ops := Ok (String.concat "," ops);
  base64_encode s := "b64:" +:+ s;
|}.

Definition demo_pvr (m : option Value) : PolicyValidationResponse :=
  {| pv_accepted := true; pv_message := None; pv_code := None; pv_mutated_object := m;
     pv_audit_annotations := None; pv_warnings := None |}.

Lemma from_policy_validation_response_witness :
  ∃ r, from_policy_validation_response "u" (Some JNull) (demo_pvr (Some (JBool true))) = Ok r
       ∧ patch r = Some "b64:replace" ∧ uid r = "u".
Proof.
  eexists. split; [reflexivity|]. split; [reflexivity|].
  exact (proj1 (from_policy_validation_response_spec
    "u" (Some JNull) (demo_pvr (Some (JBool true))) _ eq_refl)).
Defined.
