(* ===== verification/ResponseHandler.v ===== *)
(** * Response handler

    Models [crates/policy-evaluator/src/admission_response_handler.rs]: what the
    server does to the answer of a policy before it reaches Kubernetes. *)

From S2P Require Import Prelude RustStr PolicyId AdmissionResponse.

Record AdmissionResponseHandler := {
  h_policy_id : PolicyID;
  h_policy_mode : PolicyMode;
  h_allowed_to_mutate : bool;
  h_custom_rejection_message : option string;
}.

Definition rejection_message_because_policy_is_not_allowed_to_mutate (id : PolicyID) :
    string :=
  "Request rejected by policy " +:+ PolicyID_to_string id +:+
  ". The policy attempted to mutate the request, but it is currently configured to not allow mutations.".

Definition apply_monitor_mode (h : AdmissionResponseHandler) (r : AdmissionResponse) :
    AdmissionResponse :=
  if decide (h_policy_mode h ≠ Monitor) then r else
  {| uid := uid r; allowed := true; patch_type := None; patch := None; status := None;
     audit_annotations := audit_annotations r; warnings := warnings r |}.

Definition apply_mutation_constraint (h : AdmissionResponseHandler)
    (r : AdmissionResponse) : AdmissionResponse :=
  if decide (h_policy_mode h ≠ Protect) then r else
  if h_allowed_to_mutate h then r else
  match patch r with
  | None => r
  | Some _ =>
      {| uid := uid r; allowed := false; patch_type := None; patch := None;
         status := Some (message_status (Some
           (rejection_message_because_policy_is_not_allowed_to_mutate (h_policy_id h))) None);
         audit_annotations := audit_annotations r; warnings := warnings r |}
  end.

Definition apply_custom_rejection_message (h : AdmissionResponseHandler)
    (r : AdmissionResponse) : AdmissionResponse :=
  if allowed r then r else
  match h_custom_rejection_message h with
  | None => r
  | Some _ =>
      let status := unwrap_or AdmissionResponseStatus_default (status r) in
      let original_rejection_message := unwrap_or "" (st_message status) in
      let details := unwrap_or StatusDetails_default (st_details status) in
      let causes := sd_causes details ++
        [{| sc_reason := None; sc_message := Some original_rejection_message;
            sc_field := None |}] in
      {| uid := uid r; allowed := allowed r; patch_type := patch_type r; patch := patch r;
         status := Some
           {| st_status := st_status status;
              st_message := h_custom_rejection_message h;
              st_reason := st_reason status;
              st_details := Some
                {| sd_name := sd_name details; sd_group := sd_group details;
                   sd_kind := sd_kind details; sd_uid := sd_uid details;
                   sd_causes := causes;
                   sd_retry_after_seconds := sd_retry_after_seconds details |};
              st_code := st_code status |};
         audit_annotations := audit_annotations r; warnings := warnings r |}
  end.

Definition process_response (h : AdmissionResponseHandler) (r : AdmissionResponse) :
    AdmissionResponse :=
  apply_custom_rejection_message h
    (apply_mutation_constraint h (apply_monitor_mode h r)).

(** ** Properties *)

(** Two responses that differ in their status at most. *)
Definition same_but_status (r r' : AdmissionResponse) : Prop :=
  uid r = uid r' ∧ allowed r = allowed r' ∧ patch_type r = patch_type r' ∧
  patch r = patch r' ∧ audit_annotations r = audit_annotations r' ∧ warnings r = warnings r'.

Lemma custom_rejection_message_frame h r :
  same_but_status (apply_custom_rejection_message h r) r.
Proof.
  rw /apply_custom_rejection_message. destruct (allowed r) eqn:?; [done|].
  by destruct (h_custom_rejection_message h).
Qed.

(** The two first stages act on different modes. *)
Lemma monitor_stages h r :
  h_policy_mode h = Monitor →
  apply_mutation_constraint h (apply_monitor_mode h r) =
    {| uid := uid r; allowed := true; patch_type := None; patch := None; status := None;
       audit_annotations := audit_annotations r; warnings := warnings r |}.
Proof.
  intros Hm. by rw /apply_mutation_constraint /apply_monitor_mode Hm.
Qed.

Lemma protect_stages h r :
  h_policy_mode h = Protect →
  apply_mutation_constraint h (apply_monitor_mode h r) =
    (if h_allowed_to_mutate h || bool_decide (patch r = None) then r else
     {| uid := uid r; allowed := false; patch_type := None; patch := None;
        status := Some (message_status (Some
          (rejection_message_because_policy_is_not_allowed_to_mutate (h_policy_id h))) None);
        audit_annotations := audit_annotations r; warnings := warnings r |}).
Proof.
  intros Hm. rw /apply_mutation_constraint /apply_monitor_mode Hm.
  simpl. destruct (h_allowed_to_mutate h); [done|]. by destruct (patch r).
Qed.

(** What the caller of the API can rely on: the decision of the handler as a
    function of the mode, the mutation permission and the raw answer. *)
Definition verdict (mode : PolicyMode) (allowed_to_mutate : bool) (r : AdmissionResponse) :
    bool :=
  match mode with
  | Monitor => true
  | Protect => allowed r && (allowed_to_mutate || bool_decide (patch r = None))
  end.

Lemma process_response_allowed h r :
  allowed (process_response h r) = verdict (h_policy_mode h) (h_allowed_to_mutate h) r.
Proof.
  destruct (custom_rejection_message_frame h
    (apply_mutation_constraint h (apply_monitor_mode h r))) as (_ & Ha & _).
  rw /process_response Ha /verdict. destruct (h_policy_mode h) eqn:Hm.
  - by rw monitor_stages.
  - rw protect_stages //. destruct (_ || _); simpl; by rw ?andb_true_r ?andb_false_r.
Qed.

(** C10. Decision of the handler: in monitor mode every request is accepted; in
    protect mode a request is accepted exactly when the policy accepted it and,
    if the policy may not mutate, it did not try to. *)
Theorem process_response_decision h r :
  allowed (process_response h r) = true ↔
  h_policy_mode h = Monitor ∨
  (h_policy_mode h = Protect ∧ allowed r = true ∧
   (h_allowed_to_mutate h = true ∨ patch r = None)).
Proof.
  rw process_response_allowed /verdict.
  destruct (h_policy_mode h); [naive_solver|].
  rw andb_true_iff orb_true_iff bool_decide_eq_true. naive_solver.
Qed.

Lemma process_response_patch h r :
  (∀ p, patch (process_response h r) = Some p →
     h_policy_mode h = Protect ∧ h_allowed_to_mutate h = true ∧ patch r = Some p) ∧
  (patch_consistent r → patch_consistent (process_response h r)).
Proof.
  destruct (custom_rejection_message_frame h
    (apply_mutation_constraint h (apply_monitor_mode h r))) as (_ & _ & Ht & Hp & _).
  rw /patch_consistent /process_response Ht Hp. destruct (h_policy_mode h) eqn:Hm.
  - rw monitor_stages //=.
  - rw protect_stages //. destruct (h_allowed_to_mutate h); simpl; [naive_solver|].
    case_bool_decide as Hn; simpl; [rw Hn; naive_solver|naive_solver].
Qed.

(** Mutation safety: a patch leaves the server only if the policy produced
    that very patch, runs in protect mode and is allowed to mutate; and the
    handler never separates a patch from its type. *)
Theorem process_response_patch_safety h r :
  (∀ p, patch (process_response h r) = Some p →
     h_policy_mode h = Protect ∧ h_allowed_to_mutate h = true ∧ patch r = Some p) ∧
  (patch_consistent r → patch_consistent (process_response h r)).
Proof. apply process_response_patch. Qed.

(** Monitor mode is transparent: whatever the policy answered, the response
    accepts the request, changes nothing and keeps only the uid, the warnings
    and the audit annotations. *)
Theorem process_response_monitor h r :
  h_policy_mode h = Monitor →
  process_response h r =
    {| uid := uid r; allowed := true; patch_type := None; patch := None; status := None;
       audit_annotations := audit_annotations r; warnings := warnings r |}.
Proof. intros Hm. by rw /process_response monitor_stages. Qed.

Definition demo_handler (m : PolicyMode) : AdmissionResponseHandler :=
  {| h_policy_id := Policy "p"; h_policy_mode := m; h_allowed_to_mutate := false;
     h_custom_rejection_message := Some "no" |}.

Lemma process_response_monitor_witness :
  allowed (process_response (demo_handler Monitor) (reject "u" "denied" 403)) = true.
Proof.
  rw (process_response_monitor (demo_handler Monitor) (reject "u" "denied" 403)); reflexivity.
Defined.

(** The status message and the causes of a response. *)
Definition message_of (r : AdmissionResponse) : option string :=
  status r ≫= st_message.
Definition causes_of (r : AdmissionResponse) : list StatusCause :=
  unwrap_or [] (sd_causes <$> (status r ≫= st_details)).

(** Custom rejection message: a rejected response of a policy that has one
    carries exactly that message, keeps the code and the reason of the original
    status, and appends the original message to the causes, so it is not lost. *)
Theorem process_response_custom_message h r msg :
  h_custom_rejection_message h = Some msg →
  allowed (process_response h r) = false →
  let r' := apply_mutation_constraint h (apply_monitor_mode h r) in
  message_of (process_response h r) = Some msg ∧
  (status (process_response h r) ≫= st_code) = (status r' ≫= st_code) ∧
  (status (process_response h r) ≫= st_reason) = (status r' ≫= st_reason) ∧
  causes_of (process_response h r) = causes_of r' ++
    [{| sc_reason := None; sc_message := Some (unwrap_or "" (message_of r'));
        sc_field := None |}].
Proof.
  intros Hmsg Hrej. simpl. revert Hrej.
  rw /process_response. generalize (apply_mutation_constraint h (apply_monitor_mode h r)).
  intros r' Hrej.
  destruct (custom_rejection_message_frame h r') as (_ & Ha & _). rw Ha in Hrej.
  rw /apply_custom_rejection_message Hrej Hmsg /message_of /causes_of /=.
  destruct (status r') as [st|]; simpl; [|done]. by destruct (st_details st).
Qed.

Lemma process_response_custom_message_witness :
  message_of (process_response (demo_handler Protect) (reject "u" "denied" 403)) = Some "no".
Proof.
  exact (proj1 (process_response_custom_message (demo_handler Protect)
    (reject "u" "denied" 403) "no" eq_refl eq_refl)).
Defined.

Lemma process_response_uid h r : uid (process_response h r) = uid r.
Proof.
  destruct (custom_rejection_message_frame h
    (apply_mutation_constraint h (apply_monitor_mode h r))) as (Hu & _).
  rw /process_response Hu. destruct (h_policy_mode h) eqn:Hm.
  - by rw monitor_stages.
  - rw protect_stages //. by destruct (_ || _).
Qed.
