(* ===== verification/Request.v ===== *)
(** * Requests, settings and execution modes

    Models [crates/policy-evaluator/src/admission_request.rs] and
    [policy_evaluator.rs]: what a policy is asked to validate, and the settings
    it is asked to validate it with. Kubernetes types of third parties
    ([UserInfo], [RawExtension]) are the JSON they carry. *)

From S2P Require Import Prelude RustStr Json.

Record GroupVersionKind := { gvk_group : string; gvk_version : string; gvk_kind : string }.
Record GroupVersionResource :=
  { gvr_group : string; gvr_version : string; gvr_resource : string }.

Record AdmissionRequest := {
  ar_uid : string;
  ar_kind : GroupVersionKind;
  ar_resource : GroupVersionResource;
  ar_sub_resource : option string;
  ar_request_kind : option GroupVersionKind;
  ar_request_resource : option GroupVersionResource;
  ar_request_sub_resource : option string;
  ar_name : option string;
  ar_namespace : option string;
  ar_operation : string;
  ar_user_info : Value;
  ar_object : option Value;
  ar_old_object : option Value;
  ar_dry_run : option bool;
  ar_options : option Value;
}.

(** The serialization [serde] derives: camel case, absent fields skipped. *)
Definition opt_field {A} (key : string) (f : A → Value) (o : option A) :
    list (string * Value) :=
  match o with Some a => [(key, f a)] | None => [] end.

Definition GroupVersionKind_to_value (k : GroupVersionKind) : Value :=
  JObject [("group", JString (gvk_group k)); ("version", JString (gvk_version k));
           ("kind", JString (gvk_kind k))].

Definition GroupVersionResource_to_value (r : GroupVersionResource) : Value :=
  JObject [("group", JString (gvr_group r)); ("version", JString (gvr_version r));
           ("resource", JString (gvr_resource r))].

Definition AdmissionRequest_to_value (r : AdmissionRequest) : Value :=
  JObject ([("uid", JString (ar_uid r)); ("kind", GroupVersionKind_to_value (ar_kind r));
            ("resource", GroupVersionResource_to_value (ar_resource r))]
    ++ opt_field "subResource" JString (ar_sub_resource r)
    ++ opt_field "requestKind" GroupVersionKind_to_value (ar_request_kind r)
    ++ opt_field "requestResource" GroupVersionResource_to_value (ar_request_resource r)
    ++ opt_field "requestSubResource" JString (ar_request_sub_resource r)
    ++ opt_field "name" JString (ar_name r)
    ++ opt_field "namespace" JString (ar_namespace r)
    ++ [("operation", JString (ar_operation r)); ("userInfo", ar_user_info r)]
    ++ opt_field "object" id (ar_object r)
    ++ opt_field "oldObject" id (ar_old_object r)
    ++ opt_field "dryRun" JBool (ar_dry_run r)
    ++ opt_field "options" id (ar_options r)).

(** ** [ValidateRequest] *)

Inductive ValidateRequest :=
| RawRequest (raw : Value)
| AdmissionReviewRequest (request : AdmissionRequest).

Definition request_uid (r : ValidateRequest) : string :=
  match r with
  | RawRequest raw =>
      unwrap_or "" (match value_get raw "uid" with Some v => value_as_str v | None => None end)
  | AdmissionReviewRequest request => ar_uid request
  end.

(** The untagged serialization of a request. *)
Definition request_to_value (r : ValidateRequest) : Value :=
  match r with
  | RawRequest raw => raw
  | AdmissionReviewRequest request => AdmissionRequest_to_value request
  end.

(** The object a mutation is compared with: the whole raw request, or the
    [object] of a Kubernetes request, absent on DELETE. *)
Definition request_object (r : ValidateRequest) : option Value :=
  match r with
  | RawRequest _ => Some (request_to_value r)
  | AdmissionReviewRequest _ => value_get (request_to_value r) "object"
  end.

(** ** Execution modes *)

Inductive PolicyExecutionMode := KubewardenWapc | Opa | OpaGatekeeper | Wasi | Ferricel.

#[export] Instance PolicyExecutionMode_eq_dec : EqDecision PolicyExecutionMode.
Proof. solve_decision. Defined.

Definition PolicyExecutionMode_default : PolicyExecutionMode := KubewardenWapc.

Definition PolicyExecutionMode_to_string (m : PolicyExecutionMode) : string :=
  match m with
  | KubewardenWapc => "kubewarden-wapc"
  | Opa => "opa"
  | OpaGatekeeper => "gatekeeper"
  | Wasi => "wasi"
  | Ferricel => "ferricel"
  end.

Inductive RegoPolicyExecutionMode := RegoOpa | RegoGatekeeper.

Definition RegoPolicyExecutionMode_try_from (m : PolicyExecutionMode) :
    option RegoPolicyExecutionMode :=
  match m with
  | Opa => Some RegoOpa
  | OpaGatekeeper => Some RegoGatekeeper
  | KubewardenWapc | Wasi | Ferricel => None
  end.

(** ** Settings *)

Definition PolicySettings := list (string * Value).

Definition PolicySettings_try_from (value : Value) : result PolicySettings string :=
  match value with
  | JNull => Ok []
  | JObject obj => Ok obj
  | _ => Err "Invalid settings in CRD, not an object"
  end.

Record SettingsValidationResponse := { sv_valid : bool; sv_message : option string }.

(** The parameters of a validation: the request next to the settings. *)
Definition validate_params (settings : PolicySettings) (r : ValidateRequest) : Value :=
  JObject [("request", request_to_value r); ("settings", JObject settings)].

(** The object of a Kubernetes request survives its serialization. *)
Lemma request_object_admission request :
  request_object (AdmissionReviewRequest request) = ar_object request.
Proof. by destruct request as [??? [] [] [] [] [] [] ?? [] [] [] []]. Qed.
