(* ===== verification/HostCapabilities.v ===== *)
(** * Host capabilities

    Models [crates/policy-evaluator/src/host_capabilities.rs] and the pattern
    errors of [errors.rs]: the allow list of host operations a policy may call. *)

From S2P Require Import Prelude RustStr Json PolicyId.

(** ** The capability tree

    A node maps a path segment to [None] (a leaf, an operation) or to an inner
    node. The children are a [BTreeMap]: sorted by segment. *)
Inductive CapabilityNode :=
| Node (children : list (string * option CapabilityNode)).

Definition children (n : CapabilityNode) : list (string * option CapabilityNode) :=
  match n with Node cs => cs end.

Definition btree_from {V} (l : list (string * V)) : list (string * V) :=
  merge_sort key_le l.

Definition leaf : option CapabilityNode := None.
Definition node (cs : list (string * option CapabilityNode)) : option CapabilityNode :=
  Some (Node cs).

Definition CAPABILITY_TREE : CapabilityNode :=
  Node (btree_from [
    ("oci", node (btree_from [
      ("v1", node (btree_from [
        ("verify", leaf);
        ("manifest_digest", leaf);
        ("oci_manifest", leaf);
        ("oci_manifest_config", leaf)]));
      ("v2", node (btree_from [("verify", leaf)]))]));
    ("net", node (btree_from [
      ("v1", node (btree_from [("dns_lookup_host", leaf)]))]));
    ("crypto", node (btree_from [
      ("v1", node (btree_from [("is_certificate_trusted", leaf)]))]));
    ("kubernetes", node (btree_from [
      ("list_resources_by_namespace", leaf);
      ("list_resources_all", leaf);
      ("get_resource", leaf);
      ("can_i", leaf)]))]).

Inductive HostCapabilitiesPatternError :=
| InvalidWildcard (pattern : string)
| EmptyPattern
| UnknownSegment (pattern segment valid_options : string)
| IncompleteCapabilityPath (pattern suggestion : string).

Definition HostCapabilitiesPatternError_to_string (e : HostCapabilitiesPatternError) : string :=
  match e with
  | InvalidWildcard pattern => "invalid pattern " +:+ debug_str pattern +:+
      ": wildcard '*' must be the entire last path segment (e.g. 'oci/*'), not a partial match"
  | EmptyPattern => "invalid pattern: pattern must not be empty"
  | UnknownSegment pattern segment valid_options => "invalid pattern " +:+ debug_str pattern +:+
      ": unknown segment " +:+ debug_str segment +:+
      ", valid options at this level are: " +:+ valid_options
  | IncompleteCapabilityPath pattern suggestion => "invalid pattern " +:+ debug_str pattern +:+
      ": not a complete capability path; use " +:+ debug_str suggestion +:+
      " to allow all capabilities under it"
  end.

(** The loop of [validate_against_tree]: [n] is the node reached so far, the
    head of [parts] the segment examined. *)
Fixpoint validate_parts (pattern : string) (n : CapabilityNode) (parts : list string) :
    result unit HostCapabilitiesPatternError :=
  match parts with
  | [] => Ok tt
  | part :: rest =>
      if decide (part = "*") then Ok tt else
      match field_get (children n) part with
      | None => Err (UnknownSegment pattern part (join ", " (children n).*1))
      | Some None =>
          match rest with
          | [] => Ok tt
          | next :: _ => Err (UnknownSegment pattern next "")
          end
      | Some (Some child) =>
          match rest with
          | [] => Err (IncompleteCapabilityPath pattern (pattern +:+ "/*"))
          | _ => validate_parts pattern child rest
          end
      end
  end.

Definition validate_against_tree (pattern : string) :
    result unit HostCapabilitiesPatternError :=
  validate_parts pattern CAPABILITY_TREE (split pattern slash).

(** ** [HostCapabilities] *)

Inductive HostCapabilities :=
| DenyAll
| AllowAll
| Patterns (prefixes exact : gset string).

Definition HostCapabilities_default : HostCapabilities := DenyAll.

(** The recursive [walk] of [enumerate_operations]; [path] is the stack of
    segments above the node. *)
Fixpoint walk (n : CapabilityNode) (path : list string) : list (string * string) :=
  match n with
  | Node cs =>
      (fix go (cs : list (string * option CapabilityNode)) :=
         match cs with
         | [] => []
         | (segment, child) :: cs =>
             match child with
             | None =>
                 [(unwrap_or "" (head (path ++ [segment])),
                   join "/" (tail (path ++ [segment])))]
             | Some inner => walk inner (path ++ [segment])
             end ++ go cs
         end) cs
  end.

(** Rust's ordering of pairs of strings, for [Vec::sort]. *)
Definition pair_leb (a b : string * string) : bool :=
  if decide (a.1 = b.1) then String.leb a.2 b.2 else String.leb a.1 b.1.

Definition pair_le (a b : string * string) : Prop := pair_leb a b.

#[export] Instance pair_le_dec : RelDecision pair_le.
Proof. intros a b. unfold pair_le. apply _. Defined.

Definition enumerate_operations : list (string * string) :=
  merge_sort pair_le (walk CAPABILITY_TREE []).

(** The loop of [HostCapabilities::new]; [prefixes] and [exact] are the sets
    filled so far. *)
Fixpoint new_loop (patterns : list string) (prefixes exact : gset string) :
    result HostCapabilities HostCapabilitiesPatternError :=
  match patterns with
  | [] =>
      if decide (prefixes = ∅ ∧ exact = ∅) then Ok DenyAll
      else Ok (Patterns prefixes exact)
  | pattern :: patterns =>
      let trimmed := trim pattern in
      if decide (trimmed = "") then Err EmptyPattern else
      if decide (trimmed = "*") then Ok AllowAll else
      if contains_char trimmed "*"%char && negb (ends_with trimmed "/*")
      then Err (InvalidWildcard pattern) else
      let? _ := validate_against_tree trimmed in
      match strip_suffix trimmed "*" with
      | Some prefix => new_loop patterns ({[prefix]} ∪ prefixes) exact
      | None => new_loop patterns prefixes ({[trimmed]} ∪ exact)
      end
  end.

Definition HostCapabilities_new (patterns : list string) :
    result HostCapabilities HostCapabilitiesPatternError :=
  new_loop patterns ∅ ∅.

Definition is_allowed (hc : HostCapabilities) (capability_path : string) : bool :=
  match hc with
  | AllowAll => true
  | DenyAll => false
  | Patterns prefixes exact =>
      bool_decide (capability_path ∈ exact)
      || existsb (λ p, starts_with capability_path p) (btree_set_iter prefixes)
  end.

(** [impl TryFrom<Vec<String>>] and [impl From<HostCapabilities> for Vec<String>] *)
Definition HostCapabilities_try_from (patterns : list string) :
    result HostCapabilities HostCapabilitiesPatternError :=
  HostCapabilities_new patterns.

Definition HostCapabilities_into (hc : HostCapabilities) : list string :=
  match hc with
  | AllowAll => ["*"]
  | DenyAll => []
  | Patterns prefixes exact =>
      ((λ p, p +:+ "*") <$> btree_set_iter prefixes) ++ btree_set_iter exact
  end.

(** [impl Display for HostCapabilities] *)
Definition HostCapabilities_to_string (hc : HostCapabilities) : string :=
  match hc with
  | AllowAll => "[*]"
  | DenyAll => "[]"
  | Patterns prefixes exact =>
      "[" +:+ join ", " (((λ p, p +:+ "*") <$> btree_set_iter prefixes)
                         ++ btree_set_iter exact) +:+ "]"
  end.

(** ** The grant a list of patterns denotes

    Specification: a trimmed pattern grants the paths below it when it ends with
    a star, and exactly itself otherwise. *)

Definition pattern_grants (pattern path : string) : Prop :=
  match strip_suffix (trim pattern) "*" with
  | Some prefix => starts_with path prefix
  | None => trim pattern = path
  end.

Definition set_grants (prefixes exact : gset string) (path : string) : Prop :=
  path ∈ exact ∨ ∃ p, p ∈ prefixes ∧ starts_with path p.

Lemma is_allowed_Patterns prefixes exact path :
  is_allowed (Patterns prefixes exact) path ↔ set_grants prefixes exact path.
Proof.
  rw /= orb_True bool_decide_spec /set_grants. f_equiv.
  rw Is_true_true existsb_exists. f_equiv; intros p.
  by rw -list_elem_of_In elem_of_btree_set_iter Is_true_true.
Qed.

Lemma starts_with_empty s : starts_with s "".
Proof. apply starts_with_spec. by exists s. Qed.

Lemma new_loop_grants patterns prefixes exact hc path :
  new_loop patterns prefixes exact = Ok hc →
  is_allowed hc path ↔
    set_grants prefixes exact path ∨ ∃ p, p ∈ patterns ∧ pattern_grants p path.
Proof.
  revert prefixes exact. induction patterns as [|p ps IH]; intros pre ex; simpl.
  { intros Hok. assert (is_allowed hc path ↔ set_grants pre ex path) as ->.
    { case_decide as Hd; simplify_eq; [|apply is_allowed_Patterns].
      destruct Hd as [-> ->]. rw /set_grants. set_solver. }
    set_solver. }
  setoid_rewrite elem_of_cons.
  case_decide as He; [done|]. case_decide as Hs.
  { intros [= <-]. simpl. split; [|done]. intros _. right. exists p. split; [by left|].
    rw /pattern_grants Hs /=. apply starts_with_empty. }
  case_match; [done|]. intros (_ & _ & Hok)%res_bind_Ok.
  destruct (strip_suffix (trim p) "*") as [q|] eqn:E; rw (IH _ _ Hok) /set_grants.
  - assert (pattern_grants p path ↔ starts_with path q) by (rw /pattern_grants E //).
    set_solver.
  - assert (pattern_grants p path ↔ trim p = path) by (rw /pattern_grants E //).
    set_solver.
Qed.

(** C16. Refinement of the allow list: when a list of patterns is accepted, a
    capability path is allowed exactly when one of the patterns grants it,
    whatever the order and the repetitions of the patterns. *)
Theorem host_capabilities_refines_grants patterns hc path :
  HostCapabilities_new patterns = Ok hc →
  is_allowed hc path ↔ ∃ p, p ∈ patterns ∧ pattern_grants p path.
Proof.
  intros ->%(new_loop_grants _ _ _ _ path). rw /set_grants. set_solver.
Qed.

Lemma host_capabilities_refines_grants_witness :
  ∃ hc, HostCapabilities_new ["oci/*"; "net/v1/dns_lookup_host"] = Ok hc ∧
        is_allowed hc "oci/v1/verify".
Proof.
  eexists. split; [reflexivity|].
  refine (proj2 (host_capabilities_refines_grants
    ["oci/*"; "net/v1/dns_lookup_host"] _ "oci/v1/verify" eq_refl) _).
  exists "oci/*". split; [left|]. vm_compute. done.
Defined.

(** ** What the stored patterns look like

    Every stored prefix ends at a segment boundary and every stored pattern has
    passed the checks of [new]. *)

Definition valid_pattern (p : string) : Prop :=
  trim p = p ∧ p ≠ "" ∧ p ≠ "*" ∧
  (contains_char p "*"%char = true → ends_with p "/*") ∧
  validate_against_tree p = Ok tt.

Definition HostCapabilities_wf (hc : HostCapabilities) : Prop :=
  match hc with
  | Patterns prefixes exact =>
      ¬ (prefixes = ∅ ∧ exact = ∅) ∧
      (∀ p, p ∈ prefixes → valid_pattern (p +:+ "*")) ∧
      (∀ p, p ∈ exact → valid_pattern p ∧ strip_suffix p "*" = None)
  | _ => True
  end.

Lemma checked_pattern_valid p :
  trim p ≠ "" → trim p ≠ "*" →
  contains_char (trim p) "*"%char && negb (ends_with (trim p) "/*") = false →
  validate_against_tree (trim p) = Ok tt → valid_pattern (trim p).
Proof.
  intros ?? Hw ?. split_and!; auto using trim_idemp.
  intros Hc. rw Hc /= in Hw. apply negb_false_iff in Hw. by rw Hw.
Qed.

Lemma new_loop_wf patterns prefixes exact hc :
  (∀ p, p ∈ prefixes → valid_pattern (p +:+ "*")) →
  (∀ p, p ∈ exact → valid_pattern p ∧ strip_suffix p "*" = None) →
  new_loop patterns prefixes exact = Ok hc → HostCapabilities_wf hc.
Proof.
  revert prefixes exact. induction patterns as [|p ps IH]; intros pre ex Hpre Hex; simpl.
  { case_decide; intros; simplify_eq; [done|]. by split_and!. }
  case_decide as He; [done|]. case_decide as Hs; [by intros [= <-]|].
  destruct (_ && _) eqn:Hw; [done|]. intros ([] & Hv & Hok)%res_bind_Ok.
  pose proof (checked_pattern_valid p He Hs Hw Hv) as Hvalid.
  destruct (strip_suffix (trim p) "*") as [q|] eqn:E;
    refine (IH _ _ _ _ Hok); try done.
  - intros x [->%elem_of_singleton|]%elem_of_union; [|by auto].
    apply strip_suffix_Some in E. by rw -E.
  - intros x [->%elem_of_singleton|]%elem_of_union; [done|by auto].
Qed.

Lemma HostCapabilities_new_wf patterns hc :
  HostCapabilities_new patterns = Ok hc → HostCapabilities_wf hc.
Proof. apply new_loop_wf; set_solver. Qed.

Lemma wildcard_prefix_slash p :
  ends_with (p +:+ "*") "/*" → ∃ q, p = q +:+ "/".
Proof.
  intros (q & Hq)%ends_with_spec. exists q.
  apply (str_app_inj_l _ _ "*"). by rw Hq str_app_assoc.
Qed.

(** Segment boundaries: a wildcard grants whole segments only. Every stored
    prefix ends with a slash, so a grant of [oci/*] can never reach a namespace
    whose name merely starts with [oci]. *)
Theorem wildcard_respects_segments patterns prefixes exact p :
  HostCapabilities_new patterns = Ok (Patterns prefixes exact) →
  p ∈ prefixes → ∃ q, p = q +:+ "/".
Proof.
  intros (_ & Hpre & _)%HostCapabilities_new_wf Hp.
  destruct (Hpre p Hp) as (_ & _ & _ & Hstar & _).
  apply wildcard_prefix_slash, Hstar.
  rw contains_char_app /=. by rw orb_true_r.
Qed.

Lemma wildcard_respects_segments_witness : ∃ q, "oci/" = q +:+ "/".
Proof.
  apply (wildcard_respects_segments ["oci/*"] {["oci/"]} ∅ "oci/").
  - reflexivity.
  - apply elem_of_singleton. reflexivity.
Defined.

(** ** Round trip through the list of patterns *)

Lemma new_loop_valid p ps prefixes exact :
  valid_pattern p →
  new_loop (p :: ps) prefixes exact =
    match strip_suffix p "*" with
    | Some q => new_loop ps ({[q]} ∪ prefixes) exact
    | None => new_loop ps prefixes ({[p]} ∪ exact)
    end.
Proof.
  intros (Htrim & Hne & Hns & Hstar & Htree). simpl. rw Htrim.
  do 2 (rw decide_False //). rw Htree.
  destruct (contains_char p "*") eqn:E; simpl; [|done].
  apply Is_true_true in Hstar as ->; [done|done].
Qed.

Lemma new_loop_all_valid l1 l2 prefixes exact :
  (∀ p, p ∈ l1 → valid_pattern (p +:+ "*")) →
  (∀ p, p ∈ l2 → valid_pattern p ∧ strip_suffix p "*" = None) →
  new_loop (((λ p, p +:+ "*") <$> l1) ++ l2) prefixes exact =
    new_loop [] (list_to_set l1 ∪ prefixes) (list_to_set l2 ∪ exact).
Proof.
  intros H1 H2. revert prefixes. induction l1 as [|p l1 IH1]; intros prefixes.
  - simpl (_ ++ l2). revert exact. induction l2 as [|p l2 IH2]; intros exact.
    { f_equal; set_solver. }
    destruct (H2 p) as [Hv Hn]; [left|]. rw new_loop_valid // Hn IH2;
      last (intros; apply H2; by right).
    f_equal; set_solver.
  - simpl (_ ++ l2). rw new_loop_valid; last (apply H1; left).
    rw (proj2 (strip_suffix_Some (p +:+ "*") "*" p)) // IH1;
      last (intros; apply H1; by right).
    f_equal; set_solver.
Qed.

(** Round trip: converting an accepted allow list back to patterns and
    parsing these again gives the same allow list. *)
Theorem host_capabilities_round_trip patterns hc :
  HostCapabilities_new patterns = Ok hc →
  HostCapabilities_try_from (HostCapabilities_into hc) = Ok hc.
Proof.
  intros Hwf%HostCapabilities_new_wf. destruct hc as [| |pre ex]; [done|done|].
  destruct Hwf as (Hne & Hpre & Hex).
  rw /HostCapabilities_try_from /HostCapabilities_new /HostCapabilities_into.
  rw new_loop_all_valid.
  - assert (∀ s : gset string, list_to_set (btree_set_iter s) ∪ ∅ = s) as Hset.
    { intros s. apply set_eq. intros x.
      rw elem_of_union elem_of_list_to_set elem_of_btree_set_iter. set_solver. }
    rw !Hset /= decide_False //.
  - intros p. rw elem_of_btree_set_iter. apply Hpre.
  - intros p. rw elem_of_btree_set_iter. apply Hex.
Qed.

Lemma host_capabilities_round_trip_witness :
  ∃ hc, HostCapabilities_new ["oci/*"; "net/v1/dns_lookup_host"] = Ok hc ∧
        HostCapabilities_try_from (HostCapabilities_into hc) = Ok hc.
Proof.
  eexists. split; [reflexivity|].
  apply (host_capabilities_round_trip ["oci/*"; "net/v1/dns_lookup_host"]). reflexivity.
Defined.

(** ** Exact patterns are the operations of the tree *)

Fixpoint leaf_path (n : CapabilityNode) (parts : list string) : Prop :=
  match parts with
  | [] => False
  | [part] => field_get (children n) part = Some None
  | part :: rest => ∃ c, field_get (children n) part = Some (Some c) ∧ leaf_path c rest
  end.

Lemma validate_parts_leaf pattern n parts :
  parts ≠ [] → "*" ∉ parts →
  validate_parts pattern n parts = Ok tt ↔ leaf_path n parts.
Proof.
  revert n. induction parts as [|part rest IH]; [done|intros n _].
  intros [Hstar Hrest]%not_elem_of_cons. simpl.
  rw decide_False; last congruence.
  destruct (field_get (children n) part) as [[c|]|] eqn:E, rest as [|next rest];
    [split; done| |done|split; naive_solver..].
  rw IH //. split; [by eauto|]. by intros (c' & [= ->] & ?).
Qed.

Lemma walk_child cs path segment child x :
  (segment, child) ∈ cs →
  x ∈ match child with
      | None => [(unwrap_or "" (head (path ++ [segment])),
                  join "/" (tail (path ++ [segment])))]
      | Some inner => walk inner (path ++ [segment])
      end →
  x ∈ walk (Node cs) path.
Proof.
  intros Hin Hx. induction cs as [|[s c] cs IH]; [by apply elem_of_nil in Hin|].
  simpl. apply elem_of_app.
  apply elem_of_cons in Hin as [[= <- <-]|Hin]; [by left|]. right. by apply IH.
Qed.

Lemma walk_leaf n path parts :
  leaf_path n parts →
  (unwrap_or "" (head (path ++ parts)), join "/" (tail (path ++ parts))) ∈ walk n path.
Proof.
  revert n path. induction parts as [|part rest IH]; intros [cs] path; [done|].
  destruct rest as [|next rest]; simpl.
  - intros Hg%field_get_Some_elem. eapply walk_child; [done|]. left.
  - intros (c & Hg%field_get_Some_elem & Hl). eapply walk_child; [done|].
    specialize (IH c (path ++ [part]) Hl). by rw -app_assoc in IH.
Qed.

(** The capability paths [namespace/operation] of the known operations. *)
Definition known_paths : list string :=
  (λ '(ns, op), ns +:+ "/" +:+ op) <$> enumerate_operations.

Lemma leaf_path_known parts :
  leaf_path CAPABILITY_TREE parts → join "/" parts ∈ known_paths.
Proof.
  intros Hl. rw /known_paths. apply list_elem_of_fmap.
  destruct parts as [|ns [|op rest]]; [done| |].
  { apply field_get_Some_elem in Hl. exfalso. revert Hl.
    assert (Forall (λ kv, kv.2 ≠ None) (children CAPABILITY_TREE)) as Hn
      by (vm_compute; repeat constructor; discriminate).
    intros Hin. by apply (Forall_forall _ _) with (ns, None) in Hn. }
  exists (ns, join "/" (op :: rest)). split; [by rw join_cons|].
  rw /enumerate_operations merge_sort_Permutation. apply (walk_leaf _ [] _ Hl).
Qed.

Lemma known_paths_accepted p :
  p ∈ known_paths → HostCapabilities_new [p] = Ok (Patterns ∅ {[p]}).
Proof.
  revert p. apply Forall_forall.
  assert (known_paths = ltac:(let l := eval vm_compute in known_paths in exact l)) as ->
    by (vm_compute; reflexivity).
  repeat first [apply Forall_nil_2 | apply Forall_cons_2; [vm_compute; reflexivity|]].
Qed.

(** Exactness against the capability tree: a pattern without a wildcard is
    accepted exactly when it is one of the operations the host implements, as
    listed by [enumerate_operations]. Misspelt grants are configuration errors,
    never silently useless. *)
Theorem exact_pattern_accepted_iff p :
  contains_char (trim p) "*"%char = false →
  is_ok (HostCapabilities_new [p]) = true ↔ trim p ∈ known_paths.
Proof.
  intros Hns. split.
  - rw /HostCapabilities_new /=. case_decide; [done|].
    case_decide as Hstar; [by rw Hstar in Hns|]. rw Hns /=. destruct (validate_against_tree (trim p)) as [[]|] eqn:E; [|done].
    intros _. rw -(join_split (trim p) slash). apply leaf_path_known.
    revert E. rw /validate_against_tree. intros E. eapply validate_parts_leaf, E.
    + destruct (split_cons (trim p) slash) as (h & t & ->). done.
    + intros Hin. eapply Forall_forall in Hin; [|apply (split_other_char _ _ _ Hns)].
      done.
  - intros Hk. pose proof (known_paths_accepted _ Hk) as Ha.
    revert Ha. rw /HostCapabilities_new /= trim_idemp.
    case_decide; [done|]. case_decide; [done|]. rw Hns /=. by intros ->.
Qed.

Lemma exact_pattern_accepted_iff_witness :
  is_ok (HostCapabilities_new [" oci/v1/verify "]) = true ↔ "oci/v1/verify" ∈ known_paths.
Proof. exact (exact_pattern_accepted_iff " oci/v1/verify " eq_refl). Defined.

(** A star before the last segment is accepted. The comment in
    [validate_against_tree] says the star it meets is guaranteed to be the last
    segment; the syntax check only looks at the end of the pattern, so a pattern
    such as [oci/*/*] is accepted, stored as the prefix [oci/*/], and grants none
    of the operations the host implements. *)
Theorem inner_star_accepted_and_useless :
  HostCapabilities_new ["oci/*/*"] = Ok (Patterns {["oci/*/"]} ∅) ∧
  Forall (λ path, is_allowed (Patterns {["oci/*/"]} ∅) path = false) known_paths.
Proof.
  split; [reflexivity|].
  assert (known_paths = ltac:(let l := eval vm_compute in known_paths in exact l)) as ->
    by (vm_compute; reflexivity).
  repeat first [apply Forall_nil_2 | apply Forall_cons_2; [vm_compute; reflexivity|]].
Qed.
