(* ===== verification/Callback.v ===== *)
(** * Host callbacks and their authorization

    Models [crates/policy-evaluator/src/evaluation_context.rs],
    [callback_requests.rs] and [runtimes/callback.rs]: what a policy may ask the
    host, and the gate every request crosses before it reaches the channel to
    the callback handler.

    The request types of the SDK ([KeylessInfo], the subject access review, the
    certificate request) are opaque; their JSON decoders are the operations of
    [CallbackCodec]. The channel is the function from a request to what the
    caller observes: a refused [try_send], a dropped reply channel, or a reply. *)

From S2P Require Import Prelude RustStr Json PolicyId HostCapabilities.

(** ** Context-aware resources ([policy_metadata.rs]) *)

Record ContextAwareResource := {
  car_api_version : string;
  car_kind : string;
}.

#[export] Instance ContextAwareResource_eq_dec : EqDecision ContextAwareResource.
Proof. solve_decision. Defined.

#[export] Instance ContextAwareResource_countable : Countable ContextAwareResource.
Proof.
  refine (inj_countable' (λ r, (car_api_version r, car_kind r))
    (λ p, {| car_api_version := p.1; car_kind := p.2 |}) _).
  by intros [].
Defined.

(** ** Requests ([callback_requests.rs]) *)

(** Opaque types of the policy SDK. *)
Class SdkTypes := {
  KeylessInfo : Type;
  KeylessPrefixInfo : Type;
  SubjectAccessReview : Type;
  CertificateVerificationRequest : Type;
}.

(** A point in time; only compared. *)
Definition Instant := Z.

Section requests.
Context `{SdkTypes}.

Inductive CallbackRequestType :=
| OciManifestDigest (image : string)
| OciManifest (image : string)
| OciManifestAndConfig (image : string)
| SigstorePubKeyVerify (image : string) (pub_keys : list string)
    (annotations : option (gmap string string))
| SigstoreKeylessVerify (image : string) (keyless : list KeylessInfo)
    (annotations : option (gmap string string))
| SigstoreKeylessPrefixVerify (image : string) (keyless_prefix : list KeylessPrefixInfo)
    (annotations : option (gmap string string))
| SigstoreGithubActionsVerify (image owner : string) (repo : option string)
    (annotations : option (gmap string string))
| SigstoreCertificateVerify (image certificate : string)
    (certificate_chain : option (list string)) (require_rekor_bundle : bool)
    (annotations : option (gmap string string))
| DNSLookupHost (host : string)
| KubernetesListResourceNamespace (api_version kind namespace : string)
    (label_selector field_selector : option string) (field_masks : option (gset string))
| KubernetesListResourceAll (api_version kind : string)
    (label_selector field_selector : option string) (field_masks : option (gset string))
| KubernetesGetResource (api_version kind name : string) (namespace : option string)
    (disable_cache : bool) (field_masks : option (gset string))
| KubernetesGetResourcePluralName (api_version kind : string)
| HasKubernetesListResourceAllResultChangedSinceInstant (api_version kind : string)
    (label_selector field_selector : option string) (field_masks : option (gset string))
    (since : Instant)
| KubernetesCanI (request : SubjectAccessReview) (disable_cache : bool)
| CryptoIsCertificateTrusted (request : CertificateVerificationRequest).

(** [CallbackResponse]: the payload handed back to the guest. *)
Record CallbackResponse := { payload : string }.

(** The SDK's request types, with the fields the conversions read. *)
Inductive SigstoreVerificationInputV1 :=
| V1_PubKeyVerify (image : string) (pub_keys : list string)
    (annotations : option (gmap string string))
| V1_KeylessVerify (image : string) (keyless : list KeylessInfo)
    (annotations : option (gmap string string)).

Inductive SigstoreVerificationInputV2 :=
| V2_PubKeyVerify (image : string) (pub_keys : list string)
    (annotations : option (gmap string string))
| V2_KeylessVerify (image : string) (keyless : list KeylessInfo)
    (annotations : option (gmap string string))
| V2_KeylessPrefixVerify (image : string) (keyless_prefix : list KeylessPrefixInfo)
    (annotations : option (gmap string string))
| V2_GithubActionsVerify (image owner : string) (repo : option string)
    (annotations : option (gmap string string))
| V2_CertificateVerify (image certificate : string)
    (certificate_chain : option (list string)) (require_rekor_bundle : bool)
    (annotations : option (gmap string string)).

Record ListResourcesByNamespaceRequest := {
  lrn_api_version : string; lrn_kind : string; lrn_namespace : string;
  lrn_label_selector : option string; lrn_field_selector : option string;
  lrn_field_masks : option (gset string) }.

Record ListAllResourcesRequest := {
  lra_api_version : string; lra_kind : string;
  lra_label_selector : option string; lra_field_selector : option string;
  lra_field_masks : option (gset string) }.

Record GetResourceRequest := {
  gr_api_version : string; gr_kind : string; gr_name : string;
  gr_namespace : option string; gr_disable_cache : bool;
  gr_field_masks : option (gset string) }.

Record CanIRequest := {
  ci_subject_access_review : SubjectAccessReview; ci_disable_cache : bool }.

(** The [From] conversions. *)
Definition from_sigstore_v2 (val : SigstoreVerificationInputV2) : CallbackRequestType :=
  match val with
  | V2_PubKeyVerify image pub_keys annotations =>
      SigstorePubKeyVerify image pub_keys annotations
  | V2_KeylessVerify image keyless annotations =>
      SigstoreKeylessVerify image keyless annotations
  | V2_KeylessPrefixVerify image keyless_prefix annotations =>
      SigstoreKeylessPrefixVerify image keyless_prefix annotations
  | V2_GithubActionsVerify image owner repo annotations =>
      SigstoreGithubActionsVerify image owner repo annotations
  | V2_CertificateVerify image certificate chain rekor annotations =>
      SigstoreCertificateVerify image certificate chain rekor annotations
  end.

Definition from_sigstore_v1 (val : SigstoreVerificationInputV1) : CallbackRequestType :=
  match val with
  | V1_PubKeyVerify image pub_keys annotations =>
      SigstorePubKeyVerify image pub_keys annotations
  | V1_KeylessVerify image keyless annotations =>
      SigstoreKeylessVerify image keyless annotations
  end.

Definition from_list_by_namespace (req : ListResourcesByNamespaceRequest) :
    CallbackRequestType :=
  KubernetesListResourceNamespace (lrn_api_version req) (lrn_kind req) (lrn_namespace req)
    (lrn_label_selector req) (lrn_field_selector req) (lrn_field_masks req).

Definition from_list_all (req : ListAllResourcesRequest) : CallbackRequestType :=
  KubernetesListResourceAll (lra_api_version req) (lra_kind req)
    (lra_label_selector req) (lra_field_selector req) (lra_field_masks req).

Definition from_get_resource (req : GetResourceRequest) : CallbackRequestType :=
  KubernetesGetResource (gr_api_version req) (gr_kind req) (gr_name req)
    (gr_namespace req) (gr_disable_cache req) (gr_field_masks req).

Definition from_can_i (req : CanIRequest) : CallbackRequestType :=
  KubernetesCanI (ci_subject_access_review req) (ci_disable_cache req).

Definition from_certificate_verification (req : CertificateVerificationRequest) :
    CallbackRequestType :=
  CryptoIsCertificateTrusted req.

(** ** The channel and the evaluation context *)

Inductive ChannelOutcome :=
| SendError (e : string)
| RecvError
| Reply (r : result CallbackResponse string).

Definition Channel := CallbackRequestType → ChannelOutcome.

Record EvaluationContext := {
  policy_id : string;
  callback_channel : option Channel;
  ctx_aware_resources_allow_list : gset ContextAwareResource;
  epoch_deadline : option N;
  host_capabilities : HostCapabilities;
}.

Definition can_access_kubernetes_resource (ctx : EvaluationContext)
    (api_version kind : string) : bool :=
  bool_decide ({| car_api_version := api_version; car_kind := kind |}
    ∈ ctx_aware_resources_allow_list ctx).

Definition can_access_host_capability (ctx : EvaluationContext) (capability_path : string) :
    bool :=
  is_allowed (host_capabilities ctx) capability_path.

(** ** Authorization ([runtimes/callback.rs]) *)

Definition host_capability_denied_message (capability_path : string) : string :=
  "Policy has not been granted access to the '" +:+ capability_path +:+
  "' host capability. The violation has been reported.".

Definition kubernetes_resource_denied_message (api_version kind : string) : string :=
  "Policy has not been granted access to Kubernetes " +:+ api_version +:+ "/" +:+ kind +:+
  " resources. The violation has been reported.".

Definition capability_path (namespace operation : string) : string :=
  namespace +:+ "/" +:+ operation.

Definition check_host_capability (ctx : EvaluationContext) (namespace operation : string) :
    result unit string :=
  if decide (namespace ≠ "tracing") then
    if can_access_host_capability ctx (capability_path namespace operation)
    then Ok tt
    else Err (host_capability_denied_message (capability_path namespace operation))
  else Ok tt.

(** The resource type a Kubernetes read carries. *)
Definition request_resource (req : CallbackRequestType) : option (string * string) :=
  match req with
  | KubernetesListResourceNamespace api_version kind _ _ _ _
  | KubernetesListResourceAll api_version kind _ _ _
  | KubernetesGetResource api_version kind _ _ _ _ => Some (api_version, kind)
  | _ => None
  end.

Definition check_kubernetes_resource (ctx : EvaluationContext) (req : CallbackRequestType) :
    result unit string :=
  match request_resource req with
  | Some (api_version, kind) =>
      if can_access_kubernetes_resource ctx api_version kind then Ok tt
      else Err (kubernetes_resource_denied_message api_version kind)
  | None => Ok tt
  end.

Definition check_authorization (ctx : EvaluationContext) (namespace operation : string)
    (req : CallbackRequestType) : result unit string :=
  let? _ := check_host_capability ctx namespace operation in
  let? _ := check_kubernetes_resource ctx req in
  Ok tt.

(** ** Dispatch

    A call returns the requests put on the channel together with its result. *)

Definition Outcome : Type := list CallbackRequestType * result string string.

Definition send_request_and_wait_for_response (req : CallbackRequestType)
    (ctx : EvaluationContext) : Outcome :=
  match callback_channel ctx with
  | None => ([], Err "Cannot process Wasm guest request: callback channel not provided")
  | Some cb_channel =>
      match cb_channel req with
      | SendError e => ([], Err ("Error sending request over callback channel: " +:+ e))
      | Reply (Ok resp) => ([req], Ok (payload resp))
      | Reply (Err e) => ([req], Err ("Callback evaluation failure: " +:+ e))
      | RecvError => ([req], Err "Error obtaining response over callback channel")
      end
  end.

Definition host_callback_typed (namespace operation : string) (req : CallbackRequestType)
    (ctx : EvaluationContext) : Outcome :=
  match check_authorization ctx namespace operation req with
  | Err e => ([], Err e)
  | Ok _ => send_request_and_wait_for_response req ctx
  end.

Definition unknown_operation (operation : string) : result CallbackRequestType string :=
  Err ("unknown operation: " +:+ operation).
Definition unknown_namespace (namespace : string) : result CallbackRequestType string :=
  Err ("unknown namespace: " +:+ namespace).

(** [serde_json::from_slice] at the types the dispatcher decodes. *)
Class CallbackCodec := {
  decode_string : string → result string string;
  decode_sigstore_v1 : string → result SigstoreVerificationInputV1 string;
  decode_sigstore_v2 : string → result SigstoreVerificationInputV2 string;
  decode_certificate : string → result CertificateVerificationRequest string;
  decode_list_by_namespace : string → result ListResourcesByNamespaceRequest string;
  decode_list_all : string → result ListAllResourcesRequest string;
  decode_get_resource : string → result GetResourceRequest string;
  decode_can_i : string → result CanIRequest string;
}.

(** The arms of the [(namespace, operation)] match of [host_callback] that
    decode a payload. *)
Definition dispatch `{CallbackCodec} (namespace operation : string) :
    option (string → result CallbackRequestType string) :=
  let case ns op := bool_decide (namespace = ns ∧ operation = op) in
  if case "oci" "v1/verify" then Some (λ p, res_map from_sigstore_v1 (decode_sigstore_v1 p)) else
  if case "oci" "v2/verify" then Some (λ p, res_map from_sigstore_v2 (decode_sigstore_v2 p)) else
  if case "oci" "v1/manifest_digest" then Some (λ p, res_map OciManifestDigest (decode_string p)) else
  if case "oci" "v1/oci_manifest" then Some (λ p, res_map OciManifest (decode_string p)) else
  if case "oci" "v1/oci_manifest_config" then Some (λ p, res_map OciManifestAndConfig (decode_string p)) else
  if case "net" "v1/dns_lookup_host" then Some (λ p, res_map DNSLookupHost (decode_string p)) else
  if case "crypto" "v1/is_certificate_trusted" then
    Some (λ p, res_map from_certificate_verification (decode_certificate p)) else
  if case "kubernetes" "list_resources_by_namespace" then
    Some (λ p, res_map from_list_by_namespace (decode_list_by_namespace p)) else
  if case "kubernetes" "list_resources_all" then Some (λ p, res_map from_list_all (decode_list_all p)) else
  if case "kubernetes" "get_resource" then Some (λ p, res_map from_get_resource (decode_get_resource p)) else
  if case "kubernetes" "can_i" then Some (λ p, res_map from_can_i (decode_can_i p)) else
  None.

Definition decode_request `{CallbackCodec} (namespace operation payload : string) :
    result CallbackRequestType string :=
  match dispatch namespace operation with
  | Some decode => decode payload
  | None =>
      if bool_decide (namespace ∈ ["oci"; "net"; "crypto"; "kubernetes"])
      then unknown_operation operation
      else unknown_namespace namespace
  end.

(** [host_callback]. A [tracing/log] call writes to the log and always returns
    an empty payload. *)
Definition host_callback `{CallbackCodec} (binding namespace operation payload : string)
    (ctx : EvaluationContext) : Outcome :=
  if decide (binding ≠ "kubewarden") then ([], Err ("unknown binding: " +:+ binding)) else
  if decide (namespace = "tracing") then
    if decide (operation = "log") then ([], Ok "")
    else ([], Err ("unknown operation: " +:+ operation))
  else
  match check_host_capability ctx namespace operation with
  | Err e => ([], Err e)
  | Ok _ =>
      match decode_request namespace operation payload with
      | Err e => ([], Err e)
      | Ok req => host_callback_typed namespace operation req ctx
      end
  end.
End requests.

(** ** Mediation *)

Section mediation.
Context `{SdkTypes}.
Implicit Types (ctx : EvaluationContext) (req : CallbackRequestType).

(** What a context grants to a request made under [namespace]/[operation]. *)
Definition granted ctx (namespace operation : string) req : Prop :=
  namespace ≠ "tracing" ∧
  is_allowed (host_capabilities ctx) (capability_path namespace operation) = true ∧
  ∀ api_version kind, request_resource req = Some (api_version, kind) →
    {| car_api_version := api_version; car_kind := kind |}
      ∈ ctx_aware_resources_allow_list ctx.

Lemma check_host_capability_Ok ctx namespace operation :
  namespace ≠ "tracing" →
  check_host_capability ctx namespace operation = Ok tt ↔
  is_allowed (host_capabilities ctx) (capability_path namespace operation) = true.
Proof.
  intros Hns. rw /check_host_capability /can_access_host_capability.
  rw decide_True //. destruct (is_allowed _ _); naive_solver.
Qed.

Lemma check_kubernetes_resource_Ok ctx req :
  check_kubernetes_resource ctx req = Ok tt ↔
  ∀ api_version kind, request_resource req = Some (api_version, kind) →
    {| car_api_version := api_version; car_kind := kind |}
      ∈ ctx_aware_resources_allow_list ctx.
Proof.
  rw /check_kubernetes_resource /can_access_kubernetes_resource.
  destruct (request_resource req) as [[av k]|]; [|naive_solver].
  destruct (bool_decide_reflect ({| car_api_version := av; car_kind := k |}
    ∈ ctx_aware_resources_allow_list ctx)); naive_solver.
Qed.

(** The gate admits exactly the granted requests. *)
Lemma check_authorization_granted ctx namespace operation req :
  namespace ≠ "tracing" →
  check_authorization ctx namespace operation req = Ok tt ↔ granted ctx namespace operation req.
Proof.
  intros Hns. rw /check_authorization /granted -check_kubernetes_resource_Ok.
  rw -(check_host_capability_Ok _ _ _ Hns).
  destruct (check_host_capability _ _ _) as [[]|]; simpl; [|naive_solver].
  destruct (check_kubernetes_resource _ _) as [[]|]; naive_solver.
Qed.

Lemma send_request_trace ctx req r :
  r ∈ (send_request_and_wait_for_response req ctx).1 →
  (send_request_and_wait_for_response req ctx).1 = [req] ∧ r = req.
Proof.
  rw /send_request_and_wait_for_response.
  destruct (callback_channel ctx) as [ch|]; simpl; [|set_solver].
  destruct (ch req) as [?| |[?|?]]; set_solver.
Qed.

Lemma host_callback_trace `{!CallbackCodec}
    binding namespace operation payload ctx req :
  req ∈ (host_callback binding namespace operation payload ctx).1 →
  (host_callback binding namespace operation payload ctx).1 = [req] ∧
  binding = "kubewarden" ∧
  decode_request namespace operation payload = Ok req ∧
  granted ctx namespace operation req.
Proof.
  rw /host_callback.
  destruct (decide (binding ≠ "kubewarden")) as [?|Hb]; [set_solver|].
  apply dec_stable in Hb.
  destruct (decide (namespace = "tracing")) as [?|Hns];
    [destruct (decide _); set_solver|].
  destruct (check_host_capability _ _ _) as [[]|e]; simpl; [|set_solver].
  destruct (decode_request _ _ _) as [req'|e]; simpl; [|set_solver].
  rw /host_callback_typed.
  destruct (check_authorization ctx namespace operation req') as [[]|e] eqn:Hauth;
    simpl; [|set_solver].
  intros [-> ->]%send_request_trace. by apply check_authorization_granted in Hauth.
Qed.

Lemma host_callback_granted `{!CallbackCodec} binding namespace operation payload ctx req :
  req ∈ (host_callback binding namespace operation payload ctx).1 →
  granted ctx namespace operation req.
Proof. by intros (_ & _ & _ & ?)%host_callback_trace. Qed.

(** C2. Complete mediation: whatever binding, namespace, operation and payload
    a guest chooses, a request reaches the callback channel only if the binding
    is "kubewarden", the namespace is not "tracing", the policy's host
    capabilities allow "namespace/operation", the request is the decoded
    payload, and, for a Kubernetes read, the (apiVersion, kind) is in the
    policy's allow list; and a call puts at most that one request on it. *)
Theorem callback_complete_mediation `{!CallbackCodec}
    binding namespace operation payload ctx req :
  req ∈ (host_callback binding namespace operation payload ctx).1 →
  (host_callback binding namespace operation payload ctx).1 = [req] ∧
  binding = "kubewarden" ∧
  decode_request namespace operation payload = Ok req ∧
  granted ctx namespace operation req.
Proof. apply host_callback_trace. Qed.

(** The typed entry point of the CEL runtime crosses the same gate: it
    never contacts the channel for a request the context does not grant, and
    serves every granted request with the payload the handler replied. *)
Theorem host_callback_typed_gate namespace operation req ctx :
  namespace ≠ "tracing" →
  (req ∈ (host_callback_typed namespace operation req ctx).1 →
     granted ctx namespace operation req) ∧
  (∀ channel resp, granted ctx namespace operation req →
     callback_channel ctx = Some channel → channel req = Reply (Ok resp) →
     host_callback_typed namespace operation req ctx = ([req], Ok (payload resp))).
Proof.
  intros Hns. pose proof (check_authorization_granted ctx namespace operation req Hns) as Hg.
  rw /host_callback_typed. split; [rw -Hg|intros channel resp Hgr Hch Hreply].
  - destruct (check_authorization _ _ _ _) as [[]|]; set_solver.
  - apply Hg in Hgr as ->. by rw /send_request_and_wait_for_response Hch Hreply.
Qed.

(** A denied capability is denied before the payload is looked at: the
    answer is the same fixed message for every payload and every decoder. *)
Theorem denied_before_decoding `{!CallbackCodec} namespace operation payload ctx :
  namespace ≠ "tracing" →
  is_allowed (host_capabilities ctx) (capability_path namespace operation) = false →
  host_callback "kubewarden" namespace operation payload ctx =
    ([], Err (host_capability_denied_message (capability_path namespace operation))).
Proof.
  intros Hns Hcap. rw /host_callback.
  destruct (decide ("kubewarden" ≠ "kubewarden")); [done|].
  destruct (decide (namespace = "tracing")); [done|].
  rw /check_host_capability /can_access_host_capability Hcap.
  by destruct (decide (namespace ≠ "tracing")).
Qed.

Lemma dispatch_enumerated `{!CallbackCodec} namespace operation :
  (namespace, operation) ∈ enumerate_operations →
  is_Some (dispatch namespace operation).
Proof.
  revert namespace operation.
  assert (Forall (λ p, is_Some (dispatch p.1 p.2)) enumerate_operations) as Hall.
  { assert (enumerate_operations =
      ltac:(let l := eval vm_compute in enumerate_operations in exact l)) as ->
      by (vm_compute; reflexivity).
    repeat first [apply Forall_nil_2 | apply Forall_cons_2; [by eexists|]]. }
  intros ns op Hin. rw Forall_forall in Hall. by apply (Hall (ns, op)).
Qed.

(** The dispatcher serves exactly the operations of the capability tree:
    every operation a pattern can name has a handler arm, and every arm is an
    operation a pattern can name, so no operation escapes the patterns. *)
Theorem dispatch_is_capability_tree `{!CallbackCodec} namespace operation :
  is_Some (dispatch namespace operation) ↔ (namespace, operation) ∈ enumerate_operations.
Proof.
  split; [|apply dispatch_enumerated].
  intros [d Hd]. rw /dispatch in Hd.
  repeat match type of Hd with
  | (if bool_decide ?P then _ else _) = _ =>
      destruct (bool_decide_reflect P) as [[-> ->]|_];
        [apply (bool_decide_unpack _); vm_compute; exact I|]
  end.
  done.
Qed.
End mediation.

(** ** A concrete codec and context *)

Definition unit_sdk : SdkTypes := {|
  KeylessInfo := unit; KeylessPrefixInfo := unit; SubjectAccessReview := unit;
  CertificateVerificationRequest := unit |}.

(** A decoder that reads a payload as the bare name of an image, a host or a
    core resource kind. *)
Definition bare_codec : @CallbackCodec unit_sdk := {|
  decode_string := Ok;
  decode_sigstore_v1 p := Ok (V1_PubKeyVerify p ["key"] None);
  decode_sigstore_v2 p := Ok (V2_PubKeyVerify p ["key"] None);
  decode_certificate p := Err "not a certificate";
  decode_list_by_namespace p := Ok {| lrn_api_version := "v1"; lrn_kind := p;
    lrn_namespace := "default"; lrn_label_selector := None; lrn_field_selector := None;
    lrn_field_masks := None |};
  decode_list_all p := Ok {| lra_api_version := "v1"; lra_kind := p;
    lra_label_selector := None; lra_field_selector := None; lra_field_masks := None |};
  decode_get_resource p := Ok {| gr_api_version := "v1"; gr_kind := p; gr_name := "n";
    gr_namespace := None; gr_disable_cache := false; gr_field_masks := None |};
  decode_can_i p := Ok {| ci_subject_access_review := (tt : @SubjectAccessReview unit_sdk); ci_disable_cache := true |};
|}.

Definition example_context : @EvaluationContext unit_sdk := {|
  policy_id := "namespaces-only";
  callback_channel := Some (λ _, Reply (Ok {| payload := "{}" |}));
  ctx_aware_resources_allow_list := {[ {| car_api_version := "v1"; car_kind := "Namespace" |} ]};
  epoch_deadline := None;
  host_capabilities := Patterns {[ "kubernetes/" ]} ∅;
|}.

Lemma callback_complete_mediation_witness :
  granted example_context "kubernetes" "get_resource"
    (KubernetesGetResource "v1" "Namespace" "n" None false None).
Proof.
  apply (callback_complete_mediation (H0 := bare_codec)
    "kubewarden" "kubernetes" "get_resource" "Namespace" example_context).
  apply list_elem_of_singleton. reflexivity.
Defined.

Lemma host_callback_typed_gate_witness :
  host_callback_typed "kubernetes" "list_resources_all"
    (KubernetesListResourceAll "v1" "Namespace" None None None) example_context =
  ([KubernetesListResourceAll "v1" "Namespace" None None None], Ok "{}").
Proof.
  apply (host_callback_typed_gate "kubernetes" "list_resources_all"
    (KubernetesListResourceAll "v1" "Namespace" None None None) example_context)
    with (channel := λ _, Reply (Ok {| payload := "{}" |})) (resp := {| payload := "{}" |});
    [done|split_and!; [done|vm_compute; reflexivity|]|done|done].
  intros av k [= <- <-]. set_solver.
Defined.

Lemma denied_before_decoding_witness :
  host_callback (H0 := bare_codec) "kubewarden" "oci" "v1/verify" "registry.example/image"
    example_context =
  ([], Err (host_capability_denied_message "oci/v1/verify")).
Proof.
  apply (denied_before_decoding (H0 := bare_codec)
    "oci" "v1/verify" "registry.example/image" example_context);
    [done|vm_compute; reflexivity].
Defined.
