(* ===== verification/PolicyLog.v ===== *)
(** * What policies log

    Models [crates/policy-evaluator/src/policy_tracing.rs] (the [tracing/log] call of waPC and
    WASI policies) and [runtimes/ferricel/logging.rs] (the log of CEL policies): both become
    events of the host, under the target [policy_log].

    The JSON of an entry, and the JSON texts inside a log record, are the parameter
    [LogJson]; what the guest of a CEL policy logs is a list of the calls its values make of
    [slog]'s [Serializer]. *)

From S2P Require Import Prelude Bytes RustStr Json Request HostCapabilities Callback.

(** ** Events *)

Inductive TracingLevel := TRACE | DEBUG | INFO | WARN | ERROR.

Record LogEvent := {
  ev_target : string;
  ev_level : TracingLevel;
  ev_fields : list (string * string);
  ev_message : string;
}.

Definition POLICY_LOG : string := "policy_log".

Class LogJson := {
  (** the entries of a JSON object, in the order of the text, repeated keys included *)
  json_entries : bytes → result (list (string * Value)) string;
  (** [serde_json::from_str::<Value>], and [to_string] *)
  value_of_text : string → result Value string;
  text_of_value : Value → string;
  (** an [f64], and its digits when it is finite *)
  F64 : Type;
  finite_digits : F64 → option string;
}.

(** ** [policy_tracing.rs] *)

Inductive PolicyLogEntryLevel := LogTrace | LogDebug | LogInfo | LogWarning | LogError.

(** The characters beyond ASCII whose upper case is ASCII text, in UTF-8: the dotless i, the
    long s, the sharp s and the Latin ligatures. *)
Definition special_upper : list (string * string) :=
  let utf8 l := of_bytes (Ascii.ascii_of_N <$> l) in
  [(utf8 [196; 177], "I"); (utf8 [197; 191], "S"); (utf8 [195; 159], "SS");
   (utf8 [239; 172; 128], "FF"); (utf8 [239; 172; 129], "FI"); (utf8 [239; 172; 130], "FL");
   (utf8 [239; 172; 131], "FFI"); (utf8 [239; 172; 132], "FFL"); (utf8 [239; 172; 133], "ST");
   (utf8 [239; 172; 134], "ST")]%N.

Definition ascii_upper (a : ascii) : ascii :=
  let n := Ascii.N_of_ascii a in
  if bool_decide (97 ≤ n ∧ n ≤ 122)%N then Ascii.ascii_of_N (n - 32) else a.

(** [str::to_uppercase], up to the characters whose upper case is not ASCII text, which are
    kept: the result is only compared with names in ASCII. *)
Fixpoint to_uppercase_fuel (fuel : nat) (s : string) : string :=
  match fuel with
  | 0 => s
  | S fuel =>
      match head (omap (λ '(c, u), (λ rest, (u, rest)) <$> strip_prefix s c) special_upper) with
      | Some (u, rest) => u +:+ to_uppercase_fuel fuel rest
      | None =>
          match s with
          | EmptyString => ""
          | String a s => String (ascii_upper a) (to_uppercase_fuel fuel s)
          end
      end
  end.

Definition to_uppercase (s : string) : string := to_uppercase_fuel (String.length s) s.

Definition level_from_str (s : string) : result PolicyLogEntryLevel string :=
  let u := to_uppercase s in
  if decide (u = "TRACE") then Ok LogTrace
  else if decide (u = "DEBUG") then Ok LogDebug
  else if decide (u = "INFO") then Ok LogInfo
  else if decide (u = "WARNING") then Ok LogWarning
  else if decide (u = "ERROR") then Ok LogError
  else Err ("unknown log level " +:+ s).

Definition level_deserialize (v : Value) : result PolicyLogEntryLevel string :=
  match v with
  | JString s => level_from_str s
  | _ => Err "invalid type, expected a string"
  end.

Definition message_deserialize (v : Value) : result (option string) string :=
  match v with
  | JNull => Ok None
  | JString s => Ok (Some s)
  | _ => Err "invalid type, expected a string"
  end.

Record PolicyLogEntry := {
  le_level : PolicyLogEntryLevel;
  le_message : option string;
  le_data : option (list (string * Value));
}.

(** The derived [Deserialize], with a flattened field: what was read so far, the entries that
    are not fields of the structure being kept in order. *)
Record PartialEntry := {
  pe_level : option PolicyLogEntryLevel;
  pe_message : option (option string);
  pe_rest : list (string * Value);
}.

Definition visit_entry (p : PartialEntry) (entry : string * Value) : result PartialEntry string :=
  let '(key, v) := entry in
  if decide (key = "level") then
    if pe_level p then Err "duplicate field `level`" else
    let? level := level_deserialize v in
    Ok {| pe_level := Some level; pe_message := pe_message p; pe_rest := pe_rest p |}
  else if decide (key = "message") then
    if pe_message p then Err "duplicate field `message`" else
    let? message := message_deserialize v in
    Ok {| pe_level := pe_level p; pe_message := Some message; pe_rest := pe_rest p |}
  else Ok {| pe_level := pe_level p; pe_message := pe_message p; pe_rest := pe_rest p ++ [(key, v)] |}.

(** A [Map] takes the last value of a key. *)
Definition map_of_entries (l : list (string * Value)) : list (string * Value) :=
  foldl (λ m '(k, v), field_insert k v m) [] l.

Definition PolicyLogEntry_deserialize (entries : list (string * Value)) : result PolicyLogEntry string :=
  let? p := try_fold visit_entry {| pe_level := None; pe_message := None; pe_rest := [] |} entries in
  let? level := ok_or (pe_level p) "missing field `level`" in
  Ok {| le_level := level; le_message := unwrap_or None (pe_message p);
        le_data := Some (map_of_entries (pe_rest p)) |}.

Definition tracing_level (l : PolicyLogEntryLevel) : TracingLevel :=
  match l with
  | LogTrace => TRACE | LogDebug => DEBUG | LogInfo => INFO | LogWarning => WARN | LogError => ERROR
  end.

Section logging.
Context `{LJ : LogJson}.

(** [EvaluationContext::log]: the event, or the error; [None] is the [unwrap] of the data. *)
Definition log (contents : bytes) : option (result LogEvent string) :=
  match (let? entries := json_entries contents in PolicyLogEntry_deserialize entries) with
  | Err e => Some (Err e)
  | Ok entry =>
      match le_data entry with
      | None => None
      | Some data => Some (Ok
          {| ev_target := POLICY_LOG; ev_level := tracing_level (le_level entry);
             ev_fields := [("data", text_of_value (JObject data))];
             ev_message := unwrap_or "" (le_message entry) |})
      end
  end.

(** The arm of [host_callback] for [tracing/log]: an entry that cannot be logged is reported. *)
Definition log_callback (payload : bytes) : option (list LogEvent) :=
  match log payload with
  | None => None
  | Some (Ok event) => Some [event]
  | Some (Err e) => Some [
      {| ev_target := "policy_evaluator::runtimes::callback"; ev_level := ERROR;
         ev_fields := [("payload", from_utf8_lossy payload); ("error", e)];
         ev_message := "Cannot log event" |}]
  end.

(** ** [ferricel/logging.rs] *)

(** The calls of the [Serializer]; an integer is of the type that the method names. *)
Inductive Emit :=
| EmitStr (val : string)
| EmitArguments (val : string)
| EmitInteger (val : Z)
| EmitBool (val : bool)
| EmitF64 (val : F64)
| EmitNone.

(** Texts that are JSON are parsed. *)
Definition reparse (val : string) : Value :=
  match value_of_text val with Ok v => v | Err _ => JString val end.

Definition emit_value (e : Emit) : Value :=
  match e with
  | EmitStr val | EmitArguments val => reparse val
  | EmitInteger val => JNumber (pretty val)
  | EmitBool val => JBool val
  | EmitF64 val => match finite_digits val with Some digits => JNumber digits | None => JNull end
  | EmitNone => JNull
  end.

Definition emit (map : list (string * Value)) (kv : string * Emit) : list (string * Value) :=
  field_insert kv.1 (emit_value kv.2) map.

Inductive SlogLevel := SlogCritical | SlogError | SlogWarning | SlogInfo | SlogDebug | SlogTrace.

Record SlogRecord := {
  sr_level : SlogLevel;
  sr_msg : string;
  sr_kv : list (string * Emit);
}.

Definition slog_tracing_level (l : SlogLevel) : TracingLevel :=
  match l with
  | SlogCritical | SlogError => ERROR
  | SlogWarning => WARN
  | SlogInfo => INFO
  | SlogDebug => DEBUG
  | SlogTrace => TRACE
  end.

(** [PolicyLogDrain::log], with the values that the logger has accumulated. *)
Definition drain_log (policy_id : string) (record : SlogRecord) (values : list (string * Emit)) : LogEvent :=
  let data := foldl emit (foldl emit [] (sr_kv record)) values in
  {| ev_target := POLICY_LOG; ev_level := slog_tracing_level (sr_level record);
     ev_fields := [("policy_id", policy_id); ("data", text_of_value (JObject data))];
     ev_message := sr_msg record |}.
End logging.

(** ** Properties *)

(** The fuel of [to_uppercase] is enough: more changes nothing. *)
Lemma to_uppercase_fuel_enough fuel s :
  String.length s ≤ fuel → to_uppercase_fuel fuel s = to_uppercase s.
Proof.
  rewrite /to_uppercase. revert fuel s.
  assert (∀ n m s, String.length s ≤ n → String.length s ≤ m →
    to_uppercase_fuel n s = to_uppercase_fuel m s) as Heq; [|by intros; apply Heq].
  induction n as [|n IH]; intros m s Hn Hm.
  { destruct s; [|simpl in Hn; lia]. by destruct m. }
  destruct m as [|m]; [destruct s; [done|simpl in Hm; lia]|].
  cbn [to_uppercase_fuel]. destruct (head _) as [[u rest]|] eqn:Hhead.
  - f_equal. assert (S (String.length rest) ≤ String.length s); [|apply IH; lia].
    apply head_Some_elem_of, list_elem_of_omap in Hhead as ([c u'] & Hin & Hc).
    apply fmap_Some in Hc as (rest' & ->%strip_prefix_Some & [= -> ->]). rewrite str_length_app.
    assert (String.length c ≠ 0); [|lia].
    assert (Forall (λ cu, String.length cu.1 ≠ 0) special_upper) as Hall by (vm_compute; repeat constructor; done).
    by apply (proj1 (Forall_forall _ _) Hall (c, u')).
  - destruct s as [|a s]; [done|]. simpl in Hn, Hm. f_equal. apply IH; lia.
Qed.

Lemma map_of_entries_lookup l k : field_get (map_of_entries l) k = field_get (reverse l) k.
Proof.
  rewrite /map_of_entries. induction l as [|[k' v] l IH] using rev_ind; [done|].
  rewrite foldl_app reverse_snoc /= field_get_insert IH. done.
Qed.

(** A key of an entry is a field of the structure, or data. *)
Definition is_field (k : string) : bool := bool_decide (k = "level") || bool_decide (k = "message").

(** What was read of the entries so far. *)
Definition read_so_far (entries : list (string * Value)) (p : PartialEntry) : Prop :=
  match pe_level p with
  | Some l => ∃ s, field_get entries "level" = Some (JString s) ∧ level_from_str s = Ok l
  | None => field_get entries "level" = None
  end ∧
  match pe_message p with
  | Some m => field_get entries "message" = Some (match m with Some s => JString s | None => JNull end)
  | None => field_get entries "message" = None
  end ∧
  pe_rest p = List.filter (λ kv, negb (is_field kv.1)) entries.

Lemma visit_entries entries p :
  try_fold visit_entry {| pe_level := None; pe_message := None; pe_rest := [] |} entries = Ok p →
  read_so_far entries p.
Proof.
  revert p. induction entries as [|[k v] entries IH] using rev_ind; intros p; [by intros [= <-]|].
  rewrite try_fold_app. intros (p0 & Hp0%IH & Hv)%res_bind_Ok. cbn [try_fold] in Hv.
  apply res_bind_Ok in Hv as (p1 & Hv & [= ->]). clear IH. destruct Hp0 as (Hl & Hm & Hr).
  rewrite /visit_entry in Hv. rewrite /read_so_far List.filter_app !field_get_snoc -Hr.
  cbn [List.filter fst]. rewrite /is_field.
  destruct (decide (k = "level")) as [->|Hkl]; [|destruct (decide (k = "message")) as [->|Hkm]].
  - destruct (pe_level p0); [done|]. apply res_bind_Ok in Hv as (l & Hl' & [= <-]). simpl.
    rewrite Hl app_nil_r. split_and!; [|by destruct (pe_message p0); rewrite Hm|done].
    destruct v; try done. by eexists.
  - destruct (pe_message p0); [done|]. apply res_bind_Ok in Hv as (m & Hm' & [= <-]). simpl.
    rewrite Hm app_nil_r. split_and!; [|by destruct v; try done; injection Hm' as <-|done].
    destruct (pe_level p0); [destruct Hl as (s & -> & ?); eauto|by rewrite Hl].
  - injection Hv as <-. cbn [pe_level pe_message pe_rest].
    rewrite bool_decide_eq_false_2 // bool_decide_eq_false_2 //=. split_and!; [| |done].
    + destruct (pe_level p0); [destruct Hl as (s & -> & ?); eauto|by rewrite Hl].
    + destruct (pe_message p0); by rewrite Hm.
Qed.

Lemma field_get_filter_data entries k :
  field_get (reverse (List.filter (λ kv : string * Value, negb (is_field kv.1)) entries)) k =
  if is_field k then None else field_get (reverse entries) k.
Proof.
  induction entries as [|[k' v] entries IH]; [by case_match|]. cbn [List.filter fst].
  rewrite reverse_cons field_get_snoc. destruct (is_field k') eqn:Hk'; simpl.
  - rewrite IH. destruct (is_field k) eqn:Hk; [done|].
    destruct (field_get (reverse entries) k); [done|]. rewrite decide_False //. congruence.
  - rewrite reverse_cons field_get_snoc IH. destruct (is_field k) eqn:Hk; [|done].
    rewrite decide_False //. congruence.
Qed.

Section events.
Context `{LJ : LogJson}.

(** What is logged for an entry of a waPC or WASI policy: its level is the one that it
    names, in any case, its message is empty when there is none, and the data has every
    other key of the entry, with its last value. *)
Theorem log_entry_exact contents event
    (Hlog : log contents = Some (Ok event)) :
  ∃ entries name level data,
    json_entries contents = Ok entries ∧
    field_get entries "level" = Some (JString name) ∧ level_from_str name = Ok level ∧
    event = {| ev_target := POLICY_LOG; ev_level := tracing_level level;
      ev_fields := [("data", text_of_value (JObject data))];
      ev_message := match field_get entries "message" with Some (JString s) => s | _ => "" end |} ∧
    ∀ k, field_get data k = if is_field k then None else field_get (reverse entries) k.
Proof.
  rewrite /log in Hlog. destruct (_ : result PolicyLogEntry string) as [entry|] eqn:He; [|done].
  apply res_bind_Ok in He as (entries & Hent & He). apply res_bind_Ok in He as (p & Hp%visit_entries & He).
  apply res_bind_Ok in He as (level & Hlevel%ok_or_Ok & [= <-]). injection Hlog as <-.
  destruct Hp as (Hl & Hm & Hr). rewrite Hlevel in Hl. destruct Hl as (name & Hname & Hlv).
  exists entries, name, level, (map_of_entries (pe_rest p)). split_and!; try done.
  - f_equal. simpl. destruct (pe_message p) as [[s|]|]; by rewrite Hm.
  - intros k. by rewrite map_of_entries_lookup Hr field_get_filter_data.
Qed.

(** A policy cannot make its host panic, nor flood it, with a log entry: whatever the payload,
    the call gets its empty answer and gives one event, the one of the entry or a report. *)
Theorem guest_log_one_event `{ST : SdkTypes, CC : !CallbackCodec} payload ctx :
  host_callback "kubewarden" "tracing" "log" payload ctx = ([], Ok "") ∧
  ∃ event, log_callback (as_bytes payload) = Some [event] ∧
    (log (as_bytes payload) = Some (Ok event) ∨ ev_level event = ERROR ∧ ev_message event = "Cannot log event").
Proof.
  split; [done|]. rewrite /log_callback. unfold log at 1 2.
  destruct (_ : result PolicyLogEntry string) as [entry|e] eqn:He; [|by eexists; split; [|right]].
  apply res_bind_Ok in He as (entries & _ & He). apply res_bind_Ok in He as (p & _ & He).
  apply res_bind_Ok in He as (level & _ & [= <-]). eexists. split; [done|]. by left.
Qed.

Lemma emit_lookup l m k :
  field_get (foldl emit m l) k =
  match field_get (reverse l) k with Some e => Some (emit_value e) | None => field_get m k end.
Proof.
  induction l as [|[k' e] l IH] using rev_ind; [done|]. rewrite foldl_app reverse_snoc /= field_get_insert IH.
  cbn [fst snd]. by destruct (decide (k' = k)).
Qed.

(** What is logged for a record of a CEL policy: one event with the identifier of the policy,
    whose data has every key of the record and of the logger, the value of the logger when both have one; text
    that is the JSON of a value is logged as that value. *)
Theorem cel_log_exact policy_id record values :
  ∃ data, drain_log policy_id record values =
    {| ev_target := POLICY_LOG; ev_level := slog_tracing_level (sr_level record);
       ev_fields := [("policy_id", policy_id); ("data", text_of_value (JObject data))];
       ev_message := sr_msg record |} ∧
    (∀ k, field_get data k = emit_value <$>
       match field_get (reverse values) k with
       | Some e => Some e | None => field_get (reverse (sr_kv record)) k
       end) ∧
    ∀ v, value_of_text (text_of_value v) = Ok v → emit_value (EmitStr (text_of_value v)) = v.
Proof.
  eexists. split; [done|]. split.
  - intros k. rewrite !emit_lookup /=.
    destruct (field_get (reverse values) k); [done|]. by destruct (field_get (reverse (sr_kv record)) k).
  - intros v Hv. by rewrite /= /reparse Hv.
Qed.
End events.

(** ** Examples *)

#[local] Instance example_log_json : LogJson := {|
  json_entries b := if decide (b = []) then Err "EOF while parsing a value" else
    Ok [("pod", JString "nginx"); ("level", JString (of_bytes b)); ("message", JString "denied")];
  value_of_text s := if decide (s = "42") then Ok (JNumber "42") else Err "expected value";
  text_of_value v := match v with JObject [(k, JString s)] => k +:+ "=" +:+ s | JObject [(k, JNumber n)] => k +:+ ":" +:+ n | _ => "" end;
  F64 := unit; finite_digits _ := None;
|}.

(** The level is that of any spelling, the dotless i included. *)
Example levels_by_name :
  level_from_str "Warning" = Ok LogWarning ∧
  level_from_str (String (Ascii.ascii_of_N 196) (String (Ascii.ascii_of_N 177) "nfo")) = Ok LogInfo ∧
  level_from_str "warn" = Err "unknown log level warn".
Proof. vm_compute. repeat split; reflexivity. Qed.

Lemma log_entry_exact_witness :
  ∃ event, log (as_bytes "warning") = Some (Ok event) ∧ ev_level event = WARN ∧ ev_message event = "denied".
Proof.
  assert (∃ event, log (as_bytes "warning") = Some (Ok event)) as [event Hlog] by (eexists; vm_compute; reflexivity).
  exists event. split; [exact Hlog|].
  destruct (log_entry_exact (as_bytes "warning") event Hlog) as (entries & name & level & data & He & Hl & Hlv & -> & _).
  injection He as <-. injection Hl as <-. vm_compute in Hlv. injection Hlv as <-. split; reflexivity.
Defined.

(** A string that happens to be the JSON of a number is logged as a number, and the fields of
    the two kinds of events differ. *)
Example number_text_reparsed :
  drain_log "ns-policy" {| sr_level := SlogInfo; sr_msg := "m"; sr_kv := [("extra", EmitStr "42")] |} [] =
    {| ev_target := POLICY_LOG; ev_level := INFO;
       ev_fields := [("policy_id", "ns-policy"); ("data", "extra:42")]; ev_message := "m" |} ∧
  log (as_bytes "info") = Some (Ok
    {| ev_target := POLICY_LOG; ev_level := INFO; ev_fields := [("data", "pod=nginx")];
       ev_message := "denied" |}).
Proof. vm_compute. split; reflexivity. Qed.
