(* ===== verification/HostWorld.v ===== *)
(** * The world a policy runs in

    What the runtimes of [crates/policy-evaluator/src/runtimes/] share while they
    run a policy: the Wasm engine with its guests, the requests that were put on
    the callback channels, and the process-wide cache of Gatekeeper inventories
    ([runtimes/rego/gatekeeper_inventory_cache.rs]). The logic [emits] bounds what
    a computation puts on the channels. *)

From S2P Require Import Prelude RustStr Bytes HostCapabilities Callback.

(** [CachedInventory] *)
Record CachedInventory := { ci_data : string; ci_cache_time : Instant }.

(** [W] is the state of the Wasm engine: the stores of the guests and the
    epoch counter. [channel_log] grows with each request sent, oldest first. *)
Record HostWorld `{SdkTypes} (W : Type) := {
  engine : W;
  channel_log : list CallbackRequestType;
  inventories : gmap (gset ContextAwareResource) CachedInventory;
}.
Arguments engine {_ W} _.
Arguments channel_log {_ W} _.
Arguments inventories {_ W} _.

Section world.
Context `{SdkTypes} {W : Type}.
Implicit Types (w : HostWorld W) (P : CallbackRequestType → Prop).

(** A step of the engine. *)
Definition in_engine {A} (f : W → A * W) : M (HostWorld W) A :=
  λ w, let '(a, e) := f (engine w) in
    Some (a, {| engine := e; channel_log := channel_log w; inventories := inventories w |}).

(** Requests were sent. *)
Definition sent (reqs : list CallbackRequestType) : M (HostWorld W) unit :=
  λ w, Some (tt, {| engine := engine w; channel_log := channel_log w ++ reqs;
                    inventories := inventories w |}).

(** A call that sends requests and yields a result ([Outcome]). *)
Definition perform {A} (o : list CallbackRequestType * A) : M (HostWorld W) A :=
  let! _ := sent o.1 in m_ret o.2.

Definition get_cache : M (HostWorld W) (gmap (gset ContextAwareResource) CachedInventory) :=
  λ w, Some (inventories w, w).

Definition put_cache (K : gset ContextAwareResource) (ci : CachedInventory) :
    M (HostWorld W) unit :=
  λ w, Some (tt, {| engine := engine w; channel_log := channel_log w;
                    inventories := <[K := ci]> (inventories w) |}).

Definition panic {A} : M (HostWorld W) A := λ _, None.

(** ** [emits]: the requests a computation sends satisfy [P], in whichever
    world it is run; it neither forgets nor reorders earlier ones. *)
Definition emits {A} P (c : M (HostWorld W) A) : Prop :=
  ∀ w a w', c w = Some (a, w') →
    ∃ reqs, channel_log w' = channel_log w ++ reqs ∧ Forall P reqs.

Lemma emits_weaken {A} P Q (c : M (HostWorld W) A) :
  (∀ r, P r → Q r) → emits P c → emits Q c.
Proof.
  intros HPQ Hc w a w' Hw. destruct (Hc w a w' Hw) as (reqs & -> & HP).
  exists reqs. split; [done|]. eauto using Forall_impl.
Qed.

Lemma emits_silent {A} P (c : M (HostWorld W) A) :
  (∀ w a w', c w = Some (a, w') → channel_log w' = channel_log w) → emits P c.
Proof. intros Hc w a w' ->%Hc. exists []. by rw app_nil_r. Qed.

Lemma emits_ret {A} P (a : A) : emits P (m_ret a).
Proof. apply emits_silent. by intros w a' w' [= _ <-]. Qed.

Lemma emits_panic {A} P : emits P (panic (A := A)).
Proof. by intros w a w'. Qed.

Lemma emits_in_engine {A} P (f : W → A * W) : emits P (in_engine f).
Proof. apply emits_silent. intros w a w'. rw /in_engine. by destruct (f _) as [? ?]; intros [= _ <-]. Qed.

Lemma emits_get_cache P : emits P get_cache.
Proof. apply emits_silent. by intros w a w' [= _ <-]. Qed.

Lemma emits_put_cache P K ci : emits P (put_cache K ci).
Proof. apply emits_silent. by intros w a w' [= _ <-]. Qed.

Lemma emits_bind {A B} P (c : M (HostWorld W) A) (k : A → M (HostWorld W) B) :
  emits P c → (∀ a, emits P (k a)) → emits P (m_bind c k).
Proof.
  intros Hc Hk w b w' (a & w1 & Ha & Hb)%m_bind_Some.
  destruct (Hc _ _ _ Ha) as (r1 & E1 & H1). destruct (Hk _ _ _ _ Hb) as (r2 & E2 & H2).
  exists (r1 ++ r2). rw E2 E1 app_assoc. split; [done|]. by apply Forall_app_2.
Qed.

Lemma emits_mr_bind {A B E} P (c : M (HostWorld W) (result A E))
    (k : A → M (HostWorld W) (result B E)) :
  emits P c → (∀ a, emits P (k a)) → emits P (mr_bind c k).
Proof. intros Hc Hk. apply emits_bind; [done|]. intros [a|e]; [apply Hk|apply emits_ret]. Qed.

Lemma emits_sent P reqs : Forall P reqs → emits P (sent reqs).
Proof. intros Hr w a w' [= _ <-]. by exists reqs. Qed.

Lemma emits_perform {A} P (o : list CallbackRequestType * A) :
  Forall P o.1 → emits P (perform o).
Proof. intros Ho. apply emits_bind; [by apply emits_sent|]. intros _. apply emits_ret. Qed.

Lemma emits_mr_fold {A S E} P (f : S → A → M (HostWorld W) (result S E)) s l :
  (∀ s a, a ∈ l → emits P (f s a)) → emits P (mr_fold f s l).
Proof.
  revert s. induction l as [|a l IH]; intros s Hf; [apply emits_ret|].
  apply emits_mr_bind; [by apply Hf; left|]. intros s'. apply IH. intros. apply Hf. by right.
Qed.

(** ** [keeps]: an invariant of the inventory cache *)
Definition keeps {A} (I : gmap (gset ContextAwareResource) CachedInventory → Prop)
    (c : M (HostWorld W) A) : Prop :=
  ∀ w a w', I (inventories w) → c w = Some (a, w') → I (inventories w').

Lemma keeps_untouched {A} I (c : M (HostWorld W) A) :
  (∀ w a w', c w = Some (a, w') → inventories w' = inventories w) → keeps I c.
Proof. by intros Hc w a w' HI ->%Hc. Qed.

Lemma keeps_ret {A} I (a : A) : keeps I (m_ret a).
Proof. apply keeps_untouched. by intros w a' w' [= _ <-]. Qed.

Lemma keeps_panic {A} I : keeps I (panic (A := A)).
Proof. by intros w a w'. Qed.

Lemma keeps_in_engine {A} I (f : W → A * W) : keeps I (in_engine f).
Proof. apply keeps_untouched. intros w a w'. rw /in_engine. by destruct (f _) as [? ?]; intros [= _ <-]. Qed.

Lemma keeps_get_cache I : keeps I get_cache.
Proof. apply keeps_untouched. by intros w a w' [= _ <-]. Qed.

Lemma keeps_bind {A B} I (c : M (HostWorld W) A) (k : A → M (HostWorld W) B) :
  keeps I c → (∀ a, keeps I (k a)) → keeps I (m_bind c k).
Proof. intros Hc Hk w b w' HI (a & w1 & Ha & Hb)%m_bind_Some. by eapply (Hk a w1); [eapply (Hc w)|]. Qed.

Lemma keeps_mr_bind {A B E} I (c : M (HostWorld W) (result A E))
    (k : A → M (HostWorld W) (result B E)) :
  keeps I c → (∀ a, keeps I (k a)) → keeps I (mr_bind c k).
Proof. intros Hc Hk. apply keeps_bind; [done|]. intros [a|e]; [apply Hk|apply keeps_ret]. Qed.

Lemma keeps_perform {A} I (o : list CallbackRequestType * A) : keeps I (perform o).
Proof. apply keeps_untouched. by intros w a w' [= _ <-]. Qed.

Lemma keeps_sent I reqs : keeps I (sent reqs).
Proof. apply keeps_untouched. by intros w a w' [= _ <-]. Qed.

Lemma keeps_mr_fold {A S E} I (f : S → A → M (HostWorld W) (result S E)) s l :
  (∀ s a, a ∈ l → keeps I (f s a)) → keeps I (mr_fold f s l).
Proof.
  revert s. induction l as [|a l IH]; intros s Hf; [apply keeps_ret|].
  apply keeps_mr_bind; [by apply Hf; left|]. intros s'. apply IH. intros. apply Hf. by right.
Qed.

(** ** [quiet]: nothing is sent and the cache is left alone *)
Definition quiet {A} (c : M (HostWorld W) A) : Prop :=
  ∀ w a w', c w = Some (a, w') →
    channel_log w' = channel_log w ∧ inventories w' = inventories w.

Lemma quiet_emits {A} P (c : M (HostWorld W) A) : quiet c → emits P c.
Proof. intros Hc. apply emits_silent. by intros w a w' [? _]%Hc. Qed.

Lemma quiet_keeps {A} I (c : M (HostWorld W) A) : quiet c → keeps I c.
Proof. intros Hc. apply keeps_untouched. by intros w a w' [_ ?]%Hc. Qed.

Lemma quiet_ret {A} (a : A) : quiet (m_ret a).
Proof. by intros w a' w' [= _ <-]. Qed.

Lemma quiet_panic {A} : quiet (panic (A := A)).
Proof. by intros w a w'. Qed.

Lemma quiet_in_engine {A} (f : W → A * W) : quiet (in_engine f).
Proof. intros w a w'. rw /in_engine. by destruct (f _) as [? ?]; intros [= _ <-]. Qed.

Lemma quiet_bind {A B} (c : M (HostWorld W) A) (k : A → M (HostWorld W) B) :
  quiet c → (∀ a, quiet (k a)) → quiet (m_bind c k).
Proof.
  intros Hc Hk w b w' (a & w1 & [<- <-]%Hc & Hb)%m_bind_Some. by apply (Hk _ _ _ _ Hb).
Qed.

Lemma quiet_mr_bind {A B E} (c : M (HostWorld W) (result A E))
    (k : A → M (HostWorld W) (result B E)) :
  quiet c → (∀ a, quiet (k a)) → quiet (mr_bind c k).
Proof. intros Hc Hk. apply quiet_bind; [done|]. intros [a|e]; [apply Hk|apply quiet_ret]. Qed.

Lemma quiet_mr_fold {A S E} (f : S → A → M (HostWorld W) (result S E)) s l :
  (∀ s a, quiet (f s a)) → quiet (mr_fold f s l).
Proof.
  intros Hf. revert s. induction l as [|a l IH]; intros s; [apply quiet_ret|].
  apply quiet_mr_bind; [apply Hf|apply IH].
Qed.

(** ** The operations of the host never panic *)
Lemma total_in_engine {A} (f : W → A * W) : panic_free (in_engine f).
Proof. intros w. rw /in_engine. destruct (f _). by eexists. Qed.

Lemma total_sent reqs : panic_free (sent reqs).
Proof. by intros w; eexists. Qed.

Lemma total_get_cache : panic_free get_cache.
Proof. by intros w; eexists. Qed.

Lemma total_put_cache K ci : panic_free (put_cache K ci).
Proof. by intros w; eexists. Qed.

Lemma total_perform {A} (o : list CallbackRequestType * A) : panic_free (perform o).
Proof. by intros w; eexists. Qed.

(** A request some operation of the context grants. *)
Definition mediated (ctx : EvaluationContext) (req : CallbackRequestType) : Prop :=
  ∃ namespace operation, granted ctx namespace operation req.
End world.

(** Structural steps of the logics. *)
Create HintDb host discriminated.
#[export] Hint Resolve emits_ret emits_panic emits_in_engine emits_get_cache emits_put_cache : host.
#[export] Hint Resolve keeps_ret keeps_panic keeps_in_engine keeps_get_cache keeps_perform : host.
#[export] Hint Resolve quiet_ret quiet_panic quiet_in_engine quiet_emits quiet_keeps : host.
#[export] Hint Resolve keeps_sent total_ret total_in_engine total_sent total_get_cache
  total_put_cache total_perform : host.

Ltac host_step :=
  first
    [ progress intros
    | solve [eauto with host]
    | simple apply emits_mr_bind | simple apply emits_bind | simple apply emits_mr_fold
    | simple apply keeps_mr_bind | simple apply keeps_bind | simple apply keeps_mr_fold
    | simple apply quiet_mr_bind | simple apply quiet_bind | simple apply quiet_mr_fold
    | simple apply total_mr_bind | simple apply total_bind | simple apply total_mr_fold
    | match goal with
      | |- emits _ (match ?x with _ => _ end) => destruct x
      | |- keeps _ (match ?x with _ => _ end) => destruct x
      | |- quiet (match ?x with _ => _ end) => destruct x
      | |- panic_free (match ?x with _ => _ end) => destruct x
      end ].

Ltac host_steps := repeat host_step.
