(* ===== verification/FieldMask.v ===== *)
(** * Field masks

    Models [crates/policy-evaluator/src/callback_handler/kubernetes/field_mask.rs]:
    the tree of dot-separated paths a policy asks for, and the pruning of a
    Kubernetes object down to them. The reference is [mask_allows], which reads
    the list of paths and mentions no tree. *)

From S2P Require Import Prelude RustStr Json.

(** ** The tree *)

Inductive FieldMaskNode :=
| FieldMask (children : list (string * FieldMaskNode)).

Definition mask_children (n : FieldMaskNode) : list (string * FieldMaskNode) :=
  match n with FieldMask children => children end.

Definition FieldMaskNode_default : FieldMaskNode := FieldMask [].

(** [children.entry(part).or_default()] followed down the parts of a path. *)
Fixpoint insert_parts (parts : list string) (n : FieldMaskNode) : FieldMaskNode :=
  match parts with
  | [] => n
  | part :: parts =>
      let child := unwrap_or FieldMaskNode_default (field_get (mask_children n) part) in
      FieldMask (field_insert part (insert_parts parts child) (mask_children n))
  end.

Definition FieldMaskNode_insert (n : FieldMaskNode) (path : string) : FieldMaskNode :=
  insert_parts (split path "."%char) n.

Definition FieldMaskNode_new (paths : list string) : FieldMaskNode :=
  fold_left FieldMaskNode_insert paths FieldMaskNode_default.

(** [prune_in_place]: an empty node keeps everything below it, an array is
    transparent, an object keeps the keys of the node. *)
Fixpoint prune_in_place (val : Value) (n : FieldMaskNode) {struct val} : Value :=
  match mask_children n with
  | [] => val
  | _ :: _ =>
      match val with
      | JObject fields =>
          JObject (omap (λ kv,
            match field_get (mask_children n) kv.1 with
            | Some child => Some (kv.1, prune_in_place kv.2 child)
            | None => None
            end) fields)
      | JArray arr => JArray (map (λ item, prune_in_place item n) arr)
      | _ => val
      end
  end.

(** ** Reference semantics *)

(** [reaches v q w]: following the field names [q] from [v], through arrays,
    leads to [w]. *)
Inductive reaches : Value → list string → Value → Prop :=
| reaches_here v : reaches v [] v
| reaches_array l v q w : v ∈ l → reaches v q w → reaches (JArray l) q w
| reaches_field fs k v q w :
    (k, v) ∈ fs → reaches v q w → reaches (JObject fs) (k :: q) w.

Definition scalar (v : Value) : Prop :=
  match v with JArray _ | JObject _ => False | _ => True end.

(** [q] is on the way to a requested path, or at or below a requested path that
    no other requested path refines. *)
Definition mask_allows (ps : list (list string)) (q : list string) : Prop :=
  ps = [] ∨ (∃ p, p ∈ ps ∧ q `prefix_of` p) ∨
  ∃ p, p ∈ ps ∧ p `prefix_of` q ∧ ∀ p', p' ∈ ps → p `prefix_of` p' → p' = p.

Definition mask_paths (paths : list string) : list (list string) :=
  map (λ path, split path "."%char) paths.

(** ** Trees as sets of paths *)

Fixpoint in_tree (n : FieldMaskNode) (q : list string) : Prop :=
  match q with
  | [] => True
  | k :: q =>
      match field_get (mask_children n) k with Some c => in_tree c q | None => False end
  end.

Fixpoint tree_allows (n : FieldMaskNode) (q : list string) : Prop :=
  match q with
  | [] => True
  | k :: q =>
      mask_children n = [] ∨
      match field_get (mask_children n) k with Some c => tree_allows c q | None => False end
  end.

Lemma in_tree_insert_parts p n q :
  in_tree (insert_parts p n) q ↔ in_tree n q ∨ q `prefix_of` p.
Proof.
  revert n q. induction p as [|k p IH]; intros n q; simpl.
  { split; [by left|]. intros [?|Hq]; [done|]. by apply prefix_nil_inv in Hq as ->. }
  destruct q as [|k' q]; simpl; [naive_solver apply prefix_nil|].
  rw field_get_insert. destruct (decide (k = k')) as [<-|Hne].
  - rw IH. destruct (field_get (mask_children n) k) as [c|] eqn:Hk; simpl.
    + split; intros [?|Hp]; auto using prefix_cons. right. by apply prefix_cons_inv_2 in Hp.
    + split; [|intros [[]|Hp]; right; by apply prefix_cons_inv_2 in Hp].
      intros [Hq|?]; right; [|by apply prefix_cons].
      destruct q; simpl in Hq; [apply prefix_cons, prefix_nil|done].
  - split; [by left|]. intros [?|Hp]; [done|]. by apply prefix_cons_inv_1 in Hp.
Qed.

Lemma in_tree_new paths q :
  in_tree (FieldMaskNode_new paths) q ↔
  q = [] ∨ ∃ p, p ∈ mask_paths paths ∧ q `prefix_of` p.
Proof.
  rw /FieldMaskNode_new.
  assert (∀ n, in_tree (fold_left FieldMaskNode_insert paths n) q ↔
    in_tree n q ∨ ∃ p, p ∈ mask_paths paths ∧ q `prefix_of` p) as ->.
  { induction paths as [|p paths IH]; intros n; simpl; [set_solver|].
    rw IH /FieldMaskNode_insert in_tree_insert_parts. set_solver. }
  destruct q; naive_solver.
Qed.

Lemma in_tree_no_children n : mask_children n = [] ↔ ∀ k, ¬ in_tree n [k].
Proof.
  destruct n as [[|[k c] cs]]; simpl; [naive_solver|]. split; [done|].
  intros Hk. exfalso. apply (Hk k). by rw decide_True.
Qed.

(** What a tree allows, in terms of the paths it contains. *)
Lemma tree_allows_in_tree n q :
  tree_allows n q ↔
  in_tree n q ∨ ∃ p, in_tree n p ∧ p `prefix_of` q ∧ ∀ k, ¬ in_tree n (p ++ [k]).
Proof.
  revert n. induction q as [|k q IH]; intros n; simpl; [naive_solver|]. split.
  - intros [Hn|Hk].
    { right. exists []. split_and!; [done|apply prefix_nil|by apply in_tree_no_children]. }
    destruct (field_get (mask_children n) k) as [c|] eqn:Hc; [|done].
    apply IH in Hk as [?|(p & ? & ? & Hp)]; [by left|]. right. exists (k :: p). simpl.
    rw Hc. auto using prefix_cons.
  - intros [Hk|([|k' p] & Hin & Hpre & Hp)].
    + right. destruct (field_get _ k); [apply IH; by left|done].
    + left. by apply in_tree_no_children.
    + simpl in Hin, Hp. pose proof (prefix_cons_inv_1 _ _ _ _ Hpre) as ->.
      apply prefix_cons_inv_2 in Hpre. right.
      destruct (field_get _ k); [apply IH; right; eauto|done].
Qed.

Lemma prefix_snoc_or_eq {A} (p p' : list A) :
  p `prefix_of` p' → p' = p ∨ ∃ k, p ++ [k] `prefix_of` p'.
Proof.
  intros [[|k r] ->]; [left; by rw app_nil_r|]. right. exists k, r. by rw -app_assoc.
Qed.

Lemma tree_allows_new paths q :
  tree_allows (FieldMaskNode_new paths) q ↔ mask_allows (mask_paths paths) q.
Proof.
  rw tree_allows_in_tree /mask_allows. setoid_rewrite in_tree_new.
  set (ps := mask_paths paths). split.
  - intros [[->|?]|(p & Hin & Hpre & Hmax)]; [| by right; left |].
    { destruct ps as [|p ps]; [by left|]. right. left. exists p.
      split; [apply list_elem_of_here|apply prefix_nil]. }
    destruct Hin as [->|(p' & Hp' & Hpp')].
    + left. subst ps. destruct paths as [|path paths]; [done|]. exfalso.
      destruct (split_cons path "."%char) as (h & t & Hht). apply (Hmax h). right.
      exists (h :: t). split; [rw /= Hht; apply list_elem_of_here|].
      apply prefix_cons, prefix_nil.
    + right. right. exists p. destruct (prefix_snoc_or_eq _ _ Hpp') as [->|[k ?]];
        [|exfalso; apply (Hmax k); eauto].
      split_and!; [done|done|]. intros p'' Hp'' [->|[k ?]]%prefix_snoc_or_eq; [done|].
      exfalso. apply (Hmax k). eauto.
  - intros [Hps|[?|(p & Hp & Hpq & Hmax)]]; [| by left; right |].
    + right. exists []. split_and!; [by left|apply prefix_nil|]. intros k [?|(p & Hp & _)]; [done|].
      rw Hps in Hp. by apply elem_of_nil in Hp.
    + right. exists p. split_and!; [right; by exists p|done|].
      intros k [Hk|(p' & Hp' & Hk)]; [by destruct p|].
      assert (p' = p) as -> by (apply Hmax; [done|]; etrans; [|exact Hk]; by exists [k]).
      apply prefix_length in Hk. rw length_app /= in Hk. lia.
Qed.

Lemma reaches_scalar_nonnil v q w :
  scalar v → reaches v q w → q = [] ∧ w = v.
Proof. intros Hv Hr. destruct Hr; naive_solver. Qed.

Lemma prune_empty v n : mask_children n = [] → prune_in_place v n = v.
Proof. by destruct v; simpl; intros ->. Qed.

Lemma prune_reaches_scalar v m q w :
  scalar v → reaches (prune_in_place v m) q w ↔ reaches v q w ∧ tree_allows m q.
Proof.
  intros Hv. assert (prune_in_place v m = v) as ->.
  { destruct v; try done; simpl; by destruct (mask_children m). }
  split; [|by intros []]. intros Hr. split; [done|].
  by apply reaches_scalar_nonnil in Hr as [-> _].
Qed.

(** The fields an object keeps under a non-empty node. *)
Definition prune_field (m : FieldMaskNode) (kv : string * Value) : option (string * Value) :=
  match field_get (mask_children m) kv.1 with
  | Some c => Some (kv.1, prune_in_place kv.2 c)
  | None => None
  end.

Lemma prune_object fs m :
  mask_children m ≠ [] →
  prune_in_place (JObject fs) m = JObject (omap (prune_field m) fs).
Proof. intros Hm. rw /prune_field /=. by destruct (mask_children m). Qed.

Lemma prune_array l m :
  prune_in_place (JArray l) m = JArray (map (λ item, prune_in_place item m) l).
Proof.
  destruct (decide (mask_children m = [])) as [Hm|Hm]; [|simpl; by destruct (mask_children m)].
  rw (prune_empty _ _ Hm). f_equal. rw -{1}(map_id l). apply map_ext. intros v.
  by rw (prune_empty _ _ Hm).
Qed.

Lemma elem_of_prune_fields m (fs : list (string * Value)) k v' :
  (k, v') ∈ omap (prune_field m) fs ↔
  ∃ v c, (k, v) ∈ fs ∧ field_get (mask_children m) k = Some c ∧ v' = prune_in_place v c.
Proof.
  rw list_elem_of_omap /prune_field. split.
  - intros ([k' v] & Hin & Hk). simpl in Hk.
    destruct (field_get (mask_children m) k') as [c|] eqn:Hc; simplify_eq. eauto.
  - intros (v & c & Hin & Hc & ->). exists (k, v). split; [done|]. by rw /= Hc.
Qed.

(** Pruning keeps the scalars the tree allows, and adds none. *)
Lemma prune_reaches v m q w :
  scalar w →
  reaches (prune_in_place v m) q w ↔ reaches v q w ∧ tree_allows m q.
Proof.
  intros Hw. revert m q. induction v as [|?|?|?|l IH|fs IH] using Value_ind'; intros m q.
  1-4: by apply prune_reaches_scalar.
  - rw Forall_forall in IH. rw prune_array. split.
    + intros Hr. inversion Hr as [|? v' ? ? Hin Hr'|]; simplify_eq; [done|].
      apply list_elem_of_fmap in Hin as (v & -> & Hin).
      apply IH in Hr' as [? ?]; [|done]. split; [by econstructor|done].
    + intros [Hr Hq]. inversion Hr as [|? v' ? ? Hin Hr'|]; simplify_eq; [done|].
      eapply reaches_array; [|by apply (IH v')].
      apply list_elem_of_fmap. by exists v'.
  - rw Forall_forall in IH. destruct (decide (mask_children m = [])) as [Hn|Hn].
    { rw (prune_empty _ _ Hn). split; [|by intros []]. destruct q; simpl; auto. }
    rw (prune_object _ _ Hn). split.
    + intros Hr. inversion Hr as [| |? k v' q' ? Hin Hr']; simplify_eq; try done.
      apply elem_of_prune_fields in Hin as (v & c & Hin & Hc & ->).
      apply (IH (k, v) Hin) in Hr' as [? ?]. split; [by econstructor|].
      simpl. right. by rw Hc.
    + intros [Hr Hq]. inversion Hr as [| |? k v' q' ? Hin Hr']; simplify_eq; try done.
      simpl in Hq. destruct Hq as [?|Hq]; [done|].
      destruct (field_get (mask_children m) k) as [c|] eqn:Hc; [|done].
      eapply reaches_field; [|by apply (IH (k, v') Hin)]. apply elem_of_prune_fields. eauto.
Qed.

(** C38. Pruning with the mask built from [paths] keeps exactly the scalars at
    the field paths the mask allows: a scalar is reachable in the pruned object
    if and only if it was reachable in the object and its path leads to a
    requested path, or lies at or below a requested path that no other requested
    path refines. An empty list of masks keeps everything. *)
Theorem field_mask_keeps_exactly paths v q w :
  scalar w →
  reaches (prune_in_place v (FieldMaskNode_new paths)) q w ↔
  reaches v q w ∧ mask_allows (mask_paths paths) q.
Proof. intros Hw. by rw prune_reaches // tree_allows_new. Qed.

(** Pruning is idempotent: objects that were pruned by a reflector and are
    pruned again with the same mask do not change. *)
Theorem prune_idempotent v m :
  prune_in_place (prune_in_place v m) m = prune_in_place v m.
Proof.
  revert m. induction v as [|?|?|?|l IH|fs IH] using Value_ind'; intros m.
  1-4: simpl; destruct (mask_children m) eqn:Hm; by rw /= Hm.
  - rw !prune_array map_map. f_equal. apply map_ext_Forall, (Forall_impl _ _ _ IH). auto.
  - destruct (decide (mask_children m = [])) as [Hm|Hm]; [by rw !(prune_empty _ _ Hm)|].
    rw !(prune_object _ _ Hm). f_equal.
    induction IH as [|[k v] fs Hv IH IHfs]; simpl; [done|].
    destruct (prune_field m (k, v)) as [[k' v']|] eqn:Hk; simpl; [|done].
    assert (prune_field m (k', v') = Some (k', v')) as Hk'; [|rw Hk'; f_equal; exact IHfs].
    rw /prune_field /= in Hk. rw /prune_field /=.
    destruct (field_get (mask_children m) k) as [c|] eqn:Hc; simplify_eq. by rw Hc Hv.
Qed.

Lemma field_mask_keeps_exactly_witness :
  reaches (prune_in_place
    (JObject [("user", JObject [("name", JString "Alice"); ("age", JNumber "30")])])
    (FieldMaskNode_new ["user.name"; "status"])) ["user"; "name"] (JString "Alice").
Proof.
  apply (field_mask_keeps_exactly ["user.name"; "status"]
    (JObject [("user", JObject [("name", JString "Alice"); ("age", JNumber "30")])])
    ["user"; "name"] (JString "Alice") I).
  split; [repeat econstructor|].
  right. left. exists ["user"; "name"]. split; [apply list_elem_of_here|done].
Defined.
