(* ===== verification/WasiPipes.v ===== *)
(** * The pipes of the WASI runtime

    Models [crates/policy-evaluator/src/runtimes/wasi_cli/wasi_pipe.rs] (the
    guest's stdin, refilled by host calls) and [bounded_output_pipe.rs] (its
    stdout and stderr). A pipe is shared by the host and the guest behind a
    mutex; the two never run at the same time, so an operation is a function
    from the buffer before to the buffer after. *)

From S2P Require Import Prelude RustStr Bytes.

(** [Mutex<T>]: a poisoned lock refuses every later access. *)
Record Mutex (A : Type) := { poisoned : bool; guarded : A }.
Arguments Build_Mutex {A}.
Arguments poisoned {A}.
Arguments guarded {A}.

Definition Mutex_new {A} (a : A) : Mutex A := {| poisoned := false; guarded := a |}.

Inductive StreamError :=
| Closed
| Trap (msg : string).

(** ** [usize] *)

Definition usize_max : Z := 2 ^ 64.

(** [a - b] on [usize], wrapping as release builds do. *)
Definition usize_sub (a b : Z) : Z := (a - b) `mod` usize_max.

Definition blen (b : bytes) : Z := Z.of_nat (length b).

(** ** stdin ([wasi_pipe.rs]) *)
Module WasiPipe.

Record t := { buffer : Mutex bytes }.

Inductive Error := PoisonedLock.

Definition Error_to_string (_ : Error) : string :=
  "cannot acquire lock on WasiPipe buffer: lock is poisoned".

Definition new (data : bytes) : t := {| buffer := Mutex_new data |}.

Definition lock (p : t) : result bytes Error :=
  if poisoned (buffer p) then Err PoisonedLock else Ok (guarded (buffer p)).

Definition set (p : t) (b : bytes) : t :=
  {| buffer := {| poisoned := poisoned (buffer p); guarded := b |} |}.

(** [send]: unread bytes are discarded before the new payload is appended. *)
Definition send (p : t) (data : bytes) : t * result unit Error :=
  match lock p with
  | Err e => (p, Err e)
  | Ok b =>
      let b := match b with [] => b | _ :: _ => [] end in
      (set p (b ++ data), Ok tt)
  end.

(** [read_bytes]: [None] is end of file. *)
Definition read_bytes (p : t) (size : nat) : t * result (option bytes) Error :=
  match lock p with
  | Err e => (p, Err e)
  | Ok [] => (p, Ok None)
  | Ok b =>
      let amt := Nat.min size (length b) in
      (set p (drop amt b), Ok (Some (take amt b)))
  end.

(** [InputStream::read]: an empty buffer is a transient end of file. *)
Definition read (p : t) (size : nat) : t * result bytes StreamError :=
  match read_bytes p size with
  | (p, Ok (Some data)) => (p, Ok data)
  | (p, Ok None) => (p, Err Closed)
  | (p, Err e) => (p, Err (Trap (Error_to_string e)))
  end.

(** [AsyncRead::poll_read]: always ready; zero bytes filled is end of file. *)
Definition poll_read (p : t) (remaining : nat) : t * result bytes Error :=
  match read_bytes p remaining with
  | (p, Ok None) => (p, Ok [])
  | (p, Ok (Some data)) => (p, Ok data)
  | (p, Err e) => (p, Err e)
  end.

(** A guest that reads with the given buffer sizes until end of file: the
    chunks it obtains. *)
Fixpoint read_all (p : t) (sizes : list nat) : t * list bytes :=
  match sizes with
  | [] => (p, [])
  | size :: sizes =>
      match read p size with
      | (p, Ok data) => let '(p, chunks) := read_all p sizes in (p, data :: chunks)
      | (p, Err _) => (p, [])
      end
  end.

Lemma send_unpoisoned p data :
  poisoned (buffer p) = false → send p data = (new data, Ok tt).
Proof.
  intros Hp. rw /send /lock Hp /set /new /Mutex_new Hp. by destruct (guarded (buffer p)).
Qed.

Lemma read_nonempty c d n :
  ∃ chunk rest, read (new (c :: d)) n = (new rest, Ok chunk) ∧ chunk ++ rest = c :: d ∧
    (0 < n → length rest ≤ length d).
Proof.
  exists (take (Nat.min n (length (c :: d))) (c :: d)),
    (drop (Nat.min n (length (c :: d))) (c :: d)).
  split_and!; [done|apply take_drop|]. intros Hn. rw length_drop /=. lia.
Qed.

Lemma read_all_drains d sizes :
  Forall (λ n, 0 < n) sizes → length d ≤ length sizes →
  ∃ chunks, read_all (new d) sizes = (new [], chunks) ∧ concat chunks = d.
Proof.
  revert d. induction sizes as [|n sizes IH]; intros d Hs Hd.
  { destruct d; [|simpl in Hd; lia]. by exists []. }
  apply Forall_cons in Hs as [Hn Hs]. destruct d as [|c d]; [by exists []|].
  destruct (read_nonempty c d n) as (chunk & rest & Hread & Heq & Hlen).
  destruct (IH rest) as (chunks & Hall & Hconcat); [done|simpl in Hd; specialize (Hlen Hn); lia|].
  exists (chunk :: chunks). cbn [read_all]. by rw Hread Hall /= Hconcat.
Qed.
End WasiPipe.

(** ** stdout and stderr ([bounded_output_pipe.rs])

    No operation panics while it holds the lock, so [lock().unwrap()] is the
    buffer itself. *)
Module BoundedOutputPipe.

Record t := { name : string; capacity : Z; buffer : bytes }.

Definition new (n : string) (cap : Z) : t :=
  {| name := n; capacity := cap; buffer := [] |}.

Definition contents (p : t) : bytes := buffer p.

Definition overflow_message (p : t) : string :=
  "policy exceeded the maximum allowed size of " +:+ pretty (capacity p) +:+
  " bytes for " +:+ name p.

Definition overflow_trap (p : t) : StreamError := Trap (overflow_message p).

Definition append (p : t) (b : bytes) : t :=
  {| name := name p; capacity := capacity p; buffer := buffer p ++ b |}.

(** [OutputStream::write] *)
Definition write (p : t) (b : bytes) : t * result unit StreamError :=
  if bool_decide (blen b > usize_sub (capacity p) (blen (buffer p)))%Z
  then (p, Err (overflow_trap p))
  else (append p b, Ok tt).

Definition flush (p : t) : result unit StreamError := Ok tt.

Definition check_write (p : t) : result Z StreamError :=
  let consumed := blen (buffer p) in
  if bool_decide (consumed < capacity p)%Z
  then Ok (usize_sub (capacity p) consumed)
  else Err (overflow_trap p).

(** [AsyncWrite::poll_write]: the same bound, reported as an I/O error. *)
Definition poll_write (p : t) (b : bytes) : t * result Z string :=
  if bool_decide (blen b > usize_sub (capacity p) (blen (buffer p)))%Z
  then (p, Err (overflow_message p))
  else (append p b, Ok (blen b)).

(** The buffer fits the capacity, which is a [usize]. *)
Definition wf (p : t) : Prop :=
  (0 ≤ blen (buffer p) ≤ capacity p)%Z ∧ (capacity p < usize_max)%Z.

Lemma wf_new n cap : (0 ≤ cap < usize_max)%Z → wf (new n cap).
Proof. rw /wf /blen /=. lia. Qed.

Lemma usize_sub_fits p :
  wf p → usize_sub (capacity p) (blen (buffer p)) = (capacity p - blen (buffer p))%Z.
Proof. rw /wf /usize_sub. intros. apply Z.mod_small. lia. Qed.

Lemma blen_app a b : blen (a ++ b) = (blen a + blen b)%Z.
Proof. rw /blen length_app. lia. Qed.

Lemma write_cases p b :
  wf p →
  (blen (buffer p) + blen b ≤ capacity p ∧ write p b = (append p b, Ok tt))%Z ∨
  (capacity p < blen (buffer p) + blen b ∧ write p b = (p, Err (overflow_trap p)))%Z.
Proof.
  intros Hp. rw /write usize_sub_fits //.
  destruct (decide (blen b > capacity p - blen (buffer p))%Z) as [Hgt|Hle].
  - right. rw bool_decide_eq_true_2 //. split; [lia|done].
  - left. rw bool_decide_eq_false_2 //. split; [lia|done].
Qed.

Lemma write_wf p b : wf p → wf (write p b).1.
Proof.
  intros Hp. destruct (write_cases p b Hp) as [[? ->]|[? ->]]; [|done].
  unfold wf, blen in *. simpl. rw length_app. lia.
Qed.
End BoundedOutputPipe.

(** ** Properties *)

(** The host-call protocol on stdin: whatever an ill-behaved guest left
    unread, after the host sends a payload a guest that reads with non-empty
    buffers obtains exactly that payload, in order and with nothing lost or
    mixed in, then end of file; and the end of file is transient, the next
    payload is delivered the same way. *)
Theorem wasi_pipe_delivers_payload p data sizes :
  poisoned (WasiPipe.buffer p) = false →
  Forall (λ n, 0 < n) sizes → length data ≤ length sizes →
  ∃ chunks p',
    WasiPipe.read_all (WasiPipe.send p data).1 sizes = (p', chunks) ∧
    concat chunks = data ∧
    (∀ n, WasiPipe.read p' n = (p', Err Closed)) ∧
    poisoned (WasiPipe.buffer p') = false.
Proof.
  intros Hp Hs Hl. rw (WasiPipe.send_unpoisoned _ _ Hp) /=.
  destruct (WasiPipe.read_all_drains data sizes Hs Hl) as (chunks & Hr & Hc).
  exists chunks, (WasiPipe.new []). by rw Hr.
Qed.

Lemma wasi_pipe_delivers_payload_witness :
  ∃ chunks p',
    WasiPipe.read_all (WasiPipe.send (WasiPipe.new (as_bytes "stale")) (as_bytes "{}")).1 [1; 4]
      = (p', chunks) ∧ concat chunks = as_bytes "{}" ∧
    (∀ n, WasiPipe.read p' n = (p', Err Closed)) ∧ poisoned (WasiPipe.buffer p') = false.
Proof.
  apply (wasi_pipe_delivers_payload (WasiPipe.new (as_bytes "stale")) (as_bytes "{}") [1; 4]);
    [reflexivity|repeat constructor|simpl; lia].
Defined.

(** A bounded pipe accepts a write exactly when it fits the remaining
    capacity, appends it whole, and otherwise traps and changes nothing; the
    subtraction that computes the remaining capacity never wraps around, and the
    amount [check_write] announces is exactly what the next [write] accepts. *)
Theorem bounded_pipe_write_spec p b :
  BoundedOutputPipe.wf p →
  BoundedOutputPipe.wf (BoundedOutputPipe.write p b).1 ∧
  (is_ok (BoundedOutputPipe.write p b).2 ↔
     (blen (BoundedOutputPipe.buffer p) + blen b ≤ BoundedOutputPipe.capacity p)%Z) ∧
  BoundedOutputPipe.buffer (BoundedOutputPipe.write p b).1 =
    (if is_ok (BoundedOutputPipe.write p b).2
     then BoundedOutputPipe.buffer p ++ b else BoundedOutputPipe.buffer p) ∧
  (∀ n, BoundedOutputPipe.check_write p = Ok n →
     is_ok (BoundedOutputPipe.write p b).2 ↔ (blen b ≤ n)%Z).
Proof.
  intros Hp. split; [by apply BoundedOutputPipe.write_wf|].
  destruct (BoundedOutputPipe.write_cases p b Hp) as [[Hle ->]|[Hgt ->]];
    (split; [split; simpl; intros; [lia || done|done || lia]|]);
    (split; [done|]); rw /BoundedOutputPipe.check_write /=;
    intros n; case_bool_decide; intros; simplify_eq;
    rw (BoundedOutputPipe.usize_sub_fits _ Hp); split; simpl; intros; (lia || done).
Qed.

Lemma bounded_pipe_write_spec_witness :
  (BoundedOutputPipe.write (BoundedOutputPipe.new "stdout" 4) (as_bytes "hello")).2
    = Err (Trap "policy exceeded the maximum allowed size of 4 bytes for stdout") ∧
  BoundedOutputPipe.wf
    (BoundedOutputPipe.write (BoundedOutputPipe.new "stdout" 4) (as_bytes "hello")).1.
Proof.
  split; [vm_compute; reflexivity|].
  apply (bounded_pipe_write_spec (BoundedOutputPipe.new "stdout" 4) (as_bytes "hello")).
  apply BoundedOutputPipe.wf_new. rw /usize_max. lia.
Defined.
