(* ===== verification/WasiStack.v ===== *)
(** * The WASI runtime

    Models [crates/policy-evaluator/src/runtimes/wasi_cli/stack.rs] (one run of a
    WASI program), [stack_pre.rs] (the [host.call] function offered to the
    guest and the store limits) and [runtime.rs] (validation of requests and
    settings).

    The guest is untrusted Wasm run by a third-party engine. One execution of it
    is the sequence of host functions it calls, with the arguments it chooses,
    and the way it ends ([Execution]); theorems hold for every execution. A
    panic of the host is the outcome [None]. *)

From S2P Require Import Prelude RustStr Bytes Json PolicyId HostCapabilities.
From S2P Require Import AdmissionResponse Request Callback WasiPipes.

(** ** Errors ([errors.rs]) *)

Inductive WasiRuntimeError :=
| WasiEvaluation (stderr error : string)
| WasmHostFuncDefinitionError (name error : string)
| WasmMissingStartFn (e : string)
| PipeConversion (name error : string)
| WasmLinkerError (e : string)
| WasmInstantiate (e : string)
| WasiMemExport
| WasiMemExportCannotConvert
| WasiMemOpToUtF8 (e : Utf8Error)
| WasiPipePoisonedLock.

Definition WasiRuntimeError_to_string (e : WasiRuntimeError) : string :=
  match e with
  | WasiEvaluation stderr _ => stderr
  | WasmHostFuncDefinitionError name error =>
      "cannot define host function '" +:+ name +:+ "': " +:+ error
  | WasmMissingStartFn e => "cannot find `_start` function inside of module: " +:+ e
  | PipeConversion name error => name +:+ " pipe conversion error: " +:+ error
  | WasmLinkerError e => "cannot instantiate module: " +:+ e
  | WasmInstantiate e => "cannot add to linker: " +:+ e
  | WasiMemExport => "cannot find 'mem' export"
  | WasiMemExportCannotConvert => "'mem' export cannot be converted into a Memory instance"
  | WasiMemOpToUtF8 e => "host_call: cannot convert bd to UTF8: " +:+ Utf8Error_to_string e
  | WasiPipePoisonedLock => WasiPipe.Error_to_string WasiPipe.PoisonedLock
  end.

(** ** Guest memory ([get_vec_from_memory]) *)

Definition i32_wrap (z : Z) : Z := ((z + 2 ^ 31) `mod` 2 ^ 32 - 2 ^ 31)%Z.
Definition i32_range (z : Z) : Prop := (- 2 ^ 31 ≤ z < 2 ^ 31)%Z.

(** [z as usize] of an [i32]: sign extension. *)
Definition i32_as_usize (z : Z) : Z := (z `mod` usize_max)%Z.

(** [&data[a..b]]: panics unless [a <= b <= data.len()]. *)
Definition slice (data : bytes) (a b : Z) : option bytes :=
  if bool_decide (a ≤ b ∧ b ≤ blen data)%Z
  then Some (take (Z.to_nat (b - a)) (drop (Z.to_nat a) data))
  else None.

Definition get_vec_from_memory (data : bytes) (ptr len : Z) : option bytes :=
  slice data (i32_as_usize ptr) (i32_as_usize (i32_wrap (ptr + len))).

(** ** [host.call] *)

Inductive MemoryExport :=
| NoExport
| NotAMemory
| GuestMemory (data : bytes).

Record HostCallArgs := {
  hc_memory : MemoryExport;
  hc_bd : Z * Z; hc_ns : Z * Z; hc_op : Z * Z; hc_payload : Z * Z;
}.

(** The host's side of a run. [ws_sent] records the payloads put on stdin,
    [ws_requests] the requests put on the callback channel. *)
Record WasiState `{SdkTypes} := {
  ws_stdin : WasiPipe.t;
  ws_stdout : BoundedOutputPipe.t;
  ws_stderr : BoundedOutputPipe.t;
  ws_sent : list bytes;
  ws_requests : list CallbackRequestType;
}.

Inductive WriteOp := WriteBytes (b : bytes) | CheckWrite | Flush.

Inductive GuestAction :=
| ReadStdin (size : nat)
| Stdout (op : WriteOp)
| Stderr (op : WriteOp)
| HostCall (args : HostCallArgs).

(** What the guest observes of one action: it goes on, or a trap ends it. *)
Inductive Step :=
| Continue
| Trapped (error : string).

Section wasi.
Context `{SdkTypes, !CallbackCodec}.
Implicit Types (ctx : EvaluationContext) (st : WasiState).

Definition set_stdin st (p : WasiPipe.t) : WasiState :=
  {| ws_stdin := p; ws_stdout := ws_stdout st; ws_stderr := ws_stderr st;
     ws_sent := ws_sent st; ws_requests := ws_requests st |}.
Definition set_stdout st (p : BoundedOutputPipe.t) : WasiState :=
  {| ws_stdin := ws_stdin st; ws_stdout := p; ws_stderr := ws_stderr st;
     ws_sent := ws_sent st; ws_requests := ws_requests st |}.
Definition set_stderr st (p : BoundedOutputPipe.t) : WasiState :=
  {| ws_stdin := ws_stdin st; ws_stdout := ws_stdout st; ws_stderr := p;
     ws_sent := ws_sent st; ws_requests := ws_requests st |}.
Definition add_exchange st (reqs : list CallbackRequestType) (p : WasiPipe.t)
    (sent : list bytes) : WasiState :=
  {| ws_stdin := p; ws_stdout := ws_stdout st; ws_stderr := ws_stderr st;
     ws_sent := sent ++ ws_sent st; ws_requests := reqs ++ ws_requests st |}.

Definition read_utf8 (data : bytes) (arg : Z * Z) : option (result string WasiRuntimeError) :=
  v ← get_vec_from_memory data arg.1 arg.2;
  Some (map_err WasiMemOpToUtF8 (from_utf8 v)).

(** [host_call_impl]: the memory is read in the order of the code, an invalid
    name is an error of the call, and the answer of the callback, or its error
    message, is sent to the guest's stdin. *)
Definition host_call ctx st (a : HostCallArgs) :
    option (WasiState * result Z WasiRuntimeError) :=
  match hc_memory a with
  | NoExport => Some (st, Err WasiMemExport)
  | NotAMemory => Some (st, Err WasiMemExportCannotConvert)
  | GuestMemory data =>
      vec ← get_vec_from_memory data (hc_payload a).1 (hc_payload a).2;
      bd ← read_utf8 data (hc_bd a);
      match bd with Err e => Some (st, Err e) | Ok bd =>
        ns ← read_utf8 data (hc_ns a);
        match ns with Err e => Some (st, Err e) | Ok ns =>
          op ← read_utf8 data (hc_op a);
          match op with Err e => Some (st, Err e) | Ok op =>
            let '(reqs, host_callback_response) := host_callback bd ns op (of_bytes vec) ctx in
            let func_return_value := match host_callback_response with Ok _ => 0%Z | Err _ => 1%Z end in
            let response_msg := match host_callback_response with
              | Ok r => as_bytes r | Err e => as_bytes e end in
            match WasiPipe.send (ws_stdin st) response_msg with
            | (p, Ok _) => Some (add_exchange st reqs p [response_msg], Ok func_return_value)
            | (p, Err _) => Some (add_exchange st reqs p [], Err WasiPipePoisonedLock)
            end
          end
        end
      end
  end.

Definition write_op (p : BoundedOutputPipe.t) (op : WriteOp) :
    BoundedOutputPipe.t * result unit StreamError :=
  match op with
  | WriteBytes b => BoundedOutputPipe.write p b
  | CheckWrite => (p, res_map (λ _, tt) (BoundedOutputPipe.check_write p))
  | Flush => (p, BoundedOutputPipe.flush p)
  end.

Definition stream_step {A} (r : result A StreamError) : Step :=
  match r with
  | Ok _ | Err Closed => Continue
  | Err (Trap msg) => Trapped msg
  end.

(** One host function called by the guest. *)
Definition guest_step ctx st (a : GuestAction) : option (WasiState * Step) :=
  match a with
  | ReadStdin size =>
      let '(p, r) := WasiPipe.read (ws_stdin st) size in Some (set_stdin st p, stream_step r)
  | Stdout op =>
      let '(p, r) := write_op (ws_stdout st) op in Some (set_stdout st p, stream_step r)
  | Stderr op =>
      let '(p, r) := write_op (ws_stderr st) op in Some (set_stderr st p, stream_step r)
  | HostCall args =>
      '(st, r) ← host_call ctx st args;
      Some (st, match r with
                | Ok _ => Continue
                | Err e => Trapped (WasiRuntimeError_to_string e)
                end)
  end.

Fixpoint guest_run ctx st (actions : list GuestAction) : option (WasiState * Step) :=
  match actions with
  | [] => Some (st, Continue)
  | a :: actions =>
      '(st, s) ← guest_step ctx st a;
      match s with
      | Continue => guest_run ctx st actions
      | Trapped e => Some (st, Trapped e)
      end
  end.

(** ** One run ([Stack::run_internal]) *)

Inductive GuestExit :=
| Returned
| I32Exit (code : Z)
| EngineTrap (error : string).

Record Execution := {
  ex_instantiate : result unit string;
  ex_start_fn : result unit string;
  ex_actions : list GuestAction;
  ex_exit : GuestExit;
}.

Definition EXIT_SUCCESS : Z := 0.
Definition MAX_STDOUT_BYTES : Z := 64 * 1024 * 1024.
Definition MAX_STDERR_BYTES : Z := 8 * 1024 * 1024.

Record RunResult := { rr_stdout : string; rr_stderr : string }.

Definition initial_state (input : bytes) : WasiState :=
  {| ws_stdin := WasiPipe.new input;
     ws_stdout := BoundedOutputPipe.new "stdout" MAX_STDOUT_BYTES;
     ws_stderr := BoundedOutputPipe.new "stderr" MAX_STDERR_BYTES;
     ws_sent := [input]; ws_requests := [] |}.

Definition pipe_to_string (p : BoundedOutputPipe.t) : result string WasiRuntimeError :=
  map_err (λ e, PipeConversion (BoundedOutputPipe.name p)
    ("Cannot convert buffer to UTF8 string: " +:+ Utf8Error_to_string e))
    (from_utf8 (BoundedOutputPipe.contents p)).

(** The result of calling [_start]. *)
Definition evaluation_result (s : Step) (exit : GuestExit) : GuestExit :=
  match s with Continue => exit | Trapped e => EngineTrap e end.

Definition exit_message (code : Z) : string := "Exited with i32 exit status " +:+ pretty code.

Definition finish_run (st : WasiState) (exit : GuestExit) : result RunResult WasiRuntimeError :=
  let? stderr := pipe_to_string (ws_stderr st) in
  let stderr := trim stderr in
  match exit with
  | I32Exit code =>
      if decide (code = EXIT_SUCCESS) then
        let? stdout := pipe_to_string (ws_stdout st) in
        Ok {| rr_stdout := stdout; rr_stderr := stderr |}
      else Err (WasiEvaluation stderr (exit_message code))
  | EngineTrap error => Err (WasiEvaluation stderr error)
  | Returned =>
      let? stdout := pipe_to_string (ws_stdout st) in
      Ok {| rr_stdout := stdout; rr_stderr := stderr |}
  end.

Definition run_internal ctx (input : bytes) (ex : Execution) :
    option (result RunResult WasiRuntimeError) :=
  match ex_instantiate ex with
  | Err e => Some (Err (WasmInstantiate e))
  | Ok _ =>
      match ex_start_fn ex with
      | Err e => Some (Err (WasmMissingStartFn e))
      | Ok _ =>
          '(st, s) ← guest_run ctx (initial_state input) (ex_actions ex);
          Some (finish_run st (evaluation_result s (ex_exit ex)))
      end
  end.

(** ** Validation ([runtime.rs]) *)

(** [serde_json] at the types the runtimes exchange with policies. *)
Class JsonCodec := {
  json_to_string : Value → result string string;
  decode_validation_response : string → result PolicyValidationResponse string;
  decode_settings_response : string → result SettingsValidationResponse string;
}.

Context `{!JsonCodec, !PatchLib}.

(** [run] is [Stack::run] of the policy at hand, in a world [Wd]. *)
Context {Wd : Type}.
Implicit Types (run : bytes → list string → M Wd (result RunResult WasiRuntimeError)).

(** The answer built from what the program printed. *)
Definition wasi_response (request : ValidateRequest) (r : result RunResult WasiRuntimeError) :
    AdmissionResponse :=
  match r with
  | Ok rr =>
      match decode_validation_response (rr_stdout rr) with
      | Ok pvr =>
          match from_policy_validation_response (request_uid request)
                  (request_object request) pvr with
          | Ok response => response
          | Err e => reject_internal_server_error (request_uid request)
              ("Cannot convert policy validation response: " +:+ ResponseError_to_string e)
          end
      | Err e => reject_internal_server_error (request_uid request)
          ("Cannot deserialize policy validation response: " +:+ e)
      end
  | Err e => reject (request_uid request) (WasiRuntimeError_to_string e) 500
  end.

Definition Wasi_validate run (settings : PolicySettings) (request : ValidateRequest) :
    M Wd AdmissionResponse :=
  match json_to_string (validate_params settings request) with
  | Err e => m_ret (reject_internal_server_error (request_uid request) e)
  | Ok input =>
      let! r := run (as_bytes input) ["policy.wasm"; "validate"] in
      m_ret (wasi_response request r)
  end.

Definition Wasi_validate_settings run (settings : string) : M Wd SettingsValidationResponse :=
  let! r := run (as_bytes settings) ["policy.wasm"; "validate-settings"] in
  m_ret match r with
  | Ok rr =>
      match decode_settings_response (rr_stdout rr) with
      | Ok response => response
      | Err e => {| sv_valid := false;
                    sv_message := Some ("Cannot deserialize settings validation response: " +:+ e) |}
      end
  | Err e => {| sv_valid := false; sv_message := Some (WasiRuntimeError_to_string e) |}
  end.
End wasi.

(** ** Properties *)

Lemma i32_as_usize_nonneg z : (0 ≤ z < 2 ^ 31)%Z → i32_as_usize z = z.
Proof. intros. rw /i32_as_usize /usize_max. apply Z.mod_small. lia. Qed.

Lemma i32_as_usize_neg z : (- 2 ^ 31 ≤ z < 0)%Z → i32_as_usize z = (2 ^ 64 + z)%Z.
Proof.
  intros. rw /i32_as_usize /usize_max. symmetry. apply (Z.mod_unique _ _ (-1)); lia.
Qed.

Lemma i32_wrap_small z : i32_range z → i32_wrap z = z.
Proof. rw /i32_range /i32_wrap. intros. rw Z.mod_small; lia. Qed.

(** Reading a guest buffer: for any pointer and length a guest can pass, the
    bytes are returned exactly when the range lies inside the linear memory and
    its end is representable as an [i32]; every other pair, negative or past the
    end, makes the slice panic on the host. *)
Theorem get_vec_from_memory_spec data ptr len :
  i32_range ptr → i32_range len → (blen data ≤ 2 ^ 32)%Z →
  get_vec_from_memory data ptr len =
  if bool_decide (0 ≤ ptr ∧ 0 ≤ len ∧ ptr + len ≤ blen data ∧ ptr + len < 2 ^ 31)%Z
  then Some (take (Z.to_nat len) (drop (Z.to_nat ptr) data))
  else None.
Proof.
  rw /i32_range. intros Hptr Hlen Hdata. rw /get_vec_from_memory /slice.
  destruct (decide (0 ≤ ptr)%Z) as [Hp|Hp]; last first.
  { rw (i32_as_usize_neg ptr); last lia.
    assert (i32_as_usize (i32_wrap (ptr + len)) < 2 ^ 64)%Z by
      (apply Z.mod_pos_bound; rw /usize_max; lia).
    rw !bool_decide_eq_false_2 //; try lia. }
  rw (i32_as_usize_nonneg ptr); last lia.
  destruct (decide (ptr + len < 2 ^ 31)%Z) as [Hsum|Hsum]; last first.
  { assert (i32_wrap (ptr + len) = ptr + len - 2 ^ 32)%Z as ->.
    { rw /i32_wrap. cut ((ptr + len + 2 ^ 31) `mod` 2 ^ 32 = ptr + len + 2 ^ 31 - 2 ^ 32)%Z; [lia|].
      symmetry. apply (Z.mod_unique _ _ 1); lia. }
    rw i32_as_usize_neg; last lia. rw !bool_decide_eq_false_2 //; try lia. }
  rw i32_wrap_small; last (rw /i32_range; lia).
  destruct (decide (0 ≤ ptr + len)%Z) as [Hs|Hs]; last first.
  { rw (i32_as_usize_neg (ptr + len)); last lia. rw !bool_decide_eq_false_2 //; try lia. }
  rw i32_as_usize_nonneg; last lia.
  destruct (decide (0 ≤ len ∧ ptr + len ≤ blen data)%Z) as [Hin|Hout].
  - rw !bool_decide_eq_true_2; [|lia..]. by replace (ptr + len - ptr)%Z with len by lia.
  - rw !bool_decide_eq_false_2 //; try lia.
Qed.

Lemma get_vec_from_memory_spec_witness :
  get_vec_from_memory (as_bytes "policy") 2 9 = None.
Proof.
  rw (get_vec_from_memory_spec (as_bytes "policy") 2 9);
    [reflexivity|rw /i32_range; lia..|rw /blen /=; lia].
Defined.

Section confinement.
Context `{SdkTypes, !CallbackCodec}.
Implicit Types (ctx : EvaluationContext) (st : WasiState).

(** What holds of the host's side of a run at every moment. *)
Record confined ctx st : Prop := {
  cf_stdout : BoundedOutputPipe.wf (ws_stdout st) ∧
    BoundedOutputPipe.capacity (ws_stdout st) = MAX_STDOUT_BYTES;
  cf_stderr : BoundedOutputPipe.wf (ws_stderr st) ∧
    BoundedOutputPipe.capacity (ws_stderr st) = MAX_STDERR_BYTES;
  cf_lock : poisoned (WasiPipe.buffer (ws_stdin st)) = false;
  cf_stdin : length (guarded (WasiPipe.buffer (ws_stdin st))) ≤ max_list_with length (ws_sent st);
  cf_requests : ∀ req, req ∈ ws_requests st → ∃ ns op, granted ctx ns op req;
}.

Lemma initial_confined ctx input : confined ctx (initial_state input).
Proof.
  split; [| |done|simpl; lia|set_solver]; (split; [|done]);
    apply BoundedOutputPipe.wf_new; rw /usize_max; vm_compute; by split.
Qed.

Lemma write_op_wf p op :
  BoundedOutputPipe.wf p → BoundedOutputPipe.wf (write_op p op).1 ∧
  BoundedOutputPipe.capacity (write_op p op).1 = BoundedOutputPipe.capacity p.
Proof.
  intros Hp. destruct op as [b| |]; [|done..]. split; [by apply BoundedOutputPipe.write_wf|].
  simpl. by destruct (BoundedOutputPipe.write_cases p b Hp) as [[_ ->]|[_ ->]].
Qed.

Lemma read_shrinks p n :
  poisoned (WasiPipe.buffer p) = false →
  poisoned (WasiPipe.buffer (WasiPipe.read p n).1) = false ∧
  length (guarded (WasiPipe.buffer (WasiPipe.read p n).1)) ≤ length (guarded (WasiPipe.buffer p)).
Proof.
  intros Hp. rw /WasiPipe.read /WasiPipe.read_bytes /WasiPipe.lock Hp.
  destruct (guarded (WasiPipe.buffer p)) as [|c b] eqn:Hb; simpl; [by rw Hb|].
  split; [done|]. rw length_drop /=. lia.
Qed.

(** Every outcome of a host call either leaves the state alone, or appends one
    exchange whose requests crossed the gate. *)
Lemma host_call_exchange ctx st a st' r :
  poisoned (WasiPipe.buffer (ws_stdin st)) = false →
  host_call ctx st a = Some (st', r) →
  st' = st ∨ ∃ reqs msg, st' = add_exchange st reqs (WasiPipe.new msg) [msg] ∧
    ∀ req, req ∈ reqs → ∃ ns op, granted ctx ns op req.
Proof.
  intros Hp. rw /host_call. destruct (hc_memory a) as [| |data]; [naive_solver..|].
  intros (vec & _ & (bd & _ & Hk)%bind_Some)%bind_Some. destruct bd as [bd|]; [|naive_solver].
  apply bind_Some in Hk as (ns & _ & Hk). destruct ns as [ns|]; [|naive_solver].
  apply bind_Some in Hk as (op & _ & Hk). destruct op as [op|]; [|naive_solver].
  destruct (host_callback bd ns op (of_bytes vec) ctx) as [reqs resp] eqn:Hcb.
  rw (WasiPipe.send_unpoisoned _ _ Hp) in Hk. simplify_eq/=. right. do 2 eexists.
  split; [done|]. intros req Hreq.
  assert (reqs = (host_callback bd ns op (of_bytes vec) ctx).1) as Hr by by rw Hcb.
  rw Hr in Hreq. apply host_callback_granted in Hreq. eauto.
Qed.

Lemma guest_step_confined ctx st a st' s :
  confined ctx st → guest_step ctx st a = Some (st', s) → confined ctx st'.
Proof.
  intros [[Ho Hoc] [He Hec] Hl Hi Hr]. destruct a as [n|op|op|args]; simpl.
  - destruct (WasiPipe.read (ws_stdin st) n) as [p r] eqn:Hread. intros; simplify_eq.
    destruct (read_shrinks (ws_stdin st) n Hl) as [Hl' Hi']. rw Hread /= in Hl', Hi'.
    split; simpl; auto; lia.
  - destruct (write_op (ws_stdout st) op) as [p r] eqn:Hw. intros; simplify_eq.
    destruct (write_op_wf (ws_stdout st) op Ho) as [Hp Hpc]. rw Hw /= in Hp, Hpc.
    split; simpl; auto. split; [done|]. by rw Hpc.
  - destruct (write_op (ws_stderr st) op) as [p r] eqn:Hw. intros; simplify_eq.
    destruct (write_op_wf (ws_stderr st) op He) as [Hp Hpc]. rw Hw /= in Hp, Hpc.
    split; simpl; auto. split; [done|]. by rw Hpc.
  - intros ([st1 r] & Hcall & [= <- <-])%bind_Some.
    destruct (host_call_exchange _ _ _ _ _ Hl Hcall) as [->|(reqs & msg & -> & Hreqs)];
      [by split|].
    split; simpl; auto; [lia|]. intros req [?|?]%elem_of_app; eauto.
Qed.

Lemma guest_run_confined ctx st actions st' s :
  confined ctx st → guest_run ctx st actions = Some (st', s) → confined ctx st'.
Proof.
  revert st. induction actions as [|a actions IH]; intros st Hst; simpl; [naive_solver|].
  intros ([st1 s1] & Hstep & Hrun)%bind_Some.
  apply (guest_step_confined _ _ _ _ _ Hst) in Hstep. destruct s1; naive_solver.
Qed.

(** C12. Confinement of a WASI guest: whatever host functions it calls, in any
    order and with any arguments, its stdout never exceeds 64 MiB, its stderr
    8 MiB, its stdin never holds more than the largest single payload sent to
    it, and every request it put on the callback channel was granted to its
    policy; and once an action traps, the run is reported as an error, never as
    an answer. *)
Theorem wasi_guest_confined ctx input actions st s :
  guest_run ctx (initial_state input) actions = Some (st, s) →
  (blen (BoundedOutputPipe.contents (ws_stdout st)) ≤ 64 * 2 ^ 20)%Z ∧
  (blen (BoundedOutputPipe.contents (ws_stderr st)) ≤ 8 * 2 ^ 20)%Z ∧
  length (guarded (WasiPipe.buffer (ws_stdin st))) ≤ max_list_with length (ws_sent st) ∧
  (∀ req, req ∈ ws_requests st → ∃ ns op, granted ctx ns op req) ∧
  (∀ ex e, s = Trapped e → ex_actions ex = actions →
     ∀ r, run_internal ctx input ex ≠ Some (Ok r)).
Proof.
  intros Hrun.
  destruct (guest_run_confined _ _ _ _ _ (initial_confined ctx input) Hrun)
    as [[[[_ Ho] _] Hoc] [[[_ He] _] Hec] Hl Hi Hr].
  rw Hoc in Ho. rw Hec in He.
  split_and!; [exact Ho|exact He|done|done|].
  intros ex e -> <- r. rw /run_internal. destruct (ex_instantiate ex); [|done].
  destruct (ex_start_fn ex); [|done]. rw Hrun /= /finish_run.
  by destruct (pipe_to_string (ws_stderr st)).
Qed.
End confinement.

(** A guest that reads its input, asks for a granted resource, and answers. *)
Definition example_memory : bytes := as_bytes "kubewardenkubernetesget_resourceNamespace".

Definition example_actions : list GuestAction :=
  [ReadStdin 2;
   HostCall {| hc_memory := GuestMemory example_memory; hc_bd := (0, 10)%Z; hc_ns := (10, 10)%Z;
               hc_op := (20, 12)%Z; hc_payload := (32, 9)%Z |};
   ReadStdin 100; Stdout CheckWrite; Stdout (WriteBytes (as_bytes "ok"))].

Lemma wasi_guest_confined_witness :
  ∃ st s, guest_run (H0 := bare_codec) example_context
      (initial_state (as_bytes "{}")) example_actions = Some (st, s) ∧
    length (ws_requests st) = 1 ∧
    (blen (BoundedOutputPipe.contents (ws_stdout st)) ≤ 64 * 2 ^ 20)%Z.
Proof.
  do 2 eexists. split; [reflexivity|]. split; [reflexivity|].
  apply (wasi_guest_confined (H0 := bare_codec) example_context (as_bytes "{}")
    example_actions _ Continue).
  reflexivity.
Defined.

Section wasi_uid.
Context `{JsonCodec, !PatchLib} {Wd : Type}.
Implicit Types (run : bytes → list string → M Wd (result RunResult WasiRuntimeError)).

(** Whatever the program prints, the response carries the uid of the request. *)
Lemma Wasi_validate_uid run settings request w response w' :
  Wasi_validate run settings request w = Some (response, w') →
  uid response = request_uid request.
Proof.
  rw /Wasi_validate /wasi_response. destruct (json_to_string _) as [input|e]; [|by intros [= <- _]].
  intros (r & w1 & _ & [= <- _])%m_bind_Some. destruct r as [rr|e]; [|done].
  destruct (decode_validation_response _) as [pvr|e]; [|done].
  destruct (from_policy_validation_response _ _ pvr) eqn:Hr; [|done].
  by eapply from_pvr_uid.
Qed.

(** It allows only what the program accepted on its standard output. *)
Lemma wasi_response_allowed request r :
  allowed (wasi_response request r) = true →
  ∃ rr pvr, r = Ok rr ∧ decode_validation_response (rr_stdout rr) = Ok pvr ∧ pv_accepted pvr = true.
Proof.
  rw /wasi_response. destruct r as [rr|e]; [|done].
  destruct (decode_validation_response _) as [pvr|e] eqn:Hd; [|done].
  destruct (from_policy_validation_response _ _ pvr) eqn:Hr; [|done].
  intros. exists rr, pvr. split_and!; [done|done|]. by eapply from_pvr_allowed.
Qed.
End wasi_uid.
