(* ===== verification/Runtime.v ===== *)
(** * The policy runtime interface

    What the evaluation environment and the policy groups rely on of
    [crates/policy-evaluator/src/policy_evaluator/]: a pre-initialised policy
    ([PolicyEvaluatorPre]) is rehydrated into an evaluator bound to an
    [EvaluationContext], which validates requests and settings. [Evaluator] discharges
    the interface with the four runtimes; its clients are proved against it. An evaluation runs untrusted Wasm against a live cluster: it threads the
    world and may panic. *)

From S2P Require Import Prelude RustStr Json AdmissionResponse Request HostCapabilities Callback.

Class PolicyRuntime `{SdkTypes} := {
  World : Type;
  PolicyEvaluatorPre : Type;
  PolicyEvaluator : Type;
  (** [PolicyEvaluatorPre::rehydrate]; the error is [PolicyEvaluatorPreError]'s text. *)
  rehydrate : PolicyEvaluatorPre → EvaluationContext → M World (result PolicyEvaluator string);
  (** [PolicyEvaluator::validate] *)
  evaluator_validate :
    PolicyEvaluator → ValidateRequest → PolicySettings → M World AdmissionResponse;
  (** [PolicyEvaluator::validate_settings] *)
  evaluator_validate_settings :
    PolicyEvaluator → PolicySettings → M World SettingsValidationResponse;
}.

(** What a runtime promises: a response carries the uid of the request. *)
Class PolicyRuntimeLaws `{SdkTypes} (R : PolicyRuntime) : Prop := {
  evaluator_validate_uid : ∀ e request settings w response w',
    evaluator_validate e request settings w = Some (response, w') →
    uid response = request_uid request;
}.

(** A runtime whose policies are known by their name: "happy" accepts,
    "mutating" accepts and patches, every other policy denies. The world counts
    the evaluations; settings are valid when empty. *)
Definition named_policy_response (name u : string) : AdmissionResponse :=
  if decide (name = "happy") then
    {| uid := u; allowed := true; patch_type := None; patch := None; status := None;
       audit_annotations := None; warnings := None |}
  else if decide (name = "mutating") then
    {| uid := u; allowed := true; patch_type := Some JSONPatch; patch := Some "W10=";
       status := None; audit_annotations := None; warnings := None |}
  else reject u "denied" 403.

Definition constant_runtime : @PolicyRuntime unit_sdk := {|
  World := nat;
  PolicyEvaluatorPre := string;
  PolicyEvaluator := string;
  rehydrate pre _ := λ w, Some (Ok pre, w);
  evaluator_validate name request _ := λ w,
    Some (named_policy_response name (request_uid request), S w);
  evaluator_validate_settings _ settings := λ w,
    Some ({| sv_valid := bool_decide (length settings = 0); sv_message := None |}, w);
|}.

#[export] Instance constant_runtime_laws : PolicyRuntimeLaws constant_runtime.
Proof.
  split. intros e request settings w response w' [= <- _].
  rw /named_policy_response. by repeat case_decide.
Qed.
