(* ===== verification/Wapc.v ===== *)
(** * The waPC runtime

    Models [crates/policy-evaluator/src/runtimes/wapc/]: [stack_pre.rs] (the
    pre-initialised engine provider), [stack.rs] (a waPC host and its reset),
    [callback.rs] and [runtime.rs] (validation of requests and settings).

    The [wapc] and [wasmtime_provider] crates are the parameter [WapcLib]. A call of
    the guest lists the host calls it made; the callback answers them, and what the
    answers put on the channel is recorded in the world. The guest sees the
    callback, so its behaviour may depend on every answer. *)

From S2P Require Import Prelude Bytes RustStr Json HostCapabilities AdmissionResponse Request.
From S2P Require Import Callback HostWorld WasiStack.

(** ** Third-party code *)

(** [EpochDeadlines] *)
Record EpochDeadlines := { wapc_init : N; wapc_func : N }.

(** The arguments of [__host_call]. *)
Record WapcHostCall := {
  wc_binding : string; wc_namespace : string; wc_operation : string; wc_payload : string }.

(** An error of a crate: its [Display] and its [Debug] form. *)
Record ForeignError := { fe_display : string; fe_debug : string }.

Definition HostCallback `{SdkTypes} : Type := WapcHostCall → Outcome.

Class WapcLib `{SdkTypes} (W : Type) := {
  WasmtimeEngineProviderPre : Type;
  WasmtimeEngineProvider : Type;
  (** The instance inside a [WapcHost]. *)
  WapcInstance : Type;
  (** [WasmtimeEngineProviderPre::rehydrate] *)
  provider_rehydrate : WasmtimeEngineProviderPre → option EpochDeadlines → W →
    result WasmtimeEngineProvider ForeignError * W;
  (** [WapcHost::new]: runs the initialisation code of the guest. *)
  instance_new : WasmtimeEngineProvider → HostCallback → W →
    (list WapcHostCall * result WapcInstance ForeignError) * W;
  (** [WapcHost::call] *)
  instance_call : WapcInstance → HostCallback → string → bytes → W →
    (list WapcHostCall * result bytes ForeignError) * W;
  (** [ProtocolVersion::try_from] of the policy SDK. *)
  ProtocolVersion : Type;
  protocol_version_try_from : bytes → result ProtocolVersion string;
  (** The [Debug] form of the error [serde_json] reports for an invalid
      settings response. *)
  settings_response_error_debug : string → string;
}.

(** ** Errors ([errors.rs]) *)

Inductive WapcRuntimeError :=
| WapcInvalidResponseFormat (e : string)
| WapcInvalidResponseWithError (e : string)
| CreateProtocolVersion (res : bytes) (error : string)
| InvokeProtocolVersion (e : ForeignError)
| WasmtimeEngineBuilder (e : ForeignError)
| WapcHostBuilder (e : ForeignError).

Definition WapcRuntimeError_to_string (e : WapcRuntimeError) : string :=
  match e with
  | WapcInvalidResponseFormat e => "invalid response format: " +:+ e
  | WapcInvalidResponseWithError e => "invalid response from policy: " +:+ e
  | CreateProtocolVersion res error =>
      "cannot create ProtocolVersion object from " +:+ debug_bytes res +:+ ": " +:+ error
  | InvokeProtocolVersion e =>
      "cannot invoke 'protocol_version' waPC function : " +:+ fe_display e
  | WasmtimeEngineBuilder e => "cannot build Wasmtime engine: " +:+ fe_display e
  | WapcHostBuilder e => "cannot build Wapc host: " +:+ fe_display e
  end.

Section wapc.
Context `{SD : SdkTypes, CC : !CallbackCodec, JC : !JsonCodec, PL : !PatchLib} {W : Type} `{WL : !WapcLib W}.
Implicit Types (ctx : EvaluationContext).

(** [new_host_callback] *)
Definition new_host_callback ctx : HostCallback := λ c,
  host_callback (wc_binding c) (wc_namespace c) (wc_operation c) (wc_payload c) ctx.

(** ** [StackPre::rehydrate]: one deadline for both kinds of code *)
Definition wapc_stack_pre_rehydrate (pre : WasmtimeEngineProviderPre)
    (epoch_deadline : option N) :
    M (HostWorld W) (result WasmtimeEngineProvider WapcRuntimeError) :=
  let wapc_epoch_deadlines :=
    (λ deadline, {| wapc_init := deadline; wapc_func := deadline |}) <$> epoch_deadline in
  let! r := in_engine (provider_rehydrate pre wapc_epoch_deadlines) in
  m_ret (map_err WasmtimeEngineBuilder r).

(** ** [WapcStack] *)

Record WapcHost := { wh_instance : WapcInstance; wh_callback : HostCallback }.

Record WapcStack := {
  wapc_host : WapcHost;
  wapc_stack_pre : WasmtimeEngineProviderPre;
  wapc_eval_ctx : EvaluationContext;
}.

(** The requests the host calls of a guest put on the channel. *)
Definition answered (callback : HostCallback) (calls : list WapcHostCall) :
    list CallbackRequestType :=
  concat ((λ c, (callback c).1) <$> calls).

Definition wapc_host_new (provider : WasmtimeEngineProvider) (callback : HostCallback) :
    M (HostWorld W) (result WapcHost ForeignError) :=
  let! r := in_engine (instance_new provider callback) in
  let! _ := sent (answered callback r.1) in
  m_ret (res_map (λ i, {| wh_instance := i; wh_callback := callback |}) r.2).

Definition wapc_host_call (host : WapcHost) (op : string) (payload : bytes) :
    M (HostWorld W) (result bytes ForeignError) :=
  let! r := in_engine (instance_call (wh_instance host) (wh_callback host) op payload) in
  let! _ := sent (answered (wh_callback host) r.1) in
  m_ret r.2.

Definition wapc_host_from_pre (pre : WasmtimeEngineProviderPre) ctx :
    M (HostWorld W) (result WapcHost WapcRuntimeError) :=
  let!? engine_provider := wapc_stack_pre_rehydrate pre (epoch_deadline ctx) in
  let! host := wapc_host_new engine_provider (new_host_callback ctx) in
  m_ret (map_err WapcHostBuilder host).

Definition WapcStack_new_from_pre (pre : WasmtimeEngineProviderPre) ctx :
    M (HostWorld W) (result WapcStack WapcRuntimeError) :=
  let!? host := wapc_host_from_pre pre ctx in
  m_ret (Ok {| wapc_host := host; wapc_stack_pre := pre; wapc_eval_ctx := ctx |}).

(** [reset]: the old host stays in place when a new one cannot be built. *)
Definition WapcStack_reset (st : WapcStack) :
    M (HostWorld W) (WapcStack * result unit WapcRuntimeError) :=
  let! r := wapc_host_from_pre (wapc_stack_pre st) (wapc_eval_ctx st) in
  m_ret match r with
  | Ok host =>
      ({| wapc_host := host; wapc_stack_pre := wapc_stack_pre st;
          wapc_eval_ctx := wapc_eval_ctx st |}, Ok tt)
  | Err e => (st, Err e)
  end.

Definition WapcStack_call (st : WapcStack) (op : string) (payload : bytes) :
    M (HostWorld W) (result bytes ForeignError) :=
  wapc_host_call (wapc_host st) op payload.

(** ** [Runtime] *)

Definition WAPC_EPOCH_INTERRUPTION_ERR_MSG : string :=
  "guest code interrupted, execution deadline exceeded".

Definition execution_time_exceeded_message : string :=
  "Policy execution interrupted because it exceeded the allowed execution time".

(** The answer built from the bytes the guest returned. *)
Definition wapc_response (request : ValidateRequest) (res : bytes) : AdmissionResponse :=
  let r :=
    let? pol_val_resp :=
      map_err WapcInvalidResponseWithError (decode_validation_response (of_bytes res)) in
    map_err (λ e, WapcInvalidResponseFormat (ResponseError_to_string e))
      (from_policy_validation_response (request_uid request) (request_object request) pol_val_resp) in
  match r with
  | Ok response => response
  | Err e => reject_internal_server_error (request_uid request) (WapcRuntimeError_to_string e)
  end.

Definition Wapc_validate (st : WapcStack) (settings : PolicySettings) (request : ValidateRequest) :
    M (HostWorld W) (WapcStack * AdmissionResponse) :=
  match json_to_string (validate_params settings request) with
  | Err e => m_ret (st, reject_internal_server_error (request_uid request) e)
  | Ok validate_str =>
      let! r := WapcStack_call st "validate" (as_bytes validate_str) in
      match r with
      | Ok res => m_ret (st, wapc_response request res)
      | Err e =>
          if contains (fe_display e) WAPC_EPOCH_INTERRUPTION_ERR_MSG then
            let! reset := WapcStack_reset st in
            m_ret (reset.1, reject (request_uid request) execution_time_exceeded_message 500)
          else m_ret (st, reject_internal_server_error (request_uid request) (fe_display e))
      end
  end.

Definition Wapc_validate_settings (st : WapcStack) (settings : string) :
    M (HostWorld W) SettingsValidationResponse :=
  let! r := WapcStack_call st "validate_settings" (as_bytes settings) in
  m_ret match r with
  | Ok res =>
      match decode_settings_response (of_bytes res) with
      | Ok vr => vr
      | Err _ =>
          {| sv_valid := false;
             sv_message := Some ("error: InvalidResponseWithError(" +:+
               settings_response_error_debug (of_bytes res) +:+ ")") |}
      end
  | Err err =>
      {| sv_valid := false;
         sv_message := Some ("Error invoking settings validation callback: " +:+ fe_debug err) |}
  end.

Definition Wapc_protocol_version (st : WapcStack) :
    M (HostWorld W) (result ProtocolVersion WapcRuntimeError) :=
  let! r := WapcStack_call st "protocol_version" [] in
  m_ret match r with
  | Ok res => map_err (CreateProtocolVersion res) (protocol_version_try_from res)
  | Err e => Err (InvokeProtocolVersion e)
  end.
End wapc.

(** ** Properties *)

Section wapc_properties.
Context `{SD : SdkTypes, CC : !CallbackCodec, JC : !JsonCodec, PL : !PatchLib} {W : Type} `{WL : !WapcLib W}.
Implicit Types (ctx : EvaluationContext) (st : WapcStack).

(** The callback of the host is the one of the context the stack was built for. *)
Record wapc_wf ctx st : Prop := {
  wapc_wf_ctx : wapc_eval_ctx st = ctx;
  wapc_wf_callback : wh_callback (wapc_host st) = new_host_callback ctx;
}.

Lemma answered_mediated ctx calls :
  Forall (mediated ctx) (answered (new_host_callback ctx) calls).
Proof.
  apply Forall_concat, Forall_fmap, Forall_forall. intros c _. simpl. apply Forall_forall.
  intros req ?%host_callback_granted. by do 2 eexists.
Qed.

Lemma wapc_stack_pre_rehydrate_emits P pre d : emits P (wapc_stack_pre_rehydrate pre d).
Proof. rw /wapc_stack_pre_rehydrate. host_steps. Qed.

Lemma wapc_host_from_pre_emits pre ctx : emits (mediated ctx) (wapc_host_from_pre pre ctx).
Proof.
  rw /wapc_host_from_pre /wapc_host_new. host_steps; [apply wapc_stack_pre_rehydrate_emits|].
  apply emits_sent, answered_mediated.
Qed.

Lemma wapc_host_from_pre_callback pre ctx w host w' :
  wapc_host_from_pre pre ctx w = Some (Ok host, w') → wh_callback host = new_host_callback ctx.
Proof.
  intros (p & w1 & _ & (r & w2 & Hnew & [= Hr _])%m_bind_Some)%mr_bind_Ok.
  rw /wapc_host_new in Hnew. apply m_bind_Some in Hnew as (r' & w3 & _ & Hnew).
  apply m_bind_Some in Hnew as (? & w4 & _ & [= <- _]).
  destruct r'.2; by simplify_eq/=.
Qed.

Lemma WapcStack_new_from_pre_wf pre ctx w st w' :
  WapcStack_new_from_pre pre ctx w = Some (Ok st, w') → wapc_wf ctx st.
Proof.
  intros (host & w1 & Hhost & [= <- _])%mr_bind_Ok.
  split; [done|]. by eapply wapc_host_from_pre_callback.
Qed.

Lemma WapcStack_new_from_pre_emits pre ctx : emits (mediated ctx) (WapcStack_new_from_pre pre ctx).
Proof. rw /WapcStack_new_from_pre. host_steps. apply wapc_host_from_pre_emits. Qed.

Lemma WapcStack_call_emits ctx st op payload :
  wapc_wf ctx st → emits (mediated ctx) (WapcStack_call st op payload).
Proof.
  intros [_ Hcb]. rw /WapcStack_call /wapc_host_call Hcb. host_steps.
  apply emits_sent, answered_mediated.
Qed.

Lemma WapcStack_reset_wf ctx st w st' r w' :
  wapc_wf ctx st → WapcStack_reset st w = Some ((st', r), w') → wapc_wf ctx st'.
Proof.
  intros [Hctx Hcb] ([host|e] & w1 & Hhost & [= <- _ _])%m_bind_Some; [|by split].
  split; simpl; [done|]. rw -Hctx. by eapply wapc_host_from_pre_callback.
Qed.

Lemma Wapc_validate_emits ctx st settings request :
  wapc_wf ctx st → emits (mediated ctx) (Wapc_validate st settings request).
Proof.
  intros Hwf. rw /Wapc_validate. host_steps; [by apply WapcStack_call_emits|].
  rw /WapcStack_reset (wapc_wf_ctx _ _ Hwf). host_steps. apply wapc_host_from_pre_emits.
Qed.

Lemma Wapc_validate_settings_emits ctx st settings :
  wapc_wf ctx st → emits (mediated ctx) (Wapc_validate_settings st settings).
Proof. intros. rw /Wapc_validate_settings. host_steps. by apply WapcStack_call_emits. Qed.

Lemma Wapc_validate_wf ctx st settings request w st' response w' :
  wapc_wf ctx st → Wapc_validate st settings request w = Some ((st', response), w') →
  wapc_wf ctx st'.
Proof.
  intros Hwf. rw /Wapc_validate. destruct (json_to_string _) as [str|e]; [|by intros [= <- _ _]].
  intros ([res|e] & w1 & _ & Hk)%m_bind_Some; [by injection Hk as <- _ _|].
  destruct (contains _ _); [|by injection Hk as <- _ _].
  apply m_bind_Some in Hk as ([st1 r] & w2 & Hreset & [= <- _ _]). by eapply WapcStack_reset_wf.
Qed.

Lemma wapc_response_uid request res : uid (wapc_response request res) = request_uid request.
Proof.
  rw /wapc_response. destruct (decode_validation_response _) as [pvr|e]; [|done]. simpl.
  destruct (from_policy_validation_response _ _ pvr) eqn:Hr; [|done]. by eapply from_pvr_uid.
Qed.

Lemma Wapc_validate_uid st settings request w st' response w' :
  Wapc_validate st settings request w = Some ((st', response), w') →
  uid response = request_uid request.
Proof.
  rw /Wapc_validate. destruct (json_to_string _) as [str|e]; [|by intros [= _ <- _]].
  intros ([res|e] & w1 & _ & Hk)%m_bind_Some.
  { injection Hk as _ <- _. apply wapc_response_uid. }
  destruct (contains _ _); [|by injection Hk as _ <- _].
  by apply m_bind_Some in Hk as ([st1 r] & w2 & Hreset & [= _ <- _]).
Qed.

Lemma wapc_host_from_pre_total pre ctx : panic_free (wapc_host_from_pre (W := W) pre ctx).
Proof. rw /wapc_host_from_pre /wapc_stack_pre_rehydrate /wapc_host_new. host_steps. Qed.

Lemma WapcStack_call_total st op payload : panic_free (WapcStack_call (W := W) st op payload).
Proof. rw /WapcStack_call /wapc_host_call. host_steps. Qed.

Lemma Wapc_validate_total st settings request : panic_free (Wapc_validate st settings request).
Proof.
  rw /Wapc_validate /WapcStack_reset. host_steps;
    [apply WapcStack_call_total|apply wapc_host_from_pre_total].
Qed.

Lemma Wapc_validate_settings_total st settings : panic_free (Wapc_validate_settings st settings).
Proof. rw /Wapc_validate_settings. host_steps. apply WapcStack_call_total. Qed.

Lemma WapcStack_new_from_pre_total pre ctx : panic_free (WapcStack_new_from_pre (W := W) pre ctx).
Proof. rw /WapcStack_new_from_pre. host_steps. apply wapc_host_from_pre_total. Qed.

Lemma wapc_host_from_pre_keeps I pre ctx : keeps I (wapc_host_from_pre (W := W) pre ctx).
Proof. rw /wapc_host_from_pre /wapc_stack_pre_rehydrate /wapc_host_new. host_steps. Qed.

Lemma WapcStack_call_keeps I st op payload : keeps I (WapcStack_call (W := W) st op payload).
Proof. rw /WapcStack_call /wapc_host_call. host_steps. Qed.

Lemma Wapc_validate_keeps I st settings request : keeps I (Wapc_validate st settings request).
Proof.
  rw /Wapc_validate /WapcStack_reset. host_steps;
    [apply WapcStack_call_keeps|apply wapc_host_from_pre_keeps].
Qed.

(** Timeout protection: when the guest is interrupted by its deadline,
    the request is rejected with code 500 and the evaluator is left exactly as a
    newly rehydrated one, with a guest that carries nothing over from the
    interrupted run; only if no new host can be built does the old one stay. Any
    other outcome of the guest leaves the evaluator as it was. *)
Theorem wapc_timeout_recovers st settings request validate_str w r w1 :
  json_to_string (validate_params settings request) = Ok validate_str →
  WapcStack_call st "validate" (as_bytes validate_str) w = Some (r, w1) →
  match r with
  | Err e =>
      if contains (fe_display e) WAPC_EPOCH_INTERRUPTION_ERR_MSG then
        ∃ fresh w2, WapcStack_new_from_pre (wapc_stack_pre st) (wapc_eval_ctx st) w1 =
            Some (fresh, w2) ∧
          Wapc_validate st settings request w =
            Some ((match fresh with Ok st' => st' | Err _ => st end,
                   reject (request_uid request) execution_time_exceeded_message 500), w2)
      else Wapc_validate st settings request w =
        Some ((st, reject_internal_server_error (request_uid request) (fe_display e)), w1)
  | Ok res => Wapc_validate st settings request w = Some ((st, wapc_response request res), w1)
  end.
Proof.
  intros Hstr Hcall. rw /Wapc_validate Hstr /m_bind Hcall. destruct r as [res|e]; [done|].
  destruct (contains _ _); [|done].
  destruct (wapc_host_from_pre_total (wapc_stack_pre st) (wapc_eval_ctx st) w1) as [[h w2] Hh].
  rw /WapcStack_reset /WapcStack_new_from_pre /mr_bind /m_bind Hh.
  destruct h as [host|e']; by do 2 eexists.
Qed.
End wapc_properties.

(** ** A concrete library

    A codec of settings and responses that reads "accept" and "reject", and a
    guest that asks for a resource, and then answers, on the n-th call since the
    start of the world, with the n-th entry of its script. *)
Definition word_codec : JsonCodec := {|
  json_to_string _ := Ok "{}";
  decode_validation_response s :=
    if decide (s = "accept") then
      Ok {| pv_accepted := true; pv_message := None; pv_code := None; pv_mutated_object := None;
            pv_audit_annotations := None; pv_warnings := None |}
    else if decide (s = "reject") then
      Ok {| pv_accepted := false; pv_message := Some "no"; pv_code := None;
            pv_mutated_object := None; pv_audit_annotations := None; pv_warnings := None |}
    else Err "expected value";
  decode_settings_response s :=
    if decide (s = "valid") then Ok {| sv_valid := true; sv_message := None |}
    else Err "expected value";
|}.

Definition scripted_wapc : @WapcLib unit_sdk nat := {|
  WasmtimeEngineProviderPre := list (result string string);
  WasmtimeEngineProvider := list (result string string);
  WapcInstance := nat * list (result string string);
  provider_rehydrate script _ w := (Ok script, w);
  instance_new script _ w := (([], Ok (w, script)), w);
  instance_call i _ _ _ w :=
    (([{| wc_binding := "kubewarden"; wc_namespace := "kubernetes"; wc_operation := "get_resource";
          wc_payload := "Namespace" |}],
      match i.2 !! w with
      | Some (Ok answer) => Ok (as_bytes answer)
      | Some (Err e) => Err {| fe_display := e; fe_debug := e |}
      | None => Err {| fe_display := "trap"; fe_debug := "trap" |}
      end), S w);
  ProtocolVersion := unit;
  protocol_version_try_from _ := Ok tt;
  settings_response_error_debug _ := "Error";
|}.

Definition interrupted_script : list (result string string) :=
  [Err ("wasm trap: " +:+ WAPC_EPOCH_INTERRUPTION_ERR_MSG); Ok "accept"].

Definition interrupted_stack : WapcStack (SD := unit_sdk) (WL := scripted_wapc) :=
  {| wapc_host := {| wh_instance := ((0, interrupted_script) :
       @WapcInstance unit_sdk nat scripted_wapc);
       wh_callback := new_host_callback (CC := bare_codec) example_context |};
     wapc_stack_pre := (interrupted_script : @WasmtimeEngineProviderPre unit_sdk nat scripted_wapc);
     wapc_eval_ctx := example_context |}.

Definition fresh_world {W} (e : W) : HostWorld (H := unit_sdk) W :=
  {| engine := e; channel_log := []; inventories := ∅ |}.

Lemma wapc_timeout_recovers_witness :
  ∃ st' w', Wapc_validate (CC := bare_codec) (JC := word_codec) (PL := demo_patch_lib)
      (WL := scripted_wapc) interrupted_stack [] (RawRequest (JObject [("uid", JString "u1")]))
      (fresh_world 0) =
    Some ((st', reject "u1" execution_time_exceeded_message 500), w') ∧
    wh_instance (wapc_host st') = (1, interrupted_script) ∧ length (channel_log w') = 1.
Proof.
  destruct (wapc_timeout_recovers (CC := bare_codec) (JC := word_codec) (PL := demo_patch_lib)
    (WL := scripted_wapc) interrupted_stack [] (RawRequest (JObject [("uid", JString "u1")]))
    "{}" (fresh_world 0) _ _ eq_refl eq_refl) as (fresh & w2 & Hfresh & Hv).
  injection Hfresh as <- <-. do 2 eexists. split; [exact Hv|]. split; reflexivity.
Defined.
