(* ===== verification/RegoInventory.v ===== *)
(** * Inventories of Kubernetes objects for Rego policies

    Models [crates/policy-evaluator/src/runtimes/rego/gatekeeper_inventory.rs] and
    [opa_inventory.rs], with the errors of [errors.rs]: how the objects listed from
    the cluster are laid out in the JSON document a Rego policy reads.

    [kube::core::DynamicObject] and its JSON form are the parameter [KubeLib]. *)

From S2P Require Import Prelude RustStr Json HostCapabilities Callback.

(** ** Errors ([errors.rs]) *)

Inductive RegoRuntimeError :=
| CallbackChannelNotSet
| CallbackConvertList (e : string)
| CallbackConvertBool (e : string)
| CallbackSend (e : string)
| CallbackResponseError (e : string)
| CallbackRequestError (e : string)
| CallbackGetPluralName (e : string)
| GatekeeperInventoryMissingName
| GatekeeperInventoryMissingNamespace
| GatekeeperInventorySerializationError (e : string)
| OpaInventoryMissingName
| OpaInventoryMissingNamespace
| OpaInventoryAddNamespacedRes
| OpaInventoryAddClusterwideRes
| OpaInventoryMissingPluralName (resource : string)
| RegoInvalidResponse
| RegoInvalidResponseWithError (e : string)
| EvaluatorError (e : string)
| RegoEngineBuilder (e : string).

Definition RegoRuntimeError_to_string (e : RegoRuntimeError) : string :=
  match e with
  | CallbackChannelNotSet => "cannot build Rego context aware data: callback channel is not set"
  | CallbackConvertList e =>
      "cannot convert callback response into a list of kubernetes objects: " +:+ e
  | CallbackConvertBool e => "cannot convert callback response into a boolean: " +:+ e
  | CallbackSend e => "error sending request over callback channel: " +:+ e
  | CallbackResponseError e => "error obtaining response from callback channel: " +:+ e
  | CallbackRequestError e => "cannot perform a request via callback channel: " +:+ e
  | CallbackGetPluralName e => "get plural name failure, cannot convert callback response: " +:+ e
  | GatekeeperInventoryMissingName | OpaInventoryMissingName =>
      "DynamicObject does not have a name"
  | GatekeeperInventoryMissingNamespace | OpaInventoryMissingNamespace =>
      "DynamicObject does not have a namespace"
  | GatekeeperInventorySerializationError e =>
      "cannot convert Gatekeeper inventory to JSON: " +:+ e
  | OpaInventoryAddNamespacedRes =>
      "trying to add a namespaced resource to a list of clusterwide resources"
  | OpaInventoryAddClusterwideRes =>
      "trying to add a clusterwide resource to a list of namespaced resources"
  | OpaInventoryMissingPluralName r => "cannot find plural name for resource " +:+ r
  | RegoInvalidResponse => "invalid response from policy"
  | RegoInvalidResponseWithError e => "invalid response from policy: " +:+ e
  | EvaluatorError e => "cannot allocate Rego evaluator: " +:+ e
  | RegoEngineBuilder e => "cannot build Rego engine: " +:+ e
  end.

(** ** Parameters and maps *)

Class KubeLib := {
  DynamicObject : Type;
  metadata_name : DynamicObject → option string;
  metadata_namespace : DynamicObject → option string;
  object_to_value : DynamicObject → Value;
  (** [serde_json::from_slice::<ObjectList<DynamicObject>>] *)
  decode_object_list : string → result (list DynamicObject) string;
}.

(** The derived order of [ContextAwareResource]. *)
Definition resource_le (a b : ContextAwareResource) : Prop :=
  pair_leb (car_api_version a, car_kind a) (car_api_version b, car_kind b).

#[export] Instance resource_le_dec : RelDecision resource_le.
Proof. intros a b. unfold resource_le. apply _. Defined.

Definition resource_set_iter (s : gset ContextAwareResource) : list ContextAwareResource :=
  merge_sort resource_le (elements s).

Definition resource_map_le {V} (a b : ContextAwareResource * V) : Prop := resource_le a.1 b.1.

#[export] Instance resource_map_le_dec {V} : RelDecision (@resource_map_le V).
Proof. intros a b. unfold resource_map_le. apply _. Defined.

Definition resource_map_iter {V} (m : gmap ContextAwareResource V) :
    list (ContextAwareResource * V) :=
  merge_sort resource_map_le (map_to_list m).

(** The JSON of a [BTreeMap] with string keys. *)
Definition btree_to_value {V} (f : V → Value) (m : gmap string V) : Value :=
  JObject (prod_map id f <$> btree_iter m).

(** ** [gatekeeper_inventory.rs] *)

Module Gatekeeper.
Section gatekeeper.
Context `{KubeLib}.
Implicit Types (obj : DynamicObject) (resource : ContextAwareResource).

Definition ResourcesByName := gmap string DynamicObject.
Definition ResourcesByKind := gmap string ResourcesByName.
Definition ResourcesByGroupVersion := gmap string ResourcesByKind.
Definition ResourcesByNamespace := gmap string ResourcesByGroupVersion.

Record GatekeeperInventory := {
  cluster_resources : ResourcesByGroupVersion;
  namespaced_resources : ResourcesByNamespace;
}.

Definition GatekeeperInventory_default : GatekeeperInventory :=
  {| cluster_resources := ∅; namespaced_resources := ∅ |}.

Definition ResourcesByName_register (m : ResourcesByName) obj :
    result ResourcesByName RegoRuntimeError :=
  let? name := ok_or (metadata_name obj) GatekeeperInventoryMissingName in
  Ok (<[name := obj]> m).

Definition ResourcesByKind_register (m : ResourcesByKind) obj resource :
    result ResourcesByKind RegoRuntimeError :=
  let? by_name := ResourcesByName_register (unwrap_or ∅ (m !! car_kind resource)) obj in
  Ok (<[car_kind resource := by_name]> m).

Definition ResourcesByGroupVersion_register (m : ResourcesByGroupVersion) obj resource :
    result ResourcesByGroupVersion RegoRuntimeError :=
  let? by_kind :=
    ResourcesByKind_register (unwrap_or ∅ (m !! car_api_version resource)) obj resource in
  Ok (<[car_api_version resource := by_kind]> m).

Definition ResourcesByNamespace_register (m : ResourcesByNamespace) obj resource :
    result ResourcesByNamespace RegoRuntimeError :=
  let? namespace := ok_or (metadata_namespace obj) GatekeeperInventoryMissingNamespace in
  let? by_group := ResourcesByGroupVersion_register (unwrap_or ∅ (m !! namespace)) obj resource in
  Ok (<[namespace := by_group]> m).

Definition register (inv : GatekeeperInventory) obj resource :
    result GatekeeperInventory RegoRuntimeError :=
  match metadata_namespace obj with
  | Some _ =>
      let? n := ResourcesByNamespace_register (namespaced_resources inv) obj resource in
      Ok {| cluster_resources := cluster_resources inv; namespaced_resources := n |}
  | None =>
      let? c := ResourcesByGroupVersion_register (cluster_resources inv) obj resource in
      Ok {| cluster_resources := c; namespaced_resources := namespaced_resources inv |}
  end.

Definition new (kube_resources : gmap ContextAwareResource (list DynamicObject)) :
    result GatekeeperInventory RegoRuntimeError :=
  try_fold (λ inv '(resource, resources_list),
      try_fold (λ inv obj, register inv obj resource) inv resources_list)
    GatekeeperInventory_default (resource_map_iter kube_resources).

(** The derived serialization, inside the [GatekeeperInput] of
    [gatekeeper_inventory_cache.rs]. *)
Definition by_group_to_value : ResourcesByGroupVersion → Value :=
  btree_to_value (btree_to_value (btree_to_value object_to_value)).

Definition GatekeeperInput_to_value (inv : GatekeeperInventory) : Value :=
  JObject [("inventory", JObject
    [("cluster", by_group_to_value (cluster_resources inv));
     ("namespace", btree_to_value by_group_to_value (namespaced_resources inv))])].
End gatekeeper.
End Gatekeeper.

(** ** [opa_inventory.rs] *)

(** [{:?}] of a [ContextAwareResource] *)
Definition debug_resource (r : ContextAwareResource) : string :=
  "ContextAwareResource { api_version: " +:+ debug_str (car_api_version r) +:+
  ", kind: " +:+ debug_str (car_kind r) +:+ " }".

Module OpaInv.
Section opa.
Context `{KubeLib}.
Implicit Types (obj : DynamicObject).

Definition ResourcesByName := gmap string DynamicObject.
Definition ResourcesByNamespace := gmap string ResourcesByName.

Inductive ResourcesByScope :=
| Cluster (r : ResourcesByName)
| Namespace (r : ResourcesByNamespace).

Definition OpaInventory := gmap string ResourcesByScope.

Definition ResourcesByName_register (m : ResourcesByName) obj :
    result ResourcesByName RegoRuntimeError :=
  let? name := ok_or (metadata_name obj) OpaInventoryMissingName in
  Ok (<[name := obj]> m).

Definition ResourcesByNamespace_register (m : ResourcesByNamespace) obj :
    result ResourcesByNamespace RegoRuntimeError :=
  let? namespace := ok_or (metadata_namespace obj) OpaInventoryMissingNamespace in
  let? by_name := ResourcesByName_register (unwrap_or ∅ (m !! namespace)) obj in
  Ok (<[namespace := by_name]> m).

Definition ResourcesByScope_register (s : ResourcesByScope) obj :
    result ResourcesByScope RegoRuntimeError :=
  match s with
  | Cluster r => res_map Cluster (ResourcesByName_register r obj)
  | Namespace r => res_map Namespace (ResourcesByNamespace_register r obj)
  end.

Definition is_some {A} (o : option A) : bool := match o with Some _ => true | None => false end.

(** [ResourcesByPluralName::register] *)
Definition register (inv : OpaInventory) obj (plural_name : string) :
    result OpaInventory RegoRuntimeError :=
  let obj_namespaced := is_some (metadata_namespace obj) in
  match inv !! plural_name with
  | Some resources_by_scope =>
      let? _ :=
        match resources_by_scope with
        | Cluster _ => if obj_namespaced then Err OpaInventoryAddNamespacedRes else Ok tt
        | Namespace _ => if negb obj_namespaced then Err OpaInventoryAddClusterwideRes else Ok tt
        end in
      let? s := ResourcesByScope_register resources_by_scope obj in
      Ok (<[plural_name := s]> inv)
  | None =>
      let? s := ResourcesByScope_register (if obj_namespaced then Namespace ∅ else Cluster ∅) obj in
      Ok (<[plural_name := s]> inv)
  end.

Definition new (kube_resources : gmap ContextAwareResource (list DynamicObject))
    (plural_names : gmap ContextAwareResource string) : result OpaInventory RegoRuntimeError :=
  try_fold (λ inv '(resource, resources_list),
      let? plural_name := ok_or (plural_names !! resource)
        (OpaInventoryMissingPluralName (debug_resource resource)) in
      try_fold (λ inv obj, register inv obj plural_name) inv resources_list)
    ∅ (resource_map_iter kube_resources).

Definition scope_to_value (s : ResourcesByScope) : Value :=
  match s with
  | Cluster r => btree_to_value object_to_value r
  | Namespace r => btree_to_value (btree_to_value object_to_value) r
  end.

Definition OpaInventory_to_value : OpaInventory → Value := btree_to_value scope_to_value.
End opa.
End OpaInv.

(** ** Properties *)

(** The value at a path of keys. *)
Fixpoint value_path (v : Value) (path : list string) : option Value :=
  match path with
  | [] => Some v
  | key :: path => v' ← value_get v key; value_path v' path
  end.

Lemma field_get_map {V V'} (f : V → V') (fs : list (string * V)) k :
  field_get (prod_map id f <$> fs) k = f <$> field_get fs k.
Proof. induction fs as [|[k' v] fs IH]; simpl; [done|]. by case_decide. Qed.

Lemma field_get_btree_iter {V} (m : gmap string V) k : field_get (btree_iter m) k = m !! k.
Proof.
  destruct (m !! k) as [v|] eqn:Hk.
  - apply field_get_elem; [|by apply elem_of_btree_iter].
    rw /btree_iter merge_sort_Permutation. apply NoDup_fst_map_to_list.
  - destruct (field_get (btree_iter m) k) as [v|] eqn:Hf; [|done].
    apply field_get_Some_elem, elem_of_btree_iter in Hf. congruence.
Qed.

Lemma value_path_btree {V} (f : V → Value) m k path :
  value_path (btree_to_value f m) (k :: path) = m !! k ≫= λ x, value_path (f x) path.
Proof. simpl. rw field_get_map field_get_btree_iter. by destruct (m !! k). Qed.

Lemma elem_of_resource_map_iter {V} (m : gmap ContextAwareResource V) r v :
  (r, v) ∈ resource_map_iter m ↔ m !! r = Some v.
Proof. by rw /resource_map_iter merge_sort_Permutation elem_of_map_to_list. Qed.

Lemma NoDup_resource_map_iter {V} (m : gmap ContextAwareResource V) :
  NoDup (resource_map_iter m).*1.
Proof. rw /resource_map_iter merge_sort_Permutation. apply NoDup_fst_map_to_list. Qed.

(** Two nested loops are one loop over the pairs. *)
Definition flatten {K V} (l : list (K * list V)) : list (K * V) :=
  l ≫= λ kv, (λ v, (kv.1, v)) <$> kv.2.

Lemma try_fold_flatten {K V S E} (f : S → V → K → result S E) s (l : list (K * list V)) :
  try_fold (λ s '(k, vs), try_fold (λ s v, f s v k) s vs) s l =
  try_fold (λ s kv, f s kv.2 kv.1) s (flatten l).
Proof.
  revert s. induction l as [|[k vs] l IH]; intros s; simpl; [done|].
  rw try_fold_app.
  assert (∀ s, try_fold (λ s kv, f s kv.2 kv.1) s ((λ v, (k, v)) <$> vs) =
    try_fold (λ s v, f s v k) s vs) as ->.
  { induction vs as [|v vs IHvs]; intros s'; simpl; [done|]. destruct (f s' v k); simpl; auto. }
  destruct (try_fold _ s vs); simpl; auto.
Qed.

Lemma elem_of_flatten {K V} (l : list (K * list V)) k v :
  (k, v) ∈ flatten l ↔ ∃ vs, (k, vs) ∈ l ∧ v ∈ vs.
Proof.
  rw /flatten list_elem_of_bind. split.
  - intros ([k' vs] & (v' & [= <- <-] & Hv)%list_elem_of_fmap & Hin). eauto.
  - intros (vs & Hin & Hv). exists (k, vs). split; [|done]. apply list_elem_of_fmap. eauto.
Qed.

(** A loop whose body overwrites an entry keeps the last value written. *)
Lemma try_fold_last {A B S E} (f : S → A → result S E) (get : S → option B) (val : A → B)
    (P : A → Prop) `{!∀ a, Decision (P a)} s l s' :
  (∀ s a s', f s a = Ok s' → get s' = if decide (P a) then Some (val a) else get s) →
  try_fold f s l = Ok s' →
  get s' = match last (filter P l) with Some a => Some (val a) | None => get s end.
Proof.
  intros Hf. revert s. induction l as [|a l IH]; intros s; simpl; [naive_solver|].
  intros (s1 & H1 & Hl)%res_bind_Ok. rw (IH s1 Hl) (Hf _ _ _ H1) filter_cons.
  case_decide; [|done]. rw last_cons. by destruct (last (filter P l)).
Qed.

Lemma filter_none {A} (P : A → Prop) `{!∀ a, Decision (P a)} l :
  (∀ a, a ∈ l → ¬ P a) → filter P l = [].
Proof.
  induction l as [|a l IH]; intros Hl; [done|]. rw filter_cons decide_False.
  - apply IH. intros b Hb. apply Hl. by right.
  - apply Hl. by left.
Qed.

Lemma filter_flatten_ne {K V} `{!EqDecision K} (P : V → Prop) `{!∀ v, Decision (P v)}
    (l : list (K * list V)) k :
  k ∉ l.*1 → filter (λ kv, kv.1 = k ∧ P kv.2) (flatten l) = [].
Proof.
  intros Hk. apply filter_none. intros [k' v] (vs & Hin & _)%elem_of_flatten [Heq _].
  apply Hk, list_elem_of_fmap. simpl in Heq. subst. by exists (k, vs).
Qed.

Lemma filter_flatten {K V} `{!EqDecision K} (P : V → Prop) `{!∀ v, Decision (P v)}
    (l : list (K * list V)) k vs :
  NoDup l.*1 → (k, vs) ∈ l →
  filter (λ kv, kv.1 = k ∧ P kv.2) (flatten l) = (λ v, (k, v)) <$> filter P vs.
Proof.
  induction l as [|[k' vs'] l IH]; [by intros _ ?%elem_of_nil|].
  intros [Hk' Hnd]%NoDup_cons Hin. rw /flatten /= -/(flatten l) filter_app.
  apply elem_of_cons in Hin as [[= <- <-]|Hin].
  - rw filter_flatten_ne // app_nil_r. clear.
    induction vs as [|v vs IH]; [done|]. rw fmap_cons !filter_cons /= IH.
    destruct (decide (P v)), (decide (k = k ∧ P v)); naive_solver.
  - rw IH // (_ : filter _ (_ <$> _) = []) //. apply filter_none.
    intros ? (v & -> & _)%list_elem_of_fmap [Heq _]. simpl in Heq. subst.
    apply Hk', list_elem_of_fmap.
    by exists (k, vs).
Qed.

Section inventories.
Context `{KubeLib}.
Implicit Types (obj : DynamicObject) (kube : gmap ContextAwareResource (list DynamicObject)).

(** An object is found under its namespace and its name. *)
Definition located (ns : option string) (name : string) obj : Prop :=
  metadata_namespace obj = ns ∧ metadata_name obj = Some name.

#[export] Instance located_dec ns name obj : Decision (located ns name obj).
Proof. unfold located. apply _. Defined.

Definition by_group_get (m : gmap string (gmap string (gmap string DynamicObject))) (av kind name : string) :
    option DynamicObject :=
  m !! av ≫= λ k, k !! kind ≫= λ n, n !! name.

Definition gatekeeper_get (inv : Gatekeeper.GatekeeperInventory) (ns : option string)
    (av kind name : string) : option DynamicObject :=
  match ns with
  | None => by_group_get (Gatekeeper.cluster_resources inv) av kind name
  | Some n => Gatekeeper.namespaced_resources inv !! n ≫= λ g, by_group_get g av kind name
  end.

Lemma by_group_register (m : gmap string (gmap string (gmap string DynamicObject)))
    obj r m' av kind name :
  Gatekeeper.ResourcesByGroupVersion_register m obj r = Ok m' →
  by_group_get m' av kind name =
    if decide (r = {| car_api_version := av; car_kind := kind |} ∧ metadata_name obj = Some name)
    then Some obj else by_group_get m av kind name.
Proof.
  rw /Gatekeeper.ResourcesByGroupVersion_register /Gatekeeper.ResourcesByKind_register
    /Gatekeeper.ResourcesByName_register /by_group_get.
  unfold Gatekeeper.ResourcesByGroupVersion, Gatekeeper.ResourcesByKind,
    Gatekeeper.ResourcesByName in *.
  intros. res_simpl. destruct r as [av' kind']; simpl.
  rw lookup_insert. destruct (decide (av' = av)) as [->|]; simpl; [|case_decide; naive_solver].
  rw lookup_insert. destruct (decide (kind' = kind)) as [->|]; simpl.
  2: { rw decide_False; [|naive_solver]. by destruct (m !! av). }
  rw lookup_insert. repeat case_decide; try naive_solver.
  destruct (m !! av) as [k|]; simpl; [|done]. by destruct (k !! kind).
Qed.

Lemma if_decide_ext {A} (P Q : Prop) `{!Decision P, !Decision Q} (a b c : A) :
  (P ↔ Q) → b = c → (if decide P then a else b) = (if decide Q then a else c).
Proof. intros HPQ ->. repeat case_decide; tauto. Qed.

Lemma bind_fmap_ext {A B C} (o : option A) (f : A → option C) (g : A → option B) (h : B → C) :
  (∀ a, f a = h <$> g a) → o ≫= f = h <$> (o ≫= g).
Proof. intros Hfg. destruct o; [apply Hfg|done]. Qed.

Lemma gatekeeper_register inv obj r inv' ns av kind name :
  Gatekeeper.register inv obj r = Ok inv' →
  gatekeeper_get inv' ns av kind name =
    if decide (r = {| car_api_version := av; car_kind := kind |} ∧ located ns name obj)
    then Some obj else gatekeeper_get inv ns av kind name.
Proof.
  intros Hreg. rw /Gatekeeper.register in Hreg.
  destruct (metadata_namespace obj) as [n|] eqn:Hns; res_simpl.
  - rename select (Gatekeeper.ResourcesByNamespace_register _ _ _ = _) into Hr.
    rw /Gatekeeper.ResourcesByNamespace_register Hns /= in Hr. res_simpl.
    destruct ns as [n'|]; simpl; [|by rw decide_False; [|rw /located Hns; naive_solver]].
    rw lookup_insert. destruct (decide (n = n')) as [->|]; simpl.
    2: { by rw decide_False; [|rw /located Hns; naive_solver]. }
    rename select (Gatekeeper.ResourcesByGroupVersion_register _ _ _ = _) into Hg.
    rw (by_group_register _ _ _ _ _ _ _ Hg). apply if_decide_ext; [by rw /located Hns; naive_solver|].
    by destruct (Gatekeeper.namespaced_resources inv !! n').
  - destruct ns as [n'|]; simpl; [by rw decide_False; [|rw /located Hns; naive_solver]|].
    rename select (Gatekeeper.ResourcesByGroupVersion_register _ _ _ = _) into Hg.
    rw (by_group_register _ _ _ _ _ _ _ Hg). apply if_decide_ext; [|done].
    rw /located Hns. naive_solver.
Qed.

Lemma gatekeeper_register_ok inv obj r :
  (∃ inv', Gatekeeper.register inv obj r = Ok inv') ↔ is_Some (metadata_name obj).
Proof.
  rw /Gatekeeper.register /Gatekeeper.ResourcesByNamespace_register
    /Gatekeeper.ResourcesByGroupVersion_register /Gatekeeper.ResourcesByKind_register
    /Gatekeeper.ResourcesByName_register.
  destruct (metadata_namespace obj); simpl; (destruct (metadata_name obj) as [name|]; simpl;
    [split; intros _; by eexists|split; [by intros []|by intros []]]).
Qed.

Lemma gatekeeper_new_flat kube :
  Gatekeeper.new kube =
  try_fold (λ inv ro, Gatekeeper.register inv ro.2 ro.1) Gatekeeper.GatekeeperInventory_default
    (flatten (resource_map_iter kube)).
Proof. apply (try_fold_flatten (λ inv obj r, Gatekeeper.register inv obj r)). Qed.

Lemma elem_of_listed kube r obj :
  (r, obj) ∈ flatten (resource_map_iter kube) ↔ ∃ l, kube !! r = Some l ∧ obj ∈ l.
Proof. rw elem_of_flatten. by setoid_rewrite elem_of_resource_map_iter. Qed.

Lemma gatekeeper_get_new kube inv ns av kind name :
  Gatekeeper.new kube = Ok inv →
  gatekeeper_get inv ns av kind name =
    kube !! {| car_api_version := av; car_kind := kind |} ≫= λ l, last (filter (located ns name) l).
Proof.
  rw gatekeeper_new_flat. intros Hnew.
  set (r := {| car_api_version := av; car_kind := kind |}).
  rw (try_fold_last _ (λ inv, gatekeeper_get inv ns av kind name) snd
    (λ ro, ro.1 = r ∧ located ns name ro.2) _ _ _ (λ s a s', gatekeeper_register s a.2 a.1 s' ns av kind name) Hnew).
  assert (gatekeeper_get Gatekeeper.GatekeeperInventory_default ns av kind name = None) as ->
    by by destruct ns.
  destruct (kube !! r) as [l|] eqn:Hr; simpl.
  - rw (filter_flatten (located ns name) _ r l).
    + rw fmap_last. by destruct (last (filter _ l)).
    + apply NoDup_resource_map_iter.
    + by apply elem_of_resource_map_iter.
  - rw (filter_flatten_ne (located ns name) _ r) //.
    intros ([r' l] & -> & Hin)%list_elem_of_fmap. apply elem_of_resource_map_iter in Hin.
    by rw Hin in Hr.
Qed.

Lemma value_path_by_group (m : gmap string (gmap string (gmap string DynamicObject))) av kind name :
  value_path (Gatekeeper.by_group_to_value m) [av; kind; name] =
  object_to_value <$> by_group_get m av kind name.
Proof.
  rw /Gatekeeper.by_group_to_value value_path_btree /by_group_get.
  destruct (m !! av) as [k|]; simpl; [|done].
  rw field_get_map field_get_btree_iter. destruct (k !! kind) as [n|]; simpl; [|done].
  rw field_get_map field_get_btree_iter. by destruct (n !! name).
Qed.

(** The inventory a Gatekeeper policy reads: it can be built exactly
    when every listed object has a name, and then
    [data.inventory.cluster[groupVersion][kind][name]] and
    [data.inventory.namespace[namespace][groupVersion][kind][name]] hold exactly
    the objects listed for that resource with that namespace and name, the last
    one if the list repeats it; nothing else is in the document. *)
Theorem gatekeeper_inventory_exact kube :
  ((∃ inv, Gatekeeper.new kube = Ok inv) ↔
     ∀ r l obj, kube !! r = Some l → obj ∈ l → is_Some (metadata_name obj)) ∧
  ∀ inv, Gatekeeper.new kube = Ok inv → ∀ ns av kind name,
    value_path (Gatekeeper.GatekeeperInput_to_value inv)
      ("inventory" :: match ns with None => ["cluster"] | Some n => ["namespace"; n] end
         ++ [av; kind; name]) =
    object_to_value <$> (kube !! {| car_api_version := av; car_kind := kind |} ≫=
      λ l, last (filter (located ns name) l)).
Proof.
  split.
  - rw gatekeeper_new_flat. split.
    + intros [inv Hinv] r l obj Hr Hobj.
      destruct (try_fold_split _ _ _ (r, obj) _ ltac:(apply elem_of_listed; eauto) Hinv)
        as (_ & _ & s1 & s2 & _ & _ & Hreg & _).
      by apply (gatekeeper_register_ok s1 obj r); eexists.
    + intros Hall. destruct (try_fold_total (λ inv ro, Gatekeeper.register inv ro.2 ro.1) (λ _, True)
        Gatekeeper.GatekeeperInventory_default (flatten (resource_map_iter kube))) as (inv & Hinv & _);
        [done| |by eexists].
      intros s [r obj] (l & Hl & Hobj)%elem_of_listed _.
      destruct (proj2 (gatekeeper_register_ok s obj r) (Hall r l obj Hl Hobj)) as [s' Hs']. eauto.
  - intros inv Hnew ns av kind name. rw -(gatekeeper_get_new kube inv) //.
    destruct ns as [n|]; [|exact (value_path_by_group _ av kind name)].
    change (value_path (btree_to_value Gatekeeper.by_group_to_value
      (Gatekeeper.namespaced_resources inv)) (n :: [av; kind; name]) =
      object_to_value <$> gatekeeper_get inv (Some n) av kind name).
    rw value_path_btree /gatekeeper_get. by apply bind_fmap_ext; intros g; apply value_path_by_group.
Qed.
End inventories.

Section opa_inventory.
Context `{KubeLib}.
Implicit Types (obj : DynamicObject) (kube : gmap ContextAwareResource (list DynamicObject))
  (plurals : gmap ContextAwareResource string) (inv : OpaInv.OpaInventory).

Definition option_list {A} (o : option A) : list A :=
  match o with Some a => [a] | None => [] end.

Definition namespaced obj : bool := OpaInv.is_some (metadata_namespace obj).

(** Whether a plural name stands for namespaced objects. *)
Definition opa_scope inv (plural : string) : option bool :=
  match inv !! plural with
  | Some (OpaInv.Cluster _) => Some false
  | Some (OpaInv.Namespace _) => Some true
  | None => None
  end.

Definition scope_get (s : OpaInv.ResourcesByScope) (ns : option string) (name : string) :
    option DynamicObject :=
  match s, ns with
  | OpaInv.Cluster m, None => m !! name
  | OpaInv.Namespace m, Some n => m !! n ≫= λ by_name, by_name !! name
  | _, _ => None
  end.

Definition opa_get inv (plural : string) (ns : option string) (name : string) :
    option DynamicObject :=
  inv !! plural ≫= λ s, scope_get s ns name.

(** The objects with their plural names, in the order they are registered. *)
Definition labelled kube plurals : list (string * DynamicObject) :=
  flatten ((λ rl, (unwrap_or "" (plurals !! rl.1), rl.2)) <$> resource_map_iter kube).

Lemma scope_register_ok s obj :
  (match s with OpaInv.Cluster _ => false | OpaInv.Namespace _ => true end) = namespaced obj →
  is_Some (metadata_name obj) → ∃ s', OpaInv.ResourcesByScope_register s obj = Ok s'.
Proof.
  rw /namespaced /OpaInv.ResourcesByScope_register /OpaInv.ResourcesByNamespace_register
    /OpaInv.ResourcesByName_register.
  destruct s, (metadata_namespace obj); try done; intros _ [name ->]; simpl; by eexists.
Qed.

(** What a successful registration checked and did. *)
Lemma scope_register s obj s' ns name :
  OpaInv.ResourcesByScope_register s obj = Ok s' →
  (match s with OpaInv.Cluster _ => false | OpaInv.Namespace _ => true end) = namespaced obj →
  is_Some (metadata_name obj) ∧
  (match s' with OpaInv.Cluster _ => false | OpaInv.Namespace _ => true end) = namespaced obj ∧
  scope_get s' ns name = if decide (located ns name obj) then Some obj else scope_get s ns name.
Proof.
  rw /namespaced /OpaInv.ResourcesByScope_register /OpaInv.ResourcesByNamespace_register
    /OpaInv.ResourcesByName_register /scope_get.
  destruct s as [m|m]; intros Hr Hns; res_simpl; (split; [by eexists|]).
  - destruct (metadata_namespace obj) eqn:Hn; [done|]. split; [done|].
    destruct ns as [n|]; [by rw decide_False; [|rw /located Hn; naive_solver]|].
    rw lookup_insert. apply if_decide_ext; [|done]. rw /located Hn. naive_solver.
  - rename select (metadata_namespace obj = _) into Hn. rw Hn. split; [done|].
    destruct ns as [n|]; [|by rw decide_False; [|rw /located Hn; naive_solver]].
    rw lookup_insert. destruct (decide _) as [->|].
    2: { by rw decide_False; [|rw /located Hn; naive_solver]. }
    simpl. rw lookup_insert. apply if_decide_ext; [rw /located Hn; naive_solver|].
    unfold OpaInv.ResourcesByNamespace, OpaInv.ResourcesByName in *. by destruct (m !! n).
Qed.

Lemma opa_register_ok inv obj plural :
  is_Some (metadata_name obj) →
  (∀ b, opa_scope inv plural = Some b → b = namespaced obj) →
  ∃ inv', OpaInv.register inv obj plural = Ok inv'.
Proof.
  intros Hname Hscope. rw /OpaInv.register -/(namespaced obj) /opa_scope in Hscope |- *.
  destruct (inv !! plural) as [s|].
  - assert ((match s with OpaInv.Cluster _ => false | OpaInv.Namespace _ => true end) =
      namespaced obj) as Hs by (destruct s; by apply Hscope).
    destruct (scope_register_ok s obj Hs Hname) as [s' ->].
    destruct s; rw -Hs; simpl; by eexists.
  - destruct (scope_register_ok (if namespaced obj then OpaInv.Namespace ∅ else OpaInv.Cluster ∅)
      obj) as [s' ->]; [by destruct (namespaced obj)|done|by eexists].
Qed.

Lemma opa_register inv obj plural inv' :
  OpaInv.register inv obj plural = Ok inv' →
  is_Some (metadata_name obj) ∧
  (∀ b, opa_scope inv plural = Some b → b = namespaced obj) ∧
  (∀ p, opa_scope inv' p = if decide (plural = p) then Some (namespaced obj) else opa_scope inv p) ∧
  ∀ p ns name, opa_get inv' p ns name =
    if decide (plural = p ∧ located ns name obj) then Some obj else opa_get inv p ns name.
Proof.
  intros Hreg.
  assert (∃ s s', OpaInv.ResourcesByScope_register s obj = Ok s' ∧ inv' = <[plural := s']> inv ∧
    (match s with OpaInv.Cluster _ => false | OpaInv.Namespace _ => true end) = namespaced obj ∧
    (∀ b, opa_scope inv plural = Some b → b = namespaced obj) ∧
    ∀ ns name, scope_get s ns name = opa_get inv plural ns name) as (s & s' & Hs & -> & Hsc & Hold & Hget).
  { rw /OpaInv.register -/(namespaced obj) in Hreg. rw /opa_scope /opa_get.
    destruct (inv !! plural) as [s|]; res_simpl.
    - exists s. eexists. split; [done|]. split; [done|].
      destruct s, (namespaced obj); simplify_eq/=; naive_solver.
    - do 2 eexists. split; [done|]. split; [done|].
      destruct (namespaced obj); (split; [done|]; split; [done|]); by intros []. }
  destruct (scope_register s obj s' None "" Hs Hsc) as (Hname & Hsc' & _).
  split; [done|]. split; [done|]. split.
  - intros p. rw /opa_scope lookup_insert. case_decide; [|done]. by destruct s'; rw Hsc'.
  - intros p ns name. rw /opa_get lookup_insert.
    destruct (decide (plural = p)) as [<-|]; simpl; [|rw decide_False //; naive_solver].
    destruct (scope_register s obj s' ns name Hs Hsc) as (_ & _ & ->).
    apply if_decide_ext; [naive_solver|apply Hget].
Qed.

Definition opa_step inv (po : string * DynamicObject) : result OpaInv.OpaInventory RegoRuntimeError :=
  OpaInv.register inv po.2 po.1.

(** The two loops of [new], once every plural name is known. *)
Lemma opa_new_labelled kube plurals inv :
  OpaInv.new kube plurals = Ok inv ↔
  (∀ r, is_Some (kube !! r) → is_Some (plurals !! r)) ∧
  try_fold opa_step ∅ (labelled kube plurals) = Ok inv.
Proof.
  rw /OpaInv.new /labelled -(try_fold_flatten (λ inv obj p, OpaInv.register inv obj p)).
  assert ((∀ r, is_Some (kube !! r) → is_Some (plurals !! r)) ↔
    Forall (λ rl, is_Some (plurals !! rl.1)) (resource_map_iter kube)) as ->.
  { rw Forall_forall. split.
    - intros Hall [r l] Hin%elem_of_resource_map_iter. apply Hall. by eexists.
    - intros Hall r [l Hl%elem_of_resource_map_iter]. by apply (Hall (r, l)). }
  generalize (∅ : OpaInv.OpaInventory). induction (resource_map_iter kube) as [|[r l] rest IH];
    intros inv0; simpl; [rw Forall_nil; naive_solver|].
  rw Forall_cons /=. destruct (plurals !! r) as [p|]; simpl; [|naive_solver eauto using is_Some_None].
  destruct (try_fold _ inv0 l) as [inv1|e]; simpl; [|naive_solver].
  rw IH. naive_solver.
Qed.

Lemma elem_of_labelled kube plurals p obj :
  (∀ r, is_Some (kube !! r) → is_Some (plurals !! r)) →
  (p, obj) ∈ labelled kube plurals ↔
  ∃ r l, kube !! r = Some l ∧ plurals !! r = Some p ∧ obj ∈ l.
Proof.
  intros Hall. rw /labelled elem_of_flatten. split.
  - intros (l & ([r l'] & [= -> ->] & Hr%elem_of_resource_map_iter)%list_elem_of_fmap & Hobj).
    destruct (Hall r) as [q Hq]; [by eexists|]. simpl. exists r, l'. by rw Hq.
  - intros (r & l & Hr & Hp & Hobj). exists l. split; [|done]. apply list_elem_of_fmap.
    exists (r, l). by rw /= Hp elem_of_resource_map_iter.
Qed.

(** Once a plural name has a scope, it keeps it. *)
Lemma opa_scope_stable inv l inv' p b :
  opa_scope inv p = Some b → try_fold opa_step inv l = Ok inv' → opa_scope inv' p = Some b.
Proof.
  intros Hb. apply (try_fold_inv opa_step (λ inv, opa_scope inv p = Some b)); [done|].
  intros s [q o] s' _ Hs (_ & Hold & Hnew & _)%opa_register. simpl in *. rw Hnew.
  case_decide; subst; [|done]. f_equal. symmetry. by apply Hold.
Qed.

(** The objects of one plural name agree on being namespaced. *)
Definition scopes_agree (l : list (string * DynamicObject)) : Prop :=
  ∀ p o1 o2, (p, o1) ∈ l → (p, o2) ∈ l → namespaced o1 = namespaced o2.

Lemma opa_fold_ok l :
  (∃ inv, try_fold opa_step ∅ l = Ok inv) ↔
  (∀ p obj, (p, obj) ∈ l → is_Some (metadata_name obj)) ∧ scopes_agree l.
Proof.
  split.
  - intros [inv Hinv].
    assert (∀ p obj, (p, obj) ∈ l →
      is_Some (metadata_name obj) ∧ opa_scope inv p = Some (namespaced obj)) as Hl.
    { intros p obj Hin. destruct (try_fold_split _ _ _ _ _ Hin Hinv)
        as (_ & l2 & s1 & s2 & _ & _ & (? & _ & Hnew & _)%opa_register & Hrest).
      split; [done|]. eapply opa_scope_stable; [|done]. by rw Hnew decide_True. }
    split; [by intros p obj []%Hl|]. intros p o1 o2 [_ H1]%Hl [_ H2]%Hl. congruence.
  - intros [Hnames Hagree].
    destruct (try_fold_total opa_step
      (λ inv, ∀ p b, opa_scope inv p = Some b → ∀ obj, (p, obj) ∈ l → b = namespaced obj)
      ∅ l) as (inv & Hinv & _); [done| |by eexists].
    intros s [p obj] Hin Hs. destruct (opa_register_ok s obj p) as [s' Hs'];
      [by eapply Hnames|intros b Hb; by eapply Hs|].
    exists s'. split; [done|]. destruct (opa_register _ _ _ _ Hs') as (_ & _ & Hnew & _).
    intros q b. rw Hnew. case_decide; subst; [|apply Hs].
    intros [= <-] o Ho. by eapply Hagree.
Qed.

Lemma scope_path s ns name obj :
  scope_get s ns name = Some obj →
  value_path (OpaInv.scope_to_value s) (option_list ns ++ [name]) = Some (object_to_value obj).
Proof.
  rw /scope_get /OpaInv.scope_to_value.
  unfold OpaInv.ResourcesByNamespace, OpaInv.ResourcesByName in *.
  destruct s as [m|m], ns as [n|]; try done; intros Hs.
  - rw /= field_get_map field_get_btree_iter. by rw Hs.
  - apply bind_Some in Hs as (by_name & Hn & Hs).
    rw /= field_get_map field_get_btree_iter. rw Hn /= field_get_map field_get_btree_iter.
    by rw Hs.
Qed.

Lemma bind_Some_r {A B} (o : option A) (f : A → option B) a : o = Some a → o ≫= f = f a.
Proof. by intros ->. Qed.

(** The data an OPA policy reads: the inventory can be built exactly
    when the plural name of every resource is known, every object has a name, and
    the objects that share a plural name are all namespaced or all cluster-wide;
    then it maps (plural name, namespace, name) to the last object registered
    under them and to nothing else, and that object is found in the document at
    [kubernetes.<resource>.<namespace>.<name>], without the namespace for a
    cluster-wide one. *)
Theorem opa_inventory_exact kube plurals :
  ((∃ inv, OpaInv.new kube plurals = Ok inv) ↔
     (∀ r, is_Some (kube !! r) → is_Some (plurals !! r)) ∧
     (∀ p obj, (p, obj) ∈ labelled kube plurals → is_Some (metadata_name obj)) ∧
     scopes_agree (labelled kube plurals)) ∧
  ∀ inv, OpaInv.new kube plurals = Ok inv → ∀ p ns name,
    opa_get inv p ns name =
      snd <$> last (filter (λ po, po.1 = p ∧ located ns name po.2) (labelled kube plurals)) ∧
    ∀ obj, opa_get inv p ns name = Some obj →
      value_path (OpaInv.OpaInventory_to_value inv) (p :: option_list ns ++ [name]) =
        Some (object_to_value obj).
Proof.
  split.
  - rw -opa_fold_ok. setoid_rewrite opa_new_labelled. naive_solver.
  - intros inv [_ Hnew]%opa_new_labelled p ns name. split.
    + apply (try_fold_last opa_step (λ inv, opa_get inv p ns name) snd
        (λ po, po.1 = p ∧ located ns name po.2)) in Hnew; [rw Hnew; by destruct (last _)|].
      by intros s [q o] s' (_ & _ & _ & Hget)%opa_register.
    + intros obj Hobj. apply bind_Some in Hobj as (s & Hs & Hget).
      unfold OpaInv.OpaInventory_to_value, OpaInv.OpaInventory in *. rw value_path_btree.
      erewrite bind_Some_r; [|exact Hs]. by apply scope_path.
Qed.
End opa_inventory.
