(* ===== verification/Burrego.v ===== *)
(** * Burrego: evaluation of Rego modules

    Models [crates/burrego/src/]: [errors.rs], [stack_helper.rs] (JSON in and out
    of the linear memory of the guest), [policy.rs] (the OPA calling
    convention), [evaluator.rs] (set up, reset, evaluation), [resource_limits.rs] and
    [evaluator_builder.rs].

    wasmtime and [serde_json] are the parameter [RegoWasm]: a guest function is an
    arbitrary function of the store, which covers the builtins it calls back. A
    panic of the host is the outcome [None]. *)

From S2P Require Import Prelude Bytes RustStr Json HostCapabilities Callback HostWorld WasiPipes WasiStack.

(** ** Errors *)

Inductive BurregoError :=
| MissingRegoBuiltins (names : string)
| WasmEngineError (e : string)
| RegoWasmError (e : string)
| JSONError (msg source : string)
| EvaluatorBuilderError (e : string)
| BuiltinError (name message : string)
| BuiltinNotImplementedError (name : string)
| ExecutionDeadlineExceeded.

Definition BurregoError_to_string (e : BurregoError) : string :=
  match e with
  | MissingRegoBuiltins names => "Missing Rego builtins: " +:+ names
  | WasmEngineError e => "wasm engine error: " +:+ e
  | RegoWasmError e => "Rego wasm error: " +:+ e
  | JSONError msg source => msg +:+ ": " +:+ source
  | EvaluatorBuilderError e => "Evaluator builder error: " +:+ e
  | BuiltinError name message =>
      "Builtin error [" +:+ debug_str name +:+ "]: " +:+ debug_str message
  | BuiltinNotImplementedError name => "Builtin not implemented: " +:+ name
  | ExecutionDeadlineExceeded => "guest code interrupted, execution deadline exceeded"
  end.

(** [{:?}]; the text of a JSON error stands for its own [Debug] form. *)
Definition BurregoError_debug (e : BurregoError) : string :=
  match e with
  | MissingRegoBuiltins names => "MissingRegoBuiltins(" +:+ debug_str names +:+ ")"
  | WasmEngineError e => "WasmEngineError(" +:+ debug_str e +:+ ")"
  | RegoWasmError e => "RegoWasmError(" +:+ debug_str e +:+ ")"
  | JSONError msg source =>
      "JSONError { msg: " +:+ debug_str msg +:+ ", source: " +:+ source +:+ " }"
  | EvaluatorBuilderError e => "EvaluatorBuilderError(" +:+ debug_str e +:+ ")"
  | BuiltinError name message =>
      "BuiltinError { name: " +:+ debug_str name +:+ ", message: " +:+ debug_str message +:+ " }"
  | BuiltinNotImplementedError name => "BuiltinNotImplementedError(" +:+ debug_str name +:+ ")"
  | ExecutionDeadlineExceeded => "ExecutionDeadlineExceeded"
  end.

(** [resource_limits.rs]: what [store_limits] asks of wasmtime. *)
Record RegoResourceLimits := { max_memory_size : option N; max_table_elements : option N }.

Record StoreLimits := { sl_memory_size : option N; sl_table_elements : option N }.

Definition store_limits (limits : option RegoResourceLimits) : StoreLimits :=
  match limits with
  | Some l => {| sl_memory_size := max_memory_size l; sl_table_elements := max_table_elements l |}
  | None => {| sl_memory_size := None; sl_table_elements := None |}
  end.

(** ** wasmtime *)

(** The error of a call: whether it downcasts to [Trap::Interrupt], and its
    [Debug] form. *)
Record CallError := { ce_interrupt : bool; ce_debug : string }.

Class RegoWasm (W : Type) := {
  RegoEngine : Type;
  (** A module with the engine that compiled it. *)
  RegoModule : Type;
  (** [Engine::new], with or without epoch interruption, and [Module::from_file],
      with the [Debug] form of their errors. *)
  engine_new : bool → W → result RegoEngine string * W;
  module_from_file : RegoEngine → string → W → result RegoModule string * W;
  (** A store with its instance and its memory. *)
  RegoInstance : Type;
  (** [Store::new], [Memory::new], the linker, and [instantiate] under a deadline. *)
  memory_new : RegoModule → StoreLimits → W → result RegoInstance string * W;
  linker_define : RegoInstance → W → result unit BurregoError * W;
  linker_instantiate : RegoInstance → option N → W → result unit string * W;
  set_epoch_deadline : RegoInstance → N → W → W;
  (** [get_typed_func], with the [Debug] form of its error. *)
  get_typed_func : RegoInstance → string → W → result unit string;
  call_guest : RegoInstance → string → list Z → W → result Z CallError * W;
  memory_data : RegoInstance → W → bytes;
  memory_write : RegoInstance → Z → bytes → W → result unit string * W;
  (** The [Debug] form of [MemoryAccessError]. *)
  memory_access_error : string;
  value_to_vec : Value → result string string;
  value_from_slice : string → result Value string;
}.

(** [Value::as_i64]: an integer in the range, printed without fraction or exponent. *)
Fixpoint digits_value (acc : Z) (s : string) : option Z :=
  match s with
  | "" => Some acc
  | String c s =>
      let d := (Z.of_N (Ascii.N_of_ascii c) - 48)%Z in
      if bool_decide (0 ≤ d ≤ 9)%Z then digits_value (acc * 10 + d)%Z s else None
  end.

Definition as_i64 (v : Value) : option Z :=
  match v with
  | JNumber n =>
      z ← match strip_prefix n "-" with
          | Some m => Z.opp <$> digits_value 0 m
          | None => digits_value 0 n
          end;
      if bool_decide (- 2 ^ 63 ≤ z < 2 ^ 63)%Z then Some z else None
  | _ => None
  end.

Definition nul : ascii := Ascii.ascii_of_N 0.

(** [StackHelper::read_string]: the byte at each address, until a NUL. The
    conversion of a negative address to [usize] panics; the increment wraps. The
    fuel is one more than the size of the memory. *)
Fixpoint read_loop (fuel : nat) (oob : string) (memory : bytes) (raw_addr : Z) (data : bytes) :
    option (result bytes BurregoError) :=
  match fuel with
  | O => None
  | S fuel =>
      if bool_decide (raw_addr < 0)%Z then None else
      match memory !! Z.to_nat raw_addr with
      | None => Some (Err (WasmEngineError ("cannot read from memory: " +:+ oob)))
      | Some c =>
          if decide (c = nul) then Some (Ok data)
          else read_loop fuel oob memory (i32_wrap (raw_addr + 1)) (data ++ [c])
      end
  end.

Section burrego.
Context `{SD : SdkTypes, HI : HashIter} {W : Type} `{RW : !RegoWasm W}.
Implicit Types (inst : RegoInstance).

Notation HM := (M (HostWorld W)).

Definition lift_panic {A} (o : option A) : HM A :=
  match o with Some a => m_ret a | None => panic end.

(** A read of the store. *)
Definition reads {A} (f : W → A) : HM A := in_engine (λ w, (f w, w)).

Definition read_string inst (addr : Z) : HM (result bytes BurregoError) :=
  let! memory := reads (memory_data inst) in
  lift_panic (read_loop (S (length memory)) memory_access_error memory addr []).

Definition map_call_error (msg : string) (e : CallError) : BurregoError :=
  if ce_interrupt e then ExecutionDeadlineExceeded
  else WasmEngineError (msg +:+ ": " +:+ ce_debug e).

Definition call (f : string) (wrap : CallError → BurregoError) inst (args : list Z) :
    HM (result Z BurregoError) :=
  let! r := in_engine (call_guest inst f args) in
  m_ret (map_err wrap r).

Definition pull_json inst (addr : Z) : HM (result Value BurregoError) :=
  let!? raw_addr := call "opa_json_dump"
    (λ e, WasmEngineError ("cannot invoke opa_json_dump function: " +:+ ce_debug e)) inst [addr] in
  let!? data := read_string inst raw_addr in
  m_ret (map_err (JSONError "cannot convert data read from memory into utf8 String")
    (value_from_slice (of_bytes data))).

Definition push_json_raw inst (data : bytes) : HM (result Z BurregoError) :=
  if bool_decide (2 ^ 31 ≤ blen data)%Z
  then m_ret (Err (RegoWasmError "push_json: cannot convert size to json"))
  else
    let!? raw_addr := call "opa_malloc"
      (λ e, WasmEngineError ("push_json: cannot invoke opa_malloc function: " +:+ ce_debug e))
      inst [blen data] in
    if bool_decide (raw_addr < 0)%Z then panic else
    let! written := in_engine (memory_write inst raw_addr data) in
    match written with
    | Err e => m_ret (Err (WasmEngineError ("push_json: cannot write to memory: " +:+ e)))
    | Ok _ =>
        let!? addr := call "opa_json_parse"
          (λ e, RegoWasmError ("Cannot get memory address: " +:+ ce_debug e))
          inst [raw_addr; blen data] in
        m_ret (if decide (addr = 0%Z) then Err (RegoWasmError "Failed to load json in memory")
               else Ok addr)
    end.

Definition push_json inst (value : Value) : HM (result Z BurregoError) :=
  match value_to_vec value with
  | Err e => m_ret (Err (JSONError "push_json" e))
  | Ok data => push_json_raw inst (as_bytes data)
  end.

(** A dictionary from names to numbers, as [builtins] and [entrypoints] return. *)
Definition pull_dictionary (what : string) (convert : Z → option Z) inst (addr : Z) :
    HM (result (list (string * Z)) BurregoError) :=
  let!? v := pull_json inst addr in
  match v with
  | JObject fields =>
      lift_panic (Ok <$> mapM (λ kv, id ← as_i64 kv.2; n ← convert id; Some (kv.1, n)) fields)
  | _ => m_ret (Err (RegoWasmError ("OPA " +:+ what +:+ " didn't return a dictionary")))
  end.

(** [as i32] and [i32::try_from(..).unwrap()] *)
Definition as_i32 (z : Z) : option Z := Some (i32_wrap z).
Definition try_i32 (z : Z) : option Z :=
  if bool_decide (- 2 ^ 31 ≤ z < 2 ^ 31)%Z then Some z else None.

(** Exports looked up in order; the first one missing is the error. *)
Definition get_functions inst (names : list (string * string)) : HM (result unit BurregoError) :=
  mr_fold (λ _ n,
    let! r := reads (get_typed_func inst n.1) in
    m_ret (map_err (λ e, RegoWasmError (n.2 +:+ ": " +:+ e)) r)) tt names.

(** [StackHelper::new] *)
Definition StackHelper_new inst : HM (result (list (string * Z)) BurregoError) :=
  let!? _ := get_functions inst
    [("opa_json_dump", "cannot access opa_json_dump function");
     ("opa_malloc", "Cannot access opa_malloc function");
     ("opa_json_parse", "Cannot access opa_json_parse function");
     ("builtins", "cannot access builtins function")] in
  let!? addr := call "builtins"
    (λ e, WasmEngineError ("cannot invoke builtins function: " +:+ ce_debug e)) inst [] in
  pull_dictionary "builtins" as_i32 inst addr.

(** ** [Policy] *)

Record Policy := { data_addr : Z; base_heap_ptr : Z; data_heap_ptr : Z }.

Definition policy_functions : list (string * string) :=
  (λ f, (f, "cannot get " +:+ f +:+ " function")) <$>
  ["builtins"; "entrypoints"; "opa_heap_ptr_get"; "opa_heap_ptr_set"; "opa_eval_ctx_new";
   "opa_eval_ctx_set_input"; "opa_eval_ctx_set_data"; "opa_eval_ctx_set_entrypoint";
   "opa_eval_ctx_get_result"; "opa_json_dump"; "opa_malloc"; "opa_json_parse"; "eval"].

(** A call whose errors go through [map_call_error!]. *)
Definition invoke (f shown : string) inst (args : list Z) : HM (result Z BurregoError) :=
  call f (map_call_error ("error invoking " +:+ shown +:+ " function")) inst args.

Definition Policy_new inst : HM (result Policy BurregoError) :=
  let!? _ := get_functions inst policy_functions in
  let!? data_addr := push_json inst (JObject []) in
  let!? base := invoke "opa_heap_ptr_get" "opa_heap_ptr_get" inst [] in
  m_ret (Ok {| data_addr := data_addr; base_heap_ptr := base; data_heap_ptr := base |}).

Definition Policy_builtins inst : HM (result (list (string * Z)) BurregoError) :=
  let!? addr := invoke "builtins" "builtins" inst [] in
  pull_dictionary "builtins" as_i32 inst addr.

Definition Policy_entrypoints inst : HM (result (list (string * Z)) BurregoError) :=
  let!? addr := invoke "entrypoints" "entrypoints" inst [] in
  pull_dictionary "entrypoints" try_i32 inst addr.

(** [set_data]: a failure leaves the addresses set so far. *)
Definition Policy_set_data (p : Policy) inst (data : bytes) :
    HM (Policy * result unit BurregoError) :=
  let! r := invoke "opa_heap_ptr_set" "opa_heap_ptr_set" inst [base_heap_ptr p] in
  match r with
  | Err e => m_ret (p, Err e)
  | Ok _ =>
      let! r := push_json_raw inst data in
      match r with
      | Err e => m_ret (p, Err e)
      | Ok addr =>
          let! r := invoke "opa_heap_ptr_get" "opa_heap_ptr_get" inst [] in
          m_ret match r with
          | Err e => ({| data_addr := addr; base_heap_ptr := base_heap_ptr p;
                         data_heap_ptr := data_heap_ptr p |}, Err e)
          | Ok ptr => ({| data_addr := addr; base_heap_ptr := base_heap_ptr p;
                          data_heap_ptr := ptr |}, Ok tt)
          end
      end
  end.

Definition Policy_evaluate (p : Policy) inst (entrypoint_id : Z) (input : Value) :
    HM (result Value BurregoError) :=
  let!? _ := invoke "opa_heap_ptr_set" "opa_heap_ptr_set" inst [data_heap_ptr p] in
  let!? input_addr := push_json inst input in
  let!? ctx_addr := invoke "opa_eval_ctx_new" "opa_eval_ctx_new" inst [] in
  let!? _ := invoke "opa_eval_ctx_set_input" "opa_eval_ctx_set_input" inst [ctx_addr; input_addr] in
  let!? _ := invoke "opa_eval_ctx_set_data" "opa_eval_ctx_set_data" inst [ctx_addr; data_addr p] in
  let!? _ := invoke "opa_eval_ctx_set_entrypoint" "opa_eval_ctx_set_entrypoint" inst
    [ctx_addr; entrypoint_id] in
  let!? _ := invoke "eval" "opa_eval" inst [ctx_addr] in
  let!? res_addr := invoke "opa_eval_ctx_get_result" "opa_eval_ctx_get_result" inst [ctx_addr] in
  pull_json inst res_addr.

(** ** [Evaluator] *)

Record Evaluator := {
  ev_module : RegoModule;
  ev_instance : RegoInstance;
  ev_policy : Policy;
  ev_epoch_deadline : option N;
  ev_resource_limits : option RegoResourceLimits;
  ev_entrypoints : gmap string Z;
  ev_used_builtins : gset string;
}.

(** [set_epoch_deadline_and_call_guest!] *)
Definition with_deadline {A} (deadline : option N) inst (code : HM A) : HM A :=
  let! _ := in_engine (λ w, (tt, match deadline with
                                  | Some d => set_epoch_deadline inst d w
                                  | None => w
                                  end)) in
  code.

(** [Evaluator::setup]; the names of the builtins go to the host functions. *)
Definition setup (module : RegoModule) (epoch_deadline : option N)
    (resource_limits : option RegoResourceLimits) :
    HM (result (RegoInstance * Policy) BurregoError) :=
  let! mem := in_engine (memory_new module (store_limits resource_limits)) in
  match mem with
  | Err e => m_ret (Err (WasmEngineError ("cannot create memory: " +:+ e)))
  | Ok inst =>
      let!? _ := in_engine (linker_define inst) in
      let! r := in_engine (linker_instantiate inst epoch_deadline) in
      match r with
      | Err e => m_ret (Err (WasmEngineError ("linker cannot create instance: " +:+ e)))
      | Ok _ =>
          let!? _ := StackHelper_new inst in
          let!? policy := Policy_new inst in
          m_ret (Ok (inst, policy))
      end
  end.

Definition implemented_builtins : list string :=
  ["trace"; "base64url.encode_no_pad"; "urlquery.encode"; "urlquery.decode";
   "urlquery.encode_object"; "urlquery.decode_object"; "json.is_valid"; "yaml.marshal";
   "yaml.unmarshal"; "yaml.is_valid"; "hex.encode"; "hex.decode"; "glob.quote_meta";
   "json.patch"; "regex.split"; "regex.template_match"; "regex.find_n"; "semver.is_valid";
   "semver.compare"; "sprintf"; "time.now_ns"; "parse_rfc3339_ns"; "date"].

Definition not_implemented_builtins (used : gset string) : gset string :=
  used ∖ list_to_set implemented_builtins.

Definition from_engine_and_module (module : RegoModule) (epoch_deadline : option N)
    (resource_limits : option RegoResourceLimits) : HM (result Evaluator BurregoError) :=
  let!? stack := setup module epoch_deadline resource_limits in
  let '(inst, policy) := stack in
  let!? builtins := with_deadline epoch_deadline inst (Policy_builtins inst) in
  let!? entrypoints := with_deadline epoch_deadline inst (Policy_entrypoints inst) in
  let used := list_to_set builtins.*1 in
  let missing := not_implemented_builtins used in
  m_ret (if decide (missing = ∅) then
           Ok {| ev_module := module; ev_instance := inst; ev_policy := policy;
                 ev_epoch_deadline := epoch_deadline; ev_resource_limits := resource_limits;
                 ev_entrypoints := list_to_map entrypoints; ev_used_builtins := used |}
         else Err (MissingRegoBuiltins (join ", " (hash_keys (gset_to_gmap tt missing))))).

Definition set_stack (e : Evaluator) (inst : RegoInstance) (policy : Policy) : Evaluator :=
  {| ev_module := ev_module e; ev_instance := inst; ev_policy := policy;
     ev_epoch_deadline := ev_epoch_deadline e; ev_resource_limits := ev_resource_limits e;
     ev_entrypoints := ev_entrypoints e; ev_used_builtins := ev_used_builtins e |}.

(** [Evaluator::reset] *)
Definition Evaluator_reset (e : Evaluator) : HM (Evaluator * result unit BurregoError) :=
  let! r := setup (ev_module e) (ev_epoch_deadline e) (ev_resource_limits e) in
  m_ret match r with
  | Ok (inst, policy) => (set_stack e inst policy, Ok tt)
  | Err err => (e, Err err)
  end.

Definition has_entrypoint (e : Evaluator) (entrypoint_id : Z) : bool :=
  existsb (λ kv, bool_decide (kv.2 = entrypoint_id)) (hash_iter (ev_entrypoints e)).

(** [{:?}] of a [HashMap<String, i32>] *)
Definition debug_entrypoints (m : gmap string Z) : string :=
  "{" +:+ join ", " ((λ kv, debug_str kv.1 +:+ ": " +:+ pretty kv.2) <$> hash_iter m) +:+ "}".

(** [Evaluator::entrypoint_id] *)
Definition entrypoint_id (e : Evaluator) (entrypoint : string) : result Z BurregoError :=
  match find (λ kv, bool_decide (kv.1 = entrypoint)) (hash_iter (ev_entrypoints e)) with
  | Some kv => Ok kv.2
  | None => Err (RegoWasmError ("Cannot find the specified entrypoint " +:+ entrypoint +:+
      " inside of " +:+ debug_entrypoints (ev_entrypoints e)))
  end.

(** [Evaluator::evaluate] *)
Definition Evaluator_evaluate (e : Evaluator) (entrypoint_id : Z) (input : Value) (data : bytes) :
    HM (Evaluator * result Value BurregoError) :=
  with_deadline (ev_epoch_deadline e) (ev_instance e)
    (if has_entrypoint e entrypoint_id then
       let! r := Policy_set_data (ev_policy e) (ev_instance e) data in
       let '(policy, set) := r in
       let e := set_stack e (ev_instance e) policy in
       match set with
       | Err err => m_ret (e, Err err)
       | Ok _ =>
           let! r := Policy_evaluate policy (ev_instance e) entrypoint_id input in
           m_ret (e, r)
       end
     else
       m_ret (e, Err (RegoWasmError ("Cannot find the specified entrypoint " +:+
         pretty entrypoint_id +:+ " inside of " +:+ debug_entrypoints (ev_entrypoints e))))).

(** ** [EvaluatorBuilder] *)

Record EvaluatorBuilder := {
  eb_policy_path : option string;
  eb_module : option RegoModule;
  eb_engine : option RegoEngine;
  eb_epoch_deadline : option N;
  eb_resource_limits : option RegoResourceLimits;
  eb_host_callbacks : bool;
}.

Definition EvaluatorBuilder_validate (b : EvaluatorBuilder) : result unit BurregoError :=
  match eb_policy_path b, eb_module b with
  | Some _, Some _ =>
      Err (EvaluatorBuilderError "policy_path and module cannot be set at the same time")
  | None, None => Err (EvaluatorBuilderError "Either policy_path or module must be set")
  | _, _ =>
      if eb_host_callbacks b then Ok tt
      else Err (EvaluatorBuilderError "host_callbacks must be set")
  end.

Definition EvaluatorBuilder_build (b : EvaluatorBuilder) : HM (result Evaluator BurregoError) :=
  let!? _ := m_ret (EvaluatorBuilder_validate b) in
  let!? engine :=
    match eb_engine b with
    | Some e => m_ret (Ok e)
    | None =>
        let! r := in_engine (engine_new (bool_decide (is_Some (eb_epoch_deadline b)))) in
        m_ret (map_err (λ e, WasmEngineError ("cannot create wasmtime Engine: " +:+ e)) r)
    end in
  let!? module :=
    match eb_module b, eb_policy_path b with
    | Some m, _ => m_ret (Ok m)
    | None, Some path =>
        let! r := in_engine (module_from_file engine path) in
        m_ret (map_err (λ e, WasmEngineError ("cannot create wasmtime Module: " +:+ e)) r)
    | None, None => panic
    end in
  from_engine_and_module module (eb_epoch_deadline b) (eb_resource_limits b).
End burrego.

(** ** Properties *)

(** The bytes before the first NUL. *)
Fixpoint until_nul (memory : bytes) : option bytes :=
  match memory with
  | [] => None
  | c :: memory => if decide (c = nul) then Some [] else (c ::.) <$> until_nul memory
  end.

Lemma read_loop_spec fuel oob memory addr data :
  (0 ≤ addr)%Z → (Z.of_nat (length memory) ≤ 2 ^ 31 - 1)%Z → 0 < fuel →
  length memory < Z.to_nat addr + fuel →
  read_loop fuel oob memory addr data =
    Some match until_nul (drop (Z.to_nat addr) memory) with
         | Some s => Ok (data ++ s)
         | None => Err (WasmEngineError ("cannot read from memory: " +:+ oob))
         end.
Proof.
  revert addr data. induction fuel as [|fuel IH]; intros addr data Haddr Hlen Hpos Hfuel; simpl; [lia|].
  rw bool_decide_eq_false_2; [|lia].
  case_match eqn:Hc.
  - rename select ascii into c. rw (drop_S memory c _ Hc) /=. case_decide; [by rw app_nil_r|].
    assert (Z.to_nat addr < length memory) by by eapply lookup_lt_Some.
    rw i32_wrap_small; [|rw /i32_range; lia]. rw IH; [|lia..].
    replace (Z.to_nat (addr + 1)) with (S (Z.to_nat addr)) by lia.
    destruct (until_nul _); simpl; [|done]. by rw -app_assoc.
  - apply lookup_ge_None in Hc. by rw drop_ge.
Qed.

Section burrego_properties.
Context `{SD : SdkTypes, HI : HashIter} {W : Type} `{RW : !RegoWasm W}.
Implicit Types (inst : RegoInstance) (w : HostWorld W).

(** Reading a string of the guest: at an address inside a memory below
    2 GiB the host gets exactly the bytes before the next NUL, or an error if there
    is none; at a negative address, which the guest is free to return, the host
    panics. *)
Theorem read_string_spec inst addr w :
  (Z.of_nat (length (memory_data inst (engine w))) ≤ 2 ^ 31 - 1)%Z →
  read_string inst addr w =
    if bool_decide (addr < 0)%Z then None
    else Some (match until_nul (drop (Z.to_nat addr) (memory_data inst (engine w))) with
               | Some s => Ok s
               | None => Err (WasmEngineError ("cannot read from memory: " +:+ memory_access_error))
               end, w).
Proof.
  intros Hlen. rw /read_string /reads /m_bind /in_engine /lift_panic.
  case_bool_decide.
  - simpl. by rw bool_decide_eq_true_2.
  - rw read_loop_spec; [|lia..]. destruct w. by destruct (until_nul _).
Qed.

Lemma call_quiet f wrap inst args : quiet (call f wrap inst args).
Proof. rw /call. host_steps. Qed.
#[local] Hint Resolve call_quiet : host.

Lemma invoke_quiet f shown inst args : quiet (invoke f shown inst args).
Proof. apply call_quiet. Qed.
#[local] Hint Resolve invoke_quiet : host.

Lemma reads_quiet {A} (f : W → A) : quiet (W := W) (reads f).
Proof. apply quiet_in_engine. Qed.

Lemma lift_panic_quiet {A} (o : option A) : quiet (W := W) (lift_panic o).
Proof. rw /lift_panic. host_steps. Qed.
#[local] Hint Resolve reads_quiet lift_panic_quiet : host.

Lemma pull_json_quiet inst addr : quiet (pull_json inst addr).
Proof. rw /pull_json /read_string. host_steps. Qed.

Lemma push_json_raw_quiet inst data : quiet (push_json_raw inst data).
Proof. rw /push_json_raw. host_steps. Qed.
#[local] Hint Resolve pull_json_quiet push_json_raw_quiet : host.

Lemma push_json_quiet inst v : quiet (push_json inst v).
Proof. rw /push_json. host_steps. Qed.

Lemma pull_dictionary_quiet what convert inst addr :
  quiet (pull_dictionary what convert inst addr).
Proof. rw /pull_dictionary. host_steps. Qed.

Lemma get_functions_quiet inst names : quiet (get_functions inst names).
Proof. rw /get_functions. host_steps. Qed.
#[local] Hint Resolve push_json_quiet pull_dictionary_quiet get_functions_quiet : host.

Lemma setup_quiet module deadline limits : quiet (setup module deadline limits).
Proof. rw /setup /StackHelper_new /Policy_new. host_steps. Qed.
#[local] Hint Resolve setup_quiet : host.

Lemma with_deadline_quiet {A} d inst (code : M (HostWorld W) A) :
  quiet code → quiet (with_deadline d inst code).
Proof. intros. rw /with_deadline. host_steps. Qed.

(** Building, resetting and running a Rego policy never reaches the callback
    channel: its context is gathered before. *)
Lemma EvaluatorBuilder_build_quiet b : quiet (EvaluatorBuilder_build b).
Proof.
  rw /EvaluatorBuilder_build /from_engine_and_module /Policy_builtins /Policy_entrypoints.
  host_steps; apply with_deadline_quiet; host_steps.
Qed.

Lemma Evaluator_reset_quiet e : quiet (Evaluator_reset e).
Proof. rw /Evaluator_reset. host_steps. Qed.

Lemma Evaluator_evaluate_quiet e id input data : quiet (Evaluator_evaluate e id input data).
Proof.
  rw /Evaluator_evaluate /Policy_set_data /Policy_evaluate. apply with_deadline_quiet. host_steps.
Qed.

(** A policy that runs only uses builtins that exist. *)
Lemma from_engine_and_module_builtins module deadline limits w e w' :
  from_engine_and_module module deadline limits w = Some (Ok e, w') →
  ∀ b, b ∈ ev_used_builtins e → b ∈ implemented_builtins.
Proof.
  intros ([inst policy] & w1 & _ & (builtins & w2 & _ & (eps & w3 & _ & Hret)%mr_bind_Ok)%mr_bind_Ok)%mr_bind_Ok.
  rw /m_ret /= in Hret. destruct (decide _) as [Hm|]; [|done]. injection Hret as <- _. simpl. intros b Hb.
  apply dec_stable. intros Hn. apply (not_elem_of_empty (C := gset string) b). rw -Hm.
  rw /not_implemented_builtins elem_of_difference. split; [done|]. by rw elem_of_list_to_set.
Qed.
(** [evaluate] never refuses an identifier that was looked up by name. *)
Lemma entrypoint_id_known e entrypoint id :
  entrypoint_id e entrypoint = Ok id → ev_entrypoints e !! entrypoint = Some id ∧ has_entrypoint e id = true.
Proof.
  rw /entrypoint_id. destruct (find _ _) as [[k v]|] eqn:Hf; [|done]. intros [= <-].
  apply find_some in Hf as [Hin Hk%bool_decide_eq_true]. simpl in *. subst k. split.
  - by apply elem_of_hash_iter, list_elem_of_In.
  - apply existsb_exists. exists (entrypoint, v). by rewrite bool_decide_true.
Qed.

End burrego_properties.
