(* ===== verification/OpaBuiltins.v ===== *)
(** * The builtins of the Rego host

    Models [crates/burrego/src/builtins/] ([debugging.rs], [encoding.rs], [glob.rs],
    [json.rs], [regex.rs], [semver.rs], [strings.rs], [time.rs], [mod.rs] and
    [builtins_helper.rs]) and the host functions of [opa_host_functions.rs] that a
    compiled Rego policy imports.

    A builtin takes the arguments as JSON values and answers with a value, an error,
    or a panic of the host ([None]). The crates [regex], [semver], [url],
    [serde_yaml], [json_patch], [gtmpl], [chrono] and [base64] are the parameter
    [BuiltinLibs]; converting a string, a boolean, a number or a list of
    strings to JSON cannot fail. *)

From S2P Require Import Prelude Bytes RustStr Json HostCapabilities Callback HostWorld WasiStack.
From S2P Require Import RegoInventory Burrego.

(** [gtmpl::Value], as built from JSON. *)
Inductive GtmplValue :=
| GNil
| GBool (b : bool)
| GNumber (n : Z)
| GString (s : string)
| GArray (l : list GtmplValue)
| GMap (m : list (string * GtmplValue)).

Class BuiltinLibs := {
  Regex : Type;
  (** Errors are in their [Debug] form. *)
  regex_new : string → result Regex string;
  regex_split : Regex → string → list string;
  regex_find_iter : Regex → string → list string;
  regex_is_match : Regex → string → bool;
  regex_escape : string → string;
  Version : Type;
  version_parse : string → result Version string;
  version_cmp : Version → Version → comparison;
  (** [Url::query] after [set_query(Some(_))] on [https://example.com/], and the
      [query_pairs] of that URL. *)
  set_query : string → option string;
  query_pairs : string → list (string * string);
  base64url_encode : string → string;
  json_from_str : string → result Value string;
  YamlValue : Type;
  yaml_of_json : Value → result YamlValue string;
  yaml_to_string : YamlValue → result string string;
  yaml_from_str : string → result Value string;
  yaml_value_from_str : string → result YamlValue string;
  (** [json_patch]: the patches of an array, and their application. *)
  JsonPatch : Type;
  decode_patches : Value → option JsonPatch;
  json_patch_apply : Value → JsonPatch → result Value string;
  gtmpl_template : string → list GtmplValue → result string string;
  debug_gtmpl : list GtmplValue → string;
  (** [chrono]: an instant is a number of nanoseconds since the epoch. *)
  DateTime : Type;
  parse_from_rfc3339 : string → result DateTime string;
  timestamp_nanos_opt : DateTime → option Z;
  epoch_plus_nanos : Z → option DateTime;
  Tz : Type;
  tz_from_str : string → result Tz string;
  tz_utc : Tz;
  tz_local : Tz;
  ymd : DateTime → Tz → Z * Z * Z;
}.

(** ** Arguments and results *)

Definition Answer : Type := option (result Value BurregoError).
Definition Builtin : Type := list Value → Answer.

Definition builtin_error {A} (name message : string) : result A BurregoError :=
  Err (BuiltinError name message).

Definition str_arg (name message : string) (v : Value) : result string BurregoError :=
  ok_or (value_as_str v) (BuiltinError name message).

(** [serde_json::to_value] of an [Option<i64>] *)
Definition nanos_to_value (n : option Z) : Value :=
  match n with Some n => JNumber (pretty n) | None => JNull end.

Section builtins.
Context `{BL : BuiltinLibs}.

(** ** [debugging.rs] *)
Definition trace : Builtin := λ args, Some
  match args with
  | [a] =>
      let? _ := str_arg "trace" "1st parameter is not a string" a in
      Ok JNull
  | _ => builtin_error "trace" "Wrong number of arguments"
  end.

(** ** [glob.rs] *)
Definition glob_meta (c : ascii) : bool :=
  bool_decide (c ∈ ["*"; "?"; "\"; "["; "]"; "{"; "}"]%char).

(** [escape]; the escaped characters are ASCII, so characters are bytes here. *)
Fixpoint escape (s : string) : string :=
  match s with
  | "" => ""
  | String c s =>
      if glob_meta c then String "\" (String c (escape s)) else String c (escape s)
  end.

Definition quote_meta : Builtin := λ args, Some
  match args with
  | [a] =>
      let? input := str_arg "glob.quote_meta" "1st parameter is not a string" a in
      Ok (JString (escape input))
  | _ => builtin_error "glob.quote_meta" "wrong number of arguments"
  end.

(** ** [json.rs] *)

(** [from_str(..).unwrap()] panics on an array that is not a list of patches. *)
Definition json_patch : Builtin := λ args,
  match args with
  | [JObject fs as obj; JArray _ as patches] =>
      match decode_patches patches with
      | None => None
      | Some p => Some (map_err (λ e, BuiltinError "json.patch" ("cannot apply patch: " +:+ e))
                          (json_patch_apply obj p))
      end
  | [JObject _; _] => Some (builtin_error "json.patch" "2nd parameter is not an array")
  | [_; _] => Some (builtin_error "json.patch" "1st parameter is not an object")
  | _ => Some (builtin_error "json.patch" "wrong number of arguments")
  end.

(** ** [semver.rs] *)
Definition semver_is_valid : Builtin := λ args, Some
  match args with
  | [a] =>
      let? input := str_arg "semver.is_valid" "1st parameter is not a string" a in
      Ok (JBool (is_ok (version_parse input)))
  | _ => builtin_error "semver.is_valid" "wrong number of arguments"
  end.

Definition ordering_to_value (c : comparison) : Value :=
  JNumber match c with Lt => "-1" | Eq => "0" | Gt => "1" end.

Definition semver_compare : Builtin := λ args, Some
  match args with
  | [a; b] =>
      let? version_a := str_arg "semver.compare" "1st parameter is not a string" a in
      let? version_b := str_arg "semver.compare" "2nd parameter is not a string" b in
      let? version_a := map_err (λ e, BuiltinError "semver.compare"
        ("first argument is not a valid semantic version: " +:+ e)) (version_parse version_a) in
      let? version_b := map_err (λ e, BuiltinError "semver.compare"
        ("second argument is not a valid semantic version: " +:+ e)) (version_parse version_b) in
      Ok (ordering_to_value (version_cmp version_a version_b))
  | _ => builtin_error "semver.compare" "wrong number of arguments"
  end.

(** ** [strings.rs] *)

(** [GoTmplValue::from]: [as_i64().unwrap()] panics on a number that is not an
    [i64]. *)
Fixpoint to_gtmpl (v : Value) : option GtmplValue :=
  match v with
  | JNull => Some GNil
  | JBool b => Some (GBool b)
  | JNumber n => GNumber <$> as_i64 (JNumber n)
  | JString s => Some (GString s)
  | JArray l => GArray <$> mapM to_gtmpl l
  | JObject fs => GMap <$> mapM (λ kv, (kv.1,.) <$> to_gtmpl kv.2) fs
  end.

Definition sprintf_template (fmt_str : string) (n : nat) : string :=
  "{{ printf " +:+ dquote +:+ fmt_str +:+ dquote +:+ " " +:+
  join " " ((λ i, "(index . " +:+ pretty i +:+ ")") <$> seq 0 n) +:+ "}}".

Definition sprintf : Builtin := λ args,
  match args with
  | [a; b] =>
      match a with
      | JString fmt_str =>
          match b with
          | JArray l =>
              fmt_args ← mapM to_gtmpl l;
              let template_str := sprintf_template fmt_str (length fmt_args) in
              Some (map_err (λ e, BuiltinError "sprintf"
                      ("Cannot render go template '" +:+ template_str +:+ "' with args " +:+
                       debug_gtmpl fmt_args +:+ ": " +:+ e))
                    (let? res := gtmpl_template template_str fmt_args in Ok (JString res)))
          | _ => Some (builtin_error "sprintf" "2nd parameter is not an array")
          end
      | _ => Some (builtin_error "sprintf" "1st parameter is not a string")
      end
  | _ => Some (builtin_error "sprintf" "Wrong number of arguments given")
  end.

(** ** [regex.rs] *)
Definition compile (name pattern_str : string) : result Regex BurregoError :=
  map_err (λ e, BuiltinError name ("cannot build regex from the given pattern string '" +:+
    pattern_str +:+ "': " +:+ e)) (regex_new pattern_str).

(** The pieces are collected into one string. *)
Definition regex_split_builtin : Builtin := λ args, Some
  match args with
  | [a; b] =>
      let? pattern_str := str_arg "regex.split" "1st parameter is not a string" a in
      let? string_str := str_arg "regex.split" "2nd parameter is not a string" b in
      let? re := compile "regex.split" pattern_str in
      Ok (JString (join "" (regex_split re string_str)))
  | _ => builtin_error "regex.split" "Wrong number of arguments given"
  end.

Record Expression := { is_regexp : bool; expression : string }.

Definition Expression_to_string (e : Expression) : string :=
  if is_regexp e then expression e else regex_escape (expression e).

Definition ExpressionList_to_string (l : list Expression) : string :=
  join "" (Expression_to_string <$> l).

(** The state of the loop of [regexp_from_template]; [delimiters_open] is an [i32]. *)
Record TemplateState := {
  expressions : list Expression;
  current_expression : Expression;
  delimiters_open : Z;
}.

Definition push_current (st : TemplateState) : list Expression :=
  if decide (expression (current_expression st) = "") then expressions st
  else expressions st ++ [current_expression st].

(** Closes the current expression and starts another. *)
Definition start_expression (regexp : bool) (opened : Z) (st : TemplateState) : TemplateState :=
  {| expressions := push_current st;
     current_expression := {| is_regexp := regexp; expression := "" |};
     delimiters_open := opened |}.

Definition set_open (opened : Z) (st : TemplateState) : TemplateState :=
  {| expressions := expressions st; current_expression := current_expression st;
     delimiters_open := opened |}.

Definition push_char (c : ascii) (st : TemplateState) : TemplateState :=
  {| expressions := expressions st;
     current_expression :=
       {| is_regexp := is_regexp (current_expression st);
          expression := expression (current_expression st) +:+ String c "" |};
     delimiters_open := delimiters_open st |}.

Definition template_step (delimiter_start delimiter_end : ascii) (st : TemplateState) (c : ascii) :
    TemplateState :=
  if decide (c = delimiter_start) then
    let opened := i32_wrap (delimiters_open st + 1) in
    if decide (opened = 1%Z) then start_expression true opened st else set_open opened st
  else if decide (c = delimiter_end) then
    let opened := i32_wrap (delimiters_open st - 1) in
    if decide (opened = 0%Z) then start_expression false opened st else set_open opened st
  else push_char c st.

Definition template_start : TemplateState :=
  {| expressions := []; current_expression := {| is_regexp := false; expression := "" |};
     delimiters_open := 0 |}.

(** The expressions of a template. The delimiters are ASCII characters, so the loop
    over characters is one over bytes. *)
Definition template_expressions (template : string) (delimiter_start delimiter_end : ascii) :
    list Expression :=
  push_current
    (foldl (template_step delimiter_start delimiter_end) template_start (as_bytes template)).

Definition regexp_from_template (template : string) (delimiter_start delimiter_end : ascii) :
    result Regex BurregoError :=
  map_err (λ e, BuiltinError "regex"
      ("tried to initialize an invalid regular expression: " +:+ e))
    (regex_new (ExpressionList_to_string
       (template_expressions template delimiter_start delimiter_end))).

(** A delimiter is a string of one byte. *)
Definition delimiter_arg (nth : string) (v : Value) : result ascii BurregoError :=
  let? s := str_arg "regex.template_match" (nth +:+ " parameter is not a string") v in
  match s with
  | String c "" => Ok c
  | _ => builtin_error "regex.template_match"
           (nth +:+ " parameter has to be exactly one character long")
  end.

Definition template_match : Builtin := λ args, Some
  match args with
  | [a; b; c; d] =>
      let? pattern_str := str_arg "regex.template_match" "1st parameter is not a string" a in
      let? string_str := str_arg "regex.template_match" "2nd parameter is not a string" b in
      let? delimiter_start := delimiter_arg "3rd" c in
      let? delimiter_end := delimiter_arg "4th" d in
      let? computed_regexp := regexp_from_template pattern_str delimiter_start delimiter_end in
      Ok (JBool (regex_is_match computed_regexp string_str))
  | _ => builtin_error "regex.template_match" "Wrong number of arguments given"
  end.

(** [take_number as usize], and [Iterator::take] *)
Definition i64_as_usize (z : Z) : Z := (z `mod` 2 ^ 64)%Z.

Definition take_n {A} (n : Z) (l : list A) : list A :=
  if bool_decide (Z.of_nat (length l) ≤ n)%Z then l else take (Z.to_nat n) l.

Definition find_n : Builtin := λ args, Some
  match args with
  | [a; b; c] =>
      let? pattern_str := str_arg "regex.find_n" "1st parameter is not a string" a in
      let? string_str := str_arg "regex.find_n" "2nd parameter is not a string" b in
      let? take_number := ok_or (as_i64 c) (BuiltinError "regex.find_n"
        "3rd parameter is not a number") in
      let? n :=
        if decide (take_number = (-1)%Z) then
          let? re := compile "regex.find_n" pattern_str in
          Ok (Z.of_nat (length (regex_find_iter re string_str)))
        else Ok (i64_as_usize take_number) in
      let? re := compile "regex.find_n" pattern_str in
      Ok (JArray (JString <$> take_n n (regex_find_iter re string_str)))
  | _ => builtin_error "regex.find_n" "Wrong number of arguments given to "
  end.

(** ** [encoding.rs] *)
Definition encode_no_pad : Builtin := λ args, Some
  match args with
  | [a] =>
      let? input := str_arg "base64url.encode_no_pad" "1st parameter is not a string" a in
      Ok (JString (base64url_encode input))
  | _ => builtin_error "base64url.encode_no_pad" "wrong number of arguments"
  end.

Definition urlquery_encode : Builtin := λ args, Some
  match args with
  | [a] =>
      let? input := str_arg "urlquery.encode" "1st parameter is not a string" a in
      let? res := ok_or (set_query ("input=" +:+ input))
        (BuiltinError "urlquery.encode" "internal error 2") in
      let? res := ok_or (strip_prefix res "input=")
        (BuiltinError "urlquery.encode" "internal error 3") in
      Ok (JString res)
  | _ => builtin_error "urlquery.encode" "wrong number of arguments"
  end.

Definition urlquery_decode : Builtin := λ args, Some
  match args with
  | [a] =>
      let? input := str_arg "urlquery.decode" "1st parameter is not a string" a in
      match query_pairs ("input=" +:+ input) with
      | [(_, value)] => Ok (JString value)
      | _ => builtin_error "urlquery.decode" "internal error 2"
      end
  | _ => builtin_error "urlquery.decode" "wrong number of arguments"
  end.

Definition query_of_field (kv : string * Value) : result string BurregoError :=
  match value_as_str kv.2 with
  | Some v => Ok (kv.1 +:+ "=" +:+ v)
  | None => builtin_error "urlquery.encode_object"
              ("the value of key " +:+ kv.1 +:+ " is not a string")
  end.

Definition encode_object : Builtin := λ args, Some
  match args with
  | [JObject fs] =>
      let? queries := try_fold (λ qs kv, let? q := query_of_field kv in Ok (qs ++ [q])) [] fs in
      let? res := ok_or (set_query (join "&" queries))
        (BuiltinError "urlquery.encode_object" "internal error 2") in
      Ok (JString res)
  | [_] => builtin_error "urlquery.encode_object" "1st parameter is not an object"
  | _ => builtin_error "urlquery.encode_object" "wrong number of arguments"
  end.

Definition decode_object : Builtin := λ args, Some
  match args with
  | [a] =>
      let? input := str_arg "urlquery.decode" "1st parameter is not a string" a in
      let res := foldl (λ m kv, <[kv.1 := kv.2]> m) (∅ : gmap string string) (query_pairs input) in
      Ok (btree_to_value JString res)
  | _ => builtin_error "urlquery.decode_object" "wrong number of arguments"
  end.

Definition json_is_valid : Builtin := λ args, Some
  match args with
  | [a] =>
      let? input := str_arg "json.is_valid" "1st parameter is not a string" a in
      Ok (JBool (is_ok (json_from_str input)))
  | _ => builtin_error "json.is_valid" "wrong number of arguments"
  end.

Definition yaml_marshal : Builtin := λ args, Some
  match args with
  | [input] =>
      let? value := map_err (λ e, BuiltinError "yaml.marshal"
        (" cannot convert input object to yaml - " +:+ e)) (yaml_of_json input) in
      let? res := map_err (λ e, BuiltinError "yaml.marshal" ("marshal error - " +:+ e))
        (yaml_to_string value) in
      Ok (JString res)
  | _ => builtin_error "yaml.marshal" "wrong number of arguments"
  end.

Definition yaml_unmarshal : Builtin := λ args, Some
  match args with
  | [a] =>
      let? input := str_arg "yaml.unmarshal" "1st parameter is not a string" a in
      map_err (λ e, BuiltinError "yaml.unmarshal" ("cannot convert input object to json - " +:+ e))
        (yaml_from_str input)
  | _ => builtin_error "yaml.unmarshal" "wrong number of arguments"
  end.

Definition yaml_is_valid : Builtin := λ args, Some
  match args with
  | [a] =>
      let? input := str_arg "yaml.is_valid" "parameter is not a string" a in
      Ok (JBool (is_ok (yaml_value_from_str input)))
  | _ => builtin_error "yaml.is_valid" "wrong number of arguments"
  end.

(** [{v:x?}] of a byte: as many digits as it needs. *)
Definition hex_byte (c : ascii) : string :=
  let n := Ascii.N_of_ascii c in
  if (n <? 16)%N then String (hex_digit n) ""
  else String (hex_digit (n / 16)) (String (hex_digit (n `mod` 16)) "").

Definition hex_string (s : string) : string := join "" (hex_byte <$> as_bytes s).

Definition hex_encode : Builtin := λ args, Some
  match args with
  | [a] =>
      let? input := str_arg "hex.encode" "1st parameter is not a string" a in
      Ok (JString (hex_string input))
  | _ => builtin_error "hex.encode" "wrong number of arguments"
  end.

(** [char::to_digit(16)] *)
Definition to_digit16 (c : ascii) : option N :=
  let n := Ascii.N_of_ascii c in
  if (48 <=? n)%N && (n <=? 57)%N then Some (n - 48)%N
  else if (97 <=? n)%N && (n <=? 102)%N then Some (n - 87)%N
  else if (65 <=? n)%N && (n <=? 70)%N then Some (n - 55)%N
  else None.

(** [u8::from_str_radix] of two bytes, in base 16: a leading plus sign is skipped,
    and two digits cannot overflow. *)
Definition u8_from_hex (c0 c1 : ascii) : option ascii :=
  if decide (c0 = "+"%char) then Ascii.ascii_of_N <$> to_digit16 c1
  else h ← to_digit16 c0; l ← to_digit16 c1; Some (Ascii.ascii_of_N (16 * h + l)%N).

Definition INVALID_DIGIT : string := "ParseIntError { kind: InvalidDigit }".

(** The slices [input[i..i + 2]], which panic past the end and inside a character;
    collecting stops at the first error. *)
Fixpoint hex_bytes (input : bytes) : option (result bytes string) :=
  match input with
  | [] => Some (Ok [])
  | [_] => None
  | c0 :: c1 :: rest =>
      if match rest with c :: _ => continuation c | [] => false end then None else
      match u8_from_hex c0 c1 with
      | None => Some (Err INVALID_DIGIT)
      | Some c =>
          match hex_bytes rest with
          | Some (Ok l) => Some (Ok (c :: l))
          | r => r
          end
      end
  end.

Definition hex_decode : Builtin := λ args,
  match args with
  | [JString input] =>
      value ← hex_bytes (as_bytes input);
      Some (
        let? value := map_err (λ e, BuiltinError "hex.decode" ("cannot parse input - " +:+ e))
          value in
        let? res := map_err (λ e, BuiltinError "hex.decode"
          ("cannot parse string - " +:+ debug_from_utf8_error value e)) (from_utf8 value) in
        Ok (JString res))
  | [_] => Some (builtin_error "hex.decode" "1st parameter is not a string")
  | _ => Some (builtin_error "hex.decode" "wrong number of arguments")
  end.

(** ** [time.rs] *)

(** The clock is read when the builtin runs. *)
Definition now_ns (now : DateTime) : Builtin := λ args, Some
  match args with
  | [] => Ok (nanos_to_value (timestamp_nanos_opt now))
  | _ => builtin_error "time.now_ns" "wrong number of arguments given"
  end.

Definition parse_rfc3339_ns : Builtin := λ args, Some
  match args with
  | [a] =>
      let? value := str_arg "time.parse_rfc3339_ns" "1st parameter is not a string" a in
      let? dt := map_err (λ e, BuiltinError "time.parse_rfc3339_ns"
        (": cannot convert " +:+ value +:+ ": " +:+ e)) (parse_from_rfc3339 value) in
      Ok (nanos_to_value (timestamp_nanos_opt dt))
  | _ => builtin_error "time.parse_rfc3339_ns" "wrong number of arguments given"
  end.

Definition date_in (ns : Z) (timezone : Tz) : result Value BurregoError :=
  let? dt := ok_or (epoch_plus_nanos ns) (BuiltinError "time.date" "overflow when building date") in
  let '(y, m, d) := ymd dt timezone in
  Ok (JArray [JNumber (pretty y); JNumber (pretty m); JNumber (pretty d)]).

Definition date_local (ns : Z) : result Value BurregoError := date_in ns tz_local.

Definition date : Builtin := λ args, Some
  match args with
  | [JNumber n] =>
      let? nanoseconds := ok_or (as_i64 (JNumber n))
        (BuiltinError "time.date" "1st parameter is not a number") in
      date_in nanoseconds tz_utc
  | [JArray [a; b]] =>
      let? nanoseconds := ok_or (as_i64 a)
        (BuiltinError "time.date" "1st array item is not a number") in
      let? tz_name := str_arg "time.date" "2nd array item is not a string" b in
      if decide (tz_name = "Local") then date_local nanoseconds else
      let? timezone := map_err (λ e, BuiltinError "time.date"
        ("cannot handle given timezone " +:+ tz_name +:+ ": " +:+ e)) (tz_from_str tz_name) in
      date_in nanoseconds timezone
  | [JArray _] => builtin_error "time.date" "wrong number of items inside of input array"
  | [_] => builtin_error "time.date" "the 1st parameter is neither a number nor an array"
  | _ => builtin_error "time.date" "wrong number of arguments given"
  end.

(** ** [mod.rs] and [builtins_helper.rs] *)
Definition get_builtins (now : DateTime) : list (string * Builtin) :=
  [("trace", trace);
   ("base64url.encode_no_pad", encode_no_pad);
   ("urlquery.encode", urlquery_encode);
   ("urlquery.decode", urlquery_decode);
   ("urlquery.encode_object", encode_object);
   ("urlquery.decode_object", decode_object);
   ("json.is_valid", json_is_valid);
   ("yaml.marshal", yaml_marshal);
   ("yaml.unmarshal", yaml_unmarshal);
   ("yaml.is_valid", yaml_is_valid);
   ("hex.encode", hex_encode);
   ("hex.decode", hex_decode);
   ("glob.quote_meta", quote_meta);
   ("json.patch", json_patch);
   ("regex.split", regex_split_builtin);
   ("regex.template_match", template_match);
   ("regex.find_n", find_n);
   ("semver.is_valid", semver_is_valid);
   ("semver.compare", semver_compare);
   ("sprintf", sprintf);
   ("time.now_ns", now_ns now);
   ("parse_rfc3339_ns", parse_rfc3339_ns);
   ("date", date)].

Definition invoke_builtin (now : DateTime) (builtin_name : string) : Builtin := λ args,
  match field_get (get_builtins now) builtin_name with
  | Some builtin_fn => builtin_fn args
  | None => Some (Err (BuiltinNotImplementedError builtin_name))
  end.

(** ** [opa_host_functions.rs] *)
Section host_functions.
Context `{SD : SdkTypes} {W : Type} `{RW : !RegoWasm W} (now : W → DateTime).
(** Whether the guest exports [memory], and whether that is a memory. *)
Context (memory_export : RegoInstance → W → option bool).
Implicit Types (inst : RegoInstance) (builtins : gmap Z string).

Notation HM := (M (HostWorld W)).

Definition get_memory inst : HM (result unit BurregoError) :=
  let! e := reads (memory_export inst) in
  m_ret match e with
  | None => Err (RegoWasmError "cannot find 'memory' export")
  | Some false => Err (RegoWasmError "'memory' export cannot be converted into a memory object")
  | Some true => Ok tt
  end.

(** The prefix of the error of each arity, as it is spelled. *)
Definition builtin_label (arity : nat) : string :=
  match arity with 1 => "opa_bunltin1" | n => "opa_builtin" +:+ pretty n end.

(** The common part of the five host functions: the function of an identifier applied to the
    values at the given addresses; the result is written back to the guest. *)
Definition opa_builtin builtins inst (builtin_id : Z) (addrs : list Z) :
    HM (result Z BurregoError) :=
  match builtins !! builtin_id with
  | None => m_ret (Err (BuiltinNotImplementedError
      (builtin_label (length addrs) +:+ ": cannot find builtin " +:+ pretty builtin_id)))
  | Some builtin_name =>
      let!? _ := get_memory inst in
      let!? args := mr_fold (λ args addr,
        let!? p := pull_json inst addr in m_ret (Ok (args ++ [p]))) [] addrs in
      let! now := reads now in
      let!? builtin_result := lift_panic (invoke_builtin now builtin_name args) in
      push_json inst builtin_result
  end.

Definition opa_builtin0 builtins inst builtin_id := opa_builtin builtins inst builtin_id [].
Definition opa_builtin1 builtins inst builtin_id p1 := opa_builtin builtins inst builtin_id [p1].
Definition opa_builtin2 builtins inst builtin_id p1 p2 :=
  opa_builtin builtins inst builtin_id [p1; p2].
Definition opa_builtin3 builtins inst builtin_id p1 p2 p3 :=
  opa_builtin builtins inst builtin_id [p1; p2; p3].
Definition opa_builtin4 builtins inst builtin_id p1 p2 p3 p4 :=
  opa_builtin builtins inst builtin_id [p1; p2; p3; p4].

(** [opa_abort] and [opa_println]: the message handed to the host callback. The
    call returns to the guest in both cases: aborting does not stop it. *)
Definition opa_message (name : string) inst (addr : Z) : HM (result string BurregoError) :=
  let!? _ := get_memory inst in
  let! r := read_string inst addr in
  m_ret (Ok match r with
  | Err e => "cannot decode " +:+ name +:+ " message: " +:+ BurregoError_debug e
  | Ok data =>
      match from_utf8 data with
      | Ok msg => msg
      | Err e => "cannot decode " +:+ name +:+
          " message: didn't read a valid string from memory - " +:+ debug_from_utf8_error data e
      end
  end).

Definition opa_abort inst (addr : Z) : HM (result string BurregoError) :=
  opa_message "opa_abort" inst addr.
Definition opa_println inst (addr : Z) : HM (result string BurregoError) :=
  opa_message "opa_println" inst addr.

(** The table of a [StackHelper]: the names of the guest, by identifier. *)
Definition builtins_by_id (l : list (string * Z)) : gmap Z string :=
  foldl (λ m ni, <[ni.2 := ni.1]> m) ∅ l.
End host_functions.
End builtins.

(** ** Properties *)

(** A pattern without active metacharacters, read as the text it matches. *)
Fixpoint glob_literal (pattern : string) : option string :=
  match pattern with
  | "" => Some ""
  | String c rest =>
      if decide (c = "\"%char) then
        match rest with
        | "" => None
        | String d rest => String d <$> glob_literal rest
        end
      else if glob_meta c then None else String c <$> glob_literal rest
  end.

(** [glob.quote_meta] quotes every character a glob interprets: the pattern it
    returns is literal, and matches exactly the text it was given. *)
Theorem quote_meta_literal s :
  quote_meta [JString s] = Some (Ok (JString (escape s))) ∧ glob_literal (escape s) = Some s.
Proof.
  split; [done|]. induction s as [|c s IH]; [done|]. simpl.
  destruct (glob_meta c) eqn:Hc.
  - simpl. by rw IH.
  - simpl. rw decide_False.
    + by rw Hc IH.
    + by intros ->.
Qed.

(** *** Hexadecimal strings *)

Definition two_digits (c : ascii) : Prop := (16 ≤ Ascii.N_of_ascii c)%N.

#[export] Instance two_digits_dec c : Decision (two_digits c).
Proof. rw /two_digits. apply _. Defined.

Lemma hex_byte_two c :
  two_digits c → ∃ h l, hex_byte c = String h (String l "") ∧ u8_from_hex h l = Some c ∧
    continuation h = false.
Proof.
  rw /two_digits /hex_byte. intros Hc. rw (proj2 (N.ltb_ge _ _) Hc).
  eexists _, _. split; [done|]. revert Hc.
  destruct c as [[] [] [] [] [] [] [] []]; vm_compute; intros Hc;
    first [by destruct Hc | done].
Qed.

Lemma hex_byte_length c :
  String.length (hex_byte c) ≤ 2 ∧ (¬ two_digits c → String.length (hex_byte c) = 1).
Proof.
  rw /two_digits /hex_byte. destruct (_ <? 16)%N eqn:Hc; simpl; [lia|].
  apply N.ltb_ge in Hc. split; [lia|]. done.
Qed.

(** Induction on a list two elements at a time. *)
Lemma pairs_ind {A} (P : list A → Prop) :
  P [] → (∀ x, P [x]) → (∀ x y l, P l → P (x :: y :: l)) → ∀ l, P l.
Proof.
  intros H0 H1 H2. fix IH 1. intros [|x [|y l]]; [done|done|]. apply H2, IH.
Qed.

Lemma hex_bytes_length b l : hex_bytes b = Some (Ok l) → length b = 2 * length l.
Proof.
  revert l. induction b as [|x|x y b IH] using pairs_ind; intros l; simpl.
  - by intros [= <-].
  - done.
  - destruct (match b with c :: _ => continuation c | [] => false end); [done|].
    destruct (u8_from_hex x y); [|done].
    destruct (hex_bytes b) as [[l'|e]|] eqn:Hb; [|done|done].
    intros [= <-]. simpl. rw (IH l'); [lia|done].
Qed.

Lemma as_bytes_length s : length (as_bytes s) = String.length s.
Proof. induction s as [|c s IH]; [done|]. simpl. by f_equal. Qed.

Lemma hex_string_cons c s : hex_string (String c s) = hex_byte c +:+ hex_string s.
Proof.
  rw /hex_string /=. destruct (as_bytes s) as [|d l] eqn:Hs; simpl.
  - by rw str_app_nil_r.
  - done.
Qed.

Lemma hex_string_length s :
  String.length (hex_string s) ≤ 2 * String.length s ∧
  (¬ Forall two_digits (as_bytes s) → String.length (hex_string s) < 2 * String.length s).
Proof.
  induction s as [|c s [IH1 IH2]]; [by split; [|intros []]|].
  rw hex_string_cons str_length_app /=. destruct (hex_byte_length c) as [Hc1 Hc2].
  split; [lia|]. intros Hn.
  destruct (decide (two_digits c)) as [Hc|Hc]; last (specialize (Hc2 Hc); lia).
  assert (¬ Forall two_digits (as_bytes s)) as Hs by (intros Hs; apply Hn; by constructor).
  specialize (IH2 Hs). lia.
Qed.

Lemma hex_string_head s :
  Forall two_digits (as_bytes s) →
  match as_bytes (hex_string s) with c :: _ => continuation c | [] => false end = false.
Proof.
  destruct s as [|c s]; [done|]. intros [Hc _]%Forall_cons. rw hex_string_cons as_bytes_app.
  by destruct (hex_byte_two c Hc) as (h & l & -> & _ & Hh).
Qed.

Lemma hex_bytes_string s :
  Forall two_digits (as_bytes s) → hex_bytes (as_bytes (hex_string s)) = Some (Ok (as_bytes s)).
Proof.
  induction s as [|c s IH]; [done|]. intros [Hc Hs]%Forall_cons.
  rw hex_string_cons as_bytes_app. destruct (hex_byte_two c Hc) as (h & l & -> & Hhl & _).
  simpl. rw hex_string_head // Hhl IH //.
Qed.

(** [hex.decode] undoes [hex.encode] exactly on the strings whose bytes all need two
    digits: [hex.encode] prints a byte below 16 with one digit. *)
Theorem hex_round_trip s :
  from_utf8 (as_bytes s) = Ok s →
  hex_encode [JString s] = Some (Ok (JString (hex_string s))) ∧
  (hex_decode [JString (hex_string s)] = Some (Ok (JString s)) ↔
   Forall two_digits (as_bytes s)).
Proof.
  intros Hs. split; [done|]. simpl. split.
  - destruct (hex_bytes _) as [[b|e]|] eqn:Hb; simpl; [|done|done].
    destruct (from_utf8 b) as [t|e] eqn:Ht; simpl; [|done]. intros [= ->].
    apply from_utf8_Ok in Ht. apply hex_bytes_length in Hb. rewrite -Ht in Hb.
    destruct (hex_string_length s) as [_ Hlt].
    apply dec_stable. intros Hn. specialize (Hlt Hn).
    rewrite !as_bytes_length in Hb. lia.
  - intros H. rw hex_bytes_string //=. by rw Hs.
Qed.

(** *** Templates of regular expressions *)

Definition render_expression (delimiter_start delimiter_end : ascii) (e : Expression) : bytes :=
  if is_regexp e then delimiter_start :: as_bytes (expression e) ++ [delimiter_end]
  else as_bytes (expression e).

(** A template in the shape it is meant to have: non-empty expressions without
    delimiters, and no two literals in a row. *)
Definition plain_expression (delimiter_start delimiter_end : ascii) (e : Expression) : Prop :=
  expression e ≠ "" ∧ delimiter_start ∉ as_bytes (expression e) ∧
  delimiter_end ∉ as_bytes (expression e).

Fixpoint alternating (l : list Expression) : Prop :=
  match l with
  | e1 :: (e2 :: _) as l => (is_regexp e1 ∨ is_regexp e2) ∧ alternating l
  | _ => True
  end.

Section templates.
Context (a b : ascii).
Implicit Types (st : TemplateState) (e : Expression).

Definition extend st (s : string) : TemplateState :=
  {| expressions := expressions st;
     current_expression :=
       {| is_regexp := is_regexp (current_expression st);
          expression := expression (current_expression st) +:+ s |};
     delimiters_open := delimiters_open st |}.

Lemma template_text st (s : string) :
  a ∉ as_bytes s → b ∉ as_bytes s →
  foldl (template_step a b) st (as_bytes s) = extend st s.
Proof.
  revert st. induction s as [|c s IH]; intros st Ha Hb; simpl.
  - destruct st as [es [r t] o]. rw /extend /=. by rw str_app_nil_r.
  - simpl in Ha, Hb. apply not_elem_of_cons in Ha as [Hac Ha]. apply not_elem_of_cons in Hb as [Hbc Hb].
    rw /template_step !decide_False //. rw IH //. rw /extend /push_char /=.
    by rw str_app_assoc.
Qed.

Definition literal_state (done : list Expression) (t : string) : TemplateState :=
  {| expressions := done; current_expression := {| is_regexp := false; expression := t |};
     delimiters_open := 0 |}.

Lemma template_regexp done t s :
  a ≠ b → plain_expression a b {| is_regexp := true; expression := s |} →
  foldl (template_step a b) (literal_state done t) (a :: as_bytes s ++ [b]) =
  literal_state (push_current (literal_state done t) ++ [{| is_regexp := true; expression := s |}]) "".
Proof.
  intros Hab (Hs & Ha & Hb). simpl. rw {2}/template_step decide_True //.
  rw foldl_app template_text //= /template_step decide_False // decide_True //.
  rw /start_expression /extend /= /push_current /=. rw decide_False //.
Qed.

Lemma template_fold done t l :
  a ≠ b → Forall (plain_expression a b) l → alternating l →
  (t ≠ "" → match l with e :: _ => is_regexp e | [] => True end) →
  push_current (foldl (template_step a b) (literal_state done t)
    (concat (render_expression a b <$> l))) =
  push_current (literal_state done t) ++ l.
Proof.
  intros Hab. revert done t. induction l as [|[r s] l IH]; intros done t Hp Halt Ht.
  { by rw app_nil_r. }
  apply Forall_cons in Hp as [He Hp]. rewrite fmap_cons concat_cons foldl_app.
  assert (alternating l) as Hl by (destruct l; [done|apply Halt]).
  destruct r.
  - rewrite (template_regexp done t s Hab He) IH //.
    rw {1}/push_current /=. by rewrite -app_assoc.
  - destruct (decide (t = "")) as [->|Hne]; last by destruct (Ht Hne).
    destruct He as (Hs & Ha & Hb).
    rewrite /render_expression /= template_text //.
    change (extend (literal_state done "") s) with (literal_state done s).
    rewrite IH //.
    + rw /push_current /=. rw decide_False //. by rewrite -app_assoc.
    + intros _. destruct l as [|e l]; [done|]. by destruct Halt as [[]].
Qed.
End templates.

(** A template of [regex.template_match] is read back as the expressions it was
    written from: the text between delimiters is taken as a regular expression, the
    rest is escaped. *)
Theorem template_round_trip (a b : ascii) (l : list Expression) :
  a ≠ b → Forall (plain_expression a b) l → alternating l →
  template_expressions (of_bytes (concat (render_expression a b <$> l))) a b = l.
Proof.
  intros Hab Hp Halt. rw /template_expressions as_bytes_of_bytes.
  change template_start with (literal_state [] "").
  by rewrite (template_fold a b [] "" l).
Qed.

(** *** Panics *)

(** A value with a number that is not an [i64]. *)
Fixpoint non_i64 (v : Value) : bool :=
  match v with
  | JNumber n => negb (bool_decide (is_Some (as_i64 (JNumber n))))
  | JArray l => existsb non_i64 l
  | JObject fs => existsb (λ kv, non_i64 kv.2) fs
  | _ => false
  end.

Lemma to_gtmpl_Some v : is_Some (to_gtmpl v) ↔ non_i64 v = false.
Proof.
  induction v as [| |n| |l IH|fs IH] using Value_ind'; cbn [to_gtmpl non_i64].
  - naive_solver.
  - naive_solver.
  - rw fmap_is_Some negb_false_iff bool_decide_eq_true. done.
  - naive_solver.
  - rw fmap_is_Some mapM_is_Some existsb_false.
    rewrite -> Forall_forall in IH. rewrite !Forall_forall.
    split; intros H x Hx; by apply IH, H.
  - rw fmap_is_Some mapM_is_Some existsb_false.
    rewrite -> Forall_forall in IH. rewrite !Forall_forall.
    split; intros H x Hx.
    + apply IH; [done|]. by destruct (proj1 (fmap_is_Some _ _) (H x Hx)) as [y Hy]; exists y.
    + apply fmap_is_Some. by apply IH, H.
Qed.

(** Where the slices of [hex.decode] go wrong: a last byte alone, or a pair that ends
    inside a character. *)
Definition hex_stuck (b : bytes) : Prop :=
  match b with
  | [_] => True
  | _ :: _ :: c :: _ => continuation c
  | _ => False
  end.

Fixpoint hex_pairs (b : bytes) : bool :=
  match b with
  | [] => true
  | c0 :: c1 :: rest => bool_decide (is_Some (u8_from_hex c0 c1)) && hex_pairs rest
  | _ => false
  end.

Lemma hex_bytes_None b :
  hex_bytes b = None ↔ ∃ pre suf, b = pre ++ suf ∧ hex_pairs pre ∧ hex_stuck suf.
Proof.
  split.
  - induction b as [|x|x y b IH] using pairs_ind; simpl; [done|by exists [], [x]|].
    destruct b as [|c b]; [by destruct (u8_from_hex x y)|].
    destruct (continuation c) eqn:Hc.
    { intros _. exists [], (x :: y :: c :: b). by rw /= Hc. }
    destruct (u8_from_hex x y) eqn:Hu; [|done].
    destruct (hex_bytes (c :: b)) as [[l|e]|]; [done|done|]. intros _.
    destruct (IH eq_refl) as (pre & suf & -> & Hpre & Hsuf).
    exists (x :: y :: pre), suf. rw /= Hu. by rewrite bool_decide_eq_true_2.
  - intros (pre & suf & -> & Hpre & Hsuf). revert Hpre.
    induction pre as [|x|x y pre IH] using pairs_ind; simpl; [|done|].
    + intros _. destruct suf as [|x [|y [|c suf]]]; [done|done|done|].
      simpl in Hsuf |- *. by destruct (continuation c).
    + intros [Hu%bool_decide_unpack Hpre]%andb_True. destruct Hu as [c ->].
      destruct (match pre ++ suf with c :: _ => continuation c | [] => false end); [done|].
      by rw IH.
Qed.

Lemma sprintf_None `{BL : BuiltinLibs} args :
  sprintf args = None ↔ ∃ f l, args = [JString f; JArray l] ∧ existsb non_i64 l.
Proof.
  split.
  - destruct args as [|[] [|[] [|]]]; simpl; try done.
    destruct (mapM to_gtmpl l) eqn:Hl; [done|]. intros _. eexists _, _. split; [done|].
    destruct (existsb non_i64 l) eqn:Hn; [done|]. apply existsb_false in Hn.
    assert (is_Some (mapM to_gtmpl l)) as [? ?]; [|congruence].
    apply mapM_is_Some. eapply Forall_impl; [done|]. intros v. by apply to_gtmpl_Some.
  - intros (f & l & -> & Hl). simpl. destruct (mapM to_gtmpl l) eqn:Hm; [|done]. exfalso.
    assert (is_Some (mapM to_gtmpl l)) as Hs by eauto. apply mapM_is_Some in Hs.
    assert (existsb non_i64 l = false) as Hf; [|by rewrite Hf in Hl].
    apply existsb_false. eapply Forall_impl; [done|]. intros v. by apply to_gtmpl_Some.
Qed.

Lemma hex_decode_None args :
  hex_decode args = None ↔ ∃ s pre suf, args = [JString s] ∧ as_bytes s = pre ++ suf ∧
    hex_pairs pre ∧ hex_stuck suf.
Proof.
  split.
  - destruct args as [|[] [|]]; simpl; try done.
    destruct (hex_bytes (as_bytes s)) eqn:Hs; [done|]. intros _.
    apply hex_bytes_None in Hs as (pre & suf & Hs & Hp). by exists s, pre, suf.
  - intros (s & pre & suf & -> & Hs & Hp). simpl.
    assert (hex_bytes (as_bytes s) = None) as ->; [|done]. apply hex_bytes_None. eauto.
Qed.

Lemma json_patch_None `{BL : BuiltinLibs} args :
  json_patch args = None ↔ ∃ fs l, args = [JObject fs; JArray l] ∧ decode_patches (JArray l) = None.
Proof.
  split.
  - destruct args as [|[] [|[] [|]]]; simpl; try done.
    destruct (decode_patches _) eqn:Hd; [done|]. eauto.
  - intros (fs & l & -> & Hd). simpl. by rw Hd.
Qed.

(** C37. The calls of a builtin that make the host panic: [hex.decode] on a string that
    has a byte left over or splits a character after well-formed pairs, [json.patch]
    on an array that is not a list of patches, and [sprintf] with a number that is
    not an [i64]. Every other call, of any name and with any arguments, answers with a
    value or an error. *)
Theorem builtin_panics_iff `{BL : BuiltinLibs} now name args :
  invoke_builtin now name args = None ↔
    (name = "hex.decode" ∧ ∃ s pre suf, args = [JString s] ∧ as_bytes s = pre ++ suf ∧
      hex_pairs pre ∧ hex_stuck suf) ∨
    (name = "json.patch" ∧ ∃ fs l, args = [JObject fs; JArray l] ∧
      decode_patches (JArray l) = None) ∨
    (name = "sprintf" ∧ ∃ f l, args = [JString f; JArray l] ∧ existsb non_i64 l).
Proof.
  rewrite -hex_decode_None -json_patch_None -sprintf_None /invoke_builtin.
  destruct (field_get (get_builtins now) name) as [f|] eqn:Hf.
  - apply field_get_Some_elem in Hf. rewrite /get_builtins in Hf.
    repeat (apply elem_of_cons in Hf as [[= -> ->]|Hf];
      [split; [try done; naive_solver|intros [[? ?]|[[? ?]|[? ?]]]; done]|]).
    by apply elem_of_nil in Hf.
  - split; [done|]. by intros [[-> _]|[[-> _]|[-> _]]].
Qed.

(** The names a policy may use are those that are dispatched. *)
Lemma builtin_names `{BL : BuiltinLibs} now : (get_builtins now).*1 = implemented_builtins.
Proof. done. Qed.

Lemma implemented_builtins_dispatch `{BL : BuiltinLibs} now name :
  name ∈ implemented_builtins → is_Some (field_get (get_builtins now) name).
Proof.
  rewrite -(builtin_names now). intros ([n f] & -> & Hin)%list_elem_of_fmap. exists f.
  apply field_get_elem; [|done]. rewrite builtin_names.
  apply (bool_decide_unpack _). vm_compute. exact I.
Qed.

Section host_functions_lemmas.
Context `{BL : BuiltinLibs, SD : SdkTypes, HI : HashIter} {W : Type} `{RW : !RegoWasm W}.
Context (now : W → DateTime) (memory_export : RegoInstance → W → option bool).

(** A builtin of a loaded policy is never refused for its name. *)
Lemma loaded_builtins_dispatch module deadline limits w e w' t name args :
  from_engine_and_module module deadline limits w = Some (Ok e, w') →
  name ∈ ev_used_builtins e →
  ∃ f, invoke_builtin t name args = f args ∧ field_get (get_builtins t) name = Some f.
Proof.
  intros He Hn. eapply from_engine_and_module_builtins in He; [|done].
  destruct (implemented_builtins_dispatch t name He) as [f Hf]. exists f.
  by rw /invoke_builtin Hf.
Qed.

(** The host functions a policy imports put nothing on the callback channel and
    leave the inventory cache alone. *)
Lemma get_memory_quiet inst : quiet (get_memory memory_export inst).
Proof. rw /get_memory. apply quiet_bind; [apply reads_quiet|]. intros []; host_steps. Qed.

Lemma opa_builtin_quiet builtins inst id addrs :
  quiet (opa_builtin now memory_export builtins inst id addrs).
Proof.
  rw /opa_builtin. destruct (builtins !! id); [|host_steps].
  apply quiet_mr_bind; [apply get_memory_quiet|intros _].
  apply quiet_mr_bind.
  { apply quiet_mr_fold. intros l a. apply quiet_mr_bind; [apply pull_json_quiet|host_steps]. }
  intros args. apply quiet_bind; [apply reads_quiet|]. intros t.
  apply quiet_mr_bind; [apply lift_panic_quiet|]. intros v. apply push_json_quiet.
Qed.
End host_functions_lemmas.

(** ** Witnesses *)

Lemma hex_round_trip_witness :
  hex_decode [JString (hex_string "hello")] = Some (Ok (JString "hello")).
Proof.
  apply (hex_round_trip "hello"); [reflexivity|].
  apply (bool_decide_unpack _). vm_compute. exact I.
Defined.

(** A newline is printed with one digit, and the host panics on what is printed. *)
Example hex_newline_panics : hex_decode [JString (hex_string (String "010"%char ""))] = None.
Proof. reflexivity. Qed.

Lemma template_round_trip_witness :
  template_expressions "urn:<[0-9]{2}>:x" "<" ">" =
    [{| is_regexp := false; expression := "urn:" |}; {| is_regexp := true; expression := "[0-9]{2}" |};
     {| is_regexp := false; expression := ":x" |}].
Proof.
  refine (template_round_trip "<" ">"
    [{| is_regexp := false; expression := "urn:" |}; {| is_regexp := true; expression := "[0-9]{2}" |};
     {| is_regexp := false; expression := ":x" |}] _ _ _).
  - done.
  - repeat constructor; simpl; try discriminate;
      apply (bool_decide_unpack _); vm_compute; exact I.
  - simpl. auto.
Defined.
