(* ===== verification/Rego.v ===== *)
(** * The Rego runtime

    Models [crates/policy-evaluator/src/runtimes/rego/]: [context_aware.rs] (what is
    asked of the cluster for a policy), [gatekeeper_inventory_cache.rs] (the cache
    shared by the Gatekeeper policies of the process), [stack_pre.rs], [stack.rs] and
    [runtime.rs] (validation of a request by an OPA or a Gatekeeper policy). The
    evaluation itself is [Burrego], the documents are those of [RegoInventory].

    The clock and the decoders of the answers are the parameter [RegoCodec]. *)

From S2P Require Import Prelude Bytes RustStr Json HostCapabilities AdmissionResponse Request.
From S2P Require Import Callback HostWorld WasiPipes WasiStack Wapc RegoInventory Burrego.

Class RegoCodec (W : Type) := {
  (** [tokio::time::Instant::now] *)
  instant_now : W → Instant * W;
  (** [serde_json] at the types of the answers. *)
  decode_bool : string → result bool string;
  decode_admission_response : Value → result AdmissionResponse string;
  (** [Violations]: the message of each violation. *)
  decode_violations : Value → result (list (option string)) string;
}.

(** ** Context ([context_aware.rs]) *)

Section rego.
Context `{SD : SdkTypes, HI : HashIter, CC : !CallbackCodec, JC : !JsonCodec, KL : !KubeLib}.
Context {W : Type} `{RW : !RegoWasm W, RC : !RegoCodec W}.
Implicit Types (chan : Channel) (resources : gset ContextAwareResource).

Notation HM := (M (HostWorld W)).
Notation Rego A := (M (HostWorld W) (result A RegoRuntimeError)).

Inductive KubernetesContext :=
| KCEmpty
| KCOpa (inventory : OpaInv.OpaInventory)
| KCGatekeeper (data : string).

Definition make_request_via_callback_channel (req : CallbackRequestType) chan :
    Rego CallbackResponse :=
  perform match chan req with
  | SendError e => ([], Err (CallbackSend e))
  | RecvError => ([req], Err (CallbackResponseError "channel closed"))
  | Reply (Ok response) => ([req], Ok response)
  | Reply (Err e) => ([req], Err (CallbackRequestError e))
  end.

Definition list_request (r : ContextAwareResource) : CallbackRequestType :=
  KubernetesListResourceAll (car_api_version r) (car_kind r) None None None.

Definition changed_request (r : ContextAwareResource) (since : Instant) : CallbackRequestType :=
  HasKubernetesListResourceAllResultChangedSinceInstant (car_api_version r) (car_kind r)
    None None None since.

Definition plural_request (r : ContextAwareResource) : CallbackRequestType :=
  KubernetesGetResourcePluralName (car_api_version r) (car_kind r).

Definition get_all_resources_by_type chan (r : ContextAwareResource) : Rego (list DynamicObject) :=
  let!? response := make_request_via_callback_channel (list_request r) chan in
  m_ret (map_err CallbackConvertList (decode_object_list (payload response))).

Definition get_allowed_resources chan resources :
    Rego (gmap ContextAwareResource (list DynamicObject)) :=
  mr_fold (λ kube r,
    let!? objs := get_all_resources_by_type chan r in m_ret (Ok (<[r := objs]> kube)))
    ∅ (resource_set_iter resources).

Definition has_resource_changed_since chan (r : ContextAwareResource) (since : Instant) :
    Rego bool :=
  let!? response := make_request_via_callback_channel (changed_request r since) chan in
  m_ret (map_err CallbackConvertBool (decode_bool (payload response))).

Fixpoint any_changed_since chan (l : list ContextAwareResource) (since : Instant) : Rego bool :=
  match l with
  | [] => m_ret (Ok false)
  | r :: l =>
      let!? changed := has_resource_changed_since chan r since in
      if changed : bool then m_ret (Ok true) else any_changed_since chan l since
  end.

Definition have_allowed_resources_changed_since_instant chan resources (since : Instant) :
    Rego bool :=
  any_changed_since chan (resource_set_iter resources) since.

Definition get_plural_names chan resources : Rego (gmap ContextAwareResource string) :=
  mr_fold (λ names r,
    let!? response := make_request_via_callback_channel (plural_request r) chan in
    let!? plural_name := m_ret (map_err CallbackGetPluralName (decode_string (payload response))) in
    m_ret (Ok (<[r := plural_name]> names)))
    ∅ (resource_set_iter resources).

(** ** The cache ([gatekeeper_inventory_cache.rs]) *)

Definition create_and_register_inventory resources chan : Rego CachedInventory :=
  let! now := in_engine instant_now in
  let!? cluster_resources := get_allowed_resources chan resources in
  let!? inventory := m_ret (Gatekeeper.new cluster_resources) in
  let!? data := m_ret (map_err GatekeeperInventorySerializationError
    (json_to_string (Gatekeeper.GatekeeperInput_to_value inventory))) in
  let cached_inventory := {| ci_data := data; ci_cache_time := now |} in
  let! _ := put_cache resources cached_inventory in
  m_ret (Ok cached_inventory).

Definition get_inventory chan resources : Rego string :=
  let! cache := get_cache in
  let!? inventory :=
    match cache !! resources with
    | None => create_and_register_inventory resources chan
    | Some cached_inventory =>
        let!? changed := have_allowed_resources_changed_since_instant chan resources
          (ci_cache_time cached_inventory) in
        if changed : bool then create_and_register_inventory resources chan
        else m_ret (Ok cached_inventory)
    end in
  m_ret (Ok (ci_data inventory)).

(** ** [StackPre] and [Stack] *)

Record RegoStackPre := {
  rsp_engine : RegoEngine;
  rsp_module : RegoModule;
  rsp_entrypoint_id : Z;
  rsp_policy_execution_mode : RegoPolicyExecutionMode;
  rsp_resource_limits : option RegoResourceLimits;
}.

Definition rego_stack_pre_rehydrate (pre : RegoStackPre) (epoch_deadline : option N) :
    Rego Evaluator :=
  let! r := EvaluatorBuilder_build
    {| eb_policy_path := None; eb_module := Some (rsp_module pre);
       eb_engine := Some (rsp_engine pre); eb_epoch_deadline := epoch_deadline;
       eb_resource_limits := rsp_resource_limits pre; eb_host_callbacks := true |} in
  m_ret (map_err (λ e, RegoEngineBuilder (BurregoError_to_string e)) r).

Record RegoStack := {
  rs_evaluator : Evaluator;
  rs_entrypoint_id : Z;
  rs_policy_execution_mode : RegoPolicyExecutionMode;
}.

Definition RegoStack_new_from_pre (pre : RegoStackPre) (ctx : EvaluationContext) : Rego RegoStack :=
  let! r := rego_stack_pre_rehydrate pre (epoch_deadline ctx) in
  m_ret match r with
  | Ok evaluator =>
      Ok {| rs_evaluator := evaluator; rs_entrypoint_id := rsp_entrypoint_id pre;
            rs_policy_execution_mode := rsp_policy_execution_mode pre |}
  | Err e => Err (EvaluatorError (RegoRuntimeError_to_string e))
  end.

Definition build_kubernetes_context (st : RegoStack) (chan : option Channel) resources :
    Rego KubernetesContext :=
  if decide (resources = ∅) then m_ret (Ok KCEmpty) else
  match chan with
  | None => m_ret (Err CallbackChannelNotSet)
  | Some chan =>
      match rs_policy_execution_mode st with
      | RegoOpa =>
          let!? cluster_resources := get_allowed_resources chan resources in
          let!? plural_names := get_plural_names chan resources in
          let!? inventory := m_ret (OpaInv.new cluster_resources plural_names) in
          m_ret (Ok (KCOpa inventory))
      | RegoGatekeeper =>
          let!? cached_inventory := get_inventory chan resources in
          m_ret (Ok (KCGatekeeper cached_inventory))
      end
  end.

(** ** [Runtime] *)

Definition set_evaluator (st : RegoStack) (e : Evaluator) : RegoStack :=
  {| rs_evaluator := e; rs_entrypoint_id := rs_entrypoint_id st;
     rs_policy_execution_mode := rs_policy_execution_mode st |}.

Definition evaluate (st : RegoStack) (input : Value) (data_raw : string) :
    HM (RegoStack * result Value BurregoError) :=
  let! r := Evaluator_evaluate (rs_evaluator st) (rs_entrypoint_id st) input (as_bytes data_raw) in
  m_ret (set_evaluator st r.1, r.2).

(** The data of an OPA policy: its settings, with the context at [kubernetes]. *)
Definition opa_data (settings : PolicySettings) (ctx_data : KubernetesContext) : Value :=
  match ctx_data with
  | KCOpa ctx => JObject (field_insert "kubernetes" (OpaInv.OpaInventory_to_value ctx) settings)
  | _ => JObject settings
  end.

Definition evaluate_opa (st : RegoStack) (settings : PolicySettings) (request : ValidateRequest)
    (ctx_data : KubernetesContext) : HM (RegoStack * result Value BurregoError) :=
  let input := JObject [("request", request_to_value request)] in
  match json_to_string (opa_data settings ctx_data) with
  | Err e => m_ret (st, Err (JSONError "cannot convert OPA data to JSON" e))
  | Ok data_raw => evaluate st input data_raw
  end.

(** [unreachable!()] is a panic. *)
Definition evaluate_gatekeeper (st : RegoStack) (settings : PolicySettings)
    (request : AdmissionRequest) (ctx_data : KubernetesContext) :
    HM (RegoStack * result Value BurregoError) :=
  let input := JObject [("parameters", JObject settings);
                        ("review", AdmissionRequest_to_value request)] in
  match ctx_data with
  | KCGatekeeper ctx => evaluate st input ctx
  | KCEmpty => evaluate st input "{}"
  | KCOpa _ => panic
  end.

Definition allow_response (u : string) : AdmissionResponse :=
  {| uid := u; allowed := true; patch_type := None; patch := None; status := None;
     audit_annotations := None; warnings := None |}.

Definition deny_response (u message : string) : AdmissionResponse :=
  {| uid := u; allowed := false; patch_type := None; patch := None;
     status := Some (message_status (Some message) None); audit_annotations := None;
     warnings := None |}.

Definition set_uid (u : string) (r : AdmissionResponse) : AdmissionResponse :=
  {| uid := u; allowed := allowed r; patch_type := patch_type r; patch := patch r;
     status := status r; audit_annotations := audit_annotations r; warnings := warnings r |}.

(** The answer of an OPA policy is an [AdmissionReview]. *)
Definition opa_response (u : string) (evaluation_result : Value) : AdmissionResponse :=
  match r ← value_get_nth evaluation_result 0; r ← value_get r "result"; value_get r "response" with
  | Some response =>
      match decode_admission_response response with
      | Ok response => set_uid u response
      | Err e => reject_internal_server_error u e
      end
  | None => reject_internal_server_error u "cannot interpret OPA policy result"
  end.

(** The answer of a Gatekeeper policy is the list of its violations. *)
Definition gatekeeper_response (u : string) (evaluation_result : Value) : AdmissionResponse :=
  let violations :=
    let? response := ok_or (value_get_nth evaluation_result 0) RegoInvalidResponse in
    map_err RegoInvalidResponseWithError (decode_violations response) in
  match violations with
  | Err e => reject_internal_server_error u (RegoRuntimeError_to_string e)
  | Ok [] => allow_response u
  | Ok violations => deny_response u (join ", " (omap id violations))
  end.

Definition rego_finish (st : RegoStack) (u : string) (evaluation : result Value BurregoError) :
    HM (RegoStack * AdmissionResponse) :=
  match evaluation with
  | Ok evaluation_result =>
      m_ret (st, match rs_policy_execution_mode st with
                 | RegoOpa => opa_response u evaluation_result
                 | RegoGatekeeper => gatekeeper_response u evaluation_result
                 end)
  | Err err =>
      let! e :=
        match err with
        | ExecutionDeadlineExceeded => let! r := Evaluator_reset (rs_evaluator st) in m_ret r.1
        | _ => m_ret (rs_evaluator st)
        end in
      m_ret (set_evaluator st e, reject_internal_server_error u (BurregoError_to_string err))
  end.

Definition Rego_validate (st : RegoStack) (settings : PolicySettings) (request : ValidateRequest)
    (ctx_data : KubernetesContext) : HM (RegoStack * AdmissionResponse) :=
  let u := request_uid request in
  match rs_policy_execution_mode st, request with
  | RegoOpa, _ =>
      let! r := evaluate_opa st settings request ctx_data in rego_finish r.1 u r.2
  | RegoGatekeeper, AdmissionReviewRequest adm_req =>
      let! r := evaluate_gatekeeper st settings adm_req ctx_data in rego_finish r.1 u r.2
  | RegoGatekeeper, RawRequest _ =>
      m_ret (st, reject_internal_server_error u "Gatekeeper does not support raw validation requests")
  end.

Definition Rego_validate_settings (_ : string) : SettingsValidationResponse :=
  {| sv_valid := true; sv_message := None |}.
End rego.

(** ** Properties *)

Lemma elem_of_resource_set_iter s r : r ∈ resource_set_iter s ↔ r ∈ s.
Proof. by rw /resource_set_iter merge_sort_Permutation elem_of_elements. Qed.

Section rego_properties.
Context `{SD : SdkTypes, HI : HashIter, CC : !CallbackCodec, JC : !JsonCodec, KL : !KubeLib}.
Context {W : Type} `{RW : !RegoWasm W, RC : !RegoCodec W}.
Implicit Types (chan : Channel) (resources : gset ContextAwareResource).

(** The requests made on behalf of a Rego policy: they name one of its resources. *)
Definition about resources (req : CallbackRequestType) : Prop :=
  ∃ r, r ∈ resources ∧
    (req = list_request r ∨ req = plural_request r ∨ ∃ since, req = changed_request r since).

Lemma make_request_emits (P : CallbackRequestType → Prop) req chan :
  P req → emits P (make_request_via_callback_channel (W := W) req chan).
Proof.
  intros HP. apply emits_perform. destruct (chan req) as [| |[]]; simpl; auto.
Qed.

Lemma get_allowed_resources_emits chan resources :
  emits (about resources) (get_allowed_resources (W := W) chan resources).
Proof.
  rw /get_allowed_resources /get_all_resources_by_type. host_steps.
  apply make_request_emits. rename select (_ ∈ resource_set_iter _) into Hin.
  apply elem_of_resource_set_iter in Hin. eexists. naive_solver.
Qed.

Lemma get_plural_names_emits chan resources :
  emits (about resources) (get_plural_names (W := W) chan resources).
Proof.
  rw /get_plural_names. host_steps.
  apply make_request_emits. rename select (_ ∈ resource_set_iter _) into Hin.
  apply elem_of_resource_set_iter in Hin. eexists. naive_solver.
Qed.

Lemma have_changed_emits chan resources since :
  emits (about resources) (have_allowed_resources_changed_since_instant (W := W) chan resources since).
Proof.
  rw /have_allowed_resources_changed_since_instant.
  assert (∀ r, r ∈ resource_set_iter resources → r ∈ resources) as Hsub
    by (intros r; by rw elem_of_resource_set_iter).
  induction (resource_set_iter resources) as [|r l IH]; simpl; [apply emits_ret|].
  rw /has_resource_changed_since. host_steps.
  - apply make_request_emits. exists r. split; [apply Hsub; by left|]. naive_solver.
  - apply IH. intros r' ?. apply Hsub. by right.
Qed.

Lemma create_and_register_emits chan resources :
  emits (about resources) (create_and_register_inventory (W := W) resources chan).
Proof.
  rw /create_and_register_inventory. host_steps. apply get_allowed_resources_emits.
Qed.

Lemma build_kubernetes_context_emits st ch resources :
  emits (about resources) (build_kubernetes_context (W := W) st ch resources).
Proof.
  rw /build_kubernetes_context /get_inventory. host_steps;
    auto using get_allowed_resources_emits, get_plural_names_emits, create_and_register_emits,
      have_changed_emits.
Qed.

(** *** The cache *)

Lemma make_request_keeps I req chan : keeps I (make_request_via_callback_channel (W := W) req chan).
Proof. apply keeps_perform. Qed.
#[local] Hint Resolve make_request_keeps : host.

Lemma get_allowed_resources_keeps I chan resources :
  keeps I (get_allowed_resources (W := W) chan resources).
Proof. rw /get_allowed_resources /get_all_resources_by_type. host_steps. Qed.

Lemma get_plural_names_keeps I chan resources :
  keeps I (get_plural_names (W := W) chan resources).
Proof. rw /get_plural_names. host_steps. Qed.

Lemma have_changed_keeps I chan resources since :
  keeps I (have_allowed_resources_changed_since_instant (W := W) chan resources since).
Proof.
  rw /have_allowed_resources_changed_since_instant.
  induction (resource_set_iter resources); simpl; rw /has_resource_changed_since; host_steps.
Qed.
#[local] Hint Resolve get_allowed_resources_keeps get_plural_names_keeps have_changed_keeps : host.

(** The keys of the map of listed objects are the resources asked for. *)
Lemma get_allowed_resources_dom chan resources w kube w' :
  get_allowed_resources (W := W) chan resources w = Some (Ok kube, w') → dom kube = resources.
Proof.
  intros Hk. rw /get_allowed_resources in Hk.
  apply (mr_fold_inv (λ l kube, dom kube ∪ list_to_set l = list_to_set (resource_set_iter resources)))
    in Hk.
  - rw right_id_L in Hk. rw Hk. apply set_eq. intros r.
    by rw elem_of_list_to_set elem_of_resource_set_iter.
  - set_solver.
  - intros s r l w1 s' w2 Hs (objs & w3 & _ & [= <- _])%mr_bind_Ok. rw dom_insert_L. set_solver.
Qed.

(** A cached document was built from objects of the resources of its key. *)
Definition inventory_for resources (data : string) : Prop :=
  ∃ kube inv, dom kube = resources ∧ Gatekeeper.new kube = Ok inv ∧
    json_to_string (Gatekeeper.GatekeeperInput_to_value inv) = Ok data.

Definition cache_sound (cache : gmap (gset ContextAwareResource) CachedInventory) : Prop :=
  ∀ K ci, cache !! K = Some ci → inventory_for K (ci_data ci).

Lemma create_and_register_sound chan resources w ci w' :
  cache_sound (inventories w) →
  create_and_register_inventory (W := W) resources chan w = Some (Ok ci, w') →
  inventory_for resources (ci_data ci) ∧ cache_sound (inventories w').
Proof.
  intros Hs (now & w1 & Hnow & Hrest)%m_bind_Some.
  pose proof (keeps_in_engine cache_sound _ _ _ _ Hs Hnow) as Hs1.
  apply mr_bind_Ok in Hrest as (kube & w2 & Hkube & Hrest).
  pose proof (get_allowed_resources_keeps cache_sound _ _ _ _ _ Hs1 Hkube) as Hs2.
  apply mr_bind_Ok in Hrest as (inv & w3 & [= Hinv <-] & Hrest).
  apply mr_bind_Ok in Hrest as (data & w4 & [= Hdata%map_err_Ok <-] & Hrest).
  apply m_bind_Some in Hrest as ([] & w5 & [= <-] & [= <- <-]).
  assert (inventory_for resources data) as Hfor.
  { exists kube, inv. by rw (get_allowed_resources_dom _ _ _ _ _ Hkube). }
  split; [done|]. intros K ci. simpl. rw lookup_insert.
  case_decide; [|apply Hs2]. intros [= <-]. by subst.
Qed.

Lemma create_and_register_keeps chan resources :
  keeps cache_sound (create_and_register_inventory (W := W) resources chan).
Proof.
  intros w [ci|e] w' Hs Hc; [by eapply create_and_register_sound|].
  rw /create_and_register_inventory in Hc. apply m_bind_Some in Hc as (now & w1 & Hnow & Hc).
  pose proof (keeps_in_engine cache_sound _ _ _ _ Hs Hnow) as Hs1.
  apply m_bind_Some in Hc as ([kube|e1] & w2 & Hkube & Hc);
    pose proof (get_allowed_resources_keeps cache_sound _ _ _ _ _ Hs1 Hkube) as Hs2;
    [|by injection Hc as _ <-].
  rw /mr_bind /m_bind /m_ret /= in Hc.
  destruct (Gatekeeper.new kube); [|by injection Hc as _ <-].
  destruct (map_err _ _); [done|by injection Hc as _ <-].
Qed.

Lemma get_inventory_sound chan resources w data w' :
  cache_sound (inventories w) → get_inventory (W := W) chan resources w = Some (Ok data, w') →
  inventory_for resources data.
Proof.
  intros Hs (cache & w1 & [= <- <-] & (ci & w2 & Hci & [= <- _])%mr_bind_Ok)%m_bind_Some.
  destruct (inventories w !! resources) as [cached|] eqn:Hc;
    [|by destruct (create_and_register_sound _ _ _ _ _ Hs Hci)].
  apply mr_bind_Ok in Hci as ([|] & w3 & Hch & Hci).
  - pose proof (have_changed_keeps cache_sound _ _ _ _ _ _ Hs Hch) as Hs3.
    by destruct (create_and_register_sound _ _ _ _ _ Hs3 Hci).
  - injection Hci as <- _. by apply Hs.
Qed.

Lemma build_kubernetes_context_keeps st ch resources :
  keeps cache_sound (build_kubernetes_context (W := W) st ch resources).
Proof.
  rw /build_kubernetes_context /get_inventory. host_steps; auto using create_and_register_keeps.
Qed.

(** The document handed to a Gatekeeper policy, from a sound cache: it was built
    from objects of the resources of its own allow list, and the cache stays sound. *)
Lemma gatekeeper_cache_document st ch resources w data w' :
  cache_sound (inventories w) →
  build_kubernetes_context st ch resources w = Some (Ok (KCGatekeeper data), w') →
  cache_sound (inventories w') ∧
  ∃ inv, json_to_string (Gatekeeper.GatekeeperInput_to_value inv) = Ok data ∧
    ∀ ns av kind name, {| car_api_version := av; car_kind := kind |} ∉ resources →
      gatekeeper_get inv ns av kind name = None.
Proof.
  intros Hs Hb. split; [by eapply build_kubernetes_context_keeps|].
  rw /build_kubernetes_context in Hb. case_decide; [done|]. destruct ch as [chan|]; [|done].
  destruct (rs_policy_execution_mode st).
  { apply mr_bind_Ok in Hb as (? & ? & _ & Hb). apply mr_bind_Ok in Hb as (? & ? & _ & Hb).
    by apply mr_bind_Ok in Hb as (? & ? & _ & Hb). }
  apply mr_bind_Ok in Hb as (d & w1 & Hd & [= <- _]).
  destruct (get_inventory_sound _ _ _ _ _ Hs Hd) as (kube & inv & Hdom & Hinv & Hjson).
  exists inv. split; [done|]. intros ns av kind name Hr.
  rw (gatekeeper_get_new _ _ _ _ _ _ Hinv) (not_elem_of_dom_1 kube) //. by rw Hdom.
Qed.

(** *** Verdicts *)

Lemma evaluate_quiet st input data : quiet (evaluate (W := W) st input data).
Proof. rw /evaluate. host_steps. apply Evaluator_evaluate_quiet. Qed.

Lemma rego_finish_quiet st u r : quiet (rego_finish (W := W) st u r).
Proof. rw /rego_finish. host_steps. apply Evaluator_reset_quiet. Qed.
#[local] Hint Resolve evaluate_quiet rego_finish_quiet : host.

(** The evaluation of a policy reaches no channel: what it knows of the
    cluster is in its context. *)
Lemma Rego_validate_quiet st settings request ctx_data :
  quiet (Rego_validate (W := W) st settings request ctx_data).
Proof. rw /Rego_validate /evaluate_opa /evaluate_gatekeeper. host_steps. Qed.

Lemma RegoStack_new_from_pre_quiet pre ctx : quiet (RegoStack_new_from_pre (W := W) pre ctx).
Proof.
  rw /RegoStack_new_from_pre /rego_stack_pre_rehydrate. host_steps.
  apply EvaluatorBuilder_build_quiet.
Qed.

(** What the evaluation of a request by the guest is, before its answer is read. *)
Definition rego_evaluation (st : RegoStack) (settings : PolicySettings) (request : ValidateRequest)
    (ctx_data : KubernetesContext) : M (HostWorld W) (RegoStack * result Value BurregoError) :=
  match rs_policy_execution_mode st, request with
  | RegoGatekeeper, AdmissionReviewRequest adm_req => evaluate_gatekeeper st settings adm_req ctx_data
  | _, _ => evaluate_opa st settings request ctx_data
  end.

Lemma evaluate_mode st input data w st' r w' :
  evaluate (W := W) st input data w = Some ((st', r), w') →
  rs_policy_execution_mode st' = rs_policy_execution_mode st.
Proof. by intros (? & ? & _ & [= <- _ _])%m_bind_Some. Qed.

Lemma rego_evaluation_mode st settings request ctx_data w st' r w' :
  rego_evaluation st settings request ctx_data w = Some ((st', r), w') →
  rs_policy_execution_mode st' = rs_policy_execution_mode st.
Proof.
  assert (∀ w st' r w', evaluate_opa st settings request ctx_data w = Some ((st', r), w') →
    rs_policy_execution_mode st' = rs_policy_execution_mode st) as Hopa.
  { rw /evaluate_opa. intros w1 st1 r1 w2. destruct (json_to_string _);
      [apply evaluate_mode|by intros [= <- _ _]]. }
  rw /rego_evaluation /evaluate_gatekeeper.
  destruct (rs_policy_execution_mode st) eqn:Hm, request; try apply Hopa.
  rw -Hm. destruct ctx_data; [apply evaluate_mode|done|apply evaluate_mode].
Qed.

Lemma opa_response_uid u v : uid (opa_response (W := W) u v) = u.
Proof. rw /opa_response. by repeat case_match. Qed.

Lemma gatekeeper_response_uid u v : uid (gatekeeper_response (W := W) u v) = u.
Proof. rw /gatekeeper_response. by destruct (res_bind _ _) as [[|]|]. Qed.

Lemma rego_finish_uid st u r w st' response w' :
  rego_finish (W := W) st u r w = Some ((st', response), w') → uid response = u.
Proof.
  rw /rego_finish. destruct r as [v|e].
  - intros [= _ <- _]. destruct (rs_policy_execution_mode st);
      [apply opa_response_uid|apply gatekeeper_response_uid].
  - by intros (? & ? & _ & [= _ <- _])%m_bind_Some.
Qed.

Lemma Rego_validate_uid st settings request ctx_data w st' response w' :
  Rego_validate (W := W) st settings request ctx_data w = Some ((st', response), w') →
  uid response = request_uid request.
Proof.
  rw /Rego_validate. destruct (rs_policy_execution_mode st), request; try by intros [= _ <- _].
  all: intros ([? ?] & ? & _ & ?%rego_finish_uid)%m_bind_Some; done.
Qed.

Lemma gatekeeper_response_allowed u v :
  allowed (gatekeeper_response (W := W) u v) = true ↔
  ∃ response, value_get_nth v 0 = Some response ∧ decode_violations response = Ok [].
Proof.
  rw /gatekeeper_response. split.
  - destruct (value_get_nth v 0) as [response|]; [|done]. intros Hr. exists response.
    split; [done|]. revert Hr. simpl. by destruct (decode_violations response) as [[|]|].
  - by intros (response & -> & Hv); rw /= Hv.
Qed.

Lemma opa_response_allowed u v :
  allowed (opa_response (W := W) u v) = true ↔
  ∃ r r' response a, value_get_nth v 0 = Some r ∧ value_get r "result" = Some r' ∧
    value_get r' "response" = Some response ∧ decode_admission_response response = Ok a ∧
    allowed a = true.
Proof.
  rw /opa_response. split.
  - destruct (value_get_nth v 0) as [r|]; [|done].
    destruct (value_get r "result") as [r'|] eqn:Hr'; rw /= ?Hr' //.
    destruct (value_get r' "response") as [response|] eqn:Hresp; rw /= ?Hresp //.
    destruct (decode_admission_response response) as [a|] eqn:Ha; [|done].
    intros. by exists r, r', response, a.
  - intros (r & r' & response & a & -> & Hr' & Hresp & Ha & Hal). by rw /= Hr' /= Hresp /= Ha.
Qed.

(** C27. Rego policies fail closed: a request is allowed only if the guest
    returned a value from which, for Gatekeeper, an empty list of violations was
    read, and for OPA, an admission response that allows it; every error of the
    engine, of the context or of the answer rejects. *)
Theorem rego_allows_only_on_verdict st settings request ctx_data w st' response w' :
  Rego_validate st settings request ctx_data w = Some ((st', response), w') →
  allowed response = true →
  ∃ st1 v w1, rego_evaluation st settings request ctx_data w = Some ((st1, Ok v), w1) ∧
  match rs_policy_execution_mode st with
  | RegoGatekeeper =>
      ∃ r, value_get_nth v 0 = Some r ∧ decode_violations r = Ok []
  | RegoOpa =>
      ∃ r r' resp a, value_get_nth v 0 = Some r ∧ value_get r "result" = Some r' ∧
        value_get r' "response" = Some resp ∧ decode_admission_response resp = Ok a ∧
        allowed a = true
  end.
Proof.
  intros Hv Hallowed.
  assert (∃ st1 r w1, rego_evaluation st settings request ctx_data w = Some ((st1, r), w1) ∧
    rego_finish st1 (request_uid request) r w1 = Some ((st', response), w')) as (st1 & r & w1 & Hev & Hf).
  { rw /Rego_validate in Hv. rw /rego_evaluation.
    destruct (rs_policy_execution_mode st), request; try (by injection Hv as _ <- _).
    all: apply m_bind_Some in Hv as ([st1 r] & w1 & Hev & Hf); eauto. }
  pose proof (rego_evaluation_mode _ _ _ _ _ _ _ _ Hev) as Hmode.
  destruct r as [v|e].
  2: { by apply m_bind_Some in Hf as (? & ? & _ & [= _ <- _]). }
  exists st1, v, w1. split; [done|]. injection Hf as _ <- _. rw Hmode in Hallowed.
  destruct (rs_policy_execution_mode st);
    [by apply opa_response_allowed in Hallowed|by apply gatekeeper_response_allowed in Hallowed].
Qed.

(** The context of a policy cannot be forged by its settings: whatever they
    hold at [kubernetes], an OPA policy with context reads the inventory there, and its
    other settings as they are. *)
Lemma opa_data_kubernetes settings inventory key :
  value_get (opa_data settings (KCOpa inventory)) key =
    if decide (key = "kubernetes") then Some (OpaInv.OpaInventory_to_value inventory)
    else field_get settings key.
Proof. simpl. rw field_get_insert. repeat case_decide; congruence. Qed.

(** The [unreachable!] arm is not reached: the context fits the mode. *)
Lemma build_kubernetes_context_mode st ch resources w kc w' :
  build_kubernetes_context (W := W) st ch resources w = Some (Ok kc, w') →
  match rs_policy_execution_mode st, kc with
  | RegoGatekeeper, KCOpa _ | RegoOpa, KCGatekeeper _ => False
  | _, _ => True
  end.
Proof.
  rw /build_kubernetes_context. case_decide; [intros [= <- _]; by case_match|].
  destruct ch; [|done]. destruct (rs_policy_execution_mode st).
  - intros (? & ? & _ & (? & ? & _ & (? & ? & _ & [= <- _])%mr_bind_Ok)%mr_bind_Ok)%mr_bind_Ok. done.
  - by intros (? & ? & _ & [= <- _])%mr_bind_Ok.
Qed.
End rego_properties.

(** ** Concrete instances

    A guest whose memory holds the names of three documents: its builtins (none),
    its entrypoints (one, number 0) and its answer (no violation). *)
Definition simple_rego {W} : RegoWasm W := {|
  RegoEngine := unit;
  RegoModule := unit;
  RegoInstance := unit;
  engine_new _ w := (Ok tt, w);
  module_from_file _ _ w := (Ok tt, w);
  memory_new _ _ w := (Ok tt, w);
  linker_define _ w := (Ok tt, w);
  linker_instantiate _ _ w := (Ok tt, w);
  set_epoch_deadline _ _ w := w;
  get_typed_func _ _ _ := Ok tt;
  call_guest _ f args w :=
    (Ok (if decide (f = "entrypoints") then 2 else
         if decide (f = "opa_eval_ctx_get_result") then 4 else
         if decide (f = "opa_json_dump") then unwrap_or 0%Z (head args) else
         if decide (f = "opa_json_parse") then 1 else 0)%Z, w);
  memory_data _ _ := ["b"; nul; "e"; nul; "v"; nul]%char;
  memory_write _ _ _ w := (Ok tt, w);
  memory_access_error := "MemoryAccessError";
  value_to_vec _ := Ok "{}";
  value_from_slice s :=
    if decide (s = "b") then Ok (JObject []) else
    if decide (s = "e") then Ok (JObject [("main", JNumber "0")]) else
    if decide (s = "v") then Ok (JArray [JObject [("result", JArray [])]]) else Err "expected value";
|}.

Definition simple_rego_codec {W} : RegoCodec W := {|
  instant_now w := (0%Z, w);
  decode_bool s := Ok (bool_decide (s = "true"));
  decode_admission_response _ := Err "expected value";
  decode_violations v :=
    match value_get v "result" with
    | Some (JArray l) => Ok ((λ x, value_get x "msg" ≫= value_as_str) <$> l)
    | _ => Err "missing field `result`"
    end;
|}.

(** Cluster-wide objects that are their name. *)
Definition simple_kube : KubeLib := {|
  DynamicObject := string;
  metadata_name := Some;
  metadata_namespace _ := None;
  object_to_value := JString;
  decode_object_list s := Ok [s];
|}.

Definition simple_rego_pre : RegoStackPre (RW := @simple_rego nat) :=
  {| rsp_engine := (tt : @RegoEngine _ (@simple_rego nat));
     rsp_module := (tt : @RegoModule _ (@simple_rego nat));
     rsp_entrypoint_id := 0; rsp_policy_execution_mode := RegoGatekeeper;
     rsp_resource_limits := None |}.

Definition simple_rego_stack : RegoStack (RW := @simple_rego nat) :=
  {| rs_evaluator :=
       {| ev_module := (tt : @RegoModule _ (@simple_rego nat));
          ev_instance := (tt : @RegoInstance _ (@simple_rego nat));
          ev_policy := {| data_addr := 1; base_heap_ptr := 0; data_heap_ptr := 0 |};
          ev_epoch_deadline := None; ev_resource_limits := None;
          ev_entrypoints := {[ "main" := 0%Z ]}; ev_used_builtins := ∅ |};
     rs_entrypoint_id := 0; rs_policy_execution_mode := RegoGatekeeper |}.

Definition simple_context : option (result (KubernetesContext (KL := simple_kube)) RegoRuntimeError
    * HostWorld nat) :=
  build_kubernetes_context (CC := bare_codec) (JC := word_codec) (KL := simple_kube)
    (RC := simple_rego_codec) simple_rego_stack (callback_channel example_context)
    (ctx_aware_resources_allow_list example_context) (fresh_world 0).

Definition served (r : option (result (KubernetesContext (KL := simple_kube)) RegoRuntimeError
    * HostWorld (H := unit_sdk) nat)) : option (string * nat) :=
  match r with
  | Some (Ok (KCGatekeeper d), w) => Some (d, length (channel_log w))
  | _ => None
  end.

Lemma gatekeeper_cache_document_example :
  served simple_context = Some ("{}", 1) ∧
  ∃ r w', simple_context = Some (r, w') ∧
    cache_sound (JC := word_codec) (KL := simple_kube) (inventories w').
Proof.
  assert (served simple_context = Some ("{}", 1)) as Hobs by (vm_compute; reflexivity).
  split; [exact Hobs|].
  destruct simple_context as [[[[|inv|d]|e] w']|] eqn:Hctx; try discriminate Hobs.
  exists (Ok (KCGatekeeper d)), w'. split; [reflexivity|].
  eapply (gatekeeper_cache_document (CC := bare_codec) (JC := word_codec) (KL := simple_kube)
    (RC := simple_rego_codec) simple_rego_stack (callback_channel example_context)
    (ctx_aware_resources_allow_list example_context) (fresh_world 0)); [|exact Hctx].
  intros K ci HK. by rw lookup_empty in HK.
Defined.

Definition namespace_review : AdmissionRequest :=
  {| ar_uid := "r1";
     ar_kind := {| gvk_group := ""; gvk_version := "v1"; gvk_kind := "Namespace" |};
     ar_resource := {| gvr_group := ""; gvr_version := "v1"; gvr_resource := "namespaces" |};
     ar_sub_resource := None; ar_request_kind := None; ar_request_resource := None;
     ar_request_sub_resource := None; ar_name := None; ar_namespace := None;
     ar_operation := "CREATE"; ar_user_info := JObject []; ar_object := None;
     ar_old_object := None; ar_dry_run := None; ar_options := None |}.

Definition simple_validation :=
  Rego_validate (JC := word_codec) (RC := simple_rego_codec) (KL := simple_kube)
    simple_rego_stack [] (AdmissionReviewRequest namespace_review) KCEmpty (fresh_world 0).

Lemma rego_allows_only_on_verdict_witness :
  (response ← simple_validation; Some (uid response.1.2, allowed response.1.2)) = Some ("r1", true) ∧
  ∃ st1 v w1, rego_evaluation (JC := word_codec) (KL := simple_kube) simple_rego_stack []
    (AdmissionReviewRequest namespace_review) KCEmpty (fresh_world 0) = Some ((st1, Ok v), w1).
Proof.
  assert ((response ← simple_validation; Some (uid response.1.2, allowed response.1.2)) =
    Some ("r1", true)) as Hobs by (vm_compute; reflexivity).
  split; [exact Hobs|]. destruct simple_validation as [[[st' response] w']|] eqn:Hv; [|discriminate Hobs].
  injection Hobs as _ Hallowed.
  destruct (rego_allows_only_on_verdict (JC := word_codec) (RC := simple_rego_codec)
    (KL := simple_kube) simple_rego_stack [] (AdmissionReviewRequest namespace_review) KCEmpty
    (fresh_world 0) st' response w' Hv Hallowed) as (st1 & v & w1 & Hev & _).
  exists st1, v, w1. exact Hev.
Defined.
