(* ===== verification/FerricelExtensions.v ===== *)
(** * Host extensions of the ferricel runtime

    Models [crates/policy-evaluator/src/runtimes/ferricel/extensions.rs] and
    [extensions/]: the functions a CEL policy may call on its host, the capabilities
    they need, the authorizer, and the handlers with the decoding of their arguments.

    The declarations of the [kw.k8s] functions, the constructors of the policy SDK and
    the texts of [serde_path_to_error] are the parameter [FerricelSdk]. *)

From S2P Require Import Prelude Bytes RustStr Json PolicyId HostCapabilities Callback HostWorld.

(** ** Declarations *)

Record ExtensionDecl := {
  ed_namespace : option string;
  ed_function : string;
  ed_global_style : bool;
  ed_receiver_style : bool;
  ed_num_args : N;
}.

(** The key a guest calls an extension with. *)
Definition ExtensionKey : Type := option string * string.

Definition decl_key (d : ExtensionDecl) : ExtensionKey := (ed_namespace d, ed_function d).

Class FerricelSdk `{SdkTypes} := {
  (** [ferricel_core::compiler::vap::kw_k8s_get_extension] and [kw_k8s_list_extension] *)
  kw_k8s_get_extension : ExtensionDecl;
  kw_k8s_list_extension : ExtensionDecl;
  (** [KeylessInfo { issuer, subject }] and [KeylessPrefixInfo { issuer, url_prefix }] *)
  keyless_info : string → string → KeylessInfo;
  keyless_prefix_info : string → string → KeylessPrefixInfo;
  (** [CertificateVerificationRequest] of PEM certificates. *)
  certificate_verification_request : string → option (list string) → option string →
    CertificateVerificationRequest;
  (** [serde_json::from_slice::<Value>] *)
  decode_value : string → result Value string;
  (** The message for a map that does not fit the named structure. *)
  builder_map_error : string → Value → string;
}.

(** The keys under which the code finds the [kw.k8s] functions. *)
Class FerricelSdkLaws `{SD : SdkTypes} (FS : FerricelSdk) : Prop := {
  kw_k8s_get_key : decl_key kw_k8s_get_extension = (Some "kw.k8s", "get");
  kw_k8s_list_key : decl_key kw_k8s_list_extension = (Some "kw.k8s", "list");
}.

(** ** Arguments ([helpers.rs]) *)

Definition Handled `{SdkTypes} : Type := list CallbackRequestType * result Value string.

Definition builder_arg (args : list Value) (name : string) : result Value string :=
  ok_or (head args) (name +:+ ": expected a builder map argument, got none").

(** [map[key].as_str()]: indexing anything but an object yields null. *)
Definition str_field (map : Value) (key : string) : result string string :=
  ok_or (value_get map key ≫= value_as_str)
    ("missing or non-string field '" +:+ key +:+ "' in builder map").

(** The fields of a structure as [serde] finds them: by name in an object, by
    position in an array, which must not be longer than the structure. *)
Definition struct_fields (names : list string) (v : Value) : option (list (option Value)) :=
  match v with
  | JObject fs => Some (field_get fs <$> names)
  | JArray l =>
      if bool_decide (length l ≤ length names)
      then Some ((Some <$> l) ++ replicate (length names - length l) None) else None
  | _ => None
  end.

(** The types of the fields. [None] is a decoding error. *)
Definition de_string (v : Value) : option string := value_as_str v.

Definition de_bool (v : Value) : option bool := match v with JBool b => Some b | _ => None end.

Definition de_vec (v : Value) : option (list string) :=
  match v with JArray l => mapM de_string l | _ => None end.

Definition de_set (v : Value) : option (gset string) := list_to_set <$> de_vec v.

Definition de_map (v : Value) : option (gmap string string) :=
  match v with
  | JObject fs => list_to_map <$> mapM (λ kv, s ← de_string kv.2; Some (kv.1, s)) fs
  | _ => None
  end.

(** A field without default. *)
Definition required {A} (de : Value → option A) (f : option Value) : option A := f ≫= de.

(** [#[serde(default)]] on a field that is not an [Option]. *)
Definition defaulted {A} (d : A) (de : Value → option A) (f : option Value) : option A :=
  match f with None => Some d | Some v => de v end.

(** [#[serde(default)]] on an [Option]: null is [None]. *)
Definition optional {A} (de : Value → option A) (f : option Value) : option (option A) :=
  match f with None | Some JNull => Some None | Some v => Some <$> de v end.

(** [reject_null]: null is an error. *)
Definition reject_null {A} (de : Value → option A) (f : option Value) : option (option A) :=
  match f with None => Some None | Some v => Some <$> de v end.

Definition empty_string_as_none (f : option Value) : option (option string) :=
  s ← reject_null de_string f; Some (s ≫= λ s, if decide (s = "") then None else Some s).

Section extensions.
Context `{SD : SdkTypes, FS : !FerricelSdk}.
Implicit Types (ctx : EvaluationContext) (builder_map : Value) (args : list Value).

(** [parse_builder_map] at the structure [name] with the given fields. *)
Definition parse_builder_map {A} (name : string) (fields : list string)
    (decode : list (option Value) → option A) builder_map : result A string :=
  ok_or (struct_fields fields builder_map ≫= decode) (builder_map_error name builder_map).

(** [call_host] *)
Definition call_host ctx (capability : string) (req : CallbackRequestType) : Handled :=
  match split capability slash with
  | namespace :: o :: operation =>
      let '(reqs, r) := host_callback_typed namespace (join "/" (o :: operation)) req ctx in
      (reqs, let? payload := r in
             map_err (λ e, "failed to deserialize response: " +:+ e) (decode_value payload))
  | _ => ([], Err ("invalid host-capability path '" +:+ capability +:+
                   "': expected 'namespace/operation'"))
  end.

(** A handler that decodes its builder map and calls the host. *)
Definition calls ctx (capability : string) (r : result CallbackRequestType string) : Handled :=
  match r with Ok req => call_host ctx capability req | Err e => ([], Err e) end.

(** ** [kubernetes.rs] *)

Definition GET_CAPABILITY : string := "kubernetes/get_resource".
Definition LIST_BY_NAMESPACE_CAPABILITY : string := "kubernetes/list_resources_by_namespace".
Definition LIST_ALL_CAPABILITY : string := "kubernetes/list_resources_all".

Definition parse_get : Value → result CallbackRequestType string :=
  parse_builder_map "GetArgs" ["apiVersion"; "kind"; "name"; "namespace"; "fieldMasks"] (λ fs,
    match fs with
    | [api_version; kind; name; namespace; field_masks] =>
        api_version ← required de_string api_version;
        kind ← required de_string kind;
        name ← required de_string name;
        namespace ← empty_string_as_none namespace;
        field_masks ← optional de_set field_masks;
        Some (KubernetesGetResource api_version kind name namespace false field_masks)
    | _ => None
    end).

Definition get_handler ctx builder_map : Handled :=
  calls ctx GET_CAPABILITY (parse_get builder_map).

Definition parse_list : Value → result (string * CallbackRequestType) string :=
  parse_builder_map "ListArgs"
    ["apiVersion"; "kind"; "namespace"; "labelSelector"; "fieldSelector"; "fieldMasks"] (λ fs,
    match fs with
    | [api_version; kind; namespace; label_selector; field_selector; field_masks] =>
        api_version ← required de_string api_version;
        kind ← required de_string kind;
        namespace ← empty_string_as_none namespace;
        label_selector ← reject_null de_string label_selector;
        field_selector ← reject_null de_string field_selector;
        field_masks ← optional de_set field_masks;
        Some match namespace with
        | Some namespace =>
            (LIST_BY_NAMESPACE_CAPABILITY,
             KubernetesListResourceNamespace api_version kind namespace label_selector
               field_selector field_masks)
        | None =>
            (LIST_ALL_CAPABILITY,
             KubernetesListResourceAll api_version kind label_selector field_selector field_masks)
        end
    | _ => None
    end).

Definition list_handler ctx builder_map : Handled :=
  match parse_list builder_map with
  | Ok (capability, req) => call_host ctx capability req
  | Err e => ([], Err e)
  end.

(** ** [oci.rs] and [net.rs] *)

Definition MANIFEST_CAPABILITY : string := "oci/v1/oci_manifest".
Definition MANIFEST_DIGEST_CAPABILITY : string := "oci/v1/manifest_digest".
Definition MANIFEST_CONFIG_CAPABILITY : string := "oci/v1/oci_manifest_config".
Definition LOOKUP_HOST_CAPABILITY : string := "net/v1/dns_lookup_host".

Definition manifest_handler ctx builder_map : Handled :=
  calls ctx MANIFEST_CAPABILITY (res_map OciManifest (str_field builder_map "image")).

Definition manifest_digest_handler ctx builder_map : Handled :=
  calls ctx MANIFEST_DIGEST_CAPABILITY (res_map OciManifestDigest (str_field builder_map "image")).

Definition manifest_config_handler ctx builder_map : Handled :=
  calls ctx MANIFEST_CONFIG_CAPABILITY
    (res_map OciManifestAndConfig (str_field builder_map "image")).

Definition lookup_host_handler ctx args : Handled :=
  match ok_or (head args ≫= value_as_str) "expected a string argument" with
  | Err e => ([], Err e)
  | Ok host =>
      let '(reqs, r) := call_host ctx LOOKUP_HOST_CAPABILITY (DNSLookupHost host) in
      (reqs, let? response := r in
             ok_or (value_get response "ips") "response missing 'ips' field")
  end.

(** ** [crypto.rs] *)

Definition CRYPTO_VERIFY_CAPABILITY : string := "crypto/v1/is_certificate_trusted".

Definition parse_verify : Value → result CallbackRequestType string :=
  parse_builder_map "VerifyArgs" ["cert"; "certChain"; "notAfter"] (λ fs,
    match fs with
    | [cert; cert_chain; not_after] =>
        cert ← required de_string cert;
        cert_chain ← optional de_vec cert_chain;
        not_after ← reject_null de_string not_after;
        Some (CryptoIsCertificateTrusted
          (certificate_verification_request cert cert_chain not_after))
    | _ => None
    end).

Definition verify_handler ctx builder_map : Handled :=
  calls ctx CRYPTO_VERIFY_CAPABILITY (parse_verify builder_map).

Definition is_trusted_handler args : Handled :=
  ([], let? map := ok_or (head args) "isTrusted: expected at least one argument" in
       ok_or (match value_get map "trusted" with
              | Some v => Some v
              | None => value_get map "is_trusted"
              end)
         "isTrusted: expected a response map with a 'trusted' or 'is_trusted' field").

Definition reason_handler args : Handled :=
  ([], ok_or (head args ≫= λ v, value_get v "reason")
         "reason: expected a response map with a 'reason' field").

(** ** [sigstore.rs] *)

Definition SIGSTORE_VERIFY_CAPABILITY : string := "oci/v2/verify".

Definition parse_pub_key_verify : Value → result CallbackRequestType string :=
  parse_builder_map "PubKeyVerifyArgs" ["image"; "pubKeys"; "annotations"] (λ fs,
    match fs with
    | [image; pub_keys; annotations] =>
        image ← required de_string image;
        pub_keys ← defaulted [] de_vec pub_keys;
        annotations ← optional de_map annotations;
        Some (SigstorePubKeyVerify image pub_keys annotations)
    | _ => None
    end).

(** [zip_keyless] and [zip_keyless_prefix] *)
Definition zip_pairs {A} (what : string) (f : string → string → A) (issuers others : list string) :
    result (list A) string :=
  if decide (length issuers = length others) then Ok (zip_with f issuers others)
  else Err (what +:+ " arrays have different lengths (" +:+ pretty (N.of_nat (length issuers)) +:+
            " vs " +:+ pretty (N.of_nat (length others)) +:+ ")").

Definition zip_keyless : list string → list string → result (list KeylessInfo) string :=
  zip_pairs "issuer/subject" keyless_info.

Definition zip_keyless_prefix : list string → list string →
    result (list KeylessPrefixInfo) string :=
  zip_pairs "issuer/urlPrefix" keyless_prefix_info.

Definition parse_keyless_verify builder_map : result CallbackRequestType string :=
  let? parsed := parse_builder_map "KeylessVerifyArgs"
    ["image"; "keylessIssuers"; "keylessSubjects"; "annotations"] (λ fs,
    match fs with
    | [image; issuers; subjects; annotations] =>
        image ← required de_string image;
        issuers ← defaulted [] de_vec issuers;
        subjects ← defaulted [] de_vec subjects;
        annotations ← optional de_map annotations;
        Some (image, issuers, subjects, annotations)
    | _ => None
    end) builder_map in
  let '(image, issuers, subjects, annotations) := parsed in
  let? keyless := zip_keyless issuers subjects in
  Ok (SigstoreKeylessVerify image keyless annotations).

Definition parse_keyless_prefix_verify builder_map : result CallbackRequestType string :=
  let? parsed := parse_builder_map "KeylessPrefixVerifyArgs"
    ["image"; "keylessPrefixIssuers"; "keylessPrefixUrls"; "annotations"] (λ fs,
    match fs with
    | [image; issuers; urls; annotations] =>
        image ← required de_string image;
        issuers ← defaulted [] de_vec issuers;
        urls ← defaulted [] de_vec urls;
        annotations ← optional de_map annotations;
        Some (image, issuers, urls, annotations)
    | _ => None
    end) builder_map in
  let '(image, issuers, urls, annotations) := parsed in
  let? keyless_prefix := zip_keyless_prefix issuers urls in
  Ok (SigstoreKeylessPrefixVerify image keyless_prefix annotations).

Definition parse_github_actions_verify : Value → result CallbackRequestType string :=
  parse_builder_map "GithubActionsVerifyArgs" ["image"; "owner"; "repo"; "annotations"] (λ fs,
    match fs with
    | [image; owner; repo; annotations] =>
        image ← required de_string image;
        owner ← required de_string owner;
        repo ← reject_null de_string repo;
        annotations ← optional de_map annotations;
        Some (SigstoreGithubActionsVerify image owner repo annotations)
    | _ => None
    end).

Definition parse_certificate_verify : Value → result CallbackRequestType string :=
  parse_builder_map "CertificateVerifyArgs"
    ["image"; "certificate"; "certificateChain"; "requireRekorBundle"; "annotations"] (λ fs,
    match fs with
    | [image; certificate; chain; rekor; annotations] =>
        image ← required de_string image;
        certificate ← required de_string certificate;
        chain ← optional de_vec chain;
        rekor ← reject_null de_bool rekor;
        annotations ← optional de_map annotations;
        Some (SigstoreCertificateVerify image certificate chain (unwrap_or false rekor) annotations)
    | _ => None
    end).

Definition digest_handler args : Handled :=
  ([], ok_or (head args ≫= λ v, value_get v "digest")
         "digest: expected a response map with a 'digest' field").

(** ** The list of extensions ([extensions.rs]) *)

Record ExtensionSpec := {
  es_decl : ExtensionDecl;
  es_capabilities : list string;
  es_handler : EvaluationContext → list Value → Handled;
}.

(** A handler that takes its builder map as first argument. *)
Definition on_builder (name : string) (handler : EvaluationContext → Value → Handled) :
    EvaluationContext → list Value → Handled :=
  λ ctx args, match builder_arg args name with
              | Ok builder_map => handler ctx builder_map
              | Err e => ([], Err e)
              end.

Definition host_decl (namespace function : string) : ExtensionDecl :=
  {| ed_namespace := Some namespace; ed_function := function; ed_global_style := false;
     ed_receiver_style := false; ed_num_args := 1 |}.

Definition accessor_decl (function : string) : ExtensionDecl :=
  {| ed_namespace := None; ed_function := function; ed_global_style := false;
     ed_receiver_style := true; ed_num_args := 1 |}.

Definition lookup_host_extension : ExtensionDecl :=
  {| ed_namespace := Some "kw.net"; ed_function := "lookupHost"; ed_global_style := true;
     ed_receiver_style := false; ed_num_args := 1 |}.

Definition kubernetes_specs : list ExtensionSpec :=
  [{| es_decl := kw_k8s_get_extension; es_capabilities := [GET_CAPABILITY];
      es_handler := on_builder "kw.k8s.get" get_handler |};
   {| es_decl := kw_k8s_list_extension;
      es_capabilities := [LIST_BY_NAMESPACE_CAPABILITY; LIST_ALL_CAPABILITY];
      es_handler := on_builder "kw.k8s.list" list_handler |}].

Definition oci_specs : list ExtensionSpec :=
  [{| es_decl := host_decl "kw.oci" "manifest"; es_capabilities := [MANIFEST_CAPABILITY];
      es_handler := on_builder "kw.oci.manifest" manifest_handler |};
   {| es_decl := host_decl "kw.oci" "manifestDigest";
      es_capabilities := [MANIFEST_DIGEST_CAPABILITY];
      es_handler := on_builder "kw.oci.manifestDigest" manifest_digest_handler |};
   {| es_decl := host_decl "kw.oci" "manifestConfig";
      es_capabilities := [MANIFEST_CONFIG_CAPABILITY];
      es_handler := on_builder "kw.oci.manifestConfig" manifest_config_handler |}].

Definition net_specs : list ExtensionSpec :=
  [{| es_decl := lookup_host_extension; es_capabilities := [LOOKUP_HOST_CAPABILITY];
      es_handler := lookup_host_handler |}].

Definition crypto_specs : list ExtensionSpec :=
  [{| es_decl := host_decl "kw.crypto" "verify"; es_capabilities := [CRYPTO_VERIFY_CAPABILITY];
      es_handler := on_builder "kw.crypto.verify" verify_handler |};
   {| es_decl := accessor_decl "isTrusted"; es_capabilities := [];
      es_handler := λ _, is_trusted_handler |};
   {| es_decl := accessor_decl "reason"; es_capabilities := [];
      es_handler := λ _, reason_handler |}].

(** The five verify handlers share a capability. *)
Definition sigstore_spec (function : string)
    (parse : Value → result CallbackRequestType string) : ExtensionSpec :=
  {| es_decl := host_decl "kw.sigstore" function;
     es_capabilities := [SIGSTORE_VERIFY_CAPABILITY];
     es_handler := on_builder ("kw.sigstore." +:+ function)
       (λ ctx builder_map, calls ctx SIGSTORE_VERIFY_CAPABILITY (parse builder_map)) |}.

Definition sigstore_specs : list ExtensionSpec :=
  [sigstore_spec "pubKeyVerify" parse_pub_key_verify;
   sigstore_spec "keylessVerify" parse_keyless_verify;
   sigstore_spec "keylessPrefixVerify" parse_keyless_prefix_verify;
   sigstore_spec "githubActionsVerify" parse_github_actions_verify;
   sigstore_spec "certificateVerify" parse_certificate_verify;
   {| es_decl := accessor_decl "digest"; es_capabilities := [];
      es_handler := λ _, digest_handler |}].

Definition ALL_SPECS : list ExtensionSpec :=
  kubernetes_specs ++ oci_specs ++ net_specs ++ crypto_specs ++ sigstore_specs.

Definition spec_for (key : ExtensionKey) : option ExtensionSpec :=
  find (λ spec, bool_decide (decl_key (es_decl spec) = key)) ALL_SPECS.

Definition compiler_extension_decls : list ExtensionDecl :=
  List.filter (λ d, negb (bool_decide (ed_namespace d = Some "kw.k8s"))) (es_decl <$> ALL_SPECS).

(** [host_capabilities]: the paths a module needs, from the extensions it uses. *)
Definition extension_capabilities (used : list ExtensionKey) : gset string :=
  foldl (λ caps ext, match spec_for ext with
                     | Some spec => caps ∪ list_to_set (es_capabilities spec)
                     | None => caps
                     end) ∅ used.

Definition authorize_extension_call ctx (key : ExtensionKey) : result unit string :=
  match spec_for key with
  | None =>
      Err (match key.1 with Some ns => ns +:+ "." +:+ key.2 | None => key.2 end +:+
           ": this extension is not known to the host. The call is denied")
  | Some spec =>
      match es_capabilities spec with
      | [] => Ok tt
      | (path :: _) as paths =>
          if existsb (can_access_host_capability ctx) paths then Ok tt
          else Err (host_capability_denied_message path)
      end
  end.

(** [build_extensions]: the authorizer and the handlers, bound to a context. *)
Record Extensions := {
  ex_authorizer : ExtensionKey → result unit string;
  ex_handlers : list (ExtensionDecl * (list Value → Handled));
}.

Definition build_extensions ctx : Extensions :=
  {| ex_authorizer := authorize_extension_call ctx;
     ex_handlers := (λ spec, (es_decl spec, es_handler spec ctx)) <$> ALL_SPECS |}.
End extensions.

(** ** Properties *)

Section extension_properties.
Context `{SD : SdkTypes, FS : !FerricelSdk}.
Implicit Types (ctx : EvaluationContext) (spec : ExtensionSpec) (args : list Value).

(** A path names an operation of a namespace that crosses the gate. *)
Definition gated (cap : string) : Prop :=
  match split cap slash with
  | namespace :: _ :: _ => namespace ≠ "tracing"
  | _ => False
  end.

(** Every request of the call was granted under one of the capabilities. *)
Definition under ctx (caps : list string) (h : Handled) : Prop :=
  ∀ req, req ∈ h.1 → ∃ namespace operation,
    capability_path namespace operation ∈ caps ∧ granted ctx namespace operation req.

Lemma under_nothing ctx caps r : under ctx caps ([], r).
Proof. by intros req ?%elem_of_nil. Qed.

Lemma host_callback_typed_granted ctx namespace operation req req' :
  namespace ≠ "tracing" → req' ∈ (host_callback_typed namespace operation req ctx).1 →
  granted ctx namespace operation req'.
Proof.
  intros Hns. rw /host_callback_typed.
  destruct (check_authorization ctx namespace operation req) as [[]|e] eqn:Hauth;
    [|by intros ?%elem_of_nil].
  intros [_ ->]%send_request_trace. by apply check_authorization_granted in Hauth.
Qed.

Lemma under_call_host ctx caps cap req :
  cap ∈ caps → gated cap → under ctx caps (call_host ctx cap req).
Proof.
  rw /gated /call_host. intros Hin Hg r Hr. pose proof (join_split cap slash) as Hj.
  destruct (split cap slash) as [|ns [|o ops]] eqn:Hs; [done..|].
  exists ns, (join "/" (o :: ops)). split; [|].
  - rw join_cons in Hj; [|done]. by rw /capability_path Hj.
  - destruct (host_callback_typed ns (join "/" (o :: ops)) req ctx) as [reqs res] eqn:Hcb.
    apply (host_callback_typed_granted _ _ _ req); [done|]. by rw Hcb.
Qed.

Lemma under_calls ctx caps cap r :
  cap ∈ caps → gated cap → under ctx caps (calls ctx cap r).
Proof. destruct r; [apply under_call_host|intros; apply under_nothing]. Qed.

Lemma under_on_builder ctx caps name handler args :
  (∀ builder_map, under ctx caps (handler ctx builder_map)) →
  under ctx caps (on_builder name handler ctx args).
Proof. rw /on_builder. destruct (builder_arg args name); [auto|intros; apply under_nothing]. Qed.

(** A request of a handler is granted under a capability its spec lists. *)
Lemma handler_under spec ctx args :
  spec ∈ ALL_SPECS → under ctx (es_capabilities spec) (es_handler spec ctx args).
Proof.
  assert (Forall (λ spec, ∀ args, under ctx (es_capabilities spec) (es_handler spec ctx args))
    ALL_SPECS) as Hall; [|rw Forall_forall in Hall; by intros; apply Hall].
  rw /ALL_SPECS /kubernetes_specs /oci_specs /net_specs /crypto_specs /sigstore_specs /=.
  repeat apply Forall_cons_2; try apply Forall_nil_2; intros args'; simpl;
    try apply under_nothing; try (apply under_on_builder; intros builder_map).
  all: try (by apply under_calls; [left|]).
  - rw /list_handler /parse_list /parse_builder_map.
    destruct (ok_or _ _) as [[cap req]|e] eqn:Hp; [|apply under_nothing].
    apply ok_or_Ok, bind_Some in Hp as (fs & _ & Hp).
    repeat (case_match; try done). simplify_option_eq.
    apply under_call_host; repeat case_match; simplify_eq; try done; set_solver.
  - rw /lookup_host_handler. destruct (ok_or _ _) as [host|e]; [|apply under_nothing].
    destruct (call_host ctx LOOKUP_HOST_CAPABILITY (DNSLookupHost host)) as [reqs r] eqn:Hc.
    intros req Hreq. apply (under_call_host ctx [LOOKUP_HOST_CAPABILITY] LOOKUP_HOST_CAPABILITY
      (DNSLookupHost host)); [by left|done|]. by rw Hc.
Qed.

Lemma granted_allowed ctx namespace operation req :
  granted ctx namespace operation req →
  can_access_host_capability ctx (capability_path namespace operation) = true.
Proof. by intros (_ & ? & _). Qed.

Lemma spec_for_elem key spec : spec_for key = Some spec → spec ∈ ALL_SPECS ∧ decl_key (es_decl spec) = key.
Proof.
  intros [Hin Hk]%find_some. apply bool_decide_eq_true in Hk. split; [|done].
  by apply list_elem_of_In.
Qed.

(** The keys are distinct. *)
Lemma spec_for_decl `{!FerricelSdkLaws FS} spec :
  spec ∈ ALL_SPECS → spec_for (decl_key (es_decl spec)) = Some spec.
Proof.
  rw /spec_for /ALL_SPECS /kubernetes_specs /oci_specs /net_specs /crypto_specs /sigstore_specs.
  intros Hin. cbn [app] in Hin. repeat (apply elem_of_cons in Hin as [->|Hin];
    [cbn [es_decl find app]; rw ?kw_k8s_get_key ?kw_k8s_list_key;
     repeat (rw bool_decide_eq_false_2; [|done]); by rw bool_decide_eq_true_2|]).
  by apply elem_of_nil in Hin.
Qed.
(** C28. The authorizer and the gate agree: every request a host extension
    sends was granted under a capability its declaration lists, with the resource
    of a Kubernetes read in the allow list; and when the authorizer denies a call,
    the handler would not have sent anything either, so deciding before the
    arguments are parsed never denies a call the gate would have let through. *)
Theorem ferricel_authorizer_agrees `{!FerricelSdkLaws FS} spec ctx args :
  spec ∈ ALL_SPECS →
  (∀ req, req ∈ (es_handler spec ctx args).1 → ∃ namespace operation,
     capability_path namespace operation ∈ es_capabilities spec ∧
     granted ctx namespace operation req) ∧
  (∀ e, authorize_extension_call ctx (decl_key (es_decl spec)) = Err e →
     (es_handler spec ctx args).1 = []).
Proof.
  intros Hspec. pose proof (handler_under spec ctx args Hspec) as Hu. split; [exact Hu|].
  intros e Hauth. rw /authorize_extension_call (spec_for_decl spec Hspec) in Hauth.
  destruct (es_handler spec ctx args) as [[|req reqs] r]; [done|]. exfalso.
  destruct (Hu req) as (ns & op & Hin & Hg%granted_allowed); [by left|].
  destruct (es_capabilities spec) as [|path paths] eqn:Hc; [by apply elem_of_nil in Hin|].
  assert (existsb (can_access_host_capability ctx) (path :: paths) = true) as Hex.
  { apply existsb_exists. exists (capability_path ns op). by rw -list_elem_of_In. }
  by rw Hex in Hauth.
Qed.

Lemma elem_of_extension_capabilities used p :
  p ∈ extension_capabilities used ↔
  ∃ key spec, key ∈ used ∧ spec_for key = Some spec ∧ p ∈ es_capabilities spec.
Proof.
  rw /extension_capabilities.
  assert (∀ caps : gset string, p ∈ foldl (λ caps ext, match spec_for ext with
      | Some spec => caps ∪ list_to_set (es_capabilities spec) | None => caps end) caps used ↔
    p ∈ caps ∨ ∃ key spec, key ∈ used ∧ spec_for key = Some spec ∧ p ∈ es_capabilities spec) as Hgen.
  { induction used as [|key used IH]; intros caps; simpl.
    - split; [by left|]. intros [?|(? & ? & ?%elem_of_nil & _)]; done.
    - rw IH. setoid_rewrite elem_of_cons. destruct (spec_for key) as [spec|] eqn:Hs.
      + rw elem_of_union elem_of_list_to_set. naive_solver.
      + naive_solver. }
  rw Hgen. split; [|by right]. intros [Hp|?]; [|done]. by apply not_elem_of_empty in Hp.
Qed.

(** The capabilities written into the metadata of a scaffolded policy
    are valid and sufficient: each is an operation of the capability tree, which the
    configuration accepts; and a policy granted them passes the authorizer on
    every extension it uses that the host knows. *)
Theorem extension_capabilities_suffice used ctx :
  (∀ p, p ∈ extension_capabilities used → validate_against_tree p = Ok tt) ∧
  ((∀ p, p ∈ extension_capabilities used → can_access_host_capability ctx p = true) →
   ∀ key, key ∈ used → is_Some (spec_for key) → authorize_extension_call ctx key = Ok tt).
Proof.
  split.
  - intros p (key & spec & _ & [Hspec _]%spec_for_elem & Hp)%elem_of_extension_capabilities.
    assert (Forall (λ spec, Forall (λ p, validate_against_tree p = Ok tt) (es_capabilities spec))
      ALL_SPECS) as Hall by (repeat constructor; vm_compute; reflexivity).
    rw Forall_forall in Hall. specialize (Hall spec Hspec). rw Forall_forall in Hall. by apply Hall.
  - intros Hgrant key Hkey [spec Hspec]. rw /authorize_extension_call Hspec.
    destruct (es_capabilities spec) as [|path paths] eqn:Hc; [done|].
    assert (can_access_host_capability ctx path = true) as Hpath.
    { apply Hgrant, elem_of_extension_capabilities. exists key, spec. rw Hc. by repeat split; [| |left]. }
    by rw /= Hpath.
Qed.
End extension_properties.

(** ** A concrete SDK *)
Definition simple_ferricel_sdk : FerricelSdk (H := unit_sdk) := {|
  kw_k8s_get_extension := host_decl "kw.k8s" "get";
  kw_k8s_list_extension := host_decl "kw.k8s" "list";
  keyless_info _ _ := (tt : @KeylessInfo unit_sdk);
  keyless_prefix_info _ _ := (tt : @KeylessPrefixInfo unit_sdk);
  certificate_verification_request _ _ _ := (tt : @CertificateVerificationRequest unit_sdk);
  decode_value s := Ok (JString s);
  builder_map_error name _ := "invalid " +:+ name;
|}.

#[export] Instance simple_ferricel_sdk_laws : FerricelSdkLaws simple_ferricel_sdk.
Proof. by split. Qed.

Definition namespace_map : Value :=
  JObject [("apiVersion", JString "v1"); ("kind", JString "Namespace"); ("name", JString "default")].

Lemma ferricel_authorizer_agrees_witness :
  ∃ namespace operation, granted example_context namespace operation
    (KubernetesGetResource "v1" "Namespace" "default" None false None).
Proof.
  destruct (ferricel_authorizer_agrees (FS := simple_ferricel_sdk)
    {| es_decl := kw_k8s_get_extension (FerricelSdk := simple_ferricel_sdk);
       es_capabilities := [GET_CAPABILITY];
       es_handler := on_builder "kw.k8s.get" (get_handler (FS := simple_ferricel_sdk)) |}
    example_context [namespace_map]) as [Hgate _].
  - left.
  - destruct (Hgate (KubernetesGetResource "v1" "Namespace" "default" None false None))
      as (ns & op & _ & Hg); [|by exists ns, op].
    apply list_elem_of_singleton. reflexivity.
Defined.

Lemma extension_capabilities_suffice_witness :
  authorize_extension_call (FS := simple_ferricel_sdk) example_context (Some "kw.k8s", "list") = Ok tt.
Proof.
  apply (proj2 (extension_capabilities_suffice (FS := simple_ferricel_sdk)
    [(Some "kw.k8s", "list")] example_context)); [|by left|eexists; reflexivity].
  intros p (key & spec & Hkey & Hspec & Hp)%elem_of_extension_capabilities.
  apply list_elem_of_singleton in Hkey as ->. injection Hspec as <-.
  apply elem_of_cons in Hp as [->|Hp%list_elem_of_singleton]; [reflexivity|]. by subst p.
Defined.
