(* ===== verification/BuilderChains.v ===== *)
(** * The builder chains of the CEL compiler

    Models the chains that [extensions/oci.rs], [extensions/crypto.rs] and
    [extensions/sigstore.rs] (under [crates/policy-evaluator/src/runtimes/ferricel/]) declare
    to the CEL compiler, and [compiler_builder_chains] of [extensions.rs]. A chain is the
    surface syntax of a host function: its steps collect the arguments in a map, and its
    last step hands the map to the function.

    The properties relate the chains to the handlers of [FerricelExtensions]: every map a
    chain can build is one that the handler of its last step accepts. *)

From S2P Require Import Prelude Bytes RustStr Json PolicyId HostCapabilities Callback HostWorld FerricelExtensions.

Inductive BuilderStep :=
| StepEntry (function : string) (state_keys : list string) (output_type : string)
| StepChain (function input_type : string) (state_keys : list string) (output_type : string)
    (accumulate : bool)
| StepMapEntry (function input_type state_key output_type : string)
| StepTerminal (function input_type : string) (extra_arg_keys : list string)
    (host_namespace host_function : string).

Definition BuilderChainDecl : Type := list BuilderStep.

Definition oci_chain : BuilderChainDecl :=
  [StepEntry "kw.oci.image" ["image"] "kw.oci.Client";
   StepTerminal "manifest" "kw.oci.Client" [] "kw.oci" "manifest";
   StepTerminal "manifestDigest" "kw.oci.Client" [] "kw.oci" "manifestDigest";
   StepTerminal "manifestConfig" "kw.oci.Client" [] "kw.oci" "manifestConfig"].

Definition crypto_chain : BuilderChainDecl :=
  [StepEntry "kw.crypto.certificate" ["cert"] "kw.crypto.Verifier";
   StepChain "certificateChain" "kw.crypto.Verifier" ["certChain"] "kw.crypto.Verifier" true;
   StepChain "notAfter" "kw.crypto.Verifier" ["notAfter"] "kw.crypto.Verifier" false;
   StepTerminal "verify" "kw.crypto.Verifier" [] "kw.crypto" "verify"].

Definition sigstore_chain : BuilderChainDecl :=
  [StepEntry "kw.sigstore.image" ["image"] "kw.sigstore.VerifierBuilder";
   StepMapEntry "annotation" "kw.sigstore.VerifierBuilder" "annotations" "kw.sigstore.VerifierBuilder";
   (* the public keys *)
   StepChain "pubKey" "kw.sigstore.VerifierBuilder" ["pubKeys"] "kw.sigstore.PubKeysVerifier" true;
   StepChain "pubKey" "kw.sigstore.PubKeysVerifier" ["pubKeys"] "kw.sigstore.PubKeysVerifier" true;
   StepTerminal "verify" "kw.sigstore.PubKeysVerifier" [] "kw.sigstore" "pubKeyVerify";
   (* issuers and subjects *)
   StepChain "keyless" "kw.sigstore.VerifierBuilder" ["keylessIssuers"; "keylessSubjects"]
     "kw.sigstore.KeylessVerifier" true;
   StepChain "keyless" "kw.sigstore.KeylessVerifier" ["keylessIssuers"; "keylessSubjects"]
     "kw.sigstore.KeylessVerifier" true;
   StepTerminal "verify" "kw.sigstore.KeylessVerifier" [] "kw.sigstore" "keylessVerify";
   (* issuers and prefixes *)
   StepChain "keylessPrefix" "kw.sigstore.VerifierBuilder" ["keylessPrefixIssuers"; "keylessPrefixUrls"]
     "kw.sigstore.KeylessPrefixVerifier" true;
   StepChain "keylessPrefix" "kw.sigstore.KeylessPrefixVerifier"
     ["keylessPrefixIssuers"; "keylessPrefixUrls"] "kw.sigstore.KeylessPrefixVerifier" true;
   StepTerminal "verify" "kw.sigstore.KeylessPrefixVerifier" [] "kw.sigstore" "keylessPrefixVerify";
   (* GitHub actions, with or without a repository *)
   StepChain "githubAction" "kw.sigstore.VerifierBuilder" ["owner"] "kw.sigstore.GitHubActionVerifier" false;
   StepChain "githubAction" "kw.sigstore.VerifierBuilder" ["owner"; "repo"]
     "kw.sigstore.GitHubActionVerifier" false;
   StepTerminal "verify" "kw.sigstore.GitHubActionVerifier" [] "kw.sigstore" "githubActionsVerify";
   (* a certificate *)
   StepChain "certificate" "kw.sigstore.VerifierBuilder" ["certificate"] "kw.sigstore.CertificateVerifier" false;
   StepChain "certificateChain" "kw.sigstore.CertificateVerifier" ["certificateChain"]
     "kw.sigstore.CertificateVerifier" true;
   StepChain "requireRekorBundle" "kw.sigstore.CertificateVerifier" ["requireRekorBundle"]
     "kw.sigstore.CertificateVerifier" false;
   StepTerminal "verify" "kw.sigstore.CertificateVerifier" [] "kw.sigstore" "certificateVerify"].

Definition compiler_builder_chains : list BuilderChainDecl := [oci_chain; crypto_chain; sigstore_chain].

(** ** What a chain builds

    The meaning of the steps, after the documentation of the chains: an entry starts the
    map with its arguments; a chain step sets its keys, or appends to the lists under them
    when it accumulates; a map entry adds to the object under its key. *)

Definition Fields : Type := list (string * Value).

(** [requireRekorBundle] takes a boolean; [notAfter] takes a timestamp, that is passed as
    a string like the other arguments. *)
Definition well_typed (key : string) (v : Value) : Prop :=
  if String.eqb key "requireRekorBundle" then ∃ b, v = JBool b else ∃ s, v = JString s.

Definition elems_of (o : option Value) : list Value :=
  match o with Some (JArray l) => l | _ => [] end.

Definition fields_of (o : option Value) : Fields :=
  match o with Some (JObject fs) => fs | _ => [] end.

Definition store (accumulate : bool) (m : Fields) (kv : string * Value) : Fields :=
  if accumulate then field_insert kv.1 (JArray (elems_of (field_get m kv.1) ++ [kv.2])) m
  else field_insert kv.1 kv.2 m.

Definition store_all (accumulate : bool) (m : Fields) (keys : list string) (args : list Value) : Fields :=
  foldl (store accumulate) m (zip keys args).

Inductive builds (c : BuilderChainDecl) : string → Fields → Prop :=
| builds_entry f ks t args :
    StepEntry f ks t ∈ c → Forall2 well_typed ks args → builds c t (store_all false [] ks args)
| builds_chain f t ks t' acc m args :
    builds c t m → StepChain f t ks t' acc ∈ c → Forall2 well_typed ks args →
    builds c t' (store_all acc m ks args)
| builds_map_entry f t k t' m key s :
    builds c t m → StepMapEntry f t k t' ∈ c →
    builds c t' (field_insert k (JObject (field_insert key (JString s) (fields_of (field_get m k)))) m).

(** The map at the end of a chain, and the host function it is given to. *)
Definition finishes (c : BuilderChainDecl) (key : ExtensionKey) (m : Fields) : Prop :=
  ∃ f t extra ns fn m0 args, key = (Some ns, fn) ∧ builds c t m0 ∧
    StepTerminal f t extra ns fn ∈ c ∧ Forall2 well_typed extra args ∧ m = store_all false m0 extra args.

(** ** The shapes of the maps *)

Section shapes.
Implicit Types (m : Fields) (k : string).

Definition str_at m k : Prop := ∃ s, field_get m k = Some (JString s).
Definition strs_at m k (l : list string) : Prop := field_get m k = Some (JArray (JString <$> l)).
Definition bool_at m k : Prop := ∃ b, field_get m k = Some (JBool b).
Definition absent m k : Prop := field_get m k = None.
Definition annotations_at m : Prop :=
  absent m "annotations" ∨
  ∃ fs, field_get m "annotations" = Some (JObject (prod_map id JString <$> fs)).

Definition shape (t : string) m : Prop :=
  if String.eqb t "kw.oci.Client" then str_at m "image"
  else if String.eqb t "kw.crypto.Verifier" then
    str_at m "cert" ∧ (absent m "certChain" ∨ ∃ l, strs_at m "certChain" l) ∧
    (absent m "notAfter" ∨ str_at m "notAfter")
  else str_at m "image" ∧ annotations_at m ∧
    if String.eqb t "kw.sigstore.VerifierBuilder" then
      ∀ k, k ≠ "image" → k ≠ "annotations" → absent m k
    else if String.eqb t "kw.sigstore.PubKeysVerifier" then ∃ l, strs_at m "pubKeys" l
    else if String.eqb t "kw.sigstore.KeylessVerifier" then
      ∃ l1 l2, length l1 = length l2 ∧ strs_at m "keylessIssuers" l1 ∧ strs_at m "keylessSubjects" l2
    else if String.eqb t "kw.sigstore.KeylessPrefixVerifier" then
      ∃ l1 l2, length l1 = length l2 ∧ strs_at m "keylessPrefixIssuers" l1 ∧
        strs_at m "keylessPrefixUrls" l2
    else if String.eqb t "kw.sigstore.GitHubActionVerifier" then
      str_at m "owner" ∧ (absent m "repo" ∨ str_at m "repo")
    else if String.eqb t "kw.sigstore.CertificateVerifier" then
      str_at m "certificate" ∧ (absent m "certificateChain" ∨ ∃ l, strs_at m "certificateChain" l) ∧
      (absent m "requireRekorBundle" ∨ bool_at m "requireRekorBundle")
    else True.

Lemma field_insert_here {V} (fs : list (string * V)) k v : field_get (field_insert k v fs) k = Some v.
Proof. by rewrite field_get_insert decide_True. Qed.

Lemma field_insert_other {V} (fs : list (string * V)) k k' v :
  k ≠ k' → field_get (field_insert k v fs) k' = field_get fs k'.
Proof. intros H. by rewrite field_get_insert decide_False. Qed.

Lemma strings_insert k s (fs : list (string * string)) :
  ∃ fs', field_insert k (JString s) (prod_map id JString <$> fs) = prod_map id JString <$> fs'.
Proof.
  induction fs as [|[k' s'] fs [fs' IH]]; simpl; [by exists [(k, s)]|].
  case_decide; subst; [by exists ((k, s) :: fs)|]. exists ((k', s') :: fs'). simpl. by rewrite IH.
Qed.
End shapes.

(** The steps of a chain, one case each. *)
Ltac steps H :=
  repeat (apply elem_of_cons in H as [H|H]; [first [discriminate H | injection H; intros; subst; clear H]|]);
  try (by apply elem_of_nil in H).

Section shape_proofs.
Implicit Types (m : Fields).

(** Reads of a map that was just written. *)
Ltac read_fields :=
  repeat first [rewrite field_insert_here | rewrite field_insert_other; [|done]]; simpl.

Ltac arguments H :=
  repeat (apply Forall2_cons_inv_l in H as (? & ? & [? ->] & H & ->));
  apply Forall2_nil_inv_l in H as ->.

Lemma oci_shape t m : builds oci_chain t m → shape t m.
Proof.
  induction 1 as [f ks t args Hs Ha|f t ks t' acc m args _ IH Hs Ha|f t k t' m key s _ IH Hs];
    steps Hs; arguments Ha.
  rewrite /shape /=. eexists. by read_fields.
Qed.

Lemma crypto_shape t m : builds crypto_chain t m → shape t m.
Proof.
  induction 1 as [f ks t args Hs Ha|f t ks t' acc m args _ IH Hs Ha|f t k t' m key s _ IH Hs];
    steps Hs; arguments Ha; unfold shape in *; simpl in *; rewrite /store_all /store /=.
  all: rewrite /str_at /strs_at /absent.
  - split_and!; [eexists; by read_fields|left; by read_fields..].
  - destruct IH as (? & Hc & ?). split_and!; [by read_fields|right|by read_fields].
    destruct Hc as [Hc|[l Hc]]; rewrite Hc; [eexists [_]|eexists (l ++ [_])];
      read_fields; by rewrite ?fmap_app.
  - destruct IH as (? & ? & Hc). split_and!; [by read_fields|by read_fields|right].
    eexists. by read_fields.
Qed.

Lemma annotations_insert m k v :
  k ≠ "annotations" → annotations_at m → annotations_at (field_insert k v m).
Proof. intros Hk. rewrite /annotations_at /absent. by rewrite field_insert_other. Qed.

Lemma sigstore_shape t m : builds sigstore_chain t m → shape t m.
Proof.
  induction 1 as [f ks t args Hs Ha|f t ks t' acc m args _ IH Hs Ha|f t k t' m key s _ IH Hs];
    steps Hs; try arguments Ha; unfold shape in *; simpl in *; rewrite /store_all /store /=.
  all: try destruct IH as (Himage & Hann & Hrest); split; [unfold str_at in *; read_fields; by eauto|split];
    [try (repeat apply annotations_insert; done)|].
  all: unfold str_at, bool_at, strs_at, absent in *.
  - by left.
  - intros k Hk1 Hk2. simpl. by rewrite decide_False; [|congruence].
  - rewrite (Hrest "pubKeys"); [|done..]. eexists [_]. by read_fields.
  - destruct Hrest as [l Hl]. rewrite Hl. eexists (l ++ [_]). read_fields. by rewrite fmap_app.
  - eexists [_], [_]. read_fields. by rewrite (Hrest "keylessIssuers") // (Hrest "keylessSubjects").
  - destruct Hrest as (l1 & l2 & Hlen & H1 & H2). eexists (l1 ++ [_]), (l2 ++ [_]). read_fields.
    rewrite H1 H2 !length_app !fmap_app /=. by rewrite Hlen.
  - eexists [_], [_]. read_fields. by rewrite (Hrest "keylessPrefixIssuers") // (Hrest "keylessPrefixUrls").
  - destruct Hrest as (l1 & l2 & Hlen & H1 & H2). eexists (l1 ++ [_]), (l2 ++ [_]). read_fields.
    rewrite H1 H2 !length_app !fmap_app /=. by rewrite Hlen.
  - read_fields. rewrite (Hrest "repo") //. eauto.
  - read_fields. eauto.
  - read_fields. rewrite (Hrest "certificateChain") // (Hrest "requireRekorBundle") //. eauto 10.
  - destruct Hrest as (Hc & Hl & Hb). read_fields. split_and!; [done|right|done].
    destruct Hl as [Hl|[l Hl]]; rewrite Hl; [eexists [_]|eexists (l ++ [_])]; by rewrite ?fmap_app.
  - destruct Hrest as (Hc & Hl & Hb). read_fields. eauto 10.
  - right. destruct Hann as [Hann|[fs Hann]]; rewrite Hann /=.
    + exists [(key, s)]. by read_fields.
    + destruct (strings_insert key s fs) as [fs' Hfs]. exists fs'. read_fields. by rewrite Hfs.
  - intros k Hk1 Hk2. rewrite field_insert_other; [|done]. by apply Hrest.
Qed.
End shape_proofs.

(** ** The handlers accept the maps *)

Section accepted.
Context `{SD : SdkTypes, FS : !FerricelSdk}.
Implicit Types (ctx : EvaluationContext) (m : Fields) (spec : ExtensionSpec).

(** The context can reach the host under the capability. *)
Definition reaches ctx (cap : string) : Prop :=
  can_access_host_capability ctx cap = true ∧
  ∃ ch, callback_channel ctx = Some ch ∧ ∀ req e, ch req ≠ SendError e.

Lemma call_host_sends ctx cap req :
  reaches ctx cap → gated cap → request_resource req = None → (call_host ctx cap req).1 = [req].
Proof.
  intros (Hcap & ch & Hch & Hsend) Hg Hreq. rewrite /call_host. rewrite /gated in Hg.
  pose proof (join_split cap slash) as Hj.
  destruct (split cap slash) as [|ns [|o ops]] eqn:Hs; [done..|].
  rewrite /host_callback_typed /check_authorization /check_host_capability.
  rewrite decide_True; [|done].
  assert (capability_path ns (join "/" (o :: ops)) = cap) as ->.
  { rw join_cons in Hj; [|done]. by rw /capability_path Hj. }
  rewrite Hcap /check_kubernetes_resource Hreq /= /send_request_and_wait_for_response Hch.
  destruct (ch req) as [e| |[resp|e]] eqn:Hr; [by destruct (Hsend req e)|done..].
Qed.

Lemma calls_sends ctx cap r req :
  r = Ok req → reaches ctx cap → gated cap → request_resource req = None →
  (calls ctx cap r).1 = [req].
Proof. intros ->. apply call_host_sends. Qed.

Lemma de_vec_strings l : de_vec (JArray (JString <$> l)) = Some l.
Proof. simpl. induction l as [|s l IH]; simpl; [done|]. by rewrite IH. Qed.

Lemma de_map_strings fs : de_map (JObject (prod_map id JString <$> fs)) = Some (list_to_map fs).
Proof.
  simpl. assert (mapM (λ kv : string * Value, s ← de_string kv.2; Some (kv.1, s)) (prod_map id JString <$> fs) = Some fs)
    as ->; [|done].
  induction fs as [|[k s] fs IH]; simpl; [done|]. by rewrite IH.
Qed.

Lemma annotations_decode m : annotations_at m → is_Some (optional de_map (field_get m "annotations")).
Proof. intros [->|[fs ->]]; [done|]. by rewrite /optional de_map_strings. Qed.

Definition accepts (parse : Value → result CallbackRequestType string) m : Prop :=
  ∃ req, parse (JObject m) = Ok req ∧ request_resource req = None.

(** An argument that may be missing decodes in any case. *)
Lemma optional_strs m k :
  absent m k ∨ (∃ l, strs_at m k l) → is_Some (optional de_vec (field_get m k)).
Proof. intros [->|[l ->]]; [done|]. by rewrite /optional de_vec_strings. Qed.

Lemma reject_null_str m k :
  absent m k ∨ str_at m k → is_Some (reject_null de_string (field_get m k)).
Proof. by intros [->|[s ->]]. Qed.

Lemma reject_null_bool m k :
  absent m k ∨ bool_at m k → is_Some (reject_null de_bool (field_get m k)).
Proof. by intros [->|[b ->]]. Qed.

Lemma oci_accepts f m :
  (∀ s, request_resource (f s) = None) → shape "kw.oci.Client" m →
  accepts (λ v, res_map f (str_field v "image")) m.
Proof. intros Hf [s Hs]. exists (f s). rewrite /str_field /= Hs. by split; [|apply Hf]. Qed.

Lemma crypto_accepts m : shape "kw.crypto.Verifier" m → accepts parse_verify m.
Proof.
  intros ([s Hs] & [cs Hcs]%optional_strs & [n Hn]%reject_null_str).
  eexists. rewrite /parse_verify /parse_builder_map /= Hs /= Hcs /= Hn /=. by split.
Qed.

Lemma pub_keys_accepts m : shape "kw.sigstore.PubKeysVerifier" m → accepts parse_pub_key_verify m.
Proof.
  intros ([s Hs] & [an Han]%annotations_decode & [l Hl]).
  eexists. rewrite /parse_pub_key_verify /parse_builder_map /= Hs /= Hl /defaulted de_vec_strings /= Han /=. by split.
Qed.

Lemma keyless_accepts m : shape "kw.sigstore.KeylessVerifier" m → accepts parse_keyless_verify m.
Proof.
  intros ([s Hs] & [an Han]%annotations_decode & (l1 & l2 & Hlen & H1 & H2)).
  eexists. rewrite /parse_keyless_verify /parse_builder_map /= Hs /= H1 H2 /defaulted !de_vec_strings /= Han /=.
  rewrite /zip_keyless /zip_pairs decide_True; [|done]. by split.
Qed.

Lemma keyless_prefix_accepts m :
  shape "kw.sigstore.KeylessPrefixVerifier" m → accepts parse_keyless_prefix_verify m.
Proof.
  intros ([s Hs] & [an Han]%annotations_decode & (l1 & l2 & Hlen & H1 & H2)).
  eexists. rewrite /parse_keyless_prefix_verify /parse_builder_map /= Hs /= H1 H2 /defaulted !de_vec_strings /= Han /=.
  rewrite /zip_keyless_prefix /zip_pairs decide_True; [|done]. by split.
Qed.

Lemma github_accepts m :
  shape "kw.sigstore.GitHubActionVerifier" m → accepts parse_github_actions_verify m.
Proof.
  intros ([s Hs] & [an Han]%annotations_decode & [o Ho] & [r Hr]%reject_null_str).
  eexists. rewrite /parse_github_actions_verify /parse_builder_map /= Hs /= Ho /= Hr /= Han /=. by split.
Qed.

Lemma certificate_accepts m :
  shape "kw.sigstore.CertificateVerifier" m → accepts parse_certificate_verify m.
Proof.
  intros ([s Hs] & [an Han]%annotations_decode & [c Hc] & [cs Hcs]%optional_strs & [b Hb]%reject_null_bool).
  eexists. rewrite /parse_certificate_verify /parse_builder_map /= Hs /= Hc /= Hcs /= Hb /= Han /=. by split.
Qed.

Lemma accepted_sends ctx cap parse m :
  accepts parse m → reaches ctx cap → gated cap → ∃ req, (calls ctx cap (parse (JObject m))).1 = [req].
Proof. intros (req & Hp & Hr) Hc Hg. exists req. by apply calls_sends. Qed.

(** The chains and the handlers agree: whatever steps a CEL expression goes through, with
    arguments of the declared types, the map it ends with is given to an extension that the
    host knows, whose handler decodes it and sends the host exactly one request, when the
    policy holds the capability. *)
Theorem chain_reaches_host `{!FerricelSdkLaws FS} c key m :
  c ∈ compiler_builder_chains → finishes c key m →
  ∃ spec, spec_for key = Some spec ∧
    ∀ ctx, Forall (reaches ctx) (es_capabilities spec) → ∃ req, (es_handler spec ctx [JObject m]).1 = [req].
Proof.
  intros Hc (f & t & extra & ns & fn & m0 & args & -> & Hb & Hterm & Hargs & ->).
  assert (shape t m0) as Hshape.
  { repeat (apply elem_of_cons in Hc as [->|Hc]; [auto using oci_shape, crypto_shape, sigstore_shape|]).
    by apply elem_of_nil in Hc. }
  assert (∀ i spec, ALL_SPECS !! i = Some spec → decl_key (es_decl spec) = (Some ns, fn) →
    spec_for (Some ns, fn) = Some spec) as Hfor.
  { intros i spec Hin%list_elem_of_lookup_2 <-. by apply spec_for_decl. }
  assert (∀ i spec cap parse, ALL_SPECS !! i = Some spec → decl_key (es_decl spec) = (Some ns, fn) →
    es_capabilities spec = [cap] → gated cap →
    (∀ ctx v, es_handler spec ctx [v] = calls ctx cap (parse v)) → accepts parse m0 →
    ∃ spec, spec_for (Some ns, fn) = Some spec ∧ ∀ ctx, Forall (reaches ctx) (es_capabilities spec) →
      ∃ req, (es_handler spec ctx [JObject m0]).1 = [req]) as Hgo.
  { intros i spec cap parse Hi Hkey Hcap Hg Hh Ha. exists spec. split; [by eapply Hfor|].
    intros ctx. rewrite Hcap Hh. intros [Hr _]%Forall_cons. by apply accepted_sends. }
  repeat (apply elem_of_cons in Hc as [->|Hc]; [|]); [..|by apply elem_of_nil in Hc]; clear Hb Hfor.
  all: steps Hterm; apply Forall2_nil_inv_l in Hargs as ->; rewrite /store_all /=.
  - by eapply (Hgo 2); [..|apply (oci_accepts OciManifest)].
  - by eapply (Hgo 3); [..|apply (oci_accepts OciManifestDigest)].
  - by eapply (Hgo 4); [..|apply (oci_accepts OciManifestAndConfig)].
  - by eapply (Hgo 6); [..|apply crypto_accepts].
  - by eapply (Hgo 9); [..|apply pub_keys_accepts].
  - by eapply (Hgo 10); [..|apply keyless_accepts].
  - by eapply (Hgo 11); [..|apply keyless_prefix_accepts].
  - by eapply (Hgo 12); [..|apply github_accepts].
  - by eapply (Hgo 13); [..|apply certificate_accepts].
Qed.
End accepted.

Definition open_context : EvaluationContext (H := unit_sdk) :=
  {| policy_id := "policy"; callback_channel := Some (λ _, RecvError);
     ctx_aware_resources_allow_list := ∅; epoch_deadline := None; host_capabilities := AllowAll |}.

(** [kw.sigstore.image("img").annotation("env", "prod").keyless("iss", "sub").verify()] *)
Definition keyless_example : Fields :=
  [("image", JString "img"); ("annotations", JObject [("env", JString "prod")]);
   ("keylessIssuers", JArray [JString "iss"]); ("keylessSubjects", JArray [JString "sub"])].

Lemma keyless_example_finishes : finishes sigstore_chain (Some "kw.sigstore", "keylessVerify") keyless_example.
Proof.
  do 7 eexists. split; [reflexivity|]. split.
  - eapply (builds_chain _ "keyless" "kw.sigstore.VerifierBuilder" ["keylessIssuers"; "keylessSubjects"]
      "kw.sigstore.KeylessVerifier" true _ [JString "iss"; JString "sub"]).
    + eapply (builds_map_entry _ "annotation" "kw.sigstore.VerifierBuilder" "annotations"
        "kw.sigstore.VerifierBuilder" _ "env" "prod").
      * eapply (builds_entry _ "kw.sigstore.image" ["image"] "kw.sigstore.VerifierBuilder" [JString "img"]);
          [left|]. repeat constructor. by exists "img".
      * right. left.
    + do 5 right. left.
    + repeat constructor; eexists; reflexivity.
  - split; [do 7 right; left|]. split; [constructor|]. reflexivity.
Qed.

Lemma chain_reaches_host_witness :
  ∃ spec, spec_for (FS := simple_ferricel_sdk) (Some "kw.sigstore", "keylessVerify") = Some spec ∧
    ∃ req, (es_handler spec open_context [JObject keyless_example]).1 = [req].
Proof.
  destruct (chain_reaches_host (FS := simple_ferricel_sdk) sigstore_chain (Some "kw.sigstore", "keylessVerify")
    keyless_example)
    as (spec & Hs & Hh); [do 2 right; left|apply keyless_example_finishes|].
  exists spec. split; [done|]. apply Hh. apply Forall_forall. intros cap _. split; [done|].
  exists (λ _, RecvError). by split.
Defined.
