(* ===== verification/Ferricel.v ===== *)
(** * The ferricel runtime

    Models [crates/policy-evaluator/src/runtimes/ferricel/]: [runtime.rs] (validation
    of requests, the failure policy, validation of settings), [stack.rs],
    [stack_pre.rs] and [errors.rs]. The host extensions are [FerricelExtensions].

    [ferricel_core] is the parameter [FerricelLib]: an evaluation lists the
    extensions whose handlers it ran, and ends with an answer or an error. The
    selectors of [k8s_openapi] and [kube] are parameters of the same class. *)

From S2P Require Import Prelude Bytes RustStr Json HostCapabilities AdmissionResponse Request.
From S2P Require Import Callback HostWorld WasiStack Wapc Rego FerricelExtensions.

(** ** Third-party code *)

(** [ferricel_core::CelRuntimeError] *)
Record CelRuntimeError := { cel_message : string; cel_origin : option string }.

(** An error of an evaluation, by the types it downcasts to: [Trap::Interrupt], a
    CEL runtime error, or anything else with its alternate [Display] form. *)
Inductive EvalError :=
| EvalInterrupt
| EvalCel (e : CelRuntimeError)
| EvalOther (display : string).

(** [LabelSelector] of [k8s_openapi]. *)
Record LabelSelectorRequirement := {
  lsr_key : string; lsr_operator : string; lsr_values : option (list string) }.

Record LabelSelector := {
  ls_match_expressions : option (list LabelSelectorRequirement);
  ls_match_labels : option (gmap string string) }.

Class FerricelLib `{SdkTypes} (W : Type) := {
  EnginePre : Type;
  (** [Engine::eval] on an engine rehydrated with the extensions and a deadline. *)
  engine_eval : EnginePre → Extensions → option N → option string → W →
    (list (ExtensionKey * list Value) * result string EvalError) * W;
  (** [ferricel_core::abi_version] and [ABI_VERSION] *)
  abi_version : string → result (option N) string;
  ABI_VERSION : N;
  (** [serde_json::from_str::<Value>] on settings, [from_value::<LabelSelector>] and
      [kube::core::Selector::try_from] *)
  parse_settings : string → result Value string;
  decode_label_selector : Value → result LabelSelector string;
  selector_try_from : LabelSelector → result unit string;
}.

(** ** Errors ([errors.rs]) *)

Definition format_cel_error (err : CelRuntimeError) : string :=
  match cel_origin err with
  | Some origin => origin +:+ ": " +:+ cel_message err
  | None => cel_message err
  end.

Inductive FerricelRuntimeError :=
| EngineBuild (e : string)
| FerricelCelRuntimeError (e : CelRuntimeError)
| EvalFailed (e : string)
| FerricelExecutionDeadlineExceeded
| BindingsSerialization (e : string)
| ResponseDeserialization (e : string)
| ReadAbiVersion (e : string)
| AbiVersionMismatch (found : option N) (expected : N).

Definition FerricelRuntimeError_to_string (e : FerricelRuntimeError) : string :=
  match e with
  | EngineBuild e => "failed to build ferricel engine: " +:+ e
  | FerricelCelRuntimeError e => "CEL runtime error: " +:+ format_cel_error e
  | EvalFailed e => "ferricel evaluation failed: " +:+ e
  | FerricelExecutionDeadlineExceeded =>
      "policy execution interrupted: execution deadline exceeded"
  | BindingsSerialization e => "cannot serialize ferricel bindings: " +:+ e
  | ResponseDeserialization e => "cannot deserialize ferricel response: " +:+ e
  | ReadAbiVersion e => "cannot read the ferricel ABI version of the module: " +:+ e
  | AbiVersionMismatch found expected =>
      "the ferricel module uses ABI version " +:+
      match found with Some v => pretty v | None => "unknown" end +:+
      ". This runtime supports ABI version " +:+ pretty expected +:+
      ". Compile the policy again with a newer kwctl"
  end.

(** [check_abi_version], with what [ferricel_core] reads in the module and the version it
    supports *)
Definition check_abi (read : result (option N) string) (supported : N) : result unit FerricelRuntimeError :=
  let? found := map_err ReadAbiVersion read in
  if decide (found = Some supported) then Ok tt else Err (AbiVersionMismatch found supported).

(** ** Failure policy and settings *)

Inductive FailurePolicy := Fail | Ignore.

Definition INVALID_VALUE_MESSAGE : string := "failurePolicy must be either 'Fail' or 'Ignore'".

Definition FailurePolicy_from_value (value : option Value) : result FailurePolicy string :=
  match value with
  | None | Some JNull => Ok Fail
  | Some (JString s) =>
      if decide (s = "Fail") then Ok Fail
      else if decide (s = "Ignore") then Ok Ignore else Err INVALID_VALUE_MESSAGE
  | Some _ => Err INVALID_VALUE_MESSAGE
  end.

Definition FailurePolicy_from_settings (settings : PolicySettings) : result FailurePolicy string :=
  FailurePolicy_from_value (field_get settings "failurePolicy").

Definition FailurePolicy_as_str (p : FailurePolicy) : string :=
  match p with Fail => "Fail" | Ignore => "Ignore" end.

Definition optional_str_field (obj : list (string * Value)) (path key : string) :
    result (option string) string :=
  match field_get obj key with
  | None | Some JNull => Ok None
  | Some (JString s) => Ok (Some s)
  | Some _ => Err (path +:+ "." +:+ key +:+ " must be a string")
  end.

Definition non_empty (s : option string) : option string :=
  s ≫= λ s, if decide (s = "") then None else Some s.

Definition as_object (v : Value) (e : string) : result (list (string * Value)) string :=
  match v with JObject fs => Ok fs | _ => Err e end.

Definition validate_param_kind (value : Value) : result (string * string) string :=
  let? obj := as_object value "paramKind must be an object" in
  let? api_version := optional_str_field obj "paramKind" "apiVersion" in
  let? kind := optional_str_field obj "paramKind" "kind" in
  match non_empty api_version, non_empty kind with
  | Some api_version, Some kind => Ok (api_version, kind)
  | _, _ => Err "paramKind must have both apiVersion and kind specified"
  end.

Section ferricel.
Context `{SD : SdkTypes, FS : !FerricelSdk, JC : !JsonCodec, PL : !PatchLib}.
Context {W : Type} `{FL : !FerricelLib W}.
Implicit Types (ctx : EvaluationContext).

Definition PATH : string := "paramRef.selector".

Definition requirement_error (i : nat) (rest : string) : string :=
  PATH +:+ ".matchExpressions[" +:+ pretty (N.of_nat i) +:+ "]" +:+ rest.

Definition check_requirement (i : nat) (r : LabelSelectorRequirement) : result unit string :=
  if decide (lsr_key r = "") then Err (requirement_error i ".key must be a non-empty string") else
  let has_values := match lsr_values r with Some (_ :: _) => true | _ => false end in
  let operator := lsr_operator r in
  if bool_decide (operator = "In" ∨ operator = "NotIn") && negb has_values
  then Err (requirement_error i (".values must be non-empty when operator is " +:+ operator))
  else if bool_decide (operator = "Exists" ∨ operator = "DoesNotExist") && has_values
  then Err (requirement_error i (".values must be empty when operator is " +:+ operator))
  else Ok tt.

Fixpoint check_requirements (i : nat) (l : list LabelSelectorRequirement) : result unit string :=
  match l with
  | [] => Ok tt
  | r :: l => let? _ := check_requirement i r in check_requirements (S i) l
  end.

Definition validate_label_selector (selector : Value) : result unit string :=
  let invalid e := PATH +:+ " is not a valid LabelSelector: " +:+ e in
  let? selector := map_err invalid (decode_label_selector selector) in
  let? _ := check_requirements 0 (unwrap_or [] (ls_match_expressions selector)) in
  map_err invalid (selector_try_from selector).

Definition validate_param_ref (value : Value) : result unit string :=
  let? obj := as_object value "paramRef must be an object" in
  let? name := optional_str_field obj "paramRef" "name" in
  let? selector :=
    match field_get obj "selector" with
    | None | Some JNull => Ok None
    | Some (JObject fs) => Ok (Some (JObject fs))
    | Some _ => Err "paramRef.selector must be an object"
    end in
  let? _ :=
    match non_empty name, selector with
    | None, None => Err "paramRef must have either name or selector specified"
    | Some _, Some _ => Err "paramRef cannot have both name and selector specified"
    | None, Some selector => validate_label_selector selector
    | Some _, None => Ok tt
    end in
  let? action := optional_str_field obj "paramRef" "parameterNotFoundAction" in
  if bool_decide (action = Some "Allow" ∨ action = Some "Deny") then Ok tt
  else Err "parameterNotFoundAction must be 'Deny' or 'Allow' if paramRef is specified".

Definition non_null (v : option Value) : option Value :=
  match v with Some JNull => None | _ => v end.

(** [validate_params] of [runtime.rs]; a missing grant is only logged. *)
Definition validate_param_settings (settings : Value) : result unit string :=
  match non_null (value_get settings "paramKind"), non_null (value_get settings "paramRef") with
  | None, None => Ok tt
  | Some param_kind, Some param_ref =>
      let? _ := validate_param_kind param_kind in
      validate_param_ref param_ref
  | _, _ => Err "Both paramKind and paramRef must be present together, or both absent"
  end.

Definition validate_settings_json (settings : string) : result unit string :=
  let? settings_json :=
    map_err (λ e, "cannot parse policy settings as JSON: " +:+ e) (parse_settings settings) in
  let? _ := FailurePolicy_from_value (value_get settings_json "failurePolicy") in
  validate_param_settings settings_json.

Definition Ferricel_validate_settings (settings : string) : SettingsValidationResponse :=
  match validate_settings_json settings with
  | Ok _ => {| sv_valid := true; sv_message := None |}
  | Err message => {| sv_valid := false; sv_message := Some message |}
  end.

Definition check_abi_version (wasm : string) : result unit FerricelRuntimeError :=
  check_abi (abi_version wasm) ABI_VERSION.

(** ** [StackPre] and [Stack] *)

Record FerricelStackPre := {
  fsp_engine_pre : EnginePre;
  fsp_vap_variables : option (gset string);
}.

(** The engine of a stack is its pre-engine, bound to the extensions of the
    context and to its deadline. *)
Record FerricelStack := {
  fs_engine_pre : EnginePre;
  fs_extensions : Extensions;
  fs_epoch_deadline : option N;
  fs_eval_ctx : EvaluationContext;
  fs_vap_variables : option (gset string);
}.

Definition FerricelStack_new_from_pre (pre : FerricelStackPre) ctx : FerricelStack :=
  {| fs_engine_pre := fsp_engine_pre pre; fs_extensions := build_extensions ctx;
     fs_epoch_deadline := epoch_deadline ctx; fs_eval_ctx := ctx;
     fs_vap_variables := fsp_vap_variables pre |}.

(** [None] when the variables of the module are not known: it may then use any. *)
Definition references_vap_variable (st : FerricelStack) (name : string) : bool :=
  match fs_vap_variables st with Some vars => bool_decide (name ∈ vars) | None => true end.

(** The resources that [validate_settings_json] and [validate_params] warn about: those that the
    policy will ask for, and that it was not granted. *)
Definition missing_grants (st : FerricelStack) (settings : Value) : list (string * string) :=
  let denied r := negb (can_access_kubernetes_resource (fs_eval_ctx st) r.1 r.2) in
  filter denied
    ((if references_vap_variable st "namespaceObject" then [("v1", "Namespace")] else []) ++
     match non_null (value_get settings "paramKind"), non_null (value_get settings "paramRef") with
     | Some param_kind, Some param_ref =>
         match validate_param_kind param_kind, validate_param_ref param_ref with
         | Ok resource, Ok _ => [resource]
         | _, _ => []
         end
     | _, _ => []
     end).

(** What a call of the handler registered under a key sends. *)
Definition extension_requests (exts : Extensions) (c : ExtensionKey * list Value) :
    list CallbackRequestType :=
  match find (λ dh, bool_decide (decl_key dh.1 = c.1)) (ex_handlers exts) with
  | Some (_, handler) => (handler c.2).1
  | None => []
  end.

Definition FerricelStack_eval (st : FerricelStack) (bindings_json : option string) :
    M (HostWorld W) (result string FerricelRuntimeError) :=
  let! r := in_engine (engine_eval (fs_engine_pre st) (fs_extensions st) (fs_epoch_deadline st)
    bindings_json) in
  let! _ := sent (concat (extension_requests (fs_extensions st) <$> r.1)) in
  m_ret (map_err (λ e, match e with
                       | EvalInterrupt => FerricelExecutionDeadlineExceeded
                       | EvalCel cel_err => FerricelCelRuntimeError cel_err
                       | EvalOther e => EvalFailed e
                       end) r.2).

(** ** [Runtime] *)

Definition build_bindings (settings : PolicySettings) (request : ValidateRequest)
    (failure_policy : FailurePolicy) : result Value AdmissionResponse :=
  match request with
  | AdmissionReviewRequest r =>
      Ok (JObject
        [("object", unwrap_or JNull (ar_object r));
         ("oldObject", unwrap_or JNull (ar_old_object r));
         ("request", AdmissionRequest_to_value r);
         ("paramRef", unwrap_or JNull (field_get settings "paramRef"));
         ("failurePolicy", JString (FailurePolicy_as_str failure_policy))])
  | RawRequest _ =>
      Err (reject_internal_server_error (request_uid request)
        "ferricel runtime does not support raw validation requests")
  end.

Definition skipped_response (u policy message : string) : AdmissionResponse :=
  {| uid := u; allowed := true; patch_type := None; patch := None; status := None;
     audit_annotations := None;
     warnings := Some ["policy " +:+ policy +:+
       " skipped (failurePolicy is Ignore): CEL runtime error: " +:+ message] |}.

Definition handle_cel_runtime_error (st : FerricelStack) (request : ValidateRequest)
    (cel_err : CelRuntimeError) (failure_policy : FailurePolicy) : AdmissionResponse :=
  let message := format_cel_error cel_err in
  match failure_policy with
  | Fail => reject_internal_server_error (request_uid request) ("CEL runtime error: " +:+ message)
  | Ignore => skipped_response (request_uid request) (policy_id (fs_eval_ctx st)) message
  end.

(** The failure policy in force: an invalid value counts as [Fail]. *)
Definition effective_failure_policy (settings : PolicySettings) : FailurePolicy :=
  match FailurePolicy_from_settings settings with Ok p => p | Err _ => Fail end.

(** The answer to a request, from the outcome of the evaluation. *)
Definition ferricel_response (st : FerricelStack) (request : ValidateRequest)
    (failure_policy : FailurePolicy) (r : result string FerricelRuntimeError) :
    AdmissionResponse :=
  let u := request_uid request in
  match r with
  | Ok result_str =>
      match decode_validation_response result_str with
      | Ok pvr =>
          match from_policy_validation_response u (value_get (request_to_value request) "object") pvr with
          | Ok response => response
          | Err e => reject_internal_server_error u
              ("Cannot convert policy validation response: " +:+ ResponseError_to_string e)
          end
      | Err e => reject_internal_server_error u ("Cannot deserialize ferricel response: " +:+ e)
      end
  | Err FerricelExecutionDeadlineExceeded => reject u execution_time_exceeded_message 500
  | Err (FerricelCelRuntimeError cel_err) =>
      handle_cel_runtime_error st request cel_err failure_policy
  | Err e => reject_internal_server_error u (FerricelRuntimeError_to_string e)
  end.

Definition Ferricel_validate (st : FerricelStack) (settings : PolicySettings)
    (request : ValidateRequest) : M (HostWorld W) AdmissionResponse :=
  let failure_policy := effective_failure_policy settings in
  match build_bindings settings request failure_policy with
  | Err response => m_ret response
  | Ok bindings =>
      match json_to_string bindings with
      | Err e => m_ret (reject_internal_server_error (request_uid request) e)
      | Ok bindings_str =>
          let! r := FerricelStack_eval st (Some bindings_str) in
          m_ret (ferricel_response st request failure_policy r)
      end
  end.
End ferricel.

(** ** Properties *)

Section ferricel_properties.
Context `{SD : SdkTypes, FS : !FerricelSdk, JC : !JsonCodec, PL : !PatchLib}.
Context {W : Type} `{FL : !FerricelLib W}.
Implicit Types (ctx : EvaluationContext) (st : FerricelStack).

Lemma extension_requests_mediated ctx c :
  Forall (mediated ctx) (extension_requests (build_extensions ctx) c).
Proof.
  rw /extension_requests. destruct (find _ _) as [[d handler]|] eqn:Hf; [|constructor].
  apply find_some in Hf as [Hin _]. apply list_elem_of_In, list_elem_of_fmap in Hin
    as (spec & [= -> ->] & Hspec).
  apply Forall_forall. intros req Hreq.
  destruct (handler_under spec ctx c.2 Hspec req Hreq) as (ns & op & _ & Hg). by exists ns, op.
Qed.

(** A warning is never wrong: whatever the policy asks of a resource it was warned about is
    refused; without a warning, a policy that may use [namespaceObject] can read the namespaces. *)
Lemma missing_grants_refused st settings req resource :
  request_resource req = Some resource →
  (resource ∈ missing_grants st settings → ∃ e, check_kubernetes_resource (fs_eval_ctx st) req = Err e) ∧
  (missing_grants st settings = [] → resource = ("v1", "Namespace") →
   references_vap_variable st "namespaceObject" = true → check_kubernetes_resource (fs_eval_ctx st) req = Ok tt).
Proof.
  destruct resource as [api_version kind]. intros Hr. rw /check_kubernetes_resource Hr. split.
  - intros [Hd _]%list_elem_of_filter. simpl in Hd. destruct (can_access_kubernetes_resource _ _ _); [done|eauto].
  - rw /missing_grants. intros Hn [= -> ->] Hv. rewrite Hv /= in Hn.
    destruct (can_access_kubernetes_resource (fs_eval_ctx st) "v1" "Namespace") eqn:Hc; [done|].
    by rewrite filter_cons_True in Hn; [|simpl; rewrite Hc].
Qed.

Lemma FerricelStack_eval_emits pre ctx bindings :
  emits (mediated ctx) (FerricelStack_eval (FerricelStack_new_from_pre pre ctx) bindings).
Proof.
  rw /FerricelStack_eval. host_steps. apply emits_sent, Forall_concat, Forall_fmap, Forall_forall.
  intros c _. apply extension_requests_mediated.
Qed.

Lemma Ferricel_validate_emits pre ctx settings request :
  emits (mediated ctx) (Ferricel_validate (FerricelStack_new_from_pre pre ctx) settings request).
Proof. rw /Ferricel_validate. host_steps. apply FerricelStack_eval_emits. Qed.

Lemma FerricelStack_eval_total st bindings : panic_free (FerricelStack_eval (W := W) st bindings).
Proof. rw /FerricelStack_eval. host_steps. Qed.

Lemma Ferricel_validate_total st settings request : panic_free (Ferricel_validate st settings request).
Proof. rw /Ferricel_validate. host_steps. apply FerricelStack_eval_total. Qed.

Lemma Ferricel_validate_keeps I st settings request : keeps I (Ferricel_validate st settings request).
Proof. rw /Ferricel_validate /FerricelStack_eval. host_steps. Qed.

Lemma ferricel_response_uid st request p r :
  uid (ferricel_response (W := W) st request p r) = request_uid request.
Proof.
  rw /ferricel_response /handle_cel_runtime_error. destruct r as [s|[]]; try done.
  - destruct (decode_validation_response s) as [pvr|]; [|done].
    destruct (from_policy_validation_response _ _ pvr) eqn:Hr; [|done]. by eapply from_pvr_uid.
  - by destruct p.
Qed.

Lemma Ferricel_validate_uid st settings request w response w' :
  Ferricel_validate st settings request w = Some (response, w') →
  uid response = request_uid request.
Proof.
  rw /Ferricel_validate. destruct request as [raw|r]; [by intros [= <- _]|]. simpl.
  destruct (json_to_string _); [|by intros [= <- _]].
  intros (x & w1 & _ & [= <- _])%m_bind_Some. apply ferricel_response_uid.
Qed.

Lemma effective_failure_policy_Ignore settings :
  effective_failure_policy settings = Ignore ↔
  field_get settings "failurePolicy" = Some (JString "Ignore").
Proof.
  rw /effective_failure_policy /FailurePolicy_from_settings /FailurePolicy_from_value.
  split; [|by intros ->].
  destruct (field_get settings "failurePolicy") as [[]|]; try done.
  by repeat case_decide; subst.
Qed.

(** C29. CEL policies fail closed: a request is allowed only if the module
    returned an answer that accepts it, or it stopped on a CEL runtime error and
    the settings say, literally, that failures are ignored; then the response
    warns that the policy was skipped. A deadline, a trap, an unreadable answer or
    an unknown failure policy never lets a request through. *)
Theorem ferricel_allows_only_on_verdict st settings request w response w' :
  Ferricel_validate st settings request w = Some (response, w') →
  allowed response = true →
  ∃ bindings r, FerricelStack_eval st (Some bindings) w = Some (r, w') ∧
    ((∃ answer pvr, r = Ok answer ∧ decode_validation_response answer = Ok pvr ∧
        pv_accepted pvr = true) ∨
     (∃ cel, r = Err (FerricelCelRuntimeError cel) ∧
        field_get settings "failurePolicy" = Some (JString "Ignore") ∧
        response = skipped_response (request_uid request) (policy_id (fs_eval_ctx st))
          (format_cel_error cel))).
Proof.
  rw /Ferricel_validate. destruct request as [raw|adm]; [by intros [= <- _]|]. simpl.
  destruct (json_to_string _) as [bindings|]; [|by intros [= <- _]].
  intros (r & w1 & Hr & [= <- ->])%m_bind_Some Hal. exists bindings, r. split; [done|].
  rw /ferricel_response /handle_cel_runtime_error in Hal |- *. destruct r as [answer|[]]; try done.
  - destruct (decode_validation_response answer) as [pvr|] eqn:Hd; [|done].
    destruct (from_policy_validation_response _ _ pvr) eqn:Hp; [|done]. left.
    exists answer, pvr. split_and!; [done|done|]. by eapply from_pvr_allowed.
  - right. eexists. split; [done|]. destruct (effective_failure_policy settings) eqn:Hfp; [done|].
    split; [|done]. by apply effective_failure_policy_Ignore.
Qed.

(** Settings that were accepted when the policy was loaded decide its failure
    policy at run time: the fallback for an invalid value is not taken. *)
Theorem accepted_settings_have_failure_policy (settings : PolicySettings) s :
  parse_settings s = Ok (JObject settings) →
  sv_valid (Ferricel_validate_settings s) = true →
  FailurePolicy_from_settings settings = Ok (effective_failure_policy settings).
Proof.
  rw /Ferricel_validate_settings /validate_settings_json. intros -> Hv. simpl in Hv.
  rw /effective_failure_policy /FailurePolicy_from_settings.
  by destruct (FailurePolicy_from_value _).
Qed.
End ferricel_properties.

(** ** A concrete library: a module that reads a namespace and then ends as its
    pre-engine says. *)
Definition scripted_ferricel : @FerricelLib unit_sdk nat := {|
  EnginePre := result string EvalError;
  engine_eval outcome _ _ _ w := (([((Some "kw.k8s", "get"), [namespace_map])], outcome), S w);
  abi_version _ := Ok (Some 2%N);
  ABI_VERSION := 2;
  parse_settings _ := Ok (JObject []);
  decode_label_selector _ := Ok {| ls_match_expressions := None; ls_match_labels := None |};
  selector_try_from _ := Ok tt;
|}.

Definition failing_cel_pre : FerricelStackPre (SD := unit_sdk) (FL := scripted_ferricel) :=
  {| fsp_engine_pre := (Err (EvalCel {| cel_message := "no such key"; cel_origin := None |}) :
       @EnginePre unit_sdk nat scripted_ferricel);
     fsp_vap_variables := None |}.

Definition ignored_validation :=
  Ferricel_validate (JC := word_codec) (PL := demo_patch_lib) (FL := scripted_ferricel)
    (FerricelStack_new_from_pre (FS := simple_ferricel_sdk) failing_cel_pre example_context)
    [("failurePolicy", JString "Ignore")] (AdmissionReviewRequest namespace_review) (fresh_world 0).

Lemma ferricel_allows_only_on_verdict_witness :
  ∃ response w', ignored_validation = Some (response, w') ∧
    warnings response = Some ["policy namespaces-only skipped (failurePolicy is Ignore): CEL runtime error: no such key"].
Proof.
  do 2 eexists. split; [reflexivity|].
  edestruct (ferricel_allows_only_on_verdict (JC := word_codec) (PL := demo_patch_lib)
    (FL := scripted_ferricel)
    (FerricelStack_new_from_pre (FS := simple_ferricel_sdk) failing_cel_pre example_context)
    [("failurePolicy", JString "Ignore")] (AdmissionReviewRequest namespace_review) (fresh_world 0))
    as (bindings & r & Hev & _); [reflexivity|reflexivity|].
  reflexivity.
Defined.

Lemma accepted_settings_have_failure_policy_witness :
  FailurePolicy_from_settings [] = Ok Fail.
Proof.
  apply (accepted_settings_have_failure_policy (FL := scripted_ferricel) [] "{}");
    reflexivity.
Defined.
