(* ===== verification/Evaluator.v ===== *)
(** * The policy evaluator

    Models [crates/policy-evaluator/src/policy_evaluator/]: [policy_evaluator_builder.rs]
    (from a module to a pre-initialised policy), [stack_pre.rs] and
    [policy_evaluator_pre.rs] (rehydration), [evaluator.rs] (dispatch to the four
    runtimes), [runtimes.rs], and [Stack] of [runtimes/wasi_cli/stack.rs] with
    [StackPre::store_limits] of [stack_pre.rs].

    The evaluator implements the interface [PolicyRuntime] its clients are proved
    against: [evaluator_runtime]. *)

From S2P Require Import Prelude Bytes RustStr Json HostCapabilities AdmissionResponse Request.
From S2P Require Import Callback HostWorld WasiPipes WasiStack Wapc RegoInventory Burrego Rego.
From S2P Require Import FerricelExtensions Ferricel Runtime.

(** ** Resource limits *)

Record ResourceLimits := { rl_max_memory_size : option N; rl_max_table_elements : option N }.

(** [From<ResourceLimits> for burrego::ResourceLimits] *)
Definition ResourceLimits_to_rego (l : ResourceLimits) : RegoResourceLimits :=
  {| max_memory_size := rl_max_memory_size l; max_table_elements := rl_max_table_elements l |}.

(** ** The WASI stack *)

(** The guest of a WASI policy: the host functions it calls and the way it ends
    depend on all it can observe, the limits and the deadline of its store included. *)
Class WasiEngine `{SdkTypes} (W : Type) := {
  InstancePre : Type;
  wasi_execute : InstancePre → StoreLimits → option N → EvaluationContext → bytes →
    list string → W → Execution * W;
}.

Section wasi_stack.
Context `{SD : SdkTypes, CC : !CallbackCodec} {W : Type} `{WE : !WasiEngine W}.
Implicit Types (ctx : EvaluationContext).

Record WasiStackPre := {
  wsp_instance_pre : InstancePre;
  wsp_resource_limits : option ResourceLimits;
}.

Definition wasi_store_limits (pre : WasiStackPre) : StoreLimits :=
  match wsp_resource_limits pre with
  | Some l => {| sl_memory_size := rl_max_memory_size l;
                 sl_table_elements := rl_max_table_elements l |}
  | None => {| sl_memory_size := None; sl_table_elements := None |}
  end.

Record WasiStack := { wst_stack_pre : WasiStackPre; wst_eval_ctx : EvaluationContext }.

Definition WasiStack_new_from_pre (pre : WasiStackPre) ctx : WasiStack :=
  {| wst_stack_pre := pre; wst_eval_ctx := ctx |}.

(** The requests a run put on the channel. *)
Definition run_requests ctx (input : bytes) (ex : Execution) : list CallbackRequestType :=
  match ex_instantiate ex, ex_start_fn ex with
  | Ok _, Ok _ =>
      match guest_run ctx (initial_state input) (ex_actions ex) with
      | Some (st, _) => reverse (ws_requests st)
      | None => []
      end
  | _, _ => []
  end.

(** [Stack::run]: the thread it may run on does not change its result. *)
Definition WasiStack_run (st : WasiStack) (input : bytes) (args : list string) :
    M (HostWorld W) (result RunResult WasiRuntimeError) :=
  let ctx := wst_eval_ctx st in
  let! ex := in_engine (wasi_execute (wsp_instance_pre (wst_stack_pre st))
    (wasi_store_limits (wst_stack_pre st)) (epoch_deadline ctx) ctx input args) in
  match run_internal ctx input ex with
  | None => panic
  | Some r => let! _ := sent (run_requests ctx input ex) in m_ret r
  end.

Lemma WasiStack_run_emits st input args :
  emits (mediated (wst_eval_ctx st)) (WasiStack_run st input args).
Proof.
  rw /WasiStack_run. host_steps. apply emits_sent. rw /run_requests.
  rename select Execution into ex. destruct (ex_instantiate ex), (ex_start_fn ex); try done.
  destruct (guest_run _ _ _) as [[gst s]|] eqn:Hrun; [|done].
  apply Forall_reverse, Forall_forall.
  by apply (guest_run_confined _ _ _ _ _ (initial_confined (wst_eval_ctx st) input) Hrun).
Qed.

Lemma WasiStack_run_keeps I st input args : keeps I (WasiStack_run st input args).
Proof. rw /WasiStack_run. host_steps. Qed.
End wasi_stack.

(** ** The evaluator *)

Inductive PolicyEvaluatorPreError :=
| RehydrateWapc (e : WapcRuntimeError)
| RehydrateRego (e : RegoRuntimeError).

Definition PolicyEvaluatorPreError_to_string (e : PolicyEvaluatorPreError) : string :=
  match e with
  | RehydrateWapc e => "unable to rehydrate wapc module: " +:+ WapcRuntimeError_to_string e
  | RehydrateRego e => "unable to rehydrate rego module: " +:+ RegoRuntimeError_to_string e
  end.

Inductive PolicyEvaluatorError :=
| InvalidProtocolVersion
| InvokeWapcProtocolVersion (e : WapcRuntimeError).

Section evaluator.
Context `{SD : SdkTypes, HI : HashIter, CC : !CallbackCodec, JC : !JsonCodec, PL : !PatchLib}.
Context `{KL : !KubeLib, FS : !FerricelSdk} {W : Type}.
Context `{WL : !WapcLib W, WE : !WasiEngine W, RW : !RegoWasm W, RC : !RegoCodec W, FL : !FerricelLib W}.
Implicit Types (ctx : EvaluationContext).

Notation HM := (M (HostWorld W)).

(** [policy_evaluator/stack_pre.rs]; a [PolicyEvaluatorPre] holds one. *)
Inductive StackPre :=
| StackPreWapc (pre : WasmtimeEngineProviderPre)
| StackPreWasi (pre : WasiStackPre)
| StackPreRego (pre : RegoStackPre)
| StackPreFerricel (pre : FerricelStackPre).

(** [runtimes.rs] *)
Inductive Runtime :=
| RuntimeWapc (st : WapcStack)
| RuntimeRego (st : RegoStack)
| RuntimeCli (st : WasiStack)
| RuntimeFerricel (st : FerricelStack).

Definition Runtime_to_string (r : Runtime) : string :=
  match r with
  | RuntimeCli _ => "wasi"
  | RuntimeWapc _ => "wapc"
  | RuntimeFerricel _ => "ferricel"
  | RuntimeRego st =>
      match rs_policy_execution_mode st with RegoOpa => "OPA" | RegoGatekeeper => "Gatekeeper" end
  end.

Record PolicyEvaluatorState := { pe_runtime : Runtime; pe_eval_ctx : EvaluationContext }.

(** [PolicyEvaluatorPre::rehydrate] *)
Definition PolicyEvaluatorPre_rehydrate (pre : StackPre) ctx :
    HM (result PolicyEvaluatorState PolicyEvaluatorPreError) :=
  let!? runtime :=
    match pre with
    | StackPreWapc pre =>
        let! r := WapcStack_new_from_pre pre ctx in
        m_ret (map_err RehydrateWapc (res_map RuntimeWapc r))
    | StackPreWasi pre => m_ret (Ok (RuntimeCli (WasiStack_new_from_pre pre ctx)))
    | StackPreRego pre =>
        let! r := RegoStack_new_from_pre pre ctx in
        m_ret (map_err RehydrateRego (res_map RuntimeRego r))
    | StackPreFerricel pre => m_ret (Ok (RuntimeFerricel (FerricelStack_new_from_pre pre ctx)))
    end in
  m_ret (Ok {| pe_runtime := runtime; pe_eval_ctx := ctx |}).

Definition set_runtime (e : PolicyEvaluatorState) (r : Runtime) : PolicyEvaluatorState :=
  {| pe_runtime := r; pe_eval_ctx := pe_eval_ctx e |}.

(** [PolicyEvaluator::validate] *)
Definition Evaluator_validate (e : PolicyEvaluatorState) (request : ValidateRequest)
    (settings : PolicySettings) : HM (PolicyEvaluatorState * AdmissionResponse) :=
  match pe_runtime e with
  | RuntimeWapc st =>
      let! r := Wapc_validate st settings request in
      m_ret (set_runtime e (RuntimeWapc r.1), r.2)
  | RuntimeRego st =>
      let! kube_ctx := build_kubernetes_context st (callback_channel (pe_eval_ctx e))
        (ctx_aware_resources_allow_list (pe_eval_ctx e)) in
      match kube_ctx with
      | Ok ctx =>
          let! r := Rego_validate st settings request ctx in
          m_ret (set_runtime e (RuntimeRego r.1), r.2)
      | Err err =>
          m_ret (e, reject (request_uid request) (RegoRuntimeError_to_string err) 500)
      end
  | RuntimeCli st =>
      let! response := Wasi_validate (WasiStack_run st) settings request in
      m_ret (e, response)
  | RuntimeFerricel st =>
      let! response := Ferricel_validate st settings request in
      m_ret (e, response)
  end.

(** [PolicyEvaluator::validate_settings] *)
Definition Evaluator_validate_settings (e : PolicyEvaluatorState) (settings : PolicySettings) :
    HM SettingsValidationResponse :=
  match json_to_string (JObject settings) with
  | Err err =>
      m_ret {| sv_valid := false; sv_message := Some ("could not marshal settings: " +:+ err) |}
  | Ok settings_str =>
      match pe_runtime e with
      | RuntimeWapc st => Wapc_validate_settings st settings_str
      | RuntimeRego _ => m_ret (Rego_validate_settings settings_str)
      | RuntimeCli st => Wasi_validate_settings (WasiStack_run st) settings_str
      | RuntimeFerricel _ => m_ret (Ferricel_validate_settings settings_str)
      end
  end.

(** [PolicyEvaluator::protocol_version] *)
Definition Evaluator_protocol_version (e : PolicyEvaluatorState) :
    HM (result ProtocolVersion PolicyEvaluatorError) :=
  match pe_runtime e with
  | RuntimeWapc st =>
      let! r := Wapc_protocol_version st in m_ret (map_err InvokeWapcProtocolVersion r)
  | _ => m_ret (Err InvalidProtocolVersion)
  end.

(** The evaluator as the runtime its clients use: an evaluator serves one
    request, its state is dropped after it. *)
Definition evaluator_runtime : PolicyRuntime := {|
  World := HostWorld W;
  PolicyEvaluatorPre := StackPre;
  PolicyEvaluator := PolicyEvaluatorState;
  rehydrate pre ctx :=
    let! r := PolicyEvaluatorPre_rehydrate pre ctx in
    m_ret (map_err PolicyEvaluatorPreError_to_string r);
  evaluator_validate e request settings :=
    let! r := Evaluator_validate e request settings in m_ret r.2;
  evaluator_validate_settings := Evaluator_validate_settings;
|}.
End evaluator.

(** ** Properties *)

Section evaluator_properties.
Context `{SD : SdkTypes, HI : HashIter, CC : !CallbackCodec, JC : !JsonCodec, PL : !PatchLib}.
Context `{KL : !KubeLib, FS : !FerricelSdk} {W : Type}.
Context `{WL : !WapcLib W, WE : !WasiEngine W, RW : !RegoWasm W, RC : !RegoCodec W, FL : !FerricelLib W}.
Implicit Types (ctx : EvaluationContext) (e : PolicyEvaluatorState).

(** An evaluator acts with the privileges of one context. *)
Definition bound ctx e : Prop :=
  pe_eval_ctx e = ctx ∧
  match pe_runtime e with
  | RuntimeWapc st => wapc_wf ctx st
  | RuntimeCli st => wst_eval_ctx st = ctx
  | RuntimeFerricel st => ∃ pre, st = FerricelStack_new_from_pre pre ctx
  | RuntimeRego _ => True
  end.

Definition is_rego (pre : StackPre) : bool :=
  match pre with StackPreRego _ => true | _ => false end.

(** What bounds the requests of a policy: for a Rego policy, whose runtime lists its resources on
    the channel without going through the gate, its allow list alone; for the others, what the gate
    grants to their capabilities and resources. *)
Definition permits ctx (rego : bool) : CallbackRequestType → Prop :=
  if rego then about (ctx_aware_resources_allow_list ctx) else mediated ctx.

Definition runs_rego e : bool := match pe_runtime e with RuntimeRego _ => true | _ => false end.

Lemma rehydrate_bound pre ctx w e w' :
  PolicyEvaluatorPre_rehydrate pre ctx w = Some (Ok e, w') →
  bound ctx e ∧ runs_rego e = is_rego pre.
Proof.
  intros (r & w1 & Hr & [= <- _])%mr_bind_Ok. rw /bound /runs_rego /=. destruct pre as [pre|pre|pre|pre].
  - apply m_bind_Some in Hr as ([st|] & w2 & Hst & [= <- _]). split; [split; [done|]|done].
    by eapply WapcStack_new_from_pre_wf.
  - by injection Hr as <- _.
  - by apply m_bind_Some in Hr as ([st|] & w2 & Hst & [= <- _]).
  - injection Hr as <- _. split; [split; [done|]|done]. by eexists.
Qed.

Lemma rehydrate_emits pre ctx : emits (permits ctx (is_rego pre)) (PolicyEvaluatorPre_rehydrate pre ctx).
Proof.
  rw /PolicyEvaluatorPre_rehydrate /permits. destruct pre as [pre|pre|pre|pre]; simpl; host_steps.
  - apply WapcStack_new_from_pre_emits.
  - apply quiet_emits, RegoStack_new_from_pre_quiet.
Qed.

Lemma Wasi_validate_emits (st : WasiStack) settings request :
  emits (mediated (wst_eval_ctx st)) (Wasi_validate (WasiStack_run st) settings request).
Proof. rw /Wasi_validate. host_steps. apply WasiStack_run_emits. Qed.

Lemma Evaluator_validate_emits ctx e request settings :
  bound ctx e → emits (permits ctx (runs_rego e)) (Evaluator_validate e request settings).
Proof.
  intros [Hctx Hb]. rw /Evaluator_validate /permits /runs_rego.
  destruct (pe_runtime e) as [st|st|st|st]; simpl; host_steps.
  - by apply Wapc_validate_emits.
  - rw Hctx. apply build_kubernetes_context_emits.
  - apply quiet_emits, Rego_validate_quiet.
  - rw -Hb. apply Wasi_validate_emits.
  - destruct Hb as [pre ->]. apply Ferricel_validate_emits.
Qed.

Lemma Evaluator_validate_bound ctx e request settings w e' response w' :
  bound ctx e → Evaluator_validate e request settings w = Some ((e', response), w') →
  bound ctx e' ∧ runs_rego e' = runs_rego e.
Proof.
  intros [Hctx Hb] Hv. rw /Evaluator_validate in Hv. rw /bound /runs_rego.
  destruct (pe_runtime e) as [st|st|st|st] eqn:Hr.
  - apply m_bind_Some in Hv as ([st' r] & w1 & Hst & [= <- _ _]). split; [split; [done|]|done].
    by eapply Wapc_validate_wf.
  - apply m_bind_Some in Hv as ([kc|err] & w1 & _ & Hv).
    + by apply m_bind_Some in Hv as ([st' r] & w2 & _ & [= <- _ _]).
    + injection Hv as <- _ _. by rw Hr.
  - apply m_bind_Some in Hv as (r & w1 & _ & [= <- _ _]). by rw Hr.
  - apply m_bind_Some in Hv as (r & w1 & _ & [= <- _ _]). by rw Hr.
Qed.

Lemma Evaluator_validate_settings_emits ctx e settings :
  bound ctx e → emits (permits ctx (runs_rego e)) (Evaluator_validate_settings e settings).
Proof.
  intros [Hctx Hb]. rw /Evaluator_validate_settings /permits /runs_rego.
  destruct (json_to_string _); [|apply emits_ret].
  destruct (pe_runtime e) as [st|st|st|st]; simpl; host_steps.
  - by apply Wapc_validate_settings_emits.
  - rw /Wasi_validate_settings -Hb. host_steps. apply WasiStack_run_emits.
Qed.

(** The context of a policy with other host capabilities. *)
Definition with_capabilities (hc : HostCapabilities) ctx : EvaluationContext :=
  {| policy_id := policy_id ctx; callback_channel := callback_channel ctx;
     ctx_aware_resources_allow_list := ctx_aware_resources_allow_list ctx;
     epoch_deadline := epoch_deadline ctx; host_capabilities := hc |}.

(** What is seen of a validation from outside: the answer and the world. *)
Definition observed {A B X} (r : option ((A * B) * X)) : option (B * X) := (λ x, (x.1.2, x.2)) <$> r.

(** The host capabilities of a Rego policy are never looked at: with any others it answers the
    same and asks the same. *)
Lemma rego_ignores_capabilities pre ctx hc request settings w e w1 :
  is_rego pre = true → PolicyEvaluatorPre_rehydrate pre ctx w = Some (Ok e, w1) →
  ∃ e_hc, PolicyEvaluatorPre_rehydrate pre (with_capabilities hc ctx) w = Some (Ok e_hc, w1) ∧
    observed (Evaluator_validate e_hc request settings w1) = observed (Evaluator_validate e request settings w1) ∧
    Evaluator_validate_settings e_hc settings w1 = Evaluator_validate_settings e settings w1.
Proof.
  destruct pre as [pre|pre|pre|pre]; try done. intros _ (r & w2 & Hr & [= <- <-])%mr_bind_Ok.
  apply m_bind_Some in Hr as ([st|] & w3 & Hst & [= <- <-]).
  exists {| pe_runtime := RuntimeRego st; pe_eval_ctx := with_capabilities hc ctx |}. split_and!.
  - rw /PolicyEvaluatorPre_rehydrate /mr_bind /m_bind.
    change (RegoStack_new_from_pre pre (with_capabilities hc ctx)) with (RegoStack_new_from_pre pre ctx).
    by rw Hst.
  - rw /Evaluator_validate /observed /m_bind /=. destruct (build_kubernetes_context _ _ _ _) as [[[kc|err] w4]|]; [|done..].
    by destruct (Rego_validate st settings request kc w4) as [[[]]|].
  - done.
Qed.

(** C3. Least privilege of every runtime: from the rehydration of a policy with a context to its
    answer, and on the validation of its settings, each request put on the callback channel is one
    that the context lets the runtime make. For waPC, WASI and CEL policies, that is what the gate
    grants to their host capabilities and their resources. For Rego policies it is a listing of
    a resource of their allow list: the host capabilities of a Rego policy have no effect, although the
    documentation of the context and of the gate says that they are consulted for every
    policy. Earlier requests are left in place, and the evaluator stays bound to the same
    context, also after a timeout reset it. *)
Theorem evaluator_least_privilege pre ctx request settings w e w1 :
  PolicyEvaluatorPre_rehydrate pre ctx w = Some (Ok e, w1) →
  (∀ e' response w2, Evaluator_validate e request settings w1 = Some ((e', response), w2) →
     bound ctx e' ∧
     ∃ reqs, channel_log w2 = channel_log w ++ reqs ∧ Forall (permits ctx (is_rego pre)) reqs) ∧
  (∀ r w2, Evaluator_validate_settings e settings w1 = Some (r, w2) →
     ∃ reqs, channel_log w2 = channel_log w ++ reqs ∧ Forall (permits ctx (is_rego pre)) reqs) ∧
  (is_rego pre = true → ∀ hc, ∃ e_hc,
     PolicyEvaluatorPre_rehydrate pre (with_capabilities hc ctx) w = Some (Ok e_hc, w1) ∧
     observed (Evaluator_validate e_hc request settings w1) = observed (Evaluator_validate e request settings w1)).
Proof.
  intros Hre. destruct (rehydrate_bound _ _ _ _ _ Hre) as [Hb Hrego].
  destruct (rehydrate_emits _ _ _ _ _ Hre) as (reqs1 & Hlog1 & Hreqs1).
  assert (∀ A (c : M (HostWorld W) A) a w2, emits (permits ctx (runs_rego e)) c → c w1 = Some (a, w2) →
    ∃ reqs, channel_log w2 = channel_log w ++ reqs ∧ Forall (permits ctx (is_rego pre)) reqs) as Hthen.
  { intros A c a w2 Hc Hcw. destruct (Hc _ _ _ Hcw) as (reqs2 & Hlog2 & Hreqs2).
    exists (reqs1 ++ reqs2). rw Hlog2 Hlog1 app_assoc. split; [done|].
    apply Forall_app_2; [done|]. by rw -Hrego. }
  split_and!.
  - intros e' response w2 Hv. split; [by eapply Evaluator_validate_bound|].
    eapply Hthen; [by apply Evaluator_validate_emits|done].
  - intros r w2 Hv. eapply Hthen; [by apply Evaluator_validate_settings_emits|done].
  - intros Hr hc. destruct (rego_ignores_capabilities pre ctx hc request settings w e w1 Hr Hre)
      as (e_hc & ? & ? & _). by exists e_hc.
Qed.

(** *** The interface *)

Lemma Evaluator_validate_uid e request settings w e' response w' :
  Evaluator_validate e request settings w = Some ((e', response), w') →
  uid response = request_uid request.
Proof.
  rw /Evaluator_validate. destruct (pe_runtime e) as [st|st|st|st].
  - intros ([st' r] & w1 & Hv & [= _ <- _])%m_bind_Some. by eapply Wapc_validate_uid.
  - intros ([kc|err] & w1 & _ & Hv)%m_bind_Some; [|by injection Hv as _ <- _].
    apply m_bind_Some in Hv as ([st' r] & w2 & Hv & [= _ <- _]). by eapply Rego_validate_uid.
  - intros (r & w1 & Hv & [= _ <- _])%m_bind_Some. by eapply Wasi_validate_uid.
  - intros (r & w1 & Hv & [= _ <- _])%m_bind_Some. by eapply Ferricel_validate_uid.
Qed.

(** The evaluator keeps the promise of the interface, so that what is proved of
    the policy server against it holds of the server with these runtimes. *)
#[export] Instance evaluator_runtime_laws : PolicyRuntimeLaws evaluator_runtime.
Proof.
  split. intros e request settings w response w' ([e' r] & w1 & Hv & [= <- _])%m_bind_Some.
  by eapply Evaluator_validate_uid.
Qed.

(** A Wasm guest that speaks waPC or CEL cannot make its evaluation panic. *)
Lemma evaluator_validate_total e request settings :
  match pe_runtime e with RuntimeWapc _ | RuntimeFerricel _ => True | _ => False end →
  panic_free (Evaluator_validate e request settings).
Proof.
  rw /Evaluator_validate. destruct (pe_runtime e); try done; intros _; host_steps;
    [apply Wapc_validate_total|apply Ferricel_validate_total].
Qed.

(** *** The inventory cache of the process *)

Lemma Evaluator_validate_keeps e request settings :
  keeps cache_sound (Evaluator_validate e request settings).
Proof.
  rw /Evaluator_validate /Wasi_validate. destruct (pe_runtime e); host_steps.
  - apply Wapc_validate_keeps.
  - apply build_kubernetes_context_keeps.
  - apply quiet_keeps, Rego_validate_quiet.
  - apply WasiStack_run_keeps.
  - apply Ferricel_validate_keeps.
Qed.

Lemma Evaluator_validate_settings_keeps e settings :
  keeps cache_sound (Evaluator_validate_settings e settings).
Proof.
  rw /Evaluator_validate_settings /Wapc_validate_settings /Wasi_validate_settings.
  destruct (json_to_string _); [|apply keeps_ret].
  destruct (pe_runtime e); host_steps; [apply WapcStack_call_keeps|apply WasiStack_run_keeps].
Qed.

Lemma rehydrate_keeps pre ctx : keeps cache_sound (PolicyEvaluatorPre_rehydrate pre ctx).
Proof.
  rw /PolicyEvaluatorPre_rehydrate /WapcStack_new_from_pre. destruct pre; host_steps.
  - apply wapc_host_from_pre_keeps.
  - apply quiet_keeps, RegoStack_new_from_pre_quiet.
Qed.

(** What evaluators do to the world, in any order and for any policies. *)
Inductive evaluator_step : relation (HostWorld W) :=
| step_rehydrate pre ctx w r w' :
    PolicyEvaluatorPre_rehydrate pre ctx w = Some (r, w') → evaluator_step w w'
| step_validate e request settings w r w' :
    Evaluator_validate e request settings w = Some (r, w') → evaluator_step w w'
| step_validate_settings e settings w r w' :
    Evaluator_validate_settings e settings w = Some (r, w') → evaluator_step w w'.

(** C13. Whatever policies the process has evaluated since its cache was
    empty, in whatever order and with whatever answers of the cluster, a Gatekeeper
    policy is handed a document with objects of its own resources only. *)
Theorem reachable_inventory_isolation w0 w st ch resources data w' :
  inventories w0 = ∅ → rtc evaluator_step w0 w →
  build_kubernetes_context st ch resources w = Some (Ok (KCGatekeeper data), w') →
  ∃ inv, json_to_string (Gatekeeper.GatekeeperInput_to_value inv) = Ok data ∧
    ∀ ns av kind name, {| car_api_version := av; car_kind := kind |} ∉ resources →
      gatekeeper_get inv ns av kind name = None.
Proof.
  intros Hempty Hsteps Hb.
  assert (cache_sound (inventories w0)) as Hs0
    by (intros K ci; by rw Hempty lookup_empty).
  assert (cache_sound (inventories w)) as Hs.
  { clear Hb Hempty. induction Hsteps as [|w0 w1 w Hstep _ IH]; [done|]. apply IH. destruct Hstep;
      [by eapply rehydrate_keeps|by eapply Evaluator_validate_keeps|
       by eapply Evaluator_validate_settings_keeps]. }
  by destruct (gatekeeper_cache_document _ _ _ _ _ _ Hs Hb) as [_ ?].
Qed.
End evaluator_properties.

(** ** Concrete instances *)

(** A WASI guest that does what its pre-instance lists, and returns. *)
Definition scripted_wasi : @WasiEngine unit_sdk nat := {|
  InstancePre := list GuestAction;
  wasi_execute actions _ _ _ _ _ w :=
    ({| ex_instantiate := Ok tt; ex_start_fn := Ok tt; ex_actions := actions;
        ex_exit := Returned |}, S w);
|}.

#[local] Existing Instance bare_codec.
#[local] Existing Instance word_codec.
#[local] Existing Instance demo_patch_lib.
#[local] Existing Instance simple_kube.
#[local] Existing Instance simple_ferricel_sdk.
#[local] Existing Instance scripted_wapc.
#[local] Existing Instance scripted_wasi.
#[local] Existing Instance simple_rego.
#[local] Existing Instance simple_rego_codec.
#[local] Existing Instance scripted_ferricel.

Definition interrupted_pre : StackPre (SD := unit_sdk) (W := nat) :=
  StackPreWapc (interrupted_script : @WasmtimeEngineProviderPre unit_sdk nat scripted_wapc).

Lemma evaluator_least_privilege_witness :
  ∃ e w1 e' response w2,
    PolicyEvaluatorPre_rehydrate interrupted_pre example_context (fresh_world 0) = Some (Ok e, w1) ∧
    Evaluator_validate e (AdmissionReviewRequest namespace_review) [] w1 =
      Some ((e', response), w2) ∧
    length (channel_log w2) = 1 ∧ bound example_context e'.
Proof.
  do 5 eexists. split; [reflexivity|]. split; [reflexivity|]. split; [reflexivity|].
  eapply (evaluator_least_privilege interrupted_pre example_context
    (AdmissionReviewRequest namespace_review) [] (fresh_world 0)); reflexivity.
Defined.

Definition gatekeeper_pre : StackPre (SD := unit_sdk) (W := nat) := StackPreRego simple_rego_pre.

Lemma reachable_inventory_isolation_witness :
  ∃ (d : string) (inv : Gatekeeper.GatekeeperInventory),
    served simple_context = Some (d, 1) ∧
    json_to_string (Gatekeeper.GatekeeperInput_to_value inv) = Ok d ∧
    gatekeeper_get inv None "v1" "Secret" "token" = None.
Proof.
  assert (snd <$> PolicyEvaluatorPre_rehydrate gatekeeper_pre example_context (fresh_world 0) =
    Some (fresh_world 0)) as Hstep by (vm_compute; reflexivity).
  destruct (PolicyEvaluatorPre_rehydrate gatekeeper_pre example_context (fresh_world 0))
    as [[r w]|] eqn:Hre; [|discriminate Hstep]. injection Hstep as ->.
  assert (served simple_context = Some ("{}", 1)) as Hobs by (vm_compute; reflexivity).
  destruct simple_context as [[[[|i|d]|err] w']|] eqn:Hctx; try discriminate Hobs.
  destruct (reachable_inventory_isolation (fresh_world 0) (fresh_world 0) simple_rego_stack
    (callback_channel example_context) (ctx_aware_resources_allow_list example_context) d w')
    as (inv & Hinv & Hiso); [reflexivity| |exact Hctx|].
  - clear -Hre. apply rtc_once. eapply step_rehydrate. exact Hre.
  - exists d, inv. split; [|split; [exact Hinv|apply Hiso; apply (bool_decide_unpack _); vm_compute; exact I]].
    clear -Hobs. injection Hobs as _ Hn. cbn. rewrite Hn. exact eq_refl.
Defined.
