(* ===== verification/PolicyBuilder.v ===== *)
(** * The builder of policy evaluators

    Models [policy_evaluator/policy_evaluator_builder.rs] and the constructors of
    the four [StackPre] types of [runtimes/].

    wasmtime, its cache, [wasmtime_provider] and [ferricel_core] are the
    parameter [BuilderLib]; a wasmtime engine and module are those of
    [RegoWasm]. A panic of the host is the outcome [None]. *)

From S2P Require Import Prelude Bytes RustStr Json AdmissionResponse Request HostCapabilities.
From S2P Require Import Callback HostWorld WasiPipes WasiStack Runtime Wapc RegoInventory Burrego Rego.
From S2P Require Import FerricelExtensions Ferricel Evaluator.

Inductive InvalidUserInputError :=
| FileAndContents
| FileAndModule
| ContentsAndModule
| OneOfFileContentsModule
| EngineForModule.

Definition InvalidUserInputError_to_string (e : InvalidUserInputError) : string :=
  match e with
  | FileAndContents => "cannot specify 'policy_file' and 'policy_contents' at the same time"
  | FileAndModule => "cannot specify 'policy_file' and 'policy_module' at the same time"
  | ContentsAndModule => "cannot specify 'policy_contents' and 'policy_module' at the same time"
  | OneOfFileContentsModule =>
      "must specify one among: `policy_file`, `policy_contents` and `policy_module`"
  | EngineForModule =>
      "you must provide the `engine` that was used to instantiate the given `policy_module`"
  end.

Inductive PolicyEvaluatorBuilderError :=
| ConvertPath
| ExecutionModeNotRegoCompatible
| InvalidUserInput (e : InvalidUserInputError)
| WasmtimeEngineBuild (e : string)
| WasmModuleBuild (e : string)
| NewWapcStackPre (e : WapcRuntimeError)
| NewWasiStackPre (e : WasiRuntimeError)
| NewFerricelStackPre (e : FerricelRuntimeError)
| ReadPolicyFileForVapVariables (e : string)
| ReadVapVariables (e : string)
| FerricelAbiVersion (e : FerricelRuntimeError).

Definition PolicyEvaluatorBuilderError_to_string (e : PolicyEvaluatorBuilderError) : string :=
  match e with
  | ConvertPath => "cannot convert given path to String"
  | ExecutionModeNotRegoCompatible =>
      "execution mode not convertible to a Rego based execution mode"
  | InvalidUserInput e => InvalidUserInputError_to_string e
  | WasmtimeEngineBuild e => "error when creating wasmtime engine: " +:+ e
  | WasmModuleBuild e => "error when building wasm module: " +:+ e
  | NewWapcStackPre e =>
      "error when building wapc precompiled stack: " +:+ WapcRuntimeError_to_string e
  | NewWasiStackPre e =>
      "error when building wasi precompiled stack: " +:+ WasiRuntimeError_to_string e
  | NewFerricelStackPre e =>
      "error when building ferricel precompiled stack: " +:+ FerricelRuntimeError_to_string e
  | ReadPolicyFileForVapVariables e =>
      "cannot read policy file to inspect ferricel VAP variables: " +:+ e
  | ReadVapVariables e =>
      "cannot read VAP variables referenced by the compiled ferricel module: " +:+ e
  | FerricelAbiVersion e => FerricelRuntimeError_to_string e
  end.

(** The options of [wasmtime::Config] the builder sets. *)
Record EngineConfig := {
  ec_cache : bool;
  ec_epoch_interruption : bool;
  ec_function_references : bool;
}.

Class BuilderLib `{SD : SdkTypes} (W : Type) `{!WapcLib W, !WasiEngine W, !RegoWasm W, !FerricelLib W} := {
  (** [wasmtime::Cache::new], [Engine::new], [Module::from_file] and [Module::new] *)
  cache_new : W → result unit string * W;
  wasmtime_engine_new : EngineConfig → W → result RegoEngine string * W;
  module_of_file : RegoEngine → string → W → result RegoModule string * W;
  module_new : RegoEngine → bytes → W → result RegoModule string * W;
  (** [WasmtimeEngineProviderBuilder::build_pre] *)
  wapc_build_pre : RegoEngine → RegoModule → option ResourceLimits →
    result WasmtimeEngineProviderPre ForeignError;
  (** The WASI linker: [add_to_linker_sync], [func_wrap] of the host call under a
      module and a name, and [instantiate_pre] *)
  WasiLinker : Type;
  linker_new : RegoEngine → result WasiLinker string;
  func_wrap : WasiLinker → string → string → result WasiLinker string;
  linker_instantiate_pre : WasiLinker → RegoModule → result InstancePre string;
  (** [ferricel_core::runtime::Builder::build_pre] and [vap_variables_used] *)
  ferricel_build_pre : RegoEngine → RegoModule → option ResourceLimits → result EnginePre string;
  vap_variables_used : bytes → result (list string) string;
  (** [std::fs::read] *)
  fs_read : string → W → result bytes string * W;
}.

Section builder.
Context `{SD : SdkTypes, HI : HashIter, CC : !CallbackCodec, JC : !JsonCodec, PL : !PatchLib}.
Context `{KL : !KubeLib, FS : !FerricelSdk} {W : Type}.
Context `{WL : !WapcLib W, WE : !WasiEngine W, RW : !RegoWasm W, RC : !RegoCodec W, FL : !FerricelLib W}.
Context `{BL : !BuilderLib W}.

Notation HM := (M (HostWorld W)).

(** ** The stacks *)

Definition wapc_stack_pre_new (engine : RegoEngine) (module : RegoModule)
    (limits : option ResourceLimits) : result WasmtimeEngineProviderPre WapcRuntimeError :=
  map_err WasmtimeEngineBuilder (wapc_build_pre engine module limits).

(** The host call, under the name of the Wasm SDKs and that of the JS policies. *)
Definition add_host_call_to_linker (linker : WasiLinker) : result WasiLinker WasiRuntimeError :=
  let? linker := map_err (WasmHostFuncDefinitionError "host.call")
    (func_wrap linker "host" "call") in
  map_err (WasmHostFuncDefinitionError "kubewarden:javy/host:call")
    (func_wrap linker "kubewarden:javy/host" "call").

Definition wasi_stack_pre_new (engine : RegoEngine) (module : RegoModule)
    (limits : option ResourceLimits) : result WasiStackPre WasiRuntimeError :=
  let? linker := map_err WasmLinkerError (linker_new engine) in
  let? linker := add_host_call_to_linker linker in
  let? instance_pre := map_err WasmInstantiate (linker_instantiate_pre linker module) in
  Ok {| wsp_instance_pre := instance_pre; wsp_resource_limits := limits |}.

Definition rego_stack_pre_new (engine : RegoEngine) (module : RegoModule) (entrypoint_id : Z)
    (mode : RegoPolicyExecutionMode) (limits : option ResourceLimits) : RegoStackPre :=
  {| rsp_engine := engine; rsp_module := module; rsp_entrypoint_id := entrypoint_id;
     rsp_policy_execution_mode := mode;
     rsp_resource_limits := ResourceLimits_to_rego <$> limits |}.

Definition ferricel_stack_pre_new (engine : RegoEngine) (module : RegoModule)
    (vap_variables : option (gset string)) (limits : option ResourceLimits) :
    result FerricelStackPre FerricelRuntimeError :=
  let? engine_pre := map_err EngineBuild (ferricel_build_pre engine module limits) in
  Ok {| fsp_engine_pre := engine_pre; fsp_vap_variables := vap_variables |}.

(** ** The builder *)

Record PolicyEvaluatorBuilder := {
  pb_engine : option RegoEngine;
  pb_policy_file : option string;
  pb_policy_contents : option bytes;
  pb_policy_module : option RegoModule;
  pb_execution_mode : option PolicyExecutionMode;
  pb_wasmtime_cache : bool;
  pb_epoch_deadlines : option EpochDeadlines;
  pb_resource_limits : option ResourceLimits;
}.

Definition PolicyEvaluatorBuilder_new : PolicyEvaluatorBuilder :=
  {| pb_engine := None; pb_policy_file := None; pb_policy_contents := None;
     pb_policy_module := None; pb_execution_mode := None; pb_wasmtime_cache := false;
     pb_epoch_deadlines := None; pb_resource_limits := None |}.

Definition some {A} (o : option A) : bool := bool_decide (is_Some o).

Definition validate_user_input (b : PolicyEvaluatorBuilder) : result unit InvalidUserInputError :=
  if some (pb_policy_file b) && some (pb_policy_contents b) then Err FileAndContents
  else if some (pb_policy_file b) && some (pb_policy_module b) then Err FileAndModule
  else if some (pb_policy_contents b) && some (pb_policy_module b) then Err ContentsAndModule
  else if negb (some (pb_policy_file b)) && negb (some (pb_policy_contents b)) &&
          negb (some (pb_policy_module b)) then Err OneOfFileContentsModule
  else if negb (some (pb_engine b)) && some (pb_policy_module b) then Err EngineForModule
  else Ok tt.

Definition build_engine (b : PolicyEvaluatorBuilder) :
    HM (result RegoEngine PolicyEvaluatorBuilderError) :=
  match pb_engine b with
  | Some e => m_ret (Ok e)
  | None =>
      let! r :=
        let!? _ := if pb_wasmtime_cache b then in_engine cache_new else m_ret (Ok tt) in
        in_engine (wasmtime_engine_new
          {| ec_cache := pb_wasmtime_cache b;
             ec_epoch_interruption := some (pb_epoch_deadlines b);
             ec_function_references := true |}) in
      m_ret (map_err WasmtimeEngineBuild r)
  end.

Definition build_module (b : PolicyEvaluatorBuilder) (engine : RegoEngine) :
    HM (result RegoModule PolicyEvaluatorBuilderError) :=
  match pb_policy_module b with
  | Some m => m_ret (Ok m)
  | None =>
      match pb_policy_file b with
      | Some file =>
          let! r := in_engine (module_of_file engine file) in m_ret (map_err WasmModuleBuild r)
      | None =>
          match pb_policy_contents b with
          | Some contents =>
              let! r := in_engine (module_new engine contents) in
              m_ret (map_err WasmModuleBuild r)
          | None => panic
          end
      end
  end.

Definition ferricel_module_info (b : PolicyEvaluatorBuilder) :
    HM (result (option (gset string)) PolicyEvaluatorBuilderError) :=
  let inspect wasm_bytes :=
    let? _ := map_err FerricelAbiVersion (check_abi_version (of_bytes wasm_bytes)) in
    let? vap_variables := map_err ReadVapVariables (vap_variables_used wasm_bytes) in
    Ok (Some (list_to_set vap_variables)) in
  match pb_policy_contents b, pb_policy_file b with
  | Some contents, _ => m_ret (inspect contents)
  | None, Some file =>
      let! r := in_engine (fs_read file) in
      m_ret (let? wasm_bytes := map_err ReadPolicyFileForVapVariables r in inspect wasm_bytes)
  | None, None => m_ret (Ok None)
  end.

(** The entrypoint of a Rego module is always the first one. *)
Definition build_policy_pre (b : PolicyEvaluatorBuilder) :
    HM (result StackPre PolicyEvaluatorBuilderError) :=
  let!? _ := m_ret (map_err InvalidUserInput (validate_user_input b)) in
  let!? engine := build_engine b in
  let!? module := build_module b engine in
  let limits := pb_resource_limits b in
  match unwrap_or PolicyExecutionMode_default (pb_execution_mode b) with
  | KubewardenWapc =>
      m_ret (let? pre := map_err NewWapcStackPre (wapc_stack_pre_new engine module limits) in
             Ok (StackPreWapc pre))
  | Wasi =>
      m_ret (let? pre := map_err NewWasiStackPre (wasi_stack_pre_new engine module limits) in
             Ok (StackPreWasi pre))
  | (Opa | OpaGatekeeper) as mode =>
      m_ret (let? mode := ok_or (RegoPolicyExecutionMode_try_from mode)
               ExecutionModeNotRegoCompatible in
             Ok (StackPreRego (rego_stack_pre_new engine module 0 mode limits)))
  | Ferricel =>
      let!? vap_variables := ferricel_module_info b in
      m_ret (let? pre := map_err NewFerricelStackPre
               (ferricel_stack_pre_new engine module vap_variables limits) in
             Ok (StackPreFerricel pre))
  end.

(** ** Properties *)

(** The input is accepted exactly when it has one source, with its engine if the
    source is a module. *)
Lemma validate_user_input_Ok b :
  validate_user_input b = Ok tt ↔
    (∃ f, pb_policy_file b = Some f ∧ pb_policy_contents b = None ∧ pb_policy_module b = None) ∨
    (∃ c, pb_policy_contents b = Some c ∧ pb_policy_file b = None ∧ pb_policy_module b = None) ∨
    (∃ m e, pb_policy_module b = Some m ∧ pb_engine b = Some e ∧
      pb_policy_file b = None ∧ pb_policy_contents b = None).
Proof.
  rw /validate_user_input. destruct b as [[e|] [f|] [c|] [m|] ? ? ? ?]; simpl; naive_solver.
Qed.

Lemma build_engine_total b : panic_free (build_engine b).
Proof.
  rw /build_engine. host_steps.
Qed.

Lemma build_module_total b e : validate_user_input b = Ok tt → panic_free (build_module b e).
Proof.
  intros Hv%validate_user_input_Ok. rw /build_module.
  destruct b as [? [f|] [c|] [m|] ? ? ? ?]; simpl in *; host_steps; naive_solver.
Qed.

Lemma ferricel_module_info_total b : panic_free (ferricel_module_info b).
Proof. rw /ferricel_module_info. host_steps. Qed.

Lemma build_policy_pre_total b : panic_free (build_policy_pre b).
Proof.
  rw /build_policy_pre. apply total_mr_ret. intros [] Hv. apply map_err_Ok in Hv.
  apply total_mr_bind; [apply build_engine_total|]. intros engine.
  apply total_mr_bind; [by apply build_module_total|]. intros module.
  destruct (unwrap_or _ _); host_steps. apply ferricel_module_info_total.
Qed.

(** The limits of a store for configured limits. *)
Definition limits_of (limits : option ResourceLimits) : StoreLimits :=
  {| sl_memory_size := limits ≫= rl_max_memory_size;
     sl_table_elements := limits ≫= rl_max_table_elements |}.

Definition pre_mode (pre : StackPre) : PolicyExecutionMode :=
  match pre with
  | StackPreWapc _ => KubewardenWapc
  | StackPreWasi _ => Wasi
  | StackPreRego p =>
      match rsp_policy_execution_mode p with RegoOpa => Opa | RegoGatekeeper => OpaGatekeeper end
  | StackPreFerricel _ => Ferricel
  end.

(** A pre-initialised policy that enforces the limits on the module. *)
Definition enforces (engine : RegoEngine) (module : RegoModule) (limits : option ResourceLimits)
    (pre : StackPre) : Prop :=
  match pre with
  | StackPreWapc p => wapc_build_pre engine module limits = Ok p
  | StackPreWasi p => wasi_store_limits p = limits_of limits
  | StackPreRego p => rsp_engine p = engine ∧ rsp_module p = module ∧
      store_limits (rsp_resource_limits p) = limits_of limits
  | StackPreFerricel p => ferricel_build_pre engine module limits = Ok (fsp_engine_pre p)
  end.

Definition supported_abi (wasm : bytes) : Prop := abi_version (of_bytes wasm) = Ok (Some ABI_VERSION).

(** A ferricel module whose bytes the builder can read has the ABI the runtime
    supports. *)
Definition abi_checked b : Prop :=
  match pb_policy_contents b, pb_policy_file b with
  | Some contents, _ => supported_abi contents
  | None, Some file => ∃ wasm w, (fs_read file w).1 = Ok wasm ∧ supported_abi wasm
  | None, None => True
  end.

Lemma check_abi_version_Ok wasm : check_abi_version (of_bytes wasm) = Ok tt → supported_abi wasm.
Proof.
  rw /check_abi_version /check_abi /supported_abi. destruct (abi_version _) as [found|]; [|done]. simpl.
  case_decide; [|done]. by subst.
Qed.

Lemma ferricel_module_info_Ok b w info w' :
  ferricel_module_info b w = Some (Ok info, w') → abi_checked b.
Proof.
  rw /ferricel_module_info /abi_checked.
  destruct (pb_policy_contents b) as [c|]; [|destruct (pb_policy_file b) as [f|]; [|done]].
  - intros [= Hc _]. res_simpl. rename select unit into u. destruct u.
    by apply check_abi_version_Ok.
  - rewrite m_bind_Some. intros (r & w1 & Hr & [= Hc _]). res_simpl.
    rename select unit into u. destruct u.
    rw /in_engine in Hr. destruct (fs_read f (engine w)) as [r e] eqn:Hf.
    simplify_eq. exists x, (engine w). rewrite Hf. split; [done|]. by apply check_abi_version_Ok.
Qed.

Lemma wasi_stack_pre_new_limits engine module limits p :
  wasi_stack_pre_new engine module limits = Ok p → wasi_store_limits p = limits_of limits.
Proof.
  rw /wasi_stack_pre_new. intros. res_simpl. rw /wasi_store_limits /limits_of /=.
  by destruct limits as [[]|].
Qed.

Lemma rego_limits limits :
  store_limits (ResourceLimits_to_rego <$> limits) = limits_of limits.
Proof. by destruct limits as [[]|]. Qed.

(** What is set up from an engine and a module, in the mode of the builder. *)
Lemma build_policy_pre_Ok b w pre w' :
  build_policy_pre b w = Some (Ok pre, w') →
  ∃ e m w1 w2, build_engine b w = Some (Ok e, w1) ∧ build_module b e w1 = Some (Ok m, w2) ∧
    enforces e m (pb_resource_limits b) pre ∧
    pre_mode pre = unwrap_or PolicyExecutionMode_default (pb_execution_mode b) ∧
    (pre_mode pre = Ferricel → abi_checked b).
Proof.
  rw /build_policy_pre. rewrite mr_bind_Ok. intros ([] & w0 & [= Hv <-] & H).
  apply mr_bind_Ok in H as (e & w1 & He & H). apply mr_bind_Ok in H as (m & w2 & Hm & H).
  exists e, m, w1, w2. split; [done|]. split; [done|].
  destruct (unwrap_or _ _) eqn:Hmode.
  - injection H as H _. res_simpl. rw /wapc_stack_pre_new in H0. by res_simpl.
  - injection H as H _. res_simpl. rewrite /= rego_limits. done.
  - injection H as H _. res_simpl. rewrite /= rego_limits. done.
  - injection H as H _. res_simpl. split_and!; [by eapply wasi_stack_pre_new_limits|done|done].
  - apply mr_bind_Ok in H as (info & w3 & Hi & [= H _]). res_simpl.
    rw /ferricel_stack_pre_new in H0. res_simpl. split_and!; [done|done|].
    intros _. by eapply ferricel_module_info_Ok.
Qed.

(** The builder never panics. What it builds runs in the configured mode, enforces
    the configured limits on the module, is built from the given engine and module when
    they are given, and a ferricel module whose bytes are at hand has the ABI the
    runtime supports. *)
Theorem build_policy_pre_spec b :
  panic_free (build_policy_pre b) ∧
  ∀ w pre w', build_policy_pre b w = Some (Ok pre, w') →
    validate_user_input b = Ok tt ∧
    pre_mode pre = unwrap_or PolicyExecutionMode_default (pb_execution_mode b) ∧
    (∃ engine module, enforces engine module (pb_resource_limits b) pre ∧
      (∀ e, pb_engine b = Some e → engine = e) ∧
      (∀ m, pb_policy_module b = Some m → module = m)) ∧
    (pre_mode pre = Ferricel → abi_checked b).
Proof.
  split; [apply build_policy_pre_total|]. intros w pre w' H.
  assert (validate_user_input b = Ok tt) as Hv.
  { rw /build_policy_pre in H. apply mr_bind_Ok in H as ([] & w0 & [= Hv _] & _).
    by apply map_err_Ok in Hv. }
  destruct (build_policy_pre_Ok _ _ _ _ H) as (e & m & w1 & w2 & He & Hm & Hp & Hmode & Habi).
  split_and!; [done|done| |done]. exists e, m. split_and!; [done| |].
  - intros e' He'. rw /build_engine He' in He. by injection He.
  - intros m' Hm'. rw /build_module Hm' in Hm. by injection Hm.
Qed.

End builder.
