(* ===== verification/GroupEvaluator.v ===== *)
(** * Policy groups

    Models [crates/policy-evaluator/src/policy_group_evaluator.rs] and
    [policy_group_evaluator/evaluator.rs]: a group decides with a boolean
    expression over its member policies.

    The expression engine (rhai) is third-party: [Rhai] states the call the code
    makes, [RhaiLaws] that evaluating an expression touches the host's state only
    through the registered functions. What the expressions of groups mean is in [GroupExpression]. *)

From S2P Require Import Prelude RustStr Json AdmissionResponse Request.
From S2P Require Import HostCapabilities Callback Runtime.

(** ** The expression engine *)

Class Rhai := {
  RhaiError : Type;
  (** [EvalAltResult::ErrorSystem(s, err)] *)
  rhai_error_system : string → string → RhaiError;
  rhai_error_to_string : RhaiError → string;
  (** [Engine::eval_expression::<bool>] with the given registered functions. *)
  eval_expression : ∀ {S : Type},
    gmap string (M S (result bool RhaiError)) → string → M S (result bool RhaiError);
}.

Class RhaiLaws (R : Rhai) : Prop := {
  eval_expression_frame : ∀ (S : Type) (P : S → Prop)
      (fns : gmap string (M S (result bool RhaiError))) expression s r s',
    P s →
    (∀ name f, fns !! name = Some f → ∀ s r s', P s → f s = Some (r, s') → P s') →
    eval_expression fns expression s = Some (r, s') → P s';
}.

(** ** Members *)

Record PolicyGroupMemberSettings := {
  pgm_settings : PolicySettings;
  pgm_ctx_aware_resources_allow_list : gset ContextAwareResource;
  pgm_epoch_deadline : option N;
  pgm_host_capabilities : HostCapabilities;
}.

(** The fields of the CRD's members that the conversions read. *)
Record CrdGroupMember := {
  crd_settings : Value;
  crd_context_aware_resources : list ContextAwareResource;
  crd_timeout_eval_seconds : option Z;
}.

(** [i32 as u64] *)
Definition i32_as_u64 (z : Z) : N := Z.to_N (z `mod` 2 ^ 64).

Definition member_settings_try_from_with_context (member : CrdGroupMember) :
    result PolicyGroupMemberSettings string :=
  let? settings := PolicySettings_try_from (crd_settings member) in
  Ok {| pgm_settings := settings;
        pgm_ctx_aware_resources_allow_list := list_to_set (crd_context_aware_resources member);
        pgm_epoch_deadline := i32_as_u64 <$> crd_timeout_eval_seconds member;
        pgm_host_capabilities := DenyAll |}.

Definition member_settings_try_from (member : CrdGroupMember) :
    result PolicyGroupMemberSettings string :=
  let? settings := PolicySettings_try_from (crd_settings member) in
  Ok {| pgm_settings := settings;
        pgm_ctx_aware_resources_allow_list := ∅;
        pgm_epoch_deadline := i32_as_u64 <$> crd_timeout_eval_seconds member;
        pgm_host_capabilities := DenyAll |}.

Record MemberResult := { mr_allowed : bool; mr_message : option string }.

(** [impl From<AdmissionResponse> for PolicyGroupMemberEvaluationResult] *)
Definition MemberResult_from (response : AdmissionResponse) : MemberResult :=
  {| mr_allowed := allowed response;
     mr_message := match status response with Some st => st_message st | None => None end |}.

Definition MemberResult_to_string (r : MemberResult) : string :=
  (if mr_allowed r then "[ALLOWED]" else "[DENIED]") +:+
  match mr_message r with Some message => " - " +:+ message | None => "" end.

(** ** Errors ([policy_group_evaluator/errors.rs]) *)

Inductive GroupError :=
| EvaluatorPreNotFound (s : string)
| SettingsNotFound (s : string)
| SettingsNotValid (s : string)
| CannotRehydratePolicyGroupMember (s e : string).

Definition GroupError_to_string (e : GroupError) : string :=
  match e with
  | EvaluatorPreNotFound s => "EvaluatorPre not found: " +:+ s
  | SettingsNotFound s => "settings not found policy: " +:+ s
  | SettingsNotValid s => "settings not valid: " +:+ s
  | CannotRehydratePolicyGroupMember s e =>
      "Attempted to rehydrated policy '" +:+ s +:+ "': " +:+ e
  end.

(** ** The evaluator *)

Section group.
Context `{HashIter, SdkTypes, PR : !PolicyRuntime, R : !Rhai}.

Record PolicyGroupEvaluator := {
  pg_policy_id : string;
  pg_message : string;
  pg_expression : string;
  pg_policy_members : gmap string PolicyEvaluatorPre;
  pg_policy_members_settings : gmap string PolicyGroupMemberSettings;
  pg_callback_channel : option Channel;
}.

Implicit Types (g : PolicyGroupEvaluator) (request : ValidateRequest).

Definition group_new (id message expression : string) (channel : option Channel) :
    PolicyGroupEvaluator :=
  {| pg_policy_id := id; pg_message := message; pg_expression := expression;
     pg_policy_members := ∅; pg_policy_members_settings := ∅; pg_callback_channel := channel |}.

Definition add_policy_member g (name : string) (pre : PolicyEvaluatorPre)
    (settings : PolicyGroupMemberSettings) : PolicyGroupEvaluator :=
  {| pg_policy_id := pg_policy_id g; pg_message := pg_message g;
     pg_expression := pg_expression g;
     pg_policy_members := <[name := pre]> (pg_policy_members g);
     pg_policy_members_settings := <[name := settings]> (pg_policy_members_settings g);
     pg_callback_channel := pg_callback_channel g |}.

Definition member_context g (name : string) (settings : PolicyGroupMemberSettings) :
    EvaluationContext :=
  {| policy_id := name;
     callback_channel := pg_callback_channel g;
     ctx_aware_resources_allow_list := pgm_ctx_aware_resources_allow_list settings;
     epoch_deadline := pgm_epoch_deadline settings;
     host_capabilities := pgm_host_capabilities settings |}.

(** Look a member up and rehydrate it with a context of its own. *)
Definition rehydrate_member g (name : string) :
    M World (result (PolicyEvaluator * PolicyGroupMemberSettings) GroupError) :=
  match pg_policy_members g !! name with
  | None => m_ret (Err (EvaluatorPreNotFound name))
  | Some pre =>
      match pg_policy_members_settings g !! name with
      | None => m_ret (Err (SettingsNotFound name))
      | Some settings =>
          let! r := rehydrate pre (member_context g name settings) in
          m_ret (match r with
                 | Ok evaluator => Ok (evaluator, settings)
                 | Err e => Err (CannotRehydratePolicyGroupMember name e)
                 end)
      end
  end.

Definition validate_policy g (name : string) request :
    M World (result AdmissionResponse GroupError) :=
  let! r := rehydrate_member g name in
  match r with
  | Err e => m_ret (Err e)
  | Ok (evaluator, settings) =>
      let! response := evaluator_validate evaluator request (pgm_settings settings) in
      m_ret (Ok response)
  end.

Definition mutation_message : string := "mutation is not allowed inside of policy group".

(** The state the registered functions share: the world and the mutex-protected
    map of results. *)
Definition GroupState : Type := World * gmap string MemberResult.

(** What a member's answer is recorded as. *)
Definition member_result (response : AdmissionResponse) : MemberResult :=
  match patch response with
  | Some _ => {| mr_allowed := false; mr_message := Some mutation_message |}
  | None => MemberResult_from response
  end.

(** The function registered under a member's name. *)
Definition member_function g request (name : string) :
    M GroupState (result bool RhaiError) := λ '(w, results),
  match validate_policy g name request w with
  | None => None
  | Some (Err e, w) =>
      Some (Err (rhai_error_system ("error invoking " +:+ pg_policy_id g +:+ "/" +:+ name)
                   (GroupError_to_string e)), (w, results))
  | Some (Ok response, w) =>
      match patch response with
      | Some _ =>
          Some (Ok false,
            (w, <[name := {| mr_allowed := false; mr_message := Some mutation_message |}]> results))
      | None =>
          Some (Ok (allowed response), (w, <[name := MemberResult_from response]> results))
      end
  end.

Definition member_functions g request : gmap string (M GroupState (result bool RhaiError)) :=
  map_imap (λ name _, Some (member_function g request name)) (pg_policy_members g).

Definition member_cause (name : string) (r : MemberResult) : StatusCause :=
  {| sc_reason := None; sc_message := mr_message r;
     sc_field := Some ("spec.policies." +:+ name) |}.

(** One cause per member that was evaluated and denied. *)
Definition status_causes g (results : gmap string MemberResult) : list StatusCause :=
  omap (λ name, match results !! name with
                | Some r => if mr_allowed r then None else Some (member_cause name r)
                | None => None
                end) (hash_keys (pg_policy_members g)).

Definition group_response g request (allow : bool) (results : gmap string MemberResult) :
    AdmissionResponse :=
  {| uid := request_uid request; allowed := allow; patch_type := None; patch := None;
     status :=
       if allow then None
       else Some {| st_status := None; st_message := Some (pg_message g); st_reason := None;
                    st_details := Some {| sd_name := None; sd_group := None; sd_kind := None;
                      sd_uid := None; sd_causes := status_causes g results;
                      sd_retry_after_seconds := None |};
                    st_code := None |};
     audit_annotations := None; warnings := None |}.

(** [PolicyGroupEvaluator::validate] *)
Definition group_validate g request : M World AdmissionResponse := λ w,
  match eval_expression (member_functions g request) (pg_expression g) (w, ∅) with
  | None => None
  | Some (Err e, (w, _)) =>
      Some (reject (request_uid request)
        ("error evaluating policy group expression: " +:+ rhai_error_to_string e) 500, w)
  | Some (Ok allow, (w, results)) => Some (group_response g request allow results, w)
  end.

(** ** Settings *)

Definition validate_policy_settings g (name : string) : M World (result unit GroupError) :=
  let! r := rehydrate_member g name in
  match r with
  | Err e => m_ret (Err e)
  | Ok (evaluator, settings) =>
      let! answer := evaluator_validate_settings evaluator (pgm_settings settings) in
      m_ret (if sv_valid answer then Ok tt
             else Err (SettingsNotValid ("Policy settings are invalid: " +:+
                    unwrap_or "no message" (sv_message answer))))
  end.

(** The members whose settings are not valid, with the message of each. *)
Definition record_settings_error g (errors : gmap string string) (name : string) :
    M World (gmap string string) :=
  let! r := validate_policy_settings g name in
  m_ret (match r with
         | Ok _ => errors
         | Err e => <[pg_policy_id g +:+ "/" +:+ name := GroupError_to_string e]> errors
         end).

Definition member_settings_errors g : M World (gmap string string) :=
  m_fold (record_settings_error g) ∅ (hash_keys (pg_policy_members g)).

(** [PolicyGroupEvaluator::validate_settings] *)
Definition group_validate_settings g : M World SettingsValidationResponse :=
  let! errors := member_settings_errors g in
  let! r := eval_expression (const (m_ret (Ok true)) <$> pg_policy_members g) (pg_expression g) in
  let errors := match r with
    | Ok _ => errors
    | Err e => <[pg_policy_id g := rhai_error_to_string e]> errors
    end in
  m_ret (if decide (errors = ∅)
         then {| sv_valid := true; sv_message := None |}
         else {| sv_valid := false;
                 sv_message := Some (join ", " (map (λ p, p.1 +:+ ": " +:+ p.2)
                   (hash_iter errors))) |}).
End group.

(** ** Properties *)

Section group_properties.
Context `{HashIter, SdkTypes, PR : !PolicyRuntime, R : !Rhai}.
Implicit Types (g : PolicyGroupEvaluator) (request : ValidateRequest).

(** A group assembled the way the environment does. *)
Inductive assembled : PolicyGroupEvaluator → Prop :=
| assembled_new id message expression channel :
    assembled (group_new id message expression channel)
| assembled_add g name pre settings :
    assembled g → assembled (add_policy_member g name pre settings).

Lemma assembled_dom g :
  assembled g → dom (pg_policy_members g) = dom (pg_policy_members_settings g).
Proof. induction 1; simpl; set_solver. Qed.

(** [r] records an evaluation of the member [name] that returned. *)
Definition member_evaluated g request (name : string) (r : MemberResult) : Prop :=
  is_Some (pg_policy_members g !! name) ∧
  ∃ w response w', validate_policy g name request w = Some (Ok response, w') ∧
    r = member_result response.

Lemma member_function_eq g request name w results :
  member_function g request name (w, results) =
  match validate_policy g name request w with
  | None => None
  | Some (Err e, w) =>
      Some (Err (rhai_error_system ("error invoking " +:+ pg_policy_id g +:+ "/" +:+ name)
                   (GroupError_to_string e)), (w, results))
  | Some (Ok response, w) =>
      Some (Ok (mr_allowed (member_result response)),
            (w, <[name := member_result response]> results))
  end.
Proof.
  rw /member_function /member_result.
  destruct (validate_policy _ _ _ _) as [[[response|e] w']|]; [|done..].
  by destruct (patch response).
Qed.

Lemma member_function_records g request name w results r w' results' :
  is_Some (pg_policy_members g !! name) →
  map_Forall (member_evaluated g request) results →
  member_function g request name (w, results) = Some (r, (w', results')) →
  map_Forall (member_evaluated g request) results'.
Proof.
  intros Hname Hres. rw member_function_eq.
  destruct (validate_policy _ _ _ _) as [[[response|e] w1]|] eqn:Hv;
    intros; simplify_eq; [|done].
  apply map_Forall_insert_2; [|done]. split; [done|]. eauto.
Qed.

Lemma eval_records `{!RhaiLaws R} g request w r w' results :
  eval_expression (member_functions g request) (pg_expression g) (w, ∅) = Some (r, (w', results)) →
  map_Forall (member_evaluated g request) results.
Proof.
  intros Hev.
  apply (eval_expression_frame _ (λ s, map_Forall (member_evaluated g request) s.2)
    _ _ _ _ _ (map_Forall_empty _)) in Hev; [done|].
  intros name f Hf [w1 res1] r1 [w2 res2] Hres Hcall.
  rw /member_functions map_lookup_imap in Hf.
  destruct (pg_policy_members g !! name) eqn:Hn; simplify_eq/=.
  eapply member_function_records; eauto.
Qed.

Lemma member_cause_inj name r name' r' :
  member_cause name r = member_cause name' r' → name = name'.
Proof. by intros [= _ Hf]. Qed.

Lemma elem_of_status_causes g results c :
  c ∈ status_causes g results ↔
  ∃ name r, is_Some (pg_policy_members g !! name) ∧ results !! name = Some r ∧
    mr_allowed r = false ∧ c = member_cause name r.
Proof.
  rw /status_causes list_elem_of_omap. setoid_rewrite elem_of_hash_keys. split.
  - intros (name & Hn & Hc). destruct (results !! name) as [r|] eqn:Hr; [|done].
    destruct (mr_allowed r) eqn:Ha; simplify_eq. eauto 6.
  - intros (name & r & Hn & Hr & Ha & ->). exists name. split; [done|]. by rw Hr Ha.
Qed.

Lemma NoDup_status_causes g results : NoDup (status_causes g results).
Proof.
  apply NoDup_omap_inj; [|apply NoDup_hash_keys]. intros n n' c Hn Hn'.
  destruct (results !! n) as [r|], (results !! n') as [r'|]; try done.
  destruct (mr_allowed r), (mr_allowed r'); try done.
  apply (member_cause_inj n r n' r'). congruence.
Qed.

(** The causes of a denial are sound and complete: a group's causes are
    distinct, each names a member that was evaluated and denied the request, or
    that attempted a mutation, with its message, and every member recorded as
    denied has one. *)
Theorem group_causes_exact `{!RhaiLaws R} g request w w' results :
  eval_expression (member_functions g request) (pg_expression g) (w, ∅)
    = Some (Ok false, (w', results)) →
  ∃ st d, status (group_response g request false results) = Some st ∧ st_details st = Some d ∧
    group_validate g request w = Some (group_response g request false results, w') ∧
    NoDup (sd_causes d) ∧
    (∀ c, c ∈ sd_causes d → ∃ name response w1 w2,
       is_Some (pg_policy_members g !! name) ∧
       validate_policy g name request w1 = Some (Ok response, w2) ∧
       (allowed response = false ∨ is_Some (patch response)) ∧
       c = member_cause name (member_result response)) ∧
    (∀ name r, results !! name = Some r → mr_allowed r = false →
       member_cause name r ∈ sd_causes d).
Proof.
  intros Hev. pose proof (eval_records _ _ _ _ _ _ Hev) as Hrec.
  do 2 eexists. split_and!; [done|done|by rw /group_validate Hev|apply NoDup_status_causes| |].
  - simpl. intros c (name & r & Hn & Hr & Ha & ->)%elem_of_status_causes.
    destruct (Hrec _ _ Hr) as (_ & w1 & response & w2 & Hv & ->).
    exists name, response, w1, w2. split_and!; [done..| |done].
    rw /member_result in Ha. destruct (patch response); [by right; eexists|by left].
  - intros name r Hr Ha. simpl. apply elem_of_status_causes. exists name, r.
    destruct (Hrec _ _ Hr) as [? _]. done.
Qed.

(** The lookups of a group cannot fail: in a group assembled with [new] and
    [add_policy_member], evaluating a member fails only when its runtime cannot
    be rehydrated, never because the member or its settings are missing. *)
Theorem group_member_lookup_total g name request w e w' :
  assembled g → is_Some (pg_policy_members g !! name) →
  validate_policy g name request w = Some (Err e, w') →
  ∃ msg, e = CannotRehydratePolicyGroupMember name msg.
Proof.
  intros Hg [pre Hpre]. assert (is_Some (pg_policy_members_settings g !! name)) as [st Hst].
  { apply elem_of_dom. rw -assembled_dom //. apply elem_of_dom. by exists pre. }
  rw /validate_policy /rehydrate_member Hpre Hst.
  intros ([[ev st']|e'] & w1 & Hr & Hk)%m_bind_Some.
  - by apply m_bind_Some in Hk as (? & ? & _ & [= ]%m_ret_Some).
  - apply m_ret_Some in Hk as [= <- _].
    apply m_bind_Some in Hr as ([?|msg] & ? & _ & [= ]%m_ret_Some); naive_solver.
Qed.

Lemma m_fold_errors g names errors w errors' w' :
  m_fold (record_settings_error g) errors names w = Some (errors', w') →
  (errors' = ∅ → errors = ∅ ∧ ∀ name, name ∈ names → ∃ w1 w2,
     validate_policy_settings g name w1 = Some (Ok tt, w2)) ∧
  (errors' ≠ ∅ → errors ≠ ∅ ∨ ∃ name e w1 w2, name ∈ names ∧
     validate_policy_settings g name w1 = Some (Err e, w2)).
Proof.
  revert errors w. induction names as [|name names IH]; intros errors w.
  { intros [= -> ->]%m_ret_Some. set_solver. }
  intros (errors1 & w1 & (r & w2 & Hr & [= -> ->]%m_ret_Some)%m_bind_Some & Hk)%m_bind_Some.
  destruct (IH _ _ Hk) as [Hok Hko]. destruct r as [[]|e]; split.
  - intros [-> Hall]%Hok. split; [done|]. intros n [->|?]%elem_of_cons; eauto.
  - intros [?|(n & e & ? & ? & ? & ?)]%Hko; [by left|]. right. exists n, e. eauto with kw.
  - intros [He _]%Hok. by apply insert_non_empty in He.
  - intros _. right. exists name, e. eauto with kw.
Qed.

(** Settings of a group: when they are declared valid, the settings of every
    member were accepted by it and the expression evaluated to a boolean with all
    members accepting; when they are declared invalid, some member refused its
    settings or the expression could not be evaluated, and a message says why. *)
Theorem group_validate_settings_spec g w answer w' :
  group_validate_settings g w = Some (answer, w') →
  (sv_valid answer = true →
     (∀ name, is_Some (pg_policy_members g !! name) → ∃ w1 w2,
        validate_policy_settings g name w1 = Some (Ok tt, w2)) ∧
     ∃ b w1, eval_expression (const (m_ret (Ok true)) <$> pg_policy_members g)
               (pg_expression g) w1 = Some (Ok b, w')) ∧
  (sv_valid answer = false →
     is_Some (sv_message answer) ∧
     ((∃ name e w1 w2, is_Some (pg_policy_members g !! name) ∧
         validate_policy_settings g name w1 = Some (Err e, w2)) ∨
      ∃ e w1, eval_expression (const (m_ret (Ok true)) <$> pg_policy_members g)
                (pg_expression g) w1 = Some (Err e, w'))).
Proof.
  intros (errors & w1 & Herr & (r & w2 & Hev & [= -> ->]%m_ret_Some)%m_bind_Some)%m_bind_Some.
  apply m_fold_errors in Herr as [Hok Hko]. setoid_rewrite elem_of_hash_keys in Hok.
  setoid_rewrite elem_of_hash_keys in Hko. split; case_decide as He; try done; intros _.
  - destruct r as [b|e]; [|by apply insert_non_empty in He].
    destruct (Hok He) as [_ Hall]. eauto.
  - split; [by eexists|]. destruct r as [b|e]; [|by right; eauto].
    destruct (Hko He) as [?|(n & e & ? & ? & ? & ?)]; [done|]. left. eauto 6.
Qed.
End group_properties.

(** ** A concrete engine

    Expressions are conjunctions "a&b&c" of member names, evaluated left to
    right until one is false. *)

Fixpoint conjunction {S} (fns : gmap string (M S (result bool string))) (names : list string) :
    M S (result bool string) :=
  match names with
  | [] => m_ret (Ok true)
  | name :: names =>
      match fns !! name with
      | None => m_ret (Err ("Function not found: " +:+ name))
      | Some f =>
          let! r := f in
          match r with Ok true => conjunction fns names | _ => m_ret r end
      end
  end.

Definition conjunction_rhai : Rhai := {|
  RhaiError := string;
  rhai_error_system s e := s +:+ ": " +:+ e;
  rhai_error_to_string e := e;
  eval_expression S fns expression := conjunction fns (split expression "&"%char);
|}.

Lemma conjunction_frame {S} (P : S → Prop) fns names s r s' :
  P s →
  (∀ name f, fns !! name = Some f → ∀ s r s', P s → f s = Some (r, s') → P s') →
  conjunction fns names s = Some (r, s') → P s'.
Proof.
  intros Hs Hf. revert s Hs.
  induction names as [|name names IH]; intros s Hs; simpl.
  { by intros [= -> ->]%m_ret_Some. }
  destruct (fns !! name) as [f|] eqn:Hn; [|by intros [= -> ->]%m_ret_Some].
  intros (b & s1 & Hb & Hk)%m_bind_Some. pose proof (Hf _ _ Hn _ _ _ Hs Hb) as Hs1.
  destruct b as [[]|e]; [by eapply IH|by apply m_ret_Some in Hk as [= -> ->]..].
Qed.

#[export] Instance conjunction_rhai_laws : RhaiLaws conjunction_rhai.
Proof. split. intros S P fns expression s r s' Hs Hf. by apply conjunction_frame. Qed.

Definition example_group : @PolicyGroupEvaluator unit_sdk constant_runtime :=
  let settings := {| pgm_settings := []; pgm_ctx_aware_resources_allow_list := ∅;
    pgm_epoch_deadline := None; pgm_host_capabilities := DenyAll |} in
  add_policy_member (PR := constant_runtime)
    (add_policy_member (PR := constant_runtime)
      (group_new (PR := constant_runtime) "group" "rejected by the group" "happy&unhappy" None)
      "happy" "happy" settings)
    "unhappy" "unhappy" settings.

Lemma group_causes_exact_witness :
  ∃ results st d,
    eval_expression (Rhai := conjunction_rhai)
      (member_functions (R := conjunction_rhai) example_group (RawRequest JNull))
      (pg_expression example_group) (0, ∅) = Some (Ok false, (2, results)) ∧
    status (group_response example_group (RawRequest JNull) false results) = Some st ∧
    st_details st = Some d ∧ NoDup (sd_causes d) ∧
    member_cause "unhappy" {| mr_allowed := false; mr_message := Some "denied" |} ∈ sd_causes d.
Proof.
  destruct (group_causes_exact (R := conjunction_rhai) example_group (RawRequest JNull) 0 2
    (<["unhappy" := {| mr_allowed := false; mr_message := Some "denied" |}]>
      {["happy" := {| mr_allowed := true; mr_message := None |}]}))
    as (st & d & Hst & Hd & _ & Hnd & _ & Hall); [reflexivity|].
  do 3 eexists. split; [reflexivity|]. split; [exact Hst|]. split; [exact Hd|].
  split; [exact Hnd|]. apply Hall; reflexivity.
Defined.

(** A runtime that cannot rehydrate anything. *)
Definition broken_runtime : @PolicyRuntime unit_sdk := {|
  World := unit; PolicyEvaluatorPre := unit; PolicyEvaluator := unit;
  rehydrate _ _ := m_ret (Err "no memory");
  evaluator_validate _ request _ := m_ret (reject (request_uid request) "unreachable" 500);
  evaluator_validate_settings _ _ := m_ret {| sv_valid := false; sv_message := None |};
|}.

Definition broken_group : @PolicyGroupEvaluator unit_sdk broken_runtime :=
  add_policy_member (PR := broken_runtime)
    (group_new (PR := broken_runtime) "group" "message" "member" None) "member" tt
    {| pgm_settings := []; pgm_ctx_aware_resources_allow_list := ∅;
       pgm_epoch_deadline := None; pgm_host_capabilities := DenyAll |}.

Lemma group_member_lookup_total_witness :
  ∃ e msg, validate_policy broken_group "member" (RawRequest JNull) tt = Some (Err e, tt) ∧
    e = CannotRehydratePolicyGroupMember "member" msg.
Proof.
  eexists. destruct (group_member_lookup_total (PR := broken_runtime) broken_group "member"
    (RawRequest JNull) tt (CannotRehydratePolicyGroupMember "member" "no memory") tt)
    as [msg Hmsg]; [by repeat constructor|by eexists|reflexivity|].
  exists msg. split; [reflexivity|exact Hmsg].
Defined.

Lemma group_validate_settings_spec_witness :
  ∃ answer w', group_validate_settings (R := conjunction_rhai) example_group 0
      = Some (answer, w') ∧ sv_valid answer = true ∧
    ∃ w1 w2, validate_policy_settings example_group "happy" w1 = Some (Ok tt, w2).
Proof.
  exists {| sv_valid := true; sv_message := None |}, 0.
  split; [vm_compute; reflexivity|]. split; [reflexivity|].
  refine (proj1 (proj1 (group_validate_settings_spec (R := conjunction_rhai) example_group 0
    {| sv_valid := true; sv_message := None |} 0 _) _) "happy" _);
    [vm_compute; reflexivity|reflexivity|by eexists].
Defined.
