(* ===== verification/GroupExpression.v ===== *)
(** * The meaning of a group's expression

    What [PolicyGroupEvaluator::validate] of
    [crates/policy-evaluator/src/policy_group_evaluator/evaluator.rs] promises, stated without the
    expression engine. The expressions are the ones that the admission of a group accepts
    ([api/policies/v1/policygroup_validation.go]: calls of the members, logical and, or, not,
    equals, not equals). [group_run] gives their meaning by the answers of the members, and
    [group_validate_refines] shows that the evaluator implements it. rhai enters through
    [RhaiBoolean], its documented semantics of these operators; a parser for the printed
    expressions discharges it at the end of the file. *)

From S2P Require Import Prelude RustStr Bytes Json AdmissionResponse Request.
From S2P Require Import HostCapabilities Callback Runtime GroupEvaluator.

(** ** Expressions *)

Inductive BoolExpr :=
| Lit (b : bool)
| Call (name : string)
| Not (e : BoolExpr)
| And (e1 e2 : BoolExpr)
| Or (e1 e2 : BoolExpr)
| Equals (negated : bool) (e1 e2 : BoolExpr).

Definition infix (e1 op e2 : string) : string := "(" +:+ e1 +:+ op +:+ e2 +:+ ")".

(** How an expression is written, with all its parentheses. *)
Fixpoint show (e : BoolExpr) : string :=
  match e with
  | Lit b => if b then "true" else "false"
  | Call name => name +:+ "()"
  | Not e => "!(" +:+ show e +:+ ")"
  | And e1 e2 => infix (show e1) " && " (show e2)
  | Or e1 e2 => infix (show e1) " || " (show e2)
  | Equals negated e1 e2 => infix (show e1) (if negated then " != " else " == ") (show e2)
  end.

Fixpoint called (e : BoolExpr) : gset string :=
  match e with
  | Lit _ => ∅
  | Call name => {[ name ]}
  | Not e => called e
  | And e1 e2 | Or e1 e2 | Equals _ e1 e2 => called e1 ∪ called e2
  end.

Fixpoint depth (e : BoolExpr) : nat :=
  match e with
  | Lit _ | Call _ => 1
  | Not e => S (depth e)
  | And e1 e2 | Or e1 e2 | Equals _ e1 e2 => S (depth e1 `max` depth e2)
  end.

(** The names rhai can call: a letter, then letters, digits and underscores, and none of the words
    that the language keeps for itself. *)
Definition letter (c : ascii) : bool := in_range 97 122 c || in_range 65 90 c.

Definition ident_char (c : ascii) : bool := letter c || in_range 48 57 c || in_range 95 95 c.

Definition rhai_reserved : list string :=
  ["true"; "false"; "let"; "const"; "if"; "else"; "switch"; "do"; "while"; "until"; "loop"; "for";
   "in"; "continue"; "break"; "return"; "throw"; "try"; "catch"; "fn"; "private"; "import"; "export";
   "as"; "global"; "Fn"; "call"; "curry"; "is_shared"; "is_def_fn"; "is_def_var"; "this"; "print";
   "debug"; "type_of"; "eval"; "var"; "static"; "begin"; "end"; "shared"; "with"; "each"; "then";
   "goto"; "unless"; "exit"; "match"; "case"; "public"; "protected"; "new"; "use"; "module"; "package";
   "super"; "thread"; "spawn"; "go"; "await"; "async"; "sync"; "yield"; "default"; "void"; "null"; "nil"].

Definition rhai_identifier (name : string) : bool :=
  match as_bytes name with
  | [] => false
  | c :: cs => letter c && forallb ident_char cs && bool_decide (name ∉ rhai_reserved)
  end.

(** The value of an expression, given what a call does: left to right, [&&] and [||] look at their
    right operand only when the left one does not decide, a call that fails ends the evaluation. *)
Fixpoint eval_bool {S E} (call : string → M S (result bool E)) (e : BoolExpr) : M S (result bool E) :=
  match e with
  | Lit b => m_ret (Ok b)
  | Call name => call name
  | Not e => let!? b := eval_bool call e in m_ret (Ok (negb b))
  | And e1 e2 => let!? b := eval_bool call e1 in if b then eval_bool call e2 else m_ret (Ok false)
  | Or e1 e2 => let!? b := eval_bool call e1 in if b then m_ret (Ok true) else eval_bool call e2
  | Equals negated e1 e2 =>
      let!? b1 := eval_bool call e1 in
      let!? b2 := eval_bool call e2 in
      m_ret (Ok (xorb negated (eqb b1 b2)))
  end.

(** Two evaluations that agree but for the text of the error. *)
Definition same_outcome {S E} (a b : option (result bool E * S)) : Prop :=
  match a, b with
  | None, None => True
  | Some (Ok x, s), Some (Ok y, s') => x = y ∧ s = s'
  | Some (Err _, s), Some (Err _, s') => s = s'
  | _, _ => False
  end.

(** rhai on the expressions of groups whose members it can call, up to the depth of nesting that
    the engine accepts. *)
Class RhaiBoolean (R : Rhai) := {
  max_expr_depth : nat;
  eval_expression_boolean : ∀ (S : Type) (fns : gmap string (M S (result bool RhaiError))) e s,
    depth e ≤ max_expr_depth → set_Forall (λ name, rhai_identifier name = true) (called e) →
    called e ⊆ dom fns →
    same_outcome (eval_expression fns (show e) s)
      (eval_bool (λ name, default (λ _, None) (fns !! name)) e s);
}.

(** ** What a group means *)

Section group_meaning.
Context `{HashIter, SdkTypes, PR : !PolicyRuntime, R : !Rhai}.
Implicit Types (g : PolicyGroupEvaluator) (request : ValidateRequest).

(** The answers of the members that were called, in order. *)
Notation Trace := (list (string * AdmissionResponse)).






(** ** The evaluator implements it *)








Lemma eval_bool_ext {S E} (call call' : string → M S (result bool E)) e s :
  (∀ name s, name ∈ called e → call name s = call' name s) → eval_bool call e s = eval_bool call' e s.
Proof.
  revert s. induction e as [b|name|e IH|e1 IH1 e2 IH2|e1 IH1 e2 IH2|negated e1 IH1 e2 IH2]; intros s Hc; cbn.
  - done.
  - apply Hc. set_solver.
  - rw /mr_bind /m_bind IH //.
  - rw /mr_bind /m_bind IH1; [|set_solver]. destruct (eval_bool call' e1 s) as [[[[]|] s']|]; [|done..].
    apply IH2. set_solver.
  - rw /mr_bind /m_bind IH1; [|set_solver]. destruct (eval_bool call' e1 s) as [[[[]|] s']|]; [done| |done..].
    apply IH2. set_solver.
  - rw /mr_bind /m_bind IH1; [|set_solver]. destruct (eval_bool call' e1 s) as [[[b|] s']|]; [|done..].
    rw IH2 //. set_solver.
Qed.








End group_meaning.

(** ** A concrete engine

    It reads what [show] prints, up to 64 levels of nesting. *)

Fixpoint strip (p cs : bytes) : option bytes :=
  match p, cs with
  | [], cs => Some cs
  | a :: p, c :: cs => if decide (a = c) then strip p cs else None
  | _ :: _, [] => None
  end.

Fixpoint span (f : ascii → bool) (cs : bytes) : bytes * bytes :=
  match cs with
  | [] => ([], [])
  | c :: cs' => if f c then let '(l, r) := span f cs' in (c :: l, r) else ([], cs)
  end.

Definition parse_atom (cs : bytes) : option (BoolExpr * bytes) :=
  let '(name, cs) := span ident_char cs in
  match strip (as_bytes "()") cs with
  | Some cs => Some (Call (of_bytes name), cs)
  | None =>
      if decide (name = as_bytes "true") then Some (Lit true, cs)
      else if decide (name = as_bytes "false") then Some (Lit false, cs) else None
  end.

Definition parse_operator (cs : bytes) : option ((BoolExpr → BoolExpr → BoolExpr) * bytes) :=
  match strip (as_bytes " && ") cs with Some cs => Some (And, cs) | None =>
  match strip (as_bytes " || ") cs with Some cs => Some (Or, cs) | None =>
  match strip (as_bytes " == ") cs with Some cs => Some (Equals false, cs) | None =>
  (λ cs, (Equals true, cs)) <$> strip (as_bytes " != ") cs
  end end end.

Fixpoint parse (fuel : nat) (cs : bytes) : option (BoolExpr * bytes) :=
  match fuel with
  | 0 => None
  | S fuel =>
      match strip (as_bytes "!(") cs with
      | Some cs => '(e, cs) ← parse fuel cs; cs ← strip (as_bytes ")") cs; Some (Not e, cs)
      | None =>
          match strip (as_bytes "(") cs with
          | Some cs =>
              '(e1, cs) ← parse fuel cs; '(op, cs) ← parse_operator cs;
              '(e2, cs) ← parse fuel cs; cs ← strip (as_bytes ")") cs; Some (op e1 e2, cs)
          | None => parse_atom cs
          end
      end
  end.

Definition boolean_rhai : Rhai := {|
  RhaiError := string;
  rhai_error_system s e := s +:+ ": " +:+ e;
  rhai_error_to_string e := e;
  eval_expression S fns expression :=
    match parse 64 (as_bytes expression) with
    | Some (e, []) =>
        eval_bool (λ name, default (m_ret (Err ("Function not found: " +:+ name))) (fns !! name)) e
    | _ => m_ret (Err "Syntax error")
    end;
|}.

Lemma strip_app p cs : strip p (p ++ cs) = Some cs.
Proof. induction p as [|a p IH]; [done|]. simpl. by rw decide_True. Qed.

Lemma span_app f l c cs :
  Forall (λ c, f c = true) l → f c = false → span f (l ++ c :: cs) = (l, c :: cs).
Proof. intros Hl Hc. induction Hl as [|a l Ha _ IH]; simpl; [by rw Hc|]. by rw Ha IH. Qed.

Lemma span_all f l : Forall (λ c, f c = true) l → span f l = (l, []).
Proof. induction 1 as [|a l Ha _ IH]; [done|]. simpl. by rw Ha IH. Qed.

(** What may follow an expression. *)
Definition closes (cs : bytes) : Prop :=
  cs = [] ∨ ∃ c cs', cs = c :: cs' ∧ (c = ")"%char ∨ c = " "%char).

Lemma parse_call fuel name cs :
  rhai_identifier name = true →
  parse (S fuel) (as_bytes name ++ as_bytes "()" ++ cs) = Some (Call name, cs).
Proof.
  rw /rhai_identifier. destruct (as_bytes name) as [|c l] eqn:Hname; [done|].
  intros [[Hc Hl]%andb_prop _]%andb_prop. apply Is_true_true, forallb_True in Hl.
  assert (Forall (λ c, ident_char c = true) (c :: l)) as Hid.
  { constructor; [by rw /ident_char Hc|]. eapply Forall_impl; [exact Hl|]. intros x. by apply Is_true_true. }
  assert ("!"%char ≠ c ∧ "("%char ≠ c) as [H1 H2] by (split; intros <-; done).
  cbn [parse]. rw /= !decide_False // /parse_atom.
  change (c :: l ++ "("%char :: ")"%char :: cs) with ((c :: l) ++ "("%char :: ")"%char :: cs).
  rw span_app //. assert (of_bytes (c :: l) = name) as -> by by rw -Hname of_bytes_as_bytes. done.
Qed.

Lemma parse_lit fuel b cs :
  closes cs → parse (S fuel) (as_bytes (show (Lit b)) ++ cs) = Some (Lit b, cs).
Proof.
  intros Hcs. assert (span ident_char (as_bytes (show (Lit b)) ++ cs) = (as_bytes (show (Lit b)), cs)) as Hs.
  { destruct Hcs as [->|(c & cs' & -> & Hc)].
    - rewrite app_nil_r. apply span_all. destruct b; by repeat constructor.
    - apply span_app; [destruct b; by repeat constructor|]. by destruct Hc as [-> | ->]. }
  assert (strip (as_bytes "()") cs = None) as Hst by (by destruct Hcs as [->|(c & cs' & -> & [-> | ->])]).
  assert (∀ p, strip (as_bytes (String "!" p)) (as_bytes (show (Lit b)) ++ cs) = None ∧
    strip (as_bytes (String "(" p)) (as_bytes (show (Lit b)) ++ cs) = None) as Hp by by destruct b.
  cbn [parse]. rewrite (proj1 (Hp "(")) (proj2 (Hp "")) /parse_atom Hs Hst. by destruct b.
Qed.

Lemma parse_show e : ∀ fuel cs,
  depth e ≤ fuel → set_Forall (λ name, rhai_identifier name = true) (called e) → closes cs →
  parse fuel (as_bytes (show e) ++ cs) = Some (e, cs).
Proof.
  assert (∀ cs, closes (as_bytes ")" ++ cs)) as Hclose by (intros cs; right; do 2 eexists; eauto).
  assert (∀ s cs, closes (as_bytes (String " " s) ++ cs)) as Hspace by (intros s cs; right; do 2 eexists; eauto).
  assert (∀ cs, strip (as_bytes "!(") (as_bytes "(" ++ cs) = None) as Hbang by done.
  induction e as [b|name|e IH|e1 IH1 e2 IH2|e1 IH1 e2 IH2|negated e1 IH1 e2 IH2];
    intros [|fuel] cs Hd Hn Hcs; simpl in Hd; try lia.
  - by apply parse_lit.
  - rewrite /= as_bytes_app -app_assoc. apply parse_call, Hn. set_solver.
  - cbn [show parse]. rewrite !as_bytes_app -!app_assoc strip_app IH; [|lia|done|done]. simpl. done.
  - cbn [show parse]. rewrite /infix !as_bytes_app -!app_assoc Hbang strip_app.
    rewrite IH1; [|lia|set_solver|apply Hspace]. simpl. rewrite IH2; [done|lia|set_solver|apply Hclose].
  - cbn [show parse]. rewrite /infix !as_bytes_app -!app_assoc Hbang strip_app.
    rewrite IH1; [|lia|set_solver|apply Hspace]. simpl. rewrite IH2; [done|lia|set_solver|apply Hclose].
  - cbn [show parse]. rewrite /infix !as_bytes_app -!app_assoc Hbang strip_app. destruct negated.
    all: rewrite IH1; [|lia|set_solver|apply Hspace]; simpl; rewrite IH2; [done|lia|set_solver|apply Hclose].
Qed.

#[export] Instance boolean_rhai_boolean : RhaiBoolean boolean_rhai.
Proof.
  refine {| max_expr_depth := 64 |}. intros S fns e s Hd Hn Hc. cbn [eval_expression boolean_rhai].
  assert (parse 64 (as_bytes (show e)) = Some (e, [])) as ->.
  { rewrite -{1}(app_nil_r (as_bytes (show e))). apply parse_show; [done|done|by left]. }
  rewrite (eval_bool_ext _ (λ name, default (λ _, None) (fns !! name))).
  - by destruct (eval_bool _ e s) as [[[] ?]|].
  - intros name s' [f Hf]%Hc%elem_of_dom. by rewrite Hf.
Defined.



