(* ===== verification/Config.v ===== *)
(** * Policy server configuration

    Models the parts of [crates/policy-server/src/config.rs] that decide: the
    policies of [policies.yml] and their validation, the settings handed to the
    evaluation environment, the TLS options, and the evaluation time and memory
    limits of [Config::from_args]. Reading the files is I/O: the parsed YAML is
    the input. *)

From S2P Require Import Prelude RustStr Json PolicyId Request HostCapabilities Callback.

(** ** Policies *)

Record PolicyGroupMember := {
  gm_module : string;
  gm_settings : option PolicySettings;
  gm_context_aware_resources : gset ContextAwareResource;
  gm_timeout_eval_seconds : option N;
  gm_host_capabilities : list string;
}.

Inductive PolicyOrPolicyGroup :=
| SinglePolicy (module : string) (policy_mode : PolicyMode) (allowed_to_mutate : option bool)
    (settings : option PolicySettings) (context_aware_resources : gset ContextAwareResource)
    (message : option string) (timeout_eval_seconds : option N)
    (host_capabilities : list string)
| PolicyGroup (policy_mode : PolicyMode) (policies : gmap string PolicyGroupMember)
    (expression message : string).

Inductive PolicyOrPolicyGroupSettings :=
| PolicySettingsOf (settings : PolicySettings)
| PolicyGroupSettingsOf (expression message : string) (policies : list string).

(** [PolicyGroupMember::settings] *)
Definition member_settings (m : PolicyGroupMember) : result PolicyOrPolicyGroupSettings string :=
  Ok (PolicySettingsOf (unwrap_or [] (gm_settings m))).

(** [PolicyOrPolicyGroup::settings] *)
Definition policy_settings `{HashIter} (p : PolicyOrPolicyGroup) :
    result PolicyOrPolicyGroupSettings string :=
  match p with
  | SinglePolicy _ _ _ settings _ _ _ _ => Ok (PolicySettingsOf (unwrap_or [] settings))
  | PolicyGroup _ policies expression message =>
      Ok (PolicyGroupSettingsOf expression message (hash_keys policies))
  end.

Definition any_policy_has_timeout `{HashIter} (policies : gmap string PolicyOrPolicyGroup) :
    bool :=
  existsb (λ p, match p.2 with
    | SinglePolicy _ _ _ _ _ _ timeout _ => bool_decide (is_Some timeout)
    | PolicyGroup _ members _ _ =>
        existsb (λ m, bool_decide (is_Some (gm_timeout_eval_seconds m.2))) (hash_iter members)
    end) (hash_iter policies).

(** ** Validation of names ([validate_policies]) *)

Definition has_slash (s : string) : bool := contains_char s "/"%char.

(** The two errors, with the names their message quotes. *)
Inductive PolicyNameError :=
| PolicyNameWithSlash (name : string)
| GroupMembersWithSlash (group : string) (names : list string).

Definition check_policy `{HashIter} (_ : unit) (entry : string * PolicyOrPolicyGroup) :
    result unit PolicyNameError :=
  let '(name, policy) := entry in
  if has_slash name then Err (PolicyNameWithSlash name) else
  match policy with
  | PolicyGroup _ policies _ _ =>
      match filter (λ id, has_slash id) (hash_keys policies) with
      | [] => Ok tt
      | policies_with_invalid_name => Err (GroupMembersWithSlash name policies_with_invalid_name)
      end
  | SinglePolicy _ _ _ _ _ _ _ _ => Ok tt
  end.

Definition validate_policies `{HashIter} (policies : gmap string PolicyOrPolicyGroup) :
    result unit PolicyNameError :=
  try_fold check_policy tt (hash_iter policies).

(** ** TLS ([build_tls_config]) *)

Record TlsConfig := {
  cert_file : string;
  key_file : string;
  client_ca_file : list string;
}.

Definition build_tls_config (cert key : option string) (client_ca : option (list string)) :
    result (option TlsConfig) string :=
  match cert, key, client_ca with
  | Some cert, Some key, _ =>
      Ok (Some {| cert_file := cert; key_file := key; client_ca_file := unwrap_or [] client_ca |})
  | None, None, None => Ok None
  | None, None, Some _ =>
      Err "client CA certificate requires server certificate and key to be specified"
  | Some _, None, _ | None, Some _, _ =>
      Err "both certificate and key must be provided together"
  end.

(** ** Limits ([Config::from_args]) *)

(** [str::parse] for an unsigned integer below [bound]. *)
Definition digit (c : ascii) : option Z :=
  let n := Z.of_N (Stdlib.Strings.Ascii.N_of_ascii c) in
  if bool_decide (48 ≤ n ≤ 57)%Z then Some (n - 48)%Z else None.

Fixpoint parse_digits (bound acc : Z) (s : string) : result Z string :=
  match s with
  | EmptyString => Ok acc
  | String c s =>
      match digit c with
      | None => Err "invalid digit found in string"
      | Some d =>
          if bool_decide (acc * 10 + d < bound)%Z then parse_digits bound (acc * 10 + d) s
          else Err "number too large to fit in target type"
      end
  end.

Definition parse_unsigned (bound : Z) (s : string) : result Z string :=
  match s with
  | EmptyString => Err "cannot parse integer from empty string"
  | String c s' =>
      if decide (c = "+"%char) then
        match s' with
        | EmptyString => Err "invalid digit found in string"
        | _ => parse_digits bound 0 s'
        end
      else parse_digits bound 0 s
  end.

Definition usize_bound : Z := 2 ^ 64.
Definition BYTES_PER_MIB : Z := 1024 * 1024.

(** [a * b] on [usize] in a release build. *)
Definition usize_mul (a b : Z) : Z := ((a * b) `mod` usize_bound)%Z.

Definition policy_evaluation_limit_seconds_of (disable_timeout_protection : bool)
    (policy_timeout : string) : result (option Z) string :=
  if disable_timeout_protection then Ok None
  else res_map Some (parse_unsigned usize_bound policy_timeout).

Definition policy_memory_limit_bytes_of (disable_memory_limit : bool)
    (policy_memory_limit : string) : result (option Z) string :=
  if disable_memory_limit then Ok None else
  let? policy_memory_limit_mib := parse_unsigned usize_bound policy_memory_limit in
  if decide (policy_memory_limit_mib = 0%Z) then
    Err ("policy-memory-limit must be greater than 0, or the limit must be disabled " +:+
         "via --disable-memory-limit")
  else Ok (Some (usize_mul policy_memory_limit_mib BYTES_PER_MIB)).

(** ** Properties *)

(** Every policy name, and every member name of a group, is free of slashes. *)
Definition names_ok (policies : gmap string PolicyOrPolicyGroup) : Prop :=
  map_Forall (λ name policy, no_slash name ∧
    match policy with
    | PolicyGroup _ members _ _ => map_Forall (λ id _, no_slash id) members
    | SinglePolicy _ _ _ _ _ _ _ _ => True
    end) policies.

Section names.
Context `{HashIter}.

Lemma filter_slash_nil (members : gmap string PolicyGroupMember) :
  filter (λ id, has_slash id) (hash_keys members) = [] ↔
  map_Forall (λ id _, no_slash id) members.
Proof.
  split.
  - intros Hf id m Hm. rw /no_slash. apply not_true_is_false. intros Hs.
    assert (id ∈ filter (λ id, has_slash id) (hash_keys members)) as Hin; [|by rw Hf in Hin; set_solver].
    apply list_elem_of_filter. split; [by rw /has_slash Hs|]. apply elem_of_hash_keys. by exists m.
  - intros Hm. destruct (filter _ _) as [|id l] eqn:Hf; [done|].
    assert (id ∈ filter (λ id, has_slash id) (hash_keys members)) as Hin by (rw Hf; set_solver).
    apply list_elem_of_filter in Hin as [Hs [m Hid]%elem_of_hash_keys].
    specialize (Hm _ _ Hid). rw /no_slash in Hm. rw /has_slash Hm in Hs. done.
Qed.

Lemma check_policy_Ok name policy :
  check_policy tt (name, policy) = Ok tt ↔
  no_slash name ∧
  match policy with
  | PolicyGroup _ members _ _ => map_Forall (λ id _, no_slash id) members
  | SinglePolicy _ _ _ _ _ _ _ _ => True
  end.
Proof.
  rw /check_policy /has_slash /no_slash.
  destruct (contains_char name slash) eqn:Hn; rw /slash in Hn; rw Hn; [naive_solver|].
  destruct policy as [|mode members expression message]; [naive_solver|].
  rw -filter_slash_nil. destruct (filter _ _); naive_solver.
Qed.

(** The names of [policies.yml] are accepted exactly when no policy and no
    member of a group has a slash in its name, whatever the order in which the
    hash maps are visited. Together with the round trip of policy identifiers
    this keeps the API paths of distinct policies distinct. *)
Theorem validate_policies_spec policies :
  validate_policies policies = Ok tt ↔ names_ok policies.
Proof.
  rw /validate_policies /names_ok. split.
  - intros Hv name policy Hp. apply check_policy_Ok.
    apply elem_of_hash_iter in Hp.
    by destruct (try_fold_split _ _ _ _ _ Hp Hv) as (? & ? & [] & [] & ? & ? & ? & ?).
  - intros Hn. destruct (try_fold_total check_policy (λ _, True) tt (hash_iter policies))
      as ([] & ? & _); [done| |done].
    intros [] [name policy] Hin _. exists tt. split; [|done].
    apply check_policy_Ok, Hn. by apply elem_of_hash_iter.
Qed.

(** The startup warning fires exactly when some policy or member has a timeout. *)
Lemma any_policy_has_timeout_spec policies :
  any_policy_has_timeout policies ↔
  ∃ name policy, policies !! name = Some policy ∧
    match policy with
    | SinglePolicy _ _ _ _ _ _ timeout _ => is_Some timeout
    | PolicyGroup _ members _ _ =>
        ∃ id m, members !! id = Some m ∧ is_Some (gm_timeout_eval_seconds m)
    end.
Proof.
  rw /any_policy_has_timeout Is_true_true existsb_exists. split.
  - intros ([name policy] & Hin & Hp). exists name, policy.
    rw -list_elem_of_In elem_of_hash_iter in Hin. split; [done|]. simpl in Hp.
    destruct policy; [by apply bool_decide_eq_true in Hp|].
    apply existsb_exists in Hp as ([id m] & Hm & Ht).
    rw -list_elem_of_In elem_of_hash_iter in Hm. apply bool_decide_eq_true in Ht. eauto.
  - intros (name & policy & Hin & Hp). exists (name, policy).
    rw -list_elem_of_In elem_of_hash_iter. split; [done|]. simpl.
    destruct policy; [by apply bool_decide_eq_true|].
    destruct Hp as (id & m & Hm & Ht). apply existsb_exists. exists (id, m).
    rw -list_elem_of_In elem_of_hash_iter. split; [done|]. by apply bool_decide_eq_true.
Qed.
End names.

Lemma parse_digits_bound bound acc s z :
  (0 ≤ acc < bound)%Z → parse_digits bound acc s = Ok z → (0 ≤ z < bound)%Z.
Proof.
  revert acc. induction s as [|c s IH]; intros acc Hacc; simpl; [naive_solver|].
  destruct (digit c) as [d|] eqn:Hd; [|done]. case_bool_decide as Hb; [|done].
  apply IH. rw /digit in Hd. case_bool_decide; simplify_eq. lia.
Qed.

Lemma parse_unsigned_bound bound s z :
  (0 < bound)%Z → parse_unsigned bound s = Ok z → (0 ≤ z < bound)%Z.
Proof.
  intros Hb. rw /parse_unsigned. destruct s as [|c s]; [done|].
  case_decide; [destruct s; [done|]|]; apply parse_digits_bound; lia.
Qed.

(** The memory limit: a limit of [n] MiB, with [0 < n < 2^44], is exactly
    [n * 2^20] bytes; but the multiplication wraps around in release builds, so
    that from [2^44] MiB on the limit no longer is what was asked for, and
    [2^44] MiB itself becomes a limit of zero bytes although zero is refused. *)
Theorem policy_memory_limit_spec s n :
  parse_unsigned usize_bound s = Ok n →
  policy_memory_limit_bytes_of false s =
    (if decide (n = 0%Z) then policy_memory_limit_bytes_of false "0"
     else Ok (Some (if bool_decide (n < 2 ^ 44)%Z then n * 2 ^ 20
                    else (n mod 2 ^ 44) * 2 ^ 20)%Z)).
Proof.
  intros Hs. rw /policy_memory_limit_bytes_of Hs /=. destruct (decide (n = 0%Z)); [done|].
  pose proof (parse_unsigned_bound usize_bound s n eq_refl Hs).
  do 2 f_equal. rw /usize_mul /usize_bound /BYTES_PER_MIB.
  replace (1024 * 1024)%Z with (2 ^ 20)%Z by lia.
  replace (2 ^ 64)%Z with (2 ^ 44 * 2 ^ 20)%Z by lia.
  rw Z.mul_mod_distr_r; [|lia..]. case_bool_decide; [|done]. by rw Z.mod_small; [|lia].
Qed.

Lemma policy_memory_limit_spec_witness :
  policy_memory_limit_bytes_of false "17592186044416" = Ok (Some 0%Z).
Proof.
  rw (policy_memory_limit_spec "17592186044416" 17592186044416); reflexivity.
Defined.
