(* ===== verification/Environment.v ===== *)
(** * The evaluation environment of the policy server

    Models [crates/policy-server/src/evaluation/evaluation_environment.rs] and
    [policy_evaluation_settings.rs]: the builder that bootstraps every configured
    policy, and the environment that validates requests against them.

    Loading a Wasm module and building a [PolicyEvaluatorPre] from it are the
    operations of [ModuleLoader]; rehydrated policies are those of
    [PolicyRuntime]. *)

From S2P Require Import Prelude RustStr Bytes Json PolicyId AdmissionResponse Request.
From S2P Require Import HostCapabilities Callback Runtime GroupEvaluator Config.

(** A module precompiled ahead of time ([precompiled_policy.rs]). *)
Record PrecompiledPolicy := {
  precompiled_module : bytes;
  execution_mode : PolicyExecutionMode;
  digest : string;
}.

Definition PrecompiledPolicies := gmap string (result PrecompiledPolicy string).

Class ModuleLoader `{SdkTypes, !PolicyRuntime} := {
  Module : Type;
  (** [wasmtime::Module::deserialize] *)
  module_deserialize : bytes → result Module string;
  (** [PolicyEvaluatorBuilder::build_pre] with the memory limit. *)
  build_pre : Module → PolicyExecutionMode → option Z → result PolicyEvaluatorPre string;
}.

(** [epoch_deadline_for]: a policy's timeout only overrides a global one. *)
Definition epoch_deadline_for (timeout_eval_seconds global : option N) : option N :=
  (λ g, unwrap_or g timeout_eval_seconds) <$> global.

Record PolicyEvaluationSettings := {
  pes_policy_mode : PolicyMode;
  pes_allowed_to_mutate : bool;
  pes_settings : PolicyOrPolicyGroupSettings;
  pes_custom_rejection_message : option string;
  pes_timeout_eval_seconds : option N;
}.

Section environment.
Context `{HashIter, SdkTypes, PR : !PolicyRuntime, ML : !ModuleLoader, R : !Rhai}.

Record EvaluationEnvironment := {
  always_accept_on_namespace : option string;
  digest_to_pre : gmap string PolicyEvaluatorPre;
  id_to_ctx_aware : gmap PolicyID (gset ContextAwareResource);
  id_to_host_capabilities : gmap PolicyID HostCapabilities;
  id_to_digest : gmap PolicyID string;
  id_to_settings : gmap PolicyID PolicyEvaluationSettings;
  initialization_errors : gmap PolicyID string;
  policy_groups : gset PolicyID;
  callback_handler_tx : option Channel;
  global_limit_seconds : option N;
  memory_limit_bytes : option Z;
}.

Implicit Types (env : EvaluationEnvironment) (id : PolicyID) (req : ValidateRequest).

(** The namespace no policy acts on. *)
Definition should_always_accept env (namespace : string) : bool :=
  bool_decide (always_accept_on_namespace env = Some namespace).

(** ** Registration *)

Definition create_wasmtime_module id (pp : PrecompiledPolicy) : result Module EvaluationError :=
  map_err (λ e, WebAssemblyError ("could not rehydrate wasmtime::Module " +:+
             PolicyID_to_string id +:+ ": " +:+ e))
    (module_deserialize (precompiled_module pp)).

Definition create_policy_evaluator_pre (module : Module) (mode : PolicyExecutionMode)
    (memory_limit : option Z) : result PolicyEvaluatorPre EvaluationError :=
  map_err (λ e, WebAssemblyError ("cannot build PolicyEvaluatorPre " +:+ e))
    (build_pre module mode memory_limit).

(** The pre-initialised policies after a module was made available: one per
    digest. *)
Definition ensure_pre env id (pp : PrecompiledPolicy) :
    result (gmap string PolicyEvaluatorPre) EvaluationError :=
  match digest_to_pre env !! digest pp with
  | Some _ => Ok (digest_to_pre env)
  | None =>
      let? module := create_wasmtime_module id pp in
      let? pol_eval_pre := create_policy_evaluator_pre module (execution_mode pp)
          (memory_limit_bytes env) in
      Ok (<[digest pp := pol_eval_pre]> (digest_to_pre env))
  end.

Definition register env id (settings : PolicyEvaluationSettings) (eval_ctx : EvaluationContext)
    (pp : PrecompiledPolicy) : result EvaluationEnvironment EvaluationError :=
  let? pres := ensure_pre env id pp in
  Ok {| always_accept_on_namespace := always_accept_on_namespace env;
        digest_to_pre := pres;
        id_to_ctx_aware :=
          <[id := ctx_aware_resources_allow_list eval_ctx]> (id_to_ctx_aware env);
        id_to_host_capabilities :=
          <[id := host_capabilities eval_ctx]> (id_to_host_capabilities env);
        id_to_digest := <[id := digest pp]> (id_to_digest env);
        id_to_settings := <[id := settings]> (id_to_settings env);
        initialization_errors := initialization_errors env;
        policy_groups := policy_groups env;
        callback_handler_tx := callback_handler_tx env;
        global_limit_seconds := global_limit_seconds env;
        memory_limit_bytes := memory_limit_bytes env |}.

Definition register_policy_group env id (settings : PolicyEvaluationSettings) :
    EvaluationEnvironment :=
  {| always_accept_on_namespace := always_accept_on_namespace env;
     digest_to_pre := digest_to_pre env;
     id_to_ctx_aware := id_to_ctx_aware env;
     id_to_host_capabilities := id_to_host_capabilities env;
     id_to_digest := id_to_digest env;
     id_to_settings := <[id := settings]> (id_to_settings env);
     initialization_errors := initialization_errors env;
     policy_groups := {[id]} ∪ policy_groups env;
     callback_handler_tx := callback_handler_tx env;
     global_limit_seconds := global_limit_seconds env;
     memory_limit_bytes := memory_limit_bytes env |}.

Definition add_initialization_error env id (e : string) : EvaluationEnvironment :=
  {| always_accept_on_namespace := always_accept_on_namespace env;
     digest_to_pre := digest_to_pre env;
     id_to_ctx_aware := id_to_ctx_aware env;
     id_to_host_capabilities := id_to_host_capabilities env;
     id_to_digest := id_to_digest env;
     id_to_settings := id_to_settings env;
     initialization_errors := <[id := e]> (initialization_errors env);
     policy_groups := policy_groups env;
     callback_handler_tx := callback_handler_tx env;
     global_limit_seconds := global_limit_seconds env;
     memory_limit_bytes := memory_limit_bytes env |}.

(** ** Lookups *)

Definition not_found id : EvaluationError := PolicyNotFound (PolicyID_to_string id).

Definition get_policy_settings env id : result PolicyEvaluationSettings EvaluationError :=
  ok_or (id_to_settings env !! id) (not_found id).

Definition get_policy_mode env id : result PolicyMode EvaluationError :=
  ok_or (pes_policy_mode <$> id_to_settings env !! id) (not_found id).

Definition get_policy_custom_rejection_message env id :
    result (option string) EvaluationError :=
  ok_or (pes_custom_rejection_message <$> id_to_settings env !! id) (not_found id).

Definition get_policy_allowed_to_mutate env id : result bool EvaluationError :=
  ok_or (pes_allowed_to_mutate <$> id_to_settings env !! id) (not_found id).

(** ** Rehydration *)

(** The context an individual policy is evaluated with. *)
Definition policy_context env id (allow_list : gset ContextAwareResource)
    (settings : PolicyEvaluationSettings) : EvaluationContext :=
  {| policy_id := PolicyID_to_string id;
     callback_channel := callback_handler_tx env;
     ctx_aware_resources_allow_list := allow_list;
     epoch_deadline := epoch_deadline_for (pes_timeout_eval_seconds settings)
       (global_limit_seconds env);
     host_capabilities := unwrap_or DenyAll (id_to_host_capabilities env !! id) |}.

Definition rehydrate_inputs env id :
    result (PolicyEvaluatorPre * EvaluationContext) EvaluationError :=
  if decide (id ∈ policy_groups env)
  then Err (CannotRehydratePolicyGroup (PolicyID_to_string id)) else
  let? module_digest := ok_or (id_to_digest env !! id) (not_found id) in
  let? settings := get_policy_settings env id in
  let? pre := ok_or (digest_to_pre env !! module_digest) (not_found id) in
  let? allow_list := ok_or (id_to_ctx_aware env !! id) (not_found id) in
  Ok (pre, policy_context env id allow_list settings).

Definition env_rehydrate env id : M World (result PolicyEvaluator EvaluationError) :=
  let!? (pre, eval_ctx) := m_ret (rehydrate_inputs env id) in
  let! r := rehydrate pre eval_ctx in
  m_ret (map_err (λ e, WebAssemblyError ("cannot rehydrate PolicyEvaluatorPre: " +:+ e)) r).

(** ** Groups *)

(** One iteration of [build_policy_group_evaluator]; [None] is [unreachable!()]. *)
Definition add_group_member env (group : string) (evaluator : PolicyGroupEvaluator)
    (name : string) : option (result PolicyGroupEvaluator EvaluationError) :=
  let id := PolicyGroupPolicy group name in
  match id_to_digest env !! id with None => Some (Err (not_found id)) | Some module_digest =>
  match digest_to_pre env !! module_digest with None => Some (Err (not_found id)) | Some pre =>
  match id_to_ctx_aware env !! id with None => Some (Err (not_found id)) | Some allow_list =>
  match id_to_settings env !! id with None => Some (Err (not_found id)) | Some settings =>
  match pes_settings settings with
  | PolicyGroupSettingsOf _ _ _ => None
  | PolicySettingsOf policy_settings =>
      Some (Ok (add_policy_member evaluator name pre
        {| pgm_settings := policy_settings;
           pgm_ctx_aware_resources_allow_list := allow_list;
           pgm_epoch_deadline := epoch_deadline_for (pes_timeout_eval_seconds settings)
             (global_limit_seconds env);
           pgm_host_capabilities := unwrap_or DenyAll (id_to_host_capabilities env !! id) |}))
  end end end end end.

Fixpoint add_group_members env (group : string) (evaluator : PolicyGroupEvaluator)
    (names : list string) : option (result PolicyGroupEvaluator EvaluationError) :=
  match names with
  | [] => Some (Ok evaluator)
  | name :: names =>
      match add_group_member env group evaluator name with
      | Some (Ok evaluator) => add_group_members env group evaluator names
      | r => r
      end
  end.

Definition build_policy_group_evaluator env id :
    option (result PolicyGroupEvaluator EvaluationError) :=
  match get_policy_settings env id with
  | Err e => Some (Err e)
  | Ok settings =>
      match pes_settings settings with
      | PolicySettingsOf _ => None
      | PolicyGroupSettingsOf expression message policies =>
          add_group_members env (PolicyID_to_string id)
            (group_new (PolicyID_to_string id) message expression (callback_handler_tx env))
            policies
      end
  end.

(** A pure computation that may panic. *)
Definition m_lift {A} (o : option A) : M World A := λ w,
  match o with Some a => Some (a, w) | None => None end.

(** ** Validation *)

Definition env_validate_policy env id req : M World (result AdmissionResponse EvaluationError) :=
  match initialization_errors env !! id with
  | Some error => m_ret (Err (PolicyInitialization error))
  | None =>
      let!? settings := m_ret (get_policy_settings env id) in
      let! settings := m_lift (match pes_settings settings with
        | PolicySettingsOf settings => Some settings
        | PolicyGroupSettingsOf _ _ _ => None
        end) in
      let!? evaluator := env_rehydrate env id in
      let! response := evaluator_validate evaluator req settings in
      m_ret (Ok response)
  end.

Definition env_validate_policy_group env id req :
    M World (result AdmissionResponse EvaluationError) :=
  let!? group_evaluator := m_lift (build_policy_group_evaluator env id) in
  let! response := group_validate group_evaluator req in
  m_ret (Ok response).

Definition env_validate env id req : M World (result AdmissionResponse EvaluationError) :=
  if decide (id ∈ policy_groups env)
  then env_validate_policy_group env id req
  else env_validate_policy env id req.

Definition env_validate_settings env id : M World (result unit EvaluationError) :=
  let!? settings := m_ret (get_policy_settings env id) in
  match pes_settings settings with
  | PolicySettingsOf settings =>
      let!? evaluator := env_rehydrate env id in
      let! answer := evaluator_validate_settings evaluator settings in
      m_ret (if sv_valid answer then Ok tt
             else Err (PolicyInitialization ("Policy settings are invalid: " +:+
                    unwrap_or "no message" (sv_message answer))))
  | PolicyGroupSettingsOf _ _ _ =>
      let!? group_evaluator := m_lift (build_policy_group_evaluator env id) in
      let! answer := group_validate_settings group_evaluator in
      m_ret (if sv_valid answer then Ok tt
             else Err (PolicyInitialization (unwrap_or
                    (PolicyID_to_string id +:+ " settings are not valid") (sv_message answer))))
  end.

(** ** Properties *)

(** Modules are deduplicated by their digest: registering a policy whose
    digest is already known builds nothing and reuses the pre-initialised policy,
    whatever execution mode the new policy declares. *)
Theorem register_deduplicates env id s ctx pp pre :
  digest_to_pre env !! digest pp = Some pre →
  ∃ env', register env id s ctx pp = Ok env' ∧
    digest_to_pre env' = digest_to_pre env ∧ id_to_digest env' !! id = Some (digest pp) ∧
    (∀ mode, register env id s ctx {| precompiled_module := precompiled_module pp;
       execution_mode := mode; digest := digest pp |} = Ok env').
Proof.
  intros Hpre. rw /register /ensure_pre /= Hpre /=. eexists. split_and!; [done|done| |done].
  apply lookup_insert_eq.
Qed.
End environment.
