(* ===== verification/Bootstrap.v ===== *)
(** * Bootstrap of the evaluation environment

    Models [EvaluationEnvironmentBuilder] of
    [crates/policy-server/src/evaluation/evaluation_environment.rs]: the loop
    over the configured policies, and what the resulting environment guarantees. *)

From S2P Require Import Prelude RustStr Bytes Json PolicyId AdmissionResponse Request.
From S2P Require Import HostCapabilities Callback Runtime GroupEvaluator Config Environment.

Section bootstrap.
Context `{HashIter, SdkTypes, PR : !PolicyRuntime, ML : !ModuleLoader, R : !Rhai}.

Record EvaluationEnvironmentBuilder := {
  eb_precompiled_policies : PrecompiledPolicies;
  eb_callback_handler_tx : Channel;
  eb_continue_on_errors : bool;
  eb_global_limit_seconds : option N;
  eb_memory_limit_bytes : option Z;
  eb_always_accept_on_namespace : option string;
}.

Implicit Types (b : EvaluationEnvironmentBuilder) (env : EvaluationEnvironment) (id : PolicyID).

Definition builder_new (precompiled : PrecompiledPolicies) (tx : Channel) :
    EvaluationEnvironmentBuilder :=
  {| eb_precompiled_policies := precompiled; eb_callback_handler_tx := tx;
     eb_continue_on_errors := false; eb_global_limit_seconds := None;
     eb_memory_limit_bytes := None; eb_always_accept_on_namespace := None |}.

(** The environment the loop starts from. *)
Definition initial_environment b : EvaluationEnvironment :=
  {| always_accept_on_namespace := eb_always_accept_on_namespace b;
     digest_to_pre := ∅; id_to_ctx_aware := ∅; id_to_host_capabilities := ∅;
     id_to_digest := ∅; id_to_settings := ∅; initialization_errors := ∅;
     policy_groups := ∅;
     callback_handler_tx := Some (eb_callback_handler_tx b);
     global_limit_seconds := eb_global_limit_seconds b;
     memory_limit_bytes := eb_memory_limit_bytes b |}.

(** [bootstrap_policy]: on an error the environment may already hold the
    registration of the policy. *)
Definition bootstrap_policy b env id (url : string) (settings : PolicyEvaluationSettings)
    (eval_ctx : EvaluationContext) : M World (EvaluationEnvironment * result unit EvaluationError) :=
  match eb_precompiled_policies b !! url with
  | None => m_ret (env, Err (BootstrapFailure
      ("cannot find precompiled policy of " +:+ PolicyID_to_string id)))
  | Some (Err e) => m_ret (env, Err (BootstrapFailure (PolicyID_to_string id +:+ ": " +:+ e)))
  | Some (Ok precompiled_policy) =>
      match register env id settings eval_ctx precompiled_policy with
      | Err e => m_ret (env, Err (BootstrapFailure (EvaluationError_to_string e)))
      | Ok env =>
          let! r := env_validate_settings env id in
          m_ret (env, r)
      end
  end.

(** What the loop does with a failed bootstrap. *)
Definition bootstrap_or_record b env id (url : string) (settings : PolicyEvaluationSettings)
    (eval_ctx : EvaluationContext) : M World (result EvaluationEnvironment EvaluationError) :=
  let! (env, r) := bootstrap_policy b env id url settings eval_ctx in
  m_ret (match r with
         | Ok _ => Ok env
         | Err e =>
             if eb_continue_on_errors b
             then Ok (add_initialization_error env id (EvaluationError_to_string e))
             else Err e
         end).

Definition settings_error b env id (e : string) : result EvaluationEnvironment EvaluationError :=
  if eb_continue_on_errors b then Ok (add_initialization_error env id e)
  else Err (BootstrapFailure ("cannot extract settings from policy: " +:+ e)).

Definition parse_host_capabilities id (patterns : list string) :
    result HostCapabilities EvaluationError :=
  map_err (λ e, BootstrapFailure ("invalid hostCapabilities pattern for policy " +:+
             PolicyID_to_string id +:+ ": " +:+ HostCapabilitiesPatternError_to_string e))
    (HostCapabilities_new patterns).

Definition bootstrap_context b id (resources : gset ContextAwareResource) (timeout : option N)
    (hc : HostCapabilities) : EvaluationContext :=
  {| policy_id := PolicyID_to_string id;
     callback_channel := Some (eb_callback_handler_tx b);
     ctx_aware_resources_allow_list := resources;
     epoch_deadline := epoch_deadline_for timeout (eb_global_limit_seconds b);
     host_capabilities := hc |}.

(** One member of the group [id]. *)
Definition bootstrap_member b id env (entry : string * PolicyGroupMember) :
    M World (result EvaluationEnvironment EvaluationError) :=
  let '(policy_name, policy) := entry in
  let policy_id := PolicyGroupPolicy (PolicyID_to_string id) policy_name in
  match member_settings policy with
  | Err e => m_ret (settings_error b env policy_id e)
  | Ok settings =>
      let!? hc := m_ret (parse_host_capabilities id (gm_host_capabilities policy)) in
      bootstrap_or_record b env policy_id (gm_module policy)
        {| pes_policy_mode := Protect; pes_allowed_to_mutate := false;
           pes_settings := settings; pes_custom_rejection_message := None;
           pes_timeout_eval_seconds := gm_timeout_eval_seconds policy |}
        (bootstrap_context b policy_id (gm_context_aware_resources policy)
           (gm_timeout_eval_seconds policy) hc)
  end.

(** One entry of the configuration. *)
Definition bootstrap_entry b env (entry : string * PolicyOrPolicyGroup) :
    M World (result EvaluationEnvironment EvaluationError) :=
  let '(policy_name, policy) := entry in
  let!? id := m_ret (PolicyID_from_str policy_name) in
  match policy_settings policy with
  | Err e => m_ret (settings_error b env id e)
  | Ok settings =>
      match policy with
      | SinglePolicy url mode allowed_to_mutate _ resources message timeout patterns =>
          let!? hc := m_ret (parse_host_capabilities id patterns) in
          bootstrap_or_record b env id url
            {| pes_policy_mode := mode;
               pes_allowed_to_mutate := unwrap_or false allowed_to_mutate;
               pes_settings := settings; pes_custom_rejection_message := message;
               pes_timeout_eval_seconds := timeout |}
            (bootstrap_context b id resources timeout hc)
      | PolicyGroup mode policies _ _ =>
          mr_fold (bootstrap_member b id)
            (register_policy_group env id
               {| pes_policy_mode := mode; pes_allowed_to_mutate := false;
                  pes_settings := settings; pes_custom_rejection_message := None;
                  pes_timeout_eval_seconds := None |})
            (hash_iter policies)
      end
  end.

(** [build_evaluation_environment] *)
Definition build_evaluation_environment b (policies : gmap string PolicyOrPolicyGroup) :
    M World (result EvaluationEnvironment EvaluationError) :=
  mr_fold (bootstrap_entry b) (initial_environment b) (hash_iter policies).
End bootstrap.

(** ** The invariant of the environment *)

(** The name of [policies.yml] an identifier belongs to. *)
Definition id_name (id : PolicyID) : string :=
  match id with Policy name => name | PolicyGroupPolicy group _ => group end.

Section invariant.
Context `{HashIter, SdkTypes, PR : !PolicyRuntime, ML : !ModuleLoader, R : !Rhai}.
Implicit Types (b : EvaluationEnvironmentBuilder) (env : EvaluationEnvironment) (id : PolicyID).

(** Groups and individual policies are kept apart, and whatever a registered
    policy needs to be evaluated is present. *)
Record env_ok env : Prop := {
  ok_groups : ∀ id, id ∈ policy_groups env →
    ∃ name s expression message policies, id = Policy name ∧
      id_to_settings env !! id = Some s ∧
      pes_settings s = PolicyGroupSettingsOf expression message policies;
  ok_settings : ∀ id s, id_to_settings env !! id = Some s →
    match pes_settings s with
    | PolicySettingsOf _ => is_Some (id_to_digest env !! id) ∧ id ∉ policy_groups env
    | PolicyGroupSettingsOf _ _ _ => id ∈ policy_groups env
    end;
  ok_digest : ∀ id d, id_to_digest env !! id = Some d →
    (∃ s ps, id_to_settings env !! id = Some s ∧ pes_settings s = PolicySettingsOf ps) ∧
    is_Some (digest_to_pre env !! d) ∧ is_Some (id_to_ctx_aware env !! id) ∧
    is_Some (id_to_host_capabilities env !! id);
}.

(** [env'] differs from [env] only in what belongs to [name]. *)
Record frame (name : string) env env' : Prop := {
  fr_ids : ∀ id, id_name id ≠ name →
    id_to_settings env' !! id = id_to_settings env !! id ∧
    id_to_digest env' !! id = id_to_digest env !! id ∧
    id_to_ctx_aware env' !! id = id_to_ctx_aware env !! id ∧
    id_to_host_capabilities env' !! id = id_to_host_capabilities env !! id ∧
    initialization_errors env' !! id = initialization_errors env !! id ∧
    (id ∈ policy_groups env' ↔ id ∈ policy_groups env);
  fr_pre : digest_to_pre env ⊆ digest_to_pre env';
  fr_tx : callback_handler_tx env' = callback_handler_tx env;
  fr_limit : global_limit_seconds env' = global_limit_seconds env;
  fr_memory : memory_limit_bytes env' = memory_limit_bytes env;
  fr_namespace : always_accept_on_namespace env' = always_accept_on_namespace env;
}.

#[export] Instance frame_preorder name : PreOrder (frame name).
Proof.
  split.
  - intros env. by split.
  - intros env1 env2 env3 [H1 ? ? ? ? ?] [H2 ? ? ? ? ?].
    split; [|by etrans|congruence..].
    intros id Hid. destruct (H1 id Hid) as (? & ? & ? & ? & ? & E1).
    destruct (H2 id Hid) as (? & ? & ? & ? & ? & E2).
    split_and!; [congruence..|]. by rw E2 E1.
Qed.

Lemma initial_environment_ok b : env_ok (initial_environment b).
Proof. split; simpl; set_solver. Qed.

Lemma ensure_pre_Ok env id pp pres :
  ensure_pre env id pp = Ok pres →
  digest_to_pre env ⊆ pres ∧ is_Some (pres !! digest pp).
Proof.
  rw /ensure_pre. destruct (digest_to_pre env !! digest pp) eqn:Hd; intros; res_simpl; [eauto|].
  split; [by apply insert_subseteq|]. by rw lookup_insert_eq.
Qed.

Lemma register_frame env id s ctx pp env' :
  register env id s ctx pp = Ok env' → frame (id_name id) env env'.
Proof.
  intros Hr. rw /register in Hr. res_simpl. split; simpl; [|by eapply ensure_pre_Ok|done..].
  intros id' Hid. assert (id ≠ id') by congruence. by rw !lookup_insert_ne.
Qed.

Lemma register_ok env id s ps ctx pp env' :
  env_ok env → id ∉ policy_groups env → pes_settings s = PolicySettingsOf ps →
  register env id s ctx pp = Ok env' → env_ok env'.
Proof.
  intros [Hg Hs Hd] Hid Hps Hr. rw /register in Hr. res_simpl.
  match goal with H : ensure_pre _ _ _ = Ok _ |- _ => apply ensure_pre_Ok in H as [Hsub Hpre] end.
  split; simpl.
  - intros id' Hid'. destruct (Hg id' Hid') as (n & s' & e & m & l & -> & ? & ?).
    exists n, s', e, m, l. rw lookup_insert_ne //. by intros ->.
  - intros id' s'. rw lookup_insert. case_decide as Heq; subst.
    + intros [= <-]. rw Hps lookup_insert_eq. eauto.
    + intros Hs'. rw lookup_insert_ne //. by apply Hs.
  - intros id' d. rw !lookup_insert. case_decide as Heq; subst.
    + intros [= <-]. split_and!; eauto.
    + intros Hd'. destruct (Hd id' d Hd') as (? & [pre Hpre'] & ? & ?).
      split_and!; [done| |done|done]. exists pre. by eapply lookup_weaken.
Qed.

Lemma register_policy_group_ok env name s expression message policies :
  env_ok env → id_to_settings env !! Policy name = None →
  pes_settings s = PolicyGroupSettingsOf expression message policies →
  env_ok (register_policy_group env (Policy name) s).
Proof.
  intros [Hg Hs Hd] Hfresh Hps.
  assert (id_to_digest env !! Policy name = None) as Hnd.
  { destruct (id_to_digest env !! Policy name) eqn:E; [|done].
    apply Hd in E as ((? & ? & ? & _) & _). congruence. }
  split; simpl.
  - intros id [->%elem_of_singleton|Hid]%elem_of_union.
    { rw lookup_insert_eq. eauto 10. }
    destruct (Hg id Hid) as (n & s' & e & m & l & -> & Hs' & ?).
    exists n, s', e, m, l. rw lookup_insert_ne //. intros [= ->]. congruence.
  - intros id s'. rw lookup_insert. case_decide as Heq; subst.
    + intros [= <-]. rw Hps. set_solver.
    + intros Hs'. specialize (Hs _ _ Hs'). destruct (pes_settings s'); set_solver.
  - intros id d Hid. destruct (Hd id d Hid) as ((s' & ps & Hs' & ?) & ?).
    split; [|done]. exists s', ps. rw lookup_insert_ne //. intros <-. congruence.
Qed.

Lemma register_policy_group_frame env id s :
  frame (id_name id) env (register_policy_group env id s).
Proof.
  split; simpl; [|done..]. intros id' Hid. assert (id ≠ id') by congruence.
  rw !lookup_insert_ne //. set_solver.
Qed.

Lemma add_initialization_error_ok env id e :
  env_ok env → env_ok (add_initialization_error env id e).
Proof. by intros [? ? ?]; split. Qed.

Lemma add_initialization_error_frame env id e :
  frame (id_name id) env (add_initialization_error env id e).
Proof.
  split; simpl; [|done..]. intros id' Hid. assert (id ≠ id') by congruence.
  by rw !lookup_insert_ne.
Qed.

(** What a bootstrap leaves behind. *)
Lemma bootstrap_or_record_inv b env id url s ctx w env' w' :
  bootstrap_or_record b env id url s ctx w = Some (Ok env', w') →
  (∃ e, eb_continue_on_errors b = true ∧ env' = add_initialization_error env id e) ∨
  ∃ pp env1, eb_precompiled_policies b !! url = Some (Ok pp) ∧
    register env id s ctx pp = Ok env1 ∧
    (env' = env1 ∨
     ∃ e, eb_continue_on_errors b = true ∧ env' = add_initialization_error env1 id e).
Proof.
  intros ([env1 r] & w1 & Hb & [= Hr <-]%m_ret_Some)%m_bind_Some.
  rw /bootstrap_policy in Hb.
  destruct (eb_precompiled_policies b !! url) as [[pp|e]|] eqn:Hurl.
  2-3: apply m_ret_Some in Hb as [= -> -> _]; destruct (eb_continue_on_errors b);
    simplify_eq; eauto.
  destruct (register env id s ctx pp) as [env2|e] eqn:Hreg; last first.
  { apply m_ret_Some in Hb as [= -> -> _]. destruct (eb_continue_on_errors b); simplify_eq; eauto. }
  apply m_bind_Some in Hb as (r2 & w2 & _ & [= -> -> _]%m_ret_Some).
  right. exists pp, env2. split_and!; [done|done|]. destruct r2 as [[]|e]; simplify_eq; [by left|].
  right. destruct (eb_continue_on_errors b); simplify_eq. eauto.
Qed.

Lemma bootstrap_or_record_ok b env id url s ps ctx w env' w' :
  env_ok env → id ∉ policy_groups env → pes_settings s = PolicySettingsOf ps →
  bootstrap_or_record b env id url s ctx w = Some (Ok env', w') →
  env_ok env' ∧ frame (id_name id) env env'.
Proof.
  intros Hok Hid Hps
    [(e & _ & ->)|(pp & env1 & _ & Hr & [->|(e & _ & ->)])]%bootstrap_or_record_inv.
  - split; [by apply add_initialization_error_ok|apply add_initialization_error_frame].
  - split; [by eapply register_ok|by eapply register_frame].
  - split; [by eapply add_initialization_error_ok, register_ok|].
    trans env1; [by eapply register_frame|apply add_initialization_error_frame].
Qed.

Lemma bootstrap_member_ok b name env entry w env' w' :
  env_ok env →
  bootstrap_member b (Policy name) env entry w = Some (Ok env', w') →
  env_ok env' ∧ frame name env env'.
Proof.
  intros Hok. destruct entry as [m policy]. rw /bootstrap_member /=.
  intros (hc & w1 & _ & Hb)%mr_bind_Ok.
  eapply bootstrap_or_record_ok in Hb; [done|done| |done].
  intros Hid. by apply (ok_groups _ Hok) in Hid as (? & ? & ? & ? & ? & ? & ?).
Qed.

Lemma bootstrap_members_ok b name env entries w env' w' :
  env_ok env →
  mr_fold (bootstrap_member b (Policy name)) env entries w = Some (Ok env', w') →
  env_ok env' ∧ frame name env env'.
Proof.
  intros Hok. apply (mr_fold_inv (λ _ e, env_ok e ∧ frame name env e)); [done|].
  intros env1 entry l w1 env2 w2 [Hok1 Hfr] Hm.
  destruct (bootstrap_member_ok _ _ _ _ _ _ _ Hok1 Hm). split; [done|by trans env1].
Qed.

Lemma parse_name name id :
  no_slash name → PolicyID_from_str name = Ok id → id = Policy name.
Proof.
  intros Hn [Hwf ->]%PolicyID_from_str_inv. destruct id as [n|g n]; [done|]. exfalso.
  rw /no_slash /= !contains_char_app /= in Hn.
  by destruct (contains_char g slash), (contains_char n slash).
Qed.

Lemma bootstrap_entry_ok b env name policy w env' w' :
  env_ok env → no_slash name → id_to_settings env !! Policy name = None →
  bootstrap_entry b env (name, policy) w = Some (Ok env', w') →
  env_ok env' ∧ frame name env env'.
Proof.
  intros Hok Hname Hfresh (id & w1 & [= Hid <-]%m_ret_Some & Hb)%mr_bind_Ok.
  symmetry in Hid. apply parse_name in Hid as ->; [|done].
  destruct policy as [url mode mut st res msg timeout patterns|mode members e m]; simpl in Hb.
  - apply mr_bind_Ok in Hb as (hc & w2 & _ & Hb).
    eapply bootstrap_or_record_ok in Hb; [done|done| |done].
    intros (? & ? & ? & ? & ? & _ & ? & _)%(ok_groups _ Hok). congruence.
  - apply bootstrap_members_ok in Hb as [Hok' Hfr].
    + split; [done|]. etrans; [apply (register_policy_group_frame env (Policy name))|done].
    + by eapply register_policy_group_ok.
Qed.

(** The entries still to visit are fresh. *)
Definition pending (entries : list (string * PolicyOrPolicyGroup)) env : Prop :=
  env_ok env ∧ NoDup entries.*1 ∧
  ∀ name, name ∈ entries.*1 → no_slash name ∧ id_to_settings env !! Policy name = None.

Lemma pending_step b env name policy entries w env' w' :
  pending ((name, policy) :: entries) env →
  bootstrap_entry b env (name, policy) w = Some (Ok env', w') →
  pending entries env'.
Proof.
  intros (Hok & [Hnin Hnd]%NoDup_cons & Hfresh) Hb.
  destruct (Hfresh name (list_elem_of_here _ _)) as [Hn Hf].
  destruct (bootstrap_entry_ok _ _ _ _ _ _ _ Hok Hn Hf Hb) as [Hok' Hfr].
  split_and!; [done|done|]. intros n Hin. destruct (Hfresh n) as [? Hnone]; [set_solver|].
  split; [done|]. destruct (fr_ids _ _ _ Hfr (Policy n)) as [-> _]; [|done].
  simpl. by intros ->.
Qed.

Lemma pending_initial b (policies : gmap string PolicyOrPolicyGroup) :
  names_ok policies → pending (hash_iter policies) (initial_environment b).
Proof.
  intros Hn. split_and!; [apply initial_environment_ok|apply NoDup_hash_keys|].
  intros name [policy Hp]%elem_of_hash_keys. split; [|done]. by apply (Hn _ _ Hp).
Qed.

(** Every environment the builder returns is well formed. *)
Lemma build_env_ok b policies w env w' :
  names_ok policies →
  build_evaluation_environment b policies w = Some (Ok env, w') → env_ok env.
Proof.
  intros Hn Hb. eapply (mr_fold_inv pending) in Hb; [by destruct Hb|by apply pending_initial|].
  intros env1 [name policy] l w1 env2 w2. apply pending_step.
Qed.

(** [env] and [env'] hold the same about the identifiers of [name]. *)
Definition agree_on (name : string) env env' : Prop :=
  ∀ id, id_name id = name →
    id_to_settings env' !! id = id_to_settings env !! id ∧
    id_to_digest env' !! id = id_to_digest env !! id ∧
    id_to_ctx_aware env' !! id = id_to_ctx_aware env !! id ∧
    id_to_host_capabilities env' !! id = id_to_host_capabilities env !! id ∧
    initialization_errors env' !! id = initialization_errors env !! id.

Lemma frame_agree_on name name' env env' :
  name ≠ name' → frame name' env env' → agree_on name env env'.
Proof.
  intros Hne Hfr id Hid. destruct (fr_ids _ _ _ Hfr id) as (? & ? & ? & ? & ? & _); [congruence|].
  done.
Qed.

(** What the loop over [l] leaves alone. *)
Lemma bootstrap_entries_agree b l l' env w env' w' :
  pending (l ++ l') env →
  mr_fold (bootstrap_entry b) env l w = Some (Ok env', w') →
  pending l' env' ∧
  (∀ name, name ∉ l.*1 → agree_on name env env') ∧
  callback_handler_tx env' = callback_handler_tx env ∧
  global_limit_seconds env' = global_limit_seconds env.
Proof.
  revert env w. induction l as [|[n p] l IH]; intros env w Hpend; simpl.
  { by intros [= -> _]%m_ret_Some. }
  intros (env1 & w1 & Hstep & Hl)%mr_bind_Ok.
  destruct (IH _ _ (pending_step _ _ _ _ _ _ _ _ Hpend Hstep) Hl) as (? & Ha & Htx & Hlim).
  destruct Hpend as (Hok & _ & Hfresh). destruct (Hfresh n) as [? ?]; [set_solver|].
  destruct (bootstrap_entry_ok _ _ _ _ _ _ _ Hok ltac:(done) ltac:(done) Hstep) as [_ Hfr].
  pose proof (fr_tx _ _ _ Hfr). pose proof (fr_limit _ _ _ Hfr).
  split_and!; [done| |congruence..]. intros name [Hne Hnin]%not_elem_of_cons id Hid.
  destruct (Ha name Hnin id Hid) as (? & ? & ? & ? & ?).
  destruct (frame_agree_on _ _ _ _ Hne Hfr id Hid) as (? & ? & ? & ? & ?).
  split_and!; congruence.
Qed.

(** The state of the loop just before and just after a given entry. *)
Lemma build_split b policies name policy w env w' :
  names_ok policies → policies !! name = Some policy →
  build_evaluation_environment b policies w = Some (Ok env, w') →
  ∃ env1 w1 env2 w2,
    env_ok env1 ∧ id_to_settings env1 !! Policy name = None ∧
    initialization_errors env1 !! Policy name = None ∧ no_slash name ∧
    bootstrap_entry b env1 (name, policy) w1 = Some (Ok env2, w2) ∧
    agree_on name env2 env ∧
    callback_handler_tx env = Some (eb_callback_handler_tx b) ∧
    global_limit_seconds env = eb_global_limit_seconds b.
Proof.
  intros Hn Hp Hb. apply elem_of_hash_iter in Hp.
  pose proof (pending_initial b policies Hn) as Hpend.
  destruct (mr_fold_split _ _ _ _ _ _ _ Hp Hb)
    as (l1 & l2 & env1 & w1 & env2 & w2 & Hl & Hb1 & He & Hb2).
  rw Hl in Hpend. pose proof Hpend as (_ & Hnd & _).
  rw fmap_app /= NoDup_app NoDup_cons in Hnd. destruct Hnd as (_ & Hdis & Hnin & _).
  destruct (bootstrap_entries_agree _ _ _ _ _ _ _ Hpend Hb1) as (Hp1 & Ha1 & Htx1 & Hlim1).
  simpl in Htx1, Hlim1.
  pose proof (pending_step _ _ _ _ _ _ _ _ Hp1 He) as Hp2.
  rw -(app_nil_r l2) in Hp2.
  destruct (bootstrap_entries_agree _ _ _ _ _ _ _ Hp2 Hb2) as (_ & Ha2 & Htx2 & Hlim2).
  destruct Hp1 as (Hok1 & _ & Hfresh1). destruct (Hfresh1 name) as [? ?]; [set_solver|].
  destruct (bootstrap_entry_ok _ _ _ _ _ _ _ Hok1 ltac:(done) ltac:(done) He) as [_ Hfr].
  pose proof (fr_tx _ _ _ Hfr). pose proof (fr_limit _ _ _ Hfr).
  exists env1, w1, env2, w2. split_and!; [done|done| |done|done|by apply Ha2|congruence|congruence].
  destruct (Ha1 name ltac:(set_solver) (Policy name) eq_refl) as (_ & _ & _ & _ & ->). done.
Qed.

(** A name that is not configured leaves no trace. *)
Lemma build_unknown_name b policies name w env w' :
  names_ok policies → policies !! name = None →
  build_evaluation_environment b policies w = Some (Ok env, w') →
  ∀ id, id_name id = name →
    id ∉ policy_groups env ∧ id_to_settings env !! id = None ∧
    initialization_errors env !! id = None.
Proof.
  intros Hn Hp Hb id Hid. pose proof (build_env_ok _ _ _ _ _ Hn Hb) as Hok.
  pose proof (pending_initial b policies Hn) as Hpend. rw -(app_nil_r (hash_iter policies)) in Hpend.
  destruct (bootstrap_entries_agree _ _ _ _ _ _ _ Hpend Hb) as (_ & Ha & _).
  destruct (Ha name) with (id := id) as (Hs & _ & _ & _ & Hi); [|done|].
  { intros [policy Hin]%elem_of_hash_keys. congruence. }
  split_and!; [|done|done]. intros (? & ? & ? & ? & ? & _ & Hs' & _)%(ok_groups _ Hok).
  rw Hs in Hs'. done.
Qed.

(** Who may mutate: only individual policies whose configuration says so. *)
Definition mutation_granted (policies : gmap string PolicyOrPolicyGroup) id
    (s : PolicyEvaluationSettings) : Prop :=
  pes_allowed_to_mutate s = true →
  ∃ url st res msg timeout patterns,
    policies !! PolicyID_to_string id =
      Some (SinglePolicy url (pes_policy_mode s) (Some true) st res msg timeout patterns).

Lemma mutation_granted_false policies id s :
  pes_allowed_to_mutate s = false → mutation_granted policies id s.
Proof. rw /mutation_granted. congruence. Qed.

Lemma bootstrap_or_record_settings (Q : PolicyID → PolicyEvaluationSettings → Prop)
    b env id url s ctx w env' w' :
  map_Forall Q (id_to_settings env) → Q id s →
  bootstrap_or_record b env id url s ctx w = Some (Ok env', w') →
  map_Forall Q (id_to_settings env').
Proof.
  intros HQ Hs [(e & _ & ->)|(pp & env1 & _ & Hr & Henv)]%bootstrap_or_record_inv; [done|].
  cut (map_Forall Q (id_to_settings env1)); [destruct Henv as [->|(e & _ & ->)]; done|].
  rw /register in Hr. res_simpl. by apply map_Forall_insert_2.
Qed.

Lemma bootstrap_entry_mutation b policies env entry w env' w' :
  entry ∈ hash_iter policies →
  map_Forall (mutation_granted policies) (id_to_settings env) →
  bootstrap_entry b env entry w = Some (Ok env', w') →
  map_Forall (mutation_granted policies) (id_to_settings env').
Proof.
  destruct entry as [name policy]. intros Hin%elem_of_hash_iter HQ
    (id & w1 & [= Hid <-]%m_ret_Some & Hb)%mr_bind_Ok.
  symmetry in Hid. apply PolicyID_from_str_inv in Hid as [_ ->].
  destruct policy as [url mode mut st res msg timeout patterns|mode members e m]; simpl in Hb.
  - apply mr_bind_Ok in Hb as (hc & w2 & _ & Hb).
    eapply bootstrap_or_record_settings; [exact HQ| |exact Hb].
    intros Hmut. simpl in *. destruct mut as [[]|]; simplify_eq/=. rw Hin. by do 6 eexists.
  - refine (mr_fold_inv (λ _ env, map_Forall (mutation_granted policies) (id_to_settings env))
      _ _ _ _ _ _ _ _ Hb).
    { simpl. apply map_Forall_insert_2; [by apply mutation_granted_false|done]. }
    intros env1 [n p] l w2 env2 w3 HQ1 (hc & w4 & _ & Hm)%mr_bind_Ok.
    eapply bootstrap_or_record_settings; [exact HQ1| |exact Hm].
    by apply mutation_granted_false.
Qed.

Lemma build_mutation b policies w env w' :
  build_evaluation_environment b policies w = Some (Ok env, w') →
  map_Forall (mutation_granted policies) (id_to_settings env).
Proof.
  intros Hb. apply (mr_fold_inv (λ l env, (∀ x, x ∈ l → x ∈ hash_iter policies) ∧
    map_Forall (mutation_granted policies) (id_to_settings env))) in Hb; [by destruct Hb| |].
  { split; [done|]. apply map_Forall_empty. }
  intros env1 entry l w1 env2 w2 [Hin HQ] He. split; [set_solver|].
  eapply bootstrap_entry_mutation; [|done|done]. set_solver.
Qed.

(** The module that the configuration names for an identifier, of an individual policy or of a
    member of a group. *)
Definition module_of (policies : gmap string PolicyOrPolicyGroup) id (url : string) : Prop :=
  match id with
  | Policy name => ∃ mode mut st res msg timeout patterns,
      policies !! name = Some (SinglePolicy url mode mut st res msg timeout patterns)
  | PolicyGroupPolicy group name => ∃ mode members expression message member,
      policies !! group = Some (PolicyGroup mode members expression message) ∧
      members !! name = Some member ∧ gm_module member = url
  end.

(** A registered digest is the one of the module precompiled for that URL. *)
Definition module_registered b policies id (d : string) : Prop :=
  ∃ url pp, module_of policies id url ∧ eb_precompiled_policies b !! url = Some (Ok pp) ∧ d = digest pp.

Lemma bootstrap_or_record_modules b policies env id url s ctx w env' w' :
  map_Forall (module_registered b policies) (id_to_digest env) → module_of policies id url →
  bootstrap_or_record b env id url s ctx w = Some (Ok env', w') →
  map_Forall (module_registered b policies) (id_to_digest env').
Proof.
  intros HQ Hm [(e & _ & ->)|(pp & env1 & Hpp & Hr & Henv)]%bootstrap_or_record_inv; [done|].
  cut (map_Forall (module_registered b policies) (id_to_digest env1)); [destruct Henv as [->|(e & _ & ->)]; done|].
  rw /register in Hr. res_simpl. apply map_Forall_insert_2; [|done]. by exists url, pp.
Qed.

Lemma bootstrap_entry_modules b policies env entry w env' w' :
  names_ok policies → entry ∈ hash_iter policies →
  map_Forall (module_registered b policies) (id_to_digest env) →
  bootstrap_entry b env entry w = Some (Ok env', w') →
  map_Forall (module_registered b policies) (id_to_digest env').
Proof.
  destruct entry as [name policy]. intros Hok Hin%elem_of_hash_iter HQ
    (id & w1 & [= Hid <-]%m_ret_Some & Hb)%mr_bind_Ok.
  destruct (Hok _ _ Hin) as [Hname _]. symmetry in Hid. apply parse_name in Hid as ->; [|done].
  destruct policy as [url mode mut st res msg timeout patterns|mode members e m]; simpl in Hb.
  - apply mr_bind_Ok in Hb as (hc & w2 & _ & Hb).
    eapply bootstrap_or_record_modules; [exact HQ| |exact Hb]. by do 7 eexists.
  - refine (proj2 (mr_fold_inv (λ l env, (∀ x, x ∈ l → x ∈ hash_iter members) ∧
      map_Forall (module_registered b policies) (id_to_digest env)) _ _ _ _ _ _ _ _ Hb)); [done|].
    intros env1 [n p] l w2 env2 w3 [Hl HQ1] (hc & w4 & _ & Hm)%mr_bind_Ok. split; [set_solver|].
    eapply bootstrap_or_record_modules; [exact HQ1| |exact Hm].
    exists mode, members, e, m, p. split_and!; [done| |done]. apply elem_of_hash_iter, Hl. set_solver.
Qed.

Lemma build_modules b policies w env w' :
  names_ok policies → build_evaluation_environment b policies w = Some (Ok env, w') →
  map_Forall (module_registered b policies) (id_to_digest env).
Proof.
  intros Hn Hb. apply (mr_fold_inv (λ l env, (∀ x, x ∈ l → x ∈ hash_iter policies) ∧
    map_Forall (module_registered b policies) (id_to_digest env))) in Hb; [by destruct Hb| |].
  { split; [done|]. apply map_Forall_empty. }
  intros env1 entry l w1 env2 w2 [Hin HQ] He. split; [set_solver|].
  eapply bootstrap_entry_modules; [done| |done|done]. set_solver.
Qed.
End invariant.

(** ** What the environment guarantees *)

(** The expression engine does not panic by itself: an evaluation that panics has called a
    registered function that panicked. *)
Class RhaiNoPanic (R : Rhai) : Prop := {
  eval_expression_panic : ∀ (S : Type) (fns : gmap string (M S (result bool RhaiError))) e s,
    eval_expression fns e s = None → ∃ name f s', fns !! name = Some f ∧ f s' = None;
}.

Section guarantees.
Context `{HashIter, SdkTypes, PR : !PolicyRuntime, ML : !ModuleLoader, R : !Rhai}.
Implicit Types (b : EvaluationEnvironmentBuilder) (env : EvaluationEnvironment) (id : PolicyID).

Lemma add_group_member_no_panic env group g name :
  env_ok env → is_Some (add_group_member env group g name).
Proof.
  intros Hok. rw /add_group_member.
  destruct (id_to_digest env !! PolicyGroupPolicy group name) as [d|] eqn:Hd; [|done].
  destruct (ok_digest _ Hok _ _ Hd) as ((s & ps & -> & Hps) & [pre ->] & [car ->] & _).
  by rw Hps.
Qed.

Lemma build_policy_group_evaluator_no_panic env id :
  env_ok env → id ∈ policy_groups env → is_Some (build_policy_group_evaluator env id).
Proof.
  intros Hok Hid. destruct (ok_groups _ Hok _ Hid) as (n & s & e & m & l & _ & Hs & Hps).
  rw /build_policy_group_evaluator /get_policy_settings Hs /= Hps.
  clear Hps. generalize (group_new (PolicyID_to_string id) m e (callback_handler_tx env)).
  induction l as [|name l IH]; intros g; simpl; [done|].
  destruct (add_group_member_no_panic env (PolicyID_to_string id) g name Hok) as [[g'|?] ->];
    [apply IH|by eexists].
Qed.

Lemma m_bind_None {W A B} (c : M W A) (k : A → M W B) w :
  m_bind c k w = None → c w = None ∨ ∃ a w', c w = Some (a, w') ∧ k a w' = None.
Proof. rw /m_bind. destruct (c w) as [[a w']|]; eauto. Qed.

Lemma mr_bind_None {W A B E} (c : M W (result A E)) (k : A → M W (result B E)) w :
  mr_bind c k w = None → c w = None ∨ ∃ a w', c w = Some (Ok a, w') ∧ k a w' = None.
Proof. intros [?|([a|e] & w' & ? & ?)]%m_bind_None; eauto. done. Qed.

(** The runtime panicked on a request: when the policy was rehydrated, or on the validation that
    followed. *)
Definition runtime_panics (pre : PolicyEvaluatorPre) req : Prop :=
  ∃ ctx w, rehydrate pre ctx w = None ∨
    ∃ e settings w', rehydrate pre ctx w = Some (Ok e, w') ∧ evaluator_validate e req settings w' = None.

Lemma group_validate_panics `{!RhaiNoPanic R} g req w :
  group_validate g req w = None →
  ∃ name pre, pg_policy_members g !! name = Some pre ∧ runtime_panics pre req.
Proof.
  rw /group_validate. destruct (eval_expression _ _ _) as [[[r|e] [w' res]]|] eqn:He; [done..|]. intros _.
  apply eval_expression_panic in He as (name & f & [w1 res1] & Hf & Hp).
  rw /member_functions map_lookup_imap in Hf.
  destruct (pg_policy_members g !! name) as [pre|] eqn:Hpre; [|done]. exists name, pre. split; [done|].
  injection Hf as <-. rw member_function_eq in Hp. assert (validate_policy g name req w1 = None) as Hv.
  { by destruct (validate_policy g name req w1) as [[[response|e] w2]|]. }
  clear Hp. rw /validate_policy /rehydrate_member Hpre in Hv.
  destruct (pg_policy_members_settings g !! name) as [st|]; [|done].
  exists (member_context g name st), w1.
  apply m_bind_None in Hv as [Hv|([[ev st']|e] & w2 & Hr & Hv)]; [| |done].
  - apply m_bind_None in Hv as [?|([?|?] & ? & ? & ?)]; [by left|done..].
  - apply m_bind_Some in Hr as ([ev'|e] & w3 & Hre & [= <- <- <-]). right.
    apply m_bind_None in Hv as [Hv|(? & ? & ? & ?)]; [|done]. eauto.
Qed.

(** The members of a group evaluator come from the environment. *)
Lemma add_group_members_pre env group l : ∀ g g',
  add_group_members env group g l = Some (Ok g') →
  map_Forall (λ _ pre, ∃ d, digest_to_pre env !! d = Some pre) (pg_policy_members g) →
  map_Forall (λ _ pre, ∃ d, digest_to_pre env !! d = Some pre) (pg_policy_members g').
Proof.
  induction l as [|name l IH]; intros g g'; simpl; [by intros [= <-]|].
  destruct (add_group_member env group g name) as [[g1|?]|] eqn:Ha; [|done..]. intros Hl Hg.
  eapply IH; [exact Hl|]. revert Ha. rw /add_group_member.
  destruct (id_to_digest env !! _) as [d|]; [|done]. destruct (digest_to_pre env !! d) as [pre|] eqn:Hd; [|done].
  repeat case_match; try done; intros [= <-]; simpl; (apply map_Forall_insert_2; [by exists d|done]).
Qed.

Lemma rehydrate_inputs_pre env id pre ctx :
  rehydrate_inputs env id = Ok (pre, ctx) → ∃ d, digest_to_pre env !! d = Some pre.
Proof. rw /rehydrate_inputs. case_decide; [done|]. intros. res_simpl. eauto. Qed.

(** C24. The environment adds no panic of its own: its [unreachable!()] branches are unreachable.
    For a configuration whose names were validated, when validating a request panics, for any
    identifier, known or unknown, of a policy or of a group, then the runtime of a registered policy
    panicked, while it was rehydrated or while it validated this request. *)
Theorem panics_come_from_runtime `{!RhaiNoPanic R} b policies w env w' id req w1 :
  names_ok policies →
  build_evaluation_environment b policies w = Some (Ok env, w') →
  env_validate env id req w1 = None →
  ∃ d pre, digest_to_pre env !! d = Some pre ∧ runtime_panics pre req.
Proof.
  intros Hn Hb. pose proof (build_env_ok _ _ _ _ _ Hn Hb) as Hok.
  rw /env_validate. case_decide as Hid.
  - destruct (build_policy_group_evaluator_no_panic env id Hok Hid) as [r Hr].
    intros [Hp|(g & w2 & Hg & Hp)]%mr_bind_None; [by rewrite /m_lift Hr in Hp|].
    rewrite /m_lift Hr in Hg. injection Hg as -> <-.
    apply m_bind_None in Hp as [Hp|(? & ? & ? & ?)]; [|done].
    apply group_validate_panics in Hp as (name & pre & Hpre & Hp).
    assert (∃ d, digest_to_pre env !! d = Some pre) as [d Hd]; [|by exists d, pre].
    revert Hr. rw /build_policy_group_evaluator. destruct (get_policy_settings env id) as [s|]; [|done].
    destruct (pes_settings s); [done|]. intros Hr.
    by apply (add_group_members_pre _ _ _ _ _ Hr (map_Forall_empty _) name).
  - rw /env_validate_policy. destruct (initialization_errors env !! id); [done|].
    rw /mr_bind {1}/m_bind /get_policy_settings.
    destruct (id_to_settings env !! id) as [s|] eqn:Hs; [|done]. simpl.
    pose proof (ok_settings _ Hok _ _ Hs) as Hps.
    destruct (pes_settings s) as [ps|]; [|done]. rw /m_bind {1}/m_lift.
    intros [Hp|(ev & w2 & Hev & Hp)]%(mr_bind_None (env_rehydrate env id)).
    + apply (mr_bind_None (m_ret (rehydrate_inputs env id))) in Hp as [Hp|([pre ctx] & w2 & [= Hi <-] & Hp)]; [done|].
      apply m_bind_None in Hp as [Hp|([?|?] & ? & ? & ?)]; [|done..].
      destruct (rehydrate_inputs_pre _ _ _ _ Hi) as [d Hd]. exists d, pre. split; [done|]. exists ctx, w1. by left.
    + apply (mr_bind_Ok (m_ret (rehydrate_inputs env id))) in Hev as ([pre ctx] & w3 & [= Hi <-] & Hev).
      apply m_bind_Some in Hev as ([ev'|?] & w4 & Hr & [= <- <-]).
      apply m_bind_None in Hp as [Hp|(? & ? & ? & ?)]; [|done].
      destruct (rehydrate_inputs_pre _ _ _ _ Hi) as [d Hd]. exists d, pre. split; [done|].
      exists ctx, w1. right. eauto.
Qed.

(** The effect of bootstrapping an individual policy. *)
Lemma bootstrap_single b env name url mode mut st res msg timeout patterns w env' w' :
  no_slash name → initialization_errors env !! Policy name = None →
  bootstrap_entry b env (name, SinglePolicy url mode mut st res msg timeout patterns) w
    = Some (Ok env', w') →
  ∃ hc, HostCapabilities_new patterns = Ok hc ∧
    ((eb_continue_on_errors b = true ∧ is_Some (initialization_errors env' !! Policy name)) ∨
     initialization_errors env' !! Policy name = None ∧
     (∃ pp, eb_precompiled_policies b !! url = Some (Ok pp) ∧
            id_to_digest env' !! Policy name = Some (digest pp)) ∧
     id_to_settings env' !! Policy name = Some {| pes_policy_mode := mode;
       pes_allowed_to_mutate := unwrap_or false mut;
       pes_settings := PolicySettingsOf (unwrap_or [] st); pes_custom_rejection_message := msg;
       pes_timeout_eval_seconds := timeout |} ∧
     id_to_ctx_aware env' !! Policy name = Some res ∧
     id_to_host_capabilities env' !! Policy name = Some hc).
Proof.
  intros Hname Hnone (id & w1 & [= Hid <-]%m_ret_Some & Hb)%mr_bind_Ok.
  symmetry in Hid. apply parse_name in Hid as ->; [|done]. simpl in Hb.
  apply mr_bind_Ok in Hb as (hc & w2 & [= Hhc <-]%m_ret_Some & Hb).
  symmetry in Hhc. rw /parse_host_capabilities in Hhc. apply map_err_Ok in Hhc.
  exists hc. split; [done|].
  apply bootstrap_or_record_inv in Hb
    as [(e & ? & ->)|(pp & env1 & Hpp & Hr & [->|(e & ? & ->)])].
  1,3: left; split; [done|]; simpl; rw lookup_insert_eq; by eexists.
  right. rw /register in Hr. res_simpl. rw !lookup_insert_eq. split_and!; try done.
  by exists pp.
Qed.

(** C4. Least privilege end to end: once the environment is built, an individual
    policy of the configuration either is marked as failed, or is evaluated
    exactly with what its configuration grants: its own identifier, its own list
    of Kubernetes resources, the capabilities its own patterns denote, and a
    deadline that is its own timeout under the global one. Without
    [continue_on_errors] no policy is marked as failed. *)
Theorem environment_grants_configuration b policies w env w'
    name url mode mut st res msg timeout patterns :
  names_ok policies →
  policies !! name = Some (SinglePolicy url mode mut st res msg timeout patterns) →
  build_evaluation_environment b policies w = Some (Ok env, w') →
  (eb_continue_on_errors b = true ∧ is_Some (initialization_errors env !! Policy name)) ∨
  ∃ pre hc, HostCapabilities_new patterns = Ok hc ∧
    initialization_errors env !! Policy name = None ∧
    rehydrate_inputs env (Policy name) = Ok (pre,
      {| policy_id := name;
         callback_channel := Some (eb_callback_handler_tx b);
         ctx_aware_resources_allow_list := res;
         epoch_deadline := epoch_deadline_for timeout (eb_global_limit_seconds b);
         host_capabilities := hc |}).
Proof.
  intros Hn Hp Hb. pose proof (build_env_ok _ _ _ _ _ Hn Hb) as Hok.
  destruct (build_split _ _ _ _ _ _ _ Hn Hp Hb)
    as (env1 & w1 & env2 & w2 & _ & _ & Hnone & Hname & He & Ha & Htx & Hlim).
  destruct (Ha (Policy name) eq_refl) as (Hs & Hd & Hc & Hh & Hi).
  destruct (bootstrap_single _ _ _ _ _ _ _ _ _ _ _ _ _ _ Hname Hnone He)
    as (hc & Hhc & [[? ?]|(Hi2 & Hd2 & Hs2 & Hc2 & Hh2)]).
  { left. by rw Hi. }
  right. destruct Hd2 as (pp & _ & Hd2). rw -Hd in Hd2. rw -Hs in Hs2. rw -Hc in Hc2. rw -Hh in Hh2.
  destruct (ok_digest _ Hok _ _ Hd2) as (_ & [pre Hpre] & _).
  pose proof (ok_settings _ Hok _ _ Hs2) as [_ Hng]. simpl in Hng.
  exists pre, hc. split_and!; [done|by rw Hi|].
  rw /rehydrate_inputs decide_False // /get_policy_settings Hd2 Hs2 /= Hpre /= Hc2 /=.
  by rw /policy_context Htx Hlim Hh2.
Qed.

(** Without [continue_on_errors] no policy is marked as failed. *)
Lemma bootstrap_or_record_strict b env id url s ctx w env' w' :
  eb_continue_on_errors b = false →
  bootstrap_or_record b env id url s ctx w = Some (Ok env', w') →
  initialization_errors env' = initialization_errors env.
Proof.
  intros Hc [(e & ? & _)|(pp & env1 & _ & Hr & [->|(e & ? & _)])]%bootstrap_or_record_inv;
    [congruence| |congruence].
  rw /register in Hr. by res_simpl.
Qed.

Lemma bootstrap_member_strict b id env entry w env' w' :
  eb_continue_on_errors b = false →
  bootstrap_member b id env entry w = Some (Ok env', w') →
  initialization_errors env' = initialization_errors env.
Proof.
  intros Hc. destruct entry as [name m]. rw /bootstrap_member /=.
  intros (hc & w1 & _ & Hb)%mr_bind_Ok. by eapply bootstrap_or_record_strict.
Qed.

Lemma bootstrap_entry_strict b env entry w env' w' :
  eb_continue_on_errors b = false →
  bootstrap_entry b env entry w = Some (Ok env', w') →
  initialization_errors env' = initialization_errors env.
Proof.
  intros Hc. destruct entry as [name policy]. intros (id & w1 & _ & Hb)%mr_bind_Ok.
  destruct policy as [url mode mut st res msg timeout patterns|mode policies expression message];
    simpl in Hb.
  - apply mr_bind_Ok in Hb as (hc & w2 & _ & Hb). by eapply bootstrap_or_record_strict.
  - eapply (mr_fold_inv (λ _ env', initialization_errors env' = initialization_errors env)) in Hb;
      [done|done|].
    intros env1 m l w2 env2 w3 Heq Hm. rw -Heq. by eapply bootstrap_member_strict.
Qed.

Lemma build_strict b policies w env w' :
  eb_continue_on_errors b = false →
  build_evaluation_environment b policies w = Some (Ok env, w') →
  initialization_errors env = ∅.
Proof.
  intros Hc Hb. eapply (mr_fold_inv (λ _ env, initialization_errors env = ∅)) in Hb; [done|done|].
  intros env1 e l w1 env2 w2 Heq He. rw -Heq. by eapply bootstrap_entry_strict.
Qed.

(** A policy that is not marked as failed runs the module precompiled for its URL. *)
Lemma built_policy_module b policies w env w' name url mode mut st res msg timeout patterns :
  names_ok policies →
  policies !! name = Some (SinglePolicy url mode mut st res msg timeout patterns) →
  build_evaluation_environment b policies w = Some (Ok env, w') →
  initialization_errors env !! Policy name = None →
  ∃ pp, eb_precompiled_policies b !! url = Some (Ok pp) ∧
        id_to_digest env !! Policy name = Some (digest pp).
Proof.
  intros Hn Hp Hb Hnone. destruct (build_split _ _ _ _ _ _ _ Hn Hp Hb)
    as (env1 & w1 & env2 & w2 & _ & _ & Hnone1 & Hname & He & Ha & _).
  destruct (Ha (Policy name) eq_refl) as (_ & Hd & _ & _ & Hi).
  destruct (bootstrap_single _ _ _ _ _ _ _ _ _ _ _ _ _ _ Hname Hnone1 He)
    as (hc & _ & [[_ [e He']]|(_ & (pp & Hpp & Hd2) & _)]); [congruence|].
  exists pp. by rw Hd.
Qed.

(** A request for a policy whose initialization failed runs no policy code. *)
Lemma env_validate_failed env id req error w :
  id ∉ policy_groups env → initialization_errors env !! id = Some error →
  env_validate env id req w = Some (Err (PolicyInitialization error), w).
Proof.
  intros Hid He. rw /env_validate decide_False // /env_validate_policy He. done.
Qed.

(** The deadline of an evaluation: none when the global timeout protection is
    off, whatever the policy asks for; otherwise the policy's own, or the global
    one when it has none. *)
Lemma epoch_deadline_override timeout global :
  (epoch_deadline_for timeout global = None ↔ global = None) ∧
  (∀ t, is_Some global → epoch_deadline_for (Some t) global = Some t) ∧
  (timeout = None → epoch_deadline_for timeout global = global).
Proof. destruct timeout, global; split_and!; try done; by intros ? []. Qed.
End guarantees.

(** ** A concrete server *)

Lemma conjunction_panic {S} (fns : gmap string (M S (result bool string))) names s :
  conjunction fns names s = None → ∃ name f s', fns !! name = Some f ∧ f s' = None.
Proof.
  revert s. induction names as [|name names IH]; intros s; simpl; [done|].
  destruct (fns !! name) as [f|] eqn:Hn; [|done].
  intros [Hf|([[]|e] & s' & Hf & Hk)]%m_bind_None; [by exists name, f, s|by eapply IH|done..].
Qed.

#[export] Instance conjunction_rhai_no_panic : RhaiNoPanic conjunction_rhai.
Proof. split. intros S fns e s. apply conjunction_panic. Qed.

(** A module is its name, see [named_policy_response]. *)
Definition constant_loader : @ModuleLoader unit_sdk constant_runtime := {|
  Module := bytes;
  module_deserialize b := Ok b;
  build_pre m _ _ := Ok (of_bytes m : @PolicyEvaluatorPre unit_sdk constant_runtime);
|}.

Definition example_precompiled : PrecompiledPolicies :=
  {[ "registry://happy" := Ok {| precompiled_module := as_bytes "happy";
       execution_mode := Wasi; digest := "d1" |};
     "registry://mutating" := Ok {| precompiled_module := as_bytes "mutating";
       execution_mode := Wasi; digest := "d2" |} ]}.

Definition example_builder (continue : bool) : @EvaluationEnvironmentBuilder unit_sdk :=
  {| eb_precompiled_policies := example_precompiled;
     eb_callback_handler_tx := λ _, RecvError;
     eb_continue_on_errors := continue; eb_global_limit_seconds := Some 2%N;
     eb_memory_limit_bytes := None; eb_always_accept_on_namespace := Some "kubewarden" |}.

Definition example_policies : gmap string PolicyOrPolicyGroup :=
  {[ "psp" := SinglePolicy "registry://happy" Protect None None ∅ None (Some 5%N) ["oci/*"] ]}.

Lemma example_policies_names_ok : names_ok example_policies.
Proof. apply map_Forall_singleton. by split. Qed.

Definition example_build :=
  build_evaluation_environment (PR := constant_runtime) (ML := constant_loader)
    (R := conjunction_rhai) (example_builder false) example_policies 0.

(** The build returned an environment. *)
Definition is_built {W A E} (r : option (result A E * W)) : bool :=
  match r with Some (Ok _, _) => true | _ => false end.

Lemma is_built_Some {W A E} (r : option (result A E * W)) :
  is_built r = true → ∃ a w, r = Some (Ok a, w).
Proof. destruct r as [[[]]|]; naive_solver. Qed.

Lemma example_built : ∃ env w', example_build = Some (Ok env, w').
Proof. apply is_built_Some. vm_compute. reflexivity. Qed.

(** [constant_runtime] with a policy that panics on every request. *)
Definition panicking_runtime : @PolicyRuntime unit_sdk := {|
  World := nat; PolicyEvaluatorPre := string; PolicyEvaluator := string;
  rehydrate pre _ := λ w, Some (Ok pre, w);
  evaluator_validate name request _ := λ w,
    if decide (name = "happy") then None
    else Some (named_policy_response name (request_uid request), S w);
  evaluator_validate_settings _ settings := λ w,
    Some ({| sv_valid := bool_decide (length settings = 0); sv_message := None |}, w);
|}.

Definition panicking_loader : @ModuleLoader unit_sdk panicking_runtime := {|
  Module := bytes;
  module_deserialize b := Ok b;
  build_pre m _ _ := Ok (of_bytes m : @PolicyEvaluatorPre unit_sdk panicking_runtime);
|}.

Definition panicking_build :=
  build_evaluation_environment (PR := panicking_runtime) (ML := panicking_loader)
    (R := conjunction_rhai) (example_builder false) example_policies 0.

Lemma panics_come_from_runtime_witness :
  ∃ env w', panicking_build = Some (Ok env, w') ∧
    env_validate (R := conjunction_rhai) env (Policy "psp") (RawRequest JNull) 0 = None ∧
    ∃ d pre, digest_to_pre env !! d = Some pre ∧ runtime_panics (PR := panicking_runtime) pre (RawRequest JNull).
Proof.
  assert (∃ env w', panicking_build = Some (Ok env, w') ∧
    env_validate (R := conjunction_rhai) env (Policy "psp") (RawRequest JNull) 0 = None) as (env & w' & Hb & Hv).
  { assert (match panicking_build with
      | Some (Ok env, _) => env_validate (R := conjunction_rhai) env (Policy "psp") (RawRequest JNull) 0
      | _ => Some (Err (PolicyInitialization ""), 0) end = None) as Hv by (vm_compute; reflexivity).
    destruct panicking_build as [[[env|e] w']|]; [by exists env, w'|done..]. }
  exists env, w'. split; [exact Hb|]. split; [exact Hv|].
  exact (panics_come_from_runtime (PR := panicking_runtime) (ML := panicking_loader)
    (R := conjunction_rhai) (example_builder false) example_policies 0 env w' (Policy "psp")
    (RawRequest JNull) 0 example_policies_names_ok Hb Hv).
Defined.

Lemma environment_grants_configuration_witness :
  ∃ env w' pre hc, example_build = Some (Ok env, w') ∧
    rehydrate_inputs (PR := constant_runtime) env (Policy "psp") = Ok (pre,
      {| policy_id := "psp"; callback_channel := Some (λ _, RecvError);
         ctx_aware_resources_allow_list := ∅; epoch_deadline := Some 5%N;
         host_capabilities := hc |}).
Proof.
  destruct example_built as (env & w' & Hb).
  destruct (environment_grants_configuration (PR := constant_runtime) (ML := constant_loader)
    (R := conjunction_rhai) (example_builder false) example_policies 0 env w'
    "psp" "registry://happy" Protect None None ∅ None (Some 5%N) ["oci/*"])
    as [[? _]|(pre & hc & _ & _ & Hr)]; [by apply example_policies_names_ok|apply lookup_singleton_eq|exact Hb| |].
  - done.
  - exists env, w', pre, hc. split; [exact Hb|exact Hr].
Defined.

Definition failed_env : @EvaluationEnvironment unit_sdk constant_runtime :=
  add_initialization_error (PR := constant_runtime)
    (initial_environment (PR := constant_runtime) (example_builder true))
    (Policy "broken") "cannot pull".

Definition group_with_refused_settings : gmap string PolicyOrPolicyGroup :=
  {[ "group" := PolicyGroup Protect
    {[ "happy" := {| gm_module := "registry://happy";
                     gm_settings := Some [("unexpected", JBool true)];
                     gm_context_aware_resources := ∅; gm_timeout_eval_seconds := None;
                     gm_host_capabilities := [] |} ]} "happy" "rejected" ]}.

Definition group_build :=
  build_evaluation_environment (PR := constant_runtime) (ML := constant_loader)
    (R := conjunction_rhai) (example_builder true) group_with_refused_settings 0.

(** A group evaluates members whose initialization failed: with
    [continue_on_errors], a member whose settings its policy refused is recorded
    as failed, is refused when addressed on its own, and yet is run with those
    settings, and its verdict counts, when the group is asked. *)
Theorem group_runs_failed_member :
  let member := PolicyGroupPolicy "group" "happy" in
  let validate env id := env_validate (R := conjunction_rhai) env id (RawRequest JNull) in
  ∃ env w response,
    group_build = Some (Ok env, w) ∧
    initialization_errors env !! member = Some "Policy settings are invalid: no message" ∧
    validate env member w =
      Some (Err (PolicyInitialization "Policy settings are invalid: no message"), w) ∧
    validate env (Policy "group") w = Some (Ok response, S w) ∧ allowed response = true.
Proof.
  intros member validate.
  set (observe := λ r : option (result EvaluationEnvironment EvaluationError * nat), match r with
    | Some (Ok env, w) => Some (initialization_errors env !! member,
        validate env member w, validate env (Policy "group") w, w)
    | _ => None end).
  set (response := {| uid := ""; allowed := true; patch_type := None; patch := None;
    status := None; audit_annotations := None; warnings := None |}).
  assert (observe group_build = Some (Some "Policy settings are invalid: no message",
    Some (Err (PolicyInitialization "Policy settings are invalid: no message"), 0),
    Some (Ok response, 1), 0)) as Hobs by (vm_compute; reflexivity).
  destruct group_build as [[[env|e] w]|]; [|done..].
  injection Hobs as Hi Hm Hg ->. by exists env, 0, response.
Qed.

Definition happy_as (mode : PolicyExecutionMode) : PrecompiledPolicy :=
  {| precompiled_module := as_bytes "happy"; execution_mode := mode; digest := "d1" |}.

Definition plain_settings : PolicyEvaluationSettings :=
  {| pes_policy_mode := Protect; pes_allowed_to_mutate := false;
     pes_settings := PolicySettingsOf []; pes_custom_rejection_message := None;
     pes_timeout_eval_seconds := None |}.

Lemma register_deduplicates_witness :
  ∃ env env', register (PR := constant_runtime) (ML := constant_loader)
      (initial_environment (PR := constant_runtime) (example_builder false))
      (Policy "opa") plain_settings example_context (happy_as Opa) = Ok env ∧
    register (PR := constant_runtime) (ML := constant_loader) env (Policy "gatekeeper")
      plain_settings example_context (happy_as OpaGatekeeper) = Ok env' ∧
    digest_to_pre env' = digest_to_pre env.
Proof.
  eexists. destruct (register_deduplicates (PR := constant_runtime) (ML := constant_loader)
    {| always_accept_on_namespace := Some "kubewarden"; digest_to_pre := {["d1" := "happy"]};
       id_to_ctx_aware := {[Policy "opa" := ctx_aware_resources_allow_list example_context]};
       id_to_host_capabilities := {[Policy "opa" := host_capabilities example_context]};
       id_to_digest := {[Policy "opa" := "d1"]};
       id_to_settings := {[Policy "opa" := plain_settings]};
       initialization_errors := ∅; policy_groups := ∅;
       callback_handler_tx := Some (λ _, RecvError); global_limit_seconds := Some 2%N;
       memory_limit_bytes := None |}
    (Policy "gatekeeper") plain_settings example_context (happy_as OpaGatekeeper) "happy")
    as (env' & Hr & Hd & _); [reflexivity|].
  exists env'. split; [reflexivity|]. split; [exact Hr|exact Hd].
Defined.
