(* ===== verification/Service.v ===== *)
(** * The API service of the policy server

    Models [crates/policy-server/src/api/service.rs] ([evaluate]), [handlers.rs]
    (the HTTP handlers), [admission_review.rs], [raw_review.rs], [api_error.rs] and
    the metric records of [metrics.rs]. An evaluation returns the metrics it
    emits next to its result. Tracing and latencies are not modelled. *)

From S2P Require Import Prelude RustStr Bytes Json PolicyId AdmissionResponse ResponseHandler.
From S2P Require Import Request HostCapabilities Callback Runtime GroupEvaluator Config.
From S2P Require Import Environment Bootstrap.

(** ** Metrics *)

Inductive Metric :=
| PolicyEvaluationMetric (policy_name policy_mode resource_kind : string)
    (resource_namespace : option string) (resource_request_operation : string)
    (accepted mutated : bool) (request_origin : string) (error_code : option N)
| RawPolicyEvaluationMetric (policy_name policy_mode : string) (accepted mutated : bool)
    (error_code : option N)
| PolicyInitializationErrorMetric (policy_name initialization_error : string).

Inductive MetricValue := MVString (s : string) | MVBool (b : bool) | MVInt (n : N).

(** The key-value pairs of a metric. *)
Definition Metric_into (m : Metric) : list (string * MetricValue) :=
  match m with
  | PolicyEvaluationMetric name mode kind namespace operation accepted mutated origin code =>
      [("policy_name", MVString name); ("policy_mode", MVString mode);
       ("resource_kind", MVString kind); ("resource_request_operation", MVString operation);
       ("accepted", MVBool accepted); ("mutated", MVBool mutated);
       ("request_origin", MVString origin)]
      ++ match namespace with Some n => [("resource_namespace", MVString n)] | None => [] end
      ++ match code with Some c => [("error_code", MVInt c)] | None => [] end
  | RawPolicyEvaluationMetric name mode accepted mutated code =>
      [("policy_name", MVString name); ("policy_mode", MVString mode);
       ("accepted", MVBool accepted); ("mutated", MVBool mutated)]
      ++ match code with Some c => [("error_code", MVInt c)] | None => [] end
  | PolicyInitializationErrorMetric name error =>
      [("policy_name", MVString name); ("initialization_error", MVString error)]
  end.

(** ** [evaluate] *)

Inductive RequestOrigin := OriginValidate | OriginAudit.

Definition RequestOrigin_to_string (o : RequestOrigin) : string :=
  match o with OriginValidate => "validate" | OriginAudit => "audit" end.

Definition init_interrupted : string := "init interrupted, execution deadline exceeded".

Definition interrupted_message : string :=
  "Policy execution interrupted because it exceeded the allowed execution time".

Definition accept_response (u : string) : AdmissionResponse :=
  {| uid := u; allowed := true; patch_type := None; patch := None; status := None;
     audit_annotations := None; warnings := None |}.

Definition request_kind_of (r : AdmissionRequest) : string :=
  match ar_request_kind r with Some k => gvk_kind k | None => "" end.

Section service.
Context `{HashIter, SdkTypes, PR : !PolicyRuntime, R : !Rhai}.
Implicit Types (env : EvaluationEnvironment) (id : PolicyID) (req : ValidateRequest).

(** A request made in the namespace that is always accepted. *)
Definition exempt_request env req : option AdmissionRequest :=
  match req with
  | AdmissionReviewRequest adm_req =>
      match ar_namespace adm_req with
      | Some namespace => if should_always_accept env namespace then Some adm_req else None
      | None => None
      end
  | RawRequest _ => None
  end.

Definition evaluation_metric (id : PolicyID) (mode : PolicyMode) req
    (origin : RequestOrigin) (accepted mutated : bool) (code : option N) : Metric :=
  match req with
  | AdmissionReviewRequest adm_req =>
      PolicyEvaluationMetric (PolicyID_to_string id) (PolicyMode_to_string mode)
        (request_kind_of adm_req) (ar_namespace adm_req) (ar_operation adm_req)
        accepted mutated (RequestOrigin_to_string origin) code
  | RawRequest _ =>
      RawPolicyEvaluationMetric (PolicyID_to_string id) (PolicyMode_to_string mode)
        accepted mutated code
  end.

(** What follows a policy's answer: the handler for a validation, nothing for an
    audit, and the metric of the raw answer. *)
Definition finish_evaluation env id req (origin : RequestOrigin) (vanilla : AdmissionResponse) :
    list Metric * result AdmissionResponse EvaluationError :=
  match get_policy_mode env id with Err e => ([], Err e) | Ok policy_mode =>
  match get_policy_allowed_to_mutate env id with Err e => ([], Err e) | Ok allowed_to_mutate =>
  match get_policy_custom_rejection_message env id with Err e => ([], Err e)
  | Ok custom_rejection_message =>
      let accepted := allowed vanilla in
      let mutated := bool_decide (is_Some (patch vanilla)) in
      let error_code := match status vanilla with Some st => st_code st | None => None end in
      let handler := {| h_policy_id := id; h_policy_mode := policy_mode;
        h_allowed_to_mutate := allowed_to_mutate;
        h_custom_rejection_message := custom_rejection_message |} in
      let validation_response := match origin with
        | OriginValidate => process_response handler vanilla
        | OriginAudit => vanilla
        end in
      ([evaluation_metric id policy_mode req origin accepted mutated error_code],
       Ok validation_response)
  end end end.

Definition evaluate env (policy_id : string) req (origin : RequestOrigin) :
    M World (list Metric * result AdmissionResponse EvaluationError) :=
  match PolicyID_from_str policy_id with
  | Err e => m_ret ([], Err e)
  | Ok id =>
      match exempt_request env req with
      | Some _ =>
          m_ret (match get_policy_mode env id with
                 | Err e => ([], Err e)
                 | Ok mode => ([evaluation_metric id mode req origin true false None],
                               Ok (accept_response (request_uid req)))
                 end)
      | None =>
          let! r := env_validate env id req in
          m_ret (match r with
            | Ok vanilla => finish_evaluation env id req origin vanilla
            | Err (PolicyInitialization error) =>
                ([PolicyInitializationErrorMetric (PolicyID_to_string id) error],
                 Ok (reject (request_uid req) error 500))
            | Err (WebAssemblyError error) =>
                if contains error init_interrupted
                then ([], Ok (reject (request_uid req) interrupted_message 500))
                else ([], Err (WebAssemblyError error))
            | Err error => ([], Err error)
            end)
      end
  end.

(** ** HTTP handlers *)

Record ApiError := { ae_status : N; ae_message : string }.

Definition handle_evaluation_error (e : EvaluationError) : N * ApiError :=
  match e with
  | PolicyNotFound _ => (404%N, {| ae_status := 404; ae_message := EvaluationError_to_string e |})
  | _ => (500%N, {| ae_status := 500; ae_message := "Something went wrong" |})
  end.

Record AdmissionReviewResponse := {
  arr_kind : option string;
  arr_api_version : option string;
  arr_response : AdmissionResponse;
}.

Definition AdmissionReviewResponse_new (response : AdmissionResponse) : AdmissionReviewResponse :=
  {| arr_api_version := Some "admission.k8s.io/v1"; arr_kind := Some "AdmissionReview";
     arr_response := response |}.

Record RawReviewResponse := { rrr_response : AdmissionResponse }.

Definition validate_handler env (policy_id : string) (request : AdmissionRequest) :
    M World (list Metric * result AdmissionReviewResponse (N * ApiError)) :=
  let! (metrics, r) := evaluate env policy_id (AdmissionReviewRequest request) OriginValidate in
  m_ret (metrics, res_map AdmissionReviewResponse_new (map_err handle_evaluation_error r)).

Definition audit_handler env (policy_id : string) (request : AdmissionRequest) :
    M World (list Metric * result AdmissionReviewResponse (N * ApiError)) :=
  let! (metrics, r) := evaluate env policy_id (AdmissionReviewRequest request) OriginAudit in
  m_ret (metrics, res_map AdmissionReviewResponse_new (map_err handle_evaluation_error r)).

Definition validate_raw_handler env (policy_id : string) (raw : Value) :
    M World (list Metric * result RawReviewResponse (N * ApiError)) :=
  let! (metrics, r) := evaluate env policy_id (RawRequest raw) OriginValidate in
  m_ret (metrics, res_map Build_RawReviewResponse (map_err handle_evaluation_error r)).
End service.

(** ** Properties *)

Section service_properties.
Context `{HashIter, SdkTypes, PR : !PolicyRuntime, ML : !ModuleLoader, R : !Rhai}.
Implicit Types (env : EvaluationEnvironment) (id : PolicyID) (req : ValidateRequest).

Lemma group_validate_uid g req w response w' :
  group_validate g req w = Some (response, w') → uid response = request_uid req.
Proof.
  rw /group_validate. destruct (eval_expression _ _ _) as [[[b|e] [w1 res]]|];
    by intros [= <- _].
Qed.

Lemma group_validate_patch g req w response w' :
  group_validate g req w = Some (response, w') → patch response = None.
Proof.
  rw /group_validate. destruct (eval_expression _ _ _) as [[[b|e] [w1 res]]|];
    by intros [= <- _].
Qed.

Lemma env_validate_uid `{!PolicyRuntimeLaws PR} env id req w response w' :
  env_validate env id req w = Some (Ok response, w') → uid response = request_uid req.
Proof.
  rw /env_validate. case_decide as Hid.
  - intros (g & w1 & _ & (r & w2 & Hg & [= -> _]%m_ret_Some)%m_bind_Some)%mr_bind_Ok.
    by eapply group_validate_uid.
  - rw /env_validate_policy. destruct (initialization_errors env !! id); [done|].
    intros (s & w1 & _ & (ps & w2 & _ & Hk)%m_bind_Some)%mr_bind_Ok.
    apply mr_bind_Ok in Hk as (ev & w3 & _ & Hk).
    apply m_bind_Some in Hk as (r & w4 & Hv & [= -> _]%m_ret_Some).
    by eapply evaluator_validate_uid.
Qed.

Lemma finish_evaluation_uid env id req origin vanilla metrics response :
  finish_evaluation env id req origin vanilla = (metrics, Ok response) →
  uid response = uid vanilla.
Proof.
  rw /finish_evaluation. destruct (get_policy_mode env id); [|done].
  destruct (get_policy_allowed_to_mutate env id); [|done].
  destruct (get_policy_custom_rejection_message env id); [|done].
  destruct origin; intros; simplify_eq; [apply process_response_uid|done].
Qed.

(** The outcomes of an evaluation that returned a response. *)
Lemma evaluate_Ok env policy_id req origin w metrics response w' :
  evaluate env policy_id req origin w = Some ((metrics, Ok response), w') →
  ∃ id, PolicyID_from_str policy_id = Ok id ∧
    (response = accept_response (request_uid req) ∨
     (∃ msg, response = reject (request_uid req) msg 500) ∨
     (∃ vanilla w1, env_validate env id req w = Some (Ok vanilla, w1) ∧
        finish_evaluation env id req origin vanilla = (metrics, Ok response))).
Proof.
  rw /evaluate. destruct (PolicyID_from_str policy_id) as [id|]; [|done].
  intros Hev. exists id. split; [done|]. destruct (exempt_request env req).
  { apply m_ret_Some in Hev. destruct (get_policy_mode env id); simplify_eq. by left. }
  apply m_bind_Some in Hev as (r & w1 & Hv & Hk). apply m_ret_Some in Hk as [= Hr <-].
  destruct r as [vanilla|[]]; simplify_eq; eauto 6.
  destruct (contains _ _); simplify_eq; eauto.
Qed.

(** C1. Every response answers the request it was asked about: whatever the
    policy, the mode, the origin and the outcome, a response carries the uid of
    the request. *)
Theorem evaluate_answers_request `{!PolicyRuntimeLaws PR} env policy_id req origin w
    metrics response w' :
  evaluate env policy_id req origin w = Some ((metrics, Ok response), w') →
  uid response = request_uid req.
Proof.
  intros (id & _ & [->|[[msg ->]|(vanilla & w1 & Hv & Hf)]])%evaluate_Ok; [done..|].
  rw (finish_evaluation_uid _ _ _ _ _ _ _ Hf). by eapply env_validate_uid.
Qed.





(** The exempt namespace: a request made in it is accepted for every
    registered policy without running any policy code, but a policy that is not
    registered, because it is unknown or because its bootstrap failed, answers
    with an error instead. *)
Theorem exempt_namespace_bypass env policy_id id req adm_req origin w :
  PolicyID_from_str policy_id = Ok id → exempt_request env req = Some adm_req →
  ∃ metrics, evaluate env policy_id req origin w = Some ((metrics,
    if bool_decide (is_Some (id_to_settings env !! id))
    then Ok (accept_response (request_uid req))
    else Err (PolicyNotFound (PolicyID_to_string id))), w).
Proof.
  intros Hid Hex. rw /evaluate Hid Hex /get_policy_mode.
  destruct (id_to_settings env !! id); by eexists.
Qed.

(** An audit reports the policy's own answer, and a validation reports it as
    the mode, the mutation permission and the custom message of the policy
    transform it; both record the same verdict in the metrics. *)
Theorem validate_is_processed_audit env id policy_id req w vanilla w' s :
  PolicyID_from_str policy_id = Ok id → exempt_request env req = None →
  env_validate env id req w = Some (Ok vanilla, w') → id_to_settings env !! id = Some s →
  let metric origin := evaluation_metric id (pes_policy_mode s) req origin
    (allowed vanilla) (bool_decide (is_Some (patch vanilla))) (status vanilla ≫= st_code) in
  evaluate env policy_id req OriginAudit w = Some (([metric OriginAudit], Ok vanilla), w') ∧
  evaluate env policy_id req OriginValidate w = Some (([metric OriginValidate],
    Ok (process_response {| h_policy_id := id; h_policy_mode := pes_policy_mode s;
      h_allowed_to_mutate := pes_allowed_to_mutate s;
      h_custom_rejection_message := pes_custom_rejection_message s |} vanilla)), w').
Proof.
  intros Hid Hex Hv Hs. rw /evaluate Hid Hex /m_bind Hv /m_ret.
  rw /finish_evaluation /get_policy_mode /get_policy_allowed_to_mutate
    /get_policy_custom_rejection_message Hs /=.
  by destruct (status vanilla).
Qed.

(** Unknown policies: a validation for a name that is not in the configuration
    is an HTTP 404, runs no policy code and records no metric. *)
Theorem unknown_policy_not_found b policies w0 w1 env name request w :
  names_ok policies → name ≠ "" → no_slash name → policies !! name = None →
  build_evaluation_environment b policies w0 = Some (Ok env, w1) →
  validate_handler env name request w = Some (([], Err (404%N,
    {| ae_status := 404; ae_message := "unknown policy: " +:+ name |})), w).
Proof.
  intros Hn Hne Hns Hp Hb.
  destruct (build_unknown_name _ _ _ _ _ _ Hn Hp Hb (Policy name) eq_refl) as (Hg & Hs & Hi).
  assert (PolicyID_from_str name = Ok (Policy name)) as Hid
    by by apply (PolicyID_from_str_to_string (Policy name)).
  rw /validate_handler /m_bind /evaluate Hid.
  destruct (exempt_request env (AdmissionReviewRequest request)); [by rw /get_policy_mode Hs|].
  rw /m_bind /env_validate decide_False // /env_validate_policy Hi.
  by rw /mr_bind /m_bind /get_policy_settings Hs.
Qed.

(** Failing closed: a request for a policy whose initialization failed is
    rejected with code 500 and the reason of the failure; no policy code is run
    for it, and the failure is counted. *)
Theorem failed_policy_rejects env policy_id id req origin error w :
  PolicyID_from_str policy_id = Ok id → exempt_request env req = None →
  id ∉ policy_groups env → initialization_errors env !! id = Some error →
  evaluate env policy_id req origin w =
    Some (([PolicyInitializationErrorMetric policy_id error],
           Ok (reject (request_uid req) error 500)), w).
Proof.
  intros Hid Hex Hg He. rw /evaluate Hid Hex /m_bind (env_validate_failed _ _ _ _ _ Hg He).
  by apply PolicyID_from_str_inv in Hid as [_ <-].
Qed.

(** The HTTP status of a failed evaluation: 404, with the message, exactly
    for an unknown policy; every other error is a 500 that discloses nothing of
    the error. *)
Theorem evaluation_error_status e :
  ((handle_evaluation_error e).1 = 404%N ↔ ∃ s, e = PolicyNotFound s) ∧
  ((handle_evaluation_error e).1 ≠ 404%N → ∀ e',
     (handle_evaluation_error e').1 ≠ 404%N → handle_evaluation_error e' = handle_evaluation_error e) ∧
  ae_status (handle_evaluation_error e).2 = (handle_evaluation_error e).1.
Proof.
  split_and!; [destruct e; naive_solver| |by destruct e].
  destruct e; intros ? []; naive_solver.
Qed.
End service_properties.

(** ** A concrete server *)

Definition mutating_policies : gmap string PolicyOrPolicyGroup :=
  {[ "mut" := SinglePolicy "registry://mutating" Protect (Some true) None ∅ None None [] ]}.

Definition mutating_build :=
  build_evaluation_environment (PR := constant_runtime) (ML := constant_loader)
    (R := conjunction_rhai) (example_builder false) mutating_policies 0.

(** Continue with the environment of a successful build. *)
Definition with_built {W A E B} (r : option (result A E * W)) (k : A → W → option B) : option B :=
  match r with Some (Ok a, w) => k a w | _ => None end.

Lemma with_built_Some {W A E B} (r : option (result A E * W)) (k : A → W → option B) x :
  with_built r k = Some x → ∃ a w, r = Some (Ok a, w) ∧ k a w = Some x.
Proof. destruct r as [[[a|e] w]|]; simpl; [eauto|done..]. Qed.

Definition raw_request : ValidateRequest := RawRequest (JObject [("uid", JString "42")]).

Definition mutated_response : AdmissionResponse :=
  {| uid := "42"; allowed := true; patch_type := Some JSONPatch; patch := Some "W10=";
     status := None; audit_annotations := None; warnings := None |}.

Definition mutated_metrics : list Metric :=
  [RawPolicyEvaluationMetric "mut" "protect" true true None].

Lemma mutating_evaluation :
  ∃ env w, mutating_build = Some (Ok env, w) ∧
    evaluate (PR := constant_runtime) (R := conjunction_rhai) env "mut" raw_request
      OriginValidate w = Some ((mutated_metrics, Ok mutated_response), 1).
Proof.
  apply (with_built_Some mutating_build (λ env w,
    evaluate (PR := constant_runtime) (R := conjunction_rhai) env "mut" raw_request
      OriginValidate w)).
  vm_compute. reflexivity.
Qed.

Lemma evaluate_answers_request_witness :
  ∃ env w, mutating_build = Some (Ok env, w) ∧
    evaluate (PR := constant_runtime) (R := conjunction_rhai) env "mut" raw_request
      OriginValidate w = Some ((mutated_metrics, Ok mutated_response), 1) ∧
    uid mutated_response = request_uid raw_request.
Proof.
  destruct mutating_evaluation as (env & w & Hb & Hev). exists env, w. split; [exact Hb|].
  split; [exact Hev|].
  exact (evaluate_answers_request (PR := constant_runtime) (R := conjunction_rhai) env "mut"
    raw_request OriginValidate w mutated_metrics mutated_response 1 Hev).
Defined.


Definition exempt_admission : AdmissionRequest :=
  {| ar_uid := "u"; ar_kind := {| gvk_group := ""; gvk_version := "v1"; gvk_kind := "Pod" |};
     ar_resource := {| gvr_group := ""; gvr_version := "v1"; gvr_resource := "pods" |};
     ar_sub_resource := None; ar_request_kind := None; ar_request_resource := None;
     ar_request_sub_resource := None; ar_name := None; ar_namespace := Some "kubewarden";
     ar_operation := "CREATE"; ar_user_info := JNull; ar_object := None; ar_old_object := None;
     ar_dry_run := None; ar_options := None |}.

Lemma exempt_namespace_bypass_witness :
  ∃ metrics, evaluate (PR := constant_runtime) (R := conjunction_rhai) failed_env "broken"
    (AdmissionReviewRequest exempt_admission) OriginValidate 0 =
    Some ((metrics, Err (PolicyNotFound "broken")), 0).
Proof.
  exact (exempt_namespace_bypass (PR := constant_runtime) (R := conjunction_rhai) failed_env
    "broken" (Policy "broken") (AdmissionReviewRequest exempt_admission) exempt_admission
    OriginValidate 0 eq_refl eq_refl).
Defined.

Lemma failed_policy_rejects_witness :
  evaluate (PR := constant_runtime) (R := conjunction_rhai) failed_env "broken" raw_request
    OriginValidate 0 =
  Some (([PolicyInitializationErrorMetric "broken" "cannot pull"],
         Ok (reject "42" "cannot pull" 500)), 0).
Proof.
  apply (failed_policy_rejects (PR := constant_runtime) (R := conjunction_rhai) failed_env
    "broken" (Policy "broken") raw_request OriginValidate "cannot pull" 0);
    [reflexivity|reflexivity|set_solver|reflexivity].
Defined.

Lemma validate_is_processed_audit_witness :
  ∃ env w, mutating_build = Some (Ok env, w) ∧ ∃ metrics,
    evaluate (PR := constant_runtime) (R := conjunction_rhai) env "mut" raw_request
      OriginAudit w = Some ((metrics, Ok mutated_response), 1).
Proof.
  destruct (with_built_Some mutating_build (λ env w,
    match env_validate (PR := constant_runtime) (R := conjunction_rhai) env (Policy "mut")
            raw_request w, id_to_settings env !! Policy "mut" with
    | Some (Ok r, w'), Some s => Some (r, w', s)
    | _, _ => None end) (mutated_response, 1, {| pes_policy_mode := Protect;
      pes_allowed_to_mutate := true; pes_settings := PolicySettingsOf [];
      pes_custom_rejection_message := None; pes_timeout_eval_seconds := None |}))
    as (env & w & Hb & Hobs); [vm_compute; reflexivity|].
  exists env, w. split; [exact Hb|]. eexists.
  destruct (env_validate env (Policy "mut") raw_request w) as [[[r|] w']|] eqn:Hv; [|done..].
  destruct (id_to_settings env !! Policy "mut") as [s|] eqn:Hs; [|done].
  injection Hobs as -> -> ->.
  exact (proj1 (validate_is_processed_audit (PR := constant_runtime) (R := conjunction_rhai)
    env (Policy "mut") "mut" raw_request w mutated_response 1 _ eq_refl eq_refl Hv Hs)).
Defined.

Lemma unknown_policy_not_found_witness :
  ∃ env w, mutating_build = Some (Ok env, w) ∧
    validate_handler (PR := constant_runtime) (R := conjunction_rhai) env "nope"
      exempt_admission w =
    Some (([], Err (404%N, {| ae_status := 404; ae_message := "unknown policy: nope" |})), w).
Proof.
  destruct mutating_evaluation as (env & w & Hb & _). exists env, w. split; [exact Hb|].
  apply (unknown_policy_not_found (PR := constant_runtime) (ML := constant_loader)
    (R := conjunction_rhai) (example_builder false) mutating_policies 0 w env "nope"
    exempt_admission w); [|done|reflexivity|by apply lookup_singleton_ne|exact Hb].
  apply map_Forall_singleton. by split.
Defined.
