(* ===== verification/EvaluationPool.v ===== *)
(** * The pool of evaluations of the policy server

    Models [acquire_semaphore_and_evaluate] of [crates/policy-server/src/api/handlers.rs] and
    the semaphore of [api/state.rs] that [lib.rs] creates with the number of workers: the
    requests of the server as concurrent tasks.

    A handler waits for a permit, starts the evaluation on a blocking thread and waits for it.
    The permit belongs to the handler, not to the thread: when the client goes away the handler
    is dropped, with its permit, while the evaluation it started goes on. [tokio]'s semaphore
    serves its waiters in the order they came. An evaluation has its own evaluator, so its
    effects on the world are one step. Not every evaluation comes to an end: a guest may loop when
    the timeout protection is disabled, and a host call may hang. [ends] says which ones do. *)

From S2P Require Import Prelude RustStr Bytes Json PolicyId AdmissionResponse ResponseHandler.
From S2P Require Import Request HostCapabilities Callback Runtime GroupEvaluator Config.
From S2P Require Import Environment Bootstrap Service.

(** What a handler evaluates. *)
Record Job := { j_policy : string; j_request : ValidateRequest; j_origin : RequestOrigin }.

Inductive Phase :=
| Queued
| Evaluating
| Answered (r : result AdmissionResponse EvaluationError)
(** [expect] on the join of the blocking task: the evaluation panicked *)
| Panicked
(** the client went away: the evaluation still runs, or there is none *)
| Abandoned
| Dropped.

(** The requests in the order they came. *)
Record PoolState (W : Type) := {
  available : nat;
  tasks : list (Job * Phase);
  world : W;
}.
Arguments available {_} _.
Arguments tasks {_} _.
Arguments world {_} _.

Definition is_queued (t : Job * Phase) : bool := match t.2 with Queued => true | _ => false end.
Definition is_evaluating (t : Job * Phase) : bool := match t.2 with Evaluating => true | _ => false end.
Definition is_abandoned (t : Job * Phase) : bool := match t.2 with Abandoned => true | _ => false end.

Section pool.
Context `{HashIter, SdkTypes, PR : !PolicyRuntime, R : !Rhai}.
Context (env : EvaluationEnvironment) (ends : Job → bool) (pool_size : nat).
Notation State := (PoolState World).
Implicit Types (s : State) (j : Job).

Definition run_job j : M World (list Metric * result AdmissionResponse EvaluationError) :=
  evaluate env (j_policy j) (j_request j) (j_origin j).

(** [Semaphore::new] *)
Definition pool_start (w : World) : State := {| available := pool_size; tasks := []; world := w |}.

Definition set_phase s (i : nat) (j : Job) (p : Phase) (permits : nat) (w : World) : State :=
  {| available := permits; tasks := <[i := (j, p)]> (tasks s); world := w |}.

(** The steps of a handler and of its evaluation. *)
Inductive advance s : State → Prop :=
| advance_acquire i j n :
    tasks s !! i = Some (j, Queued) →
    Forall (λ t, is_queued t = false) (take i (tasks s)) →
    available s = S n →
    advance s (set_phase s i j Evaluating n (world s))
| advance_answer i j metrics r w :
    tasks s !! i = Some (j, Evaluating) → ends j = true →
    run_job j (world s) = Some ((metrics, r), w) →
    advance s (set_phase s i j (Answered r) (S (available s)) w)
| advance_panic i j :
    tasks s !! i = Some (j, Evaluating) → ends j = true →
    run_job j (world s) = None →
    advance s (set_phase s i j Panicked (S (available s)) (world s))
| advance_end i j w :
    tasks s !! i = Some (j, Abandoned) → ends j = true →
    (run_job j (world s) = None ∧ w = world s ∨ ∃ mr, run_job j (world s) = Some (mr, w)) →
    advance s (set_phase s i j Dropped (available s) w).

(** What the clients do. *)
Inductive client s : State → Prop :=
| client_request j :
    client s {| available := available s; tasks := tasks s ++ [(j, Queued)]; world := world s |}
| client_gone_queued i j :
    tasks s !! i = Some (j, Queued) →
    client s (set_phase s i j Dropped (available s) (world s))
| client_gone_evaluating i j :
    tasks s !! i = Some (j, Evaluating) →
    client s (set_phase s i j Abandoned (S (available s)) (world s)).

Definition pool_step s s' : Prop := advance s s' ∨ client s s'.

Definition pool_reachable s : Prop := ∃ w, rtc pool_step (pool_start w) s.

(** ** The invariant *)

(** A task is what its phase says. *)
Definition task_ok (t : Job * Phase) : Prop :=
  match t.2 with
  | Answered r => ∃ metrics w w', run_job t.1 w = Some ((metrics, r), w')
  | Panicked => ∃ w, run_job t.1 w = None
  | _ => True
  end.

Definition pool_inv s : Prop :=
  available s + count_if is_evaluating (tasks s) = pool_size ∧ Forall task_ok (tasks s).

Lemma set_phase_inv s i j p p' permits w :
  tasks s !! i = Some (j, p) → pool_inv s → task_ok (j, p') →
  permits + (if is_evaluating (j, p') then 1 else 0) = available s + (if is_evaluating (j, p) then 1 else 0) →
  pool_inv (set_phase s i j p' permits w).
Proof.
  intros Hi [Hsum Hok] Hp Hperm. split; simpl; [|by apply Forall_insert].
  pose proof (count_if_update is_evaluating _ i _ (j, p') Hi). lia.
Qed.

Lemma pool_step_inv s s' : pool_step s s' → pool_inv s → pool_inv s'.
Proof.
  intros [[]|[]] Hinv.
  - eapply set_phase_inv; [done..|]. simpl. lia.
  - eapply set_phase_inv; [done..|by repeat eexists|simpl; lia].
  - eapply set_phase_inv; [done..|by repeat eexists|simpl; lia].
  - eapply set_phase_inv; [done..|]. simpl. lia.
  - destruct Hinv as [Hsum Hok]. split; simpl.
    + rewrite count_if_app /count_if /=. rewrite /count_if in Hsum. lia.
    + apply Forall_app. by repeat constructor.
  - eapply set_phase_inv; [done..|]. simpl. lia.
  - eapply set_phase_inv; [done..|]. simpl. lia.
Qed.

Lemma pool_reachable_inv s : pool_reachable s → pool_inv s.
Proof.
  intros [w Hrun]. eapply (rtc_ind_r pool_inv); [|intros; by eapply pool_step_inv|exact Hrun].
  split; [rewrite /count_if /=; lia|constructor].
Qed.

(** ** Progress *)

(** What is left to do: a queued request has two steps to go, a running evaluation one. *)
Definition pending s : nat :=
  2 * count_if is_queued (tasks s) + count_if is_evaluating (tasks s) + count_if is_abandoned (tasks s).

Lemma set_phase_pending s i j p p' permits w :
  tasks s !! i = Some (j, p) →
  pending (set_phase s i j p' permits w) +
    (2 * (if is_queued (j, p) then 1 else 0) + (if is_evaluating (j, p) then 1 else 0) +
     (if is_abandoned (j, p) then 1 else 0)) =
  pending s +
    (2 * (if is_queued (j, p') then 1 else 0) + (if is_evaluating (j, p') then 1 else 0) +
     (if is_abandoned (j, p') then 1 else 0)).
Proof.
  intros Hi. rewrite /pending /=.
  pose proof (count_if_update is_queued _ i _ (j, p') Hi).
  pose proof (count_if_update is_evaluating _ i _ (j, p') Hi).
  pose proof (count_if_update is_abandoned _ i _ (j, p') Hi). lia.
Qed.

Lemma advance_pending s s' : advance s s' → pending s = S (pending s').
Proof.
  intros []; match goal with Hi : tasks s !! ?i = Some (?j, ?p) |- context [set_phase s ?i ?j ?p' ?n ?w] =>
    pose proof (set_phase_pending s i j p p' n w Hi) as Hp end; simpl in Hp; lia.
Qed.

(** The first of the waiting requests. *)
Lemma first_queued l i j :
  l !! i = Some (j, Queued) →
  ∃ i' j', l !! i' = Some (j', Queued) ∧ Forall (λ t, is_queued t = false) (take i' l).
Proof.
  revert i. induction l as [|[j0 p] l IH]; intros i Hi; [done|].
  destruct (is_queued (j0, p)) eqn:Hq.
  - exists 0, j0. by destruct p.
  - destruct i as [|i]; [by simplify_eq/=|]. destruct (IH i Hi) as (i' & j' & Hi' & Hbefore).
    exists (S i'), j'. split; [done|]. simpl. by constructor.
Qed.

(** A request with a client whose evaluation, once started, keeps its permit for ever. *)
Definition is_stuck (t : Job * Phase) : bool := negb (ends t.1) && (is_queued t || is_evaluating t).

Lemma set_phase_stuck s i j p p' permits w :
  tasks s !! i = Some (j, p) → is_stuck (j, p') = is_stuck (j, p) →
  count_if is_stuck (tasks (set_phase s i j p' permits w)) = count_if is_stuck (tasks s).
Proof.
  intros Hi Hp. pose proof (count_if_update is_stuck _ i _ (j, p') Hi) as Hc. rewrite Hp in Hc. simpl. lia.
Qed.

Lemma advance_stuck s s' : advance s s' → count_if is_stuck (tasks s') = count_if is_stuck (tasks s).
Proof.
  intros [i j n Hi|i j metrics r w Hi He|i j Hi He|i j w Hi He]; (eapply set_phase_stuck; [exact Hi|]);
    rewrite /is_stuck /= ?He; done.
Qed.

Lemma evaluation_ends s i j :
  tasks s !! i = Some (j, Evaluating) → ends j = true → ∃ s', advance s s'.
Proof.
  intros Hi He. destruct (run_job j (world s)) as [[[metrics r] w]|] eqn:Hj;
    eexists; [by eapply advance_answer|by eapply advance_panic].
Qed.

(** While fewer requests than workers are stuck, a waiting one can move or is waited for. *)
Lemma queued_progress s i j :
  pool_reachable s → count_if is_stuck (tasks s) < pool_size →
  tasks s !! i = Some (j, Queued) → ∃ s', advance s s'.
Proof.
  intros Hr Hstuck Hi. destruct (available s) as [|n] eqn:Hn; last first.
  { destruct (first_queued _ _ _ Hi) as (i' & j' & Hi' & Hbefore). eexists. by eapply advance_acquire. }
  destruct (pool_reachable_inv s Hr) as [Hsum _]. rewrite Hn /= in Hsum.
  destruct (existsb (λ t, is_evaluating t && ends t.1) (tasks s)) eqn:He.
  - apply existsb_exists in He as ([j' p] & Hin & [Hp Hj]%andb_prop).
    apply list_elem_of_In, list_elem_of_lookup in Hin as [i' Hi']. destruct p; try done.
    by eapply evaluation_ends.
  - assert (count_if is_evaluating (tasks s) ≤ count_if is_stuck (tasks s)); [|lia].
    clear -He. rewrite /count_if. induction (tasks s) as [|[j' p] l IH]; simpl in *; [lia|].
    apply orb_false_elim in He as [He Hl]. specialize (IH Hl).
    assert (is_evaluating (j', p) = true → is_stuck (j', p) = true) as Himp.
    { intros Hp. rewrite Hp /= in He. by rewrite /is_stuck /= He Hp orb_true_r. }
    destruct (is_evaluating (j', p)); [rewrite Himp //=; lia|]. destruct (is_stuck (j', p)); simpl; lia.
Qed.

(** The request of a client that stays is queued, evaluated or over. *)
Definition served_phase (p : Phase) : Prop :=
  match p with Abandoned | Dropped => False | _ => True end.

Lemma advance_keeps s s' i j p :
  advance s s' → tasks s !! i = Some (j, p) → served_phase p →
  ∃ p', tasks s' !! i = Some (j, p') ∧ served_phase p'.
Proof.
  intros [] Hi Hp; simpl;
    match goal with Hk : tasks s !! ?k = Some _ |- context [<[?k := _]> (tasks s)] =>
      destruct (decide (k = i)) as [->|Hne];
      [rewrite list_lookup_insert_eq; [|by eapply lookup_lt_Some]; simplify_eq; by eexists; split
      |rewrite list_lookup_insert_ne; [|done]; exists p; by split] end.
Qed.

Lemma advances_keep s s' i j p :
  rtc advance s s' → tasks s !! i = Some (j, p) → served_phase p →
  ∃ p', tasks s' !! i = Some (j, p') ∧ served_phase p'.
Proof.
  intros Hrun. revert p. induction Hrun as [|s s1 s' Hstep _ IH]; intros p Hi Hp; [eauto|].
  destruct (advance_keeps _ _ _ _ _ Hstep Hi Hp) as (p1 & Hi1 & Hp1). eauto.
Qed.

Lemma advances_reachable s s' : rtc advance s s' → pool_reachable s → pool_reachable s'.
Proof.
  intros Hrun [w Hw]. exists w. etrans; [exact Hw|]. eapply rtc_subrel; [|exact Hrun]. by left.
Qed.

(** C26. Whatever the clients do and however the requests interleave, at most as many
    evaluations as there are workers have a client that waits for them, and the answer a client
    gets is the one of the evaluation of its own request, by its policy and for its endpoint. *)
Theorem pool_bounds_evaluations s (Hr : pool_reachable s) :
  count_if is_evaluating (tasks s) ≤ pool_size ∧
  ∀ i j r, tasks s !! i = Some (j, Answered r) →
    ∃ metrics w w', evaluate env (j_policy j) (j_request j) (j_origin j) w = Some ((metrics, r), w').
Proof.
  destruct (pool_reachable_inv s Hr) as [Hsum Hok]. split; [lia|]. intros i j r Hi.
  exact (Forall_lookup_1 _ _ _ _ Hok Hi).
Qed.

(** C14. No request starves while the evaluations that never end leave a worker free. When fewer
    requests than workers wait for, or have, an evaluation that never ends, then once the clients
    are quiet the handlers can take only finitely many steps, and when none is left no request is
    queued: every request whose client waits has been answered, or its evaluation panicked, or is
    one of those that never end. *)
Theorem pool_answers_everyone s (Hr : pool_reachable s) (Hstuck : count_if is_stuck (tasks s) < pool_size) :
  (∀ n s', nsteps advance n s s' → n ≤ pending s) ∧
  ∀ s', rtc advance s s' → nf advance s' →
    ∀ i j p, tasks s !! i = Some (j, p) → served_phase p →
      (∃ r, tasks s' !! i = Some (j, Answered r)) ∨
      (tasks s' !! i = Some (j, Panicked) ∧ ∃ w, run_job j w = None) ∨
      (tasks s' !! i = Some (j, Evaluating) ∧ ends j = false).
Proof.
  split.
  - intros n s' Hrun. clear Hr Hstuck. induction Hrun as [|n s s1 s' Hstep _ IH]; [lia|].
    rewrite (advance_pending _ _ Hstep). by apply le_n_S.
  - intros s' Hrun Hnf i j p Hi Hp. destruct (advances_keep _ _ _ _ _ Hrun Hi Hp) as (p' & Hi' & Hp').
    pose proof (advances_reachable _ _ Hrun Hr) as Hr'.
    assert (count_if is_stuck (tasks s') < pool_size) as Hstuck'.
    { clear -Hrun Hstuck. induction Hrun as [|s s1 s' Hstep _ IH]; [done|].
      apply IH. by rewrite (advance_stuck _ _ Hstep). }
    destruct p'; [| |by eauto| |done|done].
    + destruct Hnf. by eapply queued_progress.
    + destruct (ends j) eqn:He; [|by eauto]. destruct Hnf. by eapply evaluation_ends.
    + right. left. split; [done|]. destruct (pool_reachable_inv s' Hr') as [_ Hok].
      exact (Forall_lookup_1 _ _ _ _ Hok Hi').
Qed.
End pool.

(** ** Examples *)

Section examples.
Context `{HashIter, SdkTypes, PR : !PolicyRuntime, R : !Rhai}.
Context (env : EvaluationEnvironment) (ends : Job → bool) (w : World) (j : Job).

(** With no worker the first request waits for ever: nothing but its client can move. *)
Example zero_workers_hang :
  let s := {| available := 0; tasks := [(j, Queued)]; world := w |} in
  pool_reachable env ends 0 s ∧ nf (advance env ends) s.
Proof.
  split.
  - exists w. apply rtc_once. right. exact (client_request _ j).
  - intros [s' Hstep]. inversion Hstep as [i ? ? Hi|i ? ? ? ? Hi|i ? Hi|i ? ? Hi]; simpl in *;
      destruct i as [|[]]; simplify_eq/=.
Qed.

(** An evaluation that never ends keeps the only worker: the next request waits for ever. *)
Example stuck_evaluation_starves :
  ends j = false → ∀ j',
  let s := {| available := 0; tasks := [(j, Evaluating); (j', Queued)]; world := w |} in
  pool_reachable env ends 1 s ∧ nf (advance env ends) s.
Proof.
  intros He j'. split.
  - exists w. eapply rtc_l; [right; exact (client_request _ j)|].
    eapply rtc_l; [left; by eapply (advance_acquire env ends _ 0 j 0)|].
    apply rtc_once. right.
    exact (client_request {| available := 0; tasks := [(j, Evaluating)]; world := w |} j').
  - intros [s' Hstep]. inversion Hstep as [i ? ? Hi|i ? ? ? ? Hi|i ? Hi|i ? ? Hi]; simpl in *;
      destruct i as [|[|[]]]; simplify_eq/=; congruence.
Qed.

(** One worker, and three evaluations at once: the clients of two of them are gone. *)
Example abandoned_evaluations_exceed_pool :
  ∃ s, pool_reachable env ends 1 s ∧ count_if is_evaluating (tasks s) + count_if is_abandoned (tasks s) = 3.
Proof.
  set (busy l n := {| available := n; tasks := l; world := w |} : PoolState World).
  exists (busy [(j, Abandoned); (j, Abandoned); (j, Evaluating)] 0). split; [|done]. exists w.
  assert (∀ l, Forall (λ t, is_queued t = false) l →
    rtc (pool_step env ends) (busy l 1) (busy (l ++ [(j, Evaluating)]) 0)) as Hstart.
  { intros l Hl. eapply rtc_l; [right; exact (client_request _ j)|]. apply rtc_once. left.
    pose proof (advance_acquire env ends (busy (l ++ [(j, Queued)]) 1) (length l) j 0) as Hacq.
    rewrite /set_phase /= in Hacq. rewrite insert_app_r_alt // Nat.sub_diag /= in Hacq. apply Hacq; [|by rewrite take_app_length|done].
    by rewrite lookup_app_r // Nat.sub_diag. }
  assert (∀ l, rtc (pool_step env ends) (busy (l ++ [(j, Evaluating)]) 0) (busy (l ++ [(j, Abandoned)]) 1)) as Hgone.
  { intros l. apply rtc_once. right.
    pose proof (client_gone_evaluating (busy (l ++ [(j, Evaluating)]) 0) (length l) j) as Hg.
    rewrite /set_phase /= in Hg. rewrite insert_app_r_alt // Nat.sub_diag /= in Hg. apply Hg.
    by rewrite lookup_app_r // Nat.sub_diag. }
  etrans; [apply (Hstart []); constructor|]. etrans; [apply (Hgone [])|].
  etrans; [apply (Hstart [(j, Abandoned)]); by repeat constructor|].
  etrans; [apply (Hgone [(j, Abandoned)])|].
  apply (Hstart [(j, Abandoned); (j, Abandoned)]). by repeat constructor.
Qed.
End examples.

Definition example_job : Job := {| j_policy := "mut"; j_request := raw_request; j_origin := OriginValidate |}.

(** A server with one worker that has answered its first client. *)
Lemma pool_bounds_evaluations_witness :
  ∃ (env : EvaluationEnvironment (PR := constant_runtime)) s,
    pool_reachable (R := conjunction_rhai) env (const true) 1 s ∧ tasks s !! 0 = Some (example_job, Answered (Ok mutated_response)) ∧
    ∃ metrics w w', evaluate (R := conjunction_rhai) env "mut" raw_request OriginValidate w = Some ((metrics, Ok mutated_response), w').
Proof.
  destruct mutating_evaluation as (env & w & _ & Hev). exists env.
  set (s := {| available := 1; tasks := [(example_job, Answered (Ok mutated_response))]; world := 1 |}).
  assert (pool_reachable (R := conjunction_rhai) env (const true) 1 s) as Hr.
  { exists w. eapply rtc_l; [right; exact (client_request _ example_job)|].
    eapply rtc_l; [left; by eapply (advance_acquire _ _ _ 0 _ 0)|].
    apply rtc_once. left. exact (advance_answer env (const true)
      {| available := 0; tasks := [(example_job, Evaluating)]; world := w |} 0 example_job _ _ _ eq_refl eq_refl Hev). }
  exists s. split; [exact Hr|]. split; [reflexivity|].
  exact (proj2 (pool_bounds_evaluations env (const true) 1 s Hr) 0 example_job _ eq_refl).
Defined.

Definition looping_job : Job := {| j_policy := "loop"; j_request := raw_request; j_origin := OriginValidate |}.

(** Two workers; the evaluation of one request never ends, the other request is answered. *)
Lemma pool_answers_everyone_witness :
  let ends j := bool_decide (j_policy j ≠ "loop") in
  ∃ (env : EvaluationEnvironment (PR := constant_runtime)) s,
    pool_reachable (R := conjunction_rhai) env ends 2 s ∧ tasks s = [(looping_job, Queued); (example_job, Queued)] ∧
    ∀ s', rtc (advance (R := conjunction_rhai) env ends) s s' → nf (advance (R := conjunction_rhai) env ends) s' →
      ∃ p, tasks s' !! 1 = Some (example_job, p) ∧ p ≠ Queued ∧ p ≠ Evaluating.
Proof.
  intros ends. destruct mutating_evaluation as (env & w & _ & Hev). exists env.
  set (s := {| available := 2; tasks := [(looping_job, Queued); (example_job, Queued)]; world := w |}).
  assert (pool_reachable (R := conjunction_rhai) env ends 2 s) as Hr.
  { exists w. eapply rtc_l; [right; exact (client_request _ looping_job)|]. apply rtc_once. right.
    exact (client_request {| available := 2; tasks := [(looping_job, Queued)]; world := w |} example_job). }
  exists s. split; [exact Hr|]. split; [reflexivity|]. intros s' Hrun Hnf.
  assert (count_if (is_stuck ends) (tasks s) < 2) as Hstuck by (apply (bool_decide_unpack _); vm_compute; reflexivity).
  destruct (proj2 (pool_answers_everyone env ends 2 s Hr Hstuck) s' Hrun Hnf 1 example_job Queued eq_refl I)
    as [[r Ha]|[[Ha _]|[_ Hf]]].
  - exists (Answered r). done.
  - exists Panicked. done.
  - discriminate.
Defined.
