(* ===== verification/Profiling.v ===== *)
(** * Profiling the policy server

    Models [crates/policy-server/src/profiling.rs] and the handlers [pprof_get_cpu] and
    [pprof_get_heap] of [api/handlers.rs]: the flag that keeps CPU profiles apart, the requests
    that share it, and the names of the threads of a report.

    The requests run on the threads of the server: the steps below interleave. A step is what
    happens between two releases of the lock; a request is dropped, when its client goes away,
    only where it waits. The profilers of [pprof] and of [jemalloc] are parameters: what they
    answer is given to the steps. *)

From S2P Require Import Prelude Bytes RustStr Json PolicyId AdmissionResponse ResponseHandler Request.
From S2P Require Import HostCapabilities Callback Runtime GroupEvaluator Config Environment Bootstrap Service.

Inductive ReportGenerationError :=
| CPUAlreadyProfiling
| PprofError (e : string)
| EncodeError (e : string)
| JemallocError (e : string)
| HeapProfilingActivationError (e : string)
| CannotGetJemallocControlHandle.

Definition default_profiling_frequency : Z := 99.
Definition default_profiling_interval : N := 30.

(** ** The flag *)

(** [CPU_PROFILE_ACTIVE]: the flag, and whether a thread panicked with the lock. *)
Record ProfileLock := { cpu_profile_active : bool; lock_poisoned : bool }.

Definition set_active (b : bool) (l : ProfileLock) : ProfileLock :=
  {| cpu_profile_active := b; lock_poisoned := lock_poisoned l |}.

(** The first lines of [start_one_cpu_profile]; [None] is the [unwrap] of the lock. *)
Definition check_active (l : ProfileLock) : option (result unit ReportGenerationError) :=
  if lock_poisoned l then None
  else if cpu_profile_active l then Some (Err CPUAlreadyProfiling) else Some (Ok tt).

(** [on_start], with the answer of the profiler; the assertion fails with the lock held. *)
Definition on_start (built : result unit ReportGenerationError) (l : ProfileLock) :
    option (result unit ReportGenerationError) * ProfileLock :=
  if lock_poisoned l then (None, l)
  else if cpu_profile_active l
  then (None, {| cpu_profile_active := true; lock_poisoned := true |})
  else (Some built, set_active true l).

(** [on_end], with the encoded report. *)
Definition on_end (report : result bytes ReportGenerationError) (l : ProfileLock) :
    option (result bytes ReportGenerationError) * ProfileLock :=
  match report with
  | Err e => (Some (Err e), l)
  | Ok body => if lock_poisoned l then (None, l) else (Some (Ok body), set_active false l)
  end.

(** [ProfileRunner::poll] when the wait is over. *)
Definition poll_ready (res : result unit ReportGenerationError)
    (report : result bytes ReportGenerationError) (l : ProfileLock) :
    option (result bytes ReportGenerationError) * ProfileLock :=
  let '(r, l) := on_end report l in
  ((λ r, match res with Ok _ => r | Err errmsg => Err errmsg end) <$> r, l).

(** ** Requests *)

Inductive ProfilePhase :=
| Arrived
| Checked
| Running
| Replied (r : result bytes ReportGenerationError)
| Crashed
| Gone.

Record ProfileState := { p_lock : ProfileLock; p_requests : list ProfilePhase }.

Definition profile_start : ProfileState :=
  {| p_lock := {| cpu_profile_active := false; lock_poisoned := false |}; p_requests := [] |}.

Definition set_request (s : ProfileState) (i : nat) (p : ProfilePhase) (l : ProfileLock) : ProfileState :=
  {| p_lock := l; p_requests := <[i := p]> (p_requests s) |}.

Definition after_check (r : option (result unit ReportGenerationError)) : ProfilePhase :=
  match r with None => Crashed | Some (Ok _) => Checked | Some (Err e) => Replied (Err e) end.

Definition after_start (r : option (result unit ReportGenerationError)) : ProfilePhase :=
  match r with None => Crashed | Some (Ok _) => Running | Some (Err e) => Replied (Err e) end.

Definition after_poll (r : option (result bytes ReportGenerationError)) : ProfilePhase :=
  match r with None => Crashed | Some r => Replied r end.

Inductive profile_step (s : ProfileState) : ProfileState → Prop :=
| step_request :
    profile_step s {| p_lock := p_lock s; p_requests := p_requests s ++ [Arrived] |}
| step_check i :
    p_requests s !! i = Some Arrived →
    profile_step s (set_request s i (after_check (check_active (p_lock s))) (p_lock s))
| step_start i built :
    p_requests s !! i = Some Checked →
    profile_step s (set_request s i (after_start (on_start built (p_lock s)).1) (on_start built (p_lock s)).2)
| step_finish i res report :
    p_requests s !! i = Some Running →
    profile_step s (set_request s i (after_poll (poll_ready res report (p_lock s)).1)
      (poll_ready res report (p_lock s)).2)
| step_gone i p :
    p_requests s !! i = Some p → p = Arrived ∨ p = Running →
    profile_step s (set_request s i Gone (p_lock s)).

Definition profile_reachable (s : ProfileState) : Prop := rtc profile_step profile_start s.

(** ** The handlers *)

Record ProfileParams := { frequency : Z; interval : N }.

Definition ProfileParams_of_query (f : option Z) (i : option N) : ProfileParams :=
  {| frequency := unwrap_or default_profiling_frequency f; interval := unwrap_or default_profiling_interval i |}.

(** The headers of a report. *)
Definition report_headers (disposition : string) (body : bytes) : list (string * string) :=
  [("content-disposition", disposition); ("content-length", pretty (length body));
   ("content-type", "application/octet-stream")].

Definition quote : string := String (Ascii.ascii_of_N 34) "".
Definition CPU_DISPOSITION : string := "attachment; filename=" +:+ quote +:+ "cpu_profile".
Definition HEAP_DISPOSITION : string := "attachment; filename=" +:+ quote +:+ "heap_profile".

Definition handle_pprof_error (e : ReportGenerationError) : N * ApiError :=
  (500%N, {| ae_status := 500; ae_message := "Something went wrong" |}).

(** What [pprof_get_cpu] makes of the profile. *)
Definition pprof_get_cpu (r : result bytes ReportGenerationError) :
    result (list (string * string) * bytes) (N * ApiError) :=
  let? body := map_err handle_pprof_error r in
  Ok (report_headers CPU_DISPOSITION body, body).

(** [jemalloc_pprof::PROF_CTL]: absent, or whether it is activated; with the answers of the
    library. *)
Definition activate_memory_profiling (prof_ctl : option bool) (activate : result unit string) :
    result unit ReportGenerationError * option bool :=
  match prof_ctl with
  | None => (Err CannotGetJemallocControlHandle, None)
  | Some true => (Ok tt, Some true)
  | Some false =>
      match activate with
      | Ok _ => (Ok tt, Some true)
      | Err e => (Err (HeapProfilingActivationError e), Some false)
      end
  end.

Definition pprof_get_heap (prof_ctl : option bool) (dump : result bytes string) :
    result (list (string * string) * bytes) (N * ApiError) :=
  match prof_ctl with
  | None => Err (handle_pprof_error CannotGetJemallocControlHandle)
  | Some _ =>
      let? pprof := map_err (λ e, handle_pprof_error (JemallocError e)) dump in
      Ok (report_headers HEAP_DISPOSITION pprof, pprof)
  end.

(** ** Names of threads

    The expression [^(?P<thread_name>[a-z-_ :]+?)(-?\d)*$], on names in ASCII. *)

Definition name_char (a : ascii) : bool :=
  in_range 97 122 a || bool_decide (a ∈ ["-"; "_"; " "; ":"]%char).

Definition digit (a : ascii) : bool := in_range 48 57 a.

(** [(-?\d)*$] *)
Fixpoint digit_groups (s : string) : bool :=
  match s with
  | EmptyString => true
  | String a s' =>
      if digit a then digit_groups s'
      else if decide (a = "-"%char) then
        match s' with String b s'' => digit b && digit_groups s'' | EmptyString => false end
      else false
  end.

(** The lazy group: the shortest name whose rest is made of groups. *)
Fixpoint lazy_name (s : string) : option string :=
  match s with
  | EmptyString => None
  | String a s =>
      if negb (name_char a) then None
      else if digit_groups s then Some (String a "")
      else String a <$> lazy_name s
  end.

Fixpoint replace_separators (s : string) : string :=
  match s with
  | EmptyString => ""
  | String a s => String (if bool_decide (a ∈ ["_"; " "]%char) then "-"%char else a) (replace_separators s)
  end.

Definition extract_thread_name (thread_name : string) : string :=
  match lazy_name thread_name with Some name => replace_separators name | None => thread_name end.

(** ** Properties *)

Definition is_running (p : ProfilePhase) : bool := match p with Running => true | _ => false end.

Definition running (s : ProfileState) : nat := count_if is_running (p_requests s).

Lemma running_update s i p p' l :
  p_requests s !! i = Some p →
  running (set_request s i p' l) + (if is_running p then 1 else 0) =
  running s + (if is_running p' then 1 else 0).
Proof. apply count_if_update. Qed.

Lemma running_positive s i : p_requests s !! i = Some Running → 0 < running s.
Proof. intros Hi. by eapply count_if_positive. Qed.

(** The flag is set while a profile runs, and then one runs. *)
Definition profile_inv (s : ProfileState) : Prop :=
  running s ≤ (if cpu_profile_active (p_lock s) then 1 else 0).

Lemma profile_step_inv s s' : profile_step s s' → profile_inv s → profile_inv s'.
Proof.
  intros Hstep Hinv. unfold profile_inv in *.
  destruct Hstep as [|i Hi|i built Hi|i res report Hi|i p Hi Hp]; simpl.
  - rewrite /running count_if_app in Hinv |- *. change (count_if is_running [Arrived]) with 0. lia.
  - pose proof (running_update s i _ (after_check (check_active (p_lock s))) (p_lock s) Hi) as Hr.
    rewrite /check_active /after_check /= in Hr |- *. repeat case_match; simplify_eq/=; lia.
  - pose proof (running_update s i _ (after_start (on_start built (p_lock s)).1)
      (on_start built (p_lock s)).2 Hi) as Hr. rewrite /on_start in Hr |- *.
    destruct (lock_poisoned _), (cpu_profile_active _) eqn:Ha, built; simpl in *; rewrite ?Ha; lia.
  - pose proof (running_update s i _ (after_poll (poll_ready res report (p_lock s)).1)
      (poll_ready res report (p_lock s)).2 Hi) as Hr. pose proof (running_positive s i Hi) as Hpos.
    rewrite /poll_ready /on_end in Hr |- *.
    destruct report; [destruct (lock_poisoned _)|]; simpl in *; destruct (cpu_profile_active (p_lock s)); simpl in *; lia.
  - pose proof (running_update s i _ Gone (p_lock s) Hi) as Hr. simpl in Hr. lia.
Qed.

Lemma profile_reachable_inv s : profile_reachable s → profile_inv s.
Proof.
  unfold profile_reachable. intros Hs. assert (profile_inv profile_start) as H0 by (unfold profile_inv; simpl; reflexivity).
  revert H0. induction Hs; eauto using profile_step_inv.
Qed.

(** The flag is set and nobody will reset it. *)
Definition stuck (s : ProfileState) : Prop := cpu_profile_active (p_lock s) = true ∧ running s = 0.

(** What a request has of a stuck profiler. *)
Definition refused (p : ProfilePhase) : Prop :=
  p = Arrived ∨ p = Replied (Err CPUAlreadyProfiling) ∨ p = Crashed ∨ p = Gone.

Definition refuses_from (n : nat) (s : ProfileState) : Prop :=
  stuck s ∧ n ≤ length (p_requests s) ∧
  ∀ i p, n ≤ i → p_requests s !! i = Some p → refused p.

Lemma refuses_update n s i p p' l :
  p_requests s !! i = Some p → refuses_from n s →
  cpu_profile_active l = true → is_running p' = false →
  (n ≤ i → refused p') → refuses_from n (set_request s i p' l).
Proof.
  intros Hi ([_ Hrun] & Hlen & Hall) Hl Hp' Href. split_and!.
  - split; [done|]. pose proof (running_update s i p p' l Hi) as Hr. rewrite Hrun Hp' in Hr. lia.
  - by rewrite /= length_insert.
  - intros k q Hk. simpl. intros [(<- & <- & _)|[_ Hq]]%list_lookup_insert_Some; [by apply Href|by eapply Hall].
Qed.

Lemma refuses_step n s s' : profile_step s s' → refuses_from n s → refuses_from n s'.
Proof.
  intros Hstep Hs. pose proof Hs as ([Hact Hrun] & Hlen & Hall).
  destruct Hstep as [|i Hi|i built Hi|i res report Hi|i p Hi Hp].
  - split_and!; [split; [done|] | simpl; rewrite length_app; lia |].
    + rewrite /running in Hrun |- *. rewrite /= count_if_app Hrun. done.
    + intros i p Hn. simpl. rewrite lookup_app_Some. intros [?|[_ Hp]]; [by eapply Hall|].
      apply list_lookup_singleton_Some in Hp as [_ <-]. by left.
  - eapply refuses_update; try done; rewrite /check_active Hact; destruct (lock_poisoned _); simpl; unfold refused; auto.
  - eapply refuses_update; try done; rewrite /on_start Hact; destruct (lock_poisoned _); simpl; unfold refused; auto.
  - apply running_positive in Hi. lia.
  - eapply refuses_update; try done. unfold refused; auto.
Qed.

(** The ways a request leaves the flag set behind it. *)
Inductive leak (s : ProfileState) : ProfileState → Prop :=
| leak_gone i :
    p_requests s !! i = Some Running → leak s (set_request s i Gone (p_lock s))
| leak_start i e :
    p_requests s !! i = Some Checked → lock_poisoned (p_lock s) = false →
    cpu_profile_active (p_lock s) = false →
    leak s (set_request s i (Replied (Err e)) (set_active true (p_lock s)))
| leak_report i e :
    p_requests s !! i = Some Running → leak s (set_request s i (Replied (Err e)) (p_lock s)).

Lemma leak_step s s' : leak s s' → profile_step s s'.
Proof.
  destruct 1 as [i Hi|i e Hi Hp Ha|i e Hi].
  - by eapply step_gone; [|right].
  - pose proof (step_start s i (Err e) Hi) as Hs. by rewrite /on_start Hp Ha in Hs.
  - by pose proof (step_finish s i (Ok tt) (Err e) Hi).
Qed.

Lemma leak_stuck s s' : profile_inv s → leak s s' → stuck s'.
Proof.
  unfold profile_inv. intros Hs [i Hi|i e Hi Hp Ha|i e Hi].
  - pose proof (running_update s i _ Gone (p_lock s) Hi) as Hr. pose proof (running_positive s i Hi).
    split; simpl in *; destruct (cpu_profile_active _); done || lia.
  - pose proof (running_update s i _ (Replied (Err e)) (set_active true (p_lock s)) Hi) as Hr.
    rewrite Ha in Hs. split; simpl in *; done || lia.
  - pose proof (running_update s i _ (Replied (Err e)) (p_lock s) Hi) as Hr. pose proof (running_positive s i Hi).
    split; simpl in *; destruct (cpu_profile_active _); done || lia.
Qed.

(** CPU profiles never overlap, however requests interleave and clients come and go. But the
    flag that keeps them apart can outlive its profile: when the client of a running profile
    goes away, when the profiler cannot be started, and when the report cannot be made. From
    then on every new request is refused, or panics, for the rest of the process. *)
Theorem cpu_profiles_exclusive s :
  profile_reachable s →
  running s ≤ 1 ∧
  ∀ s1, leak s s1 → profile_step s s1 ∧
    ∀ s2 i p, rtc profile_step s1 s2 → length (p_requests s1) ≤ i →
      p_requests s2 !! i = Some p → refused p.
Proof.
  intros Hs%profile_reachable_inv. split.
  { unfold profile_inv in Hs. by destruct (cpu_profile_active _); lia. }
  intros s1 Hleak. split; [by apply leak_step|]. intros s2 i p Hsteps Hi Hp.
  assert (refuses_from (length (p_requests s1)) s1) as Hr.
  { split_and!; [by eapply leak_stuck|lia|]. intros k q Hk Hq%lookup_lt_Some. lia. }
  assert (refuses_from (length (p_requests s1)) s2) as (_ & _ & Hall).
  { clear -Hsteps Hr. revert Hr. generalize (length (p_requests s1)) as n. intros n.
    induction Hsteps; eauto using refuses_step. }
  by eapply Hall.
Qed.

(** ** Examples *)

Lemma one_profile_reachable :
  profile_reachable {| p_lock := {| cpu_profile_active := true; lock_poisoned := false |};
                       p_requests := [Running] |}.
Proof.
  eapply rtc_l; [apply step_request|]. eapply rtc_l; [by apply (step_check _ 0)|].
  eapply rtc_l; [by apply (step_start _ 0 (Ok tt))|]. apply rtc_refl.
Qed.

(** A client that does not wait for its profile, and one that asks later. *)
Lemma cpu_profiles_exclusive_witness :
  ∀ s p, rtc profile_step {| p_lock := {| cpu_profile_active := true; lock_poisoned := false |};
                             p_requests := [Gone] |} s →
    p_requests s !! 1 = Some p → refused p.
Proof.
  intros s p Hs Hp. destruct (cpu_profiles_exclusive _ one_profile_reachable) as [_ Hleak].
  destruct (Hleak _ (leak_gone {| p_lock := {| cpu_profile_active := true; lock_poisoned := false |};
                                    p_requests := [Running] |} 0 eq_refl)) as [_ Hrefused].
  exact (Hrefused s 1 p Hs (le_n 1) Hp).
Defined.

(** Two requests that pass the check together: the second one fails the assertion with the
    lock held, and every later one panics. *)
Example concurrent_profiles_poison :
  profile_reachable {| p_lock := {| cpu_profile_active := true; lock_poisoned := true |};
                       p_requests := [Running; Crashed; Crashed] |}.
Proof.
  eapply rtc_l; [apply step_request|]. eapply rtc_l; [apply step_request|].
  eapply rtc_l; [by apply (step_check _ 0)|]. eapply rtc_l; [by apply (step_check _ 1)|].
  eapply rtc_l; [by apply (step_start _ 0 (Ok tt))|]. eapply rtc_l; [by apply (step_start _ 1 (Ok tt))|].
  eapply rtc_l; [apply step_request|]. eapply rtc_l; [by apply (step_check _ 2)|]. apply rtc_refl.
Qed.

Example thread_names :
  extract_thread_name "tokio-runtime-worker" = "tokio-runtime-worker" ∧
  extract_thread_name "tokio_rt worker-12" = "tokio-rt-worker" ∧
  extract_thread_name "Thread 1" = "Thread 1".
Proof. vm_compute. repeat split; reflexivity. Qed.

(** The quoted name of the file of a report is never closed. *)
Example disposition_not_closed : ends_with CPU_DISPOSITION quote = false ∧ ends_with HEAP_DISPOSITION quote = false.
Proof. vm_compute. split; reflexivity. Qed.
