(* ===== verification/ServerRun.v ===== *)
(** * Running the policy server

    Models [PolicyServer::run] and [ServerShutdownGuard] of [crates/policy-server/src/lib.rs],
    and [AbortOnDrop] of [task.rs]: the two servers and the certificate watch, which end in any
    order, as a step relation, up to the point where [run] returns or is cancelled. *)

From S2P Require Import Prelude.

(** ** [task.rs] *)

(** A task of the runtime; the errors of the watch and of [JoinError] are texts. *)
Inductive TaskStatus := TaskRunning | TaskEnded (r : result string string) | TaskAborted.

(** [AbortOnDrop]: the handle is there until the task has been seen to end. *)
Record AbortOnDrop := { task_status : TaskStatus; task_handle : bool }.

Definition AbortOnDrop_new (status : TaskStatus) : AbortOnDrop :=
  {| task_status := status; task_handle := true |}.

(** [poll] panics without the handle. [None] inside is [Poll::Pending]. *)
Definition poll (t : AbortOnDrop) : option (option (result string string) * AbortOnDrop) :=
  if task_handle t then
    Some match task_status t with
         | TaskRunning => (None, t)
         | TaskEnded r => (Some r, {| task_status := TaskEnded r; task_handle := false |})
         | TaskAborted => (Some (Err "task was cancelled"), {| task_status := TaskAborted; task_handle := false |})
         end
  else None.

(** [drop]: [JoinHandle::abort] has no effect on a task that has ended. *)
Definition drop_task (t : AbortOnDrop) : AbortOnDrop :=
  if task_handle t then
    {| task_status := match task_status t with TaskRunning => TaskAborted | status => status end;
       task_handle := false |}
  else t.

(** ** [run] *)

(** [axum_server]: not polled yet, serving, or returned. *)
Inductive ServerFuture := Unbound | Serving | Returned (r : result unit string).

Record RunState := {
  r_api : ServerFuture;
  r_readiness : ServerFuture;
  (** [notify] *)
  r_notified : bool;
  (** without TLS there is no watch *)
  r_watcher : option AbortOnDrop;
  (** what [ServerShutdownGuard] has shut down *)
  r_api_shutdown : bool;
  r_readiness_shutdown : bool;
  (** the signal to the callback handler *)
  r_handler_told : bool;
  (** what [run] returned, or [None] while it waits *)
  r_outcome : option (result unit string);
  r_cancelled : bool;
}.

Definition waiting (s : RunState) : Prop := r_outcome s = None ∧ r_cancelled s = false.

Definition run_start (watcher : option AbortOnDrop) : RunState :=
  {| r_api := Unbound; r_readiness := Unbound; r_notified := false; r_watcher := watcher;
     r_api_shutdown := false; r_readiness_shutdown := false; r_handler_told := false;
     r_outcome := None; r_cancelled := false |}.

Definition with_futures (s : RunState) api readiness notified watcher : RunState :=
  {| r_api := api; r_readiness := readiness; r_notified := notified; r_watcher := watcher;
     r_api_shutdown := r_api_shutdown s; r_readiness_shutdown := r_readiness_shutdown s;
     r_handler_told := r_handler_told s; r_outcome := r_outcome s; r_cancelled := r_cancelled s |}.

(** The future [cert_watcher]: an error when the watch ends, pending without a watch. *)
Definition cert_watcher (watcher : option AbortOnDrop) : option (result unit string) :=
  match watcher with
  | None => None
  | Some t =>
      match poll t with
      | Some (Some (Ok e), _) => Some (Err ("Certificate watch stopped: " +:+ e))
      | Some (Some (Err e), _) =>
          Some (Err ("Certificate watch stopped: Certificate watch task failed: " +:+ e))
      | Some (None, _) | None => None
      end
  end.

Definition future_result (f : ServerFuture) : option (result unit string) :=
  match f with Returned r => Some r | _ => None end.

(** The three futures of [try_join!]. *)
Definition joined (s : RunState) : list (option (result unit string)) :=
  [future_result (r_api s); future_result (r_readiness s); cert_watcher (r_watcher s)].

(** Leaving [run]: what it owns is dropped, the guard and the watch. *)
Definition leave (s : RunState) (told : bool) (outcome : option (result unit string)) (cancelled : bool) : RunState :=
  {| r_api := r_api s; r_readiness := r_readiness s; r_notified := r_notified s;
     r_watcher := drop_task <$> r_watcher s; r_api_shutdown := true; r_readiness_shutdown := true;
     r_handler_told := told; r_outcome := outcome; r_cancelled := cancelled |}.

Inductive run_step : RunState → RunState → Prop :=
| step_api s : waiting s → r_api s = Unbound →
    run_step s (with_futures s Serving (r_readiness s) true (r_watcher s))
| step_api_returns s r : waiting s → r_api s = Serving →
    run_step s (with_futures s (Returned r) (r_readiness s) (r_notified s) (r_watcher s))
(** [notify.notified().await] *)
| step_readiness s : waiting s → r_readiness s = Unbound → r_notified s = true →
    run_step s (with_futures s (r_api s) Serving (r_notified s) (r_watcher s))
| step_readiness_returns s r : waiting s → r_readiness s = Serving →
    run_step s (with_futures s (r_api s) (Returned r) (r_notified s) (r_watcher s))
| step_watch_ends s t r : waiting s → r_watcher s = Some t → task_status t = TaskRunning →
    run_step s (with_futures s (r_api s) (r_readiness s) (r_notified s)
      (Some {| task_status := TaskEnded r; task_handle := task_handle t |}))
(** [try_join!] returns the first error it sees *)
| step_fails s e : waiting s → Some (Err e) ∈ joined s →
    run_step s (leave s (r_handler_told s) (Some (Err e)) false)
(** or succeeds with all of its futures; then the callback handler is told to stop *)
| step_succeeds s : waiting s → Forall (λ f, f = Some (Ok tt)) (joined s) →
    run_step s (leave s true (Some (Ok tt)) false)
(** the caller drops [run] *)
| step_cancelled s : waiting s → run_step s (leave s (r_handler_told s) None true).

Definition run_reachable (watcher : option AbortOnDrop) : RunState → Prop := rtc run_step (run_start watcher).

(** ** Properties *)

Lemma cert_watcher_never_ok w : cert_watcher w ≠ Some (Ok tt).
Proof. destruct w as [[[|[]|] []]|]; done. Qed.

Record run_inv (tls : bool) (s : RunState) : Prop := {
  inv_watcher : is_Some (r_watcher s) ↔ tls = true;
  inv_never_ok : r_outcome s ≠ Some (Ok tt) ∧ r_handler_told s = false;
  inv_ready : r_readiness s ≠ Unbound → r_api s ≠ Unbound;
  inv_notified : r_notified s = true → r_api s ≠ Unbound;
  inv_handle t : waiting s → r_watcher s = Some t → task_handle t = true;
  inv_left : ¬ waiting s → r_api_shutdown s = true ∧ r_readiness_shutdown s = true ∧
    ∀ t, r_watcher s = Some t → task_status t ≠ TaskRunning;
}.

Lemma run_inv_start status : run_inv false (run_start None) ∧ run_inv true (run_start (Some (AbortOnDrop_new status))).
Proof.
  split; (split; simpl; [naive_solver|done|done|done|by intros t _ [= <-]|intros []; done]).
Qed.

(** Futures that advance while [run] waits. *)
Lemma run_inv_futures tls s api readiness notified watcher :
  run_inv tls s → waiting s →
  (is_Some watcher ↔ is_Some (r_watcher s)) → (r_api s ≠ Unbound → api ≠ Unbound) →
  (readiness ≠ Unbound → r_readiness s ≠ Unbound ∨ r_notified s = true) →
  (notified = true → r_notified s = true ∨ api ≠ Unbound) →
  (∀ t', watcher = Some t' → ∃ t, r_watcher s = Some t ∧ task_handle t' = task_handle t) →
  run_inv tls (with_futures s api readiness notified watcher).
Proof.
  intros [Hw Hok Hr Hn Hh _] Hwait Hw' Ha Hr' Hn' Hh'. split; simpl; [|done|..].
  - by rewrite Hw'.
  - intros [?|?]%Hr'; auto.
  - intros [?|?]%Hn'; auto.
  - intros t' _ (t & Ht & ->)%Hh'. by apply Hh.
  - intros []. done.
Qed.

Lemma run_inv_leave tls s outcome cancelled :
  run_inv tls s → waiting s → outcome ≠ Some (Ok tt) → ¬ (outcome = None ∧ cancelled = false) →
  run_inv tls (leave s (r_handler_told s) outcome cancelled).
Proof.
  intros [Hw [_ Ht] Hr Hn Hh _] Hwait Ho Hleft. split; simpl; [|done..| |].
  - by rewrite fmap_is_Some.
  - intros t Hl. by destruct Hleft.
  - intros _. split_and!; [done..|]. intros t (t0 & Ht0 & ->)%fmap_Some.
    specialize (Hh t0 Hwait Ht0). rewrite /drop_task Hh /=. by destruct (task_status t0).
Qed.

Lemma run_inv_step tls s s' : run_inv tls s → run_step s s' → run_inv tls s'.
Proof.
  intros Hs Hstep. destruct Hstep as [s Hw Ha|s r Hw Ha|s Hw Ha Hn|s r Hw Ha|s t r Hw Ht Hr|s e Hw He|s Hw Hall|s Hw].
  - apply run_inv_futures; eauto.
  - apply run_inv_futures; eauto; done.
  - apply run_inv_futures; eauto.
  - apply run_inv_futures; eauto. intros _. left. by rewrite Ha.
  - apply run_inv_futures; [done|done|by rewrite Ht; split; eauto|done|by left|by left|].
    intros t' [= <-]. eauto.
  - apply run_inv_leave; [done..|]. by intros [].
  - exfalso. inversion Hall as [|x l _ Hall']; subst. inversion Hall' as [|x l _ Hall'']; subst.
    inversion Hall'' as [|x l Hc _]; subst. by apply cert_watcher_never_ok in Hc.
  - apply run_inv_leave; [done..|]. by intros [].
Qed.

Lemma run_reachable_inv watcher s :
  watcher = None ∨ (∃ status, watcher = Some (AbortOnDrop_new status)) → run_reachable watcher s →
  run_inv (bool_decide (is_Some watcher)) s.
Proof.
  intros Hw Hs. eapply (rtc_ind_r (run_inv _)); [|intros x y _ Hstep Hx; by eapply run_inv_step|done].
  destruct Hw as [-> |[status ->]]; [apply (run_inv_start TaskRunning)|].
  rewrite bool_decide_true; [apply run_inv_start|by eexists].
Qed.

(** [run] leaves nothing behind. Whenever it is left, because a server failed, because the
    certificate watch ended or because it was cancelled, both servers were told to close their
    connections and the watch does not run any more; the readiness probe is only served once
    the API server was started; and a watch that has ended stops the server. But [run] never
    succeeds: its certificate future cannot, with TLS or without, so that the code after
    [try_join!], which stops the callback handler and waits for it, is never reached. *)
Theorem run_leaves_nothing watcher s :
  watcher = None ∨ (∃ status, watcher = Some (AbortOnDrop_new status)) → run_reachable watcher s →
  (r_outcome s ≠ Some (Ok tt) ∧ r_handler_told s = false) ∧
  (r_readiness s ≠ Unbound → r_api s ≠ Unbound) ∧
  (¬ waiting s → r_api_shutdown s = true ∧ r_readiness_shutdown s = true ∧
    ∀ t, r_watcher s = Some t → task_status t ≠ TaskRunning) ∧
  (∀ t r, waiting s → r_watcher s = Some t → task_status t = TaskEnded r →
    ∃ e s', run_step s s' ∧ r_outcome s' = Some (Err e)).
Proof.
  intros Hw Hs. destruct (run_reachable_inv _ _ Hw Hs) as [_ Hok Hr _ Hh Hl]. do 3 (split; [done|]).
  intros t r Hwait Ht Hend. specialize (Hh t Hwait Ht).
  assert (∃ e, cert_watcher (r_watcher s) = Some (Err e)) as [e He].
  { rewrite Ht /cert_watcher /poll Hh Hend. destruct r; by eexists. }
  exists e, (leave s (r_handler_told s) (Some (Err e)) false). split; [|done].
  apply step_fails; [done|]. rewrite /joined He. do 2 right. by left.
Qed.

(** ** Examples *)

Definition serving_with_tls : RunState :=
  {| r_api := Serving; r_readiness := Unbound; r_notified := true;
     r_watcher := Some {| task_status := TaskEnded (Ok "the watch was removed"); task_handle := true |};
     r_api_shutdown := false; r_readiness_shutdown := false; r_handler_told := false;
     r_outcome := None; r_cancelled := false |}.

Lemma serving_with_tls_reachable : run_reachable (Some (AbortOnDrop_new TaskRunning)) serving_with_tls.
Proof.
  eapply rtc_l; [by apply step_api|].
  eapply rtc_l; [by eapply (step_watch_ends _ _ (Ok "the watch was removed"))|]. apply rtc_refl.
Qed.

Lemma run_leaves_nothing_witness : ∃ e s', run_step serving_with_tls s' ∧ r_outcome s' = Some (Err e).
Proof.
  destruct (run_leaves_nothing (Some (AbortOnDrop_new TaskRunning)) serving_with_tls
    (or_intror (ex_intro _ TaskRunning eq_refl)) serving_with_tls_reachable) as (_ & _ & _ & Hends).
  exact (Hends _ _ (conj eq_refl eq_refl) eq_refl eq_refl).
Defined.
