(* ===== verification/VerificationConstraints.v ===== *)
(** * Signature constraints

    Models [crates/policy-fetcher/src/verify/verification_constraints.rs], the
    signatures of [verify/config.rs] and the errors of [verify/errors.rs]. The
    [url] and [sigstore] crates are the parameters [UrlLib] and [Sigstore]. *)

From S2P Require Import Prelude RustStr.

(** ** The [url] crate *)

Inductive UrlParseError :=
| RelativeUrlWithoutBase
| OtherUrlParseError (display : string).

Class UrlLib := {
  Url : Type;
  url_parse : string → result Url UrlParseError;
  url_to_string : Url → string;
  url_scheme : Url → string;
  url_host_str : Url → option string;
  url_port : Url → option N;
  url_path : Url → string;
  (** [None] for a URL that cannot be a base. *)
  url_path_segments : Url → option (list string);
  url_set_path : Url → string → Url;
  url_to_file_path : Url → option string;
  url_error_to_string : UrlParseError → string;
}.

(** A serialized URL stays parsable, and unchanged, under a final slash: what the
    [expect] of [GenericIssuerSubjectVerifier::new] relies on. *)
Class UrlLaws `{UrlLib} := {
  url_push_slash u : ends_with (url_to_string u) "/" = false →
    ∃ v, url_parse (url_to_string u +:+ "/") = Ok v ∧
         url_to_string v = url_to_string u +:+ "/";
}.

(** ** The [sigstore] crate *)

(** The variants the code tells apart. *)
Inductive SigstoreError :=
| RegistryPullManifestError (image error : string)
| VerificationConstraintError (message : string)
| OtherSigstoreError (display : string).

Inductive CertificateSubject :=
| SubjectEmail (email : string)
| SubjectUri (uri : string).

Record CertificateSignature := {
  cs_subject : CertificateSubject;
  cs_issuer : option string;
  cs_github_workflow_repository : option string;
}.

Class Sigstore := {
  SignatureLayer : Type;
  certificate_signature : SignatureLayer → option CertificateSignature;
  PublicKeyVerifier : Type;
  public_key_try_from : string → result PublicKeyVerifier SigstoreError;
  public_key_verify : PublicKeyVerifier → SignatureLayer → result bool SigstoreError;
  annotation_verify : gmap string string → SignatureLayer → result bool SigstoreError;
  sigstore_error_to_string : SigstoreError → string;
  (** [cosign::verify_constraints]: the constraints no layer satisfies are an error. *)
  verify_constraints :
    list SignatureLayer → list (SignatureLayer → result bool SigstoreError) → result unit string;
}.

(** [verify_constraints] as documented: a constraint is satisfied by one layer,
    and an error of the constraint counts as a layer that does not satisfy it. *)
Class SigstoreLaws `{Sigstore} := {
  verify_constraints_Ok layers cs :
    verify_constraints layers cs = Ok tt ↔
    Forall (λ c, ∃ layer, layer ∈ layers ∧ c layer = Ok true) cs;
}.

(** ** Errors: [RegistryError] and [VerifyError]; errors of other crates as their text *)

Inductive RegistryError :=
| OCIRegistryError (display : string)
| RegistryInvalidReference (display : string)
| BuildImmutableReferenceError (message : string)
| InvalidDestinationError
| RegistryUrlParserError (e : UrlParseError)
| RegistryInvalidURLError (url : string)
| JSONParseError (display : string).

Inductive VerifyError :=
| VerificationFileReadError (display : string)
| ChecksumVerificationError (message : string)
| ImageVerificationError (message : string)
| InvalidVerifyFileError (message : string)
| InvalidOCIImageReferenceError (display : string)
| KeyVerificationError (e : SigstoreError)
| FailedToFetchTrustedLayersError (e : SigstoreError)
| MissingWasmFileError (path : string)
| DigestErrors (display : string)
| VerifyRegistryError (e : RegistryError)
| GithubUrlParserError (message : string)
| FailedToParseYamlDataError (display : string).

(** The texts of [thiserror]. *)
Definition RegistryError_to_string `{UrlLib} (e : RegistryError) : string :=
  match e with
  | OCIRegistryError e => "Fail to interact with OCI registry: " +:+ e
  | RegistryInvalidReference e => "Invalid OCI image reference: " +:+ e
  | BuildImmutableReferenceError message => message
  | InvalidDestinationError => "Invalid destination format"
  | RegistryUrlParserError e => url_error_to_string e
  | RegistryInvalidURLError url => "invalid URL: " +:+ url
  | JSONParseError e => e
  end.

Definition VerifyError_to_string `{UrlLib, Sigstore} (e : VerifyError) : string :=
  match e with
  | VerificationFileReadError e => "failed to read verification file: " +:+ e
  | ChecksumVerificationError message | ImageVerificationError message
  | InvalidVerifyFileError message | GithubUrlParserError message => message
  | InvalidOCIImageReferenceError e =>
      "Verification only works with OCI images: Not a valid oci image: " +:+ e
  | KeyVerificationError e => "key verification failure: " +:+ sigstore_error_to_string e +:+ " "
  | FailedToFetchTrustedLayersError e =>
      "failed to get image trusted layers: " +:+ sigstore_error_to_string e
  | MissingWasmFileError path =>
      "Policy cannot be verified, local wasm file doesn't exist: " +:+ path
  | DigestErrors e => "cannot retrieve path from uri: " +:+ e
  | VerifyRegistryError e => RegistryError_to_string e
  | FailedToParseYamlDataError e => e
  end.

Section constraints.
Context `{UL : UrlLib, SG : Sigstore}.

(** ** Signatures of the configuration *)

Inductive Subject :=
| SubjectEqual (value : string)
| SubjectUrlPrefix (prefix : Url).

Inductive Signature :=
| PubKey (owner : option string) (key : string) (annotations : option (gmap string string))
| GenericIssuer (issuer : string) (subject : Subject) (annotations : option (gmap string string))
| GithubAction (owner : string) (repo : option string) (annotations : option (gmap string string)).

(** [deserialize_subject_url_prefix], past the deserialization of the URL. *)
Definition deserialize_subject_url_prefix (url : Url) : Url :=
  if ends_with (url_path url) "/" then url
  else url_set_path url (url_path url +:+ "/").

(** ** Constraints *)

Record PublicKeyAndAnnotationsVerifier := {
  pk_owner : option string;
  pk_pub_key_verifier : PublicKeyVerifier;
  pk_annotation_verifier : option (gmap string string);
}.

(** [?] turns the sigstore error into the variant marked [#[from]]. *)
Definition PublicKeyAndAnnotationsVerifier_new (owner : option string) (key : string)
    (annotations : option (gmap string string)) :
    result PublicKeyAndAnnotationsVerifier VerifyError :=
  let? pub_key_verifier :=
    map_err FailedToFetchTrustedLayersError (public_key_try_from key) in
  Ok {| pk_owner := owner; pk_pub_key_verifier := pub_key_verifier;
        pk_annotation_verifier := annotations |}.

Definition PublicKeyAndAnnotations_verify (v : PublicKeyAndAnnotationsVerifier)
    (sl : SignatureLayer) : result bool SigstoreError :=
  match pk_annotation_verifier v with
  | Some av =>
      let? ok := public_key_verify (pk_pub_key_verifier v) sl in
      if ok then annotation_verify av sl else Ok false
  | None => public_key_verify (pk_pub_key_verifier v) sl
  end.

Record GenericIssuerSubjectVerifier := {
  gi_issuer : string;
  gi_subject : Subject;
  gi_annotation_verifier : option (gmap string string);
}.

(** [None] is the [expect] on the URL that gained a slash. *)
Definition GenericIssuerSubjectVerifier_new (issuer : string) (subject : Subject)
    (annotations : option (gmap string string)) : option GenericIssuerSubjectVerifier :=
  let mk s := {| gi_issuer := issuer; gi_subject := s; gi_annotation_verifier := annotations |} in
  match subject with
  | SubjectEqual _ => Some (mk subject)
  | SubjectUrlPrefix url =>
      let prefix := url_to_string url in
      if ends_with prefix "/" then Some (mk subject)
      else match url_parse (prefix +:+ "/") with
           | Ok u => Some (mk (SubjectUrlPrefix u))
           | Err _ => None
           end
  end.

Definition subject_text (c : CertificateSubject) : string :=
  match c with SubjectEmail e => e | SubjectUri u => u end.

Definition verify_subject_equal (v : GenericIssuerSubjectVerifier) (expected : string)
    (c : CertificateSignature) : bool :=
  bool_decide (Some (gi_issuer v) = cs_issuer c) &&
  bool_decide (expected = subject_text (cs_subject c)).

Definition verify_subject_url_prefix (v : GenericIssuerSubjectVerifier) (prefix : Url)
    (c : CertificateSignature) : bool :=
  bool_decide (Some (gi_issuer v) = cs_issuer c) &&
  starts_with (subject_text (cs_subject c)) (url_to_string prefix).

Definition GenericIssuerSubject_verify (v : GenericIssuerSubjectVerifier)
    (sl : SignatureLayer) : result bool SigstoreError :=
  match certificate_signature sl with
  | None => Ok false
  | Some c =>
      let basic_check := match gi_subject v with
        | SubjectEqual value => verify_subject_equal v value c
        | SubjectUrlPrefix prefix => verify_subject_url_prefix v prefix c
        end in
      match gi_annotation_verifier v with
      | Some av => if basic_check then annotation_verify av sl else Ok false
      | None => Ok basic_check
      end
  end.

(** ** GitHub *)

Definition GITHUB_ACTION_ISSUER : string := "https://token.actions.githubusercontent.com".

Record GitHubRepo := { gr_owner : string; gr_repo : string }.

Definition GitHubRepo_try_from (u : string) : result GitHubRepo VerifyError :=
  let? u := map_err (λ e, GithubUrlParserError
      ("Cannot parse github url: " +:+ url_error_to_string e)) (url_parse u) in
  if decide (url_host_str u ≠ Some "github.com")
  then Err (GithubUrlParserError "Not a GitHub url: host doesn't match") else
  let? segments := ok_or (url_path_segments u)
      (GithubUrlParserError "Cannot parse GitHub url: no path segments") in
  match segments with
  | [] => Err (GithubUrlParserError "cannot parse github url: owner not found")
  | [_] => Err (GithubUrlParserError "cannot parse github url: repo not found")
  | owner :: repo :: _ => Ok {| gr_owner := owner; gr_repo := repo |}
  end.

Record GitHubVerifier := {
  gh_owner : string;
  gh_repo : option string;
  gh_annotation_verifier : option (gmap string string);
}.

Definition not_github_subject (subject : string) : SigstoreError :=
  VerificationConstraintError
    ("The certificate subject url doesn't seem a GitHub valid one, despite the issuer being the GitHub Action one: " +:+ subject).

Definition missing_extension : SigstoreError := VerificationConstraintError
  "The certificate is missing the github_workflow_repository extension despite being a GitHub Action one".

Definition invalid_extension (extension : string) : SigstoreError :=
  VerificationConstraintError
    ("The certificate doesn't have a valid github_workflow_repository extension, despite the issuer being the GitHub Action one: " +:+ extension).

Definition GitHub_verify (v : GitHubVerifier) (sl : SignatureLayer) :
    result bool SigstoreError :=
  match certificate_signature sl with
  | None => Ok false
  | Some c =>
      match cs_issuer c with
      | None => Ok false
      | Some issuer =>
          if decide (issuer ≠ GITHUB_ACTION_ISSUER) then Ok false else
          match cs_subject c with
          | SubjectEmail _ => Ok false
          | SubjectUri subject =>
              let? _ := map_err (λ _, not_github_subject subject) (GitHubRepo_try_from subject) in
              let? extension := ok_or (cs_github_workflow_repository c) missing_extension in
              let? signature_repo := map_err (λ _, invalid_extension extension)
                  (GitHubRepo_try_from ("https://github.com/" +:+ extension)) in
              if decide (gr_owner signature_repo ≠ gh_owner v) then Ok false else
              let other_repo := match gh_repo v with
                | Some repo => bool_decide (gr_repo signature_repo ≠ repo)
                | None => false
                end in
              if other_repo then Ok false
              else match gh_annotation_verifier v with
                   | Some av => annotation_verify av sl
                   | None => Ok true
                   end
          end
      end
  end.

(** ** [Signature::verifier]: the boxed constraint *)

Inductive Constraint :=
| PublicKeyConstraint (v : PublicKeyAndAnnotationsVerifier)
| GenericIssuerConstraint (v : GenericIssuerSubjectVerifier)
| GitHubConstraint (v : GitHubVerifier).

Definition verify (c : Constraint) (sl : SignatureLayer) : result bool SigstoreError :=
  match c with
  | PublicKeyConstraint v => PublicKeyAndAnnotations_verify v sl
  | GenericIssuerConstraint v => GenericIssuerSubject_verify v sl
  | GitHubConstraint v => GitHub_verify v sl
  end.

Definition verifier (s : Signature) : option (result Constraint VerifyError) :=
  match s with
  | PubKey owner key annotations =>
      Some (res_map PublicKeyConstraint
              (PublicKeyAndAnnotationsVerifier_new owner key annotations))
  | GenericIssuer issuer subject annotations =>
      (λ v, Ok (GenericIssuerConstraint v)) <$>
        GenericIssuerSubjectVerifier_new issuer subject annotations
  | GithubAction owner repo annotations =>
      Some (Ok (GitHubConstraint {| gh_owner := owner; gh_repo := repo;
                                    gh_annotation_verifier := annotations |}))
  end.

(** ** Specification *)

(** The annotations a signature asks for. *)
Definition annotations_of (s : Signature) : option (gmap string string) :=
  match s with PubKey _ _ a | GenericIssuer _ _ a | GithubAction _ _ a => a end.

Definition annotations_hold (annotations : option (gmap string string))
    (sl : SignatureLayer) : result bool SigstoreError :=
  match annotations with
  | Some a => annotation_verify a sl
  | None => Ok true
  end.

Definition slashed (p : string) : string := if ends_with p "/" then p else p +:+ "/".

(** Who signed the layer is who the signature names. *)
Definition signer_matches (s : Signature) (sl : SignatureLayer) : Prop :=
  match s with
  | PubKey _ key _ =>
      ∃ v, public_key_try_from key = Ok v ∧ public_key_verify v sl = Ok true
  | GenericIssuer issuer (SubjectEqual value) _ =>
      ∃ c, certificate_signature sl = Some c ∧ cs_issuer c = Some issuer ∧
           subject_text (cs_subject c) = value
  | GenericIssuer issuer (SubjectUrlPrefix u) _ =>
      ∃ c rest, certificate_signature sl = Some c ∧ cs_issuer c = Some issuer ∧
           subject_text (cs_subject c) = slashed (url_to_string u) +:+ rest
  | GithubAction owner repo _ =>
      ∃ c subject r' extension r, certificate_signature sl = Some c ∧
           cs_issuer c = Some GITHUB_ACTION_ISSUER ∧
           cs_subject c = SubjectUri subject ∧ GitHubRepo_try_from subject = Ok r' ∧
           cs_github_workflow_repository c = Some extension ∧
           GitHubRepo_try_from ("https://github.com/" +:+ extension) = Ok r ∧
           gr_owner r = owner ∧ (∀ name, repo = Some name → gr_repo r = name)
  end.

(** The layer is one the signature asks for. *)
Definition trusts (s : Signature) (sl : SignatureLayer) : Prop :=
  signer_matches s sl ∧ annotations_hold (annotations_of s) sl = Ok true.

Lemma public_key_verify_exact owner key annotations v sl :
  PublicKeyAndAnnotationsVerifier_new owner key annotations = Ok v →
  PublicKeyAndAnnotations_verify v sl = Ok true ↔ trusts (PubKey owner key annotations) sl.
Proof.
  rw /PublicKeyAndAnnotationsVerifier_new /PublicKeyAndAnnotations_verify /trusts /=. intros Hv.
  destruct (public_key_try_from key) as [k|]; simplify_eqs.
  assert ((∃ v, @Ok _ SigstoreError k = Ok v ∧ public_key_verify v sl = Ok true) ↔
          public_key_verify k sl = Ok true) as ->.
  { split; [by intros (v & [= <-] & ?)|by eexists]. }
  destruct annotations as [a|]; simpl; [|by intuition].
  destruct (public_key_verify k sl) as [[]|]; simpl; intuition congruence.
Qed.

Lemma url_prefix_holds v prefix c :
  verify_subject_url_prefix v prefix c ↔
  cs_issuer c = Some (gi_issuer v) ∧
  ∃ rest, subject_text (cs_subject c) = url_to_string prefix +:+ rest.
Proof.
  rw /verify_subject_url_prefix andb_True bool_decide_spec starts_with_spec. naive_solver.
Qed.

Lemma new_subject `{!UrlLaws} issuer subject annotations :
  ∃ v, GenericIssuerSubjectVerifier_new issuer subject annotations = Some v ∧
    gi_issuer v = issuer ∧ gi_annotation_verifier v = annotations ∧
    match subject with
    | SubjectEqual _ => gi_subject v = subject
    | SubjectUrlPrefix u => ∃ u', gi_subject v = SubjectUrlPrefix u' ∧
        url_to_string u' = slashed (url_to_string u)
    end.
Proof.
  rw /GenericIssuerSubjectVerifier_new /slashed. destruct subject as [value|u]; [by eexists|].
  destruct (ends_with (url_to_string u) "/") eqn:He; [by repeat eexists|].
  destruct (url_push_slash u He) as (u' & -> & Hu'). by repeat eexists.
Qed.

Lemma generic_issuer_verify_exact `{!UrlLaws} issuer subject annotations v sl :
  GenericIssuerSubjectVerifier_new issuer subject annotations = Some v →
  GenericIssuerSubject_verify v sl = Ok true ↔ trusts (GenericIssuer issuer subject annotations) sl.
Proof.
  intros Hv. destruct (new_subject issuer subject annotations) as (v' & Hv' & Hi & Ha & Hs).
  assert (v' = v) as -> by congruence. clear Hv Hv'.
  rw /GenericIssuerSubject_verify /trusts Ha. set (P := signer_matches _ sl).
  change (annotations_of _) with annotations.
  assert (∀ c, certificate_signature sl = Some c →
    Is_true match gi_subject v with
    | SubjectEqual value => verify_subject_equal v value c
    | SubjectUrlPrefix prefix => verify_subject_url_prefix v prefix c
    end ↔ P) as Hbasic.
  { rw /P. intros c Hc. destruct subject as [value|u]; simpl; rw Hc.
    - rw Hs /verify_subject_equal andb_True !bool_decide_spec Hi. naive_solver.
    - destruct Hs as (u' & -> & Hu'). rw url_prefix_holds Hi Hu'. naive_solver. }
  destruct (certificate_signature sl) as [c|] eqn:Hc.
  - specialize (Hbasic c eq_refl). revert Hbasic.
    set (b := match gi_subject v with SubjectEqual _ => _ | SubjectUrlPrefix _ => _ end).
    intros Hbasic. rw -Hbasic. clearbody b.
    destruct annotations, b; simpl; intuition congruence.
  - split; [done|]. rw /P /=. destruct subject; naive_solver.
Qed.

Lemma github_verify_exact owner repo annotations sl :
  GitHub_verify {| gh_owner := owner; gh_repo := repo;
                   gh_annotation_verifier := annotations |} sl = Ok true ↔
  trusts (GithubAction owner repo annotations) sl.
Proof.
  rw /GitHub_verify /trusts /annotations_hold /=. split.
  - intros Hok.
    destruct (certificate_signature sl) as [c|]; [|done].
    destruct (cs_issuer c) as [issuer|] eqn:Hi; [|done]. case_decide as Hg; [done|].
    subst issuer. destruct (cs_subject c) as [|subject] eqn:Hs; [done|].
    res_simpl. case_decide as Ho; [done|].
    case_match eqn:Hrepo; [done|]. split; [|done].
    eexists c, subject, _, _, _. do 7 (split; [done|]). intros name ->.
    by apply bool_decide_eq_false, dec_stable in Hrepo.
  - intros ((c & subject & r' & extension & r & -> & -> & -> & Hr' & -> & Hr & <- & Hrepo) & Ha).
    case_decide; [done|]. rw Hr' /= Hr /=. case_decide; [done|].
    destruct repo as [name|]; [|done]. rw (Hrepo name eq_refl) bool_decide_false //. by intros [].
Qed.

(** A signature's constraint accepts exactly the layers the signature asks for. *)
Lemma constraint_exact `{!UrlLaws} s c sl :
  verifier s = Some (Ok c) → verify c sl = Ok true ↔ trusts s sl.
Proof.
  destruct s as [owner key a|issuer subject a|owner repo a]; simpl.
  - destruct (PublicKeyAndAnnotationsVerifier_new owner key a) eqn:Hv; [|done].
    intros [= <-]. by apply public_key_verify_exact.
  - destruct (GenericIssuerSubjectVerifier_new issuer subject a) eqn:Hv; [|done].
    intros [= <-]. by apply generic_issuer_verify_exact.
  - intros [= <-]. apply github_verify_exact.
Qed.

(** Building a constraint never panics. *)
Lemma verifier_total `{!UrlLaws} s : is_Some (verifier s).
Proof.
  destruct s as [| issuer subject a|]; simpl; [by eexists| |by eexists].
  by destruct (new_subject issuer subject a) as (v & -> & _).
Qed.

Lemma accepts_trusts `{!UrlLaws} s sl :
  (∃ c, verifier s = Some (Ok c) ∧ verify c sl = Ok true) ↔ trusts s sl.
Proof.
  split.
  - intros (c & Hc & Hv). by apply (constraint_exact s c sl Hc).
  - intros Ht. destruct (verifier_total s) as ([c|e] & Hc).
    { exists c. split; [done|]. by apply (constraint_exact s c sl Hc). }
    destruct s as [owner key a|issuer subject a|owner repo a]; simplify_eqs.
    + destruct Ht as ((v & Hv & _) & _).
      by rewrite /PublicKeyAndAnnotationsVerifier_new Hv in Hc.
    + by destruct (GenericIssuerSubjectVerifier_new issuer subject a).
Qed.

(** Building the constraint of a configured signature never panics, and the
    constraint accepts exactly the layers the signature asks for: signed with
    the key; or by the issuer with the subject, or a subject under the URL; or by a
    GitHub workflow of the owner and repository; with the annotations in each case. *)
Theorem signature_constraint_exact `{!UrlLaws} s sl :
  is_Some (verifier s) ∧
  ((∃ c, verifier s = Some (Ok c) ∧ verify c sl = Ok true) ↔ trusts s sl).
Proof. split; [apply verifier_total|apply accepts_trusts]. Qed.

(** A URL prefix matches whole path segments: when the prefix does not end in
    a slash, an accepted subject that extends it goes on with a slash, so that
    [https://github.com/kubewarden] never accepts a subject of
    [https://github.com/kubewarden-malicious]. *)
Theorem url_prefix_no_sibling `{!UrlLaws} issuer u annotations c sl cert a rest :
  verifier (GenericIssuer issuer (SubjectUrlPrefix u) annotations) = Some (Ok c) →
  verify c sl = Ok true →
  certificate_signature sl = Some cert →
  ends_with (url_to_string u) "/" = false →
  subject_text (cs_subject cert) = url_to_string u +:+ String a rest →
  a = "/"%char.
Proof.
  intros Hc Hv Hcert Hu Hs. apply (constraint_exact _ _ _ Hc) in Hv.
  destruct Hv as ((cert' & tail & Hcert' & _ & Hs') & _). simplify_eqs.
  rewrite /slashed Hu str_app_assoc in Hs'. rewrite Hs in Hs'.
  by apply str_app_inj_r in Hs' as [= ->].
Qed.
End constraints.

(** ** Concrete libraries *)

(** The part of a string before the first occurrence of a separator, and after it. *)
Fixpoint split_once (s sep : string) : option (string * string) :=
  match strip_prefix s sep with
  | Some t => Some ("", t)
  | None =>
      match s with
      | "" => None
      | String a s => (λ '(h, t), (String a h, t)) <$> split_once s sep
      end
  end.

Lemma split_once_Some s sep h t : split_once s sep = Some (h, t) → s = h +:+ sep +:+ t.
Proof.
  revert h. induction s as [|a s IH]; intros h Hs; simpl in Hs.
  - case_match eqn:Hp; [|done]. simplify_eqs. by apply strip_prefix_Some in Hp.
  - case_match eqn:Hp; simplify_eqs; [by apply strip_prefix_Some in Hp|].
    destruct (split_once s sep) as [[h' t']|]; simplify_eqs. by rewrite (IH h').
Qed.

Lemma split_once_is_Some s sep : contains s sep → is_Some (split_once s sep).
Proof.
  intros (h & t & ->)%contains_spec. induction h as [|a h [x Hx]].
  - rewrite app_Empty. assert (strip_prefix (sep +:+ t) sep = Some t) as Hp
      by by apply strip_prefix_Some.
    destruct (sep +:+ t); simpl; rewrite Hp; by eexists.
  - rewrite app_String /= Hx. case_match; by eexists.
Qed.

(** URLs of the shape [scheme://authority/path]. *)
Record SimpleUrl := { su_scheme : string; su_rest : string }.

Definition su_authority (u : SimpleUrl) : string :=
  match split_once (su_rest u) "/" with Some (h, _) => h | None => su_rest u end.
Definition su_path (u : SimpleUrl) : string :=
  match split_once (su_rest u) "/" with Some (_, p) => "/" +:+ p | None => "" end.

#[export, refine] Instance simple_url : UrlLib := {|
  Url := SimpleUrl;
  url_parse s := match split_once s "://" with
    | Some (h, t) => Ok {| su_scheme := h; su_rest := t |}
    | None => Err RelativeUrlWithoutBase
    end;
  url_to_string u := su_scheme u +:+ "://" +:+ su_rest u;
  url_scheme := su_scheme;
  url_host_str u := Some (match split_once (su_authority u) ":" with
    | Some (h, _) => h | None => su_authority u end);
  url_port u := None;
  url_path := su_path;
  url_path_segments u := Some (split (unwrap_or "" (strip_prefix (su_path u) "/")) "/"%char);
  url_set_path u p := {| su_scheme := su_scheme u; su_rest := su_authority u +:+ p |};
  url_to_file_path u := if decide (su_scheme u = "file") then Some (su_path u) else None;
  url_error_to_string e := match e with
    | RelativeUrlWithoutBase => "relative URL without a base" | OtherUrlParseError s => s end;
|}.
Proof. Defined.

#[export] Instance simple_url_laws : UrlLaws.
Proof.
  split. intros u _. simpl.
  destruct (split_once_is_Some ((su_scheme u +:+ "://" +:+ su_rest u) +:+ "/") "://") as [[h t] Ht].
  { apply contains_spec. exists (su_scheme u), (su_rest u +:+ "/"). by rewrite !str_app_assoc. }
  rewrite Ht. eexists. split; [done|]. by apply split_once_Some in Ht.
Qed.

(** Layers that record who signed them; a key is its own verifier. *)
Record SimpleLayer := {
  sl_certificate : option CertificateSignature;
  sl_keys : list string;
  sl_annotations : gmap string string;
}.

#[export, refine] Instance simple_sigstore : Sigstore := {|
  SignatureLayer := SimpleLayer;
  certificate_signature := sl_certificate;
  PublicKeyVerifier := string;
  public_key_try_from key :=
    if decide (key = "") then Err (OtherSigstoreError "empty key") else Ok key;
  public_key_verify key sl := Ok (bool_decide (key ∈ sl_keys sl));
  annotation_verify a sl := Ok (bool_decide (a ⊆ sl_annotations sl));
  sigstore_error_to_string e := match e with
    | RegistryPullManifestError image _ => "cannot pull the manifest of " +:+ image
    | VerificationConstraintError s | OtherSigstoreError s => s
    end;
  verify_constraints layers cs :=
    if forallb (λ c, existsb (λ sl, match c sl with Ok b => b | Err _ => false end) layers) cs
    then Ok tt else Err "unsatisfied constraints";
|}.
Proof. Defined.

#[export] Instance simple_sigstore_laws : SigstoreLaws.
Proof.
  split. intros layers cs. simpl.
  assert (forallb (λ c, existsb (λ sl, match c sl with Ok b => b | Err _ => false end) layers) cs
    ↔ Forall (λ c, ∃ layer : SimpleLayer, layer ∈ layers ∧ c layer = Ok true) cs) as <-.
  { rewrite forallb_True. apply Forall_iff. intros c. rewrite existb_True Exists_exists.
    split; intros (sl & Hin & Hc); exists sl; split; [done| |done|by rewrite Hc].
    by destruct (c sl) as [[]|]. }
  by destruct (forallb _ _).
Qed.

Definition workflow_layer (subject repository : string) : SimpleLayer :=
  {| sl_certificate := Some {| cs_subject := SubjectUri subject;
       cs_issuer := Some GITHUB_ACTION_ISSUER;
       cs_github_workflow_repository := Some repository |};
     sl_keys := []; sl_annotations := {["env" := "prod"]} |}.

Definition kubewarden_url : SimpleUrl :=
  {| su_scheme := "https"; su_rest := "github.com/kubewarden" |}.

Definition accepts (s : Signature) (sl : SimpleLayer) : bool :=
  match verifier s with
  | Some (Ok c) => match verify c sl with Ok b => b | Err _ => false end
  | _ => false
  end.

(** The kinds of signature on layers signed by GitHub workflows. *)
Example constraints_examples :
  let layer := workflow_layer "https://github.com/kubewarden/pol/.github/workflows/ci.yml"
    "kubewarden/pol" in
  let fork := workflow_layer "https://github.com/kubewarden-malicious/pol" "kubewarden-malicious/pol" in
  let prefix := GenericIssuer GITHUB_ACTION_ISSUER (SubjectUrlPrefix kubewarden_url) None in
  accepts prefix layer = true ∧ accepts prefix fork = false ∧
  accepts (GithubAction "kubewarden" None None) layer = true ∧
  accepts (GithubAction "kubewarden" (Some "other") None) layer = false ∧
  accepts (GithubAction "kubewarden" (Some "pol") (Some {["env" := "test"]})) layer = false ∧
  accepts (GithubAction "kubewarden" None None) fork = false.
Proof. vm_compute. repeat split; reflexivity. Qed.

Lemma signature_constraint_exact_witness :
  trusts (PubKey None "key" None)
    {| sl_certificate := None; sl_keys := ["key"]; sl_annotations := ∅ |}.
Proof.
  apply (signature_constraint_exact (SG := simple_sigstore) (PubKey None "key" None)
    {| sl_certificate := None; sl_keys := ["key"]; sl_annotations := ∅ |}).
  eexists. split; reflexivity.
Defined.

Definition kubewarden_layer : SimpleLayer :=
  workflow_layer "https://github.com/kubewarden/pol" "kubewarden/pol".

Lemma url_prefix_no_sibling_witness :
  accepts (GenericIssuer GITHUB_ACTION_ISSUER (SubjectUrlPrefix kubewarden_url) None)
    kubewarden_layer = true ∧
  String.get 29 "https://github.com/kubewarden/pol" = Some "/"%char.
Proof.
  split; [vm_compute; reflexivity|]. apply (f_equal Some).
  eapply (url_prefix_no_sibling (UL := simple_url) (SG := simple_sigstore) GITHUB_ACTION_ISSUER kubewarden_url None _ kubewarden_layer _
    "/"%char "pol");
    [reflexivity|reflexivity|reflexivity|reflexivity|reflexivity].
Defined.
