(* ===== verification/Sources.v ===== *)
(** * Sources and client protocols

    Models [crates/policy-fetcher/src/]: [sources.rs] and [proxy.rs] (where policies
    may come from, and the clients made of all of them), [fetcher.rs] (how a source is talked to), [client_config] of
    [registry/mod.rs] and the client built by [https.rs]. Certificate parsing, the
    process environment and the files of certificates are the parameter [SourceEnv]. *)

From S2P Require Import Prelude Bytes RustStr VerificationConstraints.

(** ** Certificates and proxies *)

Inductive Certificate :=
| Der (data : bytes)
| Pem (data : bytes).

Record ProxyConfig := {
  http_proxy : option string;
  https_proxy : option string;
  no_proxy : option string;
}.

Class SourceEnv := {
  (** [std::env::var(..).ok()] *)
  env_var : string → option string;
  (** [parse_x509_pem(..).is_ok()] and [X509Certificate::from_der(..).is_ok()] *)
  is_pem : bytes → bool;
  is_der : bytes → bool;
  (** [fs::read] of a certificate file *)
  read_certificate : string → result bytes string;
  (** [reqwest::Certificate::from_der] and [from_pem]: the error, if any *)
  reqwest_from_der : bytes → option string;
  reqwest_from_pem : bytes → option string;
  (** [reqwest::Proxy::https] and [http]: the error, if any *)
  reqwest_proxy : string → option string;
}.

Inductive SourceError :=
| SourceInvalidURLError (url : string)
| SourceOCIRegistryError (display : string)
| SourceInvalidReference (display : string)
| EmptyLayersError (policy : string)
| InvalidCertificateError (message : string)
| CannotReadCertificateError (display : string)
| SourceYamlError (display : string)
| FailedToCreateHttpClientError (display : string).

Definition SourceError_to_string (e : SourceError) : string :=
  match e with
  | SourceInvalidURLError url => "invalid URL: " +:+ url
  | SourceOCIRegistryError e => "Fail to interact with OCI registry: " +:+ e
  | SourceInvalidReference e => "Invalid OCI image reference: " +:+ e
  | EmptyLayersError policy => "could not pull policy " +:+ policy +:+ ": empty layers"
  | InvalidCertificateError message => "Invalid certificate: " +:+ message
  | CannotReadCertificateError e => "Cannot read certificate from file: " +:+ e
  | SourceYamlError e => e
  | FailedToCreateHttpClientError e => "failed to create the http client: " +:+ e
  end.

Section sources.
Context `{SourceEnv}.

Definition or_else {A} (a b : option A) : option A :=
  match a with Some _ => a | None => b end.

Definition get_proxy_env_vars : option string * option string * option string :=
  (or_else (env_var "HTTP_PROXY") (env_var "http_proxy"),
   or_else (env_var "HTTPS_PROXY") (env_var "https_proxy"),
   or_else (env_var "NO_PROXY") (env_var "no_proxy")).

Definition ProxyConfig_from_env : ProxyConfig :=
  let '(http_proxy, https_proxy, no_proxy) := get_proxy_env_vars in
  {| http_proxy := http_proxy; https_proxy := https_proxy; no_proxy := no_proxy |}.

(** ** The sources file *)

Inductive RawSourceAuthority :=
| AuthorityData (data : bytes)
| AuthorityPath (path : string).

Record RawSources := {
  raw_insecure_sources : gset string;
  raw_source_authorities : gmap string (list RawSourceAuthority);
  raw_proxies : option ProxyConfig;
}.

Record Sources := {
  insecure_sources : gset string;
  source_authorities : gmap string (list Certificate);
  source_proxies : option ProxyConfig;
}.

Definition Sources_default : Sources :=
  {| insecure_sources := ∅; source_authorities := ∅; source_proxies := None |}.

(** [TryFrom<RawSourceAuthority> for RawCertificate] *)
Definition RawCertificate_try_from (a : RawSourceAuthority) : result bytes SourceError :=
  match a with
  | AuthorityData data => Ok data
  | AuthorityPath path => map_err CannotReadCertificateError (read_certificate path)
  end.

(** [TryFrom<RawCertificate> for Certificate] *)
Definition Certificate_try_from (cert_data : bytes) : result Certificate SourceError :=
  if is_pem cert_data then Ok (Pem cert_data)
  else if is_der cert_data then Ok (Der cert_data)
  else Err (InvalidCertificateError "Raw certificate is not in PEM nor in DER encoding").

Definition push_authority (certs : list Certificate) (authority : RawSourceAuthority) :
    result (list Certificate) SourceError :=
  let? raw_cert := RawCertificate_try_from authority in
  let? cert := Certificate_try_from raw_cert in
  Ok (certs ++ [cert]).

(** [TryFrom<RawSourceAuthorities> for SourceAuthorities] *)
Definition SourceAuthorities_try_from `{HashIter}
    (raw : gmap string (list RawSourceAuthority)) :
    result (gmap string (list Certificate)) SourceError :=
  try_fold (λ sa '(host, authorities),
      let? certs := try_fold push_authority [] authorities in
      Ok (<[host := certs]> sa)) ∅ (hash_iter raw).

(** [TryFrom<RawSources> for Sources] *)
Definition Sources_try_from `{HashIter} (s : RawSources) : result Sources SourceError :=
  let? authorities := SourceAuthorities_try_from (raw_source_authorities s) in
  Ok {| insecure_sources := raw_insecure_sources s;
        source_authorities := authorities; source_proxies := raw_proxies s |}.

Definition is_insecure_source (s : Sources) (host : string) : bool :=
  bool_decide (host ∈ insecure_sources s).

Definition source_authority (s : Sources) (host : string) : option (list Certificate) :=
  source_authorities s !! host.

Definition proxies (s : Sources) : ProxyConfig :=
  unwrap_or ProxyConfig_from_env (source_proxies s).

(** ** Protocols *)

Inductive TlsVerificationMode :=
| CustomCaCertificates (certificates : list Certificate)
| SystemCa
| NoTlsVerification.

Inductive ClientProtocol :=
| Http
| Https (mode : TlsVerificationMode).

(** [host_and_port] of [lib.rs] *)
Definition host_and_port `{UrlLib} (url : Url) : result string string :=
  let? host := ok_or (url_host_str url) (url_to_string url) in
  Ok (host +:+ match url_port url with Some port => ":" +:+ pretty port | None => "" end).

(** The error is the [InvalidURLError] of the URL. *)
Definition client_protocol `{UrlLib} (url : Url) (sources : Sources) :
    result ClientProtocol string :=
  let? host := host_and_port url in
  match source_authority sources host with
  | Some certificates => Ok (Https (CustomCaCertificates certificates))
  | None => Ok (Https SystemCa)
  end.

(** ** Clients *)

Inductive OciClientProtocol := OciHttp | OciHttps.

(** The fields of [oci_client::client::ClientConfig] the code sets. *)
Record ClientConfig := {
  cc_protocol : OciClientProtocol;
  cc_accept_invalid_certificates : bool;
  cc_extra_root_certificates : list Certificate;
  cc_proxy : ProxyConfig;
}.

Definition OciClientProtocol_from (p : ClientProtocol) : OciClientProtocol :=
  match p with Http => OciHttp | Https _ => OciHttps end.

Definition client_config (client_protocol : ClientProtocol) (sources : Sources) : ClientConfig :=
  let proxy := proxies sources in
  let config accept certs :=
    {| cc_protocol := OciClientProtocol_from client_protocol;
       cc_accept_invalid_certificates := accept;
       cc_extra_root_certificates := certs; cc_proxy := proxy |} in
  match client_protocol with
  | Http => config false []
  | Https SystemCa => config false []
  | Https (CustomCaCertificates certificates) => config false certificates
  | Https NoTlsVerification => config true []
  end.

(** The settings of the [reqwest] client. *)
Record HttpClient := {
  hc_https_only : bool;
  hc_accept_invalid_certs : bool;
  hc_extra_certs : list Certificate;
  hc_proxy : ProxyConfig;
}.

(** [TryFrom<&Certificate> for reqwest::Certificate] *)
Definition reqwest_certificate (c : Certificate) : result Certificate SourceError :=
  match c with
  | Der data =>
      match reqwest_from_der data with
      | None => Ok c
      | Some err => Err (InvalidCertificateError
          ("could not load certificate as DER encoded: " +:+ err))
      end
  | Pem data =>
      match reqwest_from_pem data with
      | None => Ok c
      | Some err => Err (InvalidCertificateError
          ("could not load certificate as PEM encoded: " +:+ err))
      end
  end.

Definition check_proxy (proxy_url : option string) : result unit SourceError :=
  match proxy_url ≫= reqwest_proxy with
  | Some err => Err (FailedToCreateHttpClientError err)
  | None => Ok tt
  end.

(** The client builder of [Https::fetch] *)
Definition https_client (client_protocol : ClientProtocol) (sources : Sources) :
    result HttpClient SourceError :=
  let proxy_sources := proxies sources in
  let client https_only accept certs :=
    {| hc_https_only := https_only; hc_accept_invalid_certs := accept;
       hc_extra_certs := certs; hc_proxy := proxy_sources |} in
  let? client := match client_protocol with
    | Http => Ok (client false false [])
    | Https SystemCa => Ok (client true false [])
    | Https (CustomCaCertificates ca_certificates) =>
        let? certs := try_fold (λ certs c,
            let? c := reqwest_certificate c in Ok (certs ++ [c])) [] ca_certificates in
        Ok (client true false certs)
    | Https NoTlsVerification => Ok (client true true [])
    end in
  let? _ := check_proxy (https_proxy proxy_sources) in
  let? _ := check_proxy (http_proxy proxy_sources) in
  Ok client.

(** ** Clients of the verification

    The client of the [sigstore] crate is made from all the sources, not for one host. *)
Inductive SourcesProtocol := SourcesHttps | SourcesHttpsExcept (insecure : list string).

Record SourcesClientConfig := {
  sc_protocol : SourcesProtocol;
  sc_accept_invalid_certificates : bool;
  sc_extra_root_certificates : list Certificate;
  sc_proxy : option ProxyConfig;
}.

Definition sources_protocol `{HashIter} (s : Sources) : SourcesProtocol :=
  if decide (insecure_sources s = ∅) then SourcesHttps
  else SourcesHttpsExcept (hash_keys (gset_to_gmap tt (insecure_sources s))).

Definition sources_root_certificates `{HashIter} (s : Sources) : list Certificate :=
  (hash_iter (source_authorities s)).*2 ≫= id.

(** [From<Sources> for sigstore::registry::ClientConfig] *)
Definition sigstore_client_config `{HashIter} (s : Sources) : SourcesClientConfig :=
  {| sc_protocol := sources_protocol s; sc_accept_invalid_certificates := false;
     sc_extra_root_certificates := sources_root_certificates s; sc_proxy := Some (proxies s) |}.

(** [From<Sources> for oci_client::client::ClientConfig]; its proxies stay at the default. *)
Definition oci_sources_client_config `{HashIter} (s : Sources) : SourcesClientConfig :=
  {| sc_protocol := sources_protocol s; sc_accept_invalid_certificates := false;
     sc_extra_root_certificates := sources_root_certificates s; sc_proxy := None |}.

(** ** Properties *)

(** A registry is contacted in clear exactly when it is an insecure source. *)
Definition contacts_in_clear (p : SourcesProtocol) (registry : string) : Prop :=
  match p with SourcesHttps => False | SourcesHttpsExcept l => registry ∈ l end.

Lemma verification_clear_exact `{HashIter} s registry :
  contacts_in_clear (sc_protocol (sigstore_client_config s)) registry ↔ is_insecure_source s registry = true.
Proof.
  rewrite /is_insecure_source bool_decide_eq_true /= /sources_protocol. case_decide as He; simpl; [set_solver|].
  by rewrite elem_of_hash_keys -elem_of_dom dom_gset_to_gmap.
Qed.

(** The authority of one source is trusted for every registry. *)
Lemma verification_trusts_every_authority `{HashIter} s c :
  c ∈ sc_extra_root_certificates (sigstore_client_config s) ↔
  ∃ host certificates, source_authority s host = Some certificates ∧ c ∈ certificates.
Proof.
  rewrite /= /sources_root_certificates list_elem_of_bind. split.
  - intros (certs & Hc & ([host certs'] & -> & Hin)%list_elem_of_fmap).
    rewrite hash_iter_perm elem_of_map_to_list in Hin. by exists host, certs'.
  - intros (host & certs & Hs & Hc). exists certs. split; [done|]. apply list_elem_of_fmap.
    exists (host, certs). split; [done|]. by rewrite hash_iter_perm elem_of_map_to_list.
Qed.

(** A connection whose peer is authenticated. *)
Inductive Connection :=
| OciConnection (c : ClientConfig)
| HttpConnection (c : HttpClient).

Definition authenticated (c : Connection) : Prop :=
  match c with
  | OciConnection c => cc_protocol c = OciHttps ∧ cc_accept_invalid_certificates c = false
  | HttpConnection c => hc_https_only c = true ∧ hc_accept_invalid_certs c = false
  end.

Definition protocol_authenticated (p : ClientProtocol) : Prop :=
  match p with Https NoTlsVerification | Http => False | Https _ => True end.

Lemma client_protocol_authenticated `{UrlLib} url sources p :
  client_protocol url sources = Ok p → protocol_authenticated p.
Proof. rw /client_protocol. intros Hp. res_simpl. by case_match; simplify_eqs. Qed.

(** Exactly the authenticated protocols build authenticated clients. *)
Lemma client_config_authenticated p sources :
  authenticated (OciConnection (client_config p sources)) ↔ protocol_authenticated p.
Proof. destruct p as [|[]]; simpl; naive_solver. Qed.

Lemma https_client_authenticated p sources c :
  https_client p sources = Ok c →
  authenticated (HttpConnection c) ↔ protocol_authenticated p.
Proof. destruct p as [|[]]; rw /https_client => Hc; res_simpl; simpl; naive_solver. Qed.
End sources.
