(* ===== verification/Registry.v ===== *)
(** * OCI registries and HTTPS servers

    Models [crates/policy-fetcher/src/registry/mod.rs] and [Https::fetch] of
    [https.rs]: the fallback from one protocol to the next, the credentials, the
    manifests and the download of a module. The [oci_client] and [reqwest] crates,
    [docker_credential] and the file system are the parameters [OciLib] and
    [HostIO]. The state records, besides the host, the clients that were used. *)

From S2P Require Import Prelude Bytes RustStr Json VerificationConstraints Sources.

(** ** Parameters *)

Inductive DockerCredential :=
| IdentityToken (token : string)
| UsernamePassword (user_name password : string).

Inductive RegistryAuth :=
| Anonymous
| Basic (user_name password : string)
| Bearer (token : string).

Record OciDescriptor := { od_media_type : string; od_digest : string }.

Inductive OciManifest :=
| ManifestImage (layers : list OciDescriptor)
| ManifestImageIndex.

Class OciLib := {
  Reference : Type;
  (** [Reference::try_from] and [from_str] *)
  reference_try_from : string → result Reference string;
  reference_registry : Reference → string;
  reference_repository : Reference → string;
  reference_tag : Reference → option string;
  (** [whole], also the [Display] of a reference *)
  reference_whole : Reference → string;
  get_credential : string → result DockerCredential string;
}.

Class HostIO `{OciLib} := {
  Host : Type;
  pull_manifest : ClientConfig → Reference → RegistryAuth → Host → result OciManifest string * Host;
  fetch_manifest_digest :
    ClientConfig → Reference → RegistryAuth → Host → result string string * Host;
  (** The data of the layers that have one of the media types. *)
  pull : ClientConfig → Reference → RegistryAuth → list string → Host →
    result (list bytes) string * Host;
  http_get : HttpClient → string → Host → result bytes string * Host;
  path_exists : string → Host → bool;
  path_is_dir : string → Host → bool;
  read_file : string → Host → result bytes string;
  write_file : string → bytes → Host → result unit string * Host;
  create_dir_all : string → Host → result unit string * Host;
}.

Class OciPush `{OciLib, !HostIO} := {
  (** The manifest of the image, its digest and the text of its configuration *)
  pull_manifest_and_config : ClientConfig → Reference → RegistryAuth → Host →
    result (list OciDescriptor * string * string) string * Host;
  (** [Client::push]: layers and configuration with their media types, and the
      annotations of the manifest; the answer is the URL of the manifest. *)
  push_image : ClientConfig → Reference → RegistryAuth → list (bytes * string) → bytes * string →
    option (gmap string string) → Host → result string string * Host;
  (** [serde_json::from_str] *)
  json_from_str : string → result Value string;
}.

Definition WASM_CONFIG_MEDIA_TYPE : string := "application/vnd.wasm.config.v1+json".
Definition WASM_LAYER_MEDIA_TYPE : string := "application/vnd.wasm.content.layer.v1+wasm".

Section registry.
Context `{UL : UrlLib, SE : SourceEnv, OL : OciLib, !HostIO}.

Record St := { host : Host; connections : list Connection }.

(** ** Effects *)

Definition on_host {A} (op : Host → A * Host) : M St A := λ st,
  let '(a, h) := op (host st) in Some (a, {| host := h; connections := connections st |}).

(** An operation on a client. *)
Definition connect {A} (c : Connection) (op : Host → A * Host) : M St A := λ st,
  let '(a, h) := op (host st) in
  Some (a, {| host := h; connections := connections st ++ [c] |}).

Definition host_query {A} (q : Host → A) : M St A := λ st, Some (q (host st), st).

(** ** Protocols, in order *)

Definition try_with_protocols {T} (url : Url) (sources : Sources)
    (operation : ClientProtocol → M St (result T RegistryError)) :
    M St (result T RegistryError) :=
  let!? p := m_ret (map_err RegistryInvalidURLError (client_protocol url sources)) in
  let! r := operation p in
  match r with
  | Ok t => m_ret (Ok t)
  | Err err =>
      let!? h := m_ret (map_err RegistryInvalidURLError (host_and_port url)) in
      if negb (is_insecure_source sources h) then m_ret (Err err) else
      let! r := operation (Https NoTlsVerification) in
      match r with
      | Ok t => m_ret (Ok t)
      | Err _ => operation Http
      end
  end.

(** ** [Registry] *)

Definition auth (registry : string) : RegistryAuth :=
  match get_credential registry with
  | Ok (IdentityToken _) => Anonymous
  | Ok (UsernamePassword user_name password) => Basic user_name password
  | Err _ => Anonymous
  end.

Definition build_fully_resolved_reference (url : string) : result Reference RegistryError :=
  let image := unwrap_or url (strip_prefix url "registry://") in
  map_err RegistryInvalidReference (reference_try_from image).

(** The common part of [manifest] and [manifest_digest]. *)
Definition on_reference {T} (op : ClientConfig → Reference → RegistryAuth → Host →
    result T string * Host) (url : string) (sources : option Sources) :
    M St (result T RegistryError) :=
  let!? reference := m_ret (build_fully_resolved_reference url) in
  let!? url := m_ret (map_err RegistryUrlParserError
      (url_parse ("registry://" +:+ reference_whole reference))) in
  let registry_auth := auth (reference_registry reference) in
  let sources := unwrap_or Sources_default sources in
  try_with_protocols url sources (λ p,
    let config := client_config p sources in
    let! r := connect (OciConnection config) (op config reference registry_auth) in
    m_ret (map_err OCIRegistryError r)).

Definition manifest (url : string) (sources : option Sources) :
    M St (result OciManifest RegistryError) :=
  on_reference pull_manifest url sources.

Definition manifest_digest (url : string) (sources : option Sources) :
    M St (result string RegistryError) :=
  on_reference fetch_manifest_digest url sources.

Definition manifest_and_config `{OP : !OciPush} (url : string) (sources : option Sources) :
    M St (result (list OciDescriptor * string * Value) RegistryError) :=
  let!? p := on_reference pull_manifest_and_config url sources in
  m_ret (let? config_json := map_err JSONParseError (json_from_str p.2) in
         Ok (p.1, config_json)).

(** [impl PolicyFetcher for Registry] *)
Definition registry_fetch (url : Url) (p : ClientProtocol) (sources : Sources) :
    M St (result bytes SourceError) :=
  let!? reference := m_ret (map_err SourceInvalidReference
      (reference_try_from (unwrap_or "" (strip_prefix (url_to_string url) "registry://")))) in
  let!? h := m_ret (map_err SourceInvalidURLError (host_and_port url)) in
  let config := client_config p sources in
  let! r := connect (OciConnection config)
      (pull config reference (auth h) [WASM_LAYER_MEDIA_TYPE]) in
  m_ret (let? layers := map_err SourceOCIRegistryError r in
         ok_or (head layers) (EmptyLayersError (url_to_string url))).

(** [impl PolicyFetcher for Https] *)
Definition https_fetch (url : Url) (p : ClientProtocol) (sources : Sources) :
    M St (result bytes SourceError) :=
  let!? client := m_ret (https_client p sources) in
  let! r := connect (HttpConnection client) (http_get client (url_to_string url)) in
  m_ret (map_err FailedToCreateHttpClientError r).

(** ** Immutable references *)

Definition is_hex (c : ascii) : bool :=
  let n := Ascii.N_of_ascii c in
  ((48 <=? n) && (n <=? 57) || (65 <=? n) && (n <=? 70) || (97 <=? n) && (n <=? 102))%N.

(** [Regex::is_match] of [[A-Fa-f0-9]{n}]: the expression is not anchored. *)
Fixpoint hex_run (n run : nat) (s : string) : bool :=
  (n <=? run) ||
  match s with
  | "" => false
  | String a s => hex_run n (if is_hex a then S run else 0) s
  end.

Definition hex_match (n : nat) (s : string) : bool := hex_run n 0 s.

Definition build_immutable_ref (image_ref manifest_url : string) :
    result string RegistryError :=
  let? manifest_digest := ok_or
      (if contains_char manifest_url "/"%char then last (split manifest_url "/"%char) else None)
      (BuildImmutableReferenceError
        ("Cannot extract manifest digest from the OCI registry response: " +:+ manifest_url)) in
  let? (digest, checksum) := ok_or (split_once manifest_digest ":")
      (BuildImmutableReferenceError ("Invalid digest: " +:+ manifest_digest)) in
  let? digest_valid :=
    if decide (digest = "sha256") then Ok (hex_match 64 checksum)
    else if decide (digest = "sha512") then Ok (hex_match 128 checksum)
    else Err (BuildImmutableReferenceError
      ("unknown algorithm '" +:+ digest +:+ "' for manifest " +:+ manifest_digest)) in
  if negb digest_valid
  then Err (BuildImmutableReferenceError
    ("The digest of the returned manifest is not valid: " +:+ manifest_digest)) else
  let? oci_reference := map_err RegistryInvalidReference (reference_try_from image_ref) in
  let image := if decide (reference_registry oci_reference = "")
    then reference_repository oci_reference
    else reference_registry oci_reference +:+ "/" +:+ reference_repository oci_reference in
  Ok (image +:+ "@" +:+ manifest_digest).

(** ** Pushing a policy *)

Definition do_push `{OP : !OciPush} (policy : bytes) (url : Url)
    (annotations : option (gmap string string)) (p : ClientProtocol) (sources : Sources) :
    M St (result string RegistryError) :=
  let!? reference := m_ret (map_err RegistryInvalidReference
      (reference_try_from (unwrap_or "" (strip_prefix (url_to_string url) "registry://")))) in
  let registry_auth := auth (reference_registry reference) in
  let layers := [(policy, WASM_LAYER_MEDIA_TYPE)] in
  let config := client_config p sources in
  let! r := connect (OciConnection config)
      (push_image config reference registry_auth layers (as_bytes "{}", WASM_CONFIG_MEDIA_TYPE)
         annotations) in
  m_ret (map_err OCIRegistryError r).

Definition push `{OP : !OciPush} (policy : bytes) (destination : string)
    (sources : option Sources) (annotations : option (gmap string string)) :
    M St (result string RegistryError) :=
  let!? url := m_ret (map_err (λ _, RegistryInvalidURLError destination) (url_parse destination)) in
  let sources := unwrap_or Sources_default sources in
  let!? destination := m_ret (ok_or (strip_prefix destination "registry://") InvalidDestinationError) in
  let!? manifest_url := try_with_protocols url sources (λ p,
    do_push policy url annotations p sources) in
  m_ret (build_immutable_ref destination manifest_url).

(** ** Properties *)

(** Every connection a computation opens satisfies [P]. *)
Definition opens {A} (P : Connection → Prop) (c : M St A) : Prop :=
  ∀ st a st', c st = Some (a, st') →
    ∃ opened, connections st' = connections st ++ opened ∧ Forall P opened.

Lemma opens_mono {A} (P Q : Connection → Prop) (c : M St A) :
  (∀ x, P x → Q x) → opens P c → opens Q c.
Proof.
  intros HPQ Hc st a st' (l & Hl & HP)%Hc. exists l. split; [done|].
  by eapply Forall_impl.
Qed.

Lemma opens_pure {A} P (c : M St A) :
  (∀ st a st', c st = Some (a, st') → connections st' = connections st) → opens P c.
Proof. intros Hc st a st' Hs. exists []. rewrite (Hc _ _ _ Hs) app_nil_r. by split. Qed.

Lemma opens_ret {A} P (a : A) : opens P (m_ret a).
Proof. apply opens_pure. by intros st b st' [= -> ->]. Qed.

Lemma opens_on_host {A} P (op : Host → A * Host) : opens P (on_host op).
Proof. apply opens_pure. intros st a st'. rw /on_host. destruct (op _). by intros [= <- <-]. Qed.

Lemma opens_query {A} P (q : Host → A) : opens P (host_query q).
Proof. apply opens_pure. by intros st a st' [= <- <-]. Qed.

Lemma opens_connect {A} (P : Connection → Prop) c (op : Host → A * Host) :
  P c → opens P (connect c op).
Proof.
  intros HP st a st'. rw /connect. destruct (op _). intros [= <- <-]. exists [c].
  by split; [|constructor].
Qed.

Lemma opens_bind {A B} P (c : M St A) (k : A → M St B) :
  opens P c → (∀ a, opens P (k a)) → opens P (m_bind c k).
Proof.
  intros Hc Hk st b st'. rewrite m_bind_Some. intros (a & st1 & H1 & H2).
  destruct (Hc _ _ _ H1) as (l1 & Hl1 & HP1), (Hk a _ _ _ H2) as (l2 & Hl2 & HP2).
  exists (l1 ++ l2). rewrite Hl2 Hl1 assoc. by split; [|apply Forall_app].
Qed.

Lemma opens_mr_bind {A B E} P (c : M St (result A E)) (k : A → M St (result B E)) :
  opens P c → (∀ a, opens P (k a)) → opens P (mr_bind c k).
Proof. intros Hc Hk. apply opens_bind; [done|]. intros [a|e]; [apply Hk|apply opens_ret]. Qed.

(** A continuation that runs only on the values its argument can return. *)
Lemma opens_mr_ret {A B E} P (r : result A E) (k : A → M St (result B E)) :
  (∀ a, r = Ok a → opens P (k a)) → opens P (mr_bind (m_ret r) k).
Proof.
  intros Hk. destruct r as [a|e]; rw /mr_bind /m_bind /m_ret /=.
  - by apply Hk.
  - by apply opens_ret.
Qed.

Lemma total_on_host {A} (op : Host → A * Host) : panic_free (on_host op).
Proof. intros st. rw /on_host. destruct (op _). by eexists. Qed.

Lemma total_connect {A} c (op : Host → A * Host) : panic_free (connect c op).
Proof. intros st. rw /connect. destruct (op _). by eexists. Qed.

Lemma total_query {A} (q : Host → A) : panic_free (host_query q).
Proof. by eexists. Qed.

(** What holds of the value and the state a computation succeeds with. *)
Definition yields {A E} (c : M St (result A E)) (Q : A → St → Prop) : Prop :=
  ∀ st a st', c st = Some (Ok a, st') → Q a st'.

Lemma yields_ret {A E} (r : result A E) Q :
  (∀ a st, r = Ok a → Q a st) → yields (m_ret r) Q.
Proof. intros HQ st a st' [= -> ->]. by apply HQ. Qed.

Lemma yields_bind {A B E} (c : M St A) (k : A → M St (result B E)) Q :
  (∀ a, yields (k a) Q) → yields (m_bind c k) Q.
Proof. intros Hk st b st'. rewrite m_bind_Some. intros (a & st1 & _ & Hb). by eapply Hk. Qed.

Lemma yields_mr_bind {A B E} (c : M St (result A E)) (k : A → M St (result B E)) Q :
  (∀ a, yields (k a) Q) → yields (mr_bind c k) Q.
Proof.
  intros Hk. apply yields_bind. intros [a|e]; [apply Hk|]. by apply yields_ret.
Qed.

Lemma yields_mr_ret {A B E} (r : result A E) (k : A → M St (result B E)) Q :
  (∀ a, r = Ok a → yields (k a) Q) → yields (mr_bind (m_ret r) k) Q.
Proof.
  intros Hk st b st'. rewrite mr_bind_Ok. intros (a & st1 & [= -> <-] & Hb). by eapply Hk.
Qed.

(** The connections a source allows: the authenticated ones, unless it is listed
    as insecure. *)
Definition permitted (sources : Sources) (h : string) (c : Connection) : Prop :=
  authenticated c ∨ is_insecure_source sources h.

(** An operation that uses the protocol it is given. *)
Definition follows {A} (operation : ClientProtocol → M St A) : Prop :=
  ∀ p, opens (λ c, authenticated c ↔ protocol_authenticated p) (operation p).

Lemma follows_secure {A} (operation : ClientProtocol → M St A) p sources h :
  follows operation → protocol_authenticated p → opens (permitted sources h) (operation p).
Proof. intros Hf Hp. eapply opens_mono, Hf. intros c Hc. left. by apply Hc. Qed.

Lemma follows_insecure {A} (operation : ClientProtocol → M St A) p sources h :
  follows operation → is_insecure_source sources h → opens (permitted sources h) (operation p).
Proof. intros Hf Hp. eapply opens_mono, Hf. intros c Hc. by right. Qed.

Lemma try_with_protocols_opens {T} url sources h
    (operation : ClientProtocol → M St (result T RegistryError)) :
  host_and_port url = Ok h → follows operation →
  opens (permitted sources h) (try_with_protocols url sources operation).
Proof.
  intros Hh Hf. apply opens_mr_ret. intros p Hp. apply map_err_Ok in Hp.
  apply opens_bind.
  { eapply follows_secure; [done|]. by eapply client_protocol_authenticated. }
  intros [t|err]; [apply opens_ret|]. apply opens_mr_ret. rewrite Hh. intros ? [= <-].
  destruct (is_insecure_source sources h) eqn:Hi; [|apply opens_ret]. simpl.
  apply opens_bind; [apply follows_insecure; [done|by rewrite Hi]|].
  intros [t|_]; [apply opens_ret|apply follows_insecure; [done|by rewrite Hi]].
Qed.

Lemma oci_follows {T} (op : ClientConfig → Reference → RegistryAuth → Host →
    result T string * Host) reference registry_auth sources :
  follows (λ p,
    let config := client_config p sources in
    let! r := connect (OciConnection config) (op config reference registry_auth) in
    m_ret (@map_err _ _ RegistryError OCIRegistryError r)).
Proof.
  intros p. apply opens_bind; [apply opens_connect, client_config_authenticated|].
  intros r. apply opens_ret.
Qed.

Lemma registry_fetch_follows url sources : follows (λ p, registry_fetch url p sources).
Proof.
  intros p. do 2 (apply opens_mr_ret; intros ? _).
  apply opens_bind; [apply opens_connect, client_config_authenticated|].
  intros r. apply opens_ret.
Qed.

Lemma https_fetch_follows url sources : follows (λ p, https_fetch url p sources).
Proof.
  intros p. apply opens_mr_ret. intros c Hc.
  apply opens_bind; [by eapply opens_connect, https_client_authenticated|].
  intros r. apply opens_ret.
Qed.

(** On a source that is not listed as insecure the operation runs once, over
    TLS with the system's certificates or the configured ones. *)
Lemma try_with_protocols_secure {T} url sources h
    (operation : ClientProtocol → M St (result T RegistryError)) st :
  host_and_port url = Ok h → is_insecure_source sources h = false →
  try_with_protocols url sources operation st =
  operation (Https (match source_authority sources h with
                    | Some certs => CustomCaCertificates certs | None => SystemCa end)) st.
Proof.
  intros Hh Hi. rw /try_with_protocols /client_protocol Hh /=.
  rw /mr_bind /m_bind /m_ret. destruct (source_authority sources h); simpl;
    (destruct (operation _ st) as [[[t|e] st']|]; [done|by rewrite Hi|done]).
Qed.

(** Past a failed reference the URL that decides on the protocol is the one of
    the resolved reference. *)
Lemma on_reference_opens {T} (op : ClientConfig → Reference → RegistryAuth → Host →
    result T string * Host) url sources reference u h :
  build_fully_resolved_reference url = Ok reference →
  url_parse ("registry://" +:+ reference_whole reference) = Ok u →
  host_and_port u = Ok h →
  opens (permitted (unwrap_or Sources_default sources) h) (on_reference op url sources).
Proof.
  intros Hr Hu Hh. apply opens_mr_ret. rewrite Hr. intros ? [= <-].
  apply opens_mr_ret. rewrite Hu. intros ? [= <-].
  apply try_with_protocols_opens; [done|]. apply oci_follows.
Qed.

Lemma do_push_follows `{OP : !OciPush} policy url annotations sources :
  follows (λ p, do_push policy url annotations p sources).
Proof.
  intros p. apply opens_mr_ret. intros ? _.
  apply opens_bind; [apply opens_connect, client_config_authenticated|].
  intros r. apply opens_ret.
Qed.

(** A reference with a digest; the length of the checksum is that of the algorithm, at
    least. *)
Definition pinned (reference : string) : Prop :=
  ∃ image algorithm checksum, reference = image +:+ "@" +:+ algorithm +:+ ":" +:+ checksum ∧
    ((algorithm = "sha256" ∧ hex_match 64 checksum) ∨ (algorithm = "sha512" ∧ hex_match 128 checksum)).

Lemma build_immutable_ref_pinned image_ref manifest_url reference :
  build_immutable_ref image_ref manifest_url = Ok reference → pinned reference.
Proof.
  rw /build_immutable_ref. intros (md & _ & Hb)%res_bind_Ok.
  apply res_bind_Ok in Hb as ([alg checksum] & Hs%ok_or_Ok & Hb). apply split_once_Some in Hs as ->.
  apply res_bind_Ok in Hb as (valid & Hv & Hb). destruct valid; [|done].
  apply res_bind_Ok in Hb as (r & _ & [= <-]). eexists _, alg, checksum. split; [done|].
  case_decide as Ha; [left; by injection Hv as ->|]. case_decide as Hc; [right; by injection Hv as ->|done].
Qed.

(** A policy is pushed over connections its destination permits, and the reference that
    is returned carries the digest the registry computed. *)
Theorem push_permitted_and_pinned `{OP : !OciPush} policy destination sources annotations url h st r st' :
  url_parse destination = Ok url → host_and_port url = Ok h →
  push policy destination sources annotations st = Some (r, st') →
  (∃ opened, connections st' = connections st ++ opened ∧
     Forall (permitted (unwrap_or Sources_default sources) h) opened) ∧
  ∀ reference, r = Ok reference → pinned reference.
Proof.
  intros Hu Hh Hp. split.
  - revert Hp. apply opens_mr_ret. rewrite Hu. intros ? [= <-]. apply opens_mr_ret. intros dest _.
    apply opens_mr_bind; [apply try_with_protocols_opens; [done|]; apply do_push_follows|].
    intros manifest_url. apply opens_ret.
  - intros reference ->. apply mr_bind_Ok in Hp as (u & st1 & _ & Hp).
    apply mr_bind_Ok in Hp as (dest & st2 & _ & Hp). apply mr_bind_Ok in Hp as (m & st3 & _ & Hp).
    injection Hp as Hp _. by eapply build_immutable_ref_pinned.
Qed.
End registry.
