(* ===== verification/Fetcher.v ===== *)
(** * Fetching policies

    Models [crates/policy-fetcher/src/]: [lib.rs] ([parse_url], [pull_destination],
    [fetch_policy], [create_file_if_valid]), [store/mod.rs] and [store/path/default.rs]
    (the paths of the store on Unix) and [policy.rs]. A [PathBuf] is its text; joining
    paths is [PathBuf::push]. *)

From S2P Require Import Prelude Bytes RustStr Json VerificationConstraints Sources Registry.

(** ** Paths *)

(** [Path::join] *)
Definition path_join (p q : string) : string :=
  if starts_with q "/" then q
  else if bool_decide (p = "") || ends_with p "/" then p +:+ q
  else p +:+ "/" +:+ q.

(** [FromIterator for PathBuf] *)
Definition path_collect (l : list string) : string := foldl path_join "" l.

(** [store/path/default.rs] *)
Definition encode_path (p : string) : string := p.
Definition encode_filename (f : string) : string := f.

(** ** Errors *)

Inductive StoreError :=
| StoreUrlParserError (e : UrlParseError)
| StoreFileReadError (display : string)
| FailedToReadPolicyInLocalStorageError (display : string)
| PolicyStoragePathError (display : string)
| UnknownSchemeError (scheme : string)
| MultiplePoliciesFoundError (prefix : string)
| StoreDigestError (display : string)
| DecoderError (display : string).

Inductive FetcherError :=
| InvalidFilePathError (url : string)
| InvalidWasmFileError
| CannotWriteWasmModuleFile (path display : string)
| FetcherRegistryError (e : RegistryError)
| FetcherUrlParserError (e : UrlParseError)
| FetcherSourceError (e : SourceError)
| FetcherStoreError (e : StoreError)
| FetcherInvalidURLError (url : string)
| CannotCreateStoragePathError (display : string).

Definition StoreError_to_string `{UrlLib} (e : StoreError) : string :=
  match e with
  | StoreUrlParserError e => url_error_to_string e
  | StoreFileReadError e => "failed to read verification file: " +:+ e
  | FailedToReadPolicyInLocalStorageError e => "cannot read policy in local storage: " +:+ e
  | PolicyStoragePathError e => e
  | UnknownSchemeError scheme => "unknown scheme: " +:+ scheme
  | MultiplePoliciesFoundError prefix =>
      "multiple policies found with the same prefix: " +:+ prefix
  | StoreDigestError e => "cannot retrieve path from uri: " +:+ e
  | DecoderError e => e
  end.

Definition FetcherError_to_string `{UrlLib} (e : FetcherError) : string :=
  match e with
  | InvalidFilePathError url => "cannot retrieve path from uri: " +:+ url
  | InvalidWasmFileError => "invalid wasm file"
  | CannotWriteWasmModuleFile path e =>
      "wasm module cannot be save to " +:+ debug_str path +:+ ": " +:+ e
  | FetcherRegistryError e => RegistryError_to_string e
  | FetcherUrlParserError e => url_error_to_string e
  | FetcherSourceError e => SourceError_to_string e
  | FetcherStoreError e => StoreError_to_string e
  | FetcherInvalidURLError url => "invalid URL: " +:+ url
  | CannotCreateStoragePathError e => "invalid URL: " +:+ e
  end.

Record Policy := { uri : string; local_path : string }.

Inductive PolicyPath := PrefixOnly | PrefixAndFilename.

Inductive PullDestination :=
| MainStore
| StoreAt (root : string)
| LocalFile (path : string).

Section fetcher.
Context `{UL : UrlLib, SE : SourceEnv, OL : OciLib, !HostIO}.

(** The root of the main store ([DEFAULT_STORE_ROOT]). *)
Context (default_store_root : string).

(** ** URLs *)

Definition KNOWN_SCHEMES : list string := ["file"; "http"; "https"; "registry"].

(** [parse_url]; the fuel bounds the recursive calls, two are enough. *)
Fixpoint parse_url_fuel (fuel : nat) (url : string) : option (result Url UrlParseError) :=
  match fuel with
  | 0 => None
  | S fuel =>
      match url_parse url with
      | Ok u =>
          if bool_decide (url_scheme u ∉ KNOWN_SCHEMES) && negb (contains url "://")
          then parse_url_fuel fuel ("registry://" +:+ url)
          else Some (Ok u)
      | Err RelativeUrlWithoutBase => Some (url_parse ("registry://" +:+ url))
      | Err e => Some (Err e)
      end
  end.

Definition parse_url (url : string) : result Url UrlParseError :=
  unwrap_or (Err RelativeUrlWithoutBase) (parse_url_fuel 2 url).

(** ** The store *)

(** [host_and_port] of [store/mod.rs] *)
Definition store_host_and_port (url : Url) : string :=
  match url_host_str url with
  | Some host => match url_port url with Some port => host +:+ ":" +:+ pretty port | None => host end
  | None => ""
  end.

(** [policy_prefix]: [element_count - 2] wraps below two elements, where [take] then
    keeps everything. *)
Definition policy_prefix (url : Url) : string :=
  let elements := split (url_path url) "/"%char in
  let element_count := length elements in
  let path := path_collect
    (if bool_decide (element_count < 2) then drop 1 elements
     else take (element_count - 2) (drop 1 elements)) in
  encode_path (path_join (path_join (url_scheme url) (store_host_and_port url)) path).

Definition policy_file_name (url : Url) : string :=
  encode_filename (unwrap_or "" (last (split (url_path url) "/"%char))).

Definition policy_path (url : string) (p : PolicyPath) : result string StoreError :=
  let? url := map_err StoreUrlParserError (url_parse url) in
  let filename := policy_file_name url in
  let prefix := policy_prefix url in
  Ok (match p with
      | PrefixOnly => prefix
      | PrefixAndFilename => path_join prefix filename
      end).

Definition policy_full_path (root url : string) (p : PolicyPath) : result string StoreError :=
  res_map (path_join root) (policy_path url p).

(** [Store::ensure] *)
Definition ensure (root path : string) : M St (result unit string) :=
  on_host (create_dir_all (path_join root path)).

(** ** Destinations *)

Definition pull_destination (url : Url) (destination : PullDestination) :
    M St (result (option string * string) FetcherError) :=
  let in_store root := m_ret (
    let? path := map_err FetcherStoreError
        (policy_full_path root (url_to_string url) PrefixAndFilename) in
    Ok (Some root, path)) in
  match destination with
  | MainStore => in_store default_store_root
  | StoreAt root => in_store root
  | LocalFile path =>
      let! is_dir := host_query (path_is_dir path) in
      if is_dir : bool
      then m_ret (Ok (None, path_join path (unwrap_or "" (last (split (url_path url) "/"%char)))))
      else m_ret (Ok (None, path))
  end.

(** ** Modules *)

Definition WASM_MAGIC_NUMBER : bytes :=
  [Ascii.ascii_of_N 0; Ascii.ascii_of_N 97; Ascii.ascii_of_N 115; Ascii.ascii_of_N 109].

Definition is_wasm (b : bytes) : bool := bool_decide (WASM_MAGIC_NUMBER `prefix_of` b).

Definition create_file_if_valid (b : bytes) (destination url : string) :
    M St (result Policy FetcherError) :=
  if negb (is_wasm b) then m_ret (Err InvalidWasmFileError) else
  let! r := on_host (write_file destination b) in
  m_ret (match r with
         | Err e => Err (CannotWriteWasmModuleFile destination e)
         | Ok _ => Ok {| uri := url; local_path := destination |}
         end).

Inductive PolicyFetcher := HttpsFetcher | RegistryFetcher.

Definition url_fetcher (scheme : string) : result PolicyFetcher StoreError :=
  if decide (scheme = "http" ∨ scheme = "https") then Ok HttpsFetcher
  else if decide (scheme = "registry") then Ok RegistryFetcher
  else Err (UnknownSchemeError scheme).

Definition fetch (f : PolicyFetcher) (url : Url) (p : ClientProtocol) (sources : Sources) :
    M St (result bytes SourceError) :=
  match f with
  | HttpsFetcher => https_fetch url p sources
  | RegistryFetcher => registry_fetch url p sources
  end.

(** ** [fetch_policy] *)

(** Where the module goes, or the policy when it is there already. [None] of the
    monad is [unreachable!()]. *)
Definition cached (url : Url) (destination : string) :
    M St (result (string + Policy) FetcherError) :=
  let policy := {| uri := url_to_string url; local_path := destination |} in
  if decide (url_scheme url = "registry") then
    let!? reference := m_ret (map_err FetcherRegistryError
        (build_fully_resolved_reference (url_to_string url))) in
    let! exists_ := host_query (path_exists destination) in
    if bool_decide (reference_tag reference ≠ Some "latest") && exists_
    then m_ret (Ok (inr policy))
    else m_ret (Ok (inl
      (if bool_decide (Some "latest" = reference_tag reference)
          && negb (ends_with (url_to_string url) ":latest")
       then destination +:+ ":latest" else destination)))
  else if decide (url_scheme url = "http" ∨ url_scheme url = "https") then
    let! exists_ := host_query (path_exists destination) in
    m_ret (Ok (if exists_ : bool then inr policy else inl destination))
  else λ _, None.

(** The download: the protocols in order, as [try_with_protocols] does. *)
Definition download (url : Url) (destination : string) (sources : Sources) :
    M St (result Policy FetcherError) :=
  let!? policy_fetcher := m_ret (map_err FetcherStoreError (url_fetcher (url_scheme url))) in
  let!? p := m_ret (map_err FetcherInvalidURLError (client_protocol url sources)) in
  let! r := fetch policy_fetcher url p sources in
  match r with
  | Ok b => create_file_if_valid b destination (url_to_string url)
  | Err err =>
      let!? h := m_ret (map_err FetcherInvalidURLError (host_and_port url)) in
      if negb (is_insecure_source sources h) then m_ret (Err (FetcherSourceError err)) else
      let! r := fetch policy_fetcher url (Https NoTlsVerification) sources in
      match r with
      | Ok b => create_file_if_valid b destination (url_to_string url)
      | Err _ =>
          let! r := fetch policy_fetcher url Http sources in
          match r with
          | Ok b => create_file_if_valid b destination (url_to_string url)
          | Err e => m_ret (Err (FetcherSourceError e))
          end
      end
  end.

Definition fetch_policy (url : string) (destination : PullDestination)
    (sources : option Sources) : M St (result Policy FetcherError) :=
  let!? url := m_ret (map_err FetcherUrlParserError (parse_url url)) in
  if decide (url_scheme url = "file") then
    m_ret (match url_to_file_path url with
           | Some path => Ok {| uri := url_to_string url; local_path := path |}
           | None => Err (InvalidFilePathError (url_to_string url))
           end)
  else if decide (url_scheme url ∉ ["registry"; "http"; "https"]) then
    m_ret (Err (FetcherStoreError (UnknownSchemeError (url_scheme url))))
  else
  let!? (store, destination) := pull_destination url destination in
  let!? _ := match store with
    | None => m_ret (Ok tt)
    | Some root =>
        let!? prefix := m_ret (map_err FetcherStoreError
            (policy_full_path root (url_to_string url) PrefixOnly)) in
        let! r := ensure root prefix in
        m_ret (map_err CannotCreateStoragePathError r)
    end in
  let!? found := cached url destination in
  match found with
  | inr policy => m_ret (Ok policy)
  | inl destination => download url destination (unwrap_or Sources_default sources)
  end.

(** ** Properties *)

(** What a file system promises: what was written is read back. *)
Class HostLaws := {
  read_after_write path b h h' :
    write_file path b h = (Ok tt, h') → read_file path h' = Ok b;
}.

(** Two calls are enough: the second one is given a URL with a scheme. *)
Lemma parse_url_terminates url : is_Some (parse_url_fuel 2 url).
Proof.
  cbn [parse_url_fuel]. destruct (url_parse url) as [u|[]]; [|by eexists..].
  case_match; [|by eexists].
  destruct (url_parse _) as [v|[]]; [|by eexists..].
  assert (contains ("registry://" +:+ url) "://") as Hc.
  { apply contains_spec. by exists "registry", url. }
  apply Is_true_true in Hc as ->. rewrite andb_false_r. by eexists.
Qed.

Lemma create_file_opens P b destination url : opens P (create_file_if_valid b destination url).
Proof.
  rw /create_file_if_valid. case_match; [apply opens_ret|].
  apply opens_bind; [apply opens_on_host|]. intros r. apply opens_ret.
Qed.

Lemma create_file_total b destination url : panic_free (create_file_if_valid b destination url).
Proof.
  rw /create_file_if_valid. case_match; [apply total_ret|].
  apply total_bind; [apply total_on_host|]. intros r. apply total_ret.
Qed.

Lemma fetch_follows f url sources : follows (λ p, fetch f url p sources).
Proof. destruct f; [apply https_fetch_follows|apply registry_fetch_follows]. Qed.

Lemma fetch_total f url p sources : panic_free (fetch f url p sources).
Proof.
  destruct f; simpl.
  - apply total_mr_ret. intros c _. apply total_bind; [apply total_connect|].
    intros r. apply total_ret.
  - do 2 (apply total_mr_ret; intros ? _). apply total_bind; [apply total_connect|].
    intros r. apply total_ret.
Qed.

Lemma download_opens url destination sources h :
  host_and_port url = Ok h →
  opens (permitted sources h) (download url destination sources).
Proof.
  intros Hh. apply opens_mr_ret. intros f _. apply opens_mr_ret. intros p Hp.
  apply map_err_Ok, client_protocol_authenticated in Hp.
  pose proof (fetch_follows f url sources) as Hf.
  apply opens_bind; [by apply (follows_secure (λ p, fetch f url p sources))|].
  intros [b|err]; [apply create_file_opens|].
  apply opens_mr_ret. rewrite Hh. intros ? [= <-].
  destruct (is_insecure_source sources h) eqn:Hi; [|apply opens_ret]. simpl.
  assert (∀ p, opens (permitted sources h) (fetch f url p sources)) as Ha.
  { intros p'. apply (follows_insecure (λ p, fetch f url p sources)); [done|by rewrite Hi]. }
  apply opens_bind; [apply Ha|]. intros [b|_]; [apply create_file_opens|].
  apply opens_bind; [apply Ha|]. intros [b|e]; [apply create_file_opens|apply opens_ret].
Qed.

Lemma download_total url destination sources : panic_free (download url destination sources).
Proof.
  apply total_mr_ret. intros f _. apply total_mr_ret. intros p _.
  apply total_bind; [apply fetch_total|]. intros [b|err]; [apply create_file_total|].
  apply total_mr_ret. intros h _. case_match; [apply total_ret|].
  apply total_bind; [apply fetch_total|]. intros [b|_]; [apply create_file_total|].
  apply total_bind; [apply fetch_total|]. intros [b|e]; [apply create_file_total|apply total_ret].
Qed.

Lemma pull_destination_opens P url destination : opens P (pull_destination url destination).
Proof.
  destruct destination; [apply opens_ret..|].
  apply opens_bind; [apply opens_query|]. intros []; apply opens_ret.
Qed.

Lemma pull_destination_total url destination : panic_free (pull_destination url destination).
Proof.
  destruct destination; [apply total_ret..|].
  apply total_bind; [apply total_query|]. intros []; apply total_ret.
Qed.

Lemma cached_opens P url destination : opens P (cached url destination).
Proof.
  rw /cached. case_decide; [|case_decide; [|done]].
  - apply opens_mr_ret. intros r _. apply opens_bind; [apply opens_query|].
    intros e. case_match; apply opens_ret.
  - apply opens_bind; [apply opens_query|]. intros e. apply opens_ret.
Qed.

Lemma cached_total url destination :
  url_scheme url ∈ ["registry"; "http"; "https"] → panic_free (cached url destination).
Proof.
  intros Hs. rw /cached. case_decide; [|case_decide].
  - apply total_mr_ret. intros r _. apply total_bind; [apply total_query|].
    intros e. case_match; apply total_ret.
  - apply total_bind; [apply total_query|]. intros e. apply total_ret.
  - set_solver.
Qed.

Lemma ensure_total root path : panic_free (ensure root path).
Proof. apply total_on_host. Qed.

Lemma fetch_policy_total url destination sources : panic_free (fetch_policy url destination sources).
Proof.
  apply total_mr_ret. intros u _. case_decide; [apply total_ret|].
  case_decide as Hs; [apply total_ret|]. apply total_mr_bind; [apply pull_destination_total|].
  intros [store path]. apply total_mr_bind.
  { destruct store as [root|]; [|apply total_ret]. apply total_mr_ret. intros prefix _.
    apply total_bind; [apply ensure_total|]. intros r. apply total_ret. }
  intros _. apply total_mr_bind; [by apply cached_total|].
  intros [path'|policy]; [apply download_total|apply total_ret].
Qed.

(** What [fetch_policy] may connect to: the server of the policy, authenticated unless
    the server is listed as insecure. *)
Definition policy_connection (url : string) (sources : option Sources) (c : Connection) : Prop :=
  authenticated c ∨
  ∃ u h, parse_url url = Ok u ∧ host_and_port u = Ok h ∧
         is_insecure_source (unwrap_or Sources_default sources) h.

Lemma download_policy_connection url u destination sources :
  parse_url url = Ok u →
  opens (policy_connection url sources)
    (download u destination (unwrap_or Sources_default sources)).
Proof.
  intros Hu. destruct (host_and_port u) as [h|e] eqn:Hh.
  - eapply opens_mono; [|by apply download_opens]. rw /permitted /policy_connection.
    intros c [Hc|Hi]; [by left|right]. by exists u, h.
  - apply opens_mr_ret. intros f _. apply opens_mr_ret. intros p Hp.
    apply map_err_Ok in Hp. by rewrite /client_protocol Hh in Hp.
Qed.

Lemma fetch_policy_opens url destination sources :
  opens (policy_connection url sources) (fetch_policy url destination sources).
Proof.
  apply opens_mr_ret. intros u Hu%map_err_Ok. case_decide; [apply opens_ret|].
  case_decide; [apply opens_ret|]. apply opens_mr_bind; [apply pull_destination_opens|].
  intros [store path]. apply opens_mr_bind.
  { destruct store as [root|]; [|apply opens_ret]. apply opens_mr_ret. intros prefix _.
    apply opens_bind; [apply opens_on_host|]. intros r. apply opens_ret. }
  intros _. apply opens_mr_bind; [apply cached_opens|].
  intros [path'|policy]; [by apply download_policy_connection|apply opens_ret].
Qed.

(** C17. Fetching a policy always returns, and the clients it uses verify the
    certificate of the server: plain HTTP and unverified TLS are only used for a
    server listed among the insecure sources. *)
Theorem fetch_policy_connections url destination sources st :
  ∃ r st' opened, fetch_policy url destination sources st = Some (r, st') ∧
    connections st' = connections st ++ opened ∧
    Forall (policy_connection url sources) opened.
Proof.
  destruct (fetch_policy_total url destination sources st) as [[r st'] Hf].
  destruct (fetch_policy_opens url destination sources st r st' Hf) as (opened & ? & ?).
  by exists r, st', opened.
Qed.

Lemma create_file_yields `{!HostLaws} b destination url :
  yields (create_file_if_valid b destination url) (λ policy st',
    policy = {| uri := url; local_path := destination |} ∧
    is_wasm b ∧ read_file destination (host st') = Ok b).
Proof.
  intros st policy st'. rw /create_file_if_valid. destruct (is_wasm b); simpl; [|done].
  rewrite m_bind_Some. intros (r & st1 & Hw & Hr). apply m_ret_Some in Hr as [= Hp ->].
  rewrite /on_host in Hw. destruct (write_file _ _ _) as [r' h'] eqn:Hw'. simplify_eqs.
  destruct r as [[]|]; simplify_eqs. split_and!; [done..|]. by eapply read_after_write.
Qed.

(** The policy of a URL: a local file, a file of the store, or a module. *)
Definition fetched (u : Url) (policy : Policy) (st : St) : Prop :=
  uri policy = url_to_string u ∧
  ((url_scheme u = "file" ∧ url_to_file_path u = Some (local_path policy)) ∨
   path_exists (local_path policy) (host st) ∨
   ∃ b, is_wasm b ∧ read_file (local_path policy) (host st) = Ok b).

Lemma create_file_fetched `{!HostLaws} u b destination :
  yields (create_file_if_valid b destination (url_to_string u)) (fetched u).
Proof.
  intros st policy st' (-> & Hw & Hr)%create_file_yields. split; [done|]. right. right. by exists b.
Qed.

Lemma download_fetched `{!HostLaws} u destination sources :
  yields (download u destination sources) (fetched u).
Proof.
  apply yields_mr_bind. intros f. apply yields_mr_bind. intros p.
  apply yields_bind. intros [b|err]; [apply create_file_fetched|].
  apply yields_mr_bind. intros h. case_match; [by apply yields_ret|].
  apply yields_bind. intros [b|_]; [apply create_file_fetched|].
  apply yields_bind. intros [b|e]; [apply create_file_fetched|by apply yields_ret].
Qed.

Lemma cached_fetched u destination st policy st' :
  cached u destination st = Some (Ok (inr policy), st') → fetched u policy st'.
Proof.
  intros Hc.
  assert (policy = {| uri := url_to_string u; local_path := destination |} ∧
          path_exists destination (host st')) as [-> He].
  { rewrite /cached in Hc. case_decide; [|case_decide; [|done]].
    - apply mr_bind_Ok in Hc as (r & st1 & _ & Hc).
      apply m_bind_Some in Hc as (e & st2 & [= <- <-] & Hc).
      destruct (path_exists _ _) eqn:He; [|by rewrite andb_false_r in Hc].
      case_match; [|done]. injection Hc as <- <-. by rewrite He.
    - apply m_bind_Some in Hc as (e & st2 & [= <- <-] & Hc).
      destruct (path_exists _ _) eqn:He; [|done]. injection Hc as <- <-. by rewrite He. }
  split; [done|]. by right; left.
Qed.

Lemma fetch_policy_yields `{!HostLaws} url destination sources u :
  parse_url url = Ok u →
  yields (fetch_policy url destination sources) (fetched u).
Proof.
  intros Hu. apply yields_mr_ret. rewrite Hu. intros ? [= <-].
  case_decide as Hfile.
  { apply yields_ret. intros policy st Hp. case_match eqn:Hf; simplify_eqs.
    split; [done|]. by left. }
  case_decide; [by apply yields_ret|].
  apply yields_mr_bind. intros [store path]. apply yields_mr_bind. intros _.
  intros st policy st'. rewrite mr_bind_Ok. intros ([path'|policy'] & st1 & Hc & Hp).
  - by eapply download_fetched.
  - injection Hp as -> ->. by eapply cached_fetched.
Qed.

(** The policy that was fetched is the one of the URL: the local file the URL
    names, a file of the store that was there already, or a WebAssembly module,
    by its magic number, written to its path. *)
Theorem fetch_policy_result `{!HostLaws} url destination sources u st policy st' :
  parse_url url = Ok u →
  fetch_policy url destination sources st = Some (Ok policy, st') →
  fetched u policy st'.
Proof. intros Hu Hp. by eapply fetch_policy_yields. Qed.
End fetcher.

(** ** A concrete host *)

#[export, refine] Instance simple_env : SourceEnv := {|
  env_var _ := None; is_pem _ := true; is_der _ := true;
  read_certificate _ := Err "no such file";
  reqwest_from_der _ := None; reqwest_from_pem _ := None; reqwest_proxy _ := None;
|}.
Proof. Defined.

(** References [registry/repository:tag] and [registry/repository@digest]. *)
Record SimpleReference := {
  sr_registry : string; sr_repository : string; sr_tag : option string; sr_text : string;
}.

#[export, refine] Instance simple_oci : OciLib := {|
  Reference := SimpleReference;
  reference_try_from image :=
    match split_once image "/" with
    | None => Err "invalid reference format"
    | Some (registry, name) =>
        let ref repository tag := Ok {| sr_registry := registry; sr_repository := repository;
          sr_tag := tag; sr_text := image |} in
        match split_once name "@", split_once name ":" with
        | Some (repository, _), _ => ref repository None
        | None, Some (repository, tag) => ref repository (Some tag)
        | None, None => ref name (Some "latest")
        end
    end;
  reference_registry := sr_registry; reference_repository := sr_repository;
  reference_tag := sr_tag; reference_whole := sr_text;
  get_credential _ := Err "no credentials";
|}.
Proof. Defined.

(** A file system, and the answers of the network in order. *)
Record SimpleHost := {
  sh_files : gmap string bytes;
  sh_pulls : list (result (list bytes) string);
  sh_manifests : list (result OciManifest string);
}.

Definition next {A} (l : list (result A string)) : result A string * list (result A string) :=
  match l with [] => (Err "unreachable", []) | r :: l => (r, l) end.

#[export, refine] Instance simple_host : HostIO := {|
  Host := SimpleHost;
  pull_manifest _ _ _ h := let '(r, l) := next (sh_manifests h) in
    (r, {| sh_files := sh_files h; sh_pulls := sh_pulls h; sh_manifests := l |});
  fetch_manifest_digest _ _ _ h := (Err "unreachable", h);
  pull _ _ _ _ h := let '(r, l) := next (sh_pulls h) in
    (r, {| sh_files := sh_files h; sh_pulls := l; sh_manifests := sh_manifests h |});
  http_get _ _ h := (Err "unreachable", h);
  path_exists p h := bool_decide (is_Some (sh_files h !! p));
  path_is_dir _ _ := false;
  read_file p h := ok_or (sh_files h !! p) "no such file";
  write_file p b h := (Ok tt, {| sh_files := <[p := b]> (sh_files h);
    sh_pulls := sh_pulls h; sh_manifests := sh_manifests h |});
  create_dir_all _ h := (Ok tt, h);
|}.
Proof. Defined.

#[export] Instance simple_host_laws : HostLaws.
Proof. split. intros path b h h' [= <-]. simpl. by rewrite lookup_insert_eq. Qed.

Definition wasm_module (s : string) : bytes := WASM_MAGIC_NUMBER ++ as_bytes s.

Definition fresh_state (pulls : list (result (list bytes) string))
    (manifests : list (result OciManifest string)) : @St _ simple_host :=
  {| host := {| sh_files := ∅; sh_pulls := pulls; sh_manifests := manifests |};
     connections := [] |}.

Definition example_fetch (url : string) (pulls : list (result (list bytes) string)) :=
  @fetch_policy simple_url simple_env simple_oci simple_host "/main" url (StoreAt "/store") None
    (fresh_state pulls []).

(** The path of a policy that was fetched. *)
Definition path_of {A} (r : option (result Policy FetcherError * A)) : option string :=
  match r with Some (Ok p, _) => Some (local_path p) | _ => None end.

(** A reference without a tag is kept under the tag [latest]; what is not a
    WebAssembly module is refused. *)
Example fetch_examples :
  path_of (example_fetch "ghcr.io/kubewarden/pol:v1" [Ok [wasm_module "v1"]]) =
    Some "/store/registry/ghcr.io/kubewarden/pol:v1" ∧
  path_of (example_fetch "ghcr.io/kubewarden/pol" [Ok [wasm_module "v2"]]) =
    Some "/store/registry/ghcr.io/kubewarden/pol:latest" ∧
  path_of (example_fetch "ghcr.io/kubewarden/pol:v1" [Ok [as_bytes "text"]]) = None ∧
  path_of (example_fetch "file:///tmp/policy.wasm" []) = Some "/tmp/policy.wasm".
Proof. vm_compute. repeat split; reflexivity. Qed.

Lemma path_of_Some {A} (r : option (result Policy FetcherError * A)) path :
  path_of r = Some path → ∃ policy st, r = Some (Ok policy, st) ∧ local_path policy = path.
Proof. destruct r as [[[policy|] st]|]; intros [=]. by exists policy, st. Qed.

Lemma fetch_policy_result_witness :
  ∃ policy st', example_fetch "ghcr.io/kubewarden/pol:v1" [Ok [wasm_module "v1"]] =
    Some (Ok policy, st') ∧
  fetched (UL := simple_url) {| su_scheme := "registry"; su_rest := "ghcr.io/kubewarden/pol:v1" |}
    policy st'.
Proof.
  destruct (path_of_Some (example_fetch "ghcr.io/kubewarden/pol:v1" [Ok [wasm_module "v1"]])
    "/store/registry/ghcr.io/kubewarden/pol:v1") as (policy & st' & Hf & _).
  { vm_compute. reflexivity. }
  exists policy, st'. split; [exact Hf|].
  exact (@fetch_policy_result simple_url simple_env simple_oci simple_host "/main"
    simple_host_laws "ghcr.io/kubewarden/pol:v1" (StoreAt "/store") None
    {| su_scheme := "registry"; su_rest := "ghcr.io/kubewarden/pol:v1" |}
    (fresh_state [Ok [wasm_module "v1"]] []) policy st' eq_refl Hf).
Defined.

(** Anything around 64 hexadecimal digits passes for a SHA-256 digest. *)
Example immutable_ref_unanchored :
  let digits := "0123456789abcdef0123456789abcdef0123456789abcdef0123456789abcdef" in
  build_immutable_ref (OL := simple_oci) "ghcr.io/kubewarden/pol:v1"
    ("https://ghcr.io/v2/kubewarden/pol/manifests/sha256:<" +:+ digits +:+ ">") =
  Ok ("ghcr.io/kubewarden/pol@sha256:<" +:+ digits +:+ ">").
Proof. vm_compute. reflexivity. Qed.

(** A registry that accepts every push. *)
Definition digest_of_pushes : string :=
  "sha256:0123456789abcdef0123456789abcdef0123456789abcdef0123456789abcdef".

#[export, refine] Instance simple_push : @OciPush simple_oci simple_host := {|
  pull_manifest_and_config _ _ _ h := (Err "unreachable", h);
  push_image _ _ _ _ _ _ h :=
    (Ok ("https://ghcr.io/v2/kubewarden/pol/manifests/" +:+ digest_of_pushes), h);
  json_from_str _ := Ok JNull;
|}.
Proof. Defined.

Definition example_push :=
  push (UL := simple_url) (SE := simple_env) (wasm_module "v1")
    "registry://ghcr.io/kubewarden/pol:v1" None None (fresh_state [] []).

Definition reference_of {A E} (r : option (result string E * A)) : option string :=
  match r with Some (Ok s, _) => Some s | _ => None end.

Lemma push_permitted_and_pinned_witness :
  ∃ r st', example_push = Some (Ok r, st') ∧ pinned r.
Proof.
  assert (reference_of example_push = Some ("ghcr.io/kubewarden/pol@" +:+ digest_of_pushes)) as Hr
    by (vm_compute; reflexivity).
  destruct example_push as [[[r|e] st']|] eqn:Hp; [|discriminate Hr|discriminate Hr].
  exists r, st'. split; [reflexivity|].
  exact (proj2 (push_permitted_and_pinned (UL := simple_url) (SE := simple_env) (wasm_module "v1")
    "registry://ghcr.io/kubewarden/pol:v1" None None
    {| su_scheme := "registry"; su_rest := "ghcr.io/kubewarden/pol:v1" |} "ghcr.io"
    (fresh_state [] []) (Ok r) st' eq_refl eq_refl Hp) r eq_refl).
Defined.
