(* ===== verification/Verify.v ===== *)
(** * Verification of signatures

    Models [crates/policy-fetcher/src/verify/config.rs] (the verification
    configuration) and [verify/mod.rs] (the [Verifier]). [serde_yaml], the cosign client
    and SHA-256 are the parameters [YamlLib], [CosignClient] and [Sha256]. *)

From S2P Require Import Prelude Bytes RustStr VerificationConstraints Sources Registry Fetcher.

Section config.
Context `{UL : UrlLib, SG : Sigstore}.

(** ** Configuration *)

Record AnyOf := {
  minimum_matches : N;
  any_of_signatures : list Signature;
}.

Record VerificationConfigV1 := {
  all_of : option (list Signature);
  any_of : option AnyOf;
}.

Inductive VersionedVerificationConfig :=
| V1 (c : VerificationConfigV1)
| Unsupported.

Class YamlLib := {
  YamlValue : Type;
  (** [serde_yaml::from_str::<VerificationConfig>]: [inl] is [Versioned], [inr] is [Invalid] *)
  yaml_from_str : string → result (VersionedVerificationConfig + YamlValue) string;
  yaml_is_mapping : YamlValue → bool;
  (** [Mapping::remove] *)
  yaml_remove : YamlValue → string → YamlValue;
  (** [serde_yaml::from_value::<LatestVerificationConfig>] *)
  yaml_from_value : YamlValue → result VerificationConfigV1 string;
  (** [serde_yaml::to_string] of a signature *)
  yaml_to_string : Signature → result string string;
}.

(** The checks of a configuration of a known version. *)
Definition check_config (config : VerificationConfigV1) :
    result VerificationConfigV1 VerifyError :=
  if bool_decide (all_of config = None) && bool_decide (any_of config = None)
  then Err (InvalidVerifyFileError "config is missing signatures in both allOf and anyOff list")
  else
  let? _ := match all_of config with
    | Some [] => Err (InvalidVerifyFileError "config's allOf list is empty")
    | _ => Ok tt
    end in
  let? _ := match any_of config with
    | None => Ok tt
    | Some any_of =>
        if bool_decide (any_of_signatures any_of = [])
        then Err (InvalidVerifyFileError "config's anyOf.signatures list is empty")
        else if bool_decide (minimum_matches any_of = 0%N)
        then Err (InvalidVerifyFileError "config's anyOf.minimumMatches must be greater than 0")
        else if bool_decide (length (any_of_signatures any_of) < N.to_nat (minimum_matches any_of))
        then Err (InvalidVerifyFileError
          ("config's anyOf.minimumMatches (" +:+ pretty (minimum_matches any_of) +:+
           ") cannot be greater than the number of signatures (" +:+
           pretty (length (any_of_signatures any_of)) +:+ ")"))
        else Ok tt
    end in
  Ok config.

Definition build_latest_verification_config `{YamlLib} (config_str : string) :
    result VerificationConfigV1 VerifyError :=
  let? vc := map_err FailedToParseYamlDataError (yaml_from_str config_str) in
  match vc with
  | inl (V1 c) => check_config c
  | inl Unsupported => Err (InvalidVerifyFileError
      "Not a supported configuration version: Unsupported")
  | inr value =>
      let sanitized_value :=
        if yaml_is_mapping value then yaml_remove value "apiVersion" else value in
      map_err (λ err, InvalidVerifyFileError ("Not a valid configuration file: " +:+ err))
        (yaml_from_value sanitized_value)
  end.

(** ** Signatures against the configuration *)

(** The filters of both lists; [None] is a panic of [Signature::verifier]. The [unwrap] inside of
    [debug!], on the YAML of a signature that was read from YAML, is left out. *)
Definition unsatisfied (trusted_layers : list SignatureLayer) (s : Signature) : option bool :=
  match verifier s with
  | None => None
  | Some (Ok c) => Some (is_err (verify_constraints trusted_layers [verify c]))
  | Some (Err _) => Some true
  end.

(** [par_iter().filter(..).collect()]: the order is kept. *)
Fixpoint par_filter {A} (f : A → option bool) (l : list A) : option (list A) :=
  match l with
  | [] => Some []
  | a :: l =>
      match f a, par_filter f l with
      | Some b, Some l => Some (if b then a :: l else l)
      | _, _ => None
      end
  end.

(** The message, with the signatures that were not satisfied. *)
Definition push_signatures `{YamlLib} (errormsg : string) (l : list Signature) :
    result string VerifyError :=
  try_fold (λ msg s,
    let? text := map_err FailedToParseYamlDataError (yaml_to_string s) in
    Ok (msg +:+ text)) errormsg l.

Definition newline : string := String (Ascii.ascii_of_N 10) "".

Definition fail_with `{YamlLib} (errormsg : string) (l : list Signature) : result unit VerifyError :=
  let? errormsg := push_signatures errormsg l in Err (ImageVerificationError errormsg).

Definition verify_all_of `{YamlLib} (trusted_layers : list SignatureLayer)
    (signatures : list Signature) : option (result unit VerifyError) :=
  match par_filter (unsatisfied trusted_layers) signatures with
  | None => None
  | Some [] => Some (Ok tt)
  | Some unsatisfied_signatures => Some (fail_with
      ("Image verification failed: missing signatures" +:+ newline +:+
       "The following constraints were not satisfied:" +:+ newline) unsatisfied_signatures)
  end.

Definition verify_any_of `{YamlLib} (trusted_layers : list SignatureLayer) (a : AnyOf) :
    option (result unit VerifyError) :=
  match par_filter (unsatisfied trusted_layers) (any_of_signatures a) with
  | None => None
  | Some unsatisfied_signatures =>
      let num_satisfied_constraints :=
        length (any_of_signatures a) - length unsatisfied_signatures in
      if bool_decide (num_satisfied_constraints < N.to_nat (minimum_matches a))
      then Some (fail_with
        ("Image verification failed: minimum number of signatures not reached: needed " +:+
         pretty (minimum_matches a) +:+ ", got " +:+ pretty num_satisfied_constraints +:+
         newline +:+ "The following constraints were not satisfied:" +:+ newline)
        unsatisfied_signatures)
      else Some (Ok tt)
  end.

Definition verify_signatures_against_config `{YamlLib} (config : VerificationConfigV1)
    (trusted_layers : list SignatureLayer) : option (result unit VerifyError) :=
  if bool_decide (all_of config = None) && bool_decide (any_of config = None)
  then Some (Err (ImageVerificationError "Image verification failed: no signatures to verify"))
  else
  match (match all_of config with
         | None => Some (Ok tt)
         | Some signatures => verify_all_of trusted_layers signatures
         end) with
  | Some (Ok _) =>
      match any_of config with
      | None => Some (Ok tt)
      | Some a => verify_any_of trusted_layers a
      end
  | r => r
  end.

(** ** Properties *)

(** Some layer of the image is one the signature asks for. *)
Definition satisfied (trusted_layers : list SignatureLayer) (s : Signature) : Prop :=
  ∃ layer, layer ∈ trusted_layers ∧ trusts s layer.

(** What a configuration asks of the layers: all of one list, and the minimum
    number of the other. *)
Definition config_satisfied (config : VerificationConfigV1)
    (trusted_layers : list SignatureLayer) : Prop :=
  (all_of config ≠ None ∨ any_of config ≠ None) ∧
  (∀ l, all_of config = Some l → Forall (satisfied trusted_layers) l) ∧
  (∀ a, any_of config = Some a → ∃ l, l `sublist_of` any_of_signatures a ∧
     Forall (satisfied trusted_layers) l ∧ N.to_nat (minimum_matches a) ≤ length l).

(** A configuration that cannot be met by an unsigned image. *)
Definition demanding (config : VerificationConfigV1) : Prop :=
  (∃ s l, all_of config = Some (s :: l)) ∨
  (∃ a, any_of config = Some a ∧ (0 < minimum_matches a)%N).

Lemma par_filter_spec {A} (f : A → option bool) (P : A → Prop) l :
  (∀ a, ∃ b, f a = Some b ∧ (b = false ↔ P a)) →
  ∃ bad, par_filter f l = Some bad ∧ (bad = [] ↔ Forall P l) ∧
    ∀ n, (∃ good, good `sublist_of` l ∧ Forall P good ∧ n ≤ length good) ↔
         n ≤ length l - length bad.
Proof.
  intros Hf. assert (∃ bad good, par_filter f l = Some bad ∧ good `sublist_of` l ∧
    Forall P good ∧ length good + length bad = length l ∧ (bad = [] ↔ Forall P l) ∧
    ∀ good', good' `sublist_of` l → Forall P good' → length good' ≤ length good)
    as (bad & good & Hp & Hg & HP & Hlen & Hnil & Hmax).
  { induction l as [|a l (bad & good & Hp & Hg & HP & Hlen & Hnil & Hmax)]; simpl.
    - exists [], []. do 5 (split; [done|]). by intros good' ->%sublist_nil_r.
    - destruct (Hf a) as (b & -> & Hb). rewrite Hp. destruct b.
      + exists (a :: bad), good. assert (¬ P a) as Hna by (intros ?%Hb; done).
        split_and!; [done|by constructor|done|simpl; lia| |].
        { split; [done|]. by intros []%Forall_cons. }
        intros good' Hs HF. apply Hmax; [|done].
        apply sublist_cons_r in Hs as [?|(good'' & -> & _)]; [done|]. by apply Forall_cons in HF as [].
      + exists bad, (a :: good). assert (P a) by by apply Hb.
        split_and!; [done|by constructor|by constructor|simpl; lia| |].
        { rewrite Forall_cons. naive_solver. }
        intros good' Hs HF. apply sublist_cons_r in Hs as [Hs|(good'' & -> & Hs)].
        * specialize (Hmax _ Hs HF). simpl. lia.
        * apply Forall_cons in HF as [_ HF]. specialize (Hmax _ Hs HF). simpl. lia. }
  exists bad. split_and!; [done|done|]. intros n. split.
  - intros (good' & Hs & HF & Hn). specialize (Hmax _ Hs HF). lia.
  - intros Hn. exists good. split_and!; [done|done|lia].
Qed.

Lemma unsatisfied_spec `{!UrlLaws, !SigstoreLaws} layers s :
  ∃ b, unsatisfied layers s = Some b ∧ (b = false ↔ satisfied layers s).
Proof.
  rw /unsatisfied /satisfied. destruct (verifier_total s) as ([c|e] & Hc); rewrite Hc.
  - eexists. split; [done|].
    assert (verify_constraints layers [verify c] = Ok tt ↔
      ∃ layer, layer ∈ layers ∧ trusts s layer) as <-.
    { rewrite verify_constraints_Ok Forall_singleton. apply exist_proper. intros layer.
      by rewrite (constraint_exact s c layer Hc). }
    destruct (verify_constraints layers _) as [[]|]; split; done.
  - exists true. split; [done|]. split; [done|]. intros (layer & _ & Ht).
    apply accepts_trusts in Ht as (c & Hc' & _). congruence.
Qed.

Lemma fail_with_Err `{YamlLib} msg l : ∃ e, fail_with msg l = Err e.
Proof. rw /fail_with. destruct (push_signatures msg l); by eexists. Qed.

Lemma verify_all_of_spec `{!UrlLaws, !SigstoreLaws, YamlLib} layers l :
  ∃ r, verify_all_of layers l = Some r ∧ (r = Ok tt ↔ Forall (satisfied layers) l).
Proof.
  destruct (par_filter_spec (unsatisfied layers) (satisfied layers) l (unsatisfied_spec layers))
    as (bad & Hp & Hnil & _). rw /verify_all_of Hp.
  destruct bad as [|s bad]; eexists; (split; [done|]).
  - by rewrite -Hnil.
  - destruct (fail_with_Err ("Image verification failed: missing signatures" +:+ newline +:+
       "The following constraints were not satisfied:" +:+ newline) (s :: bad)) as [e ->].
    rewrite -Hnil. done.
Qed.

Lemma verify_any_of_spec `{!UrlLaws, !SigstoreLaws, YamlLib} layers a :
  ∃ r, verify_any_of layers a = Some r ∧ (r = Ok tt ↔
    ∃ l, l `sublist_of` any_of_signatures a ∧ Forall (satisfied layers) l ∧
         N.to_nat (minimum_matches a) ≤ length l).
Proof.
  destruct (par_filter_spec (unsatisfied layers) (satisfied layers) (any_of_signatures a)
    (unsatisfied_spec layers)) as (bad & Hp & _ & Hmin). rw /verify_any_of Hp.
  case_bool_decide as Hlt; eexists; (split; [done|]).
  - rewrite Hmin.
    match goal with |- context [fail_with ?m ?l] => destruct (fail_with_Err m l) as [e ->] end.
    split; [done|lia].
  - rewrite Hmin. split; [lia|done].
Qed.

Lemma verify_signatures_spec `{!UrlLaws, !SigstoreLaws, YamlLib} config layers :
  ∃ r, verify_signatures_against_config config layers = Some r ∧
       (r = Ok tt ↔ config_satisfied config layers).
Proof.
  rw /verify_signatures_against_config /config_satisfied.
  destruct (all_of config) as [l|] eqn:Hl, (any_of config) as [a|] eqn:Ha; simpl.
  - destruct (verify_all_of_spec layers l) as (r & -> & Hr).
    destruct (verify_any_of_spec layers a) as (r' & -> & Hr').
    destruct r as [[]|e]; eexists; (split; [done|]); naive_solver.
  - destruct (verify_all_of_spec layers l) as (r & -> & Hr).
    destruct r as [[]|e]; eexists; (split; [done|]); naive_solver.
  - destruct (verify_any_of_spec layers a) as (r' & -> & Hr').
    eexists; (split; [done|]); naive_solver.
  - eexists; (split; [done|]); naive_solver.
Qed.

(** What a configuration of a known version is checked for. *)
Definition well_formed (config : VerificationConfigV1) : Prop :=
  (all_of config ≠ None ∨ any_of config ≠ None) ∧ all_of config ≠ Some [] ∧
  ∀ a, any_of config = Some a →
    0 < N.to_nat (minimum_matches a) ≤ length (any_of_signatures a).

Lemma check_config_Ok config c : check_config config = Ok c ↔ c = config ∧ well_formed config.
Proof.
  rw /check_config /well_formed.
  destruct (any_of config) as [a|].
  - rewrite andb_false_r. assert ((∀ a', Some a = Some a' →
      0 < N.to_nat (minimum_matches a') ≤ length (any_of_signatures a')) ↔
      0 < N.to_nat (minimum_matches a) ≤ length (any_of_signatures a)) as ->.
    { split; [by auto|by intros ? ? [= <-]]. }
    case_bool_decide as Hnil.
    { rewrite Hnil /=. destruct (all_of config) as [[]|]; split; try done; simpl; intros; lia. }
    case_bool_decide as Hz.
    { destruct (all_of config) as [[]|]; split; try done; simpl; intros; lia. }
    case_bool_decide as Hlt.
    { destruct (all_of config) as [[]|]; split; try done; simpl; intros; lia. }
    destruct (all_of config) as [[|s l]|]; simpl; split; try done; [by intros (_ & _ & ? & _)| | | |].
    all: naive_solver lia.
  - destruct (all_of config) as [[|s l]|]; simpl; naive_solver.
Qed.

(** A signature the configuration lists. *)
Definition lists_signature (config : VerificationConfigV1) (s : Signature) : Prop :=
  (∃ l, all_of config = Some l ∧ s ∈ l) ∨
  (∃ a, any_of config = Some a ∧ s ∈ any_of_signatures a).

(** A well-formed configuration is only satisfied by an image that has a layer one
    of its signatures trusts. *)
Lemma satisfied_signed config layers :
  well_formed config → config_satisfied config layers →
  ∃ s layer, lists_signature config s ∧ layer ∈ layers ∧ trusts s layer.
Proof.
  intros (_ & Hne & Hmin) (Hsome & Hall & Hany).
  destruct (all_of config) as [[|s l]|] eqn:Hl; [done| |].
  - specialize (Hall _ eq_refl). apply Forall_cons in Hall as [(layer & Hin & Ht) _].
    exists s, layer. split; [|done]. left. exists (s :: l). by split; [|left].
  - destruct (any_of config) as [a|] eqn:Ha; [|naive_solver].
    destruct (Hany a eq_refl) as ([|s l] & Hsub & HF & Hlen).
    { specialize (Hmin _ eq_refl). simpl in *. lia. }
    apply Forall_cons in HF as [(layer & Hin & Ht) _]. exists s, layer.
    split; [|done]. right. exists a. split; [done|].
    eapply elem_of_sublist; [by left|done].
Qed.

(** C9. The signatures of an image are accepted exactly when every signature of
    [allOf] is that of some trusted layer, and so are at least [minimumMatches] of
    those of [anyOf]; the verification always answers. *)
Theorem signatures_verified_iff `{!UrlLaws, !SigstoreLaws, YL : YamlLib} config layers :
  ∃ r, verify_signatures_against_config config layers = Some r ∧
       (r = Ok tt ↔ config_satisfied config layers).
Proof. apply verify_signatures_spec. Qed.

(** A verification file that declares its version is accepted exactly when it
    lists signatures and asks for at least one and at most all of those of [anyOf];
    an image it accepts then has a layer trusted by one of its signatures. *)
Theorem versioned_config_sound `{!UrlLaws, !SigstoreLaws, YL : YamlLib} text config :
  yaml_from_str text = Ok (inl (V1 config)) →
  (is_ok (build_latest_verification_config text) ↔ well_formed config) ∧
  ∀ c layers, build_latest_verification_config text = Ok c →
    verify_signatures_against_config c layers = Some (Ok tt) →
    ∃ s layer, lists_signature config s ∧ layer ∈ layers ∧ trusts s layer.
Proof.
  intros Ht. assert (∀ c, build_latest_verification_config text = Ok c ↔
    c = config ∧ well_formed config) as Hb.
  { intros c. rewrite /build_latest_verification_config Ht /=. apply check_config_Ok. }
  split.
  - destruct (build_latest_verification_config text) as [c|e]; simpl.
    + split; [|done]. intros _. by apply (Hb c).
    + split; [done|]. intros Hwf. discriminate (proj2 (Hb config) (conj eq_refl Hwf)).
  - intros c layers [-> Hwf]%Hb Hv. apply satisfied_signed; [done|].
    destruct (verify_signatures_spec config layers) as (r & Hr & <-). congruence.
Qed.

(** A verification file that does not declare its version is converted
    directly, to report a better error, and escapes the checks: one with an empty
    [allOf] is accepted, and then accepts every image, without any signature. *)
Theorem unversioned_config_unchecked `{YL : YamlLib} text value c :
  yaml_from_str text = Ok (inr value) →
  yaml_from_value (if yaml_is_mapping value then yaml_remove value "apiVersion" else value) = Ok c →
  build_latest_verification_config text = Ok c ∧
  (all_of c = Some [] → any_of c = None →
   ∀ layers, verify_signatures_against_config c layers = Some (Ok tt)).
Proof.
  intros Ht Hc. split; [by rewrite /build_latest_verification_config Ht /= Hc|].
  intros Hall Hany layers. by rewrite /verify_signatures_against_config Hall Hany.
Qed.
End config.

(** ** The verifier *)

Inductive SigstoreAuth :=
| SigstoreAnonymous
| SigstoreBasic (user_name password : string)
| SigstoreBearer (token : string).

Class CosignClient `{Sigstore, OciLib, !HostIO} := {
  OciReference : Type;
  oci_reference_from_str : string → result OciReference SigstoreError;
  (** The address of the signature object and the digest of the image. *)
  triangulate : OciReference → SigstoreAuth → Host → result (string * string) SigstoreError * Host;
  trusted_signature_layers :
    SigstoreAuth → OciReference → Host → result (list SignatureLayer) SigstoreError * Host;
}.

Class Sha256 := sha256_hex : bytes → string.

Section verifier.
Context `{UL : UrlLib, SG : Sigstore, SE : SourceEnv, OL : OciLib, HI : !HostIO}.
Context `{CC : !CosignClient, YL : !YamlLib, SH : Sha256}.

Record Verifier := { ver_sources : option Sources }.

Definition fetch_sigstore_remote_data (image_url : string) :
    M St (result (string * list SignatureLayer) VerifyError) :=
  let!? reference := m_ret (map_err VerifyRegistryError
      (build_fully_resolved_reference image_url)) in
  let sigstore_auth := match auth (reference_registry reference) with
    | Anonymous => SigstoreAnonymous
    | Basic username password => SigstoreBasic username password
    | Bearer token => SigstoreBearer token
    end in
  let image_name := reference_whole reference in
  let!? image_oci_ref := m_ret (map_err FailedToFetchTrustedLayersError
      (oci_reference_from_str image_name)) in
  let! r := on_host (triangulate image_oci_ref sigstore_auth) in
  let!? (_, source_image_digest) := m_ret (map_err FailedToFetchTrustedLayersError r) in
  let! r := on_host (trusted_signature_layers sigstore_auth image_oci_ref) in
  m_ret (match r with
         | Ok layers => Ok (source_image_digest, layers)
         | Err (RegistryPullManifestError _ _) => Err (ImageVerificationError
             ("no signatures found for image: " +:+ image_name +:+ " "))
         | Err e => Err (FailedToFetchTrustedLayersError e)
         end).

(** [Verifier::verify] *)
Definition Verifier_verify (image_url : string) (config : VerificationConfigV1) :
    M St (result string VerifyError) :=
  let!? (source_image_digest, trusted_layers) := fetch_sigstore_remote_data image_url in
  let! r := λ st, (λ r, (r, st)) <$> verify_signatures_against_config config trusted_layers in
  m_ret (let? _ := r in Ok source_image_digest).

(** [Policy::digest] *)
Definition policy_digest (policy : Policy) (h : Host) : result string string :=
  res_map sha256_hex (read_file (local_path policy) h).

Definition wasm_digests (layers : list OciDescriptor) : list string :=
  omap (λ layer, if decide (od_media_type layer = WASM_LAYER_MEDIA_TYPE)
                 then Some (od_digest layer) else None) layers.

(** The comparison of [verify_local_file_checksum], with the manifest at hand. *)
Definition compare_checksum (policy : Policy) (layers : list OciDescriptor) :
    M St (result unit VerifyError) :=
  match wasm_digests layers with
  | [digest] =>
      match strip_prefix digest "sha256:" with
      | None => m_ret (Err (ChecksumVerificationError
          "The checksum inside of the remote manifest is not using the sha256 hashing algorithm as expected."))
      | Some expected_digest =>
          let! r := host_query (policy_digest policy) in
          m_ret (match r with
            | Err e => Err (DigestErrors e)
            | Ok file_digest =>
                if decide (file_digest ≠ expected_digest)
                then Err (ChecksumVerificationError
                  ("The digest of the local file doesn't match with the one reported inside of the signed manifest. Got "
                   +:+ file_digest +:+ " instead of " +:+ expected_digest))
                else Ok tt
            end)
      end
  | _ => m_ret (Err (ChecksumVerificationError
      "Cannot verify local file integrity, the remote manifest doesn't have only one WASM layer"))
  end.

Definition image_name (policy : Policy) : string :=
  unwrap_or (uri policy) (strip_prefix (uri policy) "registry://").

(** [Verifier::verify_local_file_checksum]; [None] is [unreachable!()]. *)
Definition verify_local_file_checksum (self : Verifier) (policy : Policy)
    (verified_manifest_digest : string) : M St (result unit VerifyError) :=
  let!? reference := m_ret (map_err InvalidOCIImageReferenceError
      (reference_try_from (image_name policy))) in
  let! exists_ := host_query (path_exists (local_path policy)) in
  if negb exists_ then m_ret (Err (MissingWasmFileError (local_path policy))) else
  let image_immutable_ref := "registry://" +:+ reference_registry reference +:+ "/" +:+
    reference_repository reference +:+ "@" +:+ verified_manifest_digest in
  let! r := manifest image_immutable_ref (ver_sources self) in
  let!? m := m_ret (map_err VerifyRegistryError r) in
  match m with
  | ManifestImage layers => compare_checksum policy layers
  | ManifestImageIndex => λ _, None
  end.

(** ** Properties of the verifier *)

(** What [verify] has established when it returns a digest. *)
Lemma Verifier_verify_Ok `{!UrlLaws, !SigstoreLaws} image_url config st digest st' :
  Verifier_verify image_url config st = Some (Ok digest, st') →
  ∃ layers, fetch_sigstore_remote_data image_url st = Some (Ok (digest, layers), st') ∧
    config_satisfied config layers.
Proof.
  rw /Verifier_verify mr_bind_Ok. intros ([d layers] & st1 & Hf & Hv).
  apply m_bind_Some in Hv as (r & st2 & Hr & Hv).
  destruct (verify_signatures_spec config layers) as (r' & Hr' & Hiff).
  rewrite Hr' in Hr. apply m_ret_Some in Hv. simplify_eqs. destruct r as [[]|e]; simplify_eqs.
  exists layers. split; [done|]. by apply Hiff.
Qed.

(** The file of the policy is the only WebAssembly layer of the manifest. *)
Definition matches_manifest (policy : Policy) (layers : list OciDescriptor) (h : Host) : Prop :=
  ∃ b, read_file (local_path policy) h = Ok b ∧
       wasm_digests layers = ["sha256:" +:+ sha256_hex b].

Lemma compare_checksum_spec policy layers st :
  ∃ r, compare_checksum policy layers st = Some (r, st) ∧
       (r = Ok tt ↔ matches_manifest policy layers (host st)).
Proof.
  rw /compare_checksum /matches_manifest.
  destruct (wasm_digests layers) as [|d [|d' ds]]; [by eexists; split; [done|naive_solver]| |
    by eexists; split; [done|naive_solver]].
  destruct (strip_prefix d "sha256:") as [expected|] eqn:Hp.
  - apply strip_prefix_Some in Hp as ->. eexists. split; [done|].
    rw /policy_digest. destruct (read_file _ _) as [b|e]; simpl; [|naive_solver].
    case_decide as Hd; split; [done| | |done].
    + intros (b' & [= <-] & [= Hd']). by apply (inj _) in Hd'.
    + intros _. exists b. by rewrite Hd.
  - eexists. split; [done|]. split; [done|]. intros (b & _ & [= ->]).
    assert (strip_prefix ("sha256:" +:+ sha256_hex b) "sha256:" = Some (sha256_hex b)) as Hs
      by by apply strip_prefix_Some. congruence.
Qed.

Lemma verify_local_file_checksum_Ok self policy digest st st' :
  verify_local_file_checksum self policy digest st = Some (Ok tt, st') →
  ∃ reference layers,
    reference_try_from (image_name policy) = Ok reference ∧
    manifest ("registry://" +:+ reference_registry reference +:+ "/" +:+
      reference_repository reference +:+ "@" +:+ digest) (ver_sources self) st =
      Some (Ok (ManifestImage layers), st') ∧
    matches_manifest policy layers (host st').
Proof.
  rw /verify_local_file_checksum mr_bind_Ok. intros (reference & ? & [= Hr <-] & Hv).
  apply m_bind_Some in Hv as (? & ? & [= <- <-] & Hv). case_match; [done|].
  apply m_bind_Some in Hv as (r & st1 & Hm & Hv).
  apply mr_bind_Ok in Hv as (m & st2 & [= Hm' <-] & Hv).
  destruct m as [layers|]; [|done].
  destruct (compare_checksum_spec policy layers st1) as (r' & Hc & Hiff). simplify_eqs.
  apply map_err_Ok in Hr, Hm'. simplify_eqs.
  exists reference, layers. split_and!; [done|done|by apply Hiff].
Qed.
End verifier.

(** ** A concrete codec *)

(** A document: its version and its contents. *)
#[export, refine] Instance simple_yaml : @YamlLib simple_url := {|
  YamlValue := option string * @VerificationConfigV1 simple_url;
  yaml_from_str text :=
    if decide (text = "allOf: []")
    then Ok (inr (None, {| all_of := Some []; any_of := None |}))
    else if decide (text = "apiVersion: v1, anyOf: {signatures: [key]}")
    then Ok (inl (V1 {| all_of := None; any_of := Some {| minimum_matches := 1;
      any_of_signatures := [PubKey None "key" None] |} |}))
    else if decide (text = "apiVersion: v2") then Ok (inl Unsupported)
    else Err "invalid document";
  yaml_is_mapping _ := true;
  yaml_remove v _ := (None, v.2);
  yaml_from_value v := Ok v.2;
  yaml_to_string s := Ok "signature";
|}.
Proof. Defined.

Definition key_layer : SimpleLayer :=
  {| sl_certificate := None; sl_keys := ["key"]; sl_annotations := ∅ |}.

Definition key_config : @VerificationConfigV1 simple_url :=
  {| all_of := None; any_of := Some {| minimum_matches := 1;
     any_of_signatures := [PubKey None "key" None] |} |}.

Lemma signatures_verified_iff_witness : config_satisfied (SG := simple_sigstore) key_config [key_layer].
Proof.
  destruct (signatures_verified_iff (UL := simple_url) (SG := simple_sigstore) (YL := simple_yaml) key_config [key_layer]) as (r & Hr & Hiff).
  apply Hiff. apply (inj Some). rewrite -Hr. reflexivity.
Defined.

Lemma versioned_config_sound_witness :
  ∃ s layer, lists_signature key_config s ∧ layer ∈ [key_layer] ∧
    trusts (SG := simple_sigstore) s layer.
Proof.
  apply (versioned_config_sound (UL := simple_url) (SG := simple_sigstore) (YL := simple_yaml)
    "apiVersion: v1, anyOf: {signatures: [key]}" key_config eq_refl) with (c := key_config);
    reflexivity.
Defined.

Lemma unversioned_config_unchecked_witness :
  build_latest_verification_config "allOf: []" = Ok {| all_of := Some []; any_of := None |} ∧
  verify_signatures_against_config (SG := simple_sigstore)
    {| all_of := Some []; any_of := None |} [] = Some (Ok tt).
Proof.
  destruct (unversioned_config_unchecked (UL := simple_url) (SG := simple_sigstore) (YL := simple_yaml) "allOf: []"
    (None, {| all_of := Some []; any_of := None |}) {| all_of := Some []; any_of := None |}
    eq_refl eq_refl) as [Hb Hv].
  split; [exact Hb|]. exact (Hv eq_refl eq_refl []).
Defined.
