(* ===== verification/Downloader.v ===== *)
(** * Downloading the configured policies

    Models [crates/policy-server/src/policy_downloader.rs] ([Downloader]), and what
    [PolicyServer::new_from_config] of [lib.rs] makes of the verification
    configuration. *)

From S2P Require Import Prelude Bytes Json PolicyId AdmissionResponse Request.
From S2P Require Import HostCapabilities Callback Runtime GroupEvaluator Config.
From S2P Require Import RustStr VerificationConstraints Sources Registry Fetcher Verify.

(** [FetchedPolicies]: the paths of the modules by their URL, or the text of the error. *)
Definition FetchedPolicies := gmap string (result string string).

Section flatten.
Context `{HashIter}.

Definition member_name (name sub_policy_name : string) : string :=
  name +:+ "/#" +:+ sub_policy_name.

Definition flatten_entry (flattened_policies : gmap string string)
    (entry : string * PolicyOrPolicyGroup) : gmap string string :=
  let '(name, policy) := entry in
  match policy with
  | SinglePolicy url _ _ _ _ _ _ _ => <[name := url]> flattened_policies
  | PolicyGroup _ policies _ _ =>
      foldl (λ flattened_policies '(sub_policy_name, sub_policy),
               <[member_name name sub_policy_name := gm_module sub_policy]> flattened_policies)
        flattened_policies (hash_iter policies)
  end.

Definition policies_to_download (policies : gmap string PolicyOrPolicyGroup) : gmap string string :=
  foldl flatten_entry ∅ (hash_iter policies).

(** ** What is downloaded *)

(** A module the configuration refers to. *)
Definition references (policies : gmap string PolicyOrPolicyGroup) (url : string) : Prop :=
  ∃ name policy, policies !! name = Some policy ∧
    match policy with
    | SinglePolicy module _ _ _ _ _ _ _ => module = url
    | PolicyGroup _ members _ _ => ∃ id m, members !! id = Some m ∧ gm_module m = url
    end.

(** The bindings the loop inserts, in order. *)
Definition entry_bindings (entry : string * PolicyOrPolicyGroup) : list (string * string) :=
  match entry.2 with
  | SinglePolicy url _ _ _ _ _ _ _ => [(entry.1, url)]
  | PolicyGroup _ policies _ _ =>
      (λ '(id, m), (member_name entry.1 id, gm_module m)) <$> hash_iter policies
  end.

Definition insert_bindings (m : gmap string string) (l : list (string * string)) :=
  foldl (λ m '(k, v), <[k := v]> m) m l.

Lemma insert_bindings_app m l1 l2 :
  insert_bindings m (l1 ++ l2) = insert_bindings (insert_bindings m l1) l2.
Proof. apply foldl_app. Qed.

Lemma flatten_entry_bindings m entry :
  flatten_entry m entry = insert_bindings m (entry_bindings entry).
Proof.
  destruct entry as [name [|mode policies e msg]]; [done|]. rw /= /entry_bindings /=.
  generalize (hash_iter policies). intros l. revert m. induction l as [|[id p] l IH]; intros m; [done|].
  by rewrite /= IH.
Qed.

Lemma policies_to_download_bindings policies :
  policies_to_download policies = insert_bindings ∅ (hash_iter policies ≫= entry_bindings).
Proof.
  rw /policies_to_download. generalize (∅ : gmap string string).
  induction (hash_iter policies) as [|entry l IH]; intros m; [done|].
  by rewrite /= IH flatten_entry_bindings insert_bindings_app.
Qed.

Lemma insert_bindings_lookup m l k v :
  NoDup l.*1 → (k, v) ∈ l → insert_bindings m l !! k = Some v.
Proof.
  revert m. induction l as [|[k' v'] l IH]; intros m; simpl; [by intros _ ?%not_elem_of_nil|].
  rewrite NoDup_cons. intros [Hk' Hnd] [[= -> ->]|Hin]%elem_of_cons; [|by apply IH].
  assert (∀ m', k' ∉ l.*1 → insert_bindings m' l !! k' = m' !! k') as Hframe.
  { clear. induction l as [|[k v] l IH]; intros m' Hk'; [done|]. simpl in *.
    apply not_elem_of_cons in Hk' as [Hne Hk']. rewrite IH; [|done]. by rewrite lookup_insert_ne. }
  by rewrite Hframe // lookup_insert_eq.
Qed.

Lemma slash_inj a b x y :
  no_slash a → no_slash b → a +:+ "/" +:+ x = b +:+ "/" +:+ y → a = b ∧ x = y.
Proof.
  rw /no_slash /slash. intros Ha Hb Heq.
  assert (a = b) as ->.
  { apply (f_equal (λ s, split s "/"%char)) in Heq.
    by rewrite !split_app // in Heq; injection Heq. }
  split; [done|]. by do 2 apply (inj _) in Heq.
Qed.

Lemma member_name_inj g g' id id' :
  no_slash g → no_slash g' → member_name g id = member_name g' id' → g = g' ∧ id = id'.
Proof.
  intros Hg Hg' Heq.
  destruct (slash_inj g g' ("#" +:+ id) ("#" +:+ id') Hg Hg' Heq) as [-> Hid].
  split; [done|]. by apply (inj _) in Hid.
Qed.

(** The name a binding's key was made from. *)
Lemma entry_bindings_key entry k :
  k ∈ (entry_bindings entry).*1 →
  (∃ id, k = member_name entry.1 id) ∨ (k = entry.1 ∧ ∃ url, entry_bindings entry = [(k, url)]).
Proof.
  destruct entry as [name [url|mode members e msg]]; simpl.
  - intros ->%list_elem_of_singleton. right. split; [done|]. by eexists.
  - rewrite /entry_bindings /= -list_fmap_compose.
    intros ([id m] & -> & _)%list_elem_of_fmap. left. by exists id.
Qed.

Lemma member_name_slash g id name : no_slash name → member_name g id ≠ name.
Proof. rw /no_slash /slash => Hn Heq. by rewrite -Heq /member_name !contains_char_app /= orb_true_r in Hn. Qed.

Lemma names_ok_no_slash policies name policy :
  names_ok policies → policies !! name = Some policy → no_slash name.
Proof. intros Hok Hp. by destruct (Hok _ _ Hp). Qed.

Lemma bindings_keys_NoDup policies :
  names_ok policies → NoDup (hash_iter policies ≫= entry_bindings).*1.
Proof.
  intros Hok.
  assert (∀ l : list (string * PolicyOrPolicyGroup),
    (l ≫= entry_bindings).*1 = l ≫= (λ e, (entry_bindings e).*1)) as ->.
  { intros l. induction l as [|e l IH]; [done|]. by rewrite /= fmap_app IH. }
  apply NoDup_bind.
  - intros [n1 p1] [n2 p2] k H1 H2 Hk1 Hk2. apply elem_of_hash_iter in H1, H2.
    assert (no_slash n1 ∧ no_slash n2) as [Hn1 Hn2] by eauto using names_ok_no_slash.
    assert (n1 = n2) as ->; [|congruence].
    apply entry_bindings_key in Hk1 as [(id1 & ->)|(-> & _)], Hk2 as [(id2 & Hk)|(Hk & _)];
      simpl in Hk.
    + by destruct (member_name_inj _ _ _ _ Hn1 Hn2 Hk) as [].
    + by destruct (member_name_slash n1 id1 n2 Hn2).
    + by destruct (member_name_slash n2 id2 n1 Hn1).
    + done.
  - intros [name [url|mode members e msg]] Hin; [apply NoDup_singleton|].
    apply elem_of_hash_iter in Hin. assert (no_slash name) by eauto using names_ok_no_slash.
    rewrite /entry_bindings /= -list_fmap_compose.
    assert (NoDup (member_name name <$> hash_keys members)) as Hnd.
    { apply NoDup_fmap_2_strong; [|apply NoDup_hash_keys].
      by intros id1 id2 _ _ [_ ->]%member_name_inj. }
    rewrite /hash_keys -list_fmap_compose in Hnd. erewrite list_fmap_ext; [exact Hnd|].
    by intros ? [].
  - apply (NoDup_fmap_1 fst), NoDup_hash_keys.
Qed.

(** Every module of a configuration with valid names is downloaded, and no other one. *)
Lemma policies_to_download_spec policies url :
  names_ok policies →
  url ∈ (hash_iter (policies_to_download policies)).*2 ↔ references policies url.
Proof.
  intros Hok. set (l := hash_iter policies ≫= entry_bindings).
  assert (∀ k, (k, url) ∈ l ↔ policies_to_download policies !! k = Some url) as Hl.
  { rewrite policies_to_download_bindings. fold l. intros k.
    pose proof (bindings_keys_NoDup policies Hok) as Hnd. fold l in Hnd. split.
    - by apply insert_bindings_lookup.
    - assert (∀ m, insert_bindings m l !! k = Some url → (k, url) ∈ l ∨ m !! k = Some url) as Hi.
      { clear. induction l as [|[k' v'] l IH]; intros m; [by right|]. simpl. intros Hk.
        destruct (IH _ Hk) as [?|Hm]; [left; by right|].
        destruct (decide (k' = k)) as [->|].
        - rewrite lookup_insert_eq in Hm. simplify_eqs. left. by left.
        - rewrite lookup_insert_ne // in Hm. by right. }
      intros [?|Hm]%Hi; [done|]. by rewrite lookup_empty in Hm. }
  rewrite list_elem_of_fmap. split.
  - intros ([k url'] & -> & Hin). apply elem_of_hash_iter, Hl in Hin.
    apply list_elem_of_bind in Hin as ([name policy] & Hin & Hp).
    apply elem_of_hash_iter in Hp. exists name, policy. split; [done|].
    destruct policy as [u|mode members e msg]; simpl in *.
    + by apply list_elem_of_singleton in Hin as [= _ <-].
    + rewrite /entry_bindings /= in Hin. apply list_elem_of_fmap in Hin as ([id m] & [= _ Hm] & Hm').
      apply elem_of_hash_iter in Hm'. by exists id, m.
  - intros (name & policy & Hp & Hurl).
    assert (∃ k, (k, url) ∈ l) as [k Hk].
    { destruct policy as [u|mode members e msg].
      - exists name. apply list_elem_of_bind. eexists. split; [|by apply elem_of_hash_iter].
        subst. by left.
      - destruct Hurl as (id & m & Hm & <-). exists (member_name name id).
        apply list_elem_of_bind. eexists. split; [|by apply elem_of_hash_iter].
        rewrite /entry_bindings /=. apply list_elem_of_fmap. exists (id, m).
        split; [done|]. by apply elem_of_hash_iter. }
    exists (k, url). split; [done|]. by apply elem_of_hash_iter, Hl.
Qed.
End flatten.

Section downloader.
Context `{HashIter, UL : UrlLib, SG : Sigstore, SE : SourceEnv, OL : OciLib, HI : !HostIO}.
Context `{CC : !CosignClient, YL : !YamlLib, SH : Sha256}.
Context (default_store_root : string).

Record Downloader := {
  dl_verifier : option Verifier;
  dl_sources : option Sources;
}.

Definition cannot_be_verified (name : string) (e : VerifyError) : string :=
  "Policy '" +:+ name +:+ "' cannot be verified: " +:+ VerifyError_to_string e.

Definition download_failed (name policy_url : string) (e : FetcherError) : string :=
  "Error while downloading policy '" +:+ name +:+ "' from " +:+ policy_url +:+ ": " +:+
  FetcherError_to_string e.

Definition verification_failed (name : string) (e : VerifyError) : string :=
  "Verification of policy " +:+ name +:+ " failed: " +:+ VerifyError_to_string e.

(** What is recorded for a module that was not processed before; [None] is the
    [unwrap] of the digest. *)
Definition fetch_and_verify (self : Downloader) (destination : string)
    (verification_config : VerificationConfigV1) (name policy_url : string) :
    M St (result string string) :=
  let!? verified_manifest_digest := match dl_verifier self with
    | None => m_ret (Ok None)
    | Some _ =>
        let! r := Verifier_verify policy_url verification_config in
        m_ret (match r with Ok d => Ok (Some d) | Err e => Err (cannot_be_verified name e) end)
    end in
  let! r := fetch_policy default_store_root policy_url (StoreAt destination) (dl_sources self) in
  let!? fetched_policy := m_ret (map_err (download_failed name policy_url) r) in
  match dl_verifier self with
  | None => m_ret (Ok (local_path fetched_policy))
  | Some ver =>
      match verified_manifest_digest with
      | None => λ _, None
      | Some digest =>
          let! r := verify_local_file_checksum ver fetched_policy digest in
          m_ret (match r with
                 | Err e => Err (verification_failed name e)
                 | Ok _ => Ok (local_path fetched_policy)
                 end)
      end
  end.

(** One iteration of the loop. *)
Definition download_step (self : Downloader) (destination : string)
    (verification_config : VerificationConfigV1) (s : gset string * FetchedPolicies)
    (entry : string * string) : M St (gset string * FetchedPolicies) :=
  let '(processed_policies, fetched_policies) := s in
  let '(name, policy_url) := entry in
  if decide (policy_url ∈ processed_policies) then m_ret s else
  let! r := fetch_and_verify self destination verification_config name policy_url in
  m_ret ({[policy_url]} ∪ processed_policies, <[policy_url := r]> fetched_policies).

Definition download_policies (self : Downloader) (policies : gmap string PolicyOrPolicyGroup)
    (destination : string) (verification_config : option VerificationConfigV1) :
    M St FetchedPolicies :=
  let verification_config :=
    unwrap_or {| all_of := None; any_of := None |} verification_config in
  let! (_, fetched_policies) :=
    m_fold (download_step self destination verification_config) (∅, ∅)
      (hash_iter (policies_to_download policies)) in
  m_ret fetched_policies.

(** [Downloader::new] as [new_from_config] calls it: a verifier needs a verification
    configuration, and a trust root that could be created. *)
Definition configured_downloader {TrustRoot} (sources : option Sources)
    (verification_config : option VerificationConfigV1)
    (sigstore_trust_root : option TrustRoot)
    (verifier_new : option Sources → TrustRoot → result Verifier string) :
    result Downloader string :=
  let downloader_sigstore_trust_root := match verification_config with
    | Some _ => sigstore_trust_root
    | None => None
    end in
  let? verifier := match downloader_sigstore_trust_root with
    | Some manual_root => res_map Some (verifier_new sources manual_root)
    | None => Ok None
    end in
  Ok {| dl_verifier := verifier; dl_sources := sources |}.

(** ** Properties *)

(** The moment of a run of the loop over [l] at which a module is handled: the entries before it
    have led from [st] to [st1], and what is recorded for it is the outcome of [fetch_and_verify] in
    [st1]. *)
Definition handled self destination config s (l : list (string * string)) st url r st1 st2 : Prop :=
  ∃ l1 name l2 s1, l = l1 ++ (name, url) :: l2 ∧
    m_fold (download_step self destination config) s l1 st = Some (s1, st1) ∧
    fetch_and_verify self destination config name url st1 = Some (r, st2).

(** What the loop has established: the processed modules are the recorded ones, and each was
    recorded when its entry was handled. *)
Lemma download_step_fold self destination config l s st s' st' :
  m_fold (download_step self destination config) s l st = Some (s', st') →
  s.1 = dom s.2 →
  s'.1 = dom s'.2 ∧ dom s'.2 = dom s.2 ∪ list_to_set l.*2 ∧
  ∀ url r, s'.2 !! url = Some r → s.2 !! url = Some r ∨
    ∃ st1 st2, handled self destination config s l st url r st1 st2.
Proof.
  revert s st. induction l as [|[name url] l IH]; intros [P F] st; simpl.
  { intros [= <- <-] HP. split_and!; [done|by rewrite /= right_id_L|by left]. }
  intros ([P1 F1] & st1 & Hstep & Hl)%m_bind_Some HP. simpl in HP.
  assert (P1 = dom F1 ∧ dom F1 = dom F ∪ {[url]} ∧
    ∀ u r, F1 !! u = Some r → F !! u = Some r ∨
      u = url ∧ ∃ st2, fetch_and_verify self destination config name u st = Some (r, st2))
    as (HP1 & Hd1 & HF1).
  { rewrite /download_step in Hstep. case_decide as Hin.
    - injection Hstep as <- <- <-. split_and!; [done| |by left].
      rewrite HP in Hin. clear -Hin. set_solver.
    - apply m_bind_Some in Hstep as (r & st2 & Hr & Hstep). injection Hstep as <- <- <-.
      rewrite dom_insert_L HP. split_and!; [done|by rewrite comm_L|]. intros u r' [[<- <-]|[_ ?]]%lookup_insert_Some; [|by left].
      right. split; [done|]. by eexists. }
  destruct (IH _ _ Hl HP1) as (HP' & Hd' & HF'). simpl in *.
  split_and!; [done|by rewrite Hd' Hd1 assoc_L|]. intros u r Hu. destruct (HF' u r Hu) as [H1|(sa & sb & Hh)].
  - destruct (HF1 u r H1) as [?|(-> & st2 & Hf)]; [by left|]. right. exists st, st2. by exists [], name, l, (P, F).
  - right. exists sa, sb. destruct Hh as (l1 & n & l2 & s1 & -> & Hm & Hf).
    exists ((name, url) :: l1), n, l2, s1. split_and!; [done| |done]. simpl. rewrite /m_bind Hstep. done.
Qed.

Lemma download_policies_inv self policies destination config st fetched st' :
  download_policies self policies destination config st = Some (fetched, st') →
  dom fetched = list_to_set (hash_iter (policies_to_download policies)).*2 ∧
  ∀ url r, fetched !! url = Some r → ∃ st1 st2,
    handled self destination (unwrap_or {| all_of := None; any_of := None |} config) (∅, ∅)
      (hash_iter (policies_to_download policies)) st url r st1 st2.
Proof.
  rw /download_policies m_bind_Some. intros ([P F] & st1 & Hf & [= <- <-]).
  destruct (download_step_fold _ _ _ _ _ _ _ _ Hf) as (_ & Hd & HF); [done|]. simpl in *.
  split; [by rewrite Hd dom_empty_L left_id_L|].
  intros url r Hu. by destruct (HF url r Hu).
Qed.

(** Every module the configuration refers to, by a policy or by a member of a
    group, gets an entry among the fetched policies, a path or an error, and
    nothing else does: no policy is looked up in vain when the environment is built. *)
Theorem download_policies_covers self policies destination config st fetched st' :
  names_ok policies →
  download_policies self policies destination config st = Some (fetched, st') →
  ∀ url, is_Some (fetched !! url) ↔ references policies url.
Proof.
  intros Hok Hd url. destruct (download_policies_inv _ _ _ _ _ _ _ Hd) as [Hdom _].
  rewrite -elem_of_dom Hdom elem_of_list_to_set. by apply policies_to_download_spec.
Qed.

Lemma fetch_and_verify_Ok `{!UrlLaws, !SigstoreLaws} self ver destination config name url st path st' :
  dl_verifier self = Some ver →
  fetch_and_verify self destination config name url st = Some (Ok path, st') →
  ∃ digest layers st1 policy st2,
    fetch_sigstore_remote_data url st = Some (Ok (digest, layers), st1) ∧
    config_satisfied config layers ∧
    fetch_policy default_store_root url (StoreAt destination) (dl_sources self) st1 =
      Some (Ok policy, st2) ∧ local_path policy = path ∧
    verify_local_file_checksum ver policy digest st2 = Some (Ok tt, st').
Proof.
  rw /fetch_and_verify => ->. intros (d & st1 & Hd & Hf)%mr_bind_Ok.
  apply m_bind_Some in Hd as (r & ? & Hv & [= Hr ->]).
  destruct r as [digest|e]; [|done]. injection Hr as <-.
  apply Verifier_verify_Ok in Hv as (layers & Hl & Hc).
  apply m_bind_Some in Hf as (r & st2 & Hp & Hf).
  apply mr_bind_Ok in Hf as (policy & ? & [= Hpol <-] & Hf).
  apply map_err_Ok in Hpol as ->. apply m_bind_Some in Hf as (r & st3 & Hs & [= Hr ->]).
  destruct r as [[]|e]; [|done]. injection Hr as <-.
  by exists digest, layers, st1, policy, st2.
Qed.

(** How a module got its path from a run of [download_policies] that started in [st]: when its
    entry was handled, in the state [st1] that the entries before it led to, the signatures of its image
    satisfied the configuration; then the policy was fetched, to that path; and the file had the
    SHA-256 checksum of the only WebAssembly layer of the manifest with the digest that was verified. *)
Definition verified_fetch self ver policies destination config st url path : Prop :=
  ∃ st1 st4 digest trusted st2 policy st3 reference layers,
    handled self destination config (∅, ∅) (hash_iter (policies_to_download policies)) st url (Ok path) st1 st4 ∧
    fetch_sigstore_remote_data url st1 = Some (Ok (digest, trusted), st2) ∧
    config_satisfied config trusted ∧
    fetch_policy default_store_root url (StoreAt destination) (dl_sources self) st2 =
      Some (Ok policy, st3) ∧ local_path policy = path ∧
    reference_try_from (image_name policy) = Ok reference ∧
    manifest ("registry://" +:+ reference_registry reference +:+ "/" +:+
      reference_repository reference +:+ "@" +:+ digest) (ver_sources ver) st3 =
      Some (Ok (ManifestImage layers), st4) ∧
    matches_manifest policy layers (host st4).

Lemma download_policies_verified `{!UrlLaws, !SigstoreLaws} self ver policies destination
    config st fetched st' url path :
  dl_verifier self = Some ver →
  download_policies self policies destination (Some config) st = Some (fetched, st') →
  fetched !! url = Some (Ok path) →
  verified_fetch self ver policies destination config st url path.
Proof.
  intros Hv Hd Hurl. destruct (download_policies_inv _ _ _ _ _ _ _ Hd) as [_ Hinv].
  destruct (Hinv _ _ Hurl) as (st1 & st4 & Hh). pose proof Hh as (l1 & name & l2 & s1 & _ & _ & Hf).
  destruct (fetch_and_verify_Ok _ _ _ _ _ _ _ _ _ Hv Hf)
    as (digest & trusted & st2 & policy & st3 & Hs & Hc & Hp & Hpath & Hcheck).
  apply verify_local_file_checksum_Ok in Hcheck as (reference & layers & Hr & Hm & Hmatch).
  by exists st1, st4, digest, trusted, st2, policy, st3, reference, layers.
Qed.

Lemma m_fold_ext {W A S} (f g : S → A → M W S) s l w :
  (∀ s a w, f s a w = g s a w) → m_fold f s l w = m_fold g s l w.
Proof.
  intros Hfg. revert s w. induction l as [|a l IH]; intros s w; [done|].
  rw /= /m_bind Hfg. by destruct (g s a w) as [[]|].
Qed.

Lemma unverified_download_step self destination config config' s entry st :
  dl_verifier self = None →
  download_step self destination config s entry st =
  download_step self destination config' s entry st.
Proof.
  intros Hv. destruct s, entry as [name url]. rw /download_step /fetch_and_verify.
  case_decide; [done|]. by rewrite Hv.
Qed.

Lemma unverified_download self policies destination config st :
  dl_verifier self = None →
  download_policies self policies destination (Some config) st = download_policies self policies destination None st.
Proof.
  intros Hv. rw /download_policies /m_bind. erewrite m_fold_ext; [done|]. intros s a w. by apply unverified_download_step.
Qed.

(** C6. The downloader of a server that was given a verification configuration. If there is a
    Sigstore trust root it has a verifier, and a module is only recorded as fetched when the
    signatures of its image satisfied the configuration, and the file that was fetched afterwards had the
    SHA-256 checksum of the only WebAssembly layer of the manifest with the digest that was verified.
    If the trust root could not be created, nothing is verified: the policies are downloaded as they are
    without a configuration. *)
Theorem downloaded_policies_verified `{!UrlLaws, !SigstoreLaws} {TrustRoot} sources config (root : option TrustRoot)
    verifier_new self policies destination st fetched st' :
  configured_downloader sources (Some config) root verifier_new = Ok self →
  download_policies self policies destination (Some config) st = Some (fetched, st') →
  (is_Some root → ∃ ver, dl_verifier self = Some ver ∧ ∀ url path,
     fetched !! url = Some (Ok path) → verified_fetch self ver policies destination config st url path) ∧
  (root = None → download_policies self policies destination None st = Some (fetched, st')).
Proof.
  rw /configured_downloader. intros Hself Hd. apply res_bind_Ok in Hself as (v & Hv & [= <-]). split.
  - intros [r ->]. apply res_map_Ok in Hv as (ver & _ & ->). exists ver. split; [done|].
    intros url path. by eapply download_policies_verified.
  - intros ->. injection Hv as <-. by rewrite -(unverified_download _ _ _ config).
Qed.

(** When the Sigstore trust root cannot be created, a configuration that asks for
    verification gives a downloader without a verifier: the policies are
    downloaded exactly as if no verification had been configured. *)
Theorem trust_root_failure_disables_verification {TrustRoot} sources config
    (verifier_new : option Sources → TrustRoot → result Verifier string) self :
  configured_downloader sources (Some config) None verifier_new = Ok self →
  ∀ policies destination st,
    download_policies self policies destination (Some config) st =
    download_policies self policies destination None st.
Proof.
  intros [= <-] policies destination st. by apply unverified_download.
Qed.
End downloader.

(** ** Concrete downloads *)

(** Every image is signed with the key ["key"]; a file is its own checksum. *)
#[export, refine] Instance simple_cosign : @CosignClient simple_sigstore simple_oci simple_host := {|
  OciReference := string;
  oci_reference_from_str s := Ok s;
  triangulate _ _ h := (Ok ("signature", "sha256:manifest"), h);
  trusted_signature_layers _ _ h := (Ok [key_layer], h);
|}.
Proof. Defined.

#[export] Instance simple_sha256 : Sha256 := of_bytes.

Definition single (url : string) : PolicyOrPolicyGroup :=
  SinglePolicy url Protect None None ∅ None None [].

Definition image_of (b : bytes) : OciManifest := ManifestImage
  [{| od_media_type := WASM_LAYER_MEDIA_TYPE; od_digest := "sha256:" +:+ of_bytes b |}].

Definition verifying_downloader : Downloader :=
  {| dl_verifier := Some {| ver_sources := None |}; dl_sources := None |}.

Definition example_download (policies : gmap string PolicyOrPolicyGroup)
    (pulls : list (result (list bytes) string)) (manifests : list (result OciManifest string)) :=
  download_policies (UL := simple_url) (SE := simple_env) (CC := simple_cosign)
    (YL := simple_yaml) "/main" verifying_downloader policies "/store" (Some key_config)
    (fresh_state pulls manifests).

(** What was recorded for a module: its path, or that there was an error. *)
Definition recorded (url : string) (r : option (FetchedPolicies * @St simple_oci simple_host)) :
    option (option string) :=
  match r with
  | Some (fetched, _) => (λ r, match r with Ok p => Some p | Err _ => None end) <$> fetched !! url
  | None => None
  end.

Definition file_at (path : string) (r : option (FetchedPolicies * @St simple_oci simple_host)) :
    option bytes :=
  match r with Some (_, st) => sh_files (host st) !! path | None => None end.

Definition one_policy : gmap string PolicyOrPolicyGroup :=
  {["pol" := single "ghcr.io/kubewarden/pol:v1"]}.

Definition v1 : bytes := wasm_module "v1".
Definition evil : bytes := wasm_module "evil".

(** A module that is not the one of the signed manifest is refused. *)
Example download_examples :
  recorded "ghcr.io/kubewarden/pol:v1" (example_download one_policy [Ok [v1]] [Ok (image_of v1)]) =
    Some (Some "/store/registry/ghcr.io/kubewarden/pol:v1") ∧
  recorded "ghcr.io/kubewarden/pol:v1" (example_download one_policy [Ok [evil]] [Ok (image_of v1)]) =
    Some None.
Proof. vm_compute. repeat split; reflexivity. Qed.

(** The same image, under two spellings of its tag. *)
Definition two_spellings : gmap string PolicyOrPolicyGroup :=
  {["a" := single "ghcr.io/kubewarden/pol"; "b" := single "ghcr.io/kubewarden/pol:latest"]}.

(** Two spellings of the tag [latest] share a file of the store: when the registry
    serves another module for the second download, its checksum is refused, but
    the first spelling stays recorded as fetched, with a path that now holds the
    module that was refused. *)
Theorem verified_file_can_be_replaced :
  let r := example_download two_spellings [Ok [v1]; Ok [evil]]
    [Ok (image_of v1); Ok (image_of v1)] in
  recorded "ghcr.io/kubewarden/pol" r =
    Some (Some "/store/registry/ghcr.io/kubewarden/pol:latest") ∧
  recorded "ghcr.io/kubewarden/pol:latest" r = Some None ∧
  file_at "/store/registry/ghcr.io/kubewarden/pol:latest" r = Some evil.
Proof. vm_compute. repeat split; reflexivity. Qed.

Lemma recorded_Some url r path :
  recorded url r = Some (Some path) →
  ∃ fetched st, r = Some (fetched, st) ∧ fetched !! url = Some (Ok path).
Proof.
  destruct r as [[fetched st]|]; [|done]. simpl. destruct (fetched !! url) as [[p|]|] eqn:Hu; [|done..].
  intros [= <-]. by exists fetched, st.
Qed.

Lemma one_policy_recorded :
  ∃ fetched st, example_download one_policy [Ok [v1]] [Ok (image_of v1)] = Some (fetched, st) ∧
    fetched !! "ghcr.io/kubewarden/pol:v1" = Some (Ok "/store/registry/ghcr.io/kubewarden/pol:v1").
Proof. apply recorded_Some. vm_compute. reflexivity. Qed.

Lemma one_policy_names : names_ok one_policy.
Proof. apply map_Forall_singleton. by split. Qed.

Lemma download_policies_covers_witness :
  ∃ fetched st, example_download one_policy [Ok [v1]] [Ok (image_of v1)] = Some (fetched, st) ∧
    (is_Some (fetched !! "ghcr.io/kubewarden/pol:v1") ↔
     references one_policy "ghcr.io/kubewarden/pol:v1").
Proof.
  destruct one_policy_recorded as (fetched & st & Hd & _). exists fetched, st. split; [exact Hd|].
  exact (download_policies_covers _ _ _ _ _ _ _ _ one_policy_names Hd "ghcr.io/kubewarden/pol:v1").
Defined.

Lemma downloaded_policies_verified_witness :
  ∃ fetched st', example_download one_policy [Ok [v1]] [Ok (image_of v1)] = Some (fetched, st') ∧
    ∃ path, verified_fetch (UL := simple_url) (SE := simple_env) (CC := simple_cosign) (YL := simple_yaml) "/main"
      verifying_downloader {| ver_sources := None |} one_policy "/store" key_config
      (fresh_state [Ok [v1]] [Ok (image_of v1)]) "ghcr.io/kubewarden/pol:v1" path.
Proof.
  destruct one_policy_recorded as (fetched & st & Hd & Hu). exists fetched, st. split; [exact Hd|].
  destruct (downloaded_policies_verified (TrustRoot := unit) "/main" None key_config (Some tt)
    (λ _ _, Ok {| ver_sources := None |}) verifying_downloader
    one_policy "/store" _ fetched st eq_refl Hd) as [Hver _].
  destruct (Hver ltac:(eexists; reflexivity)) as (ver & [= <-] & Hv). eexists. exact (Hv _ _ Hu).
Defined.

Lemma trust_root_failure_disables_verification_witness :
  download_policies (UL := simple_url) (SE := simple_env) (CC := simple_cosign)
    (YL := simple_yaml) "/main" {| dl_verifier := None; dl_sources := None |}
    one_policy "/store" (Some key_config) (fresh_state [Ok [evil]] []) =
  download_policies (UL := simple_url) (SE := simple_env) (CC := simple_cosign)
    (YL := simple_yaml) "/main" {| dl_verifier := None; dl_sources := None |}
    one_policy "/store" None (fresh_state [Ok [evil]] []).
Proof.
  apply (trust_root_failure_disables_verification (TrustRoot := unit) "/main" None key_config
    (λ _ _, Err "no trust root")). reflexivity.
Defined.
