(* ===== verification/Metadata.v ===== *)
(** * Policy metadata

    Models [crates/policy-evaluator/src/policy_metadata.rs]: the metadata of a policy, how
    it is read in a module, and the validators its rules go through. The [Validate] derive collects
    the errors of every field. *)

From S2P Require Import Prelude Bytes Json AdmissionResponse Request HostCapabilities Callback.
From S2P Require Import RustStr VerificationConstraints.

Inductive Operation := OpCreate | OpUpdate | OpDelete | OpConnect | OpAll.
#[export] Instance Operation_eq_dec : EqDecision Operation.
Proof. solve_decision. Defined.

Definition Operation_try_from (op : string) : result Operation string :=
  if decide (op = "CREATE") then Ok OpCreate
  else if decide (op = "UPDATE") then Ok OpUpdate
  else if decide (op = "DELETE") then Ok OpDelete
  else if decide (op = "CONNECT") then Ok OpConnect
  else if decide (op = "*") then Ok OpAll
  else Err "unknown operation".

Inductive Scope := ScopeCluster | ScopeNamespaced | ScopeAll.

Definition Scope_try_from (scope : string) : result Scope string :=
  if decide (scope = "Cluster") then Ok ScopeCluster
  else if decide (scope = "Namespaced") then Ok ScopeNamespaced
  else if decide (scope = "*") then Ok ScopeAll
  else Err "unknown scope".

Record Rule := {
  r_api_groups : list string;
  r_api_versions : list string;
  r_resources : list string;
  r_operations : list Operation;
  r_scope : option Scope;
}.

(** ** Validators; the error is the code of the [ValidationError] *)

Definition validate_asterisk_usage (data : list string) : result unit string :=
  if bool_decide ("*" ∈ data) && bool_decide (1 < length data)
  then Err "No other elements can be defined when '*' is used" else Ok tt.

Definition validate_asterisk_usage_inside_of_operations (data : list Operation) :
    result unit string :=
  if bool_decide (OpAll ∈ data) && bool_decide (1 < length data)
  then Err "No other elements can be defined when '*' is used" else Ok tt.

Record ResourceFlags := {
  resources_with_wildcard_subresources : gset string;
  subresources_with_wildcard_resource : gset string;
  has_double_wildcard : bool;
  has_single_wildcard : bool;
  has_resource_without_subresource : bool;
}.

Definition validate_resource (f : ResourceFlags) (resource : string) :
    result ResourceFlags string :=
  if decide (resource = "") then Err "empty resource is not allowed" else
  let double := has_double_wildcard f || bool_decide (resource = "*/*") in
  let single := has_single_wildcard f || bool_decide (resource = "*") in
  match split_once resource "/" with
  | None => Ok {|
      resources_with_wildcard_subresources := resources_with_wildcard_subresources f;
      subresources_with_wildcard_resource := subresources_with_wildcard_resource f;
      has_double_wildcard := double; has_single_wildcard := single;
      has_resource_without_subresource := bool_decide (resource ≠ "*") |}
  | Some (res, sub) =>
      if decide (res ∈ resources_with_wildcard_subresources f)
      then Err ("if '" +:+ resource +:+ "/*' is present, must not specify " +:+ res)
      else if decide (sub ∈ subresources_with_wildcard_resource f)
      then Err ("if '*/" +:+ sub +:+ "' is present, must not specify " +:+ resource)
      else Ok {|
        resources_with_wildcard_subresources :=
          if decide (sub = "*") then {[res]} ∪ resources_with_wildcard_subresources f
          else resources_with_wildcard_subresources f;
        subresources_with_wildcard_resource :=
          if decide (res = "*") then {[sub]} ∪ subresources_with_wildcard_resource f
          else subresources_with_wildcard_resource f;
        has_double_wildcard := double; has_single_wildcard := single;
        has_resource_without_subresource := has_resource_without_subresource f |}
  end.

Definition no_flags : ResourceFlags :=
  {| resources_with_wildcard_subresources := ∅; subresources_with_wildcard_resource := ∅;
     has_double_wildcard := false; has_single_wildcard := false;
     has_resource_without_subresource := false |}.

Definition validate_resources (data : list string) : result unit string :=
  let? f := try_fold validate_resource no_flags data in
  if bool_decide (1 < length data) && has_double_wildcard f
  then Err "if '*/*' is present, must not specify other resources"
  else if has_single_wildcard f && has_resource_without_subresource f
  then Err "if '*' is present, must not specify other resources without subresources"
  else Ok tt.

(** The errors of a field: its length, then its validator. *)
Definition field_errors {A} (field : string) (data : list A) (custom : result unit string) :
    list (string * string) :=
  (if bool_decide (length data < 1) then [(field, "length")] else []) ++
  match custom with Ok _ => [] | Err code => [(field, code)] end.

(** [Rule::validate] *)
Definition Rule_validate (r : Rule) : list (string * string) :=
  field_errors "api_groups" (r_api_groups r) (validate_asterisk_usage (r_api_groups r)) ++
  field_errors "api_versions" (r_api_versions r) (validate_asterisk_usage (r_api_versions r)) ++
  field_errors "resources" (r_resources r) (validate_resources (r_resources r)) ++
  field_errors "operations" (r_operations r)
    (validate_asterisk_usage_inside_of_operations (r_operations r)).

(** ** From the Kubernetes rules *)

(** The fields of [NamedRuleWithOperations]. *)
Record NamedRuleWithOperations := {
  nr_operations : option (list string);
  nr_api_groups : option (list string);
  nr_api_versions : option (list string);
  nr_resources : option (list string);
  nr_scope : option string;
  nr_resource_names : option (list string);
}.

Definition Rule_try_from (rule : NamedRuleWithOperations) : result Rule string :=
  let? operations := match nr_operations rule with
    | Some operations => collect Operation_try_from operations
    | None => Ok []
    end in
  let? scope := match nr_scope rule with
    | Some scope => res_map Some (Scope_try_from scope)
    | None => Ok None
    end in
  Ok {| r_operations := operations;
        r_api_groups := unwrap_or [] (nr_api_groups rule);
        r_api_versions := unwrap_or [] (nr_api_versions rule);
        r_resources := unwrap_or [] (nr_resources rule); r_scope := scope |}.

(** ** Metadata *)

Inductive ProtocolVersion := ProtocolUnknown | ProtocolV1.
#[export] Instance ProtocolVersion_eq_dec : EqDecision ProtocolVersion.
Proof. solve_decision. Defined.

Inductive PolicyType := Kubernetes | Raw.

(** The fields of [semver::Version] that are compared. *)
Record Version := { major : N; minor : N; patch_version : N }.

Record Metadata := {
  md_protocol_version : option ProtocolVersion;
  md_rules : list Rule;
  md_annotations : option (gmap string string);
  md_mutating : bool;
  md_background_audit : bool;
  md_execution_mode : PolicyExecutionMode;
  md_policy_type : PolicyType;
  md_context_aware_resources : gset ContextAwareResource;
  md_host_capabilities : option (gset string);
  md_minimum_kubewarden_version : option Version;
}.

(** The [PartialEq] that the source derives. *)
#[export] Instance Scope_eq_dec : EqDecision Scope.
Proof. solve_decision. Defined.
#[export] Instance Rule_eq_dec : EqDecision Rule.
Proof. solve_decision. Defined.
#[export] Instance PolicyType_eq_dec : EqDecision PolicyType.
Proof. solve_decision. Defined.
#[export] Instance Version_eq_dec : EqDecision Version.
Proof. solve_decision. Defined.
#[export] Instance Metadata_eq_dec : EqDecision Metadata.
Proof. solve_decision. Defined.

Definition Metadata_default : Metadata :=
  {| md_protocol_version := None; md_rules := []; md_annotations := Some ∅;
     md_mutating := false; md_background_audit := true; md_execution_mode := KubewardenWapc;
     md_policy_type := Kubernetes; md_context_aware_resources := ∅;
     md_host_capabilities := None; md_minimum_kubewarden_version := None |}.

Definition validate_metadata (m : Metadata) : result unit string :=
  if bool_decide (md_execution_mode m = KubewardenWapc)
     && bool_decide (md_protocol_version m = Some ProtocolUnknown)
  then Err "Must specify a valid protocol version" else Ok tt.

Definition ContextAwareResource_validate (r : ContextAwareResource) : list (string * string) :=
  (if decide (car_api_version r = "") then [("api_version", "length")] else []) ++
  (if decide (car_kind r = "") then [("kind", "length")] else []).

(** [Metadata::validate]: no error when the list is empty. *)
Definition Metadata_validate (m : Metadata) : list (string * string) :=
  match md_protocol_version m with None => [("protocol_version", "required")] | Some _ => [] end ++
  (md_rules m ≫= Rule_validate) ++
  (elements (md_context_aware_resources m) ≫= ContextAwareResource_validate) ++
  match validate_metadata m with Ok _ => [] | Err code => [("__all__", code)] end.

(** ** The metadata of a module

    [wasmparser::Parser::parse_all] gives the payloads of a Wasm file, up to the first
    that cannot be parsed; [serde_json::from_slice] reads the metadata. *)
Inductive Payload :=
| CustomSection (name : string) (data : bytes)
| ExportSection (exports : list (result string string))
| OtherPayload.

Class WasmParser := {
  parse_payloads : bytes → list (result Payload string);
  metadata_of_json : bytes → result Metadata string;
  (** [ferricel_core::abi_version] and [ABI_VERSION] *)
  ferricel_abi_version : bytes → result (option N) string;
  FERRICEL_ABI_VERSION : N;
}.

Definition KUBEWARDEN_CUSTOM_SECTION_METADATA : string := "io.kubewarden.metadata".

Inductive MetadataError :=
| MetadataPath (e : string)
| WasmPayload (e : string)
| MetadataDeserialize (section error : string).

Definition MetadataError_to_string (e : MetadataError) : string :=
  match e with
  | MetadataPath e => "cannot read metadata from path: " +:+ e
  | WasmPayload e => "cannot parse custom section of wasm module: " +:+ e
  | MetadataDeserialize section error =>
      "cannot deserialize custom section `" +:+ section +:+ "` of wasm module: " +:+ error
  end.

Section from_contents.
Context `{WP : WasmParser}.

(** The loop of [from_contents]. *)
Fixpoint first_metadata (payloads : list (result Payload string)) :
    result (option Metadata) MetadataError :=
  match payloads with
  | [] => Ok None
  | payload :: payloads =>
      let? payload := map_err WasmPayload payload in
      match payload with
      | CustomSection name data =>
          if decide (name = KUBEWARDEN_CUSTOM_SECTION_METADATA) then
            let? metadata := map_err (MetadataDeserialize name) (metadata_of_json data) in
            Ok (Some metadata)
          else first_metadata payloads
      | _ => first_metadata payloads
      end
  end.

Definition metadata_from_contents (policy : bytes) : result (option Metadata) MetadataError :=
  first_metadata (parse_payloads policy).

(** [Metadata::from_path], with the read of the file as an argument *)
Definition metadata_from_read (contents : result bytes string) : result (option Metadata) MetadataError :=
  let? policy := map_err MetadataPath contents in
  metadata_from_contents policy.
End from_contents.

(** ** Properties *)

(** The metadata sections of a module, in their order. *)
Definition is_metadata (kd : string * bytes) : Prop := kd.1 = KUBEWARDEN_CUSTOM_SECTION_METADATA.
#[export] Instance is_metadata_dec kd : Decision (is_metadata kd).
Proof. rewrite /is_metadata. apply _. Defined.

Definition payload_section (p : Payload) : option (string * bytes) :=
  match p with CustomSection name data => Some (name, data) | _ => None end.

Definition metadata_sections (payloads : list Payload) : list (string * bytes) :=
  filter is_metadata (omap payload_section payloads).

(** The first of them is read, wherever it is. *)
Lemma first_metadata_section `{WasmParser} payloads :
  first_metadata (Ok <$> payloads) =
  match metadata_sections payloads with
  | [] => Ok None
  | (name, data) :: _ => res_map Some (map_err (MetadataDeserialize name) (metadata_of_json data))
  end.
Proof.
  rewrite /metadata_sections. induction payloads as [|[name data| |] payloads IH]; simpl; [done| |done..].
  rewrite filter_cons. by repeat case_decide.
Qed.

(** An earlier resource that excludes this one: [x/*] excludes every later [x/y],
    and [*/y] every later [x/y]. *)
Definition excludes (q r : string) : Prop :=
  ∃ res sub, split_once r "/" = Some (res, sub) ∧
    (split_once q "/" = Some (res, "*") ∨ split_once q "/" = Some ("*", sub)).

Definition resource_ok (earlier : list string) (r : string) : Prop :=
  r ≠ "" ∧ ∀ q, q ∈ earlier → ¬ excludes q r.

Definition prefix_ok (data : list string) : Prop :=
  ∀ pre r post, data = pre ++ r :: post → resource_ok pre r.

Lemma prefix_ok_snoc data r : prefix_ok (data ++ [r]) ↔ prefix_ok data ∧ resource_ok data r.
Proof.
  split.
  - intros Hok. split.
    + intros pre r' post ->. apply (Hok pre r' (post ++ [r])). by rewrite -assoc.
    + by apply (Hok data r []).
  - intros [Hd Hr] pre r' post Heq.
    destruct (exists_last (l := r' :: post)) as (post' & x & Hx); [done|].
    rewrite Hx assoc in Heq. apply app_inj_tail in Heq as [-> ->].
    destruct post' as [|y post'].
    + injection Hx as -> ->. by rewrite app_nil_r in Hr.
    + injection Hx as -> ->. by eapply Hd.
Qed.

(** The resources without a slash. *)
Definition plain (data : list string) : list string :=
  filter (λ r, split_once r "/" = None) data.

(** What the flags say of the resources seen so far. *)
Definition describes (data : list string) (f : ResourceFlags) : Prop :=
  (∀ res, res ∈ resources_with_wildcard_subresources f ↔
     ∃ q, q ∈ data ∧ split_once q "/" = Some (res, "*")) ∧
  (∀ sub, sub ∈ subresources_with_wildcard_resource f ↔
     ∃ q, q ∈ data ∧ split_once q "/" = Some ("*", sub)) ∧
  has_double_wildcard f = bool_decide ("*/*" ∈ data) ∧
  has_single_wildcard f = bool_decide ("*" ∈ data) ∧
  has_resource_without_subresource f =
    match last (plain data) with Some r => bool_decide (r ≠ "*") | None => false end.

Lemma describes_ok data f r res sub :
  describes data f → split_once r "/" = Some (res, sub) →
  resource_ok data r ↔
  r ≠ "" ∧ res ∉ resources_with_wildcard_subresources f ∧
  sub ∉ subresources_with_wildcard_resource f.
Proof.
  intros (Hw & Hs & _) Hr. rewrite Hw Hs /resource_ok /excludes Hr. naive_solver.
Qed.

Lemma has_snoc (x r : string) data :
  bool_decide (x ∈ data) || bool_decide (r = x) = bool_decide (x ∈ data ++ [r]).
Proof.
  apply eq_bool_prop_intro. rewrite orb_True !bool_decide_spec elem_of_app list_elem_of_singleton.
  naive_solver.
Qed.

Lemma split_snoc (p : string * string) r data :
  (∃ q, q ∈ data ++ [r] ∧ split_once q "/" = Some p) ↔
  (∃ q, q ∈ data ∧ split_once q "/" = Some p) ∨ split_once r "/" = Some p.
Proof. setoid_rewrite elem_of_app. setoid_rewrite list_elem_of_singleton. naive_solver. Qed.

Lemma plain_snoc data r :
  plain (data ++ [r]) = plain data ++ (if decide (split_once r "/" = None) then [r] else []).
Proof. rw /plain filter_app filter_cons filter_nil. by case_decide. Qed.

Lemma validate_resource_step data f r :
  describes data f →
  match validate_resource f r with
  | Ok f' => resource_ok data r ∧ describes (data ++ [r]) f'
  | Err _ => ¬ resource_ok data r
  end.
Proof.
  intros Hd. rw /validate_resource. case_decide as Hempty; [by intros []|].
  destruct (split_once r "/") as [[res sub]|] eqn:Hr.
  - pose proof (describes_ok _ _ _ _ _ Hd Hr) as Hok. destruct Hd as (Hw & Hs & Hdw & Hsw & Hp).
    destruct (decide (res ∈ _)); [by intros (_ & ? & _)%Hok|].
    destruct (decide (sub ∈ _)); [by intros (_ & _ & ?)%Hok|].
    split; [by apply Hok|].
    split_and!; simpl; [| |by rewrite Hdw has_snoc|by rewrite Hsw has_snoc|].
    + intros x. rewrite split_snoc -Hw Hr. clear. case_decide; set_solver.
    + intros x. rewrite split_snoc -Hs Hr. clear. case_decide; set_solver.
    + rewrite Hp plain_snoc. destruct (decide (split_once r "/" = None)); [congruence|].
      by rewrite app_nil_r.
  - destruct Hd as (Hw & Hs & Hdw & Hsw & Hp). split.
    { split; [done|]. intros q _ (res & sub & Hr' & _). congruence. }
    split_and!; simpl; [| |by rewrite Hdw has_snoc|by rewrite Hsw has_snoc|].
    + intros x. rewrite split_snoc -Hw Hr. clear. naive_solver.
    + intros x. rewrite split_snoc -Hs Hr. clear. naive_solver.
    + rewrite plain_snoc. destruct (decide (split_once r "/" = None)); [|done].
      by rewrite last_snoc.
Qed.

Lemma validate_resource_fold data :
  match try_fold validate_resource no_flags data with
  | Ok f => prefix_ok data ∧ describes data f
  | Err _ => ¬ prefix_ok data
  end.
Proof.
  induction data as [|r data IH] using rev_ind.
  { split; [by intros [] ? ?|]. split_and!; simpl; [set_solver|set_solver|done..]. }
  rewrite try_fold_app. destruct (try_fold validate_resource no_flags data) as [f|e]; simpl.
  - destruct IH as [Hok Hd]. pose proof (validate_resource_step data f r Hd) as Hstep.
    destruct (validate_resource f r); simpl; rewrite prefix_ok_snoc; tauto.
  - rewrite prefix_ok_snoc. tauto.
Qed.

(** The resources of a rule are accepted exactly when none is empty, none is
    excluded by an earlier [x/*] or [*/y], [*/*] stands alone, and, where [*] is
    listed, it is the last of the resources without a subresource: the order of the
    list matters, [pods, *] is accepted where [*, pods] is not. *)
Theorem validate_resources_spec data :
  validate_resources data = Ok tt ↔
  prefix_ok data ∧ (1 < length data → "*/*" ∉ data) ∧
  ("*" ∈ data → last (plain data) = Some "*").
Proof.
  rw /validate_resources. pose proof (validate_resource_fold data) as Hf.
  destruct (try_fold validate_resource no_flags data) as [f|e]; simpl; [|naive_solver].
  destruct Hf as [Hok (_ & _ & Hdw & Hsw & Hp)]. rewrite Hdw Hsw Hp.
  assert ("*" ∈ data → "*" ∈ plain data) as Hplain.
  { intros Hin. by apply list_elem_of_filter. }
  destruct (last (plain data)) as [r|] eqn:Hlast.
  - repeat case_bool_decide; simpl; naive_solver.
  - apply last_None in Hlast. rewrite Hlast in Hplain.
    repeat case_bool_decide; simpl; set_solver.
Qed.

(** The error of an excluded resource names the resource where the excluding one
    belongs. *)
Example excluded_resource_message :
  validate_resources ["pods/*"; "pods/status"] =
  Err "if 'pods/status/*' is present, must not specify pods".
Proof. vm_compute. reflexivity. Qed.

Example validate_resources_order :
  validate_resources ["pods"; "*"] = Ok tt ∧
  is_err (validate_resources ["*"; "pods"]) = true ∧
  validate_resources ["pods/status"; "pods/*"] = Ok tt ∧
  is_err (validate_resources ["pods/*"; "pods/status"]) = true.
Proof. vm_compute. repeat split; reflexivity. Qed.
