(* ===== verification/MatchResources.v ===== *)
(** * What a translated ValidatingAdmissionPolicy matches

    Models [crates/kwctl/src/scaffold/vap/match_resources.rs]: the match constraints of a
    ValidatingAdmissionPolicy and of its binding become the match fields of one
    ClusterAdmissionPolicy, or the pair is rejected.

    The second half states how the API server matches a request, after the Kubernetes API
    reference, and shows that the fields match what the pair matches. *)

From S2P Require Import Prelude Json HostCapabilities Callback Metadata RustStr.
From S2P Require Import VerificationConstraints.

Record LabelSelectorRequirement := {
  lsr_key : string;
  lsr_operator : string;
  lsr_values : option (list string);
}.

Record LabelSelector := {
  ls_match_expressions : option (list LabelSelectorRequirement);
  ls_match_labels : option (gmap string string);
}.

Record MatchResources := {
  ms_exclude_resource_rules : option (list NamedRuleWithOperations);
  ms_match_policy : option string;
  ms_namespace_selector : option LabelSelector;
  ms_object_selector : option LabelSelector;
  ms_resource_rules : option (list NamedRuleWithOperations);
}.

Definition MatchResources_default : MatchResources :=
  {| ms_exclude_resource_rules := None; ms_match_policy := None; ms_namespace_selector := None;
     ms_object_selector := None; ms_resource_rules := None |}.

Record MatchFields := {
  mf_rules : list Rule;
  mf_match_policy : option string;
  mf_namespace_selector : option LabelSelector;
  mf_object_selector : option LabelSelector;
}.

(** [is_some_and(|l| !l.is_empty())] *)
Definition some_nonempty {A} (o : option (list A)) : bool :=
  match o with Some (_ :: _) => true | _ => false end.

Definition none_if_empty {A} (l : list A) : option (list A) :=
  match l with [] => None | _ => Some l end.

Definition label_conflict (field key a_value b_value : string) : string :=
  field +:+ ": the ValidatingAdmissionPolicy sets the label '" +:+ key +:+ "' to '" +:+ a_value +:+
  "'. The ValidatingAdmissionPolicyBinding sets it to '" +:+ b_value +:+
  "'. A selector with both values matches no object. Set the same value on both sides, or remove the label from one side".

(** The body of the loop over the labels of the binding. *)
Definition merge_label (field : string) (match_labels : gmap string string) (entry : string * string) :
    result (gmap string string) string :=
  match match_labels !! entry.1 with
  | Some a_value =>
      if decide (a_value = entry.2) then Ok match_labels
      else Err (label_conflict field entry.1 a_value entry.2)
  | None => Ok (<[entry.1 := entry.2]> match_labels)
  end.

Definition and_label_selectors (field : string) (a b : option LabelSelector) :
    result (option LabelSelector) string :=
  match a, b with
  | None, None => Ok None
  | Some a, None => Ok (Some a)
  | None, Some b => Ok (Some b)
  | Some a, Some b =>
      let match_expressions :=
        unwrap_or [] (ls_match_expressions a) ++ unwrap_or [] (ls_match_expressions b) in
      let? match_labels := try_fold (merge_label field) (unwrap_or ∅ (ls_match_labels a))
        (btree_iter (unwrap_or ∅ (ls_match_labels b))) in
      Ok (Some {|
        ls_match_expressions := none_if_empty match_expressions;
        ls_match_labels := if decide (match_labels = ∅) then None else Some match_labels |})
  end.

Definition label_selector_is_empty (selector : LabelSelector) : bool :=
  match ls_match_labels selector with Some labels => bool_decide (labels = ∅) | None => true end &&
  negb (some_nonempty (ls_match_expressions selector)).

(** [filter(|s| !label_selector_is_empty(s))] *)
Definition nonempty_selector (selector : option LabelSelector) : option LabelSelector :=
  match selector with
  | Some s => if label_selector_is_empty s then None else Some s
  | None => None
  end.

Definition combine_object_selectors (vap_selector binding_selector : option LabelSelector) :
    result (option LabelSelector) string :=
  match nonempty_selector vap_selector, nonempty_selector binding_selector with
  | Some _, Some _ => Err "objectSelector: both the ValidatingAdmissionPolicy (spec.matchConstraints.objectSelector) and the ValidatingAdmissionPolicyBinding (spec.matchResources.objectSelector) set a selector. On an UPDATE request, Kubernetes matches each selector against the old object or the new object on its own. A single ClusterAdmissionPolicy.spec.objectSelector cannot express that pair. A merge of the two would skip UPDATE requests that the original VAP and binding validate. Remove objectSelector from one side. Keep it only on the VAP, or only on the binding"
  | Some vap_selector, None => Ok (Some vap_selector)
  | None, Some binding_selector => Ok (Some binding_selector)
  | None, None => Ok None
  end.

Definition names_resources (rule : NamedRuleWithOperations) : bool :=
  some_nonempty (nr_resource_names rule).

(** The value of [matchPolicy] when it is not set. *)
Definition match_policy_of (m : MatchResources) : string :=
  unwrap_or "Equivalent" (ms_match_policy m).

Definition merge_match_fields (vap_match_constraints binding_match_resources : MatchResources) :
    result MatchFields string :=
  if some_nonempty (ms_exclude_resource_rules vap_match_constraints)
  then Err "ValidatingAdmissionPolicy spec.matchConstraints.excludeResourceRules is not supported. ClusterAdmissionPolicy has no matching field. Remove excludeResourceRules, and narrow spec.matchConstraints.resourceRules instead" else
  if some_nonempty (ms_exclude_resource_rules binding_match_resources)
  then Err "ValidatingAdmissionPolicyBinding spec.matchResources.excludeResourceRules is not supported. ClusterAdmissionPolicy has no matching field. Remove excludeResourceRules, and narrow spec.matchConstraints.resourceRules on the ValidatingAdmissionPolicy instead" else
  if some_nonempty (ms_resource_rules binding_match_resources)
  then Err "ValidatingAdmissionPolicyBinding spec.matchResources.resourceRules is not supported. kwctl only translates spec.matchConstraints.resourceRules from the ValidatingAdmissionPolicy. Move the narrowing into the ValidatingAdmissionPolicy, or remove it from the binding" else
  if existsb names_resources (unwrap_or [] (ms_resource_rules vap_match_constraints))
  then Err "ValidatingAdmissionPolicy spec.matchConstraints.resourceRules[].resourceNames is not supported. ClusterAdmissionPolicy has no matching field. Remove resourceNames, and narrow the match with objectSelector instead" else
  let? _ := match ms_match_policy binding_match_resources with
    | None => Ok tt
    | Some binding_match_policy =>
        let vap_match_policy := match_policy_of vap_match_constraints in
        if decide (binding_match_policy = vap_match_policy) then Ok tt
        else Err ("ValidatingAdmissionPolicyBinding spec.matchResources.matchPolicy is '" +:+
          binding_match_policy +:+ "'. ValidatingAdmissionPolicy spec.matchConstraints.matchPolicy is '" +:+
          vap_match_policy +:+ "'. The two values differ. Make the two values equal, or remove matchPolicy from the binding")
    end in
  let? namespace_selector := and_label_selectors "namespaceSelector"
    (ms_namespace_selector vap_match_constraints) (ms_namespace_selector binding_match_resources) in
  let? object_selector := combine_object_selectors
    (ms_object_selector vap_match_constraints) (ms_object_selector binding_match_resources) in
  let? rules := map_err (λ e, "error converting VAP matchConstraints into rules: " +:+ e)
    (collect Rule_try_from (unwrap_or [] (ms_resource_rules vap_match_constraints))) in
  Ok {| mf_rules := rules; mf_match_policy := ms_match_policy vap_match_constraints;
        mf_namespace_selector := namespace_selector; mf_object_selector := object_selector |}.

(** ** How the API server matches a request *)

(** A request: the objects are those it carries (the old one, the new one), a cluster-wide
    resource has no namespace. *)
Record AdmissionAttributes := {
  at_operation : Operation;
  at_group : string;
  at_version : string;
  at_resource : string;
  at_subresource : string;
  at_name : string;
  at_namespaced : bool;
  at_namespace_labels : option (gmap string string);
  at_objects : list (gmap string string);
}.

Section selectors.
Implicit Types (labels : gmap string string) (req : AdmissionAttributes).

Definition requirement_matches (r : LabelSelectorRequirement) labels : Prop :=
  let listed := ∃ v, labels !! lsr_key r = Some v ∧ v ∈ unwrap_or [] (lsr_values r) in
  if decide (lsr_operator r = "In") then listed
  else if decide (lsr_operator r = "NotIn") then ¬ listed
  else if decide (lsr_operator r = "Exists") then is_Some (labels !! lsr_key r)
  else if decide (lsr_operator r = "DoesNotExist") then labels !! lsr_key r = None
  else False.

(** Every label and every expression has to match. *)
Definition selector_matches (s : LabelSelector) labels : Prop :=
  unwrap_or ∅ (ls_match_labels s) ⊆ labels ∧
  Forall (λ r, requirement_matches r labels) (unwrap_or [] (ls_match_expressions s)).

(** Only requests of a namespace are compared with the labels of the namespace. *)
Definition namespace_matches (s : option LabelSelector) req : Prop :=
  match s, at_namespace_labels req with
  | Some s, Some labels => selector_matches s labels
  | _, _ => True
  end.

(** A selector with conditions has to match one of the objects. *)
Definition object_matches (s : option LabelSelector) req : Prop :=
  match nonempty_selector s with
  | Some s => ∃ labels, labels ∈ at_objects req ∧ selector_matches s labels
  | None => True
  end.

Lemma nonempty_selector_idemp s : nonempty_selector (nonempty_selector s) = nonempty_selector s.
Proof. destruct s as [s|]; simpl; [|done]. destruct (label_selector_is_empty s) eqn:H; simpl; [done|by rewrite H]. Qed.

Lemma unwrap_none_if_empty {A} (l : list A) : unwrap_or [] (none_if_empty l) = l.
Proof. by destruct l. Qed.

Definition agree (m1 m2 : gmap string string) : Prop :=
  ∀ k x y, m1 !! k = Some x → m2 !! k = Some y → x = y.

(** The labels that two selectors ask for do not contradict each other. *)
Definition compatible (a b : LabelSelector) : Prop :=
  agree (unwrap_or ∅ (ls_match_labels a)) (unwrap_or ∅ (ls_match_labels b)).

Lemma merge_label_Ok field m kv m' :
  merge_label field m kv = Ok m' ↔
  (∀ v, m !! kv.1 = Some v → v = kv.2) ∧ m' = <[kv.1 := kv.2]> m.
Proof.
  rewrite /merge_label. destruct (m !! kv.1) as [v|] eqn:Hm; [case_decide as Hv|].
  - subst v. rewrite insert_id; [|done]. naive_solver.
  - split; [done|]. intros [H _]. by destruct Hv; apply H.
  - naive_solver.
Qed.

(** The loop merges the labels of a list of entries with different keys. *)
Lemma merge_labels_Ok field l m m' :
  NoDup l.*1 →
  try_fold (merge_label field) m l = Ok m' ↔
  agree m (list_to_map l) ∧ m' = list_to_map l ∪ m.
Proof.
  revert m. induction l as [|[k v] l IH]; intros m; simpl.
  - intros _. rewrite map_empty_union. split; [intros [= <-]|intros [_ ->]; done].
    by split; [intros ??? _|done].
  - intros [Hk Hnd]%NoDup_cons. apply not_elem_of_list_to_map_1 in Hk.
    rewrite res_bind_Ok. setoid_rewrite merge_label_Ok. simpl. split.
    + intros (m1 & [Hv ->] & [Hag ->]%IH); [|done]. split.
      * intros i x y Hx Hy. apply lookup_insert_Some in Hy as [[-> ->]|[Hne Hy]].
        { by apply Hv. }
        apply (Hag i); [by rewrite lookup_insert_ne|done].
      * by rewrite -insert_union_l insert_union_r.
    + intros [Hag ->]. eexists. split; [split; [|done]|].
      * intros x Hx. apply (Hag k x v Hx). apply lookup_insert_eq.
      * apply IH; [done|]. split; [|by rewrite -insert_union_l insert_union_r].
        intros i x y Hx Hy. apply lookup_insert_Some in Hx as [[-> ->]|[Hne Hx]]; [congruence|].
        apply (Hag i); [done|by rewrite lookup_insert_ne].
Qed.
End selectors.

Lemma btree_iter_keys {V} (m : gmap string V) : NoDup (btree_iter m).*1.
Proof. rewrite /btree_iter merge_sort_Permutation. apply NoDup_fst_map_to_list. Qed.

Lemma btree_iter_map {V} (m : gmap string V) : list_to_map (btree_iter m) = m.
Proof.
  rewrite /btree_iter. rewrite (list_to_map_proper _ (map_to_list m)); [apply list_to_map_to_list| |].
  - apply btree_iter_keys.
  - apply merge_sort_Permutation.
Qed.

Section merged.
Implicit Types (labels : gmap string string) (req : AdmissionAttributes).

Lemma and_label_selectors_Ok field a b s :
  and_label_selectors field (Some a) (Some b) = Ok s →
  compatible a b ∧ ∃ s', s = Some s' ∧
    ∀ labels, selector_matches s' labels ↔ selector_matches a labels ∧ selector_matches b labels.
Proof.
  intros (ml & [Hag ->]%merge_labels_Ok & [= <-])%res_bind_Ok; [|apply btree_iter_keys].
  rewrite btree_iter_map in Hag |- *. split; [done|]. eexists. split; [done|]. intros labels.
  rewrite /selector_matches /= unwrap_none_if_empty Forall_app.
  set (ma := unwrap_or ∅ (ls_match_labels a)) in *. set (mb := unwrap_or ∅ (ls_match_labels b)) in *.
  assert (unwrap_or ∅ (if decide (mb ∪ ma = ∅) then None else Some (mb ∪ ma)) = mb ∪ ma) as ->.
  { by case_decide. }
  assert (mb ∪ ma ⊆ labels ↔ ma ⊆ labels ∧ mb ⊆ labels) as ->; [|tauto].
  rewrite !map_subseteq_spec. split.
  - intros H. split; intros i x Hx; apply H, lookup_union_Some_raw; [|by left].
    destruct (mb !! i) as [y|] eqn:Hy; [|by right]. left. f_equal. symmetry. by eapply Hag.
  - intros [Ha Hb] i x [Hx|[_ Hx]]%lookup_union_Some_raw; auto.
Qed.

Lemma and_label_selectors_total field a b :
  (∀ x y, a = Some x → b = Some y → compatible x y) → is_ok (and_label_selectors field a b).
Proof.
  destruct a as [x|], b as [y|]; simpl; try done. intros Hc.
  destruct (try_fold _ _ _) as [m|e] eqn:Hf; [done|exfalso].
  assert (try_fold (merge_label field) (unwrap_or ∅ (ls_match_labels x))
    (btree_iter (unwrap_or ∅ (ls_match_labels y))) =
    Ok (list_to_map (btree_iter (unwrap_or ∅ (ls_match_labels y))) ∪ unwrap_or ∅ (ls_match_labels x))); [|congruence].
  apply merge_labels_Ok; [apply btree_iter_keys|]. rewrite btree_iter_map. split; [by apply Hc|done].
Qed.

(** The selector of the namespaces is exact. *)
Lemma merged_namespace_matches field a b s req :
  and_label_selectors field a b = Ok s →
  namespace_matches s req ↔ namespace_matches a req ∧ namespace_matches b req.
Proof.
  rewrite /namespace_matches. destruct a as [a|], b as [b|].
  - intros (_ & s' & -> & Hs)%and_label_selectors_Ok. destruct (at_namespace_labels req); [apply Hs|tauto].
  - intros [= <-]. case_match; tauto.
  - intros [= <-]. case_match; tauto.
  - intros [= <-]. tauto.
Qed.

Lemma combined_object_matches a b s req :
  combine_object_selectors a b = Ok s →
  object_matches s req ↔ object_matches a req ∧ object_matches b req.
Proof.
  rewrite /combine_object_selectors /object_matches.
  pose proof (nonempty_selector_idemp a) as Ha. pose proof (nonempty_selector_idemp b) as Hb.
  destruct (nonempty_selector a) as [x|], (nonempty_selector b) as [y|]; intros [= <-];
    rewrite ?Ha ?Hb; simpl; tauto.
Qed.
End merged.

(** ** Rules *)

Definition Operation_name (o : Operation) : string :=
  match o with
  | OpCreate => "CREATE" | OpUpdate => "UPDATE" | OpDelete => "DELETE" | OpConnect => "CONNECT"
  | OpAll => "*"
  end.

Lemma Operation_try_from_Ok s o : Operation_try_from s = Ok o ↔ s = Operation_name o.
Proof.
  rewrite /Operation_try_from. split.
  - intros H. repeat case_decide; by simplify_eq.
  - by intros ->; destruct o.
Qed.

Section rules.
Implicit Types (req : AdmissionAttributes) (rule : NamedRuleWithOperations) (r : Rule).

Definition wildcard (l : list string) (s : string) : Prop := "*" ∈ l ∨ s ∈ l.

(** [x/y] is a subresource, [x] the resource alone; each part may be a wildcard. *)
Definition resource_matches (resources : list string) req : Prop :=
  ∃ e, e ∈ resources ∧
    let '(x, y) := unwrap_or (e, EmptyString) (split_once e "/") in
    (x = "*" ∨ x = at_resource req) ∧ (y = "*" ∨ y = at_subresource req).

Definition scope_matches (scope : option Scope) req : Prop :=
  match scope with
  | Some ScopeCluster => at_namespaced req = false
  | Some ScopeNamespaced => at_namespaced req = true
  | Some ScopeAll | None => True
  end.

(** A rule of the ValidatingAdmissionPolicy. *)
Definition named_rule_matches rule req : Prop :=
  wildcard (unwrap_or [] (nr_operations rule)) (Operation_name (at_operation req)) ∧
  wildcard (unwrap_or [] (nr_api_groups rule)) (at_group req) ∧
  wildcard (unwrap_or [] (nr_api_versions rule)) (at_version req) ∧
  resource_matches (unwrap_or [] (nr_resources rule)) req ∧
  match nr_scope rule with
  | None => True
  | Some s => s = "*" ∨ s = (if at_namespaced req then "Namespaced" else "Cluster")
  end ∧
  (some_nonempty (nr_resource_names rule) = true → at_name req ∈ unwrap_or [] (nr_resource_names rule)).

(** A rule of the ClusterAdmissionPolicy, as the webhook made of it applies it. *)
Definition rule_matches r req : Prop :=
  (OpAll ∈ r_operations r ∨ at_operation req ∈ r_operations r) ∧
  wildcard (r_api_groups r) (at_group req) ∧
  wildcard (r_api_versions r) (at_version req) ∧
  resource_matches (r_resources r) req ∧
  scope_matches (r_scope r) req.

Lemma operations_convert names ops o :
  collect Operation_try_from names = Ok ops → Operation_name o ∈ names ↔ o ∈ ops.
Proof.
  intros Hf%collect_Ok. induction Hf as [|s o' names ops Hs _ IH]; [by rewrite !elem_of_nil|].
  apply Operation_try_from_Ok in Hs as ->. rewrite !elem_of_cons IH.
  assert (Operation_name o = Operation_name o' ↔ o = o') as ->; [|done].
  split; [|by intros ->]. by destruct o, o'.
Qed.

Lemma scope_convert s scope req :
  Scope_try_from s = Ok scope →
  scope_matches (Some scope) req ↔ s = "*" ∨ s = (if at_namespaced req then "Namespaced" else "Cluster").
Proof.
  rewrite /Scope_try_from. intros H. destruct (at_namespaced req) eqn:Hn; repeat case_decide; simplify_eq/=; rewrite ?Hn; naive_solver.
Qed.

(** The conversion of a rule without resource names keeps what it matches. *)
Lemma Rule_try_from_matches rule r req :
  Rule_try_from rule = Ok r → names_resources rule = false →
  rule_matches r req ↔ named_rule_matches rule req.
Proof.
  rewrite /Rule_try_from /names_resources. intros (ops & Hops & (scope & Hscope & [= <-])%res_bind_Ok)%res_bind_Ok Hnames.
  rewrite /rule_matches /named_rule_matches Hnames /=.
  assert (OpAll ∈ ops ∨ at_operation req ∈ ops ↔
    wildcard (unwrap_or [] (nr_operations rule)) (Operation_name (at_operation req))) as ->.
  { rewrite /wildcard. destruct (nr_operations rule) as [names|]; simplify_eq/=.
    - rewrite -(operations_convert names ops OpAll Hops) -(operations_convert names ops _ Hops). done.
    - by rewrite !elem_of_nil. }
  assert (scope_matches scope req ↔ match nr_scope rule with
    | None => True | Some s => s = "*" ∨ s = (if at_namespaced req then "Namespaced" else "Cluster") end) as ->.
  { destruct (nr_scope rule) as [s|]; [|by simplify_eq].
    apply res_map_Ok in Hscope as (sc & Hsc & ->). by apply scope_convert. }
  naive_solver.
Qed.

Lemma rules_convert rules rs q :
  collect Rule_try_from rules = Ok rs → existsb names_resources rules = false →
  (∃ r, r ∈ rs ∧ rule_matches r q) ↔ (∃ rule, rule ∈ rules ∧ named_rule_matches rule q).
Proof.
  intros Hc%collect_Ok. induction Hc as [|rule r rules rs Hr _ IH]; simpl.
  - intros _. split; intros (? & []%elem_of_nil & _).
  - intros [Hn Hrest]%orb_false_iff. specialize (IH Hrest).
    pose proof (Rule_try_from_matches _ _ q Hr Hn) as Hm. setoid_rewrite elem_of_cons. naive_solver.
Qed.

(** The requests for the same objects through other API groups and versions, from the
    discovery of the API server. *)
Variable equivalents : AdmissionAttributes → list AdmissionAttributes.

(** [Equivalent] also matches the equivalent requests; [Exact] does not. *)
Definition requests_of (match_policy : option string) req : list AdmissionAttributes :=
  if decide (unwrap_or "Equivalent" match_policy = "Exact") then [req] else req :: equivalents req.

(** Match constraints, of a policy or of a binding: without rules they match every
    resource. *)
Definition constraints_match (m : MatchResources) req : Prop :=
  namespace_matches (ms_namespace_selector m) req ∧
  object_matches (ms_object_selector m) req ∧
  (¬ ∃ q rule, q ∈ requests_of (ms_match_policy m) req ∧
     rule ∈ unwrap_or [] (ms_exclude_resource_rules m) ∧ named_rule_matches rule q) ∧
  (unwrap_or [] (ms_resource_rules m) = [] ∨
   ∃ q rule, q ∈ requests_of (ms_match_policy m) req ∧
     rule ∈ unwrap_or [] (ms_resource_rules m) ∧ named_rule_matches rule q).

(** The match fields of a ClusterAdmissionPolicy: without rules they match nothing. *)
Definition fields_match (f : MatchFields) req : Prop :=
  namespace_matches (mf_namespace_selector f) req ∧
  object_matches (mf_object_selector f) req ∧
  ∃ q r, q ∈ requests_of (mf_match_policy f) req ∧ r ∈ mf_rules f ∧ rule_matches r q.

End rules.

(** The pairs that can be translated. *)
Definition translatable (vap binding : MatchResources) : Prop :=
  unwrap_or [] (ms_exclude_resource_rules vap) = [] ∧
  unwrap_or [] (ms_exclude_resource_rules binding) = [] ∧
  unwrap_or [] (ms_resource_rules binding) = [] ∧
  (∀ rule, rule ∈ unwrap_or [] (ms_resource_rules vap) →
     names_resources rule = false ∧ ∃ r, Rule_try_from rule = Ok r) ∧
  (∀ p, ms_match_policy binding = Some p → p = match_policy_of vap) ∧
  (∀ a b, ms_namespace_selector vap = Some a → ms_namespace_selector binding = Some b →
     compatible a b) ∧
  (nonempty_selector (ms_object_selector vap) = None ∨
   nonempty_selector (ms_object_selector binding) = None).

Lemma some_nonempty_iff {A} (o : option (list A)) : some_nonempty o = false ↔ unwrap_or [] o = [].
Proof. by destruct o as [[]|]. Qed.

Lemma existsb_none {A} (p : A → bool) l : existsb p l = false ↔ ∀ x, x ∈ l → p x = false.
Proof. by rewrite existsb_false Forall_forall. Qed.

Lemma collect_total {A B E} (f : A → result B E) l :
  (∀ x, x ∈ l → ∃ b, f x = Ok b) → ∃ bs, collect f l = Ok bs.
Proof.
  induction l as [|a l IH]; intros H; simpl; [eauto|].
  destruct (H a) as [b ->]; [left|]. destruct IH as [bs ->]; [|simpl; eauto].
  intros x Hx. apply H. by right.
Qed.

Lemma merge_match_fields_Ok vap binding f :
  merge_match_fields vap binding = Ok f →
  translatable vap binding ∧ mf_match_policy f = ms_match_policy vap ∧
  and_label_selectors "namespaceSelector" (ms_namespace_selector vap) (ms_namespace_selector binding) =
    Ok (mf_namespace_selector f) ∧
  combine_object_selectors (ms_object_selector vap) (ms_object_selector binding) =
    Ok (mf_object_selector f) ∧
  collect Rule_try_from (unwrap_or [] (ms_resource_rules vap)) = Ok (mf_rules f).
Proof.
  rewrite /merge_match_fields. do 4 (case_match; [done|]).
  intros (? & Hpol & (ns & Hns & (os & Hos & (rs & Hrs%map_err_Ok & [= <-])%res_bind_Ok)%res_bind_Ok)%res_bind_Ok)%res_bind_Ok.
  simpl. split_and!; [|done..]. split_and!; [by apply some_nonempty_iff..| | | |].
  - intros rule Hrule. split; [by eapply existsb_none|].
    apply collect_Ok in Hrs. clear -Hrs Hrule. induction Hrs; [by apply elem_of_nil in Hrule|].
    apply elem_of_cons in Hrule as [->|]; eauto.
  - intros p Hp. rewrite Hp in Hpol. by case_decide.
  - intros a b Ha Hb. rewrite Ha Hb in Hns. by apply and_label_selectors_Ok in Hns as [? _].
  - rewrite /combine_object_selectors in Hos. repeat case_match; auto; done.
Qed.

Lemma merge_match_fields_total vap binding :
  translatable vap binding → ∃ f, merge_match_fields vap binding = Ok f.
Proof.
  intros (H1%some_nonempty_iff & H2%some_nonempty_iff & H3%some_nonempty_iff & Hr & Hp & Hn & Ho).
  rewrite /merge_match_fields H1 H2 H3.
  assert (existsb names_resources (unwrap_or [] (ms_resource_rules vap)) = false) as ->.
  { apply existsb_none. naive_solver. }
  assert (match ms_match_policy binding with
    | None => True | Some p => p = match_policy_of vap end) as Hp' by (case_match; auto).
  assert (is_ok (and_label_selectors "namespaceSelector" (ms_namespace_selector vap)
    (ms_namespace_selector binding))) as Hns by auto using and_label_selectors_total.
  destruct (collect_total Rule_try_from (unwrap_or [] (ms_resource_rules vap))) as [rs ->]; [naive_solver|].
  destruct (and_label_selectors _ _ _) as [ns|]; [|done].
  rewrite /combine_object_selectors.
  destruct (ms_match_policy binding); [rewrite decide_True; [|done]|]; simpl;
    destruct Ho as [-> | ->]; repeat case_match; simpl; eauto.
Qed.

(** ** The translation is exact *)

Section exact.
Variable equivalents : AdmissionAttributes → list AdmissionAttributes.

Lemma merged_fields_exact vap binding f req :
  merge_match_fields vap binding = Ok f → unwrap_or [] (ms_resource_rules vap) ≠ [] →
  fields_match equivalents f req ↔
  constraints_match equivalents vap req ∧ constraints_match equivalents binding req.
Proof.
  intros (Ht & Hpol & Hns & Hos & Hrs)%merge_match_fields_Ok Hrules.
  destruct Ht as (He1 & He2 & Hb & Hnames & _).
  rewrite /fields_match /constraints_match Hpol He1 He2 Hb.
  rewrite (merged_namespace_matches _ _ _ _ _ Hns) (combined_object_matches _ _ _ _ Hos).
  assert (existsb names_resources (unwrap_or [] (ms_resource_rules vap)) = false) as Hn
    by (apply existsb_none; naive_solver).
  pose proof (λ q, rules_convert _ _ q Hrs Hn) as Hconv.
  assert (∀ l, ¬ ∃ (q : AdmissionAttributes) rule, q ∈ (l : list AdmissionAttributes) ∧ rule ∈ [] ∧
    named_rule_matches rule q) as Hno by (intros l (q & rule & _ & []%elem_of_nil & _)).
  pose proof (Hno (requests_of equivalents (ms_match_policy vap) req)).
  pose proof (Hno (requests_of equivalents (ms_match_policy binding) req)).
  assert (∀ l : list AdmissionAttributes, (∃ q r, q ∈ l ∧ r ∈ mf_rules f ∧ rule_matches r q) ↔
    ∃ q rule, q ∈ l ∧ rule ∈ unwrap_or [] (ms_resource_rules vap) ∧ named_rule_matches rule q) as ->
    by (clear -Hconv; naive_solver).
  tauto.
Qed.

(** The same for any policy: one without rules is translated to fields that match nothing. *)
Lemma merged_fields_rules vap binding f req :
  merge_match_fields vap binding = Ok f →
  fields_match equivalents f req ↔ unwrap_or [] (ms_resource_rules vap) ≠ [] ∧
    constraints_match equivalents vap req ∧ constraints_match equivalents binding req.
Proof.
  intros Hf. destruct (decide (unwrap_or [] (ms_resource_rules vap) = [])) as [Hr|Hr].
  - apply merge_match_fields_Ok in Hf as (_ & _ & _ & _ & Hrs). rewrite Hr in Hrs. split; [|tauto].
    intros (_ & _ & q & r & _ & Hin & _). simpl in Hrs. injection Hrs as Hrs. rewrite -Hrs in Hin.
    by apply elem_of_nil in Hin.
  - rewrite (merged_fields_exact _ _ _ _ Hf Hr). tauto.
Qed.

(** A policy and its binding are accepted exactly when they use nothing the
    ClusterAdmissionPolicy cannot express: no exclusion, no rules on the binding, no resource
    names, the same match policy, compatible labels for the namespaces, at most one object
    selector, and rules with known operations and scopes. The fields then match a request
    exactly when the API server would have evaluated the policy on it: when the constraints
    of the policy and those of the binding both match. *)
Theorem merged_fields_match_exactly vap binding :
  ((∃ f, merge_match_fields vap binding = Ok f) ↔ translatable vap binding) ∧
  ∀ f req, merge_match_fields vap binding = Ok f → unwrap_or [] (ms_resource_rules vap) ≠ [] →
    fields_match equivalents f req ↔
    constraints_match equivalents vap req ∧ constraints_match equivalents binding req.
Proof.
  split; [|by intros f req; apply merged_fields_exact].
  split; [intros [f Hf]; by apply merge_match_fields_Ok in Hf as [? _]|apply merge_match_fields_total].
Qed.
End exact.

(** ** Examples *)

Definition labels_selector (l : list (string * string)) : LabelSelector :=
  {| ls_match_expressions := None; ls_match_labels := Some (list_to_map l) |}.

Definition pods_rule : NamedRuleWithOperations :=
  {| nr_operations := Some ["CREATE"; "UPDATE"]; nr_api_groups := Some [""];
     nr_api_versions := Some ["v1"]; nr_resources := Some ["pods"]; nr_scope := Some "Namespaced";
     nr_resource_names := None |}.

Definition example_vap : MatchResources :=
  {| ms_exclude_resource_rules := None; ms_match_policy := None;
     ms_namespace_selector := Some (labels_selector [("env", "prod")]);
     ms_object_selector := Some (labels_selector [("protected", "yes")]);
     ms_resource_rules := Some [pods_rule] |}.

Definition example_binding : MatchResources :=
  {| ms_exclude_resource_rules := Some []; ms_match_policy := Some "Equivalent";
     ms_namespace_selector := Some (labels_selector [("team", "platform")]);
     ms_object_selector := None; ms_resource_rules := None |}.

Definition example_request (old new : gmap string string) : AdmissionAttributes :=
  {| at_operation := OpUpdate; at_group := ""; at_version := "v1"; at_resource := "pods";
     at_subresource := ""; at_name := "web"; at_namespaced := true;
     at_namespace_labels := Some (list_to_map [("env", "prod"); ("team", "platform")]);
     at_objects := [old; new] |}.

Lemma one_label_matches k v (m : gmap string string) :
  m !! k = Some v → selector_matches (labels_selector [(k, v)]) m.
Proof. intros Hm. split; [simpl; by apply insert_subseteq_l, map_empty_subseteq|by apply Forall_nil]. Qed.

Lemma merged_fields_match_exactly_witness :
  ∃ f, merge_match_fields example_vap example_binding = Ok f ∧
    fields_match (λ _, []) f (example_request {["protected" := "yes"]} ∅).
Proof.
  destruct (merged_fields_match_exactly (λ _, []) example_vap example_binding) as [_ H].
  eexists. split; [vm_compute; reflexivity|]. apply H; [vm_compute; reflexivity|done|].
  split; split_and!.
  1,5: by apply one_label_matches.
  - exists {["protected" := "yes"]}. split; [left|by apply one_label_matches].
  - intros (q & rule & _ & []%elem_of_nil & _).
  - right. exists (example_request {["protected" := "yes"]} ∅), pods_rule. split_and!; [left|left|].
    split_and!; [right; right; left|right; left|right; left| |by right|done].
    exists "pods". split; [left|]. split; right; reflexivity.
  - done.
  - intros (q & rule & _ & []%elem_of_nil & _).
  - by left.
Defined.

(** Merging two object selectors the way the namespace selectors are merged would miss
    an update that the API server evaluates. *)
Example merging_object_selectors_is_unsound :
  let a := labels_selector [("protected", "yes")] in
  let b := labels_selector [("team", "security")] in
  let req := example_request (list_to_map [("protected", "yes"); ("team", "other")])
               (list_to_map [("protected", "no"); ("team", "security")]) in
  ∃ s, and_label_selectors "objectSelector" (Some a) (Some b) = Ok s ∧
    object_matches (Some a) req ∧ object_matches (Some b) req ∧ ¬ object_matches s req.
Proof.
  eexists. split; [vm_compute; reflexivity|]. split_and!.
  - eexists. split; [left|]. by apply one_label_matches.
  - eexists. split; [right; left|]. by apply one_label_matches.
  - intros (labels & Hin & Hsub & _). rewrite map_subseteq_spec in Hsub.
    pose proof (Hsub "protected" "yes" ltac:(vm_compute; reflexivity)).
    pose proof (Hsub "team" "security" ltac:(vm_compute; reflexivity)).
    apply elem_of_cons in Hin as [->|Hin%list_elem_of_singleton]; [|subst labels]; done.
Qed.
