(* ===== verification/OutputFile.v ===== *)
(** * Writing the files of a scaffolded policy

    Models [write_output_file], [parent_dir_of] and [metadata_path_for] of
    [crates/kwctl/src/scaffold/vap/compiled.rs] over a disk whose calls may fail.

    The disk is the map of the files, the file-mode creation mask, and the failures of the
    calls to come: each call of the operating system takes the next one. The temporary
    file of a write has a name of its own, that no path of the program denotes, so it is
    the value that the calls pass on; it is deleted when it is dropped. *)

From S2P Require Import Prelude Bytes RustStr RustPath.

Inductive IoError := AlreadyExists | OtherError (e : string).

Record File := { f_contents : bytes; f_mode : N }.

Record Disk := {
  files : gmap Path File;
  umask : N;
  faults : list (option IoError);
}.

Definition D (A : Type) : Type := M Disk A.

Definition set_files (fs : gmap Path File) (d : Disk) : Disk :=
  {| files := fs; umask := umask d; faults := faults d |}.

(** A call that may fail. *)
Definition syscall {A} (run : Disk → result A IoError * Disk) : D (result A IoError) := λ d,
  match faults d with
  | Some e :: l => Some (Err e, {| files := files d; umask := umask d; faults := l |})
  | None :: l => Some (run {| files := files d; umask := umask d; faults := l |})
  | [] => Some (run d)
  end.

(** ** The calls *)

(** [Builder::permissions(0o666).tempfile_in]. The temporary file is a value, not a file of [files]: its
    name is fresh, and removing it, which [tempfile] does on a drop and whose failure nobody sees, is left
    out. *)
Definition tempfile_in (dir : Path) : D (result File IoError) :=
  syscall (λ d, (Ok {| f_contents := []; f_mode := N.ldiff 438 (umask d) |}, d)).

(** [write_all] and [sync_all] *)
Definition write_all (tmp : File) (contents : bytes) : D (result File IoError) :=
  syscall (λ d, (Ok {| f_contents := f_contents tmp ++ contents; f_mode := f_mode tmp |}, d)).

Definition sync_all (tmp : File) : D (result unit IoError) := syscall (λ d, (Ok tt, d)).

(** [fs::metadata], of the permissions *)
Definition fs_metadata (path : Path) : D (result N IoError) :=
  syscall (λ d, (match files d !! resolve path with
                 | Some f => Ok (f_mode f)
                 | None => Err (OtherError "No such file or directory (os error 2)")
                 end, d)).

Definition set_permissions (tmp : File) (mode : N) : D (result File IoError) :=
  syscall (λ d, (Ok {| f_contents := f_contents tmp; f_mode := mode |}, d)).

(** [persist]: an atomic rename, that replaces the file. *)
Definition persist (tmp : File) (path : Path) : D (result unit IoError) :=
  syscall (λ d, (Ok tt, set_files (<[resolve path := tmp]> (files d)) d)).

Definition persist_noclobber (tmp : File) (path : Path) : D (result unit IoError) :=
  syscall (λ d, match files d !! resolve path with
                | Some _ => (Err AlreadyExists, d)
                | None => (Ok tt, set_files (<[resolve path := tmp]> (files d)) d)
                end).

(** [Path::exists]: a failure counts as a missing file. *)
Definition path_exists (path : Path) : D bool :=
  let! r := fs_metadata path in m_ret (is_ok r).

Definition remove_file (path : Path) : D (result unit IoError) :=
  syscall (λ d, match files d !! resolve path with
                | Some _ => (Ok tt, set_files (delete (resolve path) (files d)) d)
                | None => (Err (OtherError "No such file or directory (os error 2)"), d)
                end).

(** ** [compiled.rs] *)

Inductive WriteError :=
| CannotCreateTemporary (what : string) (dir : Path) (e : IoError)
| CannotWrite (what : string) (path : Path) (e : IoError)
| CannotSetPermissions (what : string) (e : IoError)
| FileExists (what : string) (path : Path).

Definition parent_dir_of (path : Path) : Path :=
  match path_parent path with
  | Some parent => if path_empty parent then path_of "." else parent
  | None => path_of "."
  end.

Definition metadata_path_for (wasm_path : Path) : Path :=
  path_join (parent_dir_of wasm_path) "metadata.yml".

Definition failed {A E F} (f : E → F) (c : D (result A E)) : D (result A F) :=
  let! r := c in m_ret (map_err f r).

(** The temporary file, next to its destination, with the contents on the disk. *)
Definition stage_file (path : Path) (contents : bytes) (what : string) : D (result File WriteError) :=
  let dir := parent_dir_of path in
  let!? tmp := failed (CannotCreateTemporary what dir) (tempfile_in dir) in
  failed (CannotWrite what path)
    (let!? tmp := write_all tmp contents in let!? _ := sync_all tmp in m_ret (Ok tmp)).

(** Under [force] the file takes the permissions of the one it replaces. *)
Definition keep_permissions (path : Path) (tmp : File) (force : bool) (what : string) :
    D (result File WriteError) :=
  if force then
    let! existing := fs_metadata path in
    match existing with
    | Ok permissions => failed (CannotSetPermissions what) (set_permissions tmp permissions)
    | Err _ => m_ret (Ok tmp)
    end
  else m_ret (Ok tmp).

Definition write_output_file (path : Path) (contents : bytes) (force : bool) (what : string) :
    D (result unit WriteError) :=
  let!? tmp := stage_file path contents what in
  let!? tmp := keep_permissions path tmp force what in
  if force then failed (CannotWrite what path) (persist tmp path)
  else failed (λ e, match e with
                    | AlreadyExists => FileExists what path
                    | _ => CannotWrite what path e
                    end) (persist_noclobber tmp path).

(** ** A write is atomic *)

Section outcomes.
Implicit Types (d : Disk) (path : Path).

(** What holds of every outcome of a computation. *)
Definition outcome {A} (c : D A) d (Q : A → Disk → Prop) : Prop :=
  ∀ a d', c d = Some (a, d') → Q a d'.

Definition same_files d d' : Prop := files d' = files d ∧ umask d' = umask d.

#[export] Instance same_files_preorder : PreOrder same_files.
Proof. split; [done|]. intros d1 d2 d3 [H1 H2] [H3 H4]. split; congruence. Qed.

Lemma outcome_ret {A} (a : A) d Q : Q a d → outcome (m_ret a) d Q.
Proof. by intros HQ b d' [= <- <-]. Qed.

Lemma outcome_bind {A B} (c : D A) (k : A → D B) d Q :
  outcome c d (λ a d1, outcome (k a) d1 Q) → outcome (m_bind c k) d Q.
Proof. intros Hc b d' (a & d1 & Ha & Hb)%m_bind_Some. by eapply Hc. Qed.

Lemma outcome_mr_bind {A B E} (c : D (result A E)) (k : A → D (result B E)) d Q :
  outcome c d (λ r d1, match r with Ok a => outcome (k a) d1 Q | Err e => Q (Err e) d1 end) →
  outcome (mr_bind c k) d Q.
Proof.
  intros Hc. apply outcome_bind. intros [a|e] d1 Ha; [by apply (Hc (Ok a))|].
  apply outcome_ret. by apply (Hc (Err e)).
Qed.

Lemma outcome_weaken {A} (c : D A) d (P Q : A → Disk → Prop) :
  outcome c d P → (∀ a d', P a d' → Q a d') → outcome c d Q.
Proof. intros Hc HPQ a d' Ha. by apply HPQ, Hc. Qed.

Lemma outcome_failed {A E F} (f : E → F) (c : D (result A E)) d Q :
  outcome c d (λ r d', Q (map_err f r) d') → outcome (failed f c) d Q.
Proof. intros Hc. apply outcome_bind. intros r d1 Hr. by apply outcome_ret, Hc. Qed.

Lemma outcome_syscall {A} (run : Disk → result A IoError * Disk) d Q :
  (∀ d1, same_files d d1 → (∀ e, Q (Err e) d1) ∧ Q (run d1).1 (run d1).2) →
  outcome (syscall run) d Q.
Proof.
  intros HQ r d'. rewrite /syscall. destruct (faults d) as [|[e|] l].
  - destruct (HQ d) as [_ H]; [done|]. intros [= Hr]. by rewrite Hr in H.
  - intros [= <- <-]. by apply HQ.
  - intros [= Hr]. destruct (HQ {| files := files d; umask := umask d; faults := l |}) as [_ H]; [done|].
    by rewrite Hr in H.
Qed.

(** A call that leaves the files as they are. *)
Lemma outcome_pure {A} (f : Disk → result A IoError) d :
  (∀ d1, same_files d d1 → f d1 = f d) →
  outcome (syscall (λ d, (f d, d))) d (λ r d', same_files d d' ∧ (r = f d ∨ ∃ e, r = Err e)).
Proof.
  intros Hf. apply outcome_syscall. intros d1 Hd. simpl. rewrite (Hf d1 Hd).
  split; [intros e|]; (split; [done|]); eauto.
Qed.

Lemma path_exists_outcome path d :
  outcome (path_exists path) d (λ b d', same_files d d' ∧ (b = true → is_Some (files d !! resolve path))).
Proof.
  apply outcome_bind. eapply outcome_weaken.
  { apply outcome_pure. by intros d1 [-> _]. }
  intros r d1 [Hd Hr]. apply outcome_ret. split; [done|].
  destruct (files d !! resolve path); [done|]. destruct Hr as [->|[e ->]]; done.
Qed.

(** A removal removes the file or does nothing. *)
Lemma remove_file_outcome path d :
  outcome (remove_file path) d (λ r d', umask d' = umask d ∧
    ((r = Ok tt ∧ files d' = delete (resolve path) (files d)) ∨ ((∃ e, r = Err e) ∧ files d' = files d))).
Proof.
  apply outcome_syscall. intros d1 [Hf Hu]. split; [eauto|].
  destruct (files d1 !! resolve path) eqn:Hp; simpl; rewrite Hf in Hp |- *; eauto.
Qed.
End outcomes.

Section write_output.
Implicit Types (d : Disk) (path : Path).

Definition default_mode d : N := N.ldiff 438 (umask d).

(** The modes a written file may have. *)
Definition mode_after (force : bool) path d (mode : N) : Prop :=
  mode = default_mode d ∨
  ∃ f, force = true ∧ files d !! resolve path = Some f ∧ mode = f_mode f.

Definition staged (contents : bytes) d (tmp : File) : Prop :=
  tmp = {| f_contents := contents; f_mode := default_mode d |}.

Lemma staging_outcome path contents what d :
  outcome (stage_file path contents what) d
    (λ r d', same_files d d' ∧ ∀ tmp, r = Ok tmp → staged contents d tmp).
Proof.
  apply outcome_mr_bind, outcome_failed. eapply outcome_weaken; [by apply outcome_pure; intros d1 [_ ->]|].
  intros r d1 [Hd1 Hr]. destruct r as [tmp|e]; simpl; [|by split].
  destruct Hr as [[= ->]|[e [=]]].
  apply outcome_failed, outcome_mr_bind. eapply outcome_weaken; [by apply outcome_pure|].
  intros r d2 [Hd2 Hr]. assert (same_files d d2) as Hd by (by trans d1). destruct r as [tmp|e]; simpl; [|by split].
  destruct Hr as [[= ->]|[e [=]]].
  apply outcome_mr_bind. eapply outcome_weaken; [by apply outcome_pure|].
  intros r d3 [Hd3 Hr]. assert (same_files d d3) by (by trans d2). destruct r as [[]|e]; simpl; [|by split].
  apply outcome_ret. split; [done|]. by intros tmp [= <-].
Qed.

Lemma permissions_outcome path tmp force what d :
  outcome (keep_permissions path tmp force what) d
    (λ r d', same_files d d' ∧ ∀ tmp', r = Ok tmp' → f_contents tmp' = f_contents tmp ∧
      (f_mode tmp' = f_mode tmp ∨
       ∃ f, force = true ∧ files d !! resolve path = Some f ∧ f_mode tmp' = f_mode f)).
Proof.
  destruct force; [|apply outcome_ret; split; [done|]; intros tmp' [= <-]; auto].
  apply outcome_bind. eapply outcome_weaken; [by apply outcome_pure; intros d1 [-> _]|].
  intros r d1 [Hd1 Hr]. destruct r as [mode|e].
  - destruct Hr as [Hr|[e [=]]]. destruct (files d !! resolve path) as [f|] eqn:Hf; [injection Hr as ->|done].
    apply outcome_failed. eapply outcome_weaken; [by apply outcome_pure|].
    intros r d2 [Hd2 Hr]. split; [by trans d1|]. intros tmp'. destruct r as [t|e]; [|done].
    destruct Hr as [[= ->]|[e [=]]]. intros [= <-]. simpl. eauto 10.
  - apply outcome_ret. split; [done|]. intros tmp' [= <-]. auto.
Qed.

(** Whatever fails, the path holds the whole new contents or the disk is as it was;
    without [force] an existing file is never replaced. *)
Lemma write_output_file_outcome path contents force what d :
  outcome (write_output_file path contents force what) d (λ r d', umask d' = umask d ∧
    ((∃ e, r = Err e) ∧ files d' = files d ∨
     r = Ok tt ∧ (force = false → files d !! resolve path = None) ∧ ∃ mode, mode_after force path d mode ∧
       files d' = <[resolve path := {| f_contents := contents; f_mode := mode |}]> (files d))).
Proof.
  apply outcome_mr_bind. eapply outcome_weaken; [apply staging_outcome|].
  intros r d1 [[Hf1 Hu1] Hr]. destruct r as [tmp|e]; [|by eauto 10]. specialize (Hr tmp eq_refl).
  rewrite Hr. apply outcome_mr_bind. eapply outcome_weaken; [apply permissions_outcome|].
  intros r d2 [[Hf2 Hu2] Hr2]. destruct r as [tmp'|e]; [|split; [congruence|left; split; [eauto|congruence]]].
  destruct (Hr2 tmp' eq_refl) as [Hc Hm]. simpl in Hc, Hm.
  assert (tmp' = {| f_contents := contents; f_mode := f_mode tmp' |}) as Htmp by (destruct tmp'; by simplify_eq/=).
  assert (mode_after force path d (f_mode tmp')) as Hmode.
  { destruct Hm as [Hm|(f & Hf & Hl & Hm)]; [by left|right]. exists f. by rewrite -Hf1. }
  destruct force; apply outcome_failed, outcome_syscall; intros d3 [Hf3 Hu3].
  - split; [intros e; simpl; split; [congruence|left; split; [eauto|congruence]]|].
    simpl. split; [congruence|]. right. split_and!; [done..|]. exists (f_mode tmp'). split; [done|].
    rewrite -Htmp. congruence.
  - split; [intros e; simpl; split; [congruence|left; split; [eauto|congruence]]|].
    destruct (files d3 !! resolve path) eqn:Hp; simpl; (split; [congruence|]).
    + left. split; [eauto|congruence].
    + right. split_and!; [done|intros _; congruence|]. exists (f_mode tmp'). split; [done|].
      rewrite -Htmp. congruence.
Qed.
End write_output.
