(* ===== verification/ArtifactHub.v ===== *)
(** * The Artifact Hub package of a policy

    Models [crates/policy-evaluator/src/policy_artifacthub.rs]: the document that
    describes a policy to Artifact Hub, made from the annotations of its metadata.

    The crates [semver], [url], [oci_client], [mail_parser], [email_address], [serde_yaml] and
    [time] are parameters. *)

From S2P Require Import Prelude Bytes Json AdmissionResponse Request HostCapabilities Callback.
From S2P Require Import RustStr VerificationConstraints Sources Registry Metadata.

(** ** [constants.rs] *)
Definition KUBEWARDEN_ANNOTATION_POLICY_TITLE : string := "io.kubewarden.policy.title".
Definition KUBEWARDEN_ANNOTATION_POLICY_VERSION : string := "io.kubewarden.policy.version".
Definition KUBEWARDEN_ANNOTATION_POLICY_DESCRIPTION : string := "io.kubewarden.policy.description".
Definition KUBEWARDEN_ANNOTATION_POLICY_AUTHOR : string := "io.kubewarden.policy.author".
Definition KUBEWARDEN_ANNOTATION_POLICY_URL : string := "io.kubewarden.policy.url".
Definition KUBEWARDEN_ANNOTATION_POLICY_OCIURL : string := "io.kubewarden.policy.ociUrl".
Definition KUBEWARDEN_ANNOTATION_POLICY_SOURCE : string := "io.kubewarden.policy.source".
Definition KUBEWARDEN_ANNOTATION_POLICY_LICENSE : string := "io.kubewarden.policy.license".
Definition KUBEWARDEN_ANNOTATION_GITHUB_RELEASE_TAG : string := "com.github.release.tag".
Definition KUBEWARDEN_ANNOTATION_ARTIFACTHUB_RESOURCES : string := "io.artifacthub.resources".
Definition KUBEWARDEN_ANNOTATION_ARTIFACTHUB_DISPLAYNAME : string := "io.artifacthub.displayName".
Definition KUBEWARDEN_ANNOTATION_ARTIFACTHUB_KEYWORDS : string := "io.artifacthub.keywords".
Definition KUBEWARDEN_ANNOTATION_ARTIFACTHUB_HIDDENUI : string := "io.kubewarden.hidden-ui".
Definition ARTIFACTHUB_ANNOTATION_KUBEWARDEN_MUTATION : string := "kubewarden/mutation".
Definition ARTIFACTHUB_ANNOTATION_KUBEWARDEN_CONTEXTAWARE_RESOURCES : string :=
  "kubewarden/contextAwareResources".
Definition ARTIFACTHUB_ANNOTATION_KUBEWARDEN_RESOURCES : string := "kubewarden/resources".
Definition ARTIFACTHUB_ANNOTATION_RANCHER_HIDDENUI : string := "kubewarden/hidden-ui".
Definition ARTIFACTHUB_ANNOTATION_KUBEWARDEN_RULES : string := "kubewarden/rules".
Definition ARTIFACTHUB_ANNOTATION_KUBEWARDEN_QUESTIONSUI : string := "kubewarden/questions-ui".

Inductive ArtifactHubError :=
| NoAnnotations
| NoSemverVersion (e : string)
| EmptyQuestionsUI
| MissingAnnotation (annot : string)
| MalformedURL (annot error : string)
| MalformedCSV (annot : string)
| MalformedCSVEmail (annot : string)
| MalformedEmail (annot error : string)
| MalformedBoolString (annot : string).

Definition quoted (s : string) : string := dquote +:+ s +:+ dquote.

Definition ArtifactHubError_to_string (e : ArtifactHubError) : string :=
  match e with
  | NoAnnotations => "no annotations in policy metadata. policy metadata must specify annotations"
  | NoSemverVersion e => "policy version must be in semver: " +:+ e
  | EmptyQuestionsUI => "questions-ui content cannot be empty"
  | MissingAnnotation a => "policy metadata must specify " +:+ quoted a +:+ " in annotations"
  | MalformedURL a e => "annotation " +:+ quoted (debug_str a) +:+
      " in policy metadata must be a well formed URL: " +:+ debug_str e
  | MalformedCSV a => "annotation " +:+ quoted a +:+
      " in policy metadata is malformed, must be csv values"
  | MalformedCSVEmail a => "annotation " +:+ quoted a +:+
      " in policy metadata is malformed, must be csv values of " +:+ quoted "name <email>"
  | MalformedEmail a e => "annotation " +:+ quoted (debug_str a) +:+
      " in policy metadata must be a well formed email: " +:+ debug_str e
  | MalformedBoolString a => "annotation " +:+ quoted a +:+
      " in policy metadata is malformed, must be a string " +:+ quoted "true" +:+ " or " +:+
      quoted "false"
  end.

(** A mailbox of an address list: its name and its address. *)
Record Mailbox := { mb_name : option string; mb_address : option string }.

Class ArtifactHubLib := {
  SemVersion : Type;
  semver_parse : string → result SemVersion string;
  semver_to_string : SemVersion → string;
  OffsetDateTime : Type;
  (** [url::form_urlencoded::byte_serialize] *)
  byte_serialize : string → string;
  (** [MessageParser::parse] of a header, and the mailboxes of its [to()] *)
  parse_to_header : string → option (option (list Mailbox));
  email_from_str : string → result string string;
  yaml_of_resources : gset ContextAwareResource → string;
  yaml_of_rules : list Rule → string;
}.

Record ContainerImage := { ci_name : string; ci_image : string }.
Record Maintainer := { mt_name : string; mt_email : string }.
Inductive ConstLinkName := LinkPolicy | LinkSource.

Section artifact_hub.
Context `{UL : UrlLib, OL : OciLib, AL : ArtifactHubLib}.
Implicit Types (annots : gmap string string) (version : SemVersion) (metadata : Metadata).

Record Link := { lk_name : ConstLinkName; lk_url : Url }.

Record ArtifactHubPkg := {
  ah_version : SemVersion;
  ah_name : string;
  ah_display_name : string;
  ah_created_at : OffsetDateTime;
  ah_description : string;
  ah_license : option string;
  ah_home_url : option Url;
  ah_containers_images : option (list ContainerImage);
  ah_keywords : option (list string);
  ah_links : option (list Link);
  ah_install : option string;
  ah_maintainers : option (list Maintainer);
  ah_provider : string;
  ah_recommendations : list string;
  ah_annotations : gmap string string;
}.

Definition Provider_default : string := "kubewarden".
Definition Recommendation_default : string :=
  "https://artifacthub.io/packages/helm/kubewarden/kubewarden-controller".

Definition required_annotation annots (annot : string) : result string ArtifactHubError :=
  ok_or (annots !! annot) (MissingAnnotation annot).

Definition parse_name annots := required_annotation annots KUBEWARDEN_ANNOTATION_POLICY_TITLE.
Definition parse_display_name annots :=
  required_annotation annots KUBEWARDEN_ANNOTATION_ARTIFACTHUB_DISPLAYNAME.
Definition parse_description annots :=
  required_annotation annots KUBEWARDEN_ANNOTATION_POLICY_DESCRIPTION.

Definition annotation_url (annot s : string) : result Url ArtifactHubError :=
  map_err (λ e, MalformedURL annot (url_error_to_string e)) (url_parse s).

Definition parse_home_url annots : result (option Url) ArtifactHubError :=
  match annots !! KUBEWARDEN_ANNOTATION_POLICY_URL with
  | Some s => let? url := annotation_url KUBEWARDEN_ANNOTATION_POLICY_URL s in Ok (Some url)
  | None => Ok None
  end.

(** The image of the policy, tagged with its version. *)
Definition oci_image (s : string) version : result string ArtifactHubError :=
  let? oci_url := map_err (MalformedURL KUBEWARDEN_ANNOTATION_POLICY_OCIURL)
    (reference_try_from (s +:+ ":v" +:+ semver_to_string version)) in
  Ok (reference_whole oci_url).

Definition parse_oci_url annots version : result (option string) ArtifactHubError :=
  match annots !! KUBEWARDEN_ANNOTATION_POLICY_OCIURL with
  | Some s => let? image := oci_image s version in Ok (Some image)
  | None => Ok None
  end.

Definition parse_containers_images annots version :
    result (option (list ContainerImage)) ArtifactHubError :=
  match annots !! KUBEWARDEN_ANNOTATION_POLICY_OCIURL with
  | Some s =>
      let? image := oci_image s version in
      Ok (Some [{| ci_name := "policy"; ci_image := image |}])
  | None => Err (MissingAnnotation KUBEWARDEN_ANNOTATION_POLICY_OCIURL)
  end.

(** [trim_start_matches(' ')] and [trim_end_matches(' ')] *)
Definition trim_spaces (s : string) : string :=
  let s := trim_with strip_prefix [" "] (String.length s) s in
  trim_with strip_suffix [" "] (String.length s) s.

Definition parse_keywords annots : result (option (list string)) ArtifactHubError :=
  match annots !! KUBEWARDEN_ANNOTATION_ARTIFACTHUB_KEYWORDS with
  | Some s =>
      let csv := trim_spaces <$> split s "," in
      if existsb (λ word, bool_decide (word = "")) csv
      then Err (MalformedCSV KUBEWARDEN_ANNOTATION_ARTIFACTHUB_KEYWORDS) else Ok (Some csv)
  | None => Ok None
  end.

Definition release_of version (gh_release_tag : option string) : string :=
  match gh_release_tag with
  | Some tag => byte_serialize tag
  | None => "v" +:+ semver_to_string version
  end.

Definition parse_links annots version (gh_release_tag : option string) :
    result (option (list Link)) ArtifactHubError :=
  match annots !! KUBEWARDEN_ANNOTATION_POLICY_SOURCE with
  | Some s =>
      let? policy_source := annotation_url KUBEWARDEN_ANNOTATION_POLICY_SOURCE s in
      if decide (url_host_str policy_source = Some "github.com") then
        let? url := annotation_url KUBEWARDEN_ANNOTATION_POLICY_SOURCE
          (url_to_string policy_source +:+ "/releases/download/" +:+
           release_of version gh_release_tag +:+ "/policy.wasm") in
        Ok (Some [{| lk_name := LinkPolicy; lk_url := url |};
                  {| lk_name := LinkSource; lk_url := policy_source |}])
      else Ok (Some [{| lk_name := LinkSource; lk_url := policy_source |}])
  | None => Ok None
  end.

Definition newline : string := String (Ascii.ascii_of_N 10) "".

Definition compose_install (oci_url : string) : string :=
  "The policy can be obtained using [kwctl](https://docs.kubewarden.io/howtos/install-kwctl):"
  +:+ newline +:+ "```console" +:+ newline +:+ "kwctl pull " +:+ oci_url +:+ newline +:+ "```"
  +:+ newline +:+
  "Then, generate the policy manifest and tune it to your liking. For example:"
  +:+ newline +:+ "```console" +:+ newline +:+
  "kwctl scaffold manifest -t ClusterAdmissionPolicy registry://" +:+ oci_url +:+ newline +:+
  "```" +:+ newline.

Definition maintainer_of (m : Mailbox) : result Maintainer ArtifactHubError :=
  let? email := map_err (MalformedEmail KUBEWARDEN_ANNOTATION_POLICY_AUTHOR)
    (email_from_str (unwrap_or "" (mb_address m))) in
  Ok {| mt_name := unwrap_or "" (mb_name m); mt_email := email |}.

Definition parse_maintainers annots : result (option (list Maintainer)) ArtifactHubError :=
  match annots !! KUBEWARDEN_ANNOTATION_POLICY_AUTHOR with
  | Some s =>
      let? msg := ok_or (parse_to_header ("To: " +:+ s))
        (MalformedCSVEmail KUBEWARDEN_ANNOTATION_POLICY_AUTHOR) in
      let? mailboxes := ok_or msg (MalformedCSVEmail KUBEWARDEN_ANNOTATION_POLICY_AUTHOR) in
      let? maintainers := try_fold (λ acc m, let? mt := maintainer_of m in Ok (acc ++ [mt]))
        [] mailboxes in
      Ok (Some maintainers)
  | None => Ok None
  end.

Definition bool_to_string (b : bool) : string := if b then "true" else "false".

(** An optional insertion. *)
Definition insert_some (k : string) (v : option string) (m : gmap string string) : gmap string string :=
  match v with Some v => <[k := v]> m | None => m end.

(** The value of the [hidden-ui] annotation goes through [String::from_str], which
    always succeeds. *)
Definition string_from_str (s : string) : result string unit := Ok s.

Definition parse_annotations annots metadata (questions : option string) :
    result (gmap string string) ArtifactHubError :=
  let a : gmap string string :=
    {[ARTIFACTHUB_ANNOTATION_KUBEWARDEN_MUTATION := bool_to_string (md_mutating metadata)]} in
  let a := insert_some ARTIFACTHUB_ANNOTATION_KUBEWARDEN_CONTEXTAWARE_RESOURCES
    (if decide (md_context_aware_resources metadata = ∅) then None
     else Some (yaml_of_resources (md_context_aware_resources metadata))) a in
  let a := <[ARTIFACTHUB_ANNOTATION_KUBEWARDEN_RULES := yaml_of_rules (md_rules metadata)]> a in
  let a := insert_some ARTIFACTHUB_ANNOTATION_KUBEWARDEN_QUESTIONSUI questions a in
  let? a :=
    match annots !! KUBEWARDEN_ANNOTATION_ARTIFACTHUB_HIDDENUI with
    | Some string_bool =>
        let? v := map_err (λ _, MalformedBoolString KUBEWARDEN_ANNOTATION_ARTIFACTHUB_HIDDENUI)
          (string_from_str string_bool) in
        Ok (<[ARTIFACTHUB_ANNOTATION_RANCHER_HIDDENUI := v]> a)
    | None => Ok a
    end in
  Ok (insert_some ARTIFACTHUB_ANNOTATION_KUBEWARDEN_RESOURCES
        (annots !! KUBEWARDEN_ANNOTATION_ARTIFACTHUB_RESOURCES) a).

Definition from_metadata metadata (created_at : OffsetDateTime) (questions : option string) :
    result ArtifactHubPkg ArtifactHubError :=
  let? annots := ok_or (md_annotations metadata) NoAnnotations in
  if decide (annots = ∅) then Err NoAnnotations else
  let? v := required_annotation annots KUBEWARDEN_ANNOTATION_POLICY_VERSION in
  let gh_release_tag := annots !! KUBEWARDEN_ANNOTATION_GITHUB_RELEASE_TAG in
  let? semver_version := map_err NoSemverVersion (semver_parse v) in
  if decide (questions = Some "") then Err EmptyQuestionsUI else
  let? name := parse_name annots in
  let? display_name := parse_display_name annots in
  let? description := parse_description annots in
  let? home_url := parse_home_url annots in
  let? containers_images := parse_containers_images annots semver_version in
  let? keywords := parse_keywords annots in
  let? links := parse_links annots semver_version gh_release_tag in
  let? oci_url := parse_oci_url annots semver_version in
  let? maintainers := parse_maintainers annots in
  let? annotations := parse_annotations annots metadata questions in
  Ok {| ah_version := semver_version; ah_name := name; ah_display_name := display_name;
        ah_created_at := created_at; ah_description := description;
        ah_license := annots !! KUBEWARDEN_ANNOTATION_POLICY_LICENSE;
        ah_home_url := home_url; ah_containers_images := containers_images;
        ah_keywords := keywords; ah_links := links; ah_install := compose_install <$> oci_url;
        ah_maintainers := maintainers; ah_provider := Provider_default;
        ah_recommendations := [Recommendation_default]; ah_annotations := annotations |}.

(** ** Properties *)

(** Keywords as they are meant to be written: without commas or spaces at the ends. *)
Definition clean_keyword (w : string) : Prop :=
  w ≠ "" ∧ contains_char w "," = false ∧ trim_spaces w = w.

Lemma existsb_empty_false l : existsb (λ w : string, bool_decide (w = "")) l = false ↔ "" ∉ l.
Proof.
  induction l as [|w l IH]; simpl; [set_solver|].
  rewrite orb_false_iff bool_decide_eq_false IH. set_solver.
Qed.

(** A list of clean keywords written with commas is read back. *)
Lemma parse_keywords_join annots l :
  l ≠ [] → Forall clean_keyword l →
  annots !! KUBEWARDEN_ANNOTATION_ARTIFACTHUB_KEYWORDS = Some (join "," l) →
  parse_keywords annots = Ok (Some l).
Proof.
  intros Hl Hclean Ha. rw /parse_keywords Ha split_join //; last first.
  { eapply Forall_impl; [done|]. by intros w (_ & Hw & _). }
  assert (trim_spaces <$> l = l) as ->.
  { clear -Hclean. induction Hclean as [|w l (_ & _ & Hw) _ IH]; [done|]. by rw fmap_cons Hw IH. }
  rewrite (proj2 (existsb_empty_false l)) //.
  intros Hin. rewrite -> Forall_forall in Hclean. by destruct (Hclean "" Hin).
Qed.

(** *** The policies that can be published *)

Definition valid_home annots : Prop :=
  ∀ s, annots !! KUBEWARDEN_ANNOTATION_POLICY_URL = Some s → is_ok (url_parse s).

Definition valid_image annots version : Prop :=
  ∃ s, annots !! KUBEWARDEN_ANNOTATION_POLICY_OCIURL = Some s ∧
    is_ok (reference_try_from (s +:+ ":v" +:+ semver_to_string version)).

Definition valid_keywords annots : Prop :=
  ∀ s, annots !! KUBEWARDEN_ANNOTATION_ARTIFACTHUB_KEYWORDS = Some s →
    ∀ w, w ∈ split s "," → trim_spaces w ≠ "".

Definition valid_source annots version : Prop :=
  ∀ s, annots !! KUBEWARDEN_ANNOTATION_POLICY_SOURCE = Some s →
    ∃ u, url_parse s = Ok u ∧
      (url_host_str u = Some "github.com" →
       is_ok (url_parse (url_to_string u +:+ "/releases/download/" +:+
         release_of version (annots !! KUBEWARDEN_ANNOTATION_GITHUB_RELEASE_TAG) +:+ "/policy.wasm"))).

Definition valid_authors annots : Prop :=
  ∀ s, annots !! KUBEWARDEN_ANNOTATION_POLICY_AUTHOR = Some s →
    ∃ ms, parse_to_header ("To: " +:+ s) = Some (Some ms) ∧
      ∀ m, m ∈ ms → is_ok (email_from_str (unwrap_or "" (mb_address m))).

Definition publishable metadata (questions : option string) : Prop :=
  ∃ annots v version, md_annotations metadata = Some annots ∧
    annots !! KUBEWARDEN_ANNOTATION_POLICY_VERSION = Some v ∧ semver_parse v = Ok version ∧
    is_Some (annots !! KUBEWARDEN_ANNOTATION_POLICY_TITLE) ∧
    is_Some (annots !! KUBEWARDEN_ANNOTATION_ARTIFACTHUB_DISPLAYNAME) ∧
    is_Some (annots !! KUBEWARDEN_ANNOTATION_POLICY_DESCRIPTION) ∧
    questions ≠ Some "" ∧ valid_home annots ∧ valid_image annots version ∧
    valid_keywords annots ∧ valid_source annots version ∧ valid_authors annots.

Lemma is_ok_bind {A B E} (r : result A E) (k : A → result B E) :
  is_ok (res_bind r k) ↔ ∃ a, r = Ok a ∧ is_ok (k a).
Proof. destruct r; simpl; naive_solver. Qed.

Lemma is_ok_map_err {A E F} (f : E → F) (r : result A E) : is_ok (map_err f r) ↔ is_ok r.
Proof. by destruct r. Qed.

Lemma is_ok_Ok {A E} (r : result A E) : is_ok r ↔ ∃ a, r = Ok a.
Proof. destruct r; simpl; naive_solver. Qed.

Lemma annotation_url_Ok annot s u : annotation_url annot s = Ok u ↔ url_parse s = Ok u.
Proof. rw /annotation_url. by rewrite map_err_Ok. Qed.

Lemma parse_home_url_ok annots : is_ok (parse_home_url annots) ↔ valid_home annots.
Proof.
  rw /parse_home_url /valid_home /annotation_url.
  destruct (annots !! _) as [s|]; [|naive_solver].
  destruct (url_parse s) eqn:Hs; simpl; split; try done.
  - intros _ ? [= <-]. by rw Hs.
  - intros H. specialize (H s eq_refl). by rewrite Hs in H.
Qed.

Lemma oci_image_ok s version :
  is_ok (oci_image s version) ↔
  is_ok (reference_try_from (s +:+ ":v" +:+ semver_to_string version)).
Proof. rw /oci_image. by destruct (reference_try_from _). Qed.

Lemma parse_containers_images_ok annots version :
  is_ok (parse_containers_images annots version) ↔ valid_image annots version.
Proof.
  rw /parse_containers_images /valid_image. destruct (annots !! _) as [s|]; [|naive_solver].
  rw is_ok_bind. split.
  - intros (i & Hi & _). exists s. split; [done|]. apply oci_image_ok. by rw Hi.
  - intros (? & [= <-] & Hs%oci_image_ok). destruct (oci_image s version); [|done]. eauto.
Qed.

Lemma parse_keywords_ok annots : is_ok (parse_keywords annots) ↔ valid_keywords annots.
Proof.
  rw /parse_keywords /valid_keywords. destruct (annots !! _) as [s|]; [|naive_solver].
  transitivity ("" ∉ trim_spaces <$> split s ",").
  - rewrite -existsb_empty_false. by destruct (existsb _ _).
  - rewrite list_elem_of_fmap. naive_solver.
Qed.

Lemma parse_links_ok annots version :
  is_ok (parse_links annots version (annots !! KUBEWARDEN_ANNOTATION_GITHUB_RELEASE_TAG)) ↔
  valid_source annots version.
Proof.
  rw /parse_links /valid_source /annotation_url.
  destruct (annots !! KUBEWARDEN_ANNOTATION_POLICY_SOURCE) as [s|]; [|naive_solver].
  destruct (url_parse s) as [u|] eqn:Hs; simpl; last first.
  { split; [done|]. intros H. destruct (H s eq_refl) as (u & Hu & _). congruence. }
  case_decide; last first.
  { split; [|done]. intros _ ? [= <-]. by exists u. }
  rw is_ok_bind. split.
  - intros (v & Hv & _) ? [= <-]. exists u. apply map_err_Ok in Hv. by rw Hv.
  - intros Hv. destruct (Hv s eq_refl) as (u' & Hu' & Hok).
    rewrite Hs in Hu'. injection Hu' as <-. specialize (Hok H).
    destruct (url_parse (_ +:+ _)); [|done]. eauto.
Qed.

Lemma maintainers_ok (ms : list Mailbox) acc :
  is_ok (try_fold (λ acc m, let? mt := maintainer_of m in Ok (acc ++ [mt])) acc ms) ↔
  ∀ m, m ∈ ms → is_ok (email_from_str (unwrap_or "" (mb_address m))).
Proof.
  revert acc. induction ms as [|m ms IH]; intros acc; simpl; [set_solver|].
  rw is_ok_bind /maintainer_of.
  destruct (email_from_str _) as [e|e] eqn:He; simpl.
  - transitivity (∀ m, m ∈ ms → is_ok (email_from_str (unwrap_or "" (mb_address m)))).
    + split; [intros (? & [= <-] & H); by eapply IH|]. intros H. eexists. split; [done|]. by apply IH.
    + setoid_rewrite elem_of_cons. split; [|naive_solver].
      intros H m' [->|Hm']; [by rw He|by apply H].
  - split; [by intros (? & ? & _)|]. intros H. specialize (H m (list_elem_of_here _ _)).
    by rewrite He in H.
Qed.

Lemma parse_maintainers_ok annots : is_ok (parse_maintainers annots) ↔ valid_authors annots.
Proof.
  rw /parse_maintainers /valid_authors. destruct (annots !! _) as [s|]; [|naive_solver].
  destruct (parse_to_header _) as [[ms|]|] eqn:Hh; simpl; last first.
  1,2: split; [done|]; intros H; destruct (H s eq_refl) as (ms & Hms & _); congruence.
  rw is_ok_bind. split.
  - intros (l & Hl & _) ? [= <-]. exists ms. split; [done|]. apply (maintainers_ok ms []).
    by rw Hl.
  - intros H. destruct (H s eq_refl) as (ms' & Hms & Hok). rewrite Hh in Hms. injection Hms as <-.
    apply (maintainers_ok ms []) in Hok. destruct (try_fold _ _ _); [|done]. eauto.
Qed.

Lemma parse_annotations_ok annots metadata questions :
  is_ok (parse_annotations annots metadata questions).
Proof. rw /parse_annotations. by destruct (annots !! _). Qed.

Lemma from_metadata_publishable metadata created_at questions pkg :
  from_metadata metadata created_at questions = Ok pkg → publishable metadata questions.
Proof.
  rw /from_metadata. intros H. apply res_bind_Ok in H as (annots & Ha & H). apply ok_or_Ok in Ha.
  case_decide; [done|]. apply res_bind_Ok in H as (v & Hv & H). apply ok_or_Ok in Hv.
  apply res_bind_Ok in H as (version & Hver & H). apply map_err_Ok in Hver.
  case_decide; [done|].
  apply res_bind_Ok in H as (name & Hname%ok_or_Ok & H).
  apply res_bind_Ok in H as (display & Hdisplay%ok_or_Ok & H).
  apply res_bind_Ok in H as (descr & Hdescr%ok_or_Ok & H).
  apply res_bind_Ok in H as (home & Hhome & H). apply res_bind_Ok in H as (images & Himages & H).
  apply res_bind_Ok in H as (kw & Hkw & H). apply res_bind_Ok in H as (links & Hlinks & H).
  apply res_bind_Ok in H as (oci & Hoci & H). apply res_bind_Ok in H as (mts & Hmts & H).
  exists annots, v, version. split_and!; try done; try by eexists.
  - apply parse_home_url_ok. by rw Hhome.
  - apply parse_containers_images_ok. by rw Himages.
  - apply parse_keywords_ok. by rw Hkw.
  - apply parse_links_ok. by rw Hlinks.
  - apply parse_maintainers_ok. by rw Hmts.
Qed.

Lemma is_ok_elim {A E} (r : result A E) : is_ok r → ∃ a, r = Ok a.
Proof. by rewrite is_ok_Ok. Qed.

(** The image of a publishable policy. *)
Lemma publishable_image annots version images :
  parse_containers_images annots version = Ok images →
  ∃ image, images = Some [{| ci_name := "policy"; ci_image := image |}] ∧
    parse_oci_url annots version = Ok (Some image).
Proof.
  rw /parse_containers_images /parse_oci_url. destruct (annots !! _) as [s|]; [|done].
  intros (image & Himage & [= <-])%res_bind_Ok. exists image. by rw Himage.
Qed.

Lemma publishable_from_metadata metadata created_at questions :
  publishable metadata questions → is_ok (from_metadata metadata created_at questions).
Proof.
  intros (annots & v & version & Ha & Hv & Hver & [name Hname] & [display Hdisplay] &
    [descr Hdescr] & Hq & Hhome & Himages & Hkw & Hlinks & Hmts).
  apply parse_home_url_ok, is_ok_elim in Hhome as [home Hhome].
  apply parse_containers_images_ok, is_ok_elim in Himages as [images Himages].
  apply parse_keywords_ok, is_ok_elim in Hkw as [kw Hkw].
  apply parse_links_ok, is_ok_elim in Hlinks as [links Hlinks].
  apply parse_maintainers_ok, is_ok_elim in Hmts as [mts Hmts].
  destruct (is_ok_elim _ (parse_annotations_ok annots metadata questions)) as [a Hann].
  destruct (publishable_image _ _ _ Himages) as (image & _ & Hoci).
  rw /from_metadata Ha /=. rw decide_False; last by intros ->.
  rw /required_annotation Hv /= Hver /= decide_False //.
  rw /parse_name /parse_display_name /parse_description /required_annotation Hname Hdisplay Hdescr /=.
  by rw Hhome Himages Hkw Hlinks Hoci Hmts Hann.
Qed.

(** A package is made exactly for the policies whose annotations are complete and
    well formed; it names one image, the one its installation instructions pull,
    and it takes the keywords apart at the commas. *)
Theorem from_metadata_spec metadata created_at questions :
  (is_ok (from_metadata metadata created_at questions) ↔ publishable metadata questions) ∧
  ∀ pkg, from_metadata metadata created_at questions = Ok pkg →
    ∃ image, ah_containers_images pkg = Some [{| ci_name := "policy"; ci_image := image |}] ∧
      ah_install pkg = Some (compose_install image) ∧
      ah_created_at pkg = created_at ∧
      ∀ l, ah_keywords pkg = Some l → l ≠ [] ∧ "" ∉ l.
Proof.
  split.
  - split; [|apply publishable_from_metadata].
    intros [pkg H]%is_ok_elim. by eapply from_metadata_publishable.
  - intros pkg H. rw /from_metadata in H. apply res_bind_Ok in H as (annots & Ha & H).
    case_decide; [done|]. apply res_bind_Ok in H as (v & Hv & H).
    apply res_bind_Ok in H as (version & Hver & H). case_decide; [done|].
    do 4 (apply res_bind_Ok in H as (? & ? & H)).
    apply res_bind_Ok in H as (images & (image & -> & Hoci)%publishable_image & H).
    rewrite Hoci in H. apply res_bind_Ok in H as (kw & Hkw & H).
    do 4 (apply res_bind_Ok in H as (? & ? & H)). injection H as <-. simplify_eq/=.
    exists image. split_and!; [done|done|done|]. intros l ->.
    rw /parse_keywords in Hkw. destruct (annots !! KUBEWARDEN_ANNOTATION_ARTIFACTHUB_KEYWORDS) as [s|]; [|done].
    destruct (existsb _ _) eqn:He; [done|]. injection Hkw as <-. apply existsb_empty_false in He.
    split; [|done]. destruct (split_cons s ",") as (h & t & ->). done.
Qed.

(** The [hidden-ui] annotation is documented as a boolean and has an error for other
    values; it is copied whatever it is. *)
Theorem hidden_ui_unchecked annots metadata questions value :
  parse_annotations annots metadata questions ≠
    Err (MalformedBoolString KUBEWARDEN_ANNOTATION_ARTIFACTHUB_HIDDENUI) ∧
  ∃ a, parse_annotations (<[KUBEWARDEN_ANNOTATION_ARTIFACTHUB_HIDDENUI := value]> annots) metadata
    questions = Ok a ∧ a !! ARTIFACTHUB_ANNOTATION_RANCHER_HIDDENUI = Some value.
Proof.
  split.
  - destruct (is_ok_elim _ (parse_annotations_ok annots metadata questions)) as [a ->]. done.
  - rw /parse_annotations lookup_insert_eq /=. eexists. split; [done|].
    rw /insert_some. case_match; [rewrite lookup_insert_ne //|]; by rewrite lookup_insert_eq.
Qed.
End artifact_hub.
