(* ===== verification/Startup.v ===== *)
(** * Starting the policy server

    Models [PrecompiledPolicy::new] and its checks
    ([crates/policy-server/src/evaluation/precompiled_policy.rs]), [precompile_policies],
    and the path of a policy through [PolicyServer::new_from_config] of [lib.rs]: download,
    precompilation, evaluation environment. The Wasm toolchain is the parameter [WasmTools]. *)

From S2P Require Ferricel.
From S2P Require Import Prelude Bytes Json PolicyId AdmissionResponse Request.
From S2P Require Import HostCapabilities Callback Runtime GroupEvaluator Config Environment.
From S2P Require Import Bootstrap RustStr VerificationConstraints Sources Registry Fetcher Verify.
From S2P Require Import Downloader Metadata.

Class WasmTools := {
  #[global] wasm_parser :: WasmParser;
  (** [Engine::precompile_module] *)
  precompile_module : bytes → result bytes string;
}.

(** ** Checks of a policy *)

Definition ferricel_check_abi_version `{WasmParser} (wasm : bytes) : result unit string :=
  map_err Ferricel.FerricelRuntimeError_to_string
    (Ferricel.check_abi (ferricel_abi_version wasm) FERRICEL_ABI_VERSION).

(** [CARGO_PKG_VERSION] without the patch and the pre-release. *)
Definition KUBEWARDEN_VERSION : Version := {| major := 1; minor := 39; patch_version := 0 |}.

Definition version_lt (a b : Version) : bool :=
  bool_decide (major a < major b)%N ||
  (bool_decide (major a = major b) &&
   (bool_decide (minor a < minor b)%N ||
    (bool_decide (minor a = minor b) && bool_decide (patch_version a < patch_version b)%N))).

Definition Version_to_string (v : Version) : string :=
  pretty (major v) +:+ "." +:+ pretty (minor v) +:+ "." +:+ pretty (patch_version v).

Definition has_minimum_kubewarden_version (metadata : Metadata) : result unit string :=
  match md_minimum_kubewarden_version metadata with
  | None => Ok tt
  | Some v =>
      let sanitized := {| major := major v; minor := minor v; patch_version := 0 |} in
      if version_lt KUBEWARDEN_VERSION sanitized
      then Err ("Policy required Kubewarden version " +:+ Version_to_string sanitized +:+
                " but is running on " +:+ Version_to_string KUBEWARDEN_VERSION)
      else Ok tt
  end.

Definition has_valid_protocol_version (metadata : Metadata) : result unit string :=
  match md_execution_mode metadata with
  | KubewardenWapc =>
      match md_protocol_version metadata with
      | Some ProtocolV1 => Ok tt
      | Some ProtocolUnknown =>
          Err "Policy uses protocol version Unknown but only V1 is supported"
      | None => Err
          "Policy is missing protocol version, which is required for KubewardenWapc execution mode"
      end
  | _ => Ok tt
  end.

(** ** Their meaning *)

(** A minimum version is met by its major and minor numbers alone. *)
Lemma has_minimum_version_Ok metadata :
  has_minimum_kubewarden_version metadata = Ok tt ↔
  ∀ v, md_minimum_kubewarden_version metadata = Some v →
    (major v < major KUBEWARDEN_VERSION)%N ∨
    (major v = major KUBEWARDEN_VERSION ∧ (minor v ≤ minor KUBEWARDEN_VERSION)%N).
Proof.
  rw /has_minimum_kubewarden_version.
  destruct (md_minimum_kubewarden_version metadata) as [v|]; [|naive_solver].
  assert (version_lt KUBEWARDEN_VERSION {| major := major v; minor := minor v; patch_version := 0 |}
    ↔ (1 < major v ∨ 1 = major v ∧ 39 < minor v)%N) as Hlt.
  { rw /version_lt /=. repeat case_bool_decide; simpl; split; (done || lia). }
  destruct (version_lt _ _); simpl in *.
  - split; [done|]. intros Hv. specialize (Hv v eq_refl). simpl in Hv. lia.
  - split; [|done]. intros _ ? [= <-]. simpl. destruct (decide (major v < 1)%N); [by left|right].
    destruct (decide (major v = 1)%N), (decide (minor v ≤ 39)%N); [done|exfalso; apply Hlt; lia..].
Qed.

Lemma has_valid_protocol_Ok metadata :
  has_valid_protocol_version metadata = Ok tt ↔
  (md_execution_mode metadata = KubewardenWapc → md_protocol_version metadata = Some ProtocolV1).
Proof.
  rw /has_valid_protocol_version.
  destruct (md_execution_mode metadata), (md_protocol_version metadata) as [[]|]; naive_solver.
Qed.

Section startup.
Context `{HI0 : HashIter, UL : UrlLib, SG : Sigstore, SE : SourceEnv, OL : OciLib, HI : !HostIO}.
Context `{CC : !CosignClient, YL : !YamlLib, SH : Sha256, WT : WasmTools}.
Context `{SdkTypes, PR : !PolicyRuntime, ML : !ModuleLoader, R : !Rhai}.
Context (default_store_root : string).

(** What is precompiled from the contents of a module. *)
Definition precompile_contents (policy_contents : bytes) : result PrecompiledPolicy string :=
  let? policy_metadata := map_err MetadataError_to_string (metadata_from_contents policy_contents) in
  let metadata := unwrap_or Metadata_default policy_metadata in
  let? _ := has_minimum_kubewarden_version metadata in
  let? _ := has_valid_protocol_version metadata in
  let? _ := match md_execution_mode metadata with
    | Ferricel => ferricel_check_abi_version policy_contents
    | _ => Ok tt
    end in
  let? precompiled_module := precompile_module policy_contents in
  Ok {| precompiled_module := precompiled_module;
        execution_mode := md_execution_mode metadata;
        digest := sha256_hex precompiled_module |}.

(** [PrecompiledPolicy::new] *)
Definition PrecompiledPolicy_new (h : Host) (wasm_module_path : string) :
    result PrecompiledPolicy string :=
  let? policy_contents := read_file wasm_module_path h in
  precompile_contents policy_contents.

Definition precompile_policies (h : Host) (fetched_policies : FetchedPolicies) :
    PrecompiledPolicies :=
  (λ fetched, match fetched with
              | Ok path => PrecompiledPolicy_new h path
              | Err error => Err error
              end) <$> fetched_policies.

(** ** The server *)

(** The part of [Config] that concerns the policies. *)
Record ServerConfig := {
  sc_policies : gmap string PolicyOrPolicyGroup;
  sc_policies_download_dir : string;
  sc_verification_config : option VerificationConfigV1;
  sc_continue_on_errors : bool;
  sc_always_accept_namespace : option string;
  sc_evaluation_limit_seconds : option N;
  sc_memory_limit_bytes : option Z;
}.

(** The first error, in the order the map is visited in. *)
Fixpoint first_error (l : list (string * result PrecompiledPolicy string)) : option string :=
  match l with
  | [] => None
  | (_, Err error) :: _ => Some error
  | (_, Ok _) :: l => first_error l
  end.

Definition configured_builder (config : ServerConfig) (precompiled : PrecompiledPolicies)
    (tx : Channel) : EvaluationEnvironmentBuilder :=
  {| eb_precompiled_policies := precompiled; eb_callback_handler_tx := tx;
     eb_continue_on_errors := sc_continue_on_errors config;
     eb_global_limit_seconds := sc_evaluation_limit_seconds config;
     eb_memory_limit_bytes := sc_memory_limit_bytes config;
     eb_always_accept_on_namespace := sc_always_accept_namespace config |}.

(** From the downloader to the evaluation environment. *)
Definition start_policies (config : ServerConfig) (downloader : Downloader) (tx : Channel) :
    M (St * World) (result EvaluationEnvironment string) := λ '(st, w),
  match download_policies default_store_root downloader (sc_policies config)
          (sc_policies_download_dir config) (sc_verification_config config) st with
  | None => None
  | Some (fetched_policies, st) =>
      let precompiled_policies := precompile_policies (host st) fetched_policies in
      match (if sc_continue_on_errors config then None
             else first_error (hash_iter precompiled_policies)) with
      | Some error => Some (Err error, (st, w))
      | None =>
          match build_evaluation_environment (configured_builder config precompiled_policies tx)
                  (sc_policies config) w with
          | None => None
          | Some (r, w) => Some (map_err EvaluationError_to_string r, (st, w))
          end
      end
  end.

(** ** Properties *)

(** What a module must declare to be run. *)
Definition runnable (policy_contents : bytes) (metadata : Metadata) : Prop :=
  (∀ v, md_minimum_kubewarden_version metadata = Some v →
    (major v < major KUBEWARDEN_VERSION)%N ∨
    (major v = major KUBEWARDEN_VERSION ∧ (minor v ≤ minor KUBEWARDEN_VERSION)%N)) ∧
  (md_execution_mode metadata = KubewardenWapc → md_protocol_version metadata = Some ProtocolV1) ∧
  (md_execution_mode metadata = Ferricel → ferricel_check_abi_version policy_contents = Ok tt).

Lemma runnable_Ok policy_contents metadata :
  runnable policy_contents metadata ↔
  has_minimum_kubewarden_version metadata = Ok tt ∧ has_valid_protocol_version metadata = Ok tt ∧
  (md_execution_mode metadata = Ferricel → ferricel_check_abi_version policy_contents = Ok tt).
Proof. by rewrite has_minimum_version_Ok has_valid_protocol_Ok. Qed.

(** A module is precompiled exactly when its metadata can be read, asks for a
    version of the stack that is not newer than the server's, patch and
    pre-release aside, speaks protocol v1 when it is a waPC policy, passes the ABI
    check when it is a Ferricel one, and the engine compiles it. A module without
    metadata counts as a waPC policy without a protocol, and is refused. *)
Theorem precompile_contents_spec policy_contents pp :
  precompile_contents policy_contents = Ok pp ↔
  ∃ metadata compiled,
    res_map (unwrap_or Metadata_default) (metadata_from_contents policy_contents) = Ok metadata ∧
    runnable policy_contents metadata ∧ precompile_module policy_contents = Ok compiled ∧
    pp = {| precompiled_module := compiled; execution_mode := md_execution_mode metadata;
            digest := sha256_hex compiled |}.
Proof.
  rw /precompile_contents.
  destruct (metadata_from_contents policy_contents) as [m|e]; simpl; [|naive_solver].
  set (metadata := unwrap_or Metadata_default m). split.
  - intros Hok. res_simpl. exists metadata. eexists. split; [done|].
    repeat match goal with u : unit |- _ => destruct u end.
    split_and!; try done. apply runnable_Ok. split_and!; try done.
    intros Hm. revert H2. by rewrite Hm.
  - intros (? & compiled & [= <-] & (-> & -> & Hf)%runnable_Ok & -> & ->). simpl.
    destruct (md_execution_mode metadata); try done. by rewrite Hf.
Qed.

Lemma first_error_None l : first_error l = None → Forall (λ e, ∃ pp, e.2 = Ok pp) l.
Proof. induction l as [|[url [pp|e]] l IH]; simpl; [done| |done]. constructor; eauto. Qed.

Lemma start_policies_Ok config downloader tx st w env st' w' :
  start_policies config downloader tx (st, w) = Some (Ok env, (st', w')) →
  ∃ fetched,
    download_policies default_store_root downloader (sc_policies config)
      (sc_policies_download_dir config) (sc_verification_config config) st =
      Some (fetched, st') ∧
    build_evaluation_environment
      (configured_builder config (precompile_policies (host st') fetched) tx)
      (sc_policies config) w = Some (Ok env, w') ∧
    (sc_continue_on_errors config = false →
     map_Forall (λ _ r, ∃ pp, r = Ok pp) (precompile_policies (host st') fetched)).
Proof.
  rw /start_policies. destruct (download_policies _ _ _ _ _ st) as [[fetched st1]|]; [|done].
  case_match eqn:He; [done|].
  destruct (build_evaluation_environment _ _ w) as [[[env1|e] w1]|] eqn:Hb; [|done..].
  intros [= <- <- <-]. exists fetched. split_and!; [done|done|]. intros Hc. rewrite Hc in He.
  apply first_error_None in He. intros url r Hr. rewrite Forall_forall in He.
  apply (He (url, r)). by apply elem_of_hash_iter.
Qed.

Lemma precompiled_of h fetched url r :
  fetched !! url = Some r →
  precompile_policies h fetched !! url = Some (match r with
    | Ok path => PrecompiledPolicy_new h path | Err error => Err error end).
Proof. intros Hr. by rewrite /precompile_policies lookup_fmap Hr. Qed.

Lemma precompiled_lookup h fetched url pp :
  precompile_policies h fetched !! url = Some (Ok pp) →
  ∃ path, fetched !! url = Some (Ok path) ∧ PrecompiledPolicy_new h path = Ok pp.
Proof.
  intros (r & Hr & Hu)%lookup_fmap_Some. destruct r as [path|e]; [|done]. by exists path.
Qed.

(** The module with digest [d], registered for [id], comes from a verified image: [id] names a
    URL in the configuration; the downloader recorded a path for that URL, after the check of the
    image's signatures and of the pulled file; and [d] is the digest of what was precompiled from
    the file at that path once every download was done. *)
Definition runs_verified (downloader : Downloader) (ver : Verifier) (config : ServerConfig)
    (vc : VerificationConfigV1) (st st' : St) (id : PolicyID) (d : string) : Prop :=
  ∃ url fetched path pp, module_of (sc_policies config) id url ∧
    download_policies default_store_root downloader (sc_policies config)
      (sc_policies_download_dir config) (Some vc) st = Some (fetched, st') ∧
    fetched !! url = Some (Ok path) ∧
    verified_fetch default_store_root downloader ver (sc_policies config)
      (sc_policies_download_dir config) vc st url path ∧
    PrecompiledPolicy_new (host st') path = Ok pp ∧ d = digest pp.

(** From the signature to the running code: when the server starts with a verifier, every module
    it can run, for an individual policy or for a member of a group, comes from a verified image,
    and an individual policy that is not marked as failed has such a module. *)
Theorem running_policy_was_verified `{!UrlLaws, !SigstoreLaws} config downloader ver vc tx
    st w env st' w' :
  names_ok (sc_policies config) →
  dl_verifier downloader = Some ver → sc_verification_config config = Some vc →
  start_policies config downloader tx (st, w) = Some (Ok env, (st', w')) →
  (∀ id d, id_to_digest env !! id = Some d → runs_verified downloader ver config vc st st' id d) ∧
  (∀ name url mode mut settings res msg timeout patterns,
    sc_policies config !! name = Some (SinglePolicy url mode mut settings res msg timeout patterns) →
    initialization_errors env !! PolicyId.Policy name = None →
    is_Some (id_to_digest env !! PolicyId.Policy name)).
Proof.
  intros Hn Hver Hvc Hs.
  destruct (start_policies_Ok _ _ _ _ _ _ _ _ Hs) as (fetched & Hd & Hb & _). rewrite Hvc in Hd. split.
  - intros id d Hid. destruct (build_modules _ _ _ _ _ Hn Hb id d Hid) as (url & pp & Hm & Hpp & ->).
    destruct (precompiled_lookup _ _ _ _ Hpp) as (path & Hpath & Hnew).
    exists url, fetched, path, pp. split_and!; try done. by eapply download_policies_verified.
  - intros name url mode mut settings res msg timeout patterns Hp Hnone.
    destruct (built_policy_module _ _ _ _ _ _ _ _ _ _ _ _ _ _ Hn Hp Hb Hnone) as (pp & _ & Hdig). eauto.
Qed.

(** Without [continue_on_errors] the server starts only when every module the
    configuration refers to was downloaded and precompiled, and then no policy is
    marked as failed. *)
Theorem strict_start_is_complete config downloader tx st w env st' w' :
  names_ok (sc_policies config) → sc_continue_on_errors config = false →
  start_policies config downloader tx (st, w) = Some (Ok env, (st', w')) →
  initialization_errors env = ∅ ∧
  ∃ fetched, download_policies default_store_root downloader (sc_policies config)
      (sc_policies_download_dir config) (sc_verification_config config) st =
      Some (fetched, st') ∧
    ∀ url, references (sc_policies config) url →
      ∃ path pp, fetched !! url = Some (Ok path) ∧ PrecompiledPolicy_new (host st') path = Ok pp.
Proof.
  intros Hn Hc Hs. destruct (start_policies_Ok _ _ _ _ _ _ _ _ Hs) as (fetched & Hd & Hb & Hall).
  split; [eapply build_strict; [|exact Hb]; exact Hc|].
  exists fetched. split; [done|]. intros url Href.
  specialize (Hall Hc). destruct (download_policies_inv _ _ _ _ _ _ _ _ Hd) as [Hdom _].
  assert (url ∈ dom fetched) as [r Hr]%elem_of_dom.
  { rewrite Hdom elem_of_list_to_set. by apply policies_to_download_spec. }
  destruct (Hall url _ (precompiled_of _ _ _ _ Hr)) as [pp Hpp].
  destruct r as [path|e]; [|done]. by exists path, pp.
Qed.
End startup.

(** ** A concrete start *)

#[export, refine] Instance simple_wasm : WasmTools := {|
  wasm_parser := {|
    parse_payloads b := [Ok OtherPayload; Ok (CustomSection KUBEWARDEN_CUSTOM_SECTION_METADATA b)];
    metadata_of_json b := Ok {| md_protocol_version := Some ProtocolV1; md_rules := []; md_annotations := None;
      md_mutating := false; md_background_audit := true; md_execution_mode := KubewardenWapc;
      md_policy_type := Kubernetes; md_context_aware_resources := ∅;
      md_host_capabilities := None;
      md_minimum_kubewarden_version := Some {| major := 1; minor := 39; patch_version := 7 |} |};
    ferricel_abi_version _ := Ok (Some 2%N); FERRICEL_ABI_VERSION := 2 |};
  precompile_module b := Ok b;
|}.
Proof. Defined.

Definition example_config : @ServerConfig simple_url :=
  {| sc_policies := one_policy; sc_policies_download_dir := "/store";
     sc_verification_config := Some key_config; sc_continue_on_errors := false;
     sc_always_accept_namespace := None; sc_evaluation_limit_seconds := None;
     sc_memory_limit_bytes := None |}.

Definition example_start :=
  start_policies (HI0 := canonical_hash_iter) (UL := simple_url) (SE := simple_env)
    (CC := simple_cosign) (YL := simple_yaml) (H := unit_sdk) (PR := constant_runtime)
    (ML := constant_loader) (R := conjunction_rhai)
    "/main" example_config verifying_downloader (λ _, RecvError)
    (fresh_state [Ok [v1]] [Ok (image_of v1)], 0).

Lemma example_started : is_built example_start = true.
Proof. vm_compute. reflexivity. Qed.

Lemma example_env : ∃ env st w, example_start = Some (Ok env, (st, w)).
Proof. destruct (is_built_Some _ example_started) as (env & [st w] & He). by exists env, st, w. Qed.

Lemma strict_start_is_complete_witness :
  ∃ env st w, example_start = Some (Ok env, (st, w)) ∧ initialization_errors env = ∅.
Proof.
  destruct example_env as (env & st & w & He). exists env, st, w. split; [exact He|].
  exact (proj1 (strict_start_is_complete _ example_config _ _ _ _ _ _ _ one_policy_names eq_refl He)).
Defined.

Lemma running_policy_was_verified_witness :
  ∃ env st w d, example_start = Some (Ok env, (st, w)) ∧ id_to_digest env !! PolicyId.Policy "pol" = Some d ∧
    runs_verified "/main" verifying_downloader {| ver_sources := None |} example_config key_config
      (fresh_state [Ok [v1]] [Ok (image_of v1)]) st (PolicyId.Policy "pol") d.
Proof.
  destruct example_env as (env & st & w & He).
  assert (initialization_errors env !! PolicyId.Policy "pol" = None) as Hi.
  { assert (initialization_errors env = ∅) as ->; [|reflexivity].
    destruct (start_policies_Ok _ _ _ _ _ _ _ _ _ He) as (fetched & _ & Hb & _).
    eapply build_strict; [|exact Hb]. reflexivity. }
  destruct (running_policy_was_verified _ example_config verifying_downloader {| ver_sources := None |}
    key_config _ _ _ _ _ _ one_policy_names eq_refl eq_refl He) as [Hv Hr].
  destruct (Hr "pol" "ghcr.io/kubewarden/pol:v1" Protect None None ∅ None None [] eq_refl Hi) as [d Hd].
  exists env, st, w, d. split; [exact He|]. split; [exact Hd|]. exact (Hv _ _ Hd).
Defined.

Lemma precompile_contents_spec_witness :
  ∃ metadata compiled,
    res_map (unwrap_or Metadata_default) (metadata_from_contents v1) = Ok metadata ∧
    runnable v1 metadata ∧ precompile_module v1 = Ok compiled ∧
    {| precompiled_module := v1; execution_mode := KubewardenWapc; digest := of_bytes v1 |} =
    {| precompiled_module := compiled; execution_mode := md_execution_mode metadata;
       digest := sha256_hex compiled |}.
Proof. apply (precompile_contents_spec v1). reflexivity. Defined.
