(* ===== verification/TtlCache.v ===== *)
(** * Time-bound caches

    Models [crates/policy-evaluator/src/callback_handler/cache_return.rs]: how the
    clients of the callback handler keep the answers of slow services. The caches of
    [moka] are the parameter [Moka]; what is relied on of them is [MokaLaws].

    Errors are the text of their whole chain, what [{e:#}] prints. *)

From S2P Require Import Prelude RustStr Callback.

(** A value, and whether it came from the cache. *)
Record Return (T : Type) := { value : T; was_cached : bool }.
Arguments value {T} _.
Arguments was_cached {T} _.

Definition not_cached {T} (value : T) : Return T := {| value := value; was_cached := false |}.
Definition cached {T} (value : T) : Return T := {| value := value; was_cached := true |}.

(** [Duration::from_secs], in the unit of [Instant], the nanosecond *)
Definition from_secs (n : Z) : Z := (n * 1000000000)%Z.

Class Moka := {
  Cache : Type → Type → Type;
  (** [Cache::builder().time_to_live(d).build()] *)
  cache_new {K V : Type} : Z → Cache K V;
  cache_ttl {K V : Type} : Cache K V → Z;
  (** The value of a key at an instant *)
  cache_get {K V : Type} `{EqDecision K} : Instant → K → Cache K V → option V;
  cache_insert {K V : Type} `{EqDecision K} : Instant → K → V → Cache K V → Cache K V;
}.

(** A cache returns a value only for the key it was inserted under and for less than
    the time to live; it may forget one earlier. *)
Class MokaLaws (MK : Moka) : Prop := {
  cache_ttl_new K V d : cache_ttl (cache_new (K := K) (V := V) d) = d;
  cache_ttl_insert K V `{EqDecision K} now (k : K) (v : V) c :
    cache_ttl (cache_insert now k v c) = cache_ttl c;
  cache_get_new K V `{EqDecision K} now (k : K) d :
    cache_get (V := V) now k (cache_new d) = None;
  cache_get_insert K V `{EqDecision K} now t (k k' : K) (v v' : V) c :
    cache_get now k' (cache_insert t k v c) = Some v' →
    (k' = k ∧ v' = v ∧ (now < t + cache_ttl c)%Z) ∨ cache_get now k' c = Some v';
}.

(** ** [try_cached]

    The cache is the part of the state that [get] and [set] select; [init] computes the
    value. *)
Section try_cached.
Context `{MK : Moka} {W : Type} (now : W → Instant).
Context {K V : Type} `{EqDecision K} (get : W → Cache K V) (set : Cache K V → W → W).

Definition try_cached (key : K) (init : M W (result V string)) :
    M W (result (Return V) string) := λ w,
  match cache_get (now w) key (get w) with
  | Some v => Some (Ok (cached v), w)
  | None =>
      match init w with
      | None => None
      | Some (Err e, w) => Some (Err e, w)
      | Some (Ok v, w) =>
          Some (Ok (not_cached v), set (cache_insert (now w) key v (get w)) w)
      end
  end.

(** Every value the cache holds was computed under its key, less than the time to live
    ago, by something [J] records. *)
Definition justified (J : K → V → Instant → Prop) (c : Cache K V) : Prop :=
  ∀ t k v, cache_get t k c = Some v → ∃ t0, (t < t0 + cache_ttl c)%Z ∧ J k v t0.

Lemma justified_weaken (J J' : K → V → Instant → Prop) c :
  (∀ k v t, J k v t → J' k v t) → justified J c → justified J' c.
Proof. intros HJ Hc t k v Hv. destruct (Hc t k v Hv) as (t0 & ? & ?). eauto. Qed.

Lemma justified_new `{!MokaLaws MK} J d : justified J (cache_new d).
Proof. intros t k v. by rewrite cache_get_new. Qed.

Lemma justified_insert `{!MokaLaws MK} J t k v c :
  J k v t → justified J c → justified J (cache_insert t k v c).
Proof.
  intros HJ Hc t' k' v' [(-> & -> & ?)|?]%cache_get_insert; rw cache_ttl_insert; eauto.
Qed.

(** What a run of [try_cached] does: a live entry is returned as it is, otherwise the
    value is computed and, if that succeeds, stored; errors are not. *)
Lemma try_cached_Some key init w r w' :
  try_cached key init w = Some (r, w') ↔
  match cache_get (now w) key (get w) with
  | Some v => r = Ok (cached v) ∧ w' = w
  | None => ∃ r1 w1, init w = Some (r1, w1) ∧
      match r1 with
      | Ok v => r = Ok (not_cached v) ∧ w' = set (cache_insert (now w1) key v (get w1)) w1
      | Err e => r = Err e ∧ w' = w1
      end
  end.
Proof.
  rw /try_cached. destruct (cache_get _ _ _) as [v|]; [split; [by intros [= <- <-]|by intros [-> ->]]|].
  destruct (init w) as [[[v|e] w1]|]; split; intros H.
  - injection H as <- <-. by eexists _, _.
  - destruct H as (r1 & w2 & [= <- <-] & -> & ->). done.
  - injection H as <- <-. by eexists _, _.
  - destruct H as (r1 & w2 & [= <- <-] & -> & ->). done.
  - done.
  - by destruct H as (? & ? & ? & _).
Qed.
End try_cached.

(** ** A cache as a list, for the witnesses *)

Record ListCache (K V : Type) := { lc_ttl : Z; lc_entries : list (K * V * Instant) }.
Arguments lc_ttl {K V} _.
Arguments lc_entries {K V} _.

Fixpoint list_cache_get {K V} `{EqDecision K} (ttl : Z) (now : Instant) (k : K)
    (l : list (K * V * Instant)) : option V :=
  match l with
  | [] => None
  | (k', v, t) :: l =>
      if decide (k = k') then (if decide (now < t + ttl)%Z then Some v else None)
      else list_cache_get ttl now k l
  end.

#[export] Instance list_moka : Moka := {|
  Cache := ListCache;
  cache_new K V d := {| lc_ttl := d; lc_entries := [] |};
  cache_ttl K V c := lc_ttl c;
  cache_get K V _ now k c := list_cache_get (lc_ttl c) now k (lc_entries c);
  cache_insert K V _ now k v c :=
    {| lc_ttl := lc_ttl c; lc_entries := (k, v, now) :: lc_entries c |};
|}.

#[export] Instance list_moka_laws : MokaLaws list_moka.
Proof.
  split; try done. intros K V ? now t k k' v v' c. simpl.
  case_decide as Hk; [|by right]. case_decide as Ht; [|done]. intros [= <-]. by left.
Qed.
