(* ===== verification/SigstoreClient.v ===== *)
(** * The Sigstore client of the callback handler

    Models [crates/policy-evaluator/src/callback_handler/sigstore_verification.rs]:
    policies ask the host whether an image is signed by given keys, identities or
    certificates; the answers are cached for a minute.

    The verifier is that of [Verify]; the cosign certificate verifier, the clock and
    the fields of the SDK types are the parameters [CosignCertificate], [Clock] and
    [SigstoreSdk]. Requests run one after the other. *)

From S2P Require Import Prelude Bytes RustStr DebugFmt Callback.
From S2P Require Import VerificationConstraints Sources Registry Fetcher Verify TtlCache.

(** [VerificationResponse] of the SDK *)
Record VerificationResponse := { is_trusted : bool; vr_digest : string }.

(** [Instant::now] *)
Class Clock `{OciLib, !HostIO} := host_now : Host → Instant.

Class SigstoreSdk `{SdkTypes} := {
  ki_issuer : KeylessInfo → string;
  ki_subject : KeylessInfo → string;
  kp_issuer : KeylessPrefixInfo → string;
  kp_url_prefix : KeylessPrefixInfo → string;
  debug_keyless : KeylessInfo → string;
  debug_keyless_prefix : KeylessPrefixInfo → string;
}.

(** The derived [Debug] of a struct prints its name and then every field. *)
Class SigstoreSdkLaws `{SigstoreSdk} : Prop := {
  debug_keyless_decodable : decodable debug_keyless;
  debug_keyless_begins : begins "K" debug_keyless;
  debug_keyless_prefix_decodable : decodable debug_keyless_prefix;
  debug_keyless_prefix_begins : begins "K" debug_keyless_prefix;
}.

(** [CertificateVerifier::from_pem] and its constraint *)
Class CosignCertificate `{Sigstore} := {
  CertificateVerifier : Type;
  certificate_verifier_from_pem :
    string → bool → option (list string) → result CertificateVerifier SigstoreError;
  certificate_verify : CertificateVerifier → SignatureLayer → result bool SigstoreError;
}.

(** The caches of the client, by name. *)
Inductive CacheName :=
| PubKeyCache | KeylessCache | KeylessPrefixCache | GithubActionsCache | CertificateCache.

#[export] Instance CacheName_eq_dec : EqDecision CacheName.
Proof. solve_decision. Defined.

Section client.
Context `{UL : UrlLib, SG : Sigstore, SE : SourceEnv, OL : OciLib, HI : !HostIO}.
Context `{CC : !CosignClient, YL : !YamlLib, SH : Sha256, CK : !Clock, MK : Moka}.
Context `{ST : SdkTypes, SS : !SigstoreSdk, CV : !CosignCertificate}.

(** ** Verifications *)

Notation Verified := (M St (result VerificationResponse string)).

Definition trusted (digest : string) : VerificationResponse :=
  {| is_trusted := true; vr_digest := digest |}.

(** The end of the four functions that build a configuration. *)
Definition verify_all (image : string) (signatures_all_of : list Signature) : Verified :=
  let verification_config := {| all_of := Some signatures_all_of; any_of := None |} in
  let! result := Verifier_verify image verification_config in
  m_ret (match result with
         | Ok digest => Ok (trusted digest)
         | Err e => Err (VerifyError_to_string e)
         end).

Definition verify_public_key (image : string) (pub_keys : list string)
    (annotations : option (gmap string string)) : Verified :=
  if decide (pub_keys = []) then m_ret (Err "Must provide at least one pub key") else
  verify_all image ((λ k, PubKey None k annotations) <$> pub_keys).

Definition keyless_signature (annotations : option (gmap string string)) (k : KeylessInfo) :
    Signature :=
  GenericIssuer (ki_issuer k) (SubjectEqual (ki_subject k)) annotations.

Definition verify_keyless (image : string) (keyless : list KeylessInfo)
    (annotations : option (gmap string string)) : Verified :=
  match keyless with
  | [] => m_ret (Err "Must provide keyless info")
  | _ => verify_all image (keyless_signature annotations <$> keyless)
  end.

(** [None] is the [expect] on the URL. *)
Definition keyless_prefix_signature (annotations : option (gmap string string))
    (k : KeylessPrefixInfo) : option Signature :=
  match url_parse (kp_url_prefix k) with
  | Ok prefix => Some (GenericIssuer (kp_issuer k) (SubjectUrlPrefix prefix) annotations)
  | Err _ => None
  end.

Definition verify_keyless_prefix (image : string) (keyless_prefix : list KeylessPrefixInfo)
    (annotations : option (gmap string string)) : Verified :=
  match keyless_prefix with
  | [] => m_ret (Err "Must provide keyless info")
  | _ =>
      match mapM (keyless_prefix_signature annotations) keyless_prefix with
      | None => λ _, None
      | Some signatures_all_of => verify_all image signatures_all_of
      end
  end.

Definition verify_github_actions (image owner : string) (repo : option string)
    (annotations : option (gmap string string)) : Verified :=
  if decide (owner = "") then m_ret (Err "Must provide owner info") else
  verify_all image [GithubAction owner repo annotations].

Definition verify_certificate (image certificate : string)
    (certificate_chain : option (list string)) (require_rekor_bundle : bool)
    (annotations : option (gmap string string)) : Verified :=
  let! fetched := fetch_sigstore_remote_data image in
  m_ret (
    let? fetched := map_err VerifyError_to_string fetched in
    let '(source_image_digest, trusted_layers) := fetched in
    let? cert_verifier := map_err sigstore_error_to_string
      (certificate_verifier_from_pem certificate require_rekor_bundle certificate_chain) in
    let verification_constraints := certificate_verify cert_verifier ::
      match annotations with Some a => [annotation_verify a] | None => [] end in
    let? _ := map_err (λ e, "verification failed: " +:+ e)
      (verify_constraints trusted_layers verification_constraints) in
    Ok (trusted source_image_digest)).

(** ** The client *)

(** [history] records each verification that succeeded, for the properties. *)
Record SigstoreClient := {
  pub_key_verification_cache : Cache string VerificationResponse;
  keyless_verification_cache : Cache string VerificationResponse;
  keyless_prefix_verification_cache : Cache string VerificationResponse;
  github_actions_verification_cache : Cache string VerificationResponse;
  certificate_verification_cache : Cache string VerificationResponse;
  history : list (Instant * CallbackRequestType * VerificationResponse);
}.

Definition new_verification_cache : Cache string VerificationResponse := cache_new (from_secs 60).

Definition SigstoreClient_new : SigstoreClient :=
  {| pub_key_verification_cache := new_verification_cache;
     keyless_verification_cache := new_verification_cache;
     keyless_prefix_verification_cache := new_verification_cache;
     github_actions_verification_cache := new_verification_cache;
     certificate_verification_cache := new_verification_cache;
     history := [] |}.

(** The state the client runs in, and its clock. *)
Notation SW := (St * SigstoreClient)%type.
Definition sw_now (w : SW) : Instant := host_now (host w.1).

Definition verification_cache (c : SigstoreClient) (n : CacheName) :
    Cache string VerificationResponse :=
  match n with
  | PubKeyCache => pub_key_verification_cache c
  | KeylessCache => keyless_verification_cache c
  | KeylessPrefixCache => keyless_prefix_verification_cache c
  | GithubActionsCache => github_actions_verification_cache c
  | CertificateCache => certificate_verification_cache c
  end.

Definition cache_of (n : CacheName) (w : SW) : Cache string VerificationResponse :=
  verification_cache w.2 n.

Definition set_cache (n : CacheName) (c : Cache string VerificationResponse) (w : SW) : SW :=
  let get n' := if decide (n' = n) then c else cache_of n' w in
  (w.1, {| pub_key_verification_cache := get PubKeyCache;
           keyless_verification_cache := get KeylessCache;
           keyless_prefix_verification_cache := get KeylessPrefixCache;
           github_actions_verification_cache := get GithubActionsCache;
           certificate_verification_cache := get CertificateCache;
           history := history w.2 |}).

Definition push_history (e : Instant * CallbackRequestType * VerificationResponse)
    (c : SigstoreClient) : SigstoreClient :=
  {| pub_key_verification_cache := pub_key_verification_cache c;
     keyless_verification_cache := keyless_verification_cache c;
     keyless_prefix_verification_cache := keyless_prefix_verification_cache c;
     github_actions_verification_cache := github_actions_verification_cache c;
     certificate_verification_cache := certificate_verification_cache c;
     history := history c ++ [e] |}.

(** A verification, recorded when it succeeds. *)
Definition recorded (q : CallbackRequestType) (c : Verified) :
    M SW (result VerificationResponse string) := λ w,
  match c w.1 with
  | None => None
  | Some (Err e, st) => Some (Err e, (st, w.2))
  | Some (Ok v, st) =>
      Some (Ok v, (st, push_history (host_now (host st), q, v) w.2))
  end.

(** ** Keys *)

Definition debug_annotations : option (gmap string string) → string := debug_option debug_map.

Definition pub_key_key (image : string) (pub_keys : list string)
    (annotations : option (gmap string string)) : string :=
  image +:+ debug_list debug_str pub_keys +:+ debug_annotations annotations.

Definition keyless_key (image : string) (keyless : list KeylessInfo)
    (annotations : option (gmap string string)) : string :=
  image +:+ debug_list debug_keyless keyless +:+ debug_annotations annotations.

Definition keyless_prefix_key (image : string) (keyless_prefix : list KeylessPrefixInfo)
    (annotations : option (gmap string string)) : string :=
  image +:+ debug_list debug_keyless_prefix keyless_prefix +:+ debug_annotations annotations.

Definition github_actions_key (image owner : string) (repo : option string)
    (annotations : option (gmap string string)) : string :=
  image +:+ debug_str owner +:+ debug_option debug_str repo +:+ debug_annotations annotations.

(** What the hash of the certificate key is fed, piece after piece. *)
Definition certificate_key_input (image certificate : string)
    (certificate_chain : option (list string)) (require_rekor_bundle : bool)
    (annotations : option (gmap string string)) : string :=
  image +:+ certificate +:+
  join "" (match certificate_chain with Some certs => certs | None => [] end) +:+
  (if require_rekor_bundle then "1" else "0") +:+
  join "" ((λ kv, kv.1 +:+ newline +:+ kv.2) <$>
           match annotations with Some a => btree_iter a | None => [] end).

Definition get_sigstore_certificate_verification_cache_key (image certificate : string)
    (certificate_chain : option (list string)) (require_rekor_bundle : bool)
    (annotations : option (gmap string string)) : string :=
  sha256_hex (as_bytes
    (certificate_key_input image certificate certificate_chain require_rekor_bundle annotations)).

(** ** Cached verifications *)

Notation Cached := (M SW (result (Return VerificationResponse) string)).

Definition get_sigstore_pub_key_verification_cached image pub_keys annotations : Cached :=
  try_cached sw_now (cache_of PubKeyCache) (set_cache PubKeyCache)
    (pub_key_key image pub_keys annotations)
    (recorded (SigstorePubKeyVerify image pub_keys annotations)
       (verify_public_key image pub_keys annotations)).

Definition get_sigstore_keyless_verification_cached image keyless annotations : Cached :=
  try_cached sw_now (cache_of KeylessCache) (set_cache KeylessCache)
    (keyless_key image keyless annotations)
    (recorded (SigstoreKeylessVerify image keyless annotations)
       (verify_keyless image keyless annotations)).

Definition get_sigstore_keyless_prefix_verification_cached image keyless_prefix annotations : Cached :=
  try_cached sw_now (cache_of KeylessPrefixCache) (set_cache KeylessPrefixCache)
    (keyless_prefix_key image keyless_prefix annotations)
    (recorded (SigstoreKeylessPrefixVerify image keyless_prefix annotations)
       (verify_keyless_prefix image keyless_prefix annotations)).

Definition get_sigstore_github_actions_verification_cached image owner repo annotations : Cached :=
  try_cached sw_now (cache_of GithubActionsCache) (set_cache GithubActionsCache)
    (github_actions_key image owner repo annotations)
    (recorded (SigstoreGithubActionsVerify image owner repo annotations)
       (verify_github_actions image owner repo annotations)).

Definition get_sigstore_certificate_verification_cached image certificate certificate_chain
    require_rekor_bundle annotations : Cached :=
  try_cached sw_now (cache_of CertificateCache) (set_cache CertificateCache)
    (get_sigstore_certificate_verification_cache_key image certificate certificate_chain
       require_rekor_bundle annotations)
    (recorded (SigstoreCertificateVerify image certificate certificate_chain
                 require_rekor_bundle annotations)
       (verify_certificate image certificate certificate_chain require_rekor_bundle annotations)).

(** The arms of [CallbackHandler::handle_request] that verify signatures. *)
Definition handle_sigstore (req : CallbackRequestType) : option Cached :=
  match req with
  | SigstorePubKeyVerify image pub_keys annotations =>
      Some (get_sigstore_pub_key_verification_cached image pub_keys annotations)
  | SigstoreKeylessVerify image keyless annotations =>
      Some (get_sigstore_keyless_verification_cached image keyless annotations)
  | SigstoreKeylessPrefixVerify image keyless_prefix annotations =>
      Some (get_sigstore_keyless_prefix_verification_cached image keyless_prefix annotations)
  | SigstoreGithubActionsVerify image owner repo annotations =>
      Some (get_sigstore_github_actions_verification_cached image owner repo annotations)
  | SigstoreCertificateVerify image certificate certificate_chain require_rekor_bundle annotations =>
      Some (get_sigstore_certificate_verification_cached image certificate certificate_chain
              require_rekor_bundle annotations)
  | _ => None
  end.
End client.

(** ** Properties *)

(** What is relied on of image references: these characters are not part of one. *)
Definition plain_image (image : string) : Prop :=
  contains_char image "[" = false ∧ contains_char image quote = false.

Class ReferenceLaws `{OciLib} : Prop := {
  reference_plain s r : reference_try_from s = Ok r → plain_image s;
}.

Section properties.
Context `{UL : UrlLib, SG : Sigstore, SE : SourceEnv, OL : OciLib, HI : !HostIO}.
Context `{CC : !CosignClient, YL : !YamlLib, SH : Sha256, CK : !Clock, MK : Moka}.
Context `{ST : SdkTypes, SS : !SigstoreSdk, CV : !CosignCertificate}.
Implicit Types (q : CallbackRequestType) (w : St * SigstoreClient) (image : string).

Definition query_image q : option string :=
  match q with
  | SigstorePubKeyVerify image _ _ | SigstoreKeylessVerify image _ _
  | SigstoreKeylessPrefixVerify image _ _ | SigstoreGithubActionsVerify image _ _ _
  | SigstoreCertificateVerify image _ _ _ _ => Some image
  | _ => None
  end.

(** The cache a query uses, and its key there. *)
Definition query_key q : option (CacheName * string) :=
  match q with
  | SigstorePubKeyVerify image pub_keys annotations =>
      Some (PubKeyCache, pub_key_key image pub_keys annotations)
  | SigstoreKeylessVerify image keyless annotations =>
      Some (KeylessCache, keyless_key image keyless annotations)
  | SigstoreKeylessPrefixVerify image keyless_prefix annotations =>
      Some (KeylessPrefixCache, keyless_prefix_key image keyless_prefix annotations)
  | SigstoreGithubActionsVerify image owner repo annotations =>
      Some (GithubActionsCache, github_actions_key image owner repo annotations)
  | SigstoreCertificateVerify image certificate chain rekor annotations =>
      Some (CertificateCache, get_sigstore_certificate_verification_cache_key image certificate
        chain rekor annotations)
  | _ => None
  end.

(** The verification of a query. *)
Definition verification_of q : option (M St (result VerificationResponse string)) :=
  match q with
  | SigstorePubKeyVerify image pub_keys annotations =>
      Some (verify_public_key image pub_keys annotations)
  | SigstoreKeylessVerify image keyless annotations =>
      Some (verify_keyless image keyless annotations)
  | SigstoreKeylessPrefixVerify image keyless_prefix annotations =>
      Some (verify_keyless_prefix image keyless_prefix annotations)
  | SigstoreGithubActionsVerify image owner repo annotations =>
      Some (verify_github_actions image owner repo annotations)
  | SigstoreCertificateVerify image certificate chain rekor annotations =>
      Some (verify_certificate image certificate chain rekor annotations)
  | _ => None
  end.

Lemma handle_sigstore_form q c :
  handle_sigstore q = Some c →
  ∃ n k v, query_key q = Some (n, k) ∧ verification_of q = Some v ∧
    c = try_cached sw_now (cache_of n) (set_cache n) k (recorded q v).
Proof. destruct q; simpl; intros [= <-]; by eexists _, _, _. Qed.

(** *** The caches of the client *)

Lemma cache_of_set n m c w :
  cache_of n (set_cache m c w) = if decide (n = m) then c else cache_of n w.
Proof. by destruct n. Qed.

Lemma recorded_query_Some q v w r w' :
  recorded q v w = Some (r, w') →
  ∃ st, v w.1 = Some (r, st) ∧ w'.1 = st ∧ (∀ n, cache_of n w' = cache_of n w) ∧
    history w'.2 = history w.2 ++
      match r with Ok a => [(host_now (host st), q, a)] | Err _ => [] end.
Proof.
  rw /recorded. destruct (v w.1) as [[[a|e] st]|]; [| |done]; intros [= <- <-]; exists st.
  - split_and!; [done|done|by intros []|done].
  - split_and!; [done|done|done|]. by rw app_nil_r.
Qed.

(** A verification of the history was carried out. *)
Definition carried_out (e : Instant * CallbackRequestType * VerificationResponse) : Prop :=
  ∃ v st st', verification_of e.1.2 = Some v ∧ v st = Some (Ok e.2, st') ∧
    host_now (host st') = e.1.1.

(** The invariant of the client: an entry of a cache is in the history, under its key,
    less than a minute ago; and the history is true. *)
Definition client_inv w : Prop :=
  Forall carried_out (history w.2) ∧
  ∀ n, cache_ttl (cache_of n w) = from_secs 60 ∧
    justified (λ k v t, ∃ q, query_key q = Some (n, k) ∧ (t, q, v) ∈ history w.2) (cache_of n w).

Lemma client_inv_new `{ML : !MokaLaws MK} st : client_inv (st, SigstoreClient_new).
Proof.
  split; [constructor|]. intros n.
  assert (cache_of n (st, SigstoreClient_new) = new_verification_cache) as -> by by destruct n.
  split; [apply cache_ttl_new|apply justified_new].
Qed.

(** One request: the invariant is kept, and an answer is one of the history. *)
Lemma handle_sigstore_inv `{ML : !MokaLaws MK} q c w r w' :
  handle_sigstore q = Some c → client_inv w → c w = Some (r, w') →
  client_inv w' ∧ ∀ ret, r = Ok ret →
    ∃ t q', query_key q' = query_key q ∧ (t, q', value ret) ∈ history w'.2 ∧
      (sw_now w' < t + from_secs 60)%Z.
Proof.
  intros (n & k & v & Hk & Hv & ->)%handle_sigstore_form [Hh Hc].
  intros H%try_cached_Some. destruct (cache_get (sw_now w) k (cache_of n w)) as [a|] eqn:Hg.
  { destruct H as [-> ->]. split; [done|]. intros ret [= <-].
    destruct (Hc n) as [Httl Hj]. destruct (Hj _ _ _ Hg) as (t & Ht & q' & Hq' & Hin).
    rewrite Httl in Ht. exists t, q'. by rw Hk. }
  destruct H as (r1 & w1 & Hr & Hrest). apply recorded_query_Some in Hr as (st & Hrun & Hst & Hcaches & Hhist).
  assert (Forall carried_out (history w1.2)) as Hh1.
  { rw Hhist. apply Forall_app. split; [done|]. destruct r1 as [a|e]; [|constructor].
    apply Forall_singleton. exists v, w.1, st. by subst. }
  assert (∀ m, cache_ttl (cache_of m w1) = from_secs 60 ∧
    justified (λ k v t, ∃ q, query_key q = Some (m, k) ∧ (t, q, v) ∈ history w1.2) (cache_of m w1)) as Hc1.
  { intros m. rw Hcaches. destruct (Hc m) as [Httl Hj]. split; [done|].
    eapply justified_weaken; [|done]. intros k' v' t (q' & ? & Hin). exists q'. split; [done|].
    rw Hhist. set_solver. }
  destruct r1 as [a|e]; destruct Hrest as [-> ->]; [|by split; [split|]].
  assert ((sw_now w1, q, a) ∈ history w1.2) as Hin.
  { rw Hhist /sw_now Hst. set_solver. }
  split; [split; [done|]|].
  - intros m. rw cache_of_set. case_decide as Hm; [subst m|done].
    destruct (Hc1 n) as [Httl Hj]. rw cache_ttl_insert. split; [done|].
    apply justified_insert; [|done]. by exists q.
  - intros ret [= <-]. exists (sw_now w1), q. split_and!; [done|done|].
    rw /sw_now /from_secs /=. lia.
Qed.

(** The states of the client: requests are handled, and the world moves on. *)
Inductive reachable : St * SigstoreClient → Prop :=
| reach_new st : reachable (st, SigstoreClient_new)
| reach_world st st' c : reachable (st, c) → reachable (st', c)
| reach_handle q c r w w' :
    handle_sigstore q = Some c → reachable w → c w = Some (r, w') → reachable w'.

Lemma reachable_inv `{ML : !MokaLaws MK} w : reachable w → client_inv w.
Proof.
  induction 1 as [st|st st' c _ IH|q c r w w' Hq _ IH Hc]; [apply client_inv_new|done|].
  by eapply handle_sigstore_inv.
Qed.

(** *** Keys do not collide *)

Lemma annotations_inj a a' : debug_annotations a = debug_annotations a' → a = a'.
Proof. apply decodable_inj, debug_option_decodable, debug_map_decodable. Qed.

Lemma list_key_inj {A} (f : A → string) c image image' l l' a a' :
  decodable f → begins c f → c ≠ "]"%char → plain_image image → plain_image image' →
  image +:+ debug_list f l +:+ debug_annotations a =
    image' +:+ debug_list f l' +:+ debug_annotations a' →
  image = image' ∧ l = l' ∧ a = a'.
Proof.
  intros Hf Hb Hc [Hi _] [Hi' _] H.
  apply (field_then_decodable "[" (debug_list f)) in H as (-> & -> & H);
    [|by apply (debug_list_decodable f c)|by intros x; eexists|done..].
  split_and!; [done..|]. by apply annotations_inj.
Qed.

Lemma github_key_inj image image' owner owner' repo repo' a a' :
  plain_image image → plain_image image' →
  github_actions_key image owner repo a = github_actions_key image' owner' repo' a' →
  image = image' ∧ owner = owner' ∧ repo = repo' ∧ a = a'.
Proof.
  intros [_ Hi] [_ Hi'] H.
  apply (field_then_decodable quote debug_str) in H as (-> & -> & H); [|auto with decode..].
  apply (debug_option_decodable debug_str debug_str_decodable) in H as [-> H].
  split_and!; [done..|]. by apply annotations_inj.
Qed.

(** Queries other than by certificate: the key determines the query. *)
Lemma query_key_inj `{SL : !SigstoreSdkLaws} q q' image image' :
  query_image q = Some image → query_image q' = Some image' →
  plain_image image → plain_image image' →
  (∀ n k, query_key q = Some (n, k) → n ≠ CertificateCache) →
  query_key q' = query_key q → q' = q.
Proof.
  intros Hq Hq2 Hi Hi2 Hcert Hkey.
  destruct q; simplify_eq/=; destruct q'; simplify_eq/=; try (by destruct (Hcert _ _ eq_refl)).
  - match goal with E : pub_key_key _ _ _ = _ |- _ =>
      apply (list_key_inj debug_str quote) in E as (-> & -> & ->) end; auto with decode.
  - match goal with E : keyless_key _ _ _ = _ |- _ =>
      apply (list_key_inj debug_keyless "K") in E as (-> & -> & ->) end;
      auto using debug_keyless_decodable, debug_keyless_begins.
  - match goal with E : keyless_prefix_key _ _ _ = _ |- _ =>
      apply (list_key_inj debug_keyless_prefix "K") in E as (-> & -> & ->) end;
      auto using debug_keyless_prefix_decodable, debug_keyless_prefix_begins.
  - match goal with E : github_actions_key _ _ _ _ = _ |- _ =>
      apply github_key_inj in E as (-> & -> & -> & ->) end; auto.
Qed.

(** *** What a verification establishes *)

(** The signatures a query asks for. *)
Definition query_signatures q : option (list Signature) :=
  match q with
  | SigstorePubKeyVerify _ pub_keys annotations =>
      Some ((λ k, PubKey None k annotations) <$> pub_keys)
  | SigstoreKeylessVerify _ keyless annotations =>
      Some (keyless_signature annotations <$> keyless)
  | SigstoreKeylessPrefixVerify _ keyless_prefix annotations =>
      mapM (keyless_prefix_signature annotations) keyless_prefix
  | SigstoreGithubActionsVerify _ owner repo annotations =>
      Some [GithubAction owner repo annotations]
  | _ => None
  end.

Lemma verify_all_Ok `{UrL : !UrlLaws, SgL : !SigstoreLaws} image signatures st v st' :
  verify_all image signatures st = Some (Ok v, st') →
  ∃ digest layers, fetch_sigstore_remote_data image st = Some (Ok (digest, layers), st') ∧
    Forall (satisfied layers) signatures ∧ v = trusted digest.
Proof.
  rw /verify_all. intros (r & st1 & Hr & H)%m_bind_Some.
  injection H as Hv <-. destruct r as [digest|e]; [|done]. injection Hv as <-.
  rw /Verifier_verify in Hr. apply mr_bind_Ok in Hr as ([d layers] & st2 & Hf & Hr).
  apply m_bind_Some in Hr as (r & st3 & Hver & H).
  destruct (verify_signatures_spec {| all_of := Some signatures; any_of := None |} layers)
    as (r' & Hr' & Hiff). rewrite Hr' in Hver. simpl in Hver. injection Hver as <- <-.
  injection H as H <-. apply res_bind_Ok in H as ([] & -> & [= <-]).
  exists d, layers. split_and!; [done| |done].
  destruct (proj1 Hiff eq_refl) as (_ & Hall & _). by apply Hall.
Qed.

Lemma verification_Ok `{UrL : !UrlLaws, SgL : !SigstoreLaws} q v st a st' image :
  verification_of q = Some v → query_image q = Some image →
  (∀ n k, query_key q = Some (n, k) → n ≠ CertificateCache) → v st = Some (Ok a, st') →
  ∃ signatures digest layers, query_signatures q = Some signatures ∧ signatures ≠ [] ∧
    fetch_sigstore_remote_data image st = Some (Ok (digest, layers), st') ∧
    Forall (satisfied layers) signatures ∧ a = trusted digest.
Proof.
  intros Hv Hi Hn Hrun. destruct q; simplify_eq/=; [| | | |by destruct (Hn _ _ eq_refl)].
  - rewrite /verify_public_key in Hrun. case_decide as Hne; [done|].
    apply verify_all_Ok in Hrun as (d & layers & ?). eexists _, d, layers.
    split_and!; [done|by intros ?%fmap_nil_inv|naive_solver..].
  - rewrite /verify_keyless in Hrun. destruct keyless as [|k l]; [done|].
    apply verify_all_Ok in Hrun as (d & layers & ?). by eexists _, d, layers.
  - rewrite /verify_keyless_prefix in Hrun. destruct keyless_prefix as [|k l]; [done|].
    destruct (mapM _ (k :: l)) as [sigs|] eqn:Hm; [|done].
    apply verify_all_Ok in Hrun as (d & layers & ?). exists sigs, d, layers.
    split_and!; [done| |naive_solver..]. apply mapM_Some in Hm. by inversion Hm.
  - rewrite /verify_github_actions in Hrun. case_decide; [done|].
    apply verify_all_Ok in Hrun as (d & layers & ?). by eexists _, d, layers.
Qed.

Lemma fetched_plain `{RL : !ReferenceLaws} image st x st' :
  fetch_sigstore_remote_data image st = Some (Ok x, st') → plain_image image.
Proof.
  intros (r & st1 & Hr & _)%mr_bind_Ok. injection Hr as Hr _.
  apply map_err_Ok in Hr. rewrite /build_fully_resolved_reference in Hr.
  apply map_err_Ok, reference_plain in Hr as [H1 H2].
  destruct (strip_prefix image "registry://") as [s|] eqn:Hs; [|done].
  apply strip_prefix_Some in Hs as ->. cbn [unwrap_or] in H1, H2. rw /plain_image !contains_char_app H1 H2. done.
Qed.

Lemma verification_fetched q v st a st' image :
  verification_of q = Some v → query_image q = Some image → v st = Some (Ok a, st') →
  ∃ x st1, fetch_sigstore_remote_data image st = Some (Ok x, st1).
Proof.
  intros Hv Hi Hrun.
  assert (∀ sigs, verify_all image sigs st = Some (Ok a, st') →
    ∃ x st1, fetch_sigstore_remote_data image st = Some (Ok x, st1)) as Hall.
  { intros sigs (r & st1 & Hr & H)%m_bind_Some. injection H as H <-.
    destruct r; [|done]. apply mr_bind_Ok in Hr as (x & st2 & Hf & _). eauto. }
  destruct q; simplify_eq/=.
  - rewrite /verify_public_key in Hrun. case_decide; [done|]. eauto.
  - rewrite /verify_keyless in Hrun. destruct keyless; [done|]. eauto.
  - rewrite /verify_keyless_prefix in Hrun. destruct keyless_prefix; [done|].
    destruct (mapM _ _); [eauto|done].
  - rewrite /verify_github_actions in Hrun. case_decide; [done|]. eauto.
  - apply m_bind_Some in Hrun as (f & st1 & Hf & H). injection H as H _.
    destruct f as [x|e]; [eauto|done].
Qed.

(** Whatever requests came before, a trusted answer to a query by keys, identities or
    GitHub owner is backed by a verification of that very query, carried out less than a
    minute ago: the image had a trusted layer for each of the signatures asked for. *)
Theorem trusted_answers_are_verified `{ML : !MokaLaws MK, UrL : !UrlLaws, SgL : !SigstoreLaws,
    RL : !ReferenceLaws, SL : !SigstoreSdkLaws} q image c w ret w' :
  reachable w → handle_sigstore q = Some c → c w = Some (Ok ret, w') →
  query_image q = Some image → plain_image image →
  (∀ n k, query_key q = Some (n, k) → n ≠ CertificateCache) →
  ∃ t st st' signatures digest layers,
    (t, q, value ret) ∈ history w'.2 ∧ (sw_now w' < t + from_secs 60)%Z ∧
    host_now (host st') = t ∧ query_signatures q = Some signatures ∧ signatures ≠ [] ∧
    fetch_sigstore_remote_data image st = Some (Ok (digest, layers), st') ∧
    Forall (satisfied layers) signatures ∧ value ret = trusted digest.
Proof.
  intros Hw Hq Hc Hi Hplain Hcert.
  destruct (handle_sigstore_inv q c w (Ok ret) w' Hq (reachable_inv w Hw) Hc) as [[Hh _] Hret].
  destruct (Hret ret eq_refl) as (t & q' & Hkey & Hin & Ht).
  rewrite -> Forall_forall in Hh. destruct (Hh _ Hin) as (v & st & st' & Hv & Hrun & Hnow).
  simpl in *. assert (∃ image', query_image q' = Some image') as [image' Hi'].
  { destruct q'; simplify_eq/=; eauto. }
  destruct (verification_fetched _ _ _ _ _ _ Hv Hi' Hrun) as (x & st1 & Hf).
  assert (q' = q) as ->.
  { eapply (query_key_inj q q' image image'); eauto using fetched_plain. }
  destruct (verification_Ok q v st (value ret) st' image Hv Hi Hcert Hrun)
    as (signatures & digest & layers & ?). exists t, st, st', signatures, digest, layers. naive_solver.
Qed.

(** *** Certificates *)

Lemma join_empty_cons s l : join "" (s :: l) = s +:+ join "" l.
Proof. destruct l; simpl; [by rw str_app_nil_r|done]. Qed.

Lemma certificate_key_image image s certificate chain rekor annotations :
  get_sigstore_certificate_verification_cache_key (image +:+ s) certificate chain rekor annotations =
  get_sigstore_certificate_verification_cache_key image (s +:+ certificate) chain rekor annotations.
Proof.
  rw /get_sigstore_certificate_verification_cache_key /certificate_key_input. by rw !str_app_assoc.
Qed.

Lemma certificate_key_chain image certificate a b chain rekor annotations :
  get_sigstore_certificate_verification_cache_key image certificate (Some ((a +:+ b) :: chain))
    rekor annotations =
  get_sigstore_certificate_verification_cache_key image certificate (Some (a :: b :: chain))
    rekor annotations.
Proof.
  rw /get_sigstore_certificate_verification_cache_key /certificate_key_input.
  by rw !join_empty_cons !str_app_assoc.
Qed.

Lemma live_entry_answers n k q v w a :
  try_cached sw_now (cache_of n) (set_cache n) k (recorded q v) w = Some (Ok (cached a), w) ↔
  cache_get (sw_now w) k (cache_of n w) = Some a.
Proof.
  rw try_cached_Some. destruct (cache_get _ _ _) as [b|].
  - split; [by intros [[= <-] _]|by intros [= ->]].
  - split; [|done]. intros (r1 & w1 & _ & H). by destruct r1, H as [? _].
Qed.

(** The key of a certificate query is the hash of its parts one after the other, and
    nothing marks where a part ends: moving the end of the image into the certificate, or
    splitting a certificate of the chain, gives the same key, so that a live entry for one
    query answers the other, which was not verified. *)
Theorem certificate_key_ambiguous image s certificate a b chain chain' rekor annotations w v :
  let handle image certificate chain :=
    get_sigstore_certificate_verification_cached image certificate chain rekor annotations w in
  (handle (image +:+ s) certificate chain = Some (Ok (cached v), w) ↔
   handle image (s +:+ certificate) chain = Some (Ok (cached v), w)) ∧
  (handle image certificate (Some ((a +:+ b) :: chain')) = Some (Ok (cached v), w) ↔
   handle image certificate (Some (a :: b :: chain')) = Some (Ok (cached v), w)).
Proof.
  intros handle.
  rw /handle /get_sigstore_certificate_verification_cached !live_entry_answers.
  by rw certificate_key_image certificate_key_chain.
Qed.

(** An image is trusted by certificate exactly when some layer is signed with the
    certificate and some layer carries the annotations; they need not be the same. *)
Theorem certificate_verified_iff `{SgL : !SigstoreLaws} image certificate chain rekor annotations
    st digest layers st' verifier :
  fetch_sigstore_remote_data image st = Some (Ok (digest, layers), st') →
  certificate_verifier_from_pem certificate rekor chain = Ok verifier →
  verify_certificate image certificate chain rekor annotations st = Some (Ok (trusted digest), st') ↔
  (∃ layer, layer ∈ layers ∧ certificate_verify verifier layer = Ok true) ∧
  (∀ a, annotations = Some a → ∃ layer, layer ∈ layers ∧ annotation_verify a layer = Ok true).
Proof.
  intros Hf Hv.
  assert (verify_certificate image certificate chain rekor annotations st =
    Some (let? _ := map_err (λ e, "verification failed: " +:+ e)
            (verify_constraints layers (certificate_verify verifier ::
               match annotations with Some a => [annotation_verify a] | None => [] end)) in
          Ok (trusted digest), st')) as ->.
  { by rw /verify_certificate /m_bind Hf /m_ret /= Hv. }
  trans (verify_constraints layers (certificate_verify verifier ::
    match annotations with Some a => [annotation_verify a] | None => [] end) = Ok tt).
  { by destruct (verify_constraints _ _) as [[]|]; split. }
  rw verify_constraints_Ok Forall_cons.
  destruct annotations as [a|]; [rewrite Forall_singleton|rewrite Forall_nil]; naive_solver.
Qed.
End properties.

(** ** Witnesses *)

(** A registry that serves one signed image; the host is its clock. *)
#[export, refine] Instance plain_oci : OciLib := {|
  Reference := string;
  reference_try_from s :=
    if contains_char s "[" || contains_char s quote then Err "invalid reference" else Ok s;
  reference_registry _ := "ghcr.io"; reference_repository s := s;
  reference_tag _ := None; reference_whole s := s;
  get_credential _ := Err "no credentials";
|}.
Proof. Defined.

#[export] Instance plain_reference_laws : ReferenceLaws (H := plain_oci).
Proof.
  split. intros s r. simpl. rw /plain_image.
  by destruct (contains_char s "["), (contains_char s quote).
Qed.

#[export, refine] Instance clock_host : @HostIO plain_oci := {|
  Host := Z;
  pull_manifest _ _ _ h := (Err "unreachable", h);
  fetch_manifest_digest _ _ _ h := (Ok "sha256:manifest", h);
  pull _ _ _ _ h := (Err "unreachable", h);
  http_get _ _ h := (Err "unreachable", h);
  path_exists _ _ := false; path_is_dir _ _ := false;
  read_file _ _ := Err "no such file";
  write_file _ _ h := (Ok tt, h); create_dir_all _ h := (Ok tt, h);
|}.
Proof. Defined.

#[export] Instance host_clock : Clock (H0 := clock_host) := λ h, h.

#[export, refine] Instance signed_images : @CosignClient simple_sigstore plain_oci clock_host := {|
  OciReference := string;
  oci_reference_from_str s := Ok s;
  triangulate _ _ h := (Ok ("signature", "sha256:manifest"), h);
  trusted_signature_layers _ _ h :=
    (Ok [key_layer; {| sl_certificate := None; sl_keys := []; sl_annotations := {["env" := "prod"]} |}], h);
|}.
Proof. Defined.

#[export] Instance identity_sha256 : Sha256 := of_bytes.

Record KeylessFields := { kf_issuer : string; kf_subject : string }.

Definition debug_fields (k : KeylessFields) : string :=
  "KeylessInfo { issuer: " +:+ (debug_str (kf_issuer k) +:+ ", subject: " +:+ debug_str (kf_subject k)) +:+ " }".

#[export] Instance keyless_types : SdkTypes := {|
  KeylessInfo := KeylessFields; KeylessPrefixInfo := KeylessFields;
  SubjectAccessReview := string; CertificateVerificationRequest := string |}.

#[export] Instance keyless_sdk : @SigstoreSdk keyless_types := {|
  ki_issuer := kf_issuer; ki_subject := kf_subject;
  kp_issuer := kf_issuer; kp_url_prefix := kf_subject;
  debug_keyless := debug_fields; debug_keyless_prefix := debug_fields |}.

Lemma debug_fields_decodable : decodable debug_fields.
Proof.
  intros [i s] [i' s'] r r' H. rewrite /debug_fields in H.
  apply (decodable_pre _ _ (decodable_post _ _
    (decodable_pair debug_str debug_str ", subject: " debug_str_decodable debug_str_decodable))
    (i, s) (i', s')) in H as [[= -> ->] ->]. done.
Qed.

#[export] Instance keyless_sdk_laws : @SigstoreSdkLaws keyless_types keyless_sdk.
Proof. split; try apply debug_fields_decodable; intros k; by eexists. Qed.

#[export] Instance key_certificates : @CosignCertificate simple_sigstore := {|
  CertificateVerifier := string;
  certificate_verifier_from_pem c _ _ := Ok c;
  certificate_verify c sl := Ok (bool_decide (c ∈ sl_keys sl)) |}.

Definition at_instant (t : Z) : @St plain_oci clock_host := {| host := t; connections := [] |}.

Definition key_query : @CallbackRequestType keyless_types :=
  SigstorePubKeyVerify "ghcr.io/app" ["key"] None.

Lemma trusted_answers_are_verified_witness :
  ∃ c w ret w', handle_sigstore key_query = Some c ∧ c w = Some (Ok ret, w') ∧
    was_cached ret = true ∧ ∃ t, (t, key_query, value ret) ∈ history w'.2.
Proof.
  set (c := get_sigstore_pub_key_verification_cached "ghcr.io/app" ["key"] None).
  set (w1 := (at_instant 0, SigstoreClient_new)).
  destruct (c w1) as [[r w2]|] eqn:Hc; [|vm_compute in Hc; discriminate].
  assert (reachable (at_instant 5, w2.2)) as Hw.
  { apply reach_world with (st := w2.1). rewrite -surjective_pairing.
    eapply (reach_handle key_query); [reflexivity|apply reach_new|exact Hc]. }
  assert (c (at_instant 5, w2.2) = Some (Ok (cached (trusted "sha256:manifest")), (at_instant 5, w2.2))) as Hc2.
  { vm_compute in Hc. injection Hc as <- <-. reflexivity. }
  exists c, (at_instant 5, w2.2), (cached (trusted "sha256:manifest")), (at_instant 5, w2.2).
  split; [reflexivity|]. split; [exact Hc2|]. split; [reflexivity|].
  destruct (trusted_answers_are_verified key_query "ghcr.io/app" c _ _ _ Hw eq_refl Hc2 eq_refl)
    as (t & _ & _ & _ & _ & _ & Hin & _).
  - split; reflexivity.
  - intros n k [= <- _]. discriminate.
  - exists t. exact Hin.
Defined.

(** The certificate signed one layer, and another one carries the annotation. *)
Lemma certificate_verified_iff_witness :
  ∃ st', verify_certificate "ghcr.io/app" "key" None false (Some {["env" := "prod"]}) (at_instant 0) =
    Some (Ok (trusted "sha256:manifest"), st').
Proof.
  eexists.
  refine (proj2 (certificate_verified_iff "ghcr.io/app" "key" None false (Some {["env" := "prod"]})
    (at_instant 0) "sha256:manifest" [key_layer;
      {| sl_certificate := None; sl_keys := []; sl_annotations := {["env" := "prod"]} |}]
    _ "key" eq_refl eq_refl) _).
  split.
  - exists key_layer. split; [left|vm_compute; reflexivity].
  - intros a [= <-]. eexists. split; [right; left|vm_compute; reflexivity].
Defined.
