(* ===== verification/KubeClient.v ===== *)
(** * The Kubernetes client of the callback handler

    Models [kubernetes/client.rs] and [kubernetes/reflector.rs] of
    [crates/policy-evaluator/src/callback_handler/]: discovery of the resource kinds, reflectors that keep a copy of a list of objects up to date, and the cached
    lookups.

    The API server, the [kube] store and its objects are the parameters [KubeApi] and
    [KubeObject]. A request is handled without interruption; the tasks of the
    reflectors, which run beside them, are the step relation [reflector_step]. *)

From S2P Require Import Prelude Bytes RustStr DebugFmt Json HostCapabilities Callback FieldMask.
From S2P Require Import VerificationConstraints Sources Registry RegoInventory SigstoreClient TtlCache.

(** ** Resources and objects *)

Record ApiResource := {
  ar_group : string; ar_version : string; ar_api_version : string; ar_kind : string;
  ar_plural : string;
}.

Record KubeResource := { resource : ApiResource; namespaced : bool }.

(** An entry of the resources of a group, as the API server lists them. *)
Record APIResource := { apir_kind : string; apir_name : string; apir_namespaced : bool }.

Class KubeObject `{KubeLib} := {
  object_data : DynamicObject → Value;
  set_object_data : Value → DynamicObject → DynamicObject;
  (** [managed_fields_mut().clear()] *)
  clear_managed_fields : DynamicObject → DynamicObject;
  (** [annotations_mut().remove(..)] *)
  remove_annotation : string → DynamicObject → DynamicObject;
}.

Class KubeObjectLaws `{KubeObject} : Prop := {
  object_data_set v o : object_data (set_object_data v o) = v;
  object_data_clear o : object_data (clear_managed_fields o) = object_data o;
  object_data_remove k o : object_data (remove_annotation k o) = object_data o;
}.

(** [watcher::Event] *)
Inductive WatchEvent `{KubeLib} :=
| EvApply (o : DynamicObject)
| EvDelete (o : DynamicObject)
| EvInit
| EvInitApply (o : DynamicObject)
| EvInitDone.

(** [Event::modify] *)
Definition modify `{KubeLib} (f : DynamicObject → DynamicObject) (ev : WatchEvent) : WatchEvent :=
  match ev with
  | EvApply o => EvApply (f o)
  | EvDelete o => EvDelete (f o)
  | EvInit => EvInit
  | EvInitApply o => EvInitApply (f o)
  | EvInitDone => EvInitDone
  end.

Definition event_object `{KubeLib} (ev : WatchEvent) : option DynamicObject :=
  match ev with EvApply o | EvDelete o | EvInitApply o => Some o | EvInit | EvInitDone => None end.

Class KubeApi `{OciLib, !HostIO, KubeLib, SdkTypes} := {
  list_core_api_resources : string → Host → result (list APIResource) string * Host;
  list_api_group_resources : string → Host → result (list APIResource) string * Host;
  (** [Api::get_opt], in a namespace or cluster wide *)
  api_get_opt : ApiResource → option string → string → Host →
    result (option DynamicObject) string * Host;
  SubjectAccessReviewStatus : Type;
  (** [Api::create] of the review, with the status of the answer *)
  sar_create : SubjectAccessReview → Host → result (option SubjectAccessReviewStatus) string * Host;
  sar_eq_dec :: EqDecision SubjectAccessReview;
  (** [reflector::store] *)
  Store : Type;
  store_new : ApiResource → Store;
  store_state : Store → list DynamicObject;
  apply_watcher_event : WatchEvent → Store → Store;
  (** The events of a watcher until the store is ready, or [None] if that never
      happens: the watcher retries for ever. *)
  watch_until_ready : ApiResource → option string → option string → option string → Host →
    option (list WatchEvent * Host);
}.

(** A store holds what the events brought. [store_held] also covers the objects that
    are buffered during the initial listing. *)
Class KubeStoreLaws `{KubeApi} : Type := {
  store_held : Store → list DynamicObject;
  store_state_held s o : o ∈ store_state s → o ∈ store_held s;
  store_new_held r o : o ∉ store_held (store_new r);
  store_apply_held ev s o :
    o ∈ store_held (apply_watcher_event ev s) → o ∈ store_held s ∨ event_object ev = Some o;
}.

Section client.
Context `{OL : OciLib, HI : !HostIO, CK : !Clock, MK : Moka, KL : KubeLib, ST : SdkTypes}.
Context `{KO : !KubeObject, KA : !KubeApi}.
Implicit Types (api_version kind name : string).

(** ** [reflector.rs] *)

(** A reflector: its reader, the instant of the last change, and what its task has
    captured. [pending] is an event whose instant is published but that is not applied
    yet. *)
Record Reflector := {
  rf_resource : ApiResource;
  rf_namespace : option string;
  rf_label_selector : option string;
  rf_field_selector : option string;
  rf_field_masks : option (gset string);
  rf_store : Store;
  rf_last_change_seen_at : Instant;
  rf_pending : option WatchEvent;
}.

Definition compute_id (r : KubeResource) (namespace label_selector field_selector : option string)
    (field_masks : option (gset string)) : string :=
  ar_api_version (resource r) +:+ "|" +:+ ar_kind (resource r) +:+ "|" +:+
  debug_option debug_str namespace +:+ "|" +:+ debug_option debug_str label_selector +:+ "|" +:+
  debug_option debug_str field_selector +:+ "|" +:+ debug_option debug_set field_masks.

Definition LAST_APPLIED : string := "kubectl.kubernetes.io/last-applied-configuration".

Definition modify_object (field_masker : option FieldMaskNode) (obj : DynamicObject) :
    DynamicObject :=
  let obj := clear_managed_fields obj in
  let obj := remove_annotation LAST_APPLIED obj in
  match field_masker with
  | Some mask => set_object_data (prune_in_place (object_data obj) mask) obj
  | None => obj
  end.

Definition masker_of (field_masks : option (gset string)) : option FieldMaskNode :=
  match field_masks with
  | Some masks => Some (FieldMaskNode_new (btree_set_iter masks))
  | None => None
  end.

Definition set_watch (rf : Reflector) (store : Store) (last : Instant) (pending : option WatchEvent) :
    Reflector :=
  {| rf_resource := rf_resource rf; rf_namespace := rf_namespace rf;
     rf_label_selector := rf_label_selector rf; rf_field_selector := rf_field_selector rf;
     rf_field_masks := rf_field_masks rf; rf_store := store; rf_last_change_seen_at := last;
     rf_pending := pending |}.

(** [reflector_tracking_changes_instant]: an event is modified, then its instant is
    published, and then it is applied to the store. *)
Definition publish (now : Instant) (ev : WatchEvent) (rf : Reflector) : Reflector :=
  set_watch rf (rf_store rf) now
    (Some (modify (modify_object (masker_of (rf_field_masks rf))) ev)).

Definition apply_pending (rf : Reflector) : Reflector :=
  match rf_pending rf with
  | Some ev => set_watch rf (apply_watcher_event ev (rf_store rf)) (rf_last_change_seen_at rf) None
  | None => rf
  end.

(** ** [client.rs] *)

(** A resource to look up: its [apiVersion], kind, name and namespace. *)
Notation Lookup := (string * string * string * option string)%type.

(** [lookups] records each lookup that succeeded, for the properties. *)
Record KubeClient := {
  kube_resources : gmap (string * string) KubeResource;
  reflectors : gmap string Reflector;
  get_resource_cache : Cache string DynamicObject;
  can_i_cache : Cache SubjectAccessReview SubjectAccessReviewStatus;
  lookups : list (Instant * Lookup * DynamicObject);
}.

Definition KubeClient_new : KubeClient :=
  {| kube_resources := ∅; reflectors := ∅;
     get_resource_cache := cache_new (from_secs 5); can_i_cache := cache_new (from_secs 5);
     lookups := [] |}.

(** The state of the client with its host. *)
Notation KW := (St * KubeClient)%type.
Definition kw_now (w : KW) : Instant := host_now (host w.1).

Definition kube_call {A} (op : Host → A * Host) : M KW A := λ w,
  let '(a, h) := op (host w.1) in
  Some (a, ({| host := h; connections := connections w.1 |}, w.2)).

Definition with_resources (m : gmap (string * string) KubeResource) (c : KubeClient) : KubeClient :=
  {| kube_resources := m; reflectors := reflectors c;
     get_resource_cache := get_resource_cache c; can_i_cache := can_i_cache c;
     lookups := lookups c |}.

Definition with_reflectors (m : gmap string Reflector) (c : KubeClient) : KubeClient :=
  {| kube_resources := kube_resources c; reflectors := m;
     get_resource_cache := get_resource_cache c; can_i_cache := can_i_cache c;
     lookups := lookups c |}.

Definition set_get_resource_cache (cache : Cache string DynamicObject) (w : KW) : KW :=
  (w.1, {| kube_resources := kube_resources w.2; reflectors := reflectors w.2;
           get_resource_cache := cache; can_i_cache := can_i_cache w.2;
           lookups := lookups w.2 |}).

Definition set_can_i_cache (cache : Cache SubjectAccessReview SubjectAccessReviewStatus)
    (w : KW) : KW :=
  (w.1, {| kube_resources := kube_resources w.2; reflectors := reflectors w.2;
           get_resource_cache := get_resource_cache w.2; can_i_cache := cache;
           lookups := lookups w.2 |}).

(** The group and the version of an [apiVersion]. *)
Definition group_version api_version : result (string * string) string :=
  if decide (api_version = "v1") then Ok ("", "v1")
  else ok_or (split_once api_version "/")
    ("cannot determine group and version for " +:+ api_version).

Definition resources_of api_version kind : M KW (result (list APIResource) string) :=
  if decide (api_version = "v1") then kube_call (list_core_api_resources api_version)
  else
    let! r := kube_call (list_api_group_resources api_version) in
    m_ret (map_err (λ e, "error finding resource " +:+ api_version +:+ " / " +:+ kind +:+ ": " +:+ e) r).

Definition build_kube_resource api_version kind : M KW (result KubeResource string) := λ w,
  match kube_resources w.2 !! (api_version, kind) with
  | Some kr => Some (Ok kr, w)
  | None =>
      (let!? resources_list := resources_of api_version kind in
       let!? r := m_ret (ok_or (find (λ r, bool_decide (apir_kind r = kind)) resources_list)
         ("Cannot find resource " +:+ api_version +:+ "/" +:+ kind)) in
       let!? gv := m_ret (group_version api_version) in
       let kube_resource :=
         {| resource := {| ar_group := gv.1; ar_version := gv.2; ar_api_version := api_version;
                           ar_kind := kind; ar_plural := apir_name r |};
            namespaced := apir_namespaced r |} in
       let! _ := λ w : KW, Some (tt,
         (w.1, with_resources (<[(api_version, kind) := kube_resource]> (kube_resources w.2)) w.2)) in
       m_ret (Ok kube_resource)) w
  end.

(** [Reflector::create_and_run]: the events seen until the store is ready go through
    the same steps as the later ones. *)
Definition create_and_run (r : KubeResource)
    (namespace label_selector field_selector : option string)
    (field_masks : option (gset string)) : M KW (result Reflector string) := λ w,
  let now := kw_now w in
  match watch_until_ready (resource r) namespace label_selector field_selector (host w.1) with
  | None => None
  | Some (events, h) =>
      let rf0 := {| rf_resource := resource r; rf_namespace := namespace;
                    rf_label_selector := label_selector; rf_field_selector := field_selector;
                    rf_field_masks := field_masks; rf_store := store_new (resource r);
                    rf_last_change_seen_at := now; rf_pending := None |} in
      Some (Ok (foldl (λ rf ev, apply_pending (publish (host_now h) ev rf)) rf0 events),
            ({| host := h; connections := connections w.1 |}, w.2))
  end.

Definition get_reflector_reader (reflector_id : string) (r : KubeResource)
    (namespace label_selector field_selector : option string)
    (field_masks : option (gset string)) : M KW (result Store string) := λ w,
  match reflectors w.2 !! reflector_id with
  | Some rf => Some (Ok (rf_store rf), w)
  | None =>
      (let!? rf := create_and_run r namespace label_selector field_selector field_masks in
       let! _ := λ w : KW, Some (tt, (w.1, with_reflectors (<[reflector_id := rf]> (reflectors w.2)) w.2)) in
       m_ret (Ok (rf_store rf))) w
  end.

(** [ObjectList] *)
Record ObjectList := {
  ol_api_version : string;
  ol_kind : string;
  ol_items : list DynamicObject;
}.

Definition list_resources_from_reflector (r : KubeResource)
    (namespace label_selector field_selector : option string)
    (field_masks : option (gset string)) : M KW (result ObjectList string) :=
  let reflector_id := compute_id r namespace label_selector field_selector field_masks in
  let!? reader := get_reflector_reader reflector_id r namespace label_selector field_selector
    field_masks in
  m_ret (Ok {| ol_api_version := ar_api_version (resource r);
               ol_kind := ar_kind (resource r) +:+ "List"; ol_items := store_state reader |}).

Definition list_resources_by_namespace api_version kind (namespace : string)
    (label_selector field_selector : option string) (field_masks : option (gset string)) :
    M KW (result ObjectList string) :=
  let!? r := build_kube_resource api_version kind in
  if negb (namespaced r) then m_ret (Err ("resource " +:+ api_version +:+ "/" +:+ kind +:+
    " is cluster wide. Cannot search for it inside of a namespace")) else
  list_resources_from_reflector r (Some namespace) label_selector field_selector field_masks.

Definition list_resources_all api_version kind
    (label_selector field_selector : option string) (field_masks : option (gset string)) :
    M KW (result ObjectList string) :=
  let!? r := build_kube_resource api_version kind in
  list_resources_from_reflector r None label_selector field_selector field_masks.

Definition have_reflector_resources_changed_since (r : KubeResource)
    (namespace label_selector field_selector : option string)
    (field_masks : option (gset string)) (since : Instant) : M KW bool := λ w,
  let reflector_id := compute_id r namespace label_selector field_selector field_masks in
  Some (match reflectors w.2 !! reflector_id with
        | Some rf => bool_decide (since < rf_last_change_seen_at rf)%Z
        | None => true
        end, w).

Definition has_list_resources_all_result_changed_since_instant api_version kind
    (label_selector field_selector : option string) (field_masks : option (gset string))
    (since : Instant) : M KW (result bool string) :=
  let!? r := build_kube_resource api_version kind in
  let! b := have_reflector_resources_changed_since r None label_selector field_selector
    field_masks since in
  m_ret (Ok b).

Definition get_resource api_version kind name (namespace : option string) :
    M KW (result DynamicObject string) :=
  let!? r := build_kube_resource api_version kind in
  let!? ns := m_ret (if namespaced r
    then res_map Some (ok_or namespace ("Resource " +:+ api_version +:+ "/" +:+ kind +:+
           " is namespaced, but no namespace was provided"))
    else Ok None) in
  let!? found := kube_call (api_get_opt (resource r) ns name) in
  m_ret (ok_or found ("Cannot find " +:+ api_version +:+ "/" +:+ kind +:+ " named '" +:+ name +:+
    "' inside of namespace '" +:+ debug_option debug_str namespace +:+ "'")).

Definition get_resource_plural_name api_version kind : M KW (result string string) :=
  let!? r := build_kube_resource api_version kind in
  m_ret (Ok (ar_plural (resource r))).

Definition can_i (request : SubjectAccessReview) : M KW (result SubjectAccessReviewStatus string) :=
  let!? status := kube_call (sar_create request) in
  m_ret (ok_or status "SubjectAccessReview did not return a response").

Definition get_resource_key api_version kind name (namespace : option string) : string :=
  "get_resource_cached(" +:+ api_version +:+ "," +:+ kind +:+ ")," +:+ name +:+ "," +:+
  debug_option debug_str namespace.

Definition push_lookup (e : Instant * Lookup * DynamicObject) (c : KubeClient) : KubeClient :=
  {| kube_resources := kube_resources c; reflectors := reflectors c;
     get_resource_cache := get_resource_cache c; can_i_cache := can_i_cache c;
     lookups := lookups c ++ [e] |}.

(** A lookup, recorded when it succeeds. *)
Definition recorded_lookup (l : Lookup) (c : M KW (result DynamicObject string)) :
    M KW (result DynamicObject string) :=
  let!? o := c in
  let! _ := λ w : KW, Some (tt, (w.1, push_lookup (kw_now w, l, o) w.2)) in
  m_ret (Ok o).

Definition get_resource_cached api_version kind name (namespace : option string) :
    M KW (result (Return DynamicObject) string) :=
  try_cached kw_now (λ w, get_resource_cache w.2) set_get_resource_cache
    (get_resource_key api_version kind name namespace)
    (recorded_lookup (api_version, kind, name, namespace)
       (get_resource api_version kind name namespace)).

Definition can_i_cached (request : SubjectAccessReview) :
    M KW (result (Return SubjectAccessReviewStatus) string) :=
  try_cached kw_now (λ w, can_i_cache w.2) set_can_i_cache request (can_i request).

(** ** The task of a reflector

    It publishes the instant of an event, and then applies it; a reader may look in
    between. *)
Inductive reflector_step : Reflector → Reflector → Prop :=
| step_publish now ev rf :
    rf_pending rf = None → (rf_last_change_seen_at rf ≤ now)%Z →
    reflector_step rf (publish now ev rf)
| step_apply rf : reflector_step rf (apply_pending rf).
End client.

(** ** Properties *)

(** Names that are given in [apiVersion] and kind have none of the separators of the
    keys. *)
Definition plain_name (s : string) : Prop :=
  contains_char s "|" = false ∧ contains_char s "," = false ∧ contains_char s ")" = false.

(** What is relied on of the API server: the groups and kinds it serves have plain names. *)
Class KubeNames `{KubeApi} : Prop := {
  core_kinds_plain v h l h' r :
    list_core_api_resources v h = (Ok l, h') → r ∈ l → plain_name (apir_kind r);
  group_kinds_plain v h l h' r :
    list_api_group_resources v h = (Ok l, h') → r ∈ l → plain_name (apir_kind r);
  groups_plain v h l h' : list_api_group_resources v h = (Ok l, h') → plain_name v;
}.

Section properties.
Context `{OL : OciLib, HI : !HostIO, CK : !Clock, MK : Moka, KL : KubeLib, ST : SdkTypes}.
Context `{KO : !KubeObject, KA : !KubeApi}.
Implicit Types (api_version kind name : string) (rf : Reflector) (w : St * KubeClient).

(** *** Keys *)

Lemma compute_id_inj r r' ns ns' ls ls' fs fs' fm fm' :
  plain_name (ar_api_version (resource r)) → plain_name (ar_api_version (resource r')) →
  plain_name (ar_kind (resource r)) → plain_name (ar_kind (resource r')) →
  compute_id r ns ls fs fm = compute_id r' ns' ls' fs' fm' →
  ar_api_version (resource r) = ar_api_version (resource r') ∧
  ar_kind (resource r) = ar_kind (resource r') ∧ ns = ns' ∧ ls = ls' ∧ fs = fs' ∧ fm = fm'.
Proof.
  intros [Ha _] [Ha' _] [Hk _] [Hk' _] H.
  apply field_decodable in H as [-> H]; [|done..]. apply field_decodable in H as [-> H]; [|done..].
  pose proof (debug_option_decodable debug_str debug_str_decodable) as Hd.
  apply Hd in H as [-> H]. apply (str_app_inj_r "|"), Hd in H as [-> H].
  apply (str_app_inj_r "|"), Hd in H as [-> H]. apply (str_app_inj_r "|") in H.
  split_and!; [done..|]. eapply decodable_inj; [|done].
  apply debug_option_decodable, debug_set_decodable.
Qed.

Lemma get_resource_key_inj av av' kind kind' name name' ns ns' :
  plain_name av → plain_name av' → plain_name kind → plain_name kind' →
  get_resource_key av kind name ns = get_resource_key av' kind' name' ns' →
  (av, kind, name, ns) = (av', kind', name', ns').
Proof.
  intros (_ & Ha & _) (_ & Ha' & _) (_ & _ & Hk) (_ & _ & Hk') H%(str_app_inj_r "get_resource_cached(").
  apply field_decodable in H as [-> H]; [|done..]. apply field_decodable in H as [-> H]; [|done..].
  apply (str_app_inj_r ",") in H. apply field_option_inj in H as [-> ->]. done.
Qed.

(** *** Reflectors *)

(** An object went through [modify_object] with the masks of the reflector. *)
Definition masked rf (o : DynamicObject) : Prop :=
  ∃ o', o = modify_object (masker_of (rf_field_masks rf)) o'.

Definition stored_masked `{KS : !KubeStoreLaws} rf : Prop :=
  (∀ o, o ∈ store_held (rf_store rf) → masked rf o) ∧
  (∀ ev o, rf_pending rf = Some ev → event_object ev = Some o → masked rf o).

(** What the task of a reflector does not change. *)
Definition same_watch rf rf' : Prop :=
  rf_resource rf' = rf_resource rf ∧ rf_namespace rf' = rf_namespace rf ∧
  rf_label_selector rf' = rf_label_selector rf ∧ rf_field_selector rf' = rf_field_selector rf ∧
  rf_field_masks rf' = rf_field_masks rf.

Lemma same_watch_trans rf1 rf2 rf3 : same_watch rf1 rf2 → same_watch rf2 rf3 → same_watch rf1 rf3.
Proof.
  intros (? & ? & ? & ? & ?) (? & ? & ? & ? & ?). split_and!; congruence.
Qed.

Lemma publish_masked `{KS : !KubeStoreLaws} now ev rf :
  stored_masked rf → stored_masked (publish now ev rf).
Proof.
  intros [Hs _]. split; [done|]. simpl. intros ev' o [= <-].
  destruct ev; simpl; intros [= <-]; by eexists.
Qed.

Lemma apply_masked `{KS : !KubeStoreLaws} rf : stored_masked rf → stored_masked (apply_pending rf).
Proof.
  intros [Hs Hp]. rw /apply_pending. destruct (rf_pending rf) as [ev|] eqn:He; [|by split; rewrite ?He].
  split; [|done]. simpl. intros o [?|?]%store_apply_held; [by apply Hs|by apply (Hp ev)].
Qed.

Lemma apply_same_watch rf : same_watch rf (apply_pending rf).
Proof. rw /apply_pending. by destruct (rf_pending rf). Qed.

Lemma step_masked `{KS : !KubeStoreLaws} rf rf' :
  reflector_step rf rf' → stored_masked rf → stored_masked rf' ∧ same_watch rf rf'.
Proof.
  destruct 1 as [now ev rf|rf]; intros Hm; split;
    auto using publish_masked, apply_masked, apply_same_watch. done.
Qed.

Lemma events_masked `{KS : !KubeStoreLaws} now events rf :
  stored_masked rf →
  let rf' := foldl (λ rf ev, apply_pending (publish now ev rf)) rf events in
  stored_masked rf' ∧ same_watch rf rf'.
Proof.
  revert rf. induction events as [|ev events IH]; intros rf Hm; simpl; [done|].
  destruct (IH (apply_pending (publish now ev rf))) as [Hm' Hs].
  { by apply apply_masked, publish_masked. }
  split; [done|]. eapply same_watch_trans; [|done]. done.
Qed.

(** *** The invariant of the client *)

Definition known_resource api_version kind (r : KubeResource) : Prop :=
  ar_api_version (resource r) = api_version ∧ ar_kind (resource r) = kind ∧
  plain_name api_version ∧ plain_name kind.

(** A reflector before its first event. *)
Definition unstarted (r : ApiResource) (ns ls fs : option string) (fm : option (gset string))
    (now : Instant) : Reflector :=
  {| rf_resource := r; rf_namespace := ns; rf_label_selector := ls; rf_field_selector := fs;
     rf_field_masks := fm; rf_store := store_new r; rf_last_change_seen_at := now; rf_pending := None |}.

(** The life of a reflector: the API server was asked to watch this kind in this namespace with
    these selectors, its first events were applied to an empty store, and its task has made
    steps since. *)
Definition watch_of (r : ApiResource) (ns ls fs : option string) (fm : option (gset string)) rf : Prop :=
  ∃ h events h' now, watch_until_ready r ns ls fs h = Some (events, h') ∧
    rtc reflector_step (foldl (λ rf ev, apply_pending (publish (host_now h') ev rf))
      (unstarted r ns ls fs fm now) events) rf.

Definition known_reflector `{KS : !KubeStoreLaws} (id : string) rf : Prop :=
  (∃ r, resource r = rf_resource rf ∧
    id = compute_id r (rf_namespace rf) (rf_label_selector rf) (rf_field_selector rf) (rf_field_masks rf)) ∧
  plain_name (ar_api_version (rf_resource rf)) ∧ plain_name (ar_kind (rf_resource rf)) ∧
  stored_masked rf ∧
  watch_of (rf_resource rf) (rf_namespace rf) (rf_label_selector rf) (rf_field_selector rf)
    (rf_field_masks rf) rf.

(** A lookup of the record was answered by the API server. *)
Definition answered (e : Instant * (string * string * string * option string) * DynamicObject) : Prop :=
  let '(t, (api_version, kind, name, namespace), o) := e in
  plain_name api_version ∧ plain_name kind ∧
  ∃ r ns h h', known_resource api_version kind r ∧ api_get_opt (resource r) ns name h = (Ok (Some o), h') ∧
    ns = (if namespaced r then namespace else None) ∧ host_now h' = t.

Definition kube_inv `{KS : !KubeStoreLaws} w : Prop :=
  (∀ api_version kind r, kube_resources w.2 !! (api_version, kind) = Some r →
     known_resource api_version kind r) ∧
  (∀ id rf, reflectors w.2 !! id = Some rf → known_reflector id rf) ∧
  Forall answered (lookups w.2) ∧ cache_ttl (get_resource_cache w.2) = from_secs 5 ∧
  justified (λ k o t, ∃ api_version kind name namespace,
    k = get_resource_key api_version kind name namespace ∧
    (t, (api_version, kind, name, namespace), o) ∈ lookups w.2) (get_resource_cache w.2).

Lemma kube_inv_new `{KS : !KubeStoreLaws, ML : !MokaLaws MK} st : kube_inv (st, KubeClient_new).
Proof.
  split_and!; simpl; [by intros ???; rewrite lookup_empty|by intros ??; rewrite lookup_empty
    |constructor|apply cache_ttl_new|apply justified_new].
Qed.

Lemma kube_call_ensures `{KS : !KubeStoreLaws} {A} (op : Host → A * Host) (Q : A → Prop) :
  (∀ h, Q (op h).1) → ensures kube_inv (kube_call op) Q.
Proof.
  intros HQ w a w' Hw. rw /kube_call. specialize (HQ (host w.1)).
  destruct (op (host w.1)) as [b h]. intros [= <- <-]. done.
Qed.

Lemma v1_plain : plain_name "v1".
Proof. done. Qed.

Lemma resources_of_ensures `{KS : !KubeStoreLaws, KN : !KubeNames} api_version kind :
  ensures kube_inv (resources_of api_version kind)
    (on_ok (λ l, plain_name api_version ∧ ∀ r, r ∈ l → plain_name (apir_kind r))).
Proof.
  rw /resources_of. case_decide as Hv.
  - apply kube_call_ensures. intros h. subst.
    destruct (list_core_api_resources "v1" h) as [[l|e] h'] eqn:Hl; [|done]. simpl.
    split; [apply v1_plain|]. intros r. by eapply core_kinds_plain.
  - eapply ensures_bind; [apply (kube_call_ensures _
      (on_ok (λ l, plain_name api_version ∧ ∀ r, r ∈ l → plain_name (apir_kind r))))|].
    + intros h. destruct (list_api_group_resources api_version h) as [[l|e] h'] eqn:Hl; [|done].
      split; [by eapply groups_plain|]. intros r. by eapply group_kinds_plain.
    + intros [l|e] Hl; by apply ensures_ret.
Qed.

Lemma build_kube_resource_ensures `{KS : !KubeStoreLaws, KN : !KubeNames} api_version kind :
  ensures kube_inv (build_kube_resource api_version kind) (on_ok (known_resource api_version kind)).
Proof.
  intros w a w' Hw. rw /build_kube_resource.
  destruct (kube_resources w.2 !! _) as [kr|] eqn:Hk.
  { intros [= <- <-]. split; [done|]. by apply Hw. }
  revert w a w' Hw Hk. intros w a w' Hw _. revert w a w' Hw.
  apply (ensures_mr_bind _ _ _ _ _ (resources_of_ensures api_version kind)). intros l [Hav Hl].
  destruct (find _ l) as [r|] eqn:Hf; [|by apply ensures_ret].
  apply find_some in Hf as [Hr%list_elem_of_In Hkind]. apply bool_decide_eq_true_1 in Hkind.
  destruct (group_version api_version) as [gv|e]; [|by apply ensures_ret].
  intros w a w' (H1 & H2 & H3) [= <- <-]. simpl.
  assert (plain_name kind) as Hpk by (rewrite -Hkind; by apply Hl).
  split; [|done]. split; [|done]. simpl. intros av' kind' r' [[[= <- <-] <-]|[Hne Hr']]%lookup_insert_Some.
  - done.
  - by apply H1.
Qed.

(** *** Listings *)

(** What a listing holds in a state of the client: the objects in the store of the reflector
    that the client keeps for this very request, each of which went through
    [modify_object] with the masks of the request. The reflector was started on the API server for the
    kind, the namespace and the selectors of the request. *)
Definition listed api_version kind (ns ls fs : option string) (fm : option (gset string)) w
    (l : ObjectList) : Prop :=
  ol_api_version l = api_version ∧ ol_kind l = kind +:+ "List" ∧
  ∃ r rf, ar_api_version (resource r) = api_version ∧ ar_kind (resource r) = kind ∧
    reflectors w.2 !! compute_id r ns ls fs fm = Some rf ∧ ol_items l = store_state (rf_store rf) ∧
    (∃ res, ar_api_version res = api_version ∧ ar_kind res = kind ∧ watch_of res ns ls fs fm rf) ∧
    ∀ o, o ∈ ol_items l → ∃ o', o = modify_object (masker_of fm) o'.

(** The reflector that is returned is kept, and is the one of the request. *)
Lemma get_reflector_reader_spec `{KS : !KubeStoreLaws} api_version kind r ns ls fs fm w a w' :
  known_resource api_version kind r → kube_inv w →
  get_reflector_reader (compute_id r ns ls fs fm) r ns ls fs fm w = Some (a, w') →
  kube_inv w' ∧ on_ok (λ store, ∃ rf, rf_store rf = store ∧
    reflectors w'.2 !! compute_id r ns ls fs fm = Some rf ∧ stored_masked rf ∧ rf_field_masks rf = fm ∧
    ∃ res, ar_api_version res = api_version ∧ ar_kind res = kind ∧ watch_of res ns ls fs fm rf) a.
Proof.
  intros (Hav & Hkind & Hpa & Hpk) Hw. rw /get_reflector_reader.
  destruct (reflectors w.2 !! _) as [rf|] eqn:Hrf.
  { intros [= <- <-]. split; [done|]. destruct Hw as (_ & Hr & _).
    destruct (Hr _ _ Hrf) as ((r' & Hr' & Hid) & Hpa' & Hpk' & Hm & Hlife). exists rf.
    apply compute_id_inj in Hid as (Eav & Ek & -> & -> & -> & ->); rewrite ?Hr'; try congruence.
    rewrite Hr' in Eav Ek. split_and!; [done..|]. exists (rf_resource rf). split_and!; congruence. }
  intros (rf & w1 & Hc & H)%m_bind_Some. rewrite /create_and_run in Hc.
  destruct (watch_until_ready _ _ _ _ _) as [[events h]|] eqn:Hwatch; [|done].
  injection Hc as <- <-. injection H as <- <-.
  change ({| rf_resource := resource r |}) with (unstarted (resource r) ns ls fs fm (kw_now w)).
  set (rf0 := unstarted _ _ _ _ _ _).
  destruct (events_masked (host_now h) events rf0) as [Hm (E1 & E2 & E3 & E4 & E5)].
  { split; [|done]. intros o Ho. by apply store_new_held in Ho. }
  assert (watch_of (resource r) ns ls fs fm (foldl (λ rf ev, apply_pending (publish (host_now h) ev rf)) rf0 events))
    as Hlife by (by exists (host w.1), events, h, (kw_now w)).
  set (rf := foldl _ rf0 events) in *. split.
  - destruct Hw as (H1 & H2 & ? & ? & ?). split_and!; [done| |done..].
    simpl. intros id rf' [[<- <-]|[_ ?]]%lookup_insert_Some; [|by apply H2].
    rw /known_reflector E1 E2 E3 E4 E5 /= Hav Hkind. split_and!; [by exists r|done..].
  - exists rf. simpl. rewrite lookup_insert_eq. split_and!; [done..|]. by exists (resource r).
Qed.

Lemma list_from_reflector_spec `{KS : !KubeStoreLaws} api_version kind r ns ls fs fm w a w' :
  known_resource api_version kind r → kube_inv w →
  list_resources_from_reflector r ns ls fs fm w = Some (a, w') →
  kube_inv w' ∧ on_ok (listed api_version kind ns ls fs fm w') a.
Proof.
  intros Hr Hw (store & w1 & Hst & H)%m_bind_Some.
  destruct (get_reflector_reader_spec _ _ _ _ _ _ _ _ _ _ Hr Hw Hst) as [Hw1 Hs].
  destruct store as [store|e]; injection H as <- <-; (split; [done|]); [|done].
  destruct Hs as (rf & <- & Hrf & [Hm _] & Hfm & Hlife). destruct Hr as (<- & <- & _).
  split_and!; [done..|]. exists r, rf. split_and!; [done..|].
  intros o Ho%store_state_held%Hm. by rewrite -Hfm.
Qed.

(** *** Lookups *)

Lemma kube_call_run {A} (op : Host → A * Host) w a w' :
  kube_call op w = Some (a, w') → op (host w.1) = (a, host w'.1) ∧ w'.2 = w.2.
Proof. rw /kube_call. destruct (op (host w.1)) as [b h] eqn:Ho. by intros [= <- <-]. Qed.

(** [build_kube_resource] only touches the known resources. *)
Lemma build_kube_resource_frame api_version kind w r w' :
  build_kube_resource api_version kind w = Some (r, w') →
  reflectors w'.2 = reflectors w.2 ∧ lookups w'.2 = lookups w.2 ∧
  get_resource_cache w'.2 = get_resource_cache w.2.
Proof.
  rw /build_kube_resource. destruct (kube_resources w.2 !! _); [by intros [= _ <-]|].
  intros (l & w1 & Hl & H)%m_bind_Some.
  assert (w1.2 = w.2) as Hw1.
  { revert Hl. rw /resources_of. case_decide; [by intros [_ ?]%kube_call_run|].
    intros (a & w2 & [_ <-]%kube_call_run & [= _ <-])%m_bind_Some. done. }
  rewrite -Hw1. destruct l as [l|e]; [|by injection H as _ <-]. revert H.
  destruct (find _ l); [|by intros [= _ <-]].
  destruct (group_version api_version); by intros [= _ <-].
Qed.

Lemma get_resource_answered `{KS : !KubeStoreLaws, KN : !KubeNames} api_version kind name ns w r w' :
  kube_inv w → get_resource api_version kind name ns w = Some (r, w') →
  kube_inv w' ∧ lookups w'.2 = lookups w.2 ∧ get_resource_cache w'.2 = get_resource_cache w.2 ∧
  on_ok (λ o, answered (kw_now w', (api_version, kind, name, ns), o)) r.
Proof.
  intros Hw (kr & w1 & Hb & H)%m_bind_Some.
  destruct (build_kube_resource_ensures api_version kind w kr w1 Hw Hb) as [Hw1 Hkr].
  destruct (build_kube_resource_frame _ _ _ _ _ Hb) as (_ & Hl & Hc). rewrite -Hl -Hc.
  destruct kr as [kr|e]; [|by injection H as <- <-]. revert H.
  destruct (if namespaced kr then _ else _) as [ns'|e] eqn:Hns; [|by intros [= <- <-]].
  intros (x & w1' & Hx & H)%m_bind_Some. injection Hx as <- <-.
  apply m_bind_Some in H as (found & w2 & [Hget Hw2]%kube_call_run & H). assert (kube_inv w2) as Hinv2 by by rewrite /kube_inv Hw2.
  destruct found as [[o|]|e]; injection H as <- <-; rw Hw2; [|by split_and!..].
  split_and!; [done..|]. destruct Hkr as (Ha & Hk & Hpa & Hpk). split_and!; [done..|].
  exists kr, ns', (host w1.1), (host w2.1).
  split_and!; [done..| |done]. destruct (namespaced kr), ns; simpl in Hns; by simplify_eq.
Qed.

Lemma get_resource_cached_inv `{KS : !KubeStoreLaws, KN : !KubeNames, ML : !MokaLaws MK}
    api_version kind name ns w r w' :
  kube_inv w → get_resource_cached api_version kind name ns w = Some (r, w') →
  kube_inv w' ∧ on_ok (λ ret, ∃ t av k n o,
    get_resource_key av k n o = get_resource_key api_version kind name ns ∧
    (t, (av, k, n, o), value ret) ∈ lookups w'.2 ∧ (kw_now w' < t + from_secs 5)%Z) r.
Proof.
  intros Hw H%try_cached_Some. destruct (cache_get _ _ _) as [o|] eqn:Hg.
  { destruct H as [-> ->]. split; [done|]. destruct Hw as (_ & _ & _ & Httl & Hj).
    destruct (Hj _ _ _ Hg) as (t & Ht & av & k & n & ns' & Hk & Hin). rewrite Httl in Ht.
    by exists t, av, k, n, ns'. }
  destruct H as (r1 & w1 & (o & w2 & Hrun & H)%m_bind_Some & Hr).
  destruct (get_resource_answered _ _ _ _ _ _ _ Hw Hrun) as (Hw2 & _ & _ & Ho).
  destruct o as [o|e]; last first.
  { injection H as <- <-. by destruct Hr as [-> ->]. }
  injection H as <- <-. destruct Hr as [-> ->].
  destruct Hw2 as (H1 & H2 & H3 & Httl & Hj). simpl in *.
  set (entry := (kw_now w2, (api_version, kind, name, ns), o)).
  assert (entry ∈ lookups w2.2 ++ [entry]) as Hin by set_solver.
  split.
  - split_and!; simpl; [done..| |by rw cache_ttl_insert|].
    + apply Forall_app. split; [done|]. by apply Forall_singleton.
    + apply justified_insert; [by exists api_version, kind, name, ns|].
      eapply justified_weaken; [|done]. intros k' v' t' (av & kd & n & ns' & ? & ?).
      exists av, kd, n, ns'. split; [done|]. set_solver.
  - exists (kw_now w2), api_version, kind, name, ns. split_and!; [done|done|].
    rw /kw_now /from_secs /=. lia.
Qed.

(** *** Reachable states *)

(** The operations the handler runs on the client. *)
Inductive client_op : ∀ {A}, M (St * KubeClient) A → Prop :=
| op_list_namespace av kind ns ls fs fm : client_op (list_resources_by_namespace av kind ns ls fs fm)
| op_list_all av kind ls fs fm : client_op (list_resources_all av kind ls fs fm)
| op_changed av kind ls fs fm since :
    client_op (has_list_resources_all_result_changed_since_instant av kind ls fs fm since)
| op_get av kind name ns : client_op (get_resource av kind name ns)
| op_get_cached av kind name ns : client_op (get_resource_cached av kind name ns)
| op_plural av kind : client_op (get_resource_plural_name av kind)
| op_can_i request : client_op (can_i request)
| op_can_i_cached request : client_op (can_i_cached request).

(** Operations run one after the other; in between the world moves on and the tasks
    of the reflectors make steps. *)
Inductive kube_reachable : St * KubeClient → Prop :=
| kr_new st : kube_reachable (st, KubeClient_new)
| kr_world st st' c : kube_reachable (st, c) → kube_reachable (st', c)
| kr_reflector st c id rf rf' :
    kube_reachable (st, c) → reflectors c !! id = Some rf → reflector_step rf rf' →
    kube_reachable (st, with_reflectors (<[id := rf']> (reflectors c)) c)
| kr_op {A} (c : M (St * KubeClient) A) w a w' :
    client_op c → kube_reachable w → c w = Some (a, w') → kube_reachable w'.

Lemma can_i_ensures `{KS : !KubeStoreLaws} request :
  ensures kube_inv (can_i request) (on_ok (λ _, True)).
Proof.
  eapply (ensures_mr_bind _ _ _ (λ _, True)); [apply kube_call_ensures; by intros h; destruct (sar_create _ _) as [[]]|].
  intros st _. apply ensures_ret. by destruct st.
Qed.

Lemma can_i_cached_inv `{KS : !KubeStoreLaws} request w r w' :
  kube_inv w → can_i_cached request w = Some (r, w') → kube_inv w'.
Proof.
  intros Hw H%try_cached_Some. destruct (cache_get _ _ _); [by destruct H as [_ ->]|].
  destruct H as (r1 & w1 & Hr & H). destruct (can_i_ensures request w r1 w1 Hw Hr) as [Hw1 _].
  by destruct r1, H as [_ ->].
Qed.

(** Every operation on objects first resolves the kind. *)
Lemma after_build `{KS : !KubeStoreLaws, KN : !KubeNames} {A} api_version kind
    (k : KubeResource → M (St * KubeClient) (result A string)) Q w a w' :
  mr_bind (build_kube_resource api_version kind) k w = Some (a, w') → kube_inv w →
  (∀ r, known_resource api_version kind r → ensures kube_inv (k r) (on_ok Q)) →
  kube_inv w' ∧ on_ok Q a.
Proof.
  intros H Hw Hk. eapply ensures_mr_bind; [apply build_kube_resource_ensures|exact Hk|done|done].
Qed.

Lemma list_after_build `{KS : !KubeStoreLaws, KN : !KubeNames} api_version kind ns ls fs fm (guard : KubeResource → bool) e w a w' :
  mr_bind (build_kube_resource api_version kind) (λ r, if guard r then m_ret (Err e) else
    list_resources_from_reflector r ns ls fs fm) w = Some (a, w') →
  kube_inv w → kube_inv w' ∧ on_ok (listed api_version kind ns ls fs fm w') a.
Proof.
  intros (r & w1 & Hb & H)%m_bind_Some Hw.
  destruct (build_kube_resource_ensures api_version kind w r w1 Hw Hb) as [Hw1 Hr].
  destruct r as [r|e']; [|by injection H as <- <-].
  destruct (guard r); [by injection H as <- <-|]. by eapply list_from_reflector_spec.
Qed.

Lemma client_op_inv `{KS : !KubeStoreLaws, KN : !KubeNames, ML : !MokaLaws MK} {A}
    (c : M (St * KubeClient) A) w a w' :
  client_op c → kube_inv w → c w = Some (a, w') → kube_inv w'.
Proof.
  intros Hop Hw. destruct Hop; intros Hc.
  - eapply list_after_build; [exact Hc|done].
  - eapply (list_after_build _ _ _ _ _ _ (λ _, false) ""); [exact Hc|done].
  - apply (after_build _ _ _ (λ _, True) _ _ _ Hc Hw). by intros r Hr w1 a1 w1' Hw1 [= <- <-].
  - by eapply get_resource_answered.
  - by eapply get_resource_cached_inv.
  - apply (after_build _ _ _ (λ _, True) _ _ _ Hc Hw). intros r Hr. by apply ensures_ret.
  - by eapply can_i_ensures.
  - by eapply can_i_cached_inv.
Qed.

Lemma kube_reachable_inv `{KS : !KubeStoreLaws, KN : !KubeNames, ML : !MokaLaws MK} w :
  kube_reachable w → kube_inv w.
Proof.
  induction 1 as [st|st st' c _ IH|st c id rf rf' _ IH Hrf Hstep|A c w a w' Hop _ IH Hc].
  - apply kube_inv_new.
  - done.
  - destruct IH as (H1 & H2 & ? & ? & ?). split_and!; [done| |done..].
    simpl. intros id' rf2 [[<- <-]|[_ ?]]%lookup_insert_Some; [|by apply H2].
    destruct (H2 _ _ Hrf) as ((r & Hr & Hid) & Hpa & Hpk & Hm & (h & evs & h' & now & Hwatch & Hsteps)).
    destruct (step_masked _ _ Hstep Hm) as [Hm' (E1 & E2 & E3 & E4 & E5)].
    rw /known_reflector E1 E2 E3 E4 E5. split_and!; [by exists r|done..|].
    exists h, evs, h', now. split; [done|]. by eapply rtc_r.
  - by eapply client_op_inv.
Qed.

(** *** The theorems *)

(** C15. Whatever policies asked for before, a listing holds what is in the store of the
    reflector that the client keeps for exactly the requested kind, namespace, selectors and
    masks: one whose watch on the API server was started with them, whose store has
    received the events of that watch, and each object of which went through [modify_object] with
    the requested masks. *)
Theorem listing_matches_request `{KS : !KubeStoreLaws, KN : !KubeNames, ML : !MokaLaws MK} w l w'
    api_version kind namespace ls fs fm :
  kube_reachable w →
  (list_resources_by_namespace api_version kind namespace ls fs fm w = Some (Ok l, w') →
   listed api_version kind (Some namespace) ls fs fm w' l) ∧
  (list_resources_all api_version kind ls fs fm w = Some (Ok l, w') →
   listed api_version kind None ls fs fm w' l).
Proof.
  intros Hw%kube_reachable_inv. split; intros H.
  - eapply list_after_build in H; [apply H|done].
  - eapply (list_after_build _ _ _ _ _ _ (λ _, false) "") in H; [apply H|done].
Qed.

(** A cached lookup returns an object the API server gave for that very resource, name
    and namespace, less than five seconds ago; nothing is asked of the name and the
    namespace, which policies choose. *)
Theorem cached_lookup_is_recent `{KS : !KubeStoreLaws, KN : !KubeNames, ML : !MokaLaws MK}
    api_version kind name namespace w ret w' :
  kube_reachable w → plain_name api_version → plain_name kind →
  get_resource_cached api_version kind name namespace w = Some (Ok ret, w') →
  ∃ t, (kw_now w' < t + from_secs 5)%Z ∧
    answered (t, (api_version, kind, name, namespace), value ret).
Proof.
  intros Hw%kube_reachable_inv Hpa Hpk H.
  destruct (get_resource_cached_inv _ _ _ _ _ _ _ Hw H) as [(_ & _ & Hl & _) Hret].
  destruct Hret as (t & av & k & n & o & Hkey & Hin & Ht).
  rewrite -> Forall_forall in Hl. pose proof (Hl _ Hin) as Ha. simpl in Ha.
  assert ((av, k, n, o) = (api_version, kind, name, namespace)) as Heq.
  { destruct Ha as (? & ? & _). by apply get_resource_key_inj. }
  injection Heq as -> -> -> ->. by exists t.
Qed.

(** A step of the task after the instant [since]. *)
Definition step_after (since : Instant) rf rf' : Prop :=
  (∃ now ev, rf_pending rf = None ∧ (since < now)%Z ∧ rf' = publish now ev rf) ∨
  rf' = apply_pending rf.

Lemma apply_pending_idemp rf : apply_pending (apply_pending rf) = apply_pending rf.
Proof. rw /apply_pending. destruct (rf_pending rf) eqn:He; simpl; [done|by rw He]. Qed.

Lemma steps_after since rf rf' :
  rtc (step_after since) rf rf' →
  (since < rf_last_change_seen_at rf')%Z ∨ rf' = rf ∨ rf' = apply_pending rf.
Proof.
  induction 1 as [rf|rf rf1 rf' Hstep _ IH]; [by right; left|].
  assert (∀ rf2, (since < rf_last_change_seen_at rf2)%Z → (since < rf_last_change_seen_at (apply_pending rf2))%Z) as Hap.
  { intros rf2. rw /apply_pending. by destruct (rf_pending rf2). }
  destruct Hstep as [(now & ev & Hp & Hnow & ->) | ->].
  - destruct IH as [?|[-> | ->]]; [by left|by left|]. left. by apply Hap.
  - rewrite apply_pending_idemp in IH. naive_solver.
Qed.

(** The policies cache listings and ask whether one has changed since. If the answer is
    no, the store is what it was when it was read, or that with the single event whose
    instant was published before the read but which was applied after it. *)
Theorem unchanged_means_same_list r ls fs fm since w rf rf' :
  reflectors w.2 !! compute_id r None ls fs fm = Some rf' →
  rtc (step_after since) rf rf' →
  have_reflector_resources_changed_since r None ls fs fm since w = Some (false, w) →
  rf_store rf' = rf_store rf ∨
  ∃ ev, rf_pending rf = Some ev ∧ rf_store rf' = apply_watcher_event ev (rf_store rf).
Proof.
  intros Hrf Hsteps H. rewrite /have_reflector_resources_changed_since Hrf in H. injection H as H.
  apply bool_decide_eq_false_1 in H. apply steps_after in Hsteps as [?|[-> | ->]]; [done|by left|].
  rw /apply_pending. destruct (rf_pending rf) as [ev|]; [|by left]. right. by exists ev.
Qed.

(** The second case happens: an event is published, a policy records the instant and
    reads the list, the event is applied. From then on the list in the policy's cache
    is not the one of the store, and is reported as unchanged. *)
Lemma stale_listing_not_reported r ls fs fm now ev since w rf :
  reflectors w.2 !! compute_id r None ls fs fm = Some (apply_pending (publish now ev rf)) →
  (now ≤ since)%Z →
  rf_store (publish now ev rf) = rf_store rf ∧
  rf_store (apply_pending (publish now ev rf)) =
    apply_watcher_event (modify (modify_object (masker_of (rf_field_masks rf))) ev) (rf_store rf) ∧
  have_reflector_resources_changed_since r None ls fs fm since w = Some (false, w).
Proof.
  intros Hrf Hle. split_and!; [done..|]. rw /have_reflector_resources_changed_since Hrf /=.
  rw bool_decide_eq_false_2 //. lia.
Qed.
End properties.

(** ** Witnesses *)

(** A cluster with pods, whose objects are their data. *)
#[export] Instance value_objects : KubeLib := {|
  DynamicObject := Value;
  metadata_name _ := Some "pod"; metadata_namespace _ := Some "default";
  object_to_value v := v; decode_object_list _ := Ok [];
|}.

#[export] Instance value_object : KubeObject (H := value_objects) := {|
  object_data v := v; set_object_data v _ := v;
  clear_managed_fields o := o; remove_annotation _ o := o;
|}.

Definition one_pod : Value := JObject [("kind", JString "Pod"); ("secret", JString "x")].

#[export, refine] Instance pod_cluster :
  @KubeApi plain_oci clock_host value_objects keyless_types := {|
  list_core_api_resources _ h :=
    (Ok [{| apir_kind := "Pod"; apir_name := "pods"; apir_namespaced := true |}], h);
  list_api_group_resources _ h := (Err "not found", h);
  api_get_opt _ _ _ h := (Ok (Some one_pod), h);
  SubjectAccessReviewStatus := bool;
  sar_create _ h := (Ok (Some true), h);
  sar_eq_dec := _ : EqDecision string;
  Store := list Value; store_new _ := []; store_state s := s;
  apply_watcher_event ev s :=
    match ev with EvApply o | EvInitApply o => o :: s | _ => s end;
  watch_until_ready _ _ _ _ h := Some ([EvInit; EvInitApply one_pod; EvInitDone], h);
|}.
Proof. Defined.

#[export, refine] Instance pod_store_laws : @KubeStoreLaws _ _ _ _ pod_cluster := {|
  store_held s := s;
|}.
Proof.
  - by intros s o.
  - intros r o. simpl. set_solver.
  - intros ev s o. destruct ev; simpl; set_solver.
Defined.

#[export] Instance pod_names : @KubeNames _ _ _ _ pod_cluster.
Proof.
  split; simpl; [|done..]. intros v h l h' r [= <- _] ->%list_elem_of_singleton. done.
Qed.

Definition masks_example : option (gset string) := Some {["kind"]}.

(** The computation returns, without an error. *)
Definition succeeds {W A E} (r : option (result A E * W)) : bool :=
  match r with Some (Ok _, _) => true | _ => false end.

Lemma succeeds_Some {W A E} (r : option (result A E * W)) :
  succeeds r = true → ∃ a w, r = Some (Ok a, w).
Proof. destruct r as [[[a|e] w]|]; simpl; [by eauto|done..]. Qed.

Lemma listing_matches_request_witness :
  ∃ l w', list_resources_by_namespace "v1" "Pod" "default" None None masks_example
      (at_instant 0, KubeClient_new) = Some (Ok l, w') ∧
    listed "v1" "Pod" (Some "default") None None masks_example w' l.
Proof.
  destruct (succeeds_Some (list_resources_by_namespace "v1" "Pod" "default" None None
    masks_example (at_instant 0, KubeClient_new))) as (l & w' & H); [vm_compute; reflexivity|].
  exists l, w'. split; [exact H|].
  exact (proj1 (listing_matches_request _ l w' "v1" "Pod" "default" None None masks_example
    (kr_new (at_instant 0))) H).
Defined.

Lemma cached_lookup_is_recent_witness :
  ∃ ret w', get_resource_cached "v1" "Pod" "pod" (Some "default") (at_instant 0, KubeClient_new) =
      Some (Ok ret, w') ∧ ∃ t, answered (t, ("v1", "Pod", "pod", Some "default"), value ret).
Proof.
  destruct (succeeds_Some (get_resource_cached "v1" "Pod" "pod" (Some "default")
    (at_instant 0, KubeClient_new))) as (ret & w' & H); [vm_compute; reflexivity|].
  exists ret, w'. split; [exact H|].
  destruct (cached_lookup_is_recent "v1" "Pod" "pod" (Some "default") _ ret w'
    (kr_new (at_instant 0)) ltac:(done) ltac:(done) H) as (t & _ & Ha).
  exists t. exact Ha.
Defined.

Definition pods : KubeResource :=
  {| resource := {| ar_group := ""; ar_version := "v1"; ar_api_version := "v1"; ar_kind := "Pod";
                    ar_plural := "pods" |}; namespaced := true |}.

Definition quiet_reflector : Reflector :=
  {| rf_resource := resource pods; rf_namespace := None; rf_label_selector := None;
     rf_field_selector := None; rf_field_masks := None; rf_store := [one_pod];
     rf_last_change_seen_at := 1%Z; rf_pending := None |}.

Lemma unchanged_means_same_list_witness :
  rf_store quiet_reflector = [one_pod] ∨
  ∃ ev, rf_pending quiet_reflector = Some ev ∧
    rf_store quiet_reflector = apply_watcher_event ev (rf_store quiet_reflector).
Proof.
  apply (unchanged_means_same_list pods None None None 2%Z
    (at_instant 3, with_reflectors {[compute_id pods None None None None := quiet_reflector]}
       KubeClient_new) quiet_reflector quiet_reflector).
  - apply lookup_singleton_eq.
  - apply rtc_refl.
  - rewrite /have_reflector_resources_changed_since /with_reflectors. cbn [snd reflectors].
    rewrite lookup_singleton_eq. reflexivity.
Defined.
