(* ===== verification/CertificateTrust.v ===== *)
(** * Trust in certificates

    Models [crates/policy-evaluator/src/callback_handler/crypto.rs]: a policy asks
    whether a certificate is trusted by a chain, or by the well-known roots, at a given
    time. [webpki], the PEM decoder and the RFC 3339 parser are the parameter [Webpki];
    the fields of the SDK's request are [CertificateSdk]. *)

From S2P Require Import Prelude Bytes RustStr Callback TtlCache.

Inductive CertificateEncoding := Pem | Der.

Record Certificate := { cert_encoding : CertificateEncoding; cert_data : string }.

Class CertificateSdk `{SdkTypes} := {
  cvr_cert : CertificateVerificationRequest → Certificate;
  cvr_cert_chain : CertificateVerificationRequest → option (list Certificate);
  cvr_not_after : CertificateVerificationRequest → option string;
}.

(** The errors of [webpki] the code tells apart *)
Inductive WebpkiError :=
| InvalidSignatureForPublicKey
| CertExpired
| CertNotValidYet
| UnknownIssuer
| OtherWebpkiError (display : string).

Class Webpki := {
  from_pem_slice : string → result string string;
  EndEntityCert : Type;
  end_entity_try_from : string → result EndEntityCert string;
  TrustAnchor : Type;
  anchor_from_trusted_cert : string → result TrustAnchor string;
  TLS_SERVER_ROOTS : list TrustAnchor;
  (** roots, intermediates and the time in seconds since 1970 *)
  verify_for_usage : EndEntityCert → list TrustAnchor → list string → Z → result unit WebpkiError;
  (** [DateTime::parse_from_rfc3339(..).to_utc().timestamp()] *)
  rfc3339_timestamp : string → option Z;
  webpki_error_to_string : WebpkiError → string;
}.

Module Crypto.
Section crypto.
Context `{ST : SdkTypes, CS : !CertificateSdk, WP : Webpki}.

Definition CERTIFICATE_USED_AFTER_EXPIRATION : string :=
  "Certificate is being used after its expiration date".
Definition CERTIFICATE_USED_BEFORE_VALIDITY : string :=
  "Certificate is being used before its validity date".
Definition CERTIFICATE_NOT_TRUSTED_BY_CHAIN : string :=
  "Certificate is not trusted by the provided cert chain".

(** [CertificateVerificationResponse] *)
Record CertificateVerificationResponse := { trusted : bool; reason : string }.

Definition get_certificate_der (cert : Certificate) : result string string :=
  match cert_encoding cert with
  | Pem => map_err (λ e, "Certificate PEM data is not valid: " +:+ e) (from_pem_slice (cert_data cert))
  | Der => Ok (cert_data cert)
  end.

Record CertificatePool := { trusted_roots : list TrustAnchor; intermediates : list string }.

(** The last certificate is the root; the others are popped off the end. *)
Definition from_certificates (certs : list Certificate) : result CertificatePool string :=
  let? certs_der := try_fold (λ acc c, let? d := get_certificate_der c in Ok (acc ++ [d])) [] certs in
  match reverse certs_der with
  | [] => Ok {| trusted_roots := []; intermediates := [] |}
  | root_cert :: rest =>
      let? anchor := anchor_from_trusted_cert root_cert in
      Ok {| trusted_roots := [anchor]; intermediates := rest |}
  end.

Definition from_webpki_roots : result CertificatePool string :=
  Ok {| trusted_roots := TLS_SERVER_ROOTS; intermediates := [] |}.

Definition untrusted (reason : string) : Return CertificateVerificationResponse :=
  not_cached {| trusted := false; reason := reason |}.

Definition verify_cert_chain (cert_chain : option (list Certificate))
    (end_entity_certificate : EndEntityCert) (verification_time : Z) :
    result (Return CertificateVerificationResponse) string :=
  let? cert_pool := match cert_chain with
    | None => from_webpki_roots
    | Some chain => from_certificates chain
    end in
  match verify_for_usage end_entity_certificate (trusted_roots cert_pool)
          (intermediates cert_pool) verification_time with
  | Ok _ => Ok (not_cached {| trusted := true; reason := "" |})
  | Err InvalidSignatureForPublicKey | Err UnknownIssuer =>
      Ok (untrusted CERTIFICATE_NOT_TRUSTED_BY_CHAIN)
  | Err CertExpired => Ok (untrusted CERTIFICATE_USED_AFTER_EXPIRATION)
  | Err CertNotValidYet => Ok (untrusted CERTIFICATE_USED_BEFORE_VALIDITY)
  | Err e => Ok (untrusted ("Certificate not trusted: " +:+ webpki_error_to_string e))
  end.

(** [as u64] *)
Definition as_u64 (z : Z) : Z := (z mod 2 ^ 64)%Z.

(** [now] is the time of the host, in seconds since 1970. *)
Definition verify_certificate (now : Z) (req : CertificateVerificationRequest) :
    result (Return CertificateVerificationResponse) string :=
  let? cert_der := get_certificate_der (cvr_cert req) in
  let? end_entity_certificate :=
    map_err (λ e, "Certificate is not a valid end-entity certificate: " +:+ e)
      (end_entity_try_from cert_der) in
  let? verification_time := match cvr_not_after req with
    | Some not_after_str =>
        let? ts := ok_or (rfc3339_timestamp not_after_str)
          "Timestamp not_after is not in RFC3339 format" in
        Ok (as_u64 ts)
    | None => Ok (as_u64 now)
    end in
  verify_cert_chain (cvr_cert_chain req) end_entity_certificate verification_time.

(** ** Properties *)

Lemma ders_spec certs acc ders :
  try_fold (λ acc c, let? d := get_certificate_der c in Ok (acc ++ [d])) acc certs = Ok ders ↔
  ∃ l, ders = acc ++ l ∧ Forall2 (λ c d, get_certificate_der c = Ok d) certs l.
Proof.
  revert acc. induction certs as [|c certs IH]; intros acc; simpl.
  - split; [intros [= <-]; exists []; by rw app_nil_r|].
    intros (l & -> & ->%Forall2_nil_inv_l). by rw app_nil_r.
  - destruct (get_certificate_der c) as [d|e] eqn:Hd; simpl.
    + rw IH. split.
      * intros (l & -> & Hl). exists (d :: l). rewrite -app_assoc. by split; [|constructor].
      * intros (l & -> & (d' & l' & Hd' & Hl & ->)%Forall2_cons_inv_l). exists l'.
        rewrite -app_assoc. split; [|done]. by assert (d' = d) as -> by congruence.
    + split; [done|]. intros (l & _ & (d' & l' & Hd' & _)%Forall2_cons_inv_l). congruence.
Qed.

(** The pool a request asks for: without a chain the well-known roots, otherwise the
    last certificate as the only root and the others, in reverse, as intermediates. *)
Definition pool_of (cert_chain : option (list Certificate)) (roots : list TrustAnchor)
    (inter : list string) : Prop :=
  match cert_chain with
  | None => roots = TLS_SERVER_ROOTS ∧ inter = []
  | Some [] => roots = [] ∧ inter = []
  | Some chain => ∃ ders root anchor, Forall2 (λ c d, get_certificate_der c = Ok d) chain (ders ++ [root]) ∧
      anchor_from_trusted_cert root = Ok anchor ∧ roots = [anchor] ∧ inter = reverse ders
  end.

Lemma from_certificates_Ok certs pool :
  from_certificates certs = Ok pool → pool_of (Some certs) (trusted_roots pool) (intermediates pool).
Proof.
  intros (ders & (l & -> & Hl)%ders_spec & H)%res_bind_Ok. simpl in H.
  destruct l as [|root ders _] using rev_ind.
  { apply Forall2_nil_inv_r in Hl as ->. by injection H as <-. }
  rewrite reverse_snoc in H. apply res_bind_Ok in H as (anchor & Ha & [= <-]). simpl.
  destruct certs as [|c certs].
  { apply Forall2_nil_inv_l in Hl. by destruct ders. }
  by exists ders, root, anchor.
Qed.

(** The time a certificate is verified at. *)
Definition verified_at (now : Z) (req : CertificateVerificationRequest) (t : Z) : Prop :=
  match cvr_not_after req with
  | Some s => ∃ ts, rfc3339_timestamp s = Some ts ∧ t = as_u64 ts
  | None => t = as_u64 now
  end.

(** An answer reports the verification, at the requested time and with the pool of the
    request, of the very certificate that was sent: it is trusted exactly when that
    succeeds, and otherwise it says why. A certificate that cannot be verified is an
    answer, never an error. *)
Theorem certificate_answer_exact now req ret :
  verify_certificate now req = Ok ret →
  ∃ der cert roots inter t,
    get_certificate_der (cvr_cert req) = Ok der ∧ end_entity_try_from der = Ok cert ∧
    pool_of (cvr_cert_chain req) roots inter ∧ verified_at now req t ∧ was_cached ret = false ∧
    (trusted (value ret) = true ↔ verify_for_usage cert roots inter t = Ok tt) ∧
    (reason (value ret) = "" ↔ trusted (value ret) = true).
Proof.
  intros H. apply res_bind_Ok in H as (der & Hder & H).
  apply res_bind_Ok in H as (cert & Hcert%map_err_Ok & H).
  apply res_bind_Ok in H as (t & Ht & H). apply res_bind_Ok in H as (pool & Hpool & H).
  exists der, cert, (trusted_roots pool), (intermediates pool), t. split_and!; [done|done|..].
  - destruct (cvr_cert_chain req) as [chain|]; [by apply from_certificates_Ok|].
    by injection Hpool as <-.
  - rw /verified_at. destruct (cvr_not_after req) as [s|]; [|by injection Ht].
    apply res_bind_Ok in Ht as (ts & Hts%ok_or_Ok & [= <-]). by exists ts.
  - by destruct (verify_for_usage _ _ _ _) as [[]|[]]; injection H as <-.
  - by destruct (verify_for_usage _ _ _ _) as [[]|[]]; injection H as <-.
  - by destruct (verify_for_usage _ _ _ _) as [[]|[]]; injection H as <-.
Qed.

(** A date before 1970 is cast to an unsigned number: the certificate is verified at a
    time that is never before [2 ^ 63], long after it expired. *)
Theorem early_dates_wrap now req s ts t :
  cvr_not_after req = Some s → rfc3339_timestamp s = Some ts →
  (- 2 ^ 63 ≤ ts < 0)%Z → verified_at now req t → (2 ^ 63 ≤ t < 2 ^ 64)%Z.
Proof.
  rw /verified_at. intros -> Hts Hneg (ts' & Hts' & ->). simplify_eq. rw /as_u64.
  rewrite -(Z.mod_unique_pos ts (2 ^ 64) (-1) (ts + 2 ^ 64)); lia.
Qed.
End crypto.

(** ** Witnesses *)

Record CertificateRequest := {
  req_cert : Certificate; req_chain : option (list Certificate); req_not_after : option string;
}.

#[local] Instance certificate_types : SdkTypes := {|
  KeylessInfo := unit; KeylessPrefixInfo := unit; SubjectAccessReview := unit;
  CertificateVerificationRequest := CertificateRequest |}.

#[local] Instance certificate_sdk : CertificateSdk := {|
  cvr_cert := req_cert; cvr_cert_chain := req_chain; cvr_not_after := req_not_after |}.

(** Certificates that name their issuer and are valid until an instant. *)
#[local] Instance simple_webpki : Webpki := {|
  from_pem_slice s := Ok s;
  EndEntityCert := string;
  end_entity_try_from s := Ok s;
  TrustAnchor := string;
  anchor_from_trusted_cert s := Ok s;
  TLS_SERVER_ROOTS := [];
  verify_for_usage cert roots inter t :=
    if decide (1000 < t)%Z then Err CertExpired
    else if decide (cert ∈ roots) then Ok tt else Err UnknownIssuer;
  rfc3339_timestamp s := if decide (s = "1969-12-31T23:59:59Z") then Some (-1)%Z else Some 500%Z;
  webpki_error_to_string _ := "error";
|}.

Definition pem (s : string) : Certificate := {| cert_encoding := Pem; cert_data := s |}.

Definition certificate_request (not_after : string) : @CertificateVerificationRequest certificate_types :=
  {| req_cert := pem "ca"; req_chain := Some [pem "intermediate"; pem "ca"];
     req_not_after := Some not_after |}.

Lemma certificate_answer_exact_witness :
  ∃ ret, verify_certificate 7 (certificate_request "1970-01-01T00:08:20Z") = Ok ret ∧
    (reason (value ret) = "" ↔ trusted (value ret) = true).
Proof.
  assert (verify_certificate 7 (certificate_request "1970-01-01T00:08:20Z") =
    Ok (not_cached {| trusted := true; reason := "" |})) as Hv by (vm_compute; reflexivity).
  eexists. split; [exact Hv|].
  destruct (certificate_answer_exact _ _ _ Hv)
    as (der & cert & roots & inter & t & _ & _ & _ & _ & _ & _ & H). exact H.
Defined.

(** A certificate that was valid before 1970 is reported as expired then. *)
Lemma early_dates_wrap_witness :
  (2 ^ 63 ≤ 2 ^ 64 - 1 < 2 ^ 64)%Z ∧
  verify_certificate 7 (certificate_request "1969-12-31T23:59:59Z") =
    Ok (untrusted CERTIFICATE_USED_AFTER_EXPIRATION).
Proof.
  split; [|vm_compute; reflexivity].
  apply (early_dates_wrap 7 (certificate_request "1969-12-31T23:59:59Z") "1969-12-31T23:59:59Z" (-1)).
  - reflexivity.
  - reflexivity.
  - lia.
  - exists (-1)%Z. split; reflexivity.
Defined.
End Crypto.
