(* ===== verification/CallbackHandler.v ===== *)
(** * The callback handler

    Models [crates/policy-evaluator/src/callback_handler.rs] with [builder.rs],
    [oci.rs] and [kubernetes.rs] of [callback_handler/]: the task that serves the
    requests policies put on the callback channel. It composes the clients of
    [SigstoreClient], [KubeClient] and [CertificateTrust] with the registry client.

    The handler spawns a task per request; a task runs without interruption here. A
    task that panics, or waits for ever for a reflector, sends no reply. JSON encoders
    and the resolver are the parameter [HandlerLib]. *)

From S2P Require Import Prelude Bytes RustStr Json HostCapabilities Callback FieldMask.
From S2P Require Import VerificationConstraints Sources Registry Fetcher Verify RegoInventory.
From S2P Require Import SigstoreClient KubeClient CertificateTrust TtlCache.

Definition NO_CLIENT : string := "kube::Client was not initialized properly".

(** The answer of [manifest_and_config]. *)
Record ManifestAndConfigResponse := {
  mc_manifest : list OciDescriptor; mc_digest : string; mc_config : Value;
}.

Class HandlerLib `{OL : OciLib, HI : !HostIO, KL : KubeLib, ST : SdkTypes, KA : !KubeApi} := {
  (** [dns_lookup::lookup_host] *)
  lookup_host : string → Host → result (list string) string * Host;
  (** [chrono::Utc::now().timestamp()] *)
  utc_timestamp : Host → Z;
  (** [serde_json::to_vec] of the answers; errors as [Debug] prints them *)
  encode_digest : string → result string string;
  encode_manifest : OciManifest → result string string;
  encode_manifest_and_config : ManifestAndConfigResponse → result string string;
  encode_verification : VerificationResponse → result string string;
  encode_ips : list string → string;
  encode_list : ObjectList → result string string;
  encode_object : DynamicObject → result string string;
  encode_text : string → result string string;
  encode_bool : bool → result string string;
  encode_status : SubjectAccessReviewStatus → result string string;
  encode_certificate : Crypto.CertificateVerificationResponse → result string string;
}.

Section handler.
Context `{UL : UrlLib, SG : Sigstore, SE : SourceEnv, OL : OciLib, HI : !HostIO, OP : !OciPush}.
Context `{CC : !CosignClient, YL : !YamlLib, SH : Sha256, CK : !Clock, MK : Moka}.
Context `{ST : SdkTypes, SS : !SigstoreSdk, CV : !CosignCertificate, CS : !CertificateSdk, WP : Webpki}.
Context `{KL : KubeLib, KO : !KubeObject, KA : !KubeApi, HL : !HandlerLib}.

(** ** [oci.rs] *)

Record OciClient := {
  oci_sources : option Sources;
  digest_cache : Cache string string;
  manifest_cache : Cache string OciManifest;
  manifest_and_config_cache : Cache string ManifestAndConfigResponse;
}.

Definition OciClient_new (sources : option Sources) : OciClient :=
  {| oci_sources := sources; digest_cache := cache_new (from_secs 60);
     manifest_cache := cache_new (from_secs 60);
     manifest_and_config_cache := cache_new (from_secs 60) |}.

Notation OW := (St * OciClient)%type.
Definition ow_now (w : OW) : Instant := host_now (host w.1).

(** A query of the registry for an image, with its name expanded. *)
Definition oci_query {A} (image : string)
    (query : string → option Sources → M St (result A RegistryError)) : M OW (result A string) := λ w,
  match reference_try_from image with
  | Err e => Some (Err e, w)
  | Ok image_ref =>
      let image_with_proto := "registry://" +:+ reference_whole image_ref in
      match query image_with_proto (oci_sources w.2) w.1 with
      | None => None
      | Some (r, st) => Some (map_err RegistryError_to_string r, (st, w.2))
      end
  end.

Definition oci_digest (image : string) : M OW (result string string) :=
  oci_query image manifest_digest.

Definition oci_manifest (image : string) : M OW (result OciManifest string) :=
  oci_query image manifest.

Definition oci_manifest_and_config (image : string) : M OW (result ManifestAndConfigResponse string) :=
  let!? r := oci_query image manifest_and_config in
  m_ret (Ok {| mc_manifest := r.1.1; mc_digest := r.1.2; mc_config := r.2 |}).

Definition set_digest_cache (c : Cache string string) (w : OW) : OW :=
  (w.1, {| oci_sources := oci_sources w.2; digest_cache := c; manifest_cache := manifest_cache w.2;
           manifest_and_config_cache := manifest_and_config_cache w.2 |}).

Definition set_manifest_cache (c : Cache string OciManifest) (w : OW) : OW :=
  (w.1, {| oci_sources := oci_sources w.2; digest_cache := digest_cache w.2; manifest_cache := c;
           manifest_and_config_cache := manifest_and_config_cache w.2 |}).

Definition set_manifest_and_config_cache (c : Cache string ManifestAndConfigResponse) (w : OW) : OW :=
  (w.1, {| oci_sources := oci_sources w.2; digest_cache := digest_cache w.2;
           manifest_cache := manifest_cache w.2; manifest_and_config_cache := c |}).

Definition get_oci_digest_cached (img : string) : M OW (result (Return string) string) :=
  try_cached ow_now (λ w, digest_cache w.2) set_digest_cache img (oci_digest img).

Definition get_oci_manifest_cached (img : string) : M OW (result (Return OciManifest) string) :=
  try_cached ow_now (λ w, manifest_cache w.2) set_manifest_cache img (oci_manifest img).

Definition get_oci_manifest_and_config_cached (img : string) :
    M OW (result (Return ManifestAndConfigResponse) string) :=
  try_cached ow_now (λ w, manifest_and_config_cache w.2) set_manifest_and_config_cache img
    (oci_manifest_and_config img).

(** ** The handler and its builder *)

Record CallbackHandler := {
  ch_st : St;
  oci_client : OciClient;
  sigstore_client : SigstoreClient;
  kubernetes_client : option KubeClient;
  (** the capacity of the channel *)
  channel_size : nat;
}.

Definition DEFAULT_CHANNEL_BUFF_SIZE : nat := 100.

Record CallbackHandlerBuilder := {
  b_oci_sources : option Sources;
  b_channel_buffer_size : nat;
  b_kube_client : bool;
}.

Definition CallbackHandlerBuilder_new : CallbackHandlerBuilder :=
  {| b_oci_sources := None; b_channel_buffer_size := DEFAULT_CHANNEL_BUFF_SIZE;
     b_kube_client := false |}.

Definition registry_config (sources : option Sources) (b : CallbackHandlerBuilder) :=
  {| b_oci_sources := sources; b_channel_buffer_size := b_channel_buffer_size b;
     b_kube_client := b_kube_client b |}.

Definition channel_buffer_size (size : nat) (b : CallbackHandlerBuilder) :=
  {| b_oci_sources := b_oci_sources b; b_channel_buffer_size := size;
     b_kube_client := b_kube_client b |}.

Definition kube_client (b : CallbackHandlerBuilder) :=
  {| b_oci_sources := b_oci_sources b; b_channel_buffer_size := b_channel_buffer_size b;
     b_kube_client := true |}.

(** [mpsc::channel] panics on a capacity of zero; [cosign] is the outcome of building
    the cosign client. *)
Definition build (cosign : result unit string) (b : CallbackHandlerBuilder) (st : St) :
    option (result CallbackHandler string) :=
  if decide (b_channel_buffer_size b = 0) then None else
  Some (let? _ := cosign in
        Ok {| ch_st := st; oci_client := OciClient_new (b_oci_sources b);
              sigstore_client := SigstoreClient_new;
              kubernetes_client := if b_kube_client b then Some KubeClient_new else None;
              channel_size := b_channel_buffer_size b |}).

(** ** Clients, as parts of the handler *)

Notation H := CallbackHandler.

Definition in_oci {A} (c : M OW A) : M H A := λ h,
  match c (ch_st h, oci_client h) with
  | None => None
  | Some (a, (st, o)) => Some (a, {| ch_st := st; oci_client := o;
      sigstore_client := sigstore_client h; kubernetes_client := kubernetes_client h;
      channel_size := channel_size h |})
  end.

Definition in_sigstore {A} (c : M (St * SigstoreClient) A) : M H A := λ h,
  match c (ch_st h, sigstore_client h) with
  | None => None
  | Some (a, (st, s)) => Some (a, {| ch_st := st; oci_client := oci_client h;
      sigstore_client := s; kubernetes_client := kubernetes_client h;
      channel_size := channel_size h |})
  end.

(** ** [kubernetes.rs]: nothing is done without a client *)

Definition need_client {A} (c : M (St * KubeClient) (result A string)) : M H (result A string) := λ h,
  match kubernetes_client h with
  | None => Some (Err NO_CLIENT, h)
  | Some k =>
      match c (ch_st h, k) with
      | None => None
      | Some (a, (st, k)) => Some (a, {| ch_st := st; oci_client := oci_client h;
          sigstore_client := sigstore_client h; kubernetes_client := Some k;
          channel_size := channel_size h |})
      end
  end.

Definition uncached {W A} (c : M W (result A string)) : M W (result (Return A) string) :=
  let!? a := c in m_ret (Ok (not_cached a)).

Definition always_cached {W A} (c : M W (result A string)) : M W (result (Return A) string) :=
  let!? a := c in m_ret (Ok (cached a)).

Definition kubernetes_list_resources_by_namespace api_version kind namespace label_selector
    field_selector field_masks : M H (result (Return ObjectList) string) :=
  need_client (uncached
    (list_resources_by_namespace api_version kind namespace label_selector field_selector field_masks)).

Definition kubernetes_list_resources_all api_version kind label_selector field_selector
    field_masks : M H (result (Return ObjectList) string) :=
  need_client (uncached
    (list_resources_all api_version kind label_selector field_selector field_masks)).

Definition kubernetes_get_resource api_version kind name namespace :
    M H (result (Return DynamicObject) string) :=
  need_client (uncached (get_resource api_version kind name namespace)).

Definition kubernetes_get_resource_cached api_version kind name namespace :
    M H (result (Return DynamicObject) string) :=
  need_client (get_resource_cached api_version kind name namespace).

Definition kubernetes_get_resource_plural_name api_version kind :
    M H (result (Return string) string) :=
  need_client (always_cached (get_resource_plural_name api_version kind)).

Definition kubernetes_has_changed api_version kind label_selector field_selector field_masks
    since : M H (result (Return bool) string) :=
  need_client (uncached
    (has_list_resources_all_result_changed_since_instant api_version kind label_selector
       field_selector field_masks since)).

Definition kubernetes_can_i request : M H (result (Return SubjectAccessReviewStatus) string) :=
  need_client (uncached (can_i request)).

Definition kubernetes_can_i_cached request :
    M H (result (Return SubjectAccessReviewStatus) string) :=
  need_client (can_i_cached request).

(** ** Requests *)

(** The macro [handle_callback] *)
Definition handle_callback {A} (encode : A → result string string)
    (code : M H (result (Return A) string)) : M H (result CallbackResponse string) :=
  let!? response := code in
  m_ret (let? payload := map_err (λ e, "error serializing payload: " +:+ e)
           (encode (value response)) in
         Ok {| payload := payload |}).

(** The field masks of [KubernetesGetResource] are applied to what is returned, not to
    what is cached. *)
Definition mask_object (field_masks : option (gset string)) (r : Return DynamicObject) :
    Return DynamicObject :=
  match field_masks with
  | Some masks =>
      let obj := value r in
      {| value := set_object_data (prune_in_place (object_data obj)
           (FieldMaskNode_new (btree_set_iter masks))) obj;
         was_cached := was_cached r |}
  | None => r
  end.

Definition masked_lookup (field_masks : option (gset string))
    (c : M H (result (Return DynamicObject) string)) : M H (result (Return DynamicObject) string) :=
  let!? r := c in m_ret (Ok (mask_object field_masks r)).

Definition on_handler_host {A} (op : Host → A * Host) : M H A := λ h,
  let '(a, host') := op (host (ch_st h)) in
  Some (a, {| ch_st := {| host := host'; connections := connections (ch_st h) |};
              oci_client := oci_client h; sigstore_client := sigstore_client h;
              kubernetes_client := kubernetes_client h; channel_size := channel_size h |}).

Definition handle_request (req : CallbackRequestType) : M H (result CallbackResponse string) :=
  match req with
  | OciManifestDigest image => handle_callback encode_digest (in_oci (get_oci_digest_cached image))
  | Callback.OciManifest image =>
      handle_callback encode_manifest (in_oci (get_oci_manifest_cached image))
  | OciManifestAndConfig image =>
      handle_callback encode_manifest_and_config (in_oci (get_oci_manifest_and_config_cached image))
  | SigstorePubKeyVerify image pub_keys annotations =>
      handle_callback encode_verification
        (in_sigstore (get_sigstore_pub_key_verification_cached image pub_keys annotations))
  | SigstoreKeylessVerify image keyless annotations =>
      handle_callback encode_verification
        (in_sigstore (get_sigstore_keyless_verification_cached image keyless annotations))
  | SigstoreKeylessPrefixVerify image keyless_prefix annotations =>
      handle_callback encode_verification
        (in_sigstore (get_sigstore_keyless_prefix_verification_cached image keyless_prefix annotations))
  | SigstoreGithubActionsVerify image owner repo annotations =>
      handle_callback encode_verification
        (in_sigstore (get_sigstore_github_actions_verification_cached image owner repo annotations))
  | SigstoreCertificateVerify image certificate certificate_chain require_rekor_bundle annotations =>
      handle_callback encode_verification
        (in_sigstore (get_sigstore_certificate_verification_cached image certificate
           certificate_chain require_rekor_bundle annotations))
  | DNSLookupHost name =>
      let!? ips := on_handler_host (lookup_host name) in
      m_ret (Ok {| payload := encode_ips ips |})
  | KubernetesListResourceNamespace api_version kind namespace label_selector field_selector field_masks =>
      handle_callback encode_list
        (kubernetes_list_resources_by_namespace api_version kind namespace label_selector
           field_selector field_masks)
  | KubernetesListResourceAll api_version kind label_selector field_selector field_masks =>
      handle_callback encode_list
        (kubernetes_list_resources_all api_version kind label_selector field_selector field_masks)
  | KubernetesGetResource api_version kind name namespace disable_cache field_masks =>
      handle_callback encode_object (masked_lookup field_masks
        (if disable_cache then kubernetes_get_resource api_version kind name namespace
         else kubernetes_get_resource_cached api_version kind name namespace))
  | KubernetesGetResourcePluralName api_version kind =>
      handle_callback encode_text (kubernetes_get_resource_plural_name api_version kind)
  | HasKubernetesListResourceAllResultChangedSinceInstant api_version kind label_selector
      field_selector field_masks since =>
      handle_callback encode_bool
        (kubernetes_has_changed api_version kind label_selector field_selector field_masks since)
  | KubernetesCanI request disable_cache =>
      handle_callback encode_status
        (if disable_cache then kubernetes_can_i request else kubernetes_can_i_cached request)
  | CryptoIsCertificateTrusted request =>
      handle_callback encode_certificate (λ h,
        Some (Crypto.verify_certificate (utc_timestamp (host (ch_st h))) request, h))
  end.

(** What the policy that sent the request observes. *)
Definition serve (h : H) (req : CallbackRequestType) : ChannelOutcome * H :=
  match handle_request req h with
  | Some (r, h) => (Reply r, h)
  | None => (RecvError, h)
  end.

(** What [select!] picks in a round of [loop_eval]. *)
Inductive LoopEvent := Shutdown | Recv (req : option CallbackRequestType).

(** The outcomes of the requests that were taken off the channel, in order. *)
Fixpoint loop_eval (events : list LoopEvent) (h : H) : list ChannelOutcome * H :=
  match events with
  | [] => ([], h)
  | Shutdown :: _ => ([], h)
  | Recv None :: events => loop_eval events h
  | Recv (Some req) :: events =>
      let '(o, h) := serve h req in
      let '(os, h) := loop_eval events h in (o :: os, h)
  end.
End handler.

(** ** Properties *)

Section properties.
Context `{UL : UrlLib, SG : Sigstore, SE : SourceEnv, OL : OciLib, HI : !HostIO, OP : !OciPush}.
Context `{CC : !CosignClient, YL : !YamlLib, SH : Sha256, CK : !Clock, MK : Moka}.
Context `{ST : SdkTypes, SS : !SigstoreSdk, CV : !CosignCertificate, CS : !CertificateSdk, WP : Webpki}.
Context `{KL : KubeLib, KO : !KubeObject, KA : !KubeApi, HL : !HandlerLib}.
Implicit Types (h : CallbackHandler) (req : CallbackRequestType).

(** *** Answers *)

Lemma total_run {W A} (c : M W A) w : panic_free c → ∃ a w', c w = Some (a, w').
Proof. intros Hc. destruct (Hc w) as [[a w'] H]. eauto. Qed.

Lemma total_try_cached {W K V} (now : W → Instant) `{EqDecision K} (get : W → Cache K V) set key init :
  panic_free init → panic_free (try_cached now get set key init).
Proof.
  intros Hi w. rw /try_cached. destruct (cache_get _ _ _); [done|].
  destruct (total_run init w Hi) as ([v|e] & w' & ->); done.
Qed.

Lemma total_recorded q v : panic_free v → panic_free (recorded q v).
Proof. intros Hv w. rw /recorded. destruct (total_run v w.1 Hv) as ([a|e] & st & ->); done. Qed.

Lemma total_if {W A} (b : bool) (c d : M W A) :
  panic_free c → panic_free d → panic_free (if b then c else d).
Proof. by destruct b. Qed.

Lemma total_try_with_protocols {T} url sources (operation : ClientProtocol → M St (result T RegistryError)) :
  (∀ p, panic_free (operation p)) → panic_free (try_with_protocols url sources operation).
Proof.
  intros Ho. apply total_mr_bind; [apply total_ret|]. intros p.
  apply total_bind; [apply Ho|]. intros [t|e]; [apply total_ret|].
  apply total_mr_bind; [apply total_ret|]. intros h. apply total_if; [apply total_ret|].
  apply total_bind; [apply Ho|]. intros [t|e']; [apply total_ret|apply Ho].
Qed.

Lemma total_on_reference {T} (op : ClientConfig → Reference → RegistryAuth → Host →
    result T string * Host) url sources : panic_free (on_reference op url sources).
Proof.
  apply total_mr_bind; [apply total_ret|]. intros r. apply total_mr_bind; [apply total_ret|].
  intros u. apply total_try_with_protocols. intros p.
  apply total_bind; [apply total_connect|]. intros x. apply total_ret.
Qed.

Lemma total_oci_query {A} image (query : string → option Sources → M St (result A RegistryError)) :
  (∀ s o, panic_free (query s o)) → panic_free (oci_query image query).
Proof.
  intros Hq w. rw /oci_query. destruct (reference_try_from image); [|done].
  match goal with |- context [query ?s ?o ?st] => destruct (total_run _ st (Hq s o)) as (x & st' & ->) end.
  done.
Qed.

Lemma total_in_oci {A} (c : M (St * OciClient) A) : panic_free c → panic_free (in_oci c).
Proof. intros Hc h. rw /in_oci. by destruct (total_run c (ch_st h, oci_client h) Hc) as (a & [] & ->). Qed.

Lemma total_in_sigstore {A} (c : M (St * SigstoreClient) A) : panic_free c → panic_free (in_sigstore c).
Proof.
  intros Hc h. rw /in_sigstore. by destruct (total_run c (ch_st h, sigstore_client h) Hc) as (a & [] & ->).
Qed.

Lemma total_need_client {A} (c : M (St * KubeClient) (result A string)) :
  panic_free c → panic_free (need_client c).
Proof.
  intros Hc h. rw /need_client. destruct (kubernetes_client h) as [k|]; [|done].
  by destruct (total_run c (ch_st h, k) Hc) as (a & [] & ->).
Qed.

Lemma total_handle_callback {A} (encode : A → result string string) code :
  panic_free code → panic_free (handle_callback encode code).
Proof. intros Hc. apply total_mr_bind; [done|]. intros r. apply total_ret. Qed.

Lemma total_uncached {W A} (c : M W (result A string)) : panic_free c → panic_free (uncached c).
Proof. intros Hc. apply total_mr_bind; [done|]. intros a. apply total_ret. Qed.

Lemma total_always_cached {W A} (c : M W (result A string)) : panic_free c → panic_free (always_cached c).
Proof. intros Hc. apply total_mr_bind; [done|]. intros a. apply total_ret. Qed.

(** *** Verifications *)

Lemma total_fetch image : panic_free (fetch_sigstore_remote_data image).
Proof.
  apply total_mr_bind; [apply total_ret|]. intros r.
  apply total_mr_bind; [apply total_ret|]. intros o.
  apply total_bind; [apply total_on_host|]. intros x.
  apply total_mr_bind; [apply total_ret|]. intros [s d].
  apply total_bind; [apply total_on_host|]. intros y. apply total_ret.
Qed.

Lemma total_verify_all `{UrL : !UrlLaws, SgL : !SigstoreLaws} image sigs : panic_free (verify_all image sigs).
Proof.
  apply total_bind; [|intros r; apply total_ret].
  apply total_mr_bind; [apply total_fetch|]. intros [d layers].
  apply total_bind; [|intros r; apply total_ret]. intros st.
  destruct (verify_signatures_spec {| all_of := Some sigs; any_of := None |} layers) as (r & -> & _). done.
Qed.

(** The prefixes of the request are URLs. *)
Definition prefixes_valid req : Prop :=
  match req with
  | SigstoreKeylessPrefixVerify _ keyless_prefix _ =>
      Forall (λ k, is_ok (url_parse (kp_url_prefix k))) keyless_prefix
  | _ => True
  end.

Lemma prefixes_parse annotations l :
  Forall (λ k, is_ok (url_parse (kp_url_prefix k))) l ↔
  is_Some (mapM (keyless_prefix_signature annotations) l).
Proof.
  rw mapM_is_Some. apply Forall_iff. intros k. rw /compose /keyless_prefix_signature.
  destruct (url_parse (kp_url_prefix k)); simpl; split; [by eexists|done|done|by intros [? ?]].
Qed.

Lemma total_verification `{UrL : !UrlLaws, SgL : !SigstoreLaws} req v :
  prefixes_valid req → verification_of req = Some v → panic_free v.
Proof.
  intros Hp Hv. destruct req; simplify_eq/=.
  - rw /verify_public_key. case_decide; [apply total_ret|apply total_verify_all].
  - rw /verify_keyless. destruct keyless; [apply total_ret|apply total_verify_all].
  - rw /verify_keyless_prefix. destruct keyless_prefix as [|k l]; [apply total_ret|].
    apply (prefixes_parse annotations) in Hp as [sigs ->]. apply total_verify_all.
  - rw /verify_github_actions. case_decide; [apply total_ret|apply total_verify_all].
  - apply total_bind; [apply total_fetch|]. intros f. apply total_ret.
Qed.

Lemma total_handle_sigstore `{UrL : !UrlLaws, SgL : !SigstoreLaws} req c :
  prefixes_valid req → handle_sigstore req = Some c → panic_free c.
Proof.
  intros Hp (n & k & v & _ & Hv & ->)%handle_sigstore_form.
  by apply total_try_cached, total_recorded, (total_verification req).
Qed.

(** *** The Kubernetes client *)

Lemma total_kube_call {A} (op : Host → A * Host) : panic_free (kube_call op).
Proof. intros w. rw /kube_call. by destruct (op _). Qed.

Lemma total_build av kind : panic_free (build_kube_resource av kind).
Proof.
  intros w. rw /build_kube_resource. destruct (kube_resources w.2 !! _); [done|].
  match goal with |- is_Some (?c w) => assert (panic_free c) as Hc; [|apply Hc] end.
  apply total_mr_bind.
  { rw /resources_of. case_decide; [apply total_kube_call|].
    apply total_bind; [apply total_kube_call|]. intros r. apply total_ret. }
  intros l. apply total_mr_bind; [apply total_ret|]. intros r.
  apply total_mr_bind; [apply total_ret|]. intros gv. by intros w'.
Qed.

(** Every watcher gets its first listing. *)
Definition watchers_ready : Prop :=
  ∀ r ns ls fs host, is_Some (watch_until_ready r ns ls fs host).

Lemma total_list_from_reflector r ns ls fs fm :
  watchers_ready → panic_free (list_resources_from_reflector r ns ls fs fm).
Proof.
  intros Hready. apply total_mr_bind; [|intros s; apply total_ret]. intros w.
  rw /get_reflector_reader. destruct (reflectors w.2 !! _); [done|].
  match goal with |- is_Some (?c w) => assert (panic_free c) as Hc; [|apply Hc] end.
  apply total_mr_bind; [|by intros rf w']. intros w'. rw /create_and_run.
  by destruct (Hready (resource r) ns ls fs (host w'.1)) as [[] ->].
Qed.

Lemma total_get_resource av kind name ns : panic_free (get_resource av kind name ns).
Proof.
  apply total_mr_bind; [apply total_build|]. intros r.
  apply total_mr_bind; [apply total_ret|]. intros n.
  apply total_mr_bind; [apply total_kube_call|]. intros f. apply total_ret.
Qed.

Lemma total_can_i request : panic_free (can_i request).
Proof. apply total_mr_bind; [apply total_kube_call|]. intros s. apply total_ret. Qed.

Lemma total_recorded_lookup l c : panic_free c → panic_free (recorded_lookup l c).
Proof. intros Hc. apply total_mr_bind; [done|]. by intros o w. Qed.

Lemma handle_request_sigstore req c :
  handle_sigstore req = Some c →
  handle_request req = handle_callback encode_verification (in_sigstore c).
Proof. destruct req; simpl; by intros [= <-]. Qed.

Lemma total_handle_request `{UrL : !UrlLaws, SgL : !SigstoreLaws} req :
  watchers_ready → prefixes_valid req → panic_free (handle_request req).
Proof.
  intros Hready Hp.
  destruct (handle_sigstore req) as [c|] eqn:Hs.
  { rewrite (handle_request_sigstore req c Hs).
    apply total_handle_callback, total_in_sigstore. by eapply total_handle_sigstore. }
  destruct req; simpl in *; simplify_eq; try apply total_handle_callback.
  - apply total_in_oci, total_try_cached, total_oci_query. intros. apply total_on_reference.
  - apply total_in_oci, total_try_cached, total_oci_query. intros. apply total_on_reference.
  - apply total_in_oci, total_try_cached, total_mr_bind; [|intros; apply total_ret].
    apply total_oci_query. intros. apply total_mr_bind; [apply total_on_reference|].
    intros. apply total_ret.
  - apply total_mr_bind; [|intros; apply total_ret]. intros h'. rw /on_handler_host.
    by destruct (lookup_host _ _).
  - apply total_need_client, total_uncached, total_mr_bind; [apply total_build|]. intros r.
    apply total_if; [apply total_ret|by apply total_list_from_reflector].
  - apply total_need_client, total_uncached, total_mr_bind; [apply total_build|]. intros r.
    by apply total_list_from_reflector.
  - apply total_mr_bind; [|intros; apply total_ret].
    apply total_if; apply total_need_client.
    + apply total_uncached, total_get_resource.
    + apply total_try_cached, total_recorded_lookup, total_get_resource.
  - apply total_need_client, total_always_cached, total_mr_bind; [apply total_build|].
    intros r. apply total_ret.
  - apply total_need_client, total_uncached, total_mr_bind; [apply total_build|].
    intros r. by apply total_bind; [intros w|intros b; apply total_ret].
  - apply total_if; apply total_need_client.
    + apply total_uncached, total_can_i.
    + apply total_try_cached, total_can_i.
  - by intros h'.
Qed.

(** C23. When the watchers of the cluster get their listings, every request is answered; a
    reply is missing only for a keyless verification with a prefix that is not a URL and
    an answer that is not cached: the task panics on it. *)
Theorem every_request_answered `{UrL : !UrlLaws, SgL : !SigstoreLaws} h req :
  watchers_ready →
  (prefixes_valid req → ∃ r, (serve h req).1 = Reply r) ∧
  (∀ image k l annotations, req = SigstoreKeylessPrefixVerify image (k :: l) annotations →
     ¬ prefixes_valid req →
     cache_get (host_now (host (ch_st h))) (keyless_prefix_key image (k :: l) annotations)
       (keyless_prefix_verification_cache (sigstore_client h)) = None →
     (serve h req).1 = RecvError).
Proof.
  intros Hready. split.
  - intros Hp.
    rw /serve. destruct (total_run _ h (total_handle_request req Hready Hp)) as (r & h' & ->). by exists r.
  - intros image k l annotations -> Hbad Hmiss. rw /serve /handle_request /handle_callback.
    assert (verify_keyless_prefix image (k :: l) annotations = λ _, None) as Hv.
    { rw /verify_keyless_prefix. destruct (mapM _ (k :: l)) eqn:Hm; [|done].
      destruct Hbad. apply (prefixes_parse annotations). by eexists. }
    rw /mr_bind /m_bind /in_sigstore /get_sigstore_keyless_prefix_verification_cached.
    rw /try_cached Hmiss /recorded Hv. done.
Qed.

(** *** Runs of the handler *)

Definition with_st (st : St) h : CallbackHandler :=
  {| ch_st := st; oci_client := oci_client h; sigstore_client := sigstore_client h;
     kubernetes_client := kubernetes_client h; channel_size := channel_size h |}.

(** Requests are served; in between the world moves on. *)
Inductive handler_reachable : CallbackHandler → Prop :=
| hr_build cosign b st h : build cosign b st = Some (Ok h) → handler_reachable h
| hr_world st h : handler_reachable h → handler_reachable (with_st st h)
| hr_serve req h : handler_reachable h → handler_reachable (serve h req).2.

(** The computation leaves the Sigstore client alone. *)
Definition keeps_sigstore {A} (c : M CallbackHandler A) : Prop :=
  ∀ h a h', c h = Some (a, h') → sigstore_client h' = sigstore_client h.

Lemma keeps_sigstore_ret {A} (a : A) : keeps_sigstore (m_ret a).
Proof. by intros h b h' [= _ <-]. Qed.

Lemma keeps_sigstore_mr_bind {A B E} (c : M CallbackHandler (result A E))
    (k : A → M CallbackHandler (result B E)) :
  keeps_sigstore c → (∀ a, keeps_sigstore (k a)) → keeps_sigstore (mr_bind c k).
Proof.
  intros Hc Hk h b h' (a & h1 & Ha & Hb)%m_bind_Some. rewrite -(Hc _ _ _ Ha).
  destruct a as [a|e]; [by eapply Hk|]. by injection Hb as _ <-.
Qed.

Lemma keeps_sigstore_in_oci {A} (c : M (St * OciClient) A) : keeps_sigstore (in_oci c).
Proof. intros h a h'. rw /in_oci. by destruct (c _) as [[? []]|]; intros [= _ <-]. Qed.

Lemma keeps_sigstore_need_client {A} (c : M (St * KubeClient) (result A string)) :
  keeps_sigstore (need_client c).
Proof.
  intros h a h'. rw /need_client. destruct (kubernetes_client h); [|by intros [= _ <-]].
  by destruct (c _) as [[? []]|]; intros [= _ <-].
Qed.

Lemma keeps_sigstore_callback {A} (encode : A → result string string) code :
  keeps_sigstore code → keeps_sigstore (handle_callback encode code).
Proof. intros Hc. apply keeps_sigstore_mr_bind; [done|]. intros r. apply keeps_sigstore_ret. Qed.

Lemma handle_request_other req :
  handle_sigstore req = None → keeps_sigstore (handle_request req).
Proof.
  intros Hs. destruct req; simplify_eq/=; try apply keeps_sigstore_callback;
    try apply keeps_sigstore_in_oci; try apply keeps_sigstore_need_client.
  - apply keeps_sigstore_mr_bind; [|intros; apply keeps_sigstore_ret].
    intros h a h'. rw /on_handler_host. destruct (lookup_host _ _). by intros [= _ <-].
  - apply keeps_sigstore_mr_bind; [|intros; apply keeps_sigstore_ret].
    destruct disable_cache; apply keeps_sigstore_need_client.
  - destruct disable_cache; apply keeps_sigstore_need_client.
  - by intros h a h' [= _ <-].
Qed.

Lemma in_sigstore_run {A} (c : M (St * SigstoreClient) A) h a h' :
  in_sigstore c h = Some (a, h') →
  c (ch_st h, sigstore_client h) = Some (a, (ch_st h', sigstore_client h')).
Proof. rw /in_sigstore. destruct (c _) as [[b [st s]]|]; [|done]. by intros [= <- <-]. Qed.

Lemma handler_sigstore_reachable h : handler_reachable h → reachable (ch_st h, sigstore_client h).
Proof.
  induction 1 as [cosign b st h Hb|st h _ IH|req h _ IH].
  - rewrite /build in Hb. case_decide; [done|]. injection Hb as Hb.
    apply res_bind_Ok in Hb as (u & _ & [= <-]). apply reach_new.
  - by eapply reach_world.
  - rw /serve. destruct (handle_request req h) as [[r h']|] eqn:Hr; [|done]. simpl.
    destruct (handle_sigstore req) as [c|] eqn:Hs.
    + rewrite (handle_request_sigstore req c Hs) in Hr.
      apply m_bind_Some in Hr as (a & h1 & Ha & Hr). apply in_sigstore_run in Ha.
      assert (h' = h1) as -> by (destruct a; by injection Hr as _ <-).
      by eapply reach_handle.
    + rewrite (handle_request_other req Hs _ _ _ Hr). by eapply reach_world.
Qed.

(** C7. What a policy is told about an image: whatever other requests the handler has served,
    a reply to a verification by keys, identities or GitHub owner says that the image is
    trusted, and at most a minute ago the image had a trusted layer for each of the
    signatures the policy named. *)
Theorem served_verification_sound `{ML : !MokaLaws MK, UrL : !UrlLaws, SgL : !SigstoreLaws,
    RL : !ReferenceLaws, SL : !SigstoreSdkLaws} h req image resp h' :
  handler_reachable h → serve h req = (Reply (Ok resp), h') →
  query_image req = Some image → plain_image image →
  (∀ n k, query_key req = Some (n, k) → n ≠ CertificateCache) →
  ∃ st st' signatures digest layers,
    encode_verification (trusted digest) = Ok (payload resp) ∧
    query_signatures req = Some signatures ∧ signatures ≠ [] ∧
    fetch_sigstore_remote_data image st = Some (Ok (digest, layers), st') ∧
    Forall (satisfied layers) signatures ∧
    (host_now (host (ch_st h')) < host_now (host st') + from_secs 60)%Z.
Proof.
  intros Hh%handler_sigstore_reachable Hserve Hi Hplain Hcert.
  rewrite /serve in Hserve. destruct (handle_request req h) as [[r h1]|] eqn:Hr; [|done].
  injection Hserve as -> ->. destruct (handle_sigstore req) as [c|] eqn:Hs.
  2: { by destruct req. }
  rewrite (handle_request_sigstore req c Hs) in Hr.
  apply mr_bind_Ok in Hr as (ret & h1 & Hret & Hr). injection Hr as Hr <-.
  apply res_bind_Ok in Hr as (p & Hp%map_err_Ok & [= <-]). apply in_sigstore_run in Hret.
  destruct (trusted_answers_are_verified req image c _ ret _ Hh Hs Hret Hi Hplain Hcert)
    as (t & st & st' & signatures & digest & layers & _ & Ht & Hnow & Hsig & Hne & Hf & Hall & Hv).
  exists st, st', signatures, digest, layers. rewrite -Hv Hnow. by split_and!.
Qed.

(** *** Requests about the cluster *)

Definition is_kubernetes req : bool :=
  match req with
  | KubernetesListResourceNamespace _ _ _ _ _ _ | KubernetesListResourceAll _ _ _ _ _
  | KubernetesGetResource _ _ _ _ _ _ | KubernetesGetResourcePluralName _ _
  | HasKubernetesListResourceAllResultChangedSinceInstant _ _ _ _ _ _
  | KubernetesCanI _ _ => true
  | _ => false
  end.

(** Without a client, every request about the cluster is refused and changes nothing. *)
Theorem cluster_needs_client h req :
  kubernetes_client h = None → is_kubernetes req = true →
  serve h req = (Reply (Err NO_CLIENT), h).
Proof.
  intros Hn Hk.
  assert (∀ A (c : M (St * KubeClient) (result A string)),
    need_client c h = Some (Err NO_CLIENT, h)) as Hc by by intros; rewrite /need_client Hn.
  assert (∀ A B (c : M CallbackHandler (result A string)) (k : A → M CallbackHandler (result B string)),
    c h = Some (Err NO_CLIENT, h) → mr_bind c k h = Some (Err NO_CLIENT, h)) as Hb.
  { intros A B c k Hck. by rewrite /mr_bind /m_bind Hck. }
  assert (handle_request req h = Some (Err NO_CLIENT, h)) as Hr; [|by rewrite /serve Hr].
  destruct req; try discriminate Hk; apply Hb; try apply Hc.
  - apply Hb. destruct disable_cache; apply Hc.
  - destruct disable_cache; apply Hc.
Qed.

(** The requests that were received before the shutdown are those that get an outcome. *)
Fixpoint received (events : list LoopEvent) : list CallbackRequestType :=
  match events with
  | [] | Shutdown :: _ => []
  | Recv None :: events => received events
  | Recv (Some req) :: events => req :: received events
  end.

(** The loop serves exactly the requests received before the shutdown, in their order,
    each in the state the earlier ones left. *)
Theorem loop_eval_serves events h :
  loop_eval events h =
  foldl (λ '(os, h) req, let '(o, h) := serve h req in (os ++ [o], h)) ([], h) (received events).
Proof.
  assert (∀ events h os0, (let '(os, h') := loop_eval events h in (os0 ++ os, h')) =
    foldl (λ '(os, h) req, let '(o, h) := serve h req in (os ++ [o], h)) (os0, h) (received events)) as Hgen.
  { clear. induction events as [|[|[req|]] events IH]; intros h os0; simpl; [by rw app_nil_r..| |done].
    destruct (serve h req) as [o h1]. rewrite -IH. destruct (loop_eval events h1) as [os h2].
    by rewrite -app_assoc. }
  rewrite -Hgen. by destruct (loop_eval events h).
Qed.
End properties.

(** ** Witnesses *)

#[export, refine] Instance plain_push : @OciPush plain_oci clock_host := {|
  pull_manifest_and_config _ _ _ h := (Err "unreachable", h);
  push_image _ _ _ _ _ _ h := (Err "unreachable", h);
  json_from_str _ := Ok JNull;
|}.
Proof. Defined.

#[export] Instance text_certificates : @CertificateSdk keyless_types := {|
  cvr_cert s := {| cert_encoding := Der; cert_data := s |};
  cvr_cert_chain _ := None; cvr_not_after _ := None |}.

#[export] Instance text_codec : @HandlerLib plain_oci clock_host value_objects keyless_types pod_cluster := {|
  lookup_host _ h := (Ok [], h); utc_timestamp h := h;
  encode_digest := Ok; encode_manifest _ := Ok "manifest";
  encode_manifest_and_config r := Ok (mc_digest r);
  encode_verification v := Ok (vr_digest v);
  encode_ips _ := "[]"; encode_list _ := Ok "list"; encode_object _ := Ok "object";
  encode_text := Ok; encode_bool b := Ok (if b then "true" else "false");
  encode_status _ := Ok "status"; encode_certificate r := Ok (Crypto.reason r) |}.

Definition example_handler (b : CallbackHandlerBuilder) : CallbackHandler :=
  {| ch_st := at_instant 0; oci_client := OciClient_new (b_oci_sources b);
     sigstore_client := SigstoreClient_new;
     kubernetes_client := if b_kube_client b then Some KubeClient_new else None;
     channel_size := b_channel_buffer_size b |}.

Lemma example_handler_reachable :
  handler_reachable (WP := Crypto.simple_webpki) (example_handler CallbackHandlerBuilder_new).
Proof. by apply (hr_build (Ok tt) CallbackHandlerBuilder_new (at_instant 0)). Qed.

Definition serve_example := serve (WP := Crypto.simple_webpki).

Lemma served_verification_sound_witness :
  ∃ resp h', serve_example (example_handler CallbackHandlerBuilder_new) key_query = (Reply (Ok resp), h') ∧
    ∃ digest, encode_verification (trusted digest) = Ok (payload resp).
Proof.
  assert ((serve_example (example_handler CallbackHandlerBuilder_new) key_query).1 =
    Reply (Ok {| payload := "sha256:manifest" |})) as Hs by (vm_compute; reflexivity).
  destruct (serve_example (example_handler CallbackHandlerBuilder_new) key_query) as [o h'] eqn:He.
  simpl in Hs. subst o. eexists _, h'. split; [reflexivity|].
  destruct (served_verification_sound (WP := Crypto.simple_webpki)
    (example_handler CallbackHandlerBuilder_new) key_query "ghcr.io/app" _ h'
    example_handler_reachable He eq_refl) as (_ & _ & _ & digest & _ & Henc & _).
  - split; reflexivity.
  - intros n k [= <- _]. discriminate.
  - exists digest. exact Henc.
Defined.

Lemma every_request_answered_witness :
  ∃ r, (serve_example (example_handler CallbackHandlerBuilder_new) key_query).1 = Reply r.
Proof.
  refine (proj1 (every_request_answered (WP := Crypto.simple_webpki)
    (example_handler CallbackHandlerBuilder_new) key_query _) _).
  - intros r ns ls fs h. eexists. reflexivity.
  - exact I.
Defined.

Lemma cluster_needs_client_witness :
  serve_example (example_handler CallbackHandlerBuilder_new) (KubernetesGetResourcePluralName "v1" "Pod") =
  (Reply (Err NO_CLIENT), example_handler CallbackHandlerBuilder_new).
Proof.
  apply (cluster_needs_client (WP := Crypto.simple_webpki)); reflexivity.
Defined.
