(* ===== verification/Certs.v ===== *)
(** * Hot reload of the TLS certificates

    Models [crates/policy-server/src/certs.rs]: on Linux the first TLS configuration of
    the server, and the task that watches the directories of the certificate files and
    replaces the configuration while the server runs; on other platforms [start_elsewhere], that
    watches nothing.

    [rustls], its PEM decoder and [inotify] are the parameter [TlsLib]; the contents of
    the files are given to each step, since they change between the events. A load reads the
    files one after the other, so what it is given is the answer of each read, not the state of
    the disk at one moment. *)

From stdpp Require Import pretty.
From S2P Require Import Prelude RustStr RustPath Config.

Class TlsLib := {
  CertificateDer : Type;
  PrivateKeyDer : Type;
  ClientCertVerifier : Type;
  FileContents : Type;
  (** [SliceIter], with the entries that cannot be parsed as errors *)
  pem_certificates : FileContents → list (result CertificateDer string);
  pem_keys : FileContents → list (result PrivateKeyDer string);
  (** [RootCertStore::add_parsable_certificates]: the certificates it keeps *)
  parsable : list CertificateDer → list CertificateDer;
  (** [WebPkiClientVerifier::builder(..).build()] *)
  build_verifier : list CertificateDer → result ClientCertVerifier string;
  (** [with_single_cert]: the key has to be that of the certificate *)
  single_cert : list CertificateDer → PrivateKeyDer → result unit string;
}.

Definition KUBELET_DATA_DIR : string := "..data".

Definition parent_dir (path : string) : Path :=
  match path_parent (path_of path) with
  | Some parent => if path_empty parent then path_of "." else parent
  | None => path_of "."
  end.

Section certs.
Context `{TL : TlsLib}.
Implicit Types (cfg : TlsConfig) (fs : string → result FileContents string).

(** ** Changed files *)

Record ChangedFiles := { cf_cert : bool; cf_key : bool; cf_client_ca : bool }.

Definition is_changed (dirs : list Path) (event_name path : string) : bool :=
  existsb (λ dir, bool_decide (parent_dir path = dir)) dirs &&
  (bool_decide (event_name = KUBELET_DATA_DIR) ||
   bool_decide (path_file_name (path_of path) = Some event_name)).

Definition changed_files cfg (dirs : list Path) (event_name : string) : ChangedFiles :=
  {| cf_cert := is_changed dirs event_name (cert_file cfg);
     cf_key := is_changed dirs event_name (key_file cfg);
     cf_client_ca := existsb (is_changed dirs event_name) (client_ca_file cfg) |}.

(** ** Loading *)

Record TlsServerConfig := {
  sc_client_verifier : option ClientCertVerifier;
  sc_cert : list CertificateDer;
  sc_key : PrivateKeyDer;
}.

Definition build_tls_server_config (cert : list CertificateDer) (key : PrivateKeyDer)
    (client_verifier : option ClientCertVerifier) : result TlsServerConfig string :=
  let? _ := single_cert cert key in
  Ok {| sc_client_verifier := client_verifier; sc_cert := cert; sc_key := key |}.

Definition oks {A} (l : list (result A string)) : list A :=
  omap (λ r, match r with Ok a => Some a | Err _ => None end) l.

Definition load_server_cert_and_key fs (cert_file key_file : string) :
    result (list CertificateDer * PrivateKeyDer) string :=
  let? cert_contents := fs cert_file in
  let? key_contents := fs key_file in
  let certs := oks (pem_certificates cert_contents) in
  if negb (length certs =? 1) then Err ("Expected exactly one certificate in certificate file, found "
    +:+ pretty (length certs)) else
  match oks (pem_keys key_contents) with
  | [key] => Ok (certs, key)
  | keys => Err ("Expected exactly one key in key file, found " +:+ pretty (length keys))
  end.

Definition load_client_ca_certs fs (client_cas : list string) : result ClientCertVerifier string :=
  let? store := try_fold (λ store client_ca_file,
    let? client_ca_contents := fs client_ca_file in
    Ok (store ++ parsable (oks (pem_certificates client_ca_contents)))) [] client_cas in
  map_err (λ e, "Cannot build client verifier: " +:+ e) (build_verifier store).

(** ** The watcher *)

(** The variables of the task, and the configuration the server uses. *)
Record Watcher := {
  w_cert : list CertificateDer;
  w_key : PrivateKeyDer;
  w_client_verifier : option ClientCertVerifier;
  w_cert_changed : bool;
  w_key_changed : bool;
  w_client_ca_changed : bool;
  w_served : TlsServerConfig;
}.

(** [inotify] at the start: its descriptor, its watches and its stream. *)
Record Inotify := {
  inotify_init : result unit string;
  watch_add : Path → result N string;
  into_event_stream : result unit string;
}.

Inductive SetupError :=
| CannotInitialize (e : string)
| CannotCreateStream (e : string)
| CannotWatch (dir : Path) (e : string)
| CannotLoad (e : string).

(** The start: [dirs] are watched first, [watch_add] giving the watch of each. *)
Definition watched_dirs cfg : list Path :=
  remove_dups (parent_dir <$> cert_file cfg :: key_file cfg :: client_ca_file cfg).

Definition add_watches (inotify : Inotify) cfg : result (list (N * Path)) SetupError :=
  try_fold (λ l dir,
    let? wd := map_err (CannotWatch dir) (watch_add inotify dir) in
    Ok (l ++ [(wd, dir)])) [] (watched_dirs cfg).

Definition start cfg (inotify : Inotify) fs :
    result (list (N * Path) * Watcher) SetupError :=
  let? _ := map_err CannotInitialize (inotify_init inotify) in
  let? watches := add_watches inotify cfg in
  let? ck := map_err CannotLoad (load_server_cert_and_key fs (cert_file cfg) (key_file cfg)) in
  let? client_verifier := match client_ca_file cfg with
    | [] => Ok None
    | cas => map_err CannotLoad (res_map Some (load_client_ca_certs fs cas))
    end in
  let? initial_config :=
    map_err CannotLoad (build_tls_server_config ck.1 ck.2 client_verifier) in
  let? _ := map_err CannotCreateStream (into_event_stream inotify) in
  Ok (watches, {| w_cert := ck.1; w_key := ck.2; w_client_verifier := client_verifier;
                  w_cert_changed := false; w_key_changed := false; w_client_ca_changed := false;
                  w_served := initial_config |}).

(** The start on other platforms: [RustlsConfig::from_pem_file], a parameter, and a task that never
    ends. *)
Definition start_elsewhere (from_pem_file : string → string → result TlsServerConfig string) cfg :
    result TlsServerConfig string :=
  from_pem_file (cert_file cfg) (key_file cfg).

(** [inotify] events *)
Inductive InotifyEvent :=
| ReadInterrupted
| ReadError (e : string)
| Event (overflow ignored : bool) (wd : N) (name : option string).

(** Why the task ends. *)
Inductive WatchEnd :=
| CannotRead (e : string)
| NoLongerWatched (dirs : list Path)
| StreamEnded.

(** What the task does after an event. *)
Inductive Outcome := Continue (w : Watcher) | Stopped (e : WatchEnd).

Definition note (changed : ChangedFiles) (w : Watcher) : Watcher :=
  {| w_cert := w_cert w; w_key := w_key w; w_client_verifier := w_client_verifier w;
     w_cert_changed := w_cert_changed w || cf_cert changed;
     w_key_changed := w_key_changed w || cf_key changed;
     w_client_ca_changed := w_client_ca_changed w || cf_client_ca changed;
     w_served := w_served w |}.

(** The client CAs; [None] is the [continue] of a failed load. *)
Definition reload_client_ca cfg fs (w : Watcher) : Watcher * bool :=
  if negb (w_client_ca_changed w) then (w, true) else
  let cleared v := {| w_cert := w_cert w; w_key := w_key w; w_client_verifier := v;
    w_cert_changed := w_cert_changed w; w_key_changed := w_key_changed w;
    w_client_ca_changed := false; w_served := w_served w |} in
  match load_client_ca_certs fs (client_ca_file cfg) with
  | Ok cv => (cleared (Some cv), true)
  | Err _ => (cleared (w_client_verifier w), false)
  end.

Definition reload_server_cert cfg fs (w : Watcher) : Watcher * bool :=
  if negb (w_key_changed w && w_cert_changed w) then (w, true) else
  let cleared c k := {| w_cert := c; w_key := k; w_client_verifier := w_client_verifier w;
    w_cert_changed := false; w_key_changed := false;
    w_client_ca_changed := w_client_ca_changed w; w_served := w_served w |} in
  match load_server_cert_and_key fs (cert_file cfg) (key_file cfg) with
  | Ok ck => (cleared ck.1 ck.2, true)
  | Err _ => (cleared (w_cert w) (w_key w), false)
  end.

Definition rebuild (w : Watcher) : Watcher :=
  match build_tls_server_config (w_cert w) (w_key w) (w_client_verifier w) with
  | Ok server_config =>
      {| w_cert := w_cert w; w_key := w_key w; w_client_verifier := w_client_verifier w;
         w_cert_changed := w_cert_changed w; w_key_changed := w_key_changed w;
         w_client_ca_changed := w_client_ca_changed w; w_served := server_config |}
  | Err _ => w
  end.

(** The end of the loop's body, once the changes are noted. *)
Definition reload cfg fs (w : Watcher) : Watcher :=
  if negb (w_client_ca_changed w) && negb (w_cert_changed w && w_key_changed w) then w else
  let '(w, go) := reload_client_ca cfg fs w in
  if negb go then w else
  let '(w, go) := reload_server_cert cfg fs w in
  if negb go then w else rebuild w.

Definition dirs_of (watches : list (N * Path)) (wd : N) : list Path :=
  snd <$> filter (λ p, p.1 = wd) watches.

Definition watch_event cfg (watches : list (N * Path)) fs (w : Watcher) (event : InotifyEvent) :
    Outcome :=
  match event with
  | ReadInterrupted => Continue w
  | ReadError e => Stopped (CannotRead e)
  | Event overflow ignored wd name =>
      if overflow : bool then
        Continue (reload cfg fs (note {| cf_cert := true; cf_key := true;
          cf_client_ca := bool_decide (client_ca_file cfg ≠ []) |} w))
      else
      match dirs_of watches wd with
      | [] => Continue w
      | dirs =>
          if ignored : bool
          then Stopped (NoLongerWatched dirs)
          else match name with
               | None => Continue w
               | Some name => Continue (reload cfg fs (note (changed_files cfg dirs name) w))
               end
      end
  end.

(** The task: each event comes with the files at that moment. *)
Fixpoint watch cfg (watches : list (N * Path)) (w : Watcher)
    (events : list (InotifyEvent * (string → result FileContents string))) : Watcher * WatchEnd :=
  match events with
  | [] => (w, StreamEnded)
  | (event, fs) :: events =>
      match watch_event cfg watches fs w event with
      | Continue w => watch cfg watches w events
      | Stopped e => (w, e)
      end
  end.
End certs.

Section certs_facts.
Context `{TL : TlsLib}.
Implicit Types (cfg : TlsConfig) (fs : string → result FileContents string).
Implicit Types (seen : list (string → result FileContents string)).

(** ** What is served *)

(** The pair was read from the files of one moment of [seen]. *)
Definition loaded_pair cfg seen (cert : list CertificateDer) (key : PrivateKeyDer) : Prop :=
  ∃ fs, fs ∈ seen ∧ load_server_cert_and_key fs (cert_file cfg) (key_file cfg) = Ok (cert, key).

(** Client authentication is on exactly when it is configured, with a verifier read from
    the files of one moment of [seen]. *)
Definition loaded_verifier cfg seen (v : option ClientCertVerifier) : Prop :=
  match v with
  | Some cv => client_ca_file cfg ≠ [] ∧
      ∃ fs, fs ∈ seen ∧ load_client_ca_certs fs (client_ca_file cfg) = Ok cv
  | None => client_ca_file cfg = []
  end.

Record served_ok cfg seen (c : TlsServerConfig) : Prop := {
  so_key_matches : single_cert (sc_cert c) (sc_key c) = Ok tt;
  so_one_cert : length (sc_cert c) = 1;
  so_pair : loaded_pair cfg seen (sc_cert c) (sc_key c);
  so_verifier : loaded_verifier cfg seen (sc_client_verifier c);
}.

Record watcher_ok cfg seen (w : Watcher) : Prop := {
  wo_pair : loaded_pair cfg seen (w_cert w) (w_key w);
  wo_verifier : loaded_verifier cfg seen (w_client_verifier w);
  wo_ca_changed : w_client_ca_changed w = true → client_ca_file cfg ≠ [];
  wo_served : served_ok cfg seen (w_served w);
}.

Lemma loaded_pair_mono cfg seen seen' cert key :
  seen ⊆ seen' → loaded_pair cfg seen cert key → loaded_pair cfg seen' cert key.
Proof. intros Hs (fs & ? & ?). exists fs. split; [by apply Hs|done]. Qed.

Lemma loaded_verifier_mono cfg seen seen' v :
  seen ⊆ seen' → loaded_verifier cfg seen v → loaded_verifier cfg seen' v.
Proof.
  intros Hs. destruct v as [cv|]; [|done]. intros (? & fs & ? & ?). split; [done|].
  exists fs. split; [by apply Hs|done].
Qed.

Lemma watcher_ok_mono cfg seen seen' w :
  seen ⊆ seen' → watcher_ok cfg seen w → watcher_ok cfg seen' w.
Proof.
  intros Hs [Hp Hv Hc [? ? ? ?]].
  split; eauto using loaded_pair_mono, loaded_verifier_mono.
  split; eauto using loaded_pair_mono, loaded_verifier_mono.
Qed.

Lemma loaded_one_cert fs cert_file key_file cert key :
  load_server_cert_and_key fs cert_file key_file = Ok (cert, key) → length cert = 1.
Proof.
  unfold load_server_cert_and_key. intros H. res_simpl.
  destruct (length _ =? 1) eqn:Hl; simpl in *; [|done].
  apply Nat.eqb_eq in Hl. by split_matches.
Qed.

Lemma build_ok cfg seen cert key v c :
  loaded_pair cfg seen cert key → loaded_verifier cfg seen v →
  build_tls_server_config cert key v = Ok c → served_ok cfg seen c.
Proof.
  unfold build_tls_server_config. intros Hp Hv H. apply res_bind_Ok in H as ([] & Hs & H).
  simplify_eq. split; simpl; try done. destruct Hp as (fs & _ & Hl).
  by eapply loaded_one_cert.
Qed.

Lemma start_ok cfg inotify fs watches w :
  start cfg inotify fs = Ok (watches, w) → watcher_ok cfg [fs] w.
Proof.
  unfold start. intros H. apply res_bind_Ok in H as (_ & _ & H).
  apply res_bind_Ok in H as (ws & _ & H).
  apply res_bind_Ok in H as ([cert key] & Hl & H). apply map_err_Ok in Hl.
  apply res_bind_Ok in H as (v & Hv & H). apply res_bind_Ok in H as (c & Hc & H).
  apply map_err_Ok in Hc. apply res_bind_Ok in H as (_ & _ & H). simplify_eq/=.
  assert (loaded_pair cfg [fs] cert key) as Hp by (exists fs; split; [apply list_elem_of_here|done]).
  assert (loaded_verifier cfg [fs] v) as Hver.
  { destruct (client_ca_file cfg) as [|ca cas] eqn:Hca; simplify_eq; simpl; [done|].
    apply map_err_Ok, res_map_Ok in Hv as (cv & Hcv & ->). simpl. rewrite Hca.
    split; [done|]. exists fs. split; [apply list_elem_of_here|done]. }
  split; simpl; try done. by eapply build_ok.
Qed.

Lemma note_ok cfg seen changed w :
  (cf_client_ca changed = true → client_ca_file cfg ≠ []) →
  watcher_ok cfg seen w → watcher_ok cfg seen (note changed w).
Proof.
  intros Hch [? ? Hc ?]. split; simpl; try done.
  rewrite orb_true_iff. naive_solver.
Qed.

Lemma reload_client_ca_ok cfg fs seen w :
  watcher_ok cfg seen w → fs ∈ seen → watcher_ok cfg seen (reload_client_ca cfg fs w).1.
Proof.
  intros Hw Hfs. unfold reload_client_ca.
  destruct (w_client_ca_changed w) eqn:Hch; simpl; [|done].
  destruct Hw as [? ? Hc ?]. specialize (Hc Hch).
  destruct (load_client_ca_certs _ _) as [cv|e] eqn:Hl; split; simpl; try done.
  split; [done|]. by exists fs.
Qed.

Lemma reload_server_cert_ok cfg fs seen w :
  watcher_ok cfg seen w → fs ∈ seen → watcher_ok cfg seen (reload_server_cert cfg fs w).1.
Proof.
  intros Hw Hfs. unfold reload_server_cert.
  destruct (w_key_changed w && w_cert_changed w); simpl; [|done].
  destruct Hw as [? ? Hc ?].
  destruct (load_server_cert_and_key _ _ _) as [[cert key]|e] eqn:Hl; split; simpl; try done.
  by exists fs.
Qed.

Lemma rebuild_ok cfg seen w : watcher_ok cfg seen w → watcher_ok cfg seen (rebuild w).
Proof.
  intros [? ? Hc ?]. unfold rebuild.
  destruct (build_tls_server_config _ _ _) eqn:Hb; split; simpl; try done.
  by eapply build_ok.
Qed.

Lemma reload_ok cfg fs seen w :
  watcher_ok cfg seen w → fs ∈ seen → watcher_ok cfg seen (reload cfg fs w).
Proof.
  intros Hw Hfs. unfold reload. case_match; [done|].
  pose proof (reload_client_ca_ok cfg fs seen w Hw Hfs) as H1.
  destruct (reload_client_ca cfg fs w) as [w1 go1]. simpl in H1.
  destruct go1; simpl; [|done].
  pose proof (reload_server_cert_ok cfg fs seen w1 H1 Hfs) as H2.
  destruct (reload_server_cert cfg fs w1) as [w2 go2]. simpl in H2.
  destruct go2; simpl; [by apply rebuild_ok|done].
Qed.

Lemma watch_event_ok cfg watches fs seen w event w' :
  watcher_ok cfg seen w → watch_event cfg watches fs w event = Continue w' →
  watcher_ok cfg (fs :: seen) w'.
Proof.
  intros Hw H. apply (watcher_ok_mono _ _ (fs :: seen)) in Hw; [|set_solver].
  pose proof (list_elem_of_here fs seen) as Hfs.
  destruct event as [|e|overflow ignored wd name]; simplify_eq/=; [done|].
  destruct overflow.
  { simplify_eq. apply reload_ok, Hfs. apply note_ok; simpl; [|done]. apply bool_decide_eq_true_1. }
  destruct (dirs_of watches wd) as [|d ds]; simplify_eq; [done|].
  destruct ignored; [done|]. destruct name as [name|]; simplify_eq; [|done].
  apply reload_ok, Hfs. apply note_ok; [|done]. simpl. by destruct (client_ca_file cfg).
Qed.

Lemma watch_ok cfg watches seen w events :
  watcher_ok cfg seen w →
  watcher_ok cfg (rev (snd <$> events) ++ seen) (watch cfg watches w events).1.
Proof.
  revert seen w. induction events as [|[event fs] events IH]; intros seen w Hw; simpl; [done|].
  destruct (watch_event _ _ _ _ _) as [w'|e] eqn:He; simpl.
  - rewrite <- app_assoc. apply IH. by eapply watch_event_ok.
  - eapply watcher_ok_mono; [|done]. set_solver.
Qed.

(** C8. Whatever the files become while the server runs, the configuration it serves is one
    that was accepted: a single certificate with its own key, read together from the
    files of one moment, and client authentication on exactly when a client CA is
    configured, with a verifier built from the files of one moment. A reload that fails
    never leaves the server without client authentication. *)
Theorem served_certificates_consistent cfg inotify fs watches w0 events
    (Hstart : start cfg inotify fs = Ok (watches, w0)) :
  served_ok cfg (rev (snd <$> events) ++ [fs]) (w_served (watch cfg watches w0 events).1).
Proof. apply wo_served, watch_ok. by eapply start_ok. Qed.

(** ** A volume update *)

(** The files that are in a directory. *)
(** Outside of Linux the certification authorities of the clients have no effect. *)
Lemma client_ca_ignored_elsewhere from_pem_file cfg cas :
  start_elsewhere from_pem_file {| cert_file := cert_file cfg; key_file := key_file cfg; client_ca_file := cas |} =
  start_elsewhere from_pem_file cfg.
Proof. done. Qed.

Definition in_dir (dirs : list Path) (file : string) : Prop := parent_dir file ∈ dirs.

Lemma is_changed_swap dirs file : in_dir dirs file → is_changed dirs KUBELET_DATA_DIR file = true.
Proof.
  intros Hd. apply andb_true_iff. split; [|done].
  apply existsb_exists. exists (parent_dir file). split; [by apply list_elem_of_In|].
  by apply bool_decide_eq_true_2.
Qed.

Lemma changed_files_swap cfg dirs :
  in_dir dirs (cert_file cfg) → in_dir dirs (key_file cfg) → Forall (in_dir dirs) (client_ca_file cfg) →
  changed_files cfg dirs KUBELET_DATA_DIR =
    {| cf_cert := true; cf_key := true; cf_client_ca := bool_decide (client_ca_file cfg ≠ []) |}.
Proof.
  intros Hc Hk Hcas. unfold changed_files. rewrite !is_changed_swap; [|done..]. f_equal.
  destruct (client_ca_file cfg) as [|ca cas]; [done|]. simpl.
  rewrite is_changed_swap; [done|]. by inversion Hcas.
Qed.

(** What the files of one moment would be served as. *)
Definition config_of cfg fs : result TlsServerConfig string :=
  let? ck := load_server_cert_and_key fs (cert_file cfg) (key_file cfg) in
  let? v := match client_ca_file cfg with
            | [] => Ok None
            | cas => res_map Some (load_client_ca_certs fs cas)
            end in
  build_tls_server_config ck.1 ck.2 v.

Lemma reload_all cfg fs seen w c :
  watcher_ok cfg seen w → config_of cfg fs = Ok c →
  w_served (reload cfg fs (note {| cf_cert := true; cf_key := true;
    cf_client_ca := bool_decide (client_ca_file cfg ≠ []) |} w)) = c.
Proof.
  destruct w as [cert0 key0 v0 cert_ch key_ch ca_ch served].
  intros [_ Hv Hc _] H. simpl in Hv, Hc. unfold config_of in H.
  apply res_bind_Ok in H as ([cert key] & Hl & H). apply res_bind_Ok in H as (v & Hcv & Hb).
  simpl in Hb. unfold reload, reload_client_ca, reload_server_cert, rebuild. simpl.
  rewrite !orb_true_r. simpl.
  destruct (client_ca_file cfg) as [|ca cas] eqn:Hca; simpl.
  - simplify_eq. destruct v0 as [cv|]; [by destruct Hv|].
    destruct ca_ch; [by destruct Hc|]. simpl. rewrite !orb_true_r Hl. simpl. by rewrite Hb.
  - apply res_map_Ok in Hcv as (cv & Hcv & ->).
    rewrite orb_true_r. simpl. rewrite Hcv. simpl. rewrite Hl. simpl. by rewrite Hb.
Qed.

(** When the kubelet swaps [..data] in the directory of all the TLS files, and when the
    kernel lost events, files that load and whose key matches are served from that event
    on, whatever happened before. *)
Theorem volume_update_served cfg inotify fs0 watches w0 events fs wd name c overflow
    (Hstart : start cfg inotify fs0 = Ok (watches, w0))
    (Hfiles : config_of cfg fs = Ok c)
    (Hswap : overflow = true ∨ name = Some KUBELET_DATA_DIR ∧
       in_dir (dirs_of watches wd) (cert_file cfg) ∧ in_dir (dirs_of watches wd) (key_file cfg) ∧
       Forall (in_dir (dirs_of watches wd)) (client_ca_file cfg)) :
  ∃ w, watch_event cfg watches fs (watch cfg watches w0 events).1 (Event overflow false wd name) =
         Continue w ∧ w_served w = c.
Proof.
  pose proof (watch_ok cfg watches [fs0] w0 events (start_ok _ _ _ _ _ Hstart)) as Hw.
  simpl. destruct Hswap as [->|(-> & Hc & Hk & Hcas)].
  - eexists. split; [done|]. by eapply reload_all.
  - destruct overflow; [eexists; split; [done|by eapply reload_all]|].
    destruct (dirs_of watches wd) as [|d ds] eqn:Hd; [by apply elem_of_nil in Hc|].
    eexists. split; [done|]. rewrite changed_files_swap; [|done..]. by eapply reload_all.
Qed.

(** ** Updates that wait *)

(** When the new client CA loads but the new server pair does not, the loop goes on before
    the configuration is rebuilt: the new CA is kept but not served, and nothing records
    that it waits, so the connections go on with the old one until another change. *)
Theorem client_ca_update_waits cfg fs w cv e
    (Hcas : client_ca_file cfg ≠ [])
    (Hca : load_client_ca_certs fs (client_ca_file cfg) = Ok cv)
    (Hpair : load_server_cert_and_key fs (cert_file cfg) (key_file cfg) = Err e) :
  let w' := reload cfg fs (note {| cf_cert := true; cf_key := true; cf_client_ca := true |} w) in
  w_served w' = w_served w ∧ w_client_verifier w' = Some cv ∧
  w_client_ca_changed w' = false ∧ w_cert_changed w' = false ∧ w_key_changed w' = false.
Proof.
  unfold reload, reload_client_ca, reload_server_cert. simpl.
  rewrite !orb_true_r. simpl. rewrite Hca. simpl. by rewrite Hpair.
Qed.

Lemma reload_mismatched cfg fs w cert key e :
  w_client_ca_changed w = false →
  load_server_cert_and_key fs (cert_file cfg) (key_file cfg) = Ok (cert, key) →
  single_cert cert key = Err e →
  reload cfg fs (note {| cf_cert := true; cf_key := true; cf_client_ca := false |} w) =
  {| w_cert := cert; w_key := key; w_client_verifier := w_client_verifier w;
     w_cert_changed := false; w_key_changed := false; w_client_ca_changed := false;
     w_served := w_served w |}.
Proof.
  destruct w as [cert0 key0 v0 cert_ch key_ch ca_ch served]. simpl. intros -> Hl Hm.
  unfold reload, reload_client_ca, reload_server_cert, rebuild, build_tls_server_config. simpl.
  rewrite !orb_true_r. simpl. rewrite Hl. simpl. by rewrite Hm.
Qed.

(** A pair that is read but whose key does not match replaces the pair of the task, not
    the one that is served; from then on a change of the client CA alone is not served
    either, though it loads. *)
Theorem mismatched_pair_blocks_client_ca cfg fs fs' w cert key e
    (Hca : w_client_ca_changed w = false)
    (Hload : load_server_cert_and_key fs (cert_file cfg) (key_file cfg) = Ok (cert, key))
    (Hmismatch : single_cert cert key = Err e) :
  let w1 := reload cfg fs (note {| cf_cert := true; cf_key := true; cf_client_ca := false |} w) in
  let w2 := reload cfg fs' (note {| cf_cert := false; cf_key := false; cf_client_ca := true |} w1) in
  w_served w1 = w_served w ∧ w_served w2 = w_served w.
Proof.
  rewrite (reload_mismatched _ _ _ _ _ _ Hca Hload Hmismatch). simpl. split; [done|].
  unfold reload, reload_client_ca, reload_server_cert, rebuild, build_tls_server_config. simpl.
  destruct (load_client_ca_certs _ _); simpl; [by rewrite Hmismatch|done].
Qed.
End certs_facts.

(** ** Examples *)

(** A library whose PEM files are lists of entries: a certificate is the name of its key,
    [bad] is an entry that cannot be parsed. *)
Definition example_tls : TlsLib := {|
  CertificateDer := string; PrivateKeyDer := string; ClientCertVerifier := list string;
  FileContents := list string;
  pem_certificates l := (λ c, if decide (c = "bad") then Err "invalid PEM" else Ok c) <$> l;
  pem_keys l := (λ c, if decide (c = "bad") then Err "invalid PEM" else Ok c) <$> l;
  parsable l := l;
  build_verifier l := match l with [] => Err "no trust anchors" | _ => Ok l end;
  single_cert cert key := if decide (cert = [key]) then Ok tt else Err "keys may not be consistent";
|}.
#[local] Existing Instance example_tls.

Definition example_cfg : TlsConfig :=
  {| cert_file := "/pki/tls.crt"; key_file := "/pki/tls.key"; client_ca_file := ["/pki/ca.crt"] |}.

Definition example_files (cert key : string) (ca : list string) : string → result (list string) string :=
  λ path, if decide (path = "/pki/tls.crt") then Ok [cert] else
          if decide (path = "/pki/tls.key") then Ok [key] else
          if decide (path = "/pki/ca.crt") then Ok ca else Err "No such file or directory".

Definition example_inotify : Inotify :=
  {| inotify_init := Ok tt; watch_add _ := Ok 1%N; into_event_stream := Ok tt |}.

Definition example_watcher : Watcher :=
  {| w_cert := ["k1"]; w_key := "k1"; w_client_verifier := Some ["ca1"];
     w_cert_changed := false; w_key_changed := false; w_client_ca_changed := false;
     w_served := {| sc_client_verifier := Some ["ca1"]; sc_cert := ["k1"]; sc_key := "k1" |} |}.

Definition example_watches : list (N * Path) := [(1%N, path_of "/pki")].

Lemma example_start :
  start example_cfg example_inotify (example_files "k1" "k1" ["ca1"]) =
  Ok (example_watches, example_watcher).
Proof. reflexivity. Qed.

(** The cases of the tests of [changed_files]. *)
Example changed_files_cases :
  ((λ p : string * string,
      let c := changed_files {| cert_file := "/pki/tls.crt"; key_file := "/pki/tls.key";
        client_ca_file := ["/client-ca/client-ca.crt"] |} [path_of p.1] p.2 in
      (cf_cert c, cf_key c, cf_client_ca c)) <$>
   [("/pki", "..data"); ("/client-ca", "..data"); ("/pki", "tls.crt"); ("/client-ca", "client-ca.crt");
    ("/pki", "..data_tmp"); ("/client-ca", "tls.crt"); ("/pki/.", "tls.key")]) =
  [(true, true, false); (false, false, true); (true, false, false); (false, false, true);
   (false, false, false); (false, false, false); (false, true, false)].
Proof. reflexivity. Qed.

(** A mismatched pair, then an unparsable CA: the first configuration is still served. *)
Definition example_events : list (InotifyEvent * (string → result (list string) string)) :=
  [(Event false false 1 (Some KUBELET_DATA_DIR), example_files "k2" "k3" ["ca2"]);
   (Event false false 1 (Some "ca.crt"), example_files "k2" "k2" ["bad"]);
   (ReadInterrupted, example_files "k2" "k2" ["bad"])].

Lemma served_certificates_consistent_witness :
  served_ok example_cfg (rev (snd <$> example_events) ++ [example_files "k1" "k1" ["ca1"]])
    (w_served (watch example_cfg example_watches example_watcher example_events).1) ∧
  w_served (watch example_cfg example_watches example_watcher example_events).1 =
    w_served example_watcher.
Proof.
  split; [|reflexivity].
  exact (@served_certificates_consistent example_tls example_cfg example_inotify _ _ _ example_events example_start).
Defined.

Lemma volume_update_served_witness :
  ∃ w, watch_event example_cfg example_watches (example_files "k4" "k4" ["ca4"])
         (watch example_cfg example_watches example_watcher example_events).1
         (Event false false 1 (Some KUBELET_DATA_DIR)) = Continue w ∧
       w_served w = {| sc_client_verifier := Some ["ca4"]; sc_cert := ["k4"]; sc_key := "k4" |}.
Proof.
  apply (@volume_update_served example_tls example_cfg example_inotify (example_files "k1" "k1" ["ca1"])
    example_watches example_watcher example_events _ 1%N (Some KUBELET_DATA_DIR) _ false).
  - reflexivity.
  - reflexivity.
  - right. split; [reflexivity|]. repeat split; repeat constructor.
Defined.

Lemma client_ca_update_waits_witness :
  let w' := reload example_cfg (example_files "bad" "k2" ["ca2"])
    (note {| cf_cert := true; cf_key := true; cf_client_ca := true |} example_watcher) in
  w_served w' = w_served example_watcher ∧ w_client_verifier w' = Some ["ca2"].
Proof.
  destruct (@client_ca_update_waits example_tls example_cfg (example_files "bad" "k2" ["ca2"]) example_watcher ["ca2"]
    "Expected exactly one certificate in certificate file, found 0") as (H1 & H2 & _);
    [discriminate|reflexivity|reflexivity|]. exact (conj H1 H2).
Defined.

Lemma mismatched_pair_blocks_client_ca_witness :
  let w1 := reload example_cfg (example_files "k2" "k3" ["ca1"])
    (note {| cf_cert := true; cf_key := true; cf_client_ca := false |} example_watcher) in
  let w2 := reload example_cfg (example_files "k2" "k3" ["ca2"])
    (note {| cf_cert := false; cf_key := false; cf_client_ca := true |} w1) in
  w_served w1 = w_served example_watcher ∧ w_served w2 = w_served example_watcher.
Proof.
  apply (@mismatched_pair_blocks_client_ca example_tls example_cfg (example_files "k2" "k3" ["ca1"])
    (example_files "k2" "k3" ["ca2"]) example_watcher ["k2"] "k3" "keys may not be consistent");
    reflexivity.
Defined.
