(* ===== verification/SessionProxy.v ===== *)
(** * Recording and replaying host capabilities

    Models [crates/kwctl/src/callback_handler/proxy.rs] and the serialization of
    instants in [crates/policy-evaluator/src/callback_requests.rs]: [kwctl run] puts a proxy
    between a policy and the callback handler, which writes the session to a file, or
    answers from such a file without any handler.

    The handler behind the recording proxy is an instance of [Responder]; the one of
    [CallbackHandler] is declared here. YAML is the parameter [SessionYaml]. Errors are
    their messages. *)

From S2P Require Import Prelude HostCapabilities Callback Bytes RustStr.
From S2P Require Import VerificationConstraints Sources Registry Fetcher Verify TtlCache SigstoreClient KubeClient.
From S2P Require Import CertificateTrust CallbackHandler.

(** What the proxy needs of a handler: the answer to a request. *)
Class Responder `{ST : SdkTypes} (H : Type) :=
  respond : H → CallbackRequestType → ChannelOutcome * H.

#[export] Instance handler_responder `{UL : UrlLib, SG : Sigstore, SE : SourceEnv, OL : OciLib,
    HI : !HostIO, OP : !OciPush, CC : !CosignClient, YL : !YamlLib, SH : Sha256, CK : !Clock, MK : Moka,
    ST : SdkTypes, SS : !SigstoreSdk, CV : !CosignCertificate, CS : !CertificateSdk, WP : Webpki,
    KL : KubeLib, KO : !KubeObject, KA : !KubeApi, HL : !HandlerLib} :
  Responder CallbackHandler := serve.

(** ** The session file *)

(** [Response] and [Exchange]: the texts that are written. *)
Inductive Response := Success (payload : string) | Error (message : string).

Record Exchange := { ex_request : string; ex_response : Response }.

(** [ParsedResponse]: the payload is the bytes of the text. *)
Inductive ParsedResponse := ParsedSuccess (payload : bytes) | ParsedError (message : string).

Definition ParsedResponse_from (response : Response) : ParsedResponse :=
  match response with
  | Success payload => ParsedSuccess (as_bytes payload)
  | Error message => ParsedError message
  end.

(** Equality of requests is derived; it compares the SDK's types. *)
Class SdkEq `{ST : SdkTypes} := {
  KeylessInfo_eq :: EqDecision KeylessInfo;
  KeylessPrefixInfo_eq :: EqDecision KeylessPrefixInfo;
  SubjectAccessReview_eq :: EqDecision SubjectAccessReview;
  CertificateVerificationRequest_eq :: EqDecision CertificateVerificationRequest;
}.

#[export] Instance CallbackRequestType_eq_dec `{ST : SdkTypes, SQ : !SdkEq} :
  EqDecision CallbackRequestType.
Proof. solve_decision. Defined.

(** ** Instants ([tokio_instant_serializer])

    An instant is written as the time elapsed since it, and read back as that long before
    the moment of the reading. [checked_sub] fails below the first instant of the platform. *)
Class Monotonic := { first_instant : Instant }.

Definition elapsed (now instant : Instant) : Z := Z.max 0 (now - instant).

Definition checked_sub `{Monotonic} (now : Instant) (duration : Z) : option Instant :=
  if decide (first_instant ≤ now - duration)%Z then Some (now - duration)%Z else None.

Definition serialize_instant (now instant : Instant) : Z := elapsed now instant.

Definition deserialize_instant `{Monotonic} (now : Instant) (duration : Z) : result Instant string :=
  ok_or (checked_sub now duration) "Error checked_sub".

Section wire.
Context `{ST : SdkTypes, MO : Monotonic}.

(** A request as serde sees it: the instant is a duration, the rest is as it is. *)
Definition to_wire (now : Instant) (req : CallbackRequestType) : CallbackRequestType :=
  match req with
  | HasKubernetesListResourceAllResultChangedSinceInstant api_version kind ls fs masks since =>
      HasKubernetesListResourceAllResultChangedSinceInstant api_version kind ls fs masks
        (serialize_instant now since)
  | _ => req
  end.

Definition of_wire (now : Instant) (req : CallbackRequestType) : result CallbackRequestType string :=
  match req with
  | HasKubernetesListResourceAllResultChangedSinceInstant api_version kind ls fs masks duration =>
      let? since := deserialize_instant now duration in
      Ok (HasKubernetesListResourceAllResultChangedSinceInstant api_version kind ls fs masks since)
  | _ => Ok req
  end.
End wire.

Class SessionYaml `{ST : SdkTypes} := {
  (** [serde_yaml::to_string] and [from_str] on requests *)
  request_to_yaml : CallbackRequestType → result string string;
  request_of_yaml : string → result CallbackRequestType string;
  (** [to_writer]: what reaches the file, and the outcome *)
  session_to_yaml : list Exchange → string * result unit string;
  session_of_yaml : string → result (list Exchange) string;
  (** [{:?}] of a request *)
  debug_request : CallbackRequestType → string;
}.

(** What is written is read back. *)
Class SessionYamlLaws `{SessionYaml} : Prop := {
  request_yaml_round_trip req text :
    request_to_yaml req = Ok text → request_of_yaml text = Ok req;
  session_yaml_round_trip exchanges text :
    session_to_yaml exchanges = (text, Ok tt) → session_of_yaml text = Ok exchanges;
}.

Section proxy.
Context `{ST : SdkTypes, SQ : !SdkEq, MO : Monotonic, SY : !SessionYaml}.
Implicit Types (req : CallbackRequestType).

(** ** Recording *)

Definition record_exchange (recorded : list (result Exchange string)) (request : result string string)
    (response : result CallbackResponse string) : list (result Exchange string) :=
  recorded ++ [
    let? req_str := request in
    match response with
    | Err resp_err => Ok {| ex_request := req_str; ex_response := Error resp_err |}
    | Ok resp =>
        let? payload := map_err (λ e, "cannot convert response payload to utf8: " +:+ Utf8Error_to_string e)
          (from_utf8 (as_bytes (payload resp))) in
        Ok {| ex_request := req_str; ex_response := Success payload |}
    end].

(** The files; creating one can fail. *)
Record FileSystem := { contents : gmap string string; can_create : string → bool }.

Definition write_file (path text : string) (fs : FileSystem) : FileSystem :=
  {| contents := <[path := text]> (contents fs); can_create := can_create fs |}.

Definition errors_of {A} (l : list (result A string)) : list string :=
  omap (λ r, match r with Err e => Some e | Ok _ => None end) l.

Definition oks_of {A} (l : list (result A string)) : list A :=
  omap (λ r, match r with Ok a => Some a | Err _ => None end) l.

Definition dump_records (recorded : list (result Exchange string)) (destination : string)
    (fs : FileSystem) : FileSystem :=
  match errors_of recorded with
  | _ :: _ => fs
  | [] => if can_create fs destination
          then write_file destination (session_to_yaml (oks_of recorded)).1 fs
          else fs
  end.

(** What [select!] picks: the shutdown, or a message at a moment, with whether the policy
    still waits for its answer. *)
Inductive ProxyEvent :=
| ProxyShutdown
| ProxyRecv (now : Instant) (req : option CallbackRequestType) (listening : bool).

Record Recorder H := {
  rec_exchanges : list (result Exchange string);
  rec_handler : H;
}.
#[global] Arguments rec_exchanges {H}.
#[global] Arguments rec_handler {H}.

Definition request_text (now : Instant) req : result string string :=
  map_err (λ e, "cannot convert request to yaml: " +:+ e) (request_to_yaml (to_wire now req)).

(** One message; [None] is a panic of the proxy. *)
Definition record_step {H} `{RH : !Responder H} (now : Instant) req (listening : bool) (r : Recorder H) :
    option (result CallbackResponse string * Recorder H) :=
  let request := request_text now req in
  match respond (rec_handler r) req with
  | (Reply response, h) =>
      if listening then
        Some (response, {| rec_exchanges := record_exchange (rec_exchanges r) request response;
                           rec_handler := h |})
      else None
  | _ => None
  end.

(** The loop: the answers that were sent, and the files once it is over. A loop that is
    still waiting for messages has not written the session. *)
Fixpoint loop_eval_recoder {H} `{RH : !Responder H} (destination : string) (events : list ProxyEvent)
    (r : Recorder H) (fs : FileSystem) : option (list (result CallbackResponse string) * FileSystem) :=
  match events with
  | [] => Some ([], fs)
  | ProxyShutdown :: _ => Some ([], dump_records (rec_exchanges r) destination fs)
  | ProxyRecv _ None _ :: events => loop_eval_recoder destination events r fs
  | ProxyRecv now (Some req) listening :: events =>
      match record_step now req listening r with
      | None => None
      | Some (response, r) =>
          match loop_eval_recoder destination events r fs with
          | None => None
          | Some (responses, fs) => Some (response :: responses, fs)
          end
      end
  end.

(** ** Replaying *)

Record ParsedExchange := { pe_request : CallbackRequestType; pe_response : ParsedResponse }.

(** [AtomicUsize] *)
Definition usize_modulus : N := 2 ^ 64.

Definition advance (cursor : N) : N * N := (cursor, ((cursor + 1) `mod` usize_modulus)%N).

Definition reset (cursor : N) : N := 0.

Definition parse_exchange (now : Instant) (exchange : Exchange) : option ParsedExchange :=
  match (let? wire := request_of_yaml (ex_request exchange) in of_wire now wire) with
  | Ok request => Some {| pe_request := request; pe_response := ParsedResponse_from (ex_response exchange) |}
  | Err _ => None
  end.

(** The session at the moment it is loaded; [None] is a panic. *)
Definition load_session (now : Instant) (source : string) (fs : FileSystem) :
    option (list ParsedExchange) :=
  text ← contents fs !! source;
  match session_of_yaml text with
  | Ok exchanges => mapM (parse_exchange now) exchanges
  | Err _ => None
  end.

Definition produce_recorded_response req (exchanges : list ParsedExchange) (cursor : N) :
    result CallbackResponse string * N :=
  let '(index, cursor) := advance cursor in
  (match exchanges !! N.to_nat index with
   | None => Err "the list of recorded responses is empty or has been exhausted"
   | Some exchange =>
       if decide (pe_request exchange = req) then
         match pe_response exchange with
         | ParsedSuccess payload => Ok {| payload := of_bytes payload |}
         | ParsedError message => Err message
         end
       else Err ("Replay error: unexpected request. Was expecting " +:+ debug_request (pe_request exchange)
                 +:+ ", got " +:+ debug_request req +:+ " instead")
   end, cursor).

(** [ReplayResetHandle::reset] comes from another thread: between two messages. *)
Inductive ReplayEvent := ReplayReset | ReplayMessage (event : ProxyEvent).

Fixpoint replay_loop (exchanges : list ParsedExchange) (events : list ReplayEvent) (cursor : N) :
    option (list (result CallbackResponse string)) :=
  match events with
  | [] => Some []
  | ReplayReset :: events => replay_loop exchanges events (reset cursor)
  | ReplayMessage ProxyShutdown :: _ => Some []
  | ReplayMessage (ProxyRecv _ None _) :: events => replay_loop exchanges events cursor
  | ReplayMessage (ProxyRecv _ (Some req) listening) :: events =>
      let '(response, cursor) := produce_recorded_response req exchanges cursor in
      if listening : bool then cons response <$> replay_loop exchanges events cursor else None
  end.

Definition loop_eval_replay (now : Instant) (source : string) (fs : FileSystem)
    (events : list ReplayEvent) : option (list (result CallbackResponse string)) :=
  exchanges ← load_session now source fs;
  replay_loop exchanges events 0.
End proxy.

Section facts.
Context `{ST : SdkTypes, SQ : !SdkEq, MO : Monotonic, SY : !SessionYaml}.
Implicit Types (req : CallbackRequestType) (msgs : list (Instant * CallbackRequestType)).

(** ** Recording does not change the answers *)

(** The handler alone: the outcomes of requests in a row. *)
Fixpoint answers {H} `{RH : !Responder H} (reqs : list CallbackRequestType) (h : H) :
    list ChannelOutcome * H :=
  match reqs with
  | [] => ([], h)
  | req :: reqs =>
      let '(o, h) := respond h req in
      let '(os, h) := answers reqs h in (o :: os, h)
  end.

(** Messages of a policy that waits for each answer. *)
Definition messages msgs : list ProxyEvent :=
  (λ m, ProxyRecv m.1 (Some m.2) true) <$> msgs.

(** The exchange of a request and its answer. *)
Definition exchange_of (now : Instant) req (response : result CallbackResponse string) :
    result Exchange string :=
  let? req_str := request_text now req in
  match response with
  | Err resp_err => Ok {| ex_request := req_str; ex_response := Error resp_err |}
  | Ok resp =>
      let? payload := map_err (λ e, "cannot convert response payload to utf8: " +:+ Utf8Error_to_string e)
        (from_utf8 (as_bytes (payload resp))) in
      Ok {| ex_request := req_str; ex_response := Success payload |}
  end.

Lemma recorder_messages {H} `{RH : !Responder H} destination msgs responses h h' l fs :
  answers (snd <$> msgs) h = (Reply <$> responses, h') →
  loop_eval_recoder destination (messages msgs ++ [ProxyShutdown])
    {| rec_exchanges := l; rec_handler := h |} fs =
  Some (responses, dump_records (l ++ zip_with (λ m r, exchange_of m.1 m.2 r) msgs responses)
                     destination fs).
Proof.
  revert responses h l. induction msgs as [|[now req] msgs IH]; intros responses h l Ha; simpl in *.
  { destruct responses; simplify_eq. by rewrite app_nil_r. }
  rewrite /record_step /=. destruct (respond h req) as [o h1].
  destruct (answers _ h1) as [os h2] eqn:Hos. rewrite ?Hos in Ha.
  destruct responses as [|r responses]; simplify_eq/=.
  rewrite (IH responses h1); [|done]. by rewrite /record_exchange -app_assoc.
Qed.

Lemma recorder_panics {H} `{RH : !Responder H} destination msgs events h l fs responses fs' :
  loop_eval_recoder destination (messages msgs ++ events)
    {| rec_exchanges := l; rec_handler := h |} fs = Some (responses, fs') →
  ∃ rs h', answers (snd <$> msgs) h = (Reply <$> rs, h').
Proof.
  revert responses fs' h l. induction msgs as [|[now req] msgs IH]; intros responses fs' h l Hl; simpl in *.
  { by exists [], h. }
  rewrite /record_step /= in Hl. destruct (respond h req) as [o h1]. destruct o as [| |r]; try done.
  destruct (loop_eval_recoder _ _ _ _) as [[rs fs1]|] eqn:Hrest; [|done].
  destruct (IH _ _ _ _ Hrest) as (rs' & h' & Hrs). rewrite Hrs. by exists (r :: rs'), h'.
Qed.

(** A policy gets from the recording proxy the answers it would get from the handler, in
    the order of its requests; the session that is written is one exchange per request,
    unless one of them could not be written as text, and then no file is touched. *)
Theorem recording_is_transparent {H} `{RH : !Responder H} destination msgs h fs responses fs'
    (Hloop : loop_eval_recoder destination (messages msgs ++ [ProxyShutdown])
       {| rec_exchanges := []; rec_handler := h |} fs = Some (responses, fs')) :
  (answers (snd <$> msgs) h).1 = Reply <$> responses ∧
  fs' = match mapM (λ x, match x with Ok e => Some e | Err _ => None end)
            (zip_with (λ m r, exchange_of m.1 m.2 r) msgs responses) with
        | Some exchanges => if can_create fs destination
            then write_file destination (session_to_yaml exchanges).1 fs else fs
        | None => fs
        end.
Proof.
  destruct (recorder_panics _ _ _ _ _ _ _ _ Hloop) as (rs & h' & Ha).
  rewrite (recorder_messages _ _ _ _ _ _ _ Ha) in Hloop. simplify_eq/=. rewrite Ha. split; [done|].
  rewrite /dump_records. set (l := zip_with _ _ _). clearbody l.
  assert (match mapM (λ x, match x with Ok e => Some e | Err _ => None end) l with
          | Some es => errors_of l = [] ∧ oks_of l = es | None => errors_of l ≠ [] end) as Hl.
  { induction l as [|[e|e] l IH]; simpl; [done| |done].
    destruct (mapM _ l); simpl; [|done]. destruct IH as [? <-]. done. }
  destruct (mapM _ l) as [es|]; [destruct Hl as [-> ->]; done|].
  by destruct (errors_of l).
Qed.

(** ** Replaying a recorded session *)

(** The requests whose text does not depend on the time. *)
Definition timeless req : bool :=
  match req with
  | HasKubernetesListResourceAllResultChangedSinceInstant _ _ _ _ _ _ => false
  | _ => true
  end.

Definition utf8_answer (response : result CallbackResponse string) : Prop :=
  match response with
  | Ok resp => is_ok (from_utf8 (as_bytes (payload resp)))
  | Err _ => True
  end.

(** An exchange that answers [req] with [response]. *)
Definition answers_with req (response : result CallbackResponse string) (e : ParsedExchange) : Prop :=
  pe_request e = req ∧
  pe_response e = match response with
                  | Ok resp => ParsedSuccess (as_bytes (payload resp))
                  | Err message => ParsedError message
                  end.

Lemma errors_of_oks {A} (l : list A) : errors_of (Ok <$> l) = [].
Proof. by induction l. Qed.

Lemma oks_of_oks {A} (l : list A) : oks_of (Ok <$> l) = l.
Proof. induction l as [|a l IH]; simpl; [done|]. by f_equal. Qed.

Lemma answers_length {H} `{RH : !Responder H} reqs h rs h' :
  answers reqs h = (Reply <$> rs, h') → length reqs = length rs.
Proof.
  revert h rs. induction reqs as [|req reqs IH]; intros h rs Ha; simpl in *.
  { by destruct rs. }
  destruct (respond h req) as [o h1]. destruct (answers reqs h1) as [os h2] eqn:Hos.
  destruct rs as [|r rs]; simplify_eq/=. f_equal. by eapply IH.
Qed.

Lemma exchange_parsed `{SL : !SessionYamlLaws} now now' req response :
  timeless req → is_ok (request_to_yaml req) → utf8_answer response →
  ∃ x e, exchange_of now req response = Ok x ∧ parse_exchange now' x = Some e ∧
    answers_with req response e.
Proof.
  intros Ht Hy Hu. destruct (request_to_yaml req) as [text|] eqn:Htext; [|done].
  assert (to_wire now req = req) as Hw by by destruct req.
  assert (of_wire now' req = Ok req) as Hr by by destruct req.
  assert (request_text now req = Ok text) as Hrt by by rewrite /request_text Hw Htext.
  pose proof (request_yaml_round_trip _ _ Htext) as Hback.
  rewrite /exchange_of Hrt /=. destruct response as [resp|message].
  - simpl in Hu. destruct (from_utf8 _) as [s|] eqn:Hs; [|done]. simpl.
    eexists _, _. split; [done|]. rewrite /parse_exchange /= Hback /= Hr. split; [done|].
    split; [done|]. simpl. by rewrite (from_utf8_Ok _ _ Hs).
  - eexists _, _. split; [done|]. rewrite /parse_exchange /= Hback /= Hr. split; [done|]. done.
Qed.

Lemma session_parsed `{SL : !SessionYamlLaws} now' msgs responses :
  length msgs = length responses →
  Forall (λ m, timeless m.2 ∧ is_ok (request_to_yaml m.2)) msgs →
  Forall utf8_answer responses →
  ∃ xs es, zip_with (λ m r, exchange_of m.1 m.2 r) msgs responses = Ok <$> xs ∧
    mapM (parse_exchange now') xs = Some es ∧
    Forall2 (λ mr e, answers_with mr.1 mr.2 e) (zip (snd <$> msgs) responses) es.
Proof.
  revert responses. induction msgs as [|[now req] msgs IH]; intros [|r responses] Hlen Hm Hr;
    simplify_eq/=.
  { exists [], []. repeat split. constructor. }
  apply Forall_cons in Hm as [[Ht Hy] Hm]. apply Forall_cons in Hr as [Hu Hr].
  destruct (IH responses Hlen Hm Hr) as (xs & es & -> & Hes & Hall).
  destruct (exchange_parsed now now' req r Ht Hy Hu) as (x & e & -> & He & Ha).
  exists (x :: xs), (e :: es). split; [done|]. simpl. rewrite He Hes. split; [done|]. by constructor.
Qed.

Lemma produce_answer req response e exchanges i :
  (i + 1 < usize_modulus)%N → exchanges !! N.to_nat i = Some e → answers_with req response e →
  produce_recorded_response req exchanges i = (response, (i + 1)%N).
Proof.
  intros Hi He [Hq Hr]. rewrite /produce_recorded_response /= He. rewrite decide_True; [|done].
  rewrite N.mod_small; [|done]. rewrite Hr. f_equal.
  destruct response as [[p]|]; simpl; [by rewrite of_bytes_as_bytes|done].
Qed.

#[local] Opaque produce_recorded_response.

Lemma replay_messages pre es msgs responses events :
  (N.of_nat (length (pre ++ es)) < usize_modulus)%N →
  length msgs = length responses →
  Forall2 (λ mr e, answers_with mr.1 mr.2 e) (zip (snd <$> msgs) responses) es →
  replay_loop (pre ++ es) ((ReplayMessage <$> messages msgs) ++ events) (N.of_nat (length pre)) =
  app responses <$> replay_loop (pre ++ es) events (N.of_nat (length (pre ++ es))).
Proof.
  revert pre es responses. induction msgs as [|[now req] msgs IH];
    intros pre es [|r responses] Hlt Hlen Hall; simplify_eq/=.
  { inversion Hall. subst. rewrite app_nil_r. by destruct (replay_loop _ _ _). }
  inversion Hall as [|? e ? es' He Hes]; subst. simpl in He.
  assert ((pre ++ e :: es') !! N.to_nat (N.of_nat (length pre)) = Some e) as Hlk.
  { rewrite Nat2N.id. by apply list_lookup_middle. }
  assert (N.of_nat (length pre) + 1 < usize_modulus)%N as Hi.
  { rewrite length_app /= in Hlt. lia. }
  rewrite (produce_answer req r e _ _ Hi Hlk He).
  rewrite (cons_middle e pre es') app_assoc in Hlt |- *.
  replace (N.of_nat (length pre) + 1)%N with (N.of_nat (length (pre ++ [e])));
    [|rewrite length_app /=; lia].
  rewrite (IH _ _ responses); [|done..]. by destruct (replay_loop _ _ _).
Qed.

#[local] Transparent produce_recorded_response.

Lemma replay_rounds es msgs responses n :
  (N.of_nat (length es) < usize_modulus)%N → length msgs = length responses →
  Forall2 (λ mr e, answers_with mr.1 mr.2 e) (zip (snd <$> msgs) responses) es →
  ∀ c, replay_loop es (mjoin (replicate n (ReplayReset :: (ReplayMessage <$> messages msgs)))) c =
  Some (mjoin (replicate n responses)).
Proof.
  intros Hlt Hlen Hall. induction n as [|n IH]; intros c; [done|]. simpl.
  rewrite (replay_messages [] es msgs responses); [|done..]. simpl. by rewrite IH.
Qed.

(** ** Requests that carry an instant *)

(** A request about the changes since an instant is saved with the time elapsed since it.
    When the session is loaded the instant is counted back from that moment, so it has
    moved by the time between the two, and the same request is refused unless none has
    passed. *)
Theorem instant_request_moves `{SL : !SessionYamlLaws} now now' api_version kind ls fs masks since
    response text e
    (Hpast : (since ≤ now)%Z)
    (Htext : request_text now
       (HasKubernetesListResourceAllResultChangedSinceInstant api_version kind ls fs masks since) = Ok text)
    (Hload : parse_exchange now' {| ex_request := text; ex_response := response |} = Some e) :
  pe_request e = HasKubernetesListResourceAllResultChangedSinceInstant api_version kind ls fs masks
    (since + (now' - now))%Z ∧
  (is_ok (produce_recorded_response
     (HasKubernetesListResourceAllResultChangedSinceInstant api_version kind ls fs masks since) [e] 0).1 →
   now' = now).
Proof.
  rewrite /request_text in Htext. apply map_err_Ok, request_yaml_round_trip in Htext.
  rewrite /parse_exchange Htext /= /deserialize_instant /checked_sub in Hload.
  case_decide; simplify_eq/=. rewrite /serialize_instant /elapsed.
  replace (now' - Z.max 0 (now - since))%Z with (since + (now' - now))%Z by lia.
  split; [done|]. rewrite /produce_recorded_response /=. case_decide as Heq; [|done]. intros _.
  injection Heq. lia.
Qed.
(** C21. A session whose file can be created and written is replayed faithfully, as many times as it
    is reset: when its requests carry no instant and can be written as YAML, and the answers are
    UTF-8, the same requests get the same answers, errors included, at any later time and without any
    handler. A recorded request about the changes since an instant is the exception: its instant
    moves by the time between saving and loading, and the same request is refused unless
    no time has passed. *)
Theorem replay_reproduces_recording {H} `{RH : !Responder H, SL : !SessionYamlLaws}
    destination msgs h fs responses fs' now' n
    (Hloop : loop_eval_recoder destination (messages msgs ++ [ProxyShutdown])
       {| rec_exchanges := []; rec_handler := h |} fs = Some (responses, fs'))
    (Hcreate : can_create fs destination = true)
    (Hrequests : Forall (λ m, timeless m.2 ∧ is_ok (request_to_yaml m.2)) msgs)
    (Hanswers : Forall utf8_answer responses)
    (Hwritten : ∀ l, (session_to_yaml l).2 = Ok tt)
    (Hlength : (N.of_nat (length msgs) < usize_modulus)%N) :
  loop_eval_replay now' destination fs'
    (mjoin (replicate n (ReplayReset :: (ReplayMessage <$> messages msgs)))) =
  Some (mjoin (replicate n responses)) ∧
  ∀ now api_version kind ls fields masks since text response e,
    let changes := HasKubernetesListResourceAllResultChangedSinceInstant api_version kind ls fields masks in
    (since ≤ now)%Z → request_text now (changes since) = Ok text →
    parse_exchange now' {| ex_request := text; ex_response := response |} = Some e →
    pe_request e = changes (since + (now' - now))%Z ∧
    (is_ok (produce_recorded_response (changes since) [e] 0).1 → now' = now).
Proof.
  split; [|intros; by eapply instant_request_moves].
  destruct (recorder_panics _ _ _ _ _ _ _ _ Hloop) as (rs & h' & Ha).
  pose proof (answers_length _ _ _ _ Ha) as Hlen. rewrite length_fmap in Hlen.
  rewrite (recorder_messages _ _ _ _ _ _ _ Ha) in Hloop. simplify_eq/=.
  destruct (session_parsed now' msgs responses Hlen Hrequests Hanswers) as (xs & es & Hx & He & Hall).
  rewrite Hx. rewrite /loop_eval_replay /load_session /dump_records.
  rewrite errors_of_oks Hcreate oks_of_oks /= lookup_insert_eq /=.
  rewrite (session_yaml_round_trip xs (session_to_yaml xs).1).
  - rewrite He /=. apply replay_rounds; [|done..].
    apply Forall2_length in Hall. rewrite length_zip_with length_fmap in Hall. lia.
  - specialize (Hwritten xs). destruct (session_to_yaml xs). simpl in *. by subst.
Qed.
End facts.

(** ** Examples *)

(** A text format: requests to resolve a name and requests about changes are tagged, a
    session is the code of its exchanges in binary. *)
Module SessionExample.
#[export] Instance unit_types : SdkTypes :=
  {| KeylessInfo := unit; KeylessPrefixInfo := unit; SubjectAccessReview := unit;
     CertificateVerificationRequest := unit |}.
#[export] Instance unit_eq : SdkEq.
Proof. split; simpl; apply _. Defined.
#[export] Instance no_past : Monotonic := {| first_instant := 0%Z |}.

Fixpoint pos_text (p : positive) : string :=
  match p with
  | xH => ""
  | xO p => String "0"%char (pos_text p)
  | xI p => String "1"%char (pos_text p)
  end.

Fixpoint text_pos (s : string) : positive :=
  match s with
  | EmptyString => xH
  | String c s => if decide (c = "0"%char) then xO (text_pos s) else xI (text_pos s)
  end.

Lemma text_pos_text p : text_pos (pos_text p) = p.
Proof. induction p; simpl; by rewrite ?IHp. Qed.

Definition code_of (e : Exchange) : string * (string + string) :=
  (ex_request e, match ex_response e with Success p => inl p | Error m => inr m end).

Definition of_code (c : string * (string + string)) : Exchange :=
  {| ex_request := c.1; ex_response := match c.2 with inl p => Success p | inr m => Error m end |}.

Definition write_request (req : CallbackRequestType) : result string string :=
  match req with
  | DNSLookupHost host => Ok ("d" +:+ host)
  | HasKubernetesListResourceAllResultChangedSinceInstant "v1" "Pod" None None None d =>
      if decide (0 ≤ d)%Z then Ok ("c" +:+ pos_text (encode (Z.to_N d))) else Err "unsupported"
  | _ => Err "unsupported"
  end.

Definition read_request (text : string) : result CallbackRequestType string :=
  match text with
  | String c text =>
      if decide (c = "d"%char) then Ok (DNSLookupHost text)
      else match decode (text_pos text) with
           | Some d => Ok (HasKubernetesListResourceAllResultChangedSinceInstant "v1" "Pod" None None None
                             (Z.of_N d))
           | None => Err "unsupported"
           end
  | EmptyString => Err "unsupported"
  end.

#[export] Instance coded_yaml : SessionYaml := {|
  request_to_yaml := write_request;
  request_of_yaml := read_request;
  session_to_yaml l := (pos_text (encode (code_of <$> l)), Ok tt);
  session_of_yaml text :=
    match decode (text_pos text) with
    | Some l => Ok (of_code <$> l)
    | None => Err "invalid session"
    end;
  debug_request _ := "request";
|}.

#[export] Instance coded_yaml_laws : SessionYamlLaws.
Proof.
  split.
  - intros req text H. simpl in *. rewrite /write_request in H.
    destruct req; try done; simplify_eq/=.
    + done.
    + repeat (case_match; try done). simplify_eq/=. rewrite text_pos_text decode_encode. 
      do 2 f_equal. lia.
  - intros l text H. simplify_eq/=. rewrite text_pos_text decode_encode. f_equal.
    rewrite -list_fmap_compose. induction l as [|[q [p|m]] l IH]; [done|..]; simpl; by f_equal.
Qed.

(** A handler that resolves one name and counts its requests. *)
#[export] Instance resolver : Responder nat := λ n req,
  (Reply (match req with
          | DNSLookupHost "kubewarden.io" => Ok {| payload := "[192.0.2.1]" |}
          | _ => Err "unknown host"
          end), S n).

Definition no_files : FileSystem := {| contents := ∅; can_create _ := true |}.

Definition example_messages : list (Instant * CallbackRequestType) :=
  [(5%Z, DNSLookupHost "kubewarden.io"); (7%Z, DNSLookupHost "elsewhere")].
End SessionExample.

Section witnesses.
Import SessionExample.

Lemma recording_is_transparent_witness :
  ∃ fs', loop_eval_recoder "session.yaml" (messages example_messages ++ [ProxyShutdown])
    {| rec_exchanges := []; rec_handler := 0 |} no_files =
      Some ([Ok {| payload := "[192.0.2.1]" |}; Err "unknown host"], fs') ∧
  (answers (snd <$> example_messages) 0).1 =
    Reply <$> [Ok {| payload := "[192.0.2.1]" |}; Err "unknown host"].
Proof.
  eexists. split; [reflexivity|].
  eapply (recording_is_transparent "session.yaml" example_messages 0 no_files). reflexivity.
Defined.

Lemma replay_reproduces_recording_witness :
  ∃ fs', loop_eval_recoder "session.yaml" (messages example_messages ++ [ProxyShutdown])
    {| rec_exchanges := []; rec_handler := 0 |} no_files =
      Some ([Ok {| payload := "[192.0.2.1]" |}; Err "unknown host"], fs') ∧
  loop_eval_replay 100%Z "session.yaml" fs'
    (mjoin (replicate 2 (ReplayReset :: (ReplayMessage <$> messages example_messages)))) =
  Some [Ok {| payload := "[192.0.2.1]" |}; Err "unknown host";
        Ok {| payload := "[192.0.2.1]" |}; Err "unknown host"].
Proof.
  eexists. split; [reflexivity|].
  refine (proj1 (replay_reproduces_recording "session.yaml" example_messages 0 no_files
    [Ok {| payload := "[192.0.2.1]" |}; Err "unknown host"] _ 100%Z 2 _ _ _ _ _ _));
    [reflexivity|reflexivity|repeat constructor|repeat constructor|reflexivity|reflexivity].
Defined.

Lemma instant_request_moves_witness :
  ∃ e, parse_exchange 20%Z {| ex_request := "c" +:+ pos_text (encode 4%N); ex_response := Success "false" |} = Some e ∧
    pe_request e = HasKubernetesListResourceAllResultChangedSinceInstant "v1" "Pod" None None None 16%Z.
Proof.
  eexists. split; [reflexivity|].
  eapply (instant_request_moves 10%Z 20%Z "v1" "Pod" None None None 6%Z (Success "false")
    ("c" +:+ pos_text (encode 4%N))); [lia|reflexivity|reflexivity].
Defined.
End witnesses.
