(* ===== verification/CommandLine.v ===== *)
(** * The options of the two programs

    Models [Config::from_args] of [crates/policy-server/src/config.rs] and, for [kwctl],
    [config/verification.rs], [config/sources.rs] and the memory limit of
    [config/pull_and_run.rs] (under [crates/kwctl/src/]): what the flags and the files they
    name are turned into.

    The flags are the records [ServerArgs] and [VerificationArgs], which [ServerCli] and
    [KwctlMain] read in the matches of [clap]. The files, the YAML of the policies and of the sources, and
    [SocketAddr] are the parameter [CliEnv]. *)

From S2P Require Import Prelude Bytes Json PolicyId Request HostCapabilities Callback Config RustStr.
From S2P Require Import VerificationConstraints Sources Registry Fetcher Verify Certs.

Class CliEnv := {
  SocketAddr : Type;
  parse_socket_addr : string → result SocketAddr string;
  num_cpus : Z;
  (** [fs::read_to_string] and [Path::exists] *)
  read_text : string → result string string;
  file_exists : string → bool;
  (** opening and deserializing the policies and the sources *)
  yaml_policies : string → result (gmap string PolicyOrPolicyGroup) string;
  yaml_sources : string → result RawSources SourceError;
  (** [DEFAULT_ROOT.config_dir()] *)
  config_dir : string;
}.

(** ** Files both programs read *)

Section files.
Context `{HI : HashIter, UL : UrlLib, SG : Sigstore, YL : !YamlLib, SE : SourceEnv, CE : CliEnv}.

Definition read_verification_file (path : string) : result VerificationConfigV1 VerifyError :=
  let? config := map_err VerificationFileReadError (read_text path) in
  build_latest_verification_config config.

Definition read_sources_file (path : string) : result Sources SourceError :=
  let? raw := yaml_sources path in
  Sources_try_from raw.

(** The proxies of the environment replace those of the file. *)
Definition inject_proxies (s : Sources) : Sources :=
  {| insecure_sources := insecure_sources s; source_authorities := source_authorities s;
     source_proxies := Some ProxyConfig_from_env |}.

(** The process environment, which the Docker option changes. *)
Notation ProcessEnv := (gmap string string).

Definition DOCKER_CONFIG_ENV_VAR : string := "DOCKER_CONFIG".

Definition set_docker_config (docker_config_json_path : option string) (env : ProcessEnv) : ProcessEnv :=
  match docker_config_json_path with
  | Some path => <[DOCKER_CONFIG_ENV_VAR := path]> env
  | None => env
  end.

(** ** The policy server *)

Record ServerArgs := {
  sa_address : string;
  sa_port : string;
  sa_readiness_probe_port : string;
  sa_policies : string;
  sa_policies_download_dir : string;
  sa_disable_timeout_protection : bool;
  sa_policy_timeout : string;
  sa_disable_memory_limit : bool;
  sa_policy_memory_limit : string;
  sa_sources_path : option string;
  sa_docker_config_json_path : option string;
  sa_workers : option string;
  sa_always_accept_namespace : option string;
  sa_enable_metrics : bool;
  sa_ignore_kubernetes_connection_failure : bool;
  sa_verification_path : option string;
  sa_sigstore_cache_dir : string;
  sa_sigstore_trust_config : option string;
  sa_cert_file : option string;
  sa_key_file : option string;
  sa_client_ca_file : option (list string);
  sa_enable_pprof : bool;
  sa_continue_on_errors : bool;
}.

(** [Config], without the options of the log and of the daemon, which are copied. *)
Record ServerSettings := {
  ss_addr : SocketAddr;
  ss_readiness_probe_addr : SocketAddr;
  ss_sources : option Sources;
  ss_policies : gmap string PolicyOrPolicyGroup;
  ss_policies_download_dir : string;
  ss_ignore_kubernetes_connection_failure : bool;
  ss_always_accept_namespace : option string;
  ss_evaluation_limit_seconds : option Z;
  ss_memory_limit_bytes : option Z;
  ss_tls_config : option TlsConfig;
  ss_pool_size : Z;
  ss_metrics_enabled : bool;
  ss_sigstore_cache_dir : string;
  ss_sigstore_trust_config_path : option string;
  ss_verification_config : option VerificationConfigV1;
  ss_enable_pprof : bool;
  ss_continue_on_errors : bool;
}.

Definition bind_address (address port : string) : result SocketAddr string :=
  map_err (λ e, "error parsing arguments: " +:+ e) (parse_socket_addr (address +:+ ":" +:+ port)).

Definition PolicyNameError_to_string (e : PolicyNameError) : string :=
  match e with
  | PolicyNameWithSlash name => "policy name '" +:+ name +:+ "' contains a '/' character"
  | GroupMembersWithSlash group names =>
      "policy group '" +:+ group +:+ "' contains policies with invalid names: [" +:+
      join ", " (debug_str <$> names) +:+ "]"
  end.

Definition policies (policies_file : string) : result (gmap string PolicyOrPolicyGroup) string :=
  let? policies := map_err (λ e, "error while loading policies from " +:+ debug_str policies_file
    +:+ ": " +:+ e) (yaml_policies policies_file) in
  let? _ := map_err PolicyNameError_to_string (validate_policies policies) in
  Ok policies.

Definition verification_config (path : option string) : result (option VerificationConfigV1) string :=
  match path with
  | None => Ok None
  | Some path => map_err VerifyError_to_string (res_map Some (read_verification_file path))
  end.

Definition server_sources (sources_path : option string) : result (option Sources) string :=
  let? sources := match sources_path with
    | Some sources_file =>
        map_err (λ e, "error while loading sources from " +:+ sources_file +:+ ": " +:+ SourceError_to_string e)
          (res_map Some (read_sources_file sources_file))
    | None => Ok None
    end in
  Ok (inject_proxies <$> sources).

(** The workers: the [expect] of a number that cannot be parsed is [None]. *)
Definition pool_size (workers : option string) : option Z :=
  match workers with
  | None => Some num_cpus
  | Some v => match parse_unsigned usize_bound v with Ok n => Some n | Err _ => None end
  end.

(** [Config::from_args]; [None] is a panic. The environment is changed by the sources. *)
Definition from_args (a : ServerArgs) (env : ProcessEnv) :
    option (result ServerSettings string * ProcessEnv) :=
  let before :=
    let? addr := bind_address (sa_address a) (sa_port a) in
    let? readiness_probe_addr := bind_address (sa_address a) (sa_readiness_probe_port a) in
    let? policies := policies (sa_policies a) in
    let? seconds := policy_evaluation_limit_seconds_of (sa_disable_timeout_protection a)
      (sa_policy_timeout a) in
    let? memory := policy_memory_limit_bytes_of (sa_disable_memory_limit a) (sa_policy_memory_limit a) in
    let? sources := server_sources (sa_sources_path a) in
    Ok (addr, readiness_probe_addr, policies, seconds, memory, sources) in
  match before with
  | Err e => Some (Err e, env)
  | Ok (addr, readiness_probe_addr, policies, seconds, memory, sources) =>
      let env := set_docker_config (sa_docker_config_json_path a) env in
      match pool_size (sa_workers a) with
      | None => None
      | Some pool_size => Some (
          let? verification_config := verification_config (sa_verification_path a) in
          let? tls_config := build_tls_config (sa_cert_file a) (sa_key_file a) (sa_client_ca_file a) in
          Ok {| ss_addr := addr; ss_readiness_probe_addr := readiness_probe_addr;
                ss_sources := sources; ss_policies := policies;
                ss_policies_download_dir := sa_policies_download_dir a;
                ss_ignore_kubernetes_connection_failure := sa_ignore_kubernetes_connection_failure a;
                ss_always_accept_namespace := sa_always_accept_namespace a;
                ss_evaluation_limit_seconds := seconds; ss_memory_limit_bytes := memory;
                ss_tls_config := tls_config; ss_pool_size := pool_size;
                ss_metrics_enabled := sa_enable_metrics a;
                ss_sigstore_cache_dir := sa_sigstore_cache_dir a;
                ss_sigstore_trust_config_path := sa_sigstore_trust_config a;
                ss_verification_config := verification_config;
                ss_enable_pprof := sa_enable_pprof a;
                ss_continue_on_errors := sa_continue_on_errors a |}, env)
      end
  end.

(** ** [kwctl]: sources *)

Definition kwctl_sources (sources_path : option string) : result (option Sources) SourceError :=
  let? sources := match sources_path with
    | Some path => res_map Some (read_sources_file path)
    | None =>
        let path := config_dir +:+ "/sources.yaml" in
        if file_exists path then res_map Some (read_sources_file path) else Ok None
    end in
  Ok (inject_proxies <$> sources).

Definition remote_server_options (sources_path docker_config_json_path : option string)
    (env : ProcessEnv) : result (option Sources) SourceError * ProcessEnv :=
  match kwctl_sources sources_path with
  | Err e => (Err e, env)
  | Ok sources => (Ok sources, set_docker_config docker_config_json_path env)
  end.

(** ** [kwctl]: what has to be verified *)

Record VerificationArgs := {
  va_keys : option (list string);
  va_annotations : option (list string);
  va_cert_email : option (list string);
  va_cert_oidc_issuer : option (list string);
  va_github_owner : option (list string);
  va_github_repo : option (list string);
  va_config_path : option string;
}.

(** [collect::<String>()] puts the values one after the other. *)
Definition collected (o : option (list string)) : option string := String.concat "" <$> o.

(** [splitn(2, '=')] has two pieces when there is a separator. *)
Definition split_annotation (item : string) : option (string * string) :=
  match split item "="%char with
  | key :: (_ :: _) as rest => Some (key, join "=" (tail rest))
  | _ => None
  end.

Definition annotations_of_flags (items : option (list string)) : option (gmap string string) :=
  match items with
  | None => None
  | Some items =>
      let values := foldl (λ values item, match split_annotation item with
          | Some (k, v) => <[k := v]> values
          | None => values
          end) ∅ items in
      if decide (values = ∅) then None else Some values
  end.

Definition is_none {A} (o : option A) : bool := match o with None => true | Some _ => false end.

Definition flag_conflict (f : VerificationArgs) (annotations : option (gmap string string)) : option string :=
  let email := collected (va_cert_email f) in
  let issuer := collected (va_cert_oidc_issuer f) in
  let owner := collected (va_github_owner f) in
  if is_none (va_keys f) && is_none email && is_none issuer && is_none owner && negb (is_none annotations)
  then Some "Intending to verify annotations, but no verification keys, OIDC issuer or GitHub owner were passed"
  else if negb (is_none (collected (va_github_repo f))) && is_none owner
  then Some "Intending to verify GitHub actions signature, but the repository owner is missing."
  else if negb (Bool.eqb (is_none email) (is_none issuer))
  then Some ("Intending to verify OIDC issuer, but no email or issuer were provided. " +:+
             "You must pass the email and OIDC issuer to be validated together ")
  else None.

Definition key_signature (annotations : option (gmap string string)) (key_path : string) :
    result Signature string :=
  let? key := map_err (λ e, "could not read file " +:+ key_path +:+ ": " +:+ e) (read_text key_path) in
  Ok (PubKey None key annotations).

Definition build_verification_options_from_flags (f : VerificationArgs) :
    result (option VerificationConfigV1) string :=
  let annotations := annotations_of_flags (va_annotations f) in
  let email := collected (va_cert_email f) in
  let issuer := collected (va_cert_oidc_issuer f) in
  let owner := collected (va_github_owner f) in
  let repo := collected (va_github_repo f) in
  if is_none (va_keys f) && is_none annotations && is_none email && is_none issuer
     && is_none owner && is_none repo
  then Ok None else
  match flag_conflict f annotations with
  | Some e => Err e
  | None =>
      let keyless := match email, issuer with
        | Some email, Some issuer => [GenericIssuer issuer (SubjectEqual email) annotations]
        | _, _ => []
        end in
      let github := match owner with
        | Some owner => [GithubAction owner repo annotations]
        | None => []
        end in
      let? keys := try_fold (λ sigs path, let? s := key_signature annotations path in Ok (sigs ++ [s])) []
        (unwrap_or [] (va_keys f)) in
      let signatures := keyless ++ github ++ keys in
      Ok (Some {| all_of := match signatures with [] => None | _ => Some signatures end;
                  any_of := None |})
  end.

Definition KWCTL_VERIFICATION_CONFIG : string := "verification-config.yml".

Definition build_verification_options (f : VerificationArgs) :
    result (option VerificationConfigV1) string :=
  let? from_flags := build_verification_options_from_flags f in
  match from_flags with
  | Some config =>
      if is_none (va_config_path f) then Ok (Some config) else
      Err "verification-config-path cannot be used in conjunction with other verification flags"
  | None =>
      match va_config_path f with
      | Some path => map_err VerifyError_to_string (res_map Some (read_verification_file path))
      | None =>
          let path := config_dir +:+ "/" +:+ KWCTL_VERIFICATION_CONFIG in
          if file_exists path
          then map_err VerifyError_to_string (res_map Some (read_verification_file path))
          else Ok None
      end
  end.
End files.

(** ** Properties *)

Section facts.
Context `{HI : HashIter, UL : UrlLib, SG : Sigstore, YL : !YamlLib, SE : SourceEnv, CE : CliEnv}.

(** What the server is started with, once the flags are accepted. *)
Lemma from_args_Ok a env s env' :
  from_args a env = Some (Ok s, env') →
  policies (sa_policies a) = Ok (ss_policies s) ∧
  server_sources (sa_sources_path a) = Ok (ss_sources s) ∧
  policy_memory_limit_bytes_of (sa_disable_memory_limit a) (sa_policy_memory_limit a) =
    Ok (ss_memory_limit_bytes s) ∧
  policy_evaluation_limit_seconds_of (sa_disable_timeout_protection a) (sa_policy_timeout a) =
    Ok (ss_evaluation_limit_seconds s) ∧
  verification_config (sa_verification_path a) = Ok (ss_verification_config s) ∧
  build_tls_config (sa_cert_file a) (sa_key_file a) (sa_client_ca_file a) = Ok (ss_tls_config s).
Proof.
  unfold from_args. destruct (let? addr := _ in _) as [[[[[[addr ready] ps] secs] mem] srcs]|e] eqn:Hb;
    [|done]. destruct (pool_size _); [|done]. intros Hs. injection Hs as Hs Henv.
  res_simpl. done.
Qed.

Lemma policies_names_ok file ps : policies file = Ok ps → names_ok ps.
Proof.
  unfold policies. intros H. apply res_bind_Ok in H as (ps' & _ & H).
  apply res_bind_Ok in H as ([] & Hv & [= ->]). apply map_err_Ok in Hv. by apply validate_policies_spec.
Qed.

Lemma tls_client_ca cert key cas cfg :
  build_tls_config cert key (Some cas) = Ok cfg → ∃ t, cfg = Some t ∧ client_ca_file t = cas.
Proof. destruct cert, key; simpl; intros H; simplify_eq. by eexists. Qed.

(** Options that are accepted are honoured: the names of the policies can be told apart
    in URLs, a verification file that is named is in force and was read whole, the
    client CAs are those that were named, and the memory limit is off only on demand. *)
Theorem server_settings_sound a env s env' (Hargs : from_args a env = Some (Ok s, env')) :
  names_ok (ss_policies s) ∧
  (∀ path, sa_verification_path a = Some path → ∃ text config,
     read_text path = Ok text ∧ build_latest_verification_config text = Ok config ∧
     ss_verification_config s = Some config) ∧
  (∀ cas, sa_client_ca_file a = Some cas → ∃ t, ss_tls_config s = Some t ∧ client_ca_file t = cas) ∧
  (ss_memory_limit_bytes s = None ↔ sa_disable_memory_limit a = true).
Proof.
  destruct (from_args_Ok _ _ _ _ Hargs) as (Hp & _ & Hmem & _ & Hver & Htls). split_and!.
  - by eapply policies_names_ok.
  - intros path Hpath. rewrite Hpath /= in Hver. unfold read_verification_file in Hver.
    apply map_err_Ok, res_map_Ok in Hver as (config & Hc & ->).
    apply res_bind_Ok in Hc as (text & Ht & Hc). apply map_err_Ok in Ht. by exists text, config.
  - intros cas Hcas. rewrite Hcas in Htls. by eapply tls_client_ca.
  - unfold policy_memory_limit_bytes_of in Hmem. destruct (sa_disable_memory_limit a).
    { by simplify_eq. }
    apply res_bind_Ok in Hmem as (n & _ & Hn). case_decide; [done|]. injection Hn as Hn.
    by rewrite -Hn.
Qed.

(** C22. From the flag to the sockets: a server that was given client CAs asks every client
    for a certificate, whatever happens to the files while it runs. *)
Theorem configured_client_auth_holds `{TL : !TlsLib} a env s env' cas cfg inotify fs watches w0 events
    (Hargs : from_args a env = Some (Ok s, env'))
    (Hcas : sa_client_ca_file a = Some cas) (Hne : cas ≠ [])
    (Htls : ss_tls_config s = Some cfg)
    (Hstart : start cfg inotify fs = Ok (watches, w0)) :
  is_Some (sc_client_verifier (w_served (watch cfg watches w0 events).1)).
Proof.
  destruct (from_args_Ok _ _ _ _ Hargs) as (_ & _ & _ & _ & _ & Hb). rewrite Hcas Htls in Hb.
  destruct (tls_client_ca _ _ _ _ Hb) as (t & [= <-] & Ht).
  pose proof (watch_ok cfg watches [fs] w0 events (start_ok _ _ _ _ _ Hstart)) as [_ _ _ [_ _ _ Hv]].
  destruct (sc_client_verifier _); [done|]. simpl in Hv. congruence.
Qed.

(** *** The verification flags of [kwctl] *)

Lemma key_signatures_fold annotations paths acc sigs :
  try_fold (λ sigs path, let? s := key_signature annotations path in Ok (sigs ++ [s])) acc paths = Ok sigs →
  acc ⊆ sigs ∧ ∀ path, path ∈ paths → ∃ key, read_text path = Ok key ∧ PubKey None key annotations ∈ sigs.
Proof.
  revert acc. induction paths as [|p paths IH]; intros acc H; simpl in H.
  { simplify_eq. split; [done|]. by intros ? ?%elem_of_nil. }
  apply res_bind_Ok in H as (acc' & Hp & H). apply res_bind_Ok in Hp as (sig & Hs & Hp). simplify_eq.
  destruct (IH _ H) as [Hsub Hall]. unfold key_signature in Hs.
  apply res_bind_Ok in Hs as (key & Hkey & Hs). apply map_err_Ok in Hkey. simplify_eq.
  split; [intros x Hx; apply Hsub, elem_of_app; by left|].
  intros path [->|Hin]%elem_of_cons; [|by apply Hall]. exists key. split; [done|].
  apply Hsub, elem_of_app. right. by apply list_elem_of_singleton.
Qed.

(** The flags ask for every signature they name, with all the annotations: layers that
    meet the configuration carry one for each key file, for the identity and for the
    repository, and there is at least one. *)
Theorem flags_require_every_signature f config layers
    (Hflags : build_verification_options_from_flags f = Ok (Some config))
    (Hsat : config_satisfied config layers) :
  let annotations := annotations_of_flags (va_annotations f) in
  (∀ keys path, va_keys f = Some keys → path ∈ keys →
     ∃ key, read_text path = Ok key ∧ satisfied layers (PubKey None key annotations)) ∧
  (∀ email, collected (va_cert_email f) = Some email → ∃ issuer,
     collected (va_cert_oidc_issuer f) = Some issuer ∧
     satisfied layers (GenericIssuer issuer (SubjectEqual email) annotations)) ∧
  (∀ owner, collected (va_github_owner f) = Some owner →
     satisfied layers (GithubAction owner (collected (va_github_repo f)) annotations)) ∧
  ∃ s, satisfied layers s.
Proof.
  intros annotations. unfold build_verification_options_from_flags in Hflags. fold annotations in Hflags.
  case_match; [done|]. destruct (flag_conflict f annotations) eqn:Hconf; [done|].
  apply res_bind_Ok in Hflags as (keys & Hkeys & Hc). simplify_eq.
  apply key_signatures_fold in Hkeys as [_ Hkeys].
  set (signatures := _ ++ _ ++ keys) in *.
  destruct Hsat as (Hsome & Hall & _). simpl in *.
  assert (signatures ≠ []) as Hne by (intros Hnil; rewrite Hnil in Hsome; naive_solver).
  assert (∀ s, s ∈ signatures → satisfied layers s) as Hin.
  { rewrite -Forall_forall. apply Hall. by destruct signatures. }
  split_and!.
  - intros l path Hl Hp. rewrite Hl /= in Hkeys. destruct (Hkeys path Hp) as (key & ? & ?).
    exists key. split; [done|]. apply Hin. unfold signatures. rewrite !elem_of_app. auto.
  - intros email He. unfold flag_conflict in Hconf. rewrite He in Hconf. simpl in Hconf.
    destruct (collected (va_cert_oidc_issuer f)) as [issuer|] eqn:Hi.
    + exists issuer. split; [done|]. apply Hin. unfold signatures. rewrite He.
      apply elem_of_app. left. by apply list_elem_of_singleton.
    + repeat case_match; simplify_eq.
  - intros owner Ho. apply Hin. unfold signatures. rewrite Ho. rewrite !elem_of_app. right. left.
    by apply list_elem_of_singleton.
  - destruct signatures as [|s l]; [done|]. exists s. apply Hin. by left.
Qed.

(** An annotation without [=] is dropped without a word: flags that ask for annotations
    in that form build the configuration of flags that ask for none. *)
Theorem annotation_without_value_dropped f items
    (Hitems : Forall (λ item, contains_char item "="%char = false) items) :
  build_verification_options_from_flags
    {| va_keys := va_keys f; va_annotations := Some items; va_cert_email := va_cert_email f;
       va_cert_oidc_issuer := va_cert_oidc_issuer f; va_github_owner := va_github_owner f;
       va_github_repo := va_github_repo f; va_config_path := va_config_path f |} =
  build_verification_options_from_flags
    {| va_keys := va_keys f; va_annotations := None; va_cert_email := va_cert_email f;
       va_cert_oidc_issuer := va_cert_oidc_issuer f; va_github_owner := va_github_owner f;
       va_github_repo := va_github_repo f; va_config_path := va_config_path f |}.
Proof.
  assert (annotations_of_flags (Some items) = None) as Ha.
  { unfold annotations_of_flags. rewrite decide_True; [done|].
    induction items as [|item items IH]; [done|]. apply Forall_cons in Hitems as [Hi Hr].
    simpl. unfold split_annotation at 2. rewrite (split_no_sep _ _ Hi). by apply IH. }
  unfold build_verification_options_from_flags, flag_conflict.
  cbn [va_keys va_annotations va_cert_email va_cert_oidc_issuer va_github_owner va_github_repo].
  by rewrite Ha.
Qed.

(** Both programs read the proxies of the sources file and then replace them by those
    of the environment, even when the environment sets none. *)
Theorem sources_file_proxies_ignored sources_path s
    (Hs : server_sources sources_path = Ok (Some s) ∨ kwctl_sources sources_path = Ok (Some s)) :
  proxies s = ProxyConfig_from_env.
Proof.
  destruct Hs as [Hs|Hs]; apply res_bind_Ok in Hs as (o & _ & Hs); destruct o; by simplify_eq.
Qed.
End facts.

(** ** Examples *)

Section witnesses.
#[local] Existing Instance example_tls.

Definition example_cli : CliEnv := {|
  SocketAddr := string;
  parse_socket_addr s := if contains s ":" then Ok s else Err "invalid socket address syntax";
  num_cpus := 8;
  read_text path := if decide (path = "cosign.pub") then Ok "key" else
    if decide (path = "verify.yml") then Ok "apiVersion: v1, anyOf: {signatures: [key]}" else Err "No such file or directory";
  file_exists _ := false;
  yaml_policies _ := Ok ∅;
  yaml_sources _ := Ok {| raw_insecure_sources := ∅; raw_source_authorities := ∅;
    raw_proxies := Some {| http_proxy := Some "http://proxy.corp:3128"; https_proxy := None;
                           no_proxy := None |} |};
  config_dir := "/root/.config/kubewarden";
|}.

Definition example_args (verification : option string) : ServerArgs := {|
  sa_address := "0.0.0.0"; sa_port := "3000"; sa_readiness_probe_port := "8081";
  sa_policies := "policies.yml"; sa_policies_download_dir := ".";
  sa_disable_timeout_protection := false; sa_policy_timeout := "2";
  sa_disable_memory_limit := false; sa_policy_memory_limit := "256";
  sa_sources_path := Some "sources.yml"; sa_docker_config_json_path := None; sa_workers := None;
  sa_always_accept_namespace := None; sa_enable_metrics := false;
  sa_ignore_kubernetes_connection_failure := false; sa_verification_path := verification;
  sa_sigstore_cache_dir := "sigstore-data"; sa_sigstore_trust_config := None;
  sa_cert_file := Some "/pki/tls.crt"; sa_key_file := Some "/pki/tls.key";
  sa_client_ca_file := Some ["/pki/ca.crt"]; sa_enable_pprof := false;
  sa_continue_on_errors := false |}.

#[local] Existing Instance example_cli.
#[local] Existing Instance simple_yaml.

Lemma server_settings_sound_witness :
  ∃ s env', from_args (UL := simple_url) (example_args (Some "verify.yml")) ∅ = Some (Ok s, env') ∧
    ss_verification_config s = Some key_config.
Proof.
  eexists _, _. split; [reflexivity|].
  edestruct (server_settings_sound (UL := simple_url) (example_args (Some "verify.yml")) ∅)
    as (_ & Hv & _); [reflexivity|].
  destruct (Hv "verify.yml" eq_refl) as (text & config & Ht & Hc & ->).
  injection Ht as <-. injection Hc as <-. reflexivity.
Defined.

Lemma configured_client_auth_holds_witness :
  is_Some (sc_client_verifier (w_served
    (watch example_cfg example_watches example_watcher example_events).1)).
Proof.
  eapply (configured_client_auth_holds (UL := simple_url) (TL := example_tls) (example_args None) ∅ _ _ ["/pki/ca.crt"]
    example_cfg example_inotify _ _ _ example_events);
    [reflexivity|reflexivity|discriminate|reflexivity|exact example_start].
Defined.

Definition key_flags (annotations : option (list string)) : VerificationArgs := {|
  va_keys := Some ["cosign.pub"]; va_annotations := annotations; va_cert_email := None;
  va_cert_oidc_issuer := None; va_github_owner := None; va_github_repo := None;
  va_config_path := None |}.

Lemma flags_require_every_signature_witness :
  ∃ key, read_text "cosign.pub" = Ok key ∧
    satisfied (SG := simple_sigstore) [key_layer] (PubKey None key None).
Proof.
  refine (proj1 (flags_require_every_signature (UL := simple_url) (SG := simple_sigstore) (key_flags None)
    {| all_of := Some [PubKey None "key" None]; any_of := None |} [key_layer] eq_refl _)
    ["cosign.pub"] "cosign.pub" eq_refl (list_elem_of_here _ _)).
  destruct (verify_signatures_spec (UL := simple_url) (SG := simple_sigstore)
    {| all_of := Some [PubKey None "key" None]; any_of := None |} [key_layer]) as (r & Hr & Hiff).
  apply Hiff. apply (inj Some). rewrite -Hr. reflexivity.
Defined.

Lemma annotation_without_value_dropped_witness :
  build_verification_options_from_flags (UL := simple_url) (key_flags (Some ["env"])) =
  build_verification_options_from_flags (key_flags None).
Proof.
  apply (annotation_without_value_dropped (key_flags None) ["env"]).
  repeat constructor.
Defined.

Lemma sources_file_proxies_ignored_witness :
  ∃ s, server_sources (SE := simple_env) (Some "sources.yml") = Ok (Some s) ∧
    http_proxy (proxies (H := simple_env) s) = env_var "HTTP_PROXY".
Proof.
  eexists. split; [reflexivity|].
  rewrite (sources_file_proxies_ignored (SE := simple_env) (Some "sources.yml")); [reflexivity|].
  left. reflexivity.
Defined.
End witnesses.
