(* ===== verification/ServerStart.v ===== *)
(** * Starting the policy server, from its settings to its sockets

    Models [PolicyServer::new_from_config] of [crates/policy-server/src/lib.rs], with
    [create_sigstore_trustroot] and [build_sigstore_trust_root_from_config]: the trust root, the Kubernetes client, the
    callback handler, the policies ([Startup]), whether the clock of the deadlines runs, TLS
    ([Certs]) and the routes.

    The Sigstore library, the Kubernetes client and the allocator are the parameter
    [ServerEnv]. Creating the engine is taken to succeed. *)

From S2P Require Import Prelude Bytes Json PolicyId AdmissionResponse Request RustStr.
From S2P Require Import HostCapabilities Callback Runtime GroupEvaluator Config Environment Bootstrap.
From S2P Require Import VerificationConstraints Sources Registry Fetcher Verify Downloader Metadata Startup.
From S2P Require Import Service Profiling Certs CommandLine.

Class ServerEnv := {
  SigstoreTrustRoot : Type;
  (** [fs::read], [from_slice::<ClientTrustConfig>] with its [trusted_root] as JSON, and
      [from_trusted_root_json_unchecked] *)
  read_trust_config : string → result bytes string;
  trusted_root_of_config : bytes → result (option bytes) string;
  root_of_json : bytes → result SigstoreTrustRoot string;
  (** [exists] and [create_dir_all] of the cache, and [SigstoreTrustRoot::new] *)
  cache_dir_exists : string → bool;
  create_cache_dir : string → result unit string;
  root_from_tuf : string → result SigstoreTrustRoot string;
  (** [create_verifier], and the Sigstore client of the callback handler *)
  create_verifier : option Sources → SigstoreTrustRoot → result Verifier string;
  handler_sigstore_client : option Sources → option SigstoreTrustRoot → result unit string;
  (** [kube::Client::try_default] *)
  kube_try_default : result unit string;
  (** the certificate files and [inotify] *)
  start_inotify : Inotify;
  (** [PROF_CTL], and what activating it answers *)
  prof_ctl : option bool;
  prof_activate : result unit string;
}.

Inductive StartError :=
| StartText (e : string)
| StartTls (e : SetupError)
| StartProfiling (e : ReportGenerationError).

Section start.
Context `{HI0 : HashIter, UL : UrlLib, SG : Sigstore, SE : SourceEnv, OL : OciLib, HI : !HostIO}.
Context `{CC : !CosignClient, YL : !YamlLib, SH : Sha256, WT : WasmTools}.
Context `{ST : SdkTypes, PR : !PolicyRuntime, ML : !ModuleLoader, R : !Rhai}.
Context `{CE : CliEnv, TL : TlsLib, SV : ServerEnv}.
Context (default_store_root : string) (tls_files : string → result FileContents string).
Implicit Types config : ServerSettings.

(** ** Sigstore *)

Definition build_sigstore_trust_root_from_config (pki_file : string) : result SigstoreTrustRoot string :=
  let? json_bytes := map_err (λ e, "could not read Sigstore trust config file " +:+ pki_file +:+ ": " +:+ e)
    (read_trust_config pki_file) in
  let? trusted_root := map_err (λ e, "could not parse Sigstore trust config file " +:+ pki_file +:+ ": " +:+ e)
    (trusted_root_of_config json_bytes) in
  let? trust_root_bytes := ok_or trusted_root
    ("Sigstore trust config file " +:+ pki_file +:+ " missing trusted_root field") in
  root_of_json trust_root_bytes.

Definition create_sigstore_trustroot config : result SigstoreTrustRoot string :=
  match ss_sigstore_trust_config_path config with
  | Some trust_config_path => build_sigstore_trust_root_from_config trust_config_path
  | None =>
      let? _ := if cache_dir_exists (ss_sigstore_cache_dir config) then Ok tt
        else map_err (λ e, "Cannot create directory to cache sigstore data: " +:+ e)
               (create_cache_dir (ss_sigstore_cache_dir config)) in
      root_from_tuf (ss_sigstore_cache_dir config)
  end.

Definition ok {A E} (r : result A E) : option A := match r with Ok a => Some a | Err _ => None end.

(** ** The server *)

(** What [Startup.start_policies] uses of the configuration. *)
Definition policies_config config : ServerConfig :=
  {| sc_policies := ss_policies config; sc_policies_download_dir := ss_policies_download_dir config;
     sc_verification_config := ss_verification_config config;
     sc_continue_on_errors := ss_continue_on_errors config;
     sc_always_accept_namespace := ss_always_accept_namespace config;
     sc_evaluation_limit_seconds := Z.to_N <$> ss_evaluation_limit_seconds config;
     sc_memory_limit_bytes := ss_memory_limit_bytes config |}.

Record PolicyServer := {
  ps_environment : EvaluationEnvironment;
  (** the semaphore *)
  ps_permits : Z;
  (** whether the callback handler has a Kubernetes client *)
  ps_kube_client : bool;
  (** whether the engine interrupts on epochs, and whether the clock ticks *)
  ps_epoch_interruption : bool;
  ps_ticker : bool;
  ps_tls : option (list (N * RustPath.Path) * Watcher);
  (** the method and the path of each route *)
  ps_routes : list (string * string);
  ps_readiness_routes : list (string * string);
  ps_prof_active : option bool;
}.

Definition api_routes : list (string * string) :=
  [("POST", "/audit/{policy_id}"); ("POST", "/validate/{policy_id}"); ("POST", "/validate_raw/{policy_id}")].
Definition pprof_routes : list (string * string) :=
  [("GET", "/debug/pprof/cpu"); ("GET", "/debug/pprof/heap")].
Definition readiness_routes : list (string * string) := [("GET", "/readiness")].

Definition NO_KUBERNETES : string :=
  "Cannot connect to Kubernetes, context aware policies would not work properly".

(** The Kubernetes client of the handler; without one the server only starts on demand. *)
Definition kubernetes_client config : result bool StartError :=
  match kube_try_default with
  | Ok _ => Ok true
  | Err _ => if ss_ignore_kubernetes_connection_failure config then Ok false else Err (StartText NO_KUBERNETES)
  end.

(** The clients and the downloader, before anything is downloaded. *)
Definition prepare config : result (bool * Downloader) StartError :=
  let sigstore_trust_root := ok (create_sigstore_trustroot config) in
  let? kube := kubernetes_client config in
  let? _ := map_err StartText (handler_sigstore_client (ss_sources config) sigstore_trust_root) in
  let? downloader := map_err StartText
    (configured_downloader (ss_sources config) (ss_verification_config config) sigstore_trust_root create_verifier) in
  Ok (kube, downloader).

(** TLS and the profiling endpoints, after the policies. *)
Definition assemble config (kube : bool) (env : EvaluationEnvironment) : result PolicyServer StartError :=
  let? tls := match ss_tls_config config with
    | Some cfg => map_err StartTls (res_map Some (start cfg start_inotify tls_files))
    | None => Ok None
    end in
  let '(activated, prof_active) :=
    if ss_enable_pprof config then activate_memory_profiling prof_ctl prof_activate else (Ok tt, prof_ctl) in
  let? _ := map_err StartProfiling activated in
  Ok {| ps_environment := env; ps_permits := ss_pool_size config; ps_kube_client := kube;
        ps_epoch_interruption := bool_decide (is_Some (ss_evaluation_limit_seconds config));
        ps_ticker := bool_decide (is_Some (ss_evaluation_limit_seconds config)); ps_tls := tls;
        ps_routes := api_routes ++ (if ss_enable_pprof config then pprof_routes else []);
        ps_readiness_routes := readiness_routes; ps_prof_active := prof_active |}.

Definition new_from_config config (tx : Channel) : M (St * World) (result PolicyServer StartError) :=
  let!? (kube, downloader) := m_ret (prepare config) in
  let! r := start_policies default_store_root (policies_config config) downloader tx in
  let!? env := m_ret (map_err StartText r) in
  m_ret (assemble config kube env).
End start.

(** ** Properties *)

Section properties.
Context `{HI0 : HashIter, UL : UrlLib, SG : Sigstore, SE : SourceEnv, OL : OciLib, HI : !HostIO}.
Context `{CC : !CosignClient, YL : !YamlLib, SH : Sha256, WT : WasmTools}.
Context `{ST : SdkTypes, PR : !PolicyRuntime, ML : !ModuleLoader, R : !Rhai}.
Context `{CE : CliEnv, TL : TlsLib, SV : !ServerEnv}.
Context (default_store_root : string) (tls_files : string → result FileContents string).
Implicit Types config : ServerSettings.
Let new_from_config := new_from_config default_store_root tls_files.

Lemma new_from_config_Ok config tx s w server s' w' :
  new_from_config config tx (s, w) = Some (Ok server, (s', w')) →
  ∃ kube downloader env, prepare config = Ok (kube, downloader) ∧
    start_policies default_store_root (policies_config config) downloader tx (s, w) = Some (Ok env, (s', w')) ∧
    assemble tls_files config kube env = Ok server.
Proof.
  rewrite /new_from_config /ServerStart.new_from_config. intros H.
  apply mr_bind_Ok in H as ([kube downloader] & w1 & [= Hp <-] & H).
  apply m_bind_Some in H as (r & w2 & Hs & H). apply mr_bind_Ok in H as (env & w3 & [= Hr <-] & [= Hserve ->]).
  apply map_err_Ok in Hr as ->. by exists kube, downloader, env.
Qed.

(** What [new_from_config] prepares. *)
Lemma prepare_Ok config kube downloader :
  prepare config = Ok (kube, downloader) →
  (kube = true ↔ is_ok kube_try_default) ∧
  (kube = true ∨ ss_ignore_kubernetes_connection_failure config = true) ∧
  configured_downloader (ss_sources config) (ss_verification_config config) (ok (create_sigstore_trustroot config))
    create_verifier = Ok downloader.
Proof.
  rewrite /prepare. intros (k & Hk & H)%res_bind_Ok. apply res_bind_Ok in H as ([] & _ & H).
  apply res_bind_Ok in H as (d & Hd & [= -> ->]). apply map_err_Ok in Hd. split; [|split; [|done]].
  - rewrite /kubernetes_client in Hk. destruct kube_try_default; [by injection Hk as <-|].
    destruct (ss_ignore_kubernetes_connection_failure _); [by injection Hk as <-|done].
  - rewrite /kubernetes_client in Hk. destruct kube_try_default; [injection Hk as <-; by left|].
    destruct (ss_ignore_kubernetes_connection_failure _); [by right|done].
Qed.

Lemma assemble_Ok config kube env server :
  assemble tls_files config kube env = Ok server →
  ps_environment server = env ∧ ps_kube_client server = kube ∧
  (is_Some (ps_tls server) ↔ is_Some (ss_tls_config config)) ∧
  (∀ route, route ∈ pprof_routes → route ∈ ps_routes server ↔ ss_enable_pprof config = true) ∧
  (ss_enable_pprof config = true → ps_prof_active server = Some true) ∧
  ps_ticker server = ps_epoch_interruption server ∧
  (ps_ticker server = true ↔ is_Some (ss_evaluation_limit_seconds config)).
Proof.
  rewrite /assemble. intros (tls & Htls & H)%res_bind_Ok.
  destruct (if ss_enable_pprof config then _ else _) as [activated active] eqn:Ha.
  apply res_bind_Ok in H as ([] & Hact%map_err_Ok & [= <-]). simpl. split_and!; [done..| | | |done|].
  - destruct (ss_tls_config config); [|by injection Htls as <-].
    apply map_err_Ok, res_map_Ok in Htls as (x & _ & ->). split; eauto.
  - intros route Hr. destruct (ss_enable_pprof config).
    + split; [done|]. intros _. change (route ∈ api_routes ++ pprof_routes). rewrite elem_of_app. by right.
    + split; [|done]. change (route ∈ api_routes ++ [] → false = true). rewrite app_nil_r. intros Hin.
      repeat (apply elem_of_cons in Hr as [->|Hr]); [..|by apply not_elem_of_nil in Hr];
        by repeat (apply elem_of_cons in Hin as [[=]|Hin]); apply not_elem_of_nil in Hin.
  - intros Hp. rewrite Hp /activate_memory_profiling in Ha. subst activated.
    by destruct prof_ctl as [[]|], prof_activate; simplify_eq.
  - by rewrite bool_decide_eq_true.
Qed.

(** Without a verifier, what is asked to be verified makes no difference. *)
Definition without_verification config : ServerSettings :=
  {| ss_addr := ss_addr config; ss_readiness_probe_addr := ss_readiness_probe_addr config;
     ss_sources := ss_sources config; ss_policies := ss_policies config;
     ss_policies_download_dir := ss_policies_download_dir config;
     ss_ignore_kubernetes_connection_failure := ss_ignore_kubernetes_connection_failure config;
     ss_always_accept_namespace := ss_always_accept_namespace config;
     ss_evaluation_limit_seconds := ss_evaluation_limit_seconds config;
     ss_memory_limit_bytes := ss_memory_limit_bytes config; ss_tls_config := ss_tls_config config;
     ss_pool_size := ss_pool_size config; ss_metrics_enabled := ss_metrics_enabled config;
     ss_sigstore_cache_dir := ss_sigstore_cache_dir config;
     ss_sigstore_trust_config_path := ss_sigstore_trust_config_path config;
     ss_verification_config := None; ss_enable_pprof := ss_enable_pprof config;
     ss_continue_on_errors := ss_continue_on_errors config |}.

Lemma unverified_start config downloader tx x :
  dl_verifier downloader = None →
  start_policies default_store_root (policies_config config) downloader tx x =
  start_policies default_store_root (policies_config (without_verification config)) downloader tx x.
Proof.
  intros Hv. destruct x as [s w]. rewrite /start_policies /= /download_policies /m_bind.
  erewrite m_fold_ext; [done|]. intros y a s1. by apply unverified_download_step.
Qed.

Lemma no_trust_root_start config tx :
  ok (create_sigstore_trustroot config) = None →
  ∀ x, new_from_config config tx x = new_from_config (without_verification config) tx x.
Proof.
  intros Hroot x. rewrite /new_from_config /ServerStart.new_from_config.
  assert (prepare (without_verification config) = prepare config) as ->.
  { rewrite /prepare /create_sigstore_trustroot /= -/(create_sigstore_trustroot config) Hroot.
    rewrite /kubernetes_client /=. by destruct (ss_verification_config config). }
  rewrite /mr_bind /m_bind /m_ret. destruct (prepare config) as [[kube downloader]|e] eqn:Hp; [|done].
  apply prepare_Ok in Hp as (_ & _ & Hd). rewrite -unverified_start; [done|].
  rewrite /configured_downloader Hroot in Hd. by destruct (ss_verification_config config); injection Hd as <-.
Qed.

(** C5. From the flags to the running code. When a server that was given a verification file
    starts, the file was read whole. If there is a Sigstore trust root, every module the server
    can run, for an individual policy or for a member of a group, has the digest of what was
    precompiled from the path recorded for the URL that the configuration names, and that path was
    recorded after the signatures of the image satisfied the configuration and the file pulled there
    had the checksum of the signed manifest; an individual policy that is not marked as failed has
    such a module. The file is read for the precompilation after every download, when a later
    download to the same path may have replaced it. If the trust root cannot be created, the server
    does what it does when no verification is asked for: it starts in the same state with the same
    policies, and nothing is verified. *)
Theorem server_runs_verified_policies `{!UrlLaws, !SigstoreLaws} a env config env' path tx s w server s' w' :
  from_args a env = Some (Ok config, env') → sa_verification_path a = Some path →
  new_from_config config tx (s, w) = Some (Ok server, (s', w')) →
  ∃ text vc, read_text path = Ok text ∧ build_latest_verification_config text = Ok vc ∧
  (is_ok (create_sigstore_trustroot config) →
   ∃ downloader ver, dl_verifier downloader = Some ver ∧ dl_sources downloader = ss_sources config ∧
     (∀ id d, id_to_digest (ps_environment server) !! id = Some d →
       runs_verified default_store_root downloader ver (policies_config config) vc s s' id d) ∧
     (∀ name url mode mut settings res msg timeout patterns,
       ss_policies config !! name = Some (SinglePolicy url mode mut settings res msg timeout patterns) →
       initialization_errors (ps_environment server) !! PolicyId.Policy name = None →
       is_Some (id_to_digest (ps_environment server) !! PolicyId.Policy name))) ∧
  (¬ is_ok (create_sigstore_trustroot config) →
   new_from_config (without_verification config) tx (s, w) = Some (Ok server, (s', w'))).
Proof.
  intros Hargs Hpath Hnew. destruct (server_settings_sound _ _ _ _ Hargs) as (Hn & Hv & _).
  destruct (Hv path Hpath) as (text & vc & Ht & Hvc & Hc). exists text, vc. split_and!; [done..| |].
  - intros Hroot.
    apply new_from_config_Ok in Hnew as (kube & downloader & e & Hprep & Hstart & Hserve).
    apply prepare_Ok in Hprep as (_ & _ & Hd). apply assemble_Ok in Hserve as (He & _). rewrite He.
    destruct (create_sigstore_trustroot config) as [root|]; [|done].
    rewrite /configured_downloader Hc /= in Hd. apply res_bind_Ok in Hd as (v & Hver & [= <-]).
    apply res_map_Ok in Hver as (ver & _ & ->).
    exists {| dl_verifier := Some ver; dl_sources := ss_sources config |}, ver. do 2 (split; [done|]).
    exact (running_policy_was_verified default_store_root (policies_config config)
      {| dl_verifier := Some ver; dl_sources := ss_sources config |} ver vc tx s w e s' w'
      Hn eq_refl Hc Hstart).
  - intros Hroot. rewrite -no_trust_root_start; [done|]. by destruct (create_sigstore_trustroot config).
Qed.

(** A server that starts has a Kubernetes client, or was told that it may do without one. It
    serves TLS exactly when it was configured, and the profiling endpoints, with the profiler of
    the heap activated, exactly when they were asked for. The clock that stops policies runs
    exactly when there is a limit, and so does the interruption of the engine, so that no
    policy waits for a clock that does not tick. *)
Theorem server_starts_as_configured config tx s w server s' w' :
  new_from_config config tx (s, w) = Some (Ok server, (s', w')) →
  (ps_kube_client server = true ↔ is_ok kube_try_default) ∧
  (ps_kube_client server = true ∨ ss_ignore_kubernetes_connection_failure config = true) ∧
  (is_Some (ps_tls server) ↔ is_Some (ss_tls_config config)) ∧
  (∀ route, route ∈ pprof_routes → route ∈ ps_routes server ↔ ss_enable_pprof config = true) ∧
  (ss_enable_pprof config = true → ps_prof_active server = Some true) ∧
  ps_ticker server = ps_epoch_interruption server ∧
  (ps_ticker server = true ↔ is_Some (ss_evaluation_limit_seconds config)).
Proof.
  intros (kube & downloader & e & Hprep & _ & Hserve)%new_from_config_Ok.
  apply prepare_Ok in Hprep as (Hk & Hi & _). apply assemble_Ok in Hserve as (_ & -> & Hs). naive_solver.
Qed.
End properties.

(** ** Examples *)

Section witnesses.
#[local] Existing Instance example_tls.
#[local] Existing Instance simple_yaml.

Definition start_cli : CliEnv := {|
  SocketAddr := string;
  parse_socket_addr := Ok;
  num_cpus := 8;
  read_text path := if decide (path = "verify.yml") then Ok "apiVersion: v1, anyOf: {signatures: [key]}"
    else Err "No such file or directory";
  file_exists _ := false;
  yaml_policies _ := Ok one_policy;
  yaml_sources _ := Err (SourceYamlError "");
  config_dir := "";
|}.

#[local] Existing Instance start_cli.

(** With a trust root, or without. *)
Definition server_env (root : bool) : ServerEnv := {|
  SigstoreTrustRoot := unit;
  read_trust_config _ := Err "No such file or directory";
  trusted_root_of_config _ := Ok None;
  root_of_json _ := Ok tt;
  cache_dir_exists _ := true;
  create_cache_dir _ := Ok tt;
  root_from_tuf _ := if root then Ok tt else Err "cannot reach the TUF repository";
  create_verifier sources _ := Ok {| ver_sources := sources |};
  handler_sigstore_client _ _ := Ok tt;
  kube_try_default := Ok tt;
  start_inotify := example_inotify;
  prof_ctl := Some false;
  prof_activate := Ok tt;
|}.

Definition start_args (pprof : bool) : ServerArgs := {|
  sa_address := "0.0.0.0"; sa_port := "3000"; sa_readiness_probe_port := "8081";
  sa_policies := "policies.yml"; sa_policies_download_dir := "/store";
  sa_disable_timeout_protection := false; sa_policy_timeout := "2";
  sa_disable_memory_limit := true; sa_policy_memory_limit := "256";
  sa_sources_path := None; sa_docker_config_json_path := None; sa_workers := None;
  sa_always_accept_namespace := None; sa_enable_metrics := false;
  sa_ignore_kubernetes_connection_failure := false; sa_verification_path := Some "verify.yml";
  sa_sigstore_cache_dir := "sigstore-data"; sa_sigstore_trust_config := None;
  sa_cert_file := None; sa_key_file := None; sa_client_ca_file := None; sa_enable_pprof := pprof;
  sa_continue_on_errors := false |}.

Definition start_settings : ServerSettings := {|
  ss_addr := "0.0.0.0:3000"; ss_readiness_probe_addr := "0.0.0.0:8081"; ss_sources := None;
  ss_policies := one_policy; ss_policies_download_dir := "/store";
  ss_ignore_kubernetes_connection_failure := false; ss_always_accept_namespace := None;
  ss_evaluation_limit_seconds := Some 2%Z; ss_memory_limit_bytes := None; ss_tls_config := None;
  ss_pool_size := 8; ss_metrics_enabled := false; ss_sigstore_cache_dir := "sigstore-data";
  ss_sigstore_trust_config_path := None; ss_verification_config := Some key_config;
  ss_enable_pprof := true; ss_continue_on_errors := false |}.

Lemma start_settings_read : from_args (UL := simple_url) (start_args true) ∅ = Some (Ok start_settings, ∅).
Proof. vm_compute. reflexivity. Qed.

Definition example_server (root : bool) :=
  new_from_config (HI0 := canonical_hash_iter) (UL := simple_url) (SE := simple_env)
    (CC := simple_cosign) (YL := simple_yaml) (ST := unit_sdk) (PR := constant_runtime)
    (ML := constant_loader) (R := conjunction_rhai) (SV := server_env root)
    "/main" (λ _, Err "No such file or directory") start_settings (λ _, RecvError)
    (fresh_state [Ok [v1]] [Ok (image_of v1)], 0).

Lemma example_server_started root : is_built (example_server root) = true.
Proof. destruct root; vm_compute; reflexivity. Qed.

Lemma example_server_policy :
  match example_server true with
  | Some (Ok server, _) =>
      match initialization_errors (ps_environment server) !! PolicyId.Policy "pol" with None => true | Some _ => false end
  | _ => false
  end = true.
Proof. vm_compute. reflexivity. Qed.

(** Once with a trust root, once without. *)
Lemma server_runs_verified_policies_witness :
  (∃ server s' w' downloader ver d, example_server true = Some (Ok server, (s', w')) ∧
    id_to_digest (ps_environment server) !! PolicyId.Policy "pol" = Some d ∧
    runs_verified "/main" downloader ver (policies_config (CE := start_cli) start_settings) key_config
      (fresh_state [Ok [v1]] [Ok (image_of v1)]) s' (PolicyId.Policy "pol") d) ∧
  ∃ server x, example_server false = Some (Ok server, x) ∧
    new_from_config (HI0 := canonical_hash_iter) (UL := simple_url) (SE := simple_env)
      (CC := simple_cosign) (YL := simple_yaml) (ST := unit_sdk) (PR := constant_runtime)
      (ML := constant_loader) (R := conjunction_rhai) (SV := server_env false)
      "/main" (λ _, Err "No such file or directory") (without_verification start_settings) (λ _, RecvError)
      (fresh_state [Ok [v1]] [Ok (image_of v1)], 0) = Some (Ok server, x).
Proof.
  split.
  - destruct (is_built_Some _ (example_server_started true)) as (server & [s' w'] & Hs).
    pose proof example_server_policy as Hp. rewrite Hs in Hp.
    destruct (initialization_errors (ps_environment server) !! PolicyId.Policy "pol") eqn:Hi; [discriminate|].
    destruct (server_runs_verified_policies (UL := simple_url) (SE := simple_env) (SV := server_env true)
      "/main" _ _ _ _ _ "verify.yml" _ _ _ _ _ _ start_settings_read eq_refl Hs)
      as (text & vc & [= <-] & [= <-] & Hver & _).
    destruct (Hver I) as (downloader & ver & _ & _ & Hv & Hr).
    destruct (Hr "pol" "ghcr.io/kubewarden/pol:v1" Protect None None ∅ None None [] eq_refl Hi) as [d Hd].
    exists server, s', w', downloader, ver, d. split; [exact Hs|]. split; [exact Hd|]. exact (Hv _ _ Hd).
  - destruct (is_built_Some _ (example_server_started false)) as (server & [s' w'] & Hs).
    exists server, (s', w'). split; [exact Hs|].
    destruct (server_runs_verified_policies (UL := simple_url) (SE := simple_env) (SV := server_env false)
      "/main" _ _ _ _ _ "verify.yml" _ _ _ _ _ _ start_settings_read eq_refl Hs)
      as (text & vc & _ & _ & _ & Hno).
    apply Hno. intros [].
Defined.

Lemma server_starts_as_configured_witness :
  ∃ server x, example_server true = Some (Ok server, x) ∧ ps_kube_client server = true ∧
    ps_prof_active server = Some true ∧ ps_ticker server = true.
Proof.
  destruct (is_built_Some _ (example_server_started true)) as (server & [s' w'] & Hs).
  exists server, (s', w'). split; [exact Hs|].
  destruct (server_starts_as_configured (SV := server_env true) _ _ _ _ _ _ _ _ _ Hs)
    as (Hk & _ & _ & _ & Hp & _ & Ht).
  split; [apply Hk; exact I|]. split; [exact (Hp eq_refl)|]. apply Ht. by eexists.
Defined.
End witnesses.
