(* ===== verification/Clap.v ===== *)
(** * The command lines of the two programs

    What [crates/kwctl/src/cli.rs] and [crates/policy-server/src/cli.rs] use of [clap]: the
    builders of commands and arguments, the matches and their accessors. The parser itself is
    the parameter [Clap]; [ClapLaws] is what its documentation promises about the matches
    of a command line that it accepts.

    An accessor is [None] when it panics: on an argument of another type, and, as in a debug
    build, on an argument or a subcommand that was not declared. Names of values, help texts
    and versions are left out. *)

From S2P Require Import Prelude RustStr.
From stdpp Require Import sorting.

Notation "a |> f" := (f a) (at level 50, left associativity, only parsing) : rust_scope.

(** ** Commands *)

Inductive ArgAction := ActionSet | ActionAppend | ActionSetTrue.

(** The type of the values of a parser: [String], [PathBuf] or [bool]. *)
Inductive Kind := KString | KPath | KBool.

Inductive ValueParser := StringParser | PossibleValues (values : list string) | PathBufParser | BoolParser.

#[export] Instance Kind_eq_dec : EqDecision Kind.
Proof. solve_decision. Defined.

#[export] Instance ArgAction_eq_dec : EqDecision ArgAction.
Proof. solve_decision. Defined.

Record Arg := {
  arg_id : string;
  arg_long : option string;
  arg_short : option ascii;
  arg_action : option ArgAction;
  (** the least and the greatest number of values *)
  arg_num_args : option (nat * option nat);
  arg_value_parser : option ValueParser;
  arg_default_values : list string;
  arg_value_delimiter : option ascii;
  arg_env : option string;
  arg_required : bool;
  arg_index : option nat;
  arg_conflicts : list string;
  arg_requires : list string;
}.

(** An update of one field. *)
Definition with_arg (a : Arg) long short action num_args parser defaults delimiter env required index
    conflicts requires : Arg :=
  {| arg_id := arg_id a; arg_long := long; arg_short := short; arg_action := action;
     arg_num_args := num_args; arg_value_parser := parser; arg_default_values := defaults;
     arg_value_delimiter := delimiter; arg_env := env; arg_required := required; arg_index := index;
     arg_conflicts := conflicts; arg_requires := requires |}.

Definition Arg_new (id : string) : Arg :=
  {| arg_id := id; arg_long := None; arg_short := None; arg_action := None; arg_num_args := None;
     arg_value_parser := None; arg_default_values := []; arg_value_delimiter := None; arg_env := None;
     arg_required := false; arg_index := None; arg_conflicts := []; arg_requires := [] |}.

Section builders.
Implicit Types a : Arg.

Definition long (s : string) a := with_arg a (Some s) (arg_short a) (arg_action a) (arg_num_args a)
  (arg_value_parser a) (arg_default_values a) (arg_value_delimiter a) (arg_env a) (arg_required a)
  (arg_index a) (arg_conflicts a) (arg_requires a).
Definition short (c : ascii) a := with_arg a (arg_long a) (Some c) (arg_action a) (arg_num_args a)
  (arg_value_parser a) (arg_default_values a) (arg_value_delimiter a) (arg_env a) (arg_required a)
  (arg_index a) (arg_conflicts a) (arg_requires a).
Definition action (x : ArgAction) a := with_arg a (arg_long a) (arg_short a) (Some x) (arg_num_args a)
  (arg_value_parser a) (arg_default_values a) (arg_value_delimiter a) (arg_env a) (arg_required a)
  (arg_index a) (arg_conflicts a) (arg_requires a).
Definition num_args_between (least : nat) (greatest : option nat) a :=
  with_arg a (arg_long a) (arg_short a) (arg_action a) (Some (least, greatest))
    (arg_value_parser a) (arg_default_values a) (arg_value_delimiter a) (arg_env a) (arg_required a)
    (arg_index a) (arg_conflicts a) (arg_requires a).
Definition value_parser (p : ValueParser) a := with_arg a (arg_long a) (arg_short a) (arg_action a)
  (arg_num_args a) (Some p) (arg_default_values a) (arg_value_delimiter a) (arg_env a) (arg_required a)
  (arg_index a) (arg_conflicts a) (arg_requires a).
Definition default_values (l : list string) a := with_arg a (arg_long a) (arg_short a) (arg_action a)
  (arg_num_args a) (arg_value_parser a) l (arg_value_delimiter a) (arg_env a) (arg_required a)
  (arg_index a) (arg_conflicts a) (arg_requires a).
Definition value_delimiter (c : ascii) a := with_arg a (arg_long a) (arg_short a) (arg_action a)
  (arg_num_args a) (arg_value_parser a) (arg_default_values a) (Some c) (arg_env a) (arg_required a)
  (arg_index a) (arg_conflicts a) (arg_requires a).
Definition env (s : string) a := with_arg a (arg_long a) (arg_short a) (arg_action a) (arg_num_args a)
  (arg_value_parser a) (arg_default_values a) (arg_value_delimiter a) (Some s) (arg_required a)
  (arg_index a) (arg_conflicts a) (arg_requires a).
Definition required (b : bool) a := with_arg a (arg_long a) (arg_short a) (arg_action a) (arg_num_args a)
  (arg_value_parser a) (arg_default_values a) (arg_value_delimiter a) (arg_env a) b
  (arg_index a) (arg_conflicts a) (arg_requires a).
Definition index (i : nat) a := with_arg a (arg_long a) (arg_short a) (arg_action a) (arg_num_args a)
  (arg_value_parser a) (arg_default_values a) (arg_value_delimiter a) (arg_env a) (arg_required a)
  (Some i) (arg_conflicts a) (arg_requires a).
Definition conflicts_with (id : string) a := with_arg a (arg_long a) (arg_short a) (arg_action a)
  (arg_num_args a) (arg_value_parser a) (arg_default_values a) (arg_value_delimiter a) (arg_env a)
  (arg_required a) (arg_index a) (arg_conflicts a ++ [id]) (arg_requires a).
Definition requires (id : string) a := with_arg a (arg_long a) (arg_short a) (arg_action a)
  (arg_num_args a) (arg_value_parser a) (arg_default_values a) (arg_value_delimiter a) (arg_env a)
  (arg_required a) (arg_index a) (arg_conflicts a) (arg_requires a ++ [id]).

Definition num_args (n : nat) : Arg → Arg := num_args_between n (Some n).
Definition default_value (s : string) : Arg → Arg := default_values [s].
End builders.

(** [args.sort_by(|a, b| a.get_id().cmp(b.get_id()))] *)
Definition id_le (a b : Arg) : Prop := String.leb (arg_id a) (arg_id b) = true.

#[export] Instance id_le_dec : RelDecision id_le.
Proof. intros a b. unfold id_le. apply _. Defined.

Definition sort_args (l : list Arg) : list Arg := merge_sort id_le l.

Record ArgGroup := {
  ag_id : string;
  ag_args : list string;
  ag_multiple : bool;
  ag_required : bool;
}.

Inductive Command := MkCommand {
  cmd_name : string;
  cmd_args : list Arg;
  cmd_groups : list ArgGroup;
  cmd_subcommands : list Command;
  cmd_subcommand_required : bool;
  cmd_arg_required_else_help : bool;
}.

Section commands.
Implicit Types c : Command.

Definition Command_new (name : string) : Command := MkCommand name [] [] [] false false.

Definition args (l : list Arg) c :=
  MkCommand (cmd_name c) (cmd_args c ++ l) (cmd_groups c) (cmd_subcommands c) (cmd_subcommand_required c)
    (cmd_arg_required_else_help c).
Definition arg (a : Arg) : Command → Command := args [a].
Definition group (g : ArgGroup) c :=
  MkCommand (cmd_name c) (cmd_args c) (cmd_groups c ++ [g]) (cmd_subcommands c) (cmd_subcommand_required c)
    (cmd_arg_required_else_help c).
Definition subcommands (l : list Command) c :=
  MkCommand (cmd_name c) (cmd_args c) (cmd_groups c) (cmd_subcommands c ++ l) (cmd_subcommand_required c)
    (cmd_arg_required_else_help c).
Definition subcommand_required (b : bool) c :=
  MkCommand (cmd_name c) (cmd_args c) (cmd_groups c) (cmd_subcommands c) b (cmd_arg_required_else_help c).
Definition arg_required_else_help (b : bool) c :=
  MkCommand (cmd_name c) (cmd_args c) (cmd_groups c) (cmd_subcommands c) (cmd_subcommand_required c) b.
End commands.

(** [subcommands.sort_by(|a, b| a.get_name().cmp(b.get_name()))] *)
Definition name_le (a b : Command) : Prop := String.leb (cmd_name a) (cmd_name b) = true.

#[export] Instance name_le_dec : RelDecision name_le.
Proof. intros a b. unfold name_le. apply _. Defined.

Definition sort_commands (l : list Command) : list Command := merge_sort name_le l.

(** ** What a declaration means

    The action of an argument without one: [SetTrue] when it takes no value, [Append] for a
    positional argument without bound, and [Set]. *)

Definition is_positional (a : Arg) : bool :=
  match arg_long a, arg_short a with None, None => true | _, _ => false end.

Definition action_of (a : Arg) : ArgAction :=
  match arg_action a, arg_num_args a with
  | Some x, _ => x
  | None, Some (0, Some 0) => ActionSetTrue
  | None, Some (_, None) => if is_positional a then ActionAppend else ActionSet
  | None, _ => ActionSet
  end.

Definition parser_of (a : Arg) : ValueParser :=
  match arg_value_parser a with
  | Some p => p
  | None => if decide (action_of a = ActionSetTrue) then BoolParser else StringParser
  end.

Definition kind_of (a : Arg) : Kind :=
  match parser_of a with
  | StringParser | PossibleValues _ => KString
  | PathBufParser => KPath
  | BoolParser => KBool
  end.

(** A flag is [false] by default. *)
Definition defaults_of (a : Arg) : list string :=
  match arg_default_values a with
  | [] => if decide (action_of a = ActionSetTrue) then ["false"] else []
  | l => l
  end.

(** The least number of values an argument has when it is given. *)
Definition least_values (a : Arg) : nat :=
  match action_of a, arg_num_args a with
  | ActionSetTrue, _ => 1
  | _, Some (least, _) => least
  | _, None => 1
  end.

Definition find_arg (c : Command) (id : string) : option Arg :=
  snd <$> list_find (λ a, arg_id a = id) (cmd_args c).

Definition find_subcommand (c : Command) (name : string) : option Command :=
  snd <$> list_find (λ s, cmd_name s = name) (cmd_subcommands c).

(** The arguments that cannot be given together with [a]: a conflict holds both ways, and
    the arguments of a group exclude each other unless it is [multiple]. *)
Definition conflicts_of (c : Command) (a : Arg) : list string :=
  arg_conflicts a ++
  (arg_id <$> List.filter (λ b, bool_decide (arg_id a ∈ arg_conflicts b)) (cmd_args c)) ++
  (g ← List.filter (λ g, negb (ag_multiple g) && bool_decide (arg_id a ∈ ag_args g)) (cmd_groups c);
   List.filter (λ id, negb (bool_decide (id = arg_id a))) (ag_args g)).

(** ** Matches *)

Inductive ValueSource := DefaultValue | EnvVariable | CommandLine.

#[export] Instance ValueSource_eq_dec : EqDecision ValueSource.
Proof. solve_decision. Defined.

Inductive ArgValue := StringVal (s : string) | PathVal (s : string) | BoolVal (b : bool).

#[export] Instance ArgValue_eq_dec : EqDecision ArgValue.
Proof. solve_decision. Defined.

Record MatchedArg := {
  mt_kind : Kind;
  mt_source : ValueSource;
  mt_values : list ArgValue;
}.

Inductive ArgMatches := Matches {
  am_args : gmap string MatchedArg;
  (** the arguments, groups and subcommands that were declared *)
  am_valid_args : list string;
  am_valid_subcommands : list string;
  am_subcommand : option (string * ArgMatches);
}.

Definition carrier (k : Kind) : Type := match k with KBool => bool | _ => string end.

Definition downcast (k : Kind) (v : ArgValue) : option (carrier k) :=
  match k, v with
  | KString, StringVal s => Some s
  | KPath, PathVal s => Some s
  | KBool, BoolVal b => Some b
  | _, _ => None
  end.

Section accessors.
Implicit Types (m : ArgMatches) (id : string).

Definition lookup_arg m id : option (option MatchedArg) :=
  if bool_decide (id ∈ am_valid_args m) then Some (am_args m !! id) else None.

Definition get_many (k : Kind) m id : option (option (list (carrier k))) :=
  a ← lookup_arg m id;
  match a with
  | None => Some None
  | Some a => if decide (mt_kind a = k) then Some <$> mapM (downcast k) (mt_values a) else None
  end.

Definition get_one (k : Kind) m id : option (option (carrier k)) :=
  values ← get_many k m id; Some (values ≫= head).

Definition contains_id m id : option bool :=
  a ← lookup_arg m id; Some (bool_decide (is_Some a)).

(** [get_flag] expects a value. *)
Definition get_flag m id : option bool := mjoin (get_one KBool m id).

Definition subcommand_name m : option string := fst <$> am_subcommand m.

Definition subcommand_matches m (name : string) : option (option ArgMatches) :=
  if bool_decide (name ∈ am_valid_subcommands m) then
    Some (match am_subcommand m with
          | Some (n, m') => if decide (n = name) then Some m' else None
          | None => None
          end)
  else None.
End accessors.

(** ** The parser *)

Definition parse_value (p : ValueParser) (s : string) : option ArgValue :=
  match p with
  | StringParser => Some (StringVal s)
  | PossibleValues l => if bool_decide (s ∈ l) then Some (StringVal s) else None
  | PathBufParser => Some (PathVal s)
  | BoolParser =>
      if decide (s = "true") then Some (BoolVal true)
      else if decide (s = "false") then Some (BoolVal false) else None
  end.

(** *** What [clap] asserts of a command

    The identifiers and the flags of a command are distinct, those of [--help] and
    [--version] included; what it refers to is declared; positional arguments are numbered
    from one; and default values are values of their argument. *)

Definition distinct {A} `{EqDecision A} (l : list A) : bool := bool_decide (NoDup l).

Definition positions (c : Command) : list nat := omap arg_index (cmd_args c).

Definition well_declared (root : bool) (c : Command) : bool :=
  let ids := (arg_id <$> cmd_args c) ++ (ag_id <$> cmd_groups c) in
  let declared := λ id, bool_decide (id ∈ (arg_id <$> cmd_args c)) in
  distinct ids &&
  distinct (omap arg_long (cmd_args c) ++ "help" :: if root then ["version"] else []) &&
  distinct (omap arg_short (cmd_args c) ++ "h"%char :: if root then ["V"%char] else []) &&
  forallb (λ a, forallb declared (arg_conflicts a ++ arg_requires a)) (cmd_args c) &&
  forallb (λ g, forallb declared (ag_args g)) (cmd_groups c) &&
  bool_decide (positions c = seq 1 (length (positions c))) &&
  forallb (λ a, bool_decide (is_Some (mapM (parse_value (parser_of a)) (defaults_of a)))) (cmd_args c) &&
  distinct ("help" :: (cmd_name <$> cmd_subcommands c)).

Fixpoint well_formed (depth : nat) (root : bool) (c : Command) : bool :=
  well_declared root c &&
  match depth with
  | 0 => match cmd_subcommands c with [] => true | _ => false end
  | S depth => forallb (well_formed depth false) (cmd_subcommands c)
  end.

(** The values a parser makes. *)
Definition value_of_parser (p : ValueParser) (v : ArgValue) : bool :=
  match p, v with
  | StringParser, StringVal _ | PathBufParser, PathVal _ | BoolParser, BoolVal _ => true
  | PossibleValues l, StringVal s => bool_decide (s ∈ l)
  | _, _ => false
  end.

(** Given by the user, on the command line or in the environment. *)
Definition given_by_user (args : gmap string MatchedArg) (id : string) : bool :=
  match args !! id with
  | Some a => negb (bool_decide (mt_source a = DefaultValue))
  | None => false
  end.

(** A requirement for an argument that conflicts with one the user gave does not hold. *)
Definition waived (c : Command) (args : gmap string MatchedArg) (id : string) : bool :=
  match find_arg c id with
  | Some b => existsb (given_by_user args) (conflicts_of c b)
  | None => false
  end.

(** An argument is there when it has a default, and when it is required and nothing
    conflicts with it; its values have the type of its parser, and there are enough of them;
    default values are those of the declaration. One that the user gave excludes its
    conflicts and comes with what it requires, except for an argument that conflicts with another
    one that the user gave: conflicts take precedence over requirements. *)
Definition valid_arg (c : Command) (args : gmap string MatchedArg) (a : Arg) : bool :=
  match args !! arg_id a with
  | Some x =>
      bool_decide (mt_kind x = kind_of a) &&
      forallb (value_of_parser (parser_of a)) (mt_values x) &&
      (least_values a <=? length (mt_values x)) &&
      (negb (bool_decide (mt_source x = DefaultValue)) ||
       negb (bool_decide (defaults_of a = [])) &&
       bool_decide (mapM (parse_value (parser_of a)) (defaults_of a) = Some (mt_values x)))
  | None =>
      bool_decide (defaults_of a = []) &&
      negb (arg_required a && bool_decide (conflicts_of c a = []))
  end &&
  (negb (given_by_user args (arg_id a)) ||
   forallb (λ id, negb (given_by_user args id)) (conflicts_of c a) &&
   forallb (λ id, given_by_user args id || waived c args id) (arg_requires a)).

Definition valid_group (args : gmap string MatchedArg) (g : ArgGroup) : bool :=
  negb (ag_required g) || existsb (given_by_user args) (ag_args g).

Fixpoint valid_matches (c : Command) (m : ArgMatches) : bool :=
  bool_decide (am_valid_args m = (arg_id <$> cmd_args c) ++ (ag_id <$> cmd_groups c)) &&
  bool_decide (am_valid_subcommands m = cmd_name <$> cmd_subcommands c) &&
  bool_decide (map_Forall (λ id _, id ∈ am_valid_args m) (am_args m)) &&
  forallb (valid_arg c (am_args m)) (cmd_args c) &&
  forallb (valid_group (am_args m)) (cmd_groups c) &&
  match am_subcommand m with
  | None => negb (cmd_subcommand_required c)
  | Some (name, m') =>
      match find_subcommand c name with
      | Some c' => valid_matches c' m'
      | None => false
      end
  end.

(** [Command::get_matches], on the arguments and the environment of the process; it exits
    when it does not accept them. *)
Class Clap := {
  get_matches : Command → list string → gmap string string → result ArgMatches string;
}.

Class ClapLaws `{CP : Clap} := {
  get_matches_valid c argv vars m : get_matches c argv vars = Ok m → valid_matches c m = true;
}.

(** ** Reading valid matches *)

Lemma forallb_elem {A} (f : A → bool) l x : forallb f l = true → x ∈ l → f x = true.
Proof. rewrite forallb_forall list_elem_of_In. auto. Qed.

Lemma valid_parts c m :
  valid_matches c m = true →
  am_valid_args m = (arg_id <$> cmd_args c) ++ (ag_id <$> cmd_groups c) ∧
  am_valid_subcommands m = cmd_name <$> cmd_subcommands c ∧
  forallb (valid_arg c (am_args m)) (cmd_args c) = true ∧
  forallb (valid_group (am_args m)) (cmd_groups c) = true ∧
  match am_subcommand m with
  | None => cmd_subcommand_required c = false
  | Some (name, m') => ∃ c', find_subcommand c name = Some c' ∧ valid_matches c' m' = true
  end.
Proof.
  destruct c, m. simpl. rewrite !andb_true_iff !bool_decide_eq_true.
  intros (((((? & ?) & _) & ?) & ?) & Hsub). split_and!; [done..|].
  destruct am_subcommand0 as [[name m']|]; [|by apply negb_true_iff].
  destruct (find_subcommand _ _); [eauto|done].
Qed.

Lemma find_subcommand_in c name s :
  find_subcommand c name = Some s → s ∈ cmd_subcommands c ∧ cmd_name s = name.
Proof.
  rewrite /find_subcommand fmap_Some. intros ([i b] & Hf & ->).
  apply list_find_Some in Hf as (Hl & Hid & _). split; [by eapply list_elem_of_lookup_2|done].
Qed.

(** The subcommand of valid matches. *)
Lemma valid_subcommand c m :
  valid_matches c m = true → cmd_subcommand_required c = true →
  ∃ s m', s ∈ cmd_subcommands c ∧ am_subcommand m = Some (cmd_name s, m') ∧ valid_matches s m' = true.
Proof.
  intros (_ & _ & _ & _ & Hs)%valid_parts Hr. destruct (am_subcommand m) as [[name m']|]; [|congruence].
  destruct Hs as (s & [Hin <-]%find_subcommand_in & Hv). eauto.
Qed.

Lemma subcommand_matches_valid c m name :
  valid_matches c m = true → bool_decide (name ∈ cmd_name <$> cmd_subcommands c) = true →
  subcommand_matches m name = Some (match am_subcommand m with
    | Some (n, m') => if decide (n = name) then Some m' else None
    | None => None
    end).
Proof. intros (_ & Hs & _)%valid_parts Hn. by rewrite /subcommand_matches Hs Hn. Qed.

Section valid.
Context (c : Command) (m : ArgMatches) (Hvalid : valid_matches c m = true).

Lemma find_arg_in id a : find_arg c id = Some a → a ∈ cmd_args c ∧ arg_id a = id.
Proof.
  rewrite /find_arg fmap_Some. intros ([i b] & Hf & ->).
  apply list_find_Some in Hf as (Hl & Hid & _). split; [by eapply list_elem_of_lookup_2|done].
Qed.

Lemma valid_declared : am_valid_args m = (arg_id <$> cmd_args c) ++ (ag_id <$> cmd_groups c).
Proof. by destruct (valid_parts c m). Qed.

Lemma valid_args_ok a : a ∈ cmd_args c → valid_arg c (am_args m) a = true.
Proof. apply forallb_elem. by destruct (valid_parts c m) as (_ & _ & ? & _). Qed.

Lemma valid_groups_ok g : g ∈ cmd_groups c → valid_group (am_args m) g = true.
Proof. apply forallb_elem. by destruct (valid_parts c m) as (_ & _ & _ & ? & _). Qed.

Lemma lookup_declared id a : find_arg c id = Some a → lookup_arg m id = Some (am_args m !! id).
Proof.
  intros [Ha <-]%find_arg_in. rewrite /lookup_arg valid_declared bool_decide_true; [done|].
  apply elem_of_app. left. by apply list_elem_of_fmap_2.
Qed.

Lemma parsed_kind p v k :
  value_of_parser p v = true →
  k = match p with StringParser | PossibleValues _ => KString | PathBufParser => KPath | BoolParser => KBool end →
  is_Some (downcast k v).
Proof. intros Hv ->. by destruct p, v. Qed.

Lemma parsed_kinds p l k :
  forallb (value_of_parser p) l = true →
  k = match p with StringParser | PossibleValues _ => KString | PathBufParser => KPath | BoolParser => KBool end →
  ∃ l', mapM (downcast k) l = Some l' ∧ length l' = length l.
Proof.
  intros Hl Hk. induction l as [|v l IH]; simpl in *; [by exists []|].
  apply andb_true_iff in Hl as [Hv Hl].
  destruct (parsed_kind p v k) as [x Hx]; [done..|].
  destruct IH as (l' & Hl' & Hlen); [done|]. exists (x :: l'). by rewrite /= Hx /= Hl' /= Hlen.
Qed.

(** The value of an argument, as its accessors see it. *)
Lemma get_many_spec k id a :
  find_arg c id = Some a → kind_of a = k →
  match am_args m !! id with
  | None => get_many k m id = Some None ∧ defaults_of a = [] ∧
            (arg_required a && bool_decide (conflicts_of c a = [])) = false
  | Some x => ∃ l, get_many k m id = Some (Some l) ∧ mapM (downcast k) (mt_values x) = Some l ∧
                length l = length (mt_values x) ∧ least_values a ≤ length l
  end.
Proof.
  intros Hf Hk. rewrite /get_many (lookup_declared _ _ Hf) /=.
  apply find_arg_in in Hf as [Ha <-]. apply valid_args_ok in Ha. rewrite /valid_arg in Ha.
  apply andb_true_iff in Ha as [Ha _]. destruct (am_args m !! arg_id a) as [x|].
  - rewrite !andb_true_iff bool_decide_eq_true Nat.leb_le in Ha. destruct Ha as [[[Hx Hv] Hn] _].
    rewrite decide_True; [|congruence].
    destruct (parsed_kinds (parser_of a) (mt_values x) k) as (l & -> & Hl); [done|by rewrite -Hk /kind_of|].
    exists l. by rewrite Hl.
  - rewrite andb_true_iff bool_decide_eq_true negb_true_iff in Ha. by destruct Ha.
Qed.

(** Whether a command declares an argument of this type; below, one that is always there. *)
Definition declares (k : Kind) (id : string) : bool :=
  match find_arg c id with Some a => bool_decide (kind_of a = k) | None => false end.

(** One that has a value when it is there. *)
Definition valued (k : Kind) (id : string) : bool :=
  match find_arg c id with
  | Some a => bool_decide (kind_of a = k) && (1 <=? least_values a)
  | None => false
  end.

Definition always (k : Kind) (id : string) : bool :=
  match find_arg c id with
  | Some a =>
      bool_decide (kind_of a = k) && (1 <=? least_values a) &&
      (negb (bool_decide (defaults_of a = [])) || arg_required a && bool_decide (conflicts_of c a = []))
  | None => false
  end.

Lemma get_many_total k id : declares k id = true → is_Some (get_many k m id).
Proof.
  rewrite /declares. destruct (find_arg c id) as [a|] eqn:Hf; [|done]. intros Hk%bool_decide_eq_true.
  pose proof (get_many_spec k id a Hf Hk) as Hs. destruct (am_args m !! id); [|by destruct Hs as [-> _]].
  by destruct Hs as (l & -> & _).
Qed.

Lemma get_one_total k id : declares k id = true → is_Some (get_one k m id).
Proof. intros [o Ho]%get_many_total. by rewrite /get_one Ho. Qed.

Lemma get_many_present k id :
  valued k id = true → is_Some (am_args m !! id) → ∃ v l, get_many k m id = Some (Some (v :: l)).
Proof.
  rewrite /valued. destruct (find_arg c id) as [a|] eqn:Hf; [|done].
  rewrite andb_true_iff bool_decide_eq_true Nat.leb_le. intros [Hk Hn] [x Hx].
  pose proof (get_many_spec k id a Hf Hk) as Hs. rewrite Hx in Hs.
  destruct Hs as ([|v l] & -> & _ & _ & Hl); [simpl in Hl; lia|eauto].
Qed.

Lemma get_many_always k id : always k id = true → ∃ v l, get_many k m id = Some (Some (v :: l)).
Proof.
  rewrite /always. destruct (find_arg c id) as [a|] eqn:Hf; [|done].
  rewrite !andb_true_iff bool_decide_eq_true Nat.leb_le. intros [[Hk Hn] Ha].
  pose proof (get_many_spec k id a Hf Hk) as Hs. destruct (am_args m !! id).
  - destruct Hs as ([|v l] & -> & _ & _ & Hl); [simpl in Hl; lia|eauto].
  - destruct Hs as (_ & Hd & Hr). by rewrite Hr bool_decide_true in Ha.
Qed.

Lemma get_one_always k id : always k id = true → ∃ v, get_one k m id = Some (Some v).
Proof. intros (v & l & Hv)%get_many_always. exists v. by rewrite /get_one Hv. Qed.

Lemma get_flag_total id : always KBool id = true → is_Some (get_flag m id).
Proof. intros [v Hv]%get_one_always. by rewrite /get_flag Hv. Qed.

Lemma contains_id_spec k id :
  declares k id = true →
  ∃ o, get_many k m id = Some o ∧ contains_id m id = Some (bool_decide (is_Some o)) ∧
    (is_Some o ↔ is_Some (am_args m !! id)).
Proof.
  rewrite /declares. destruct (find_arg c id) as [a|] eqn:Hf; [|done]. intros Hk%bool_decide_eq_true.
  pose proof (get_many_spec k id a Hf Hk) as Hs. rewrite /contains_id (lookup_declared _ _ Hf) /=.
  destruct (am_args m !! id) as [x|].
  - destruct Hs as (l & -> & _). exists (Some l). split_and!; [done|by rewrite !bool_decide_true; eauto|].
    split; eauto.
  - destruct Hs as [-> _]. exists None. by rewrite !bool_decide_false.
Qed.

Lemma get_one_possible id a l v :
  find_arg c id = Some a → parser_of a = PossibleValues l →
  get_one KString m id = Some (Some v) → v ∈ l.
Proof.
  intros Hf Hp Hv. assert (kind_of a = KString) as Hk by by rewrite /kind_of Hp.
  pose proof (get_many_spec KString id a Hf Hk) as Hs. apply find_arg_in in Hf as [Ha <-].
  apply valid_args_ok in Ha. rewrite /valid_arg in Ha. apply andb_true_iff in Ha as [Ha _].
  destruct (am_args m !! arg_id a) as [x|].
  - rewrite !andb_true_iff in Ha. destruct Ha as [[[_ Ha] _] _]. rewrite Hp in Ha.
    destruct Hs as (l' & Hget & Hl & _). rewrite /get_one Hget /= in Hv.
    destruct (mt_values x) as [|y ys]; simpl in *; [by injection Hl as <-|].
    destruct y; try done. simpl in *. apply andb_true_iff in Ha as [Ha%bool_decide_eq_true _].
    destruct (mapM _ ys); [|done]. injection Hl as <-. by injection Hv as <-.
  - destruct Hs as [Hget _]. by rewrite /get_one Hget in Hv.
Qed.

(** A value is the default one, or the user gave it. *)
Lemma default_or_given k id a v :
  find_arg c id = Some a → kind_of a = k → get_one k m id = Some (Some v) →
  given_by_user (am_args m) id = true ∨
  ∃ d, head (defaults_of a) = Some d ∧ parse_value (parser_of a) d ≫= downcast k = Some v.
Proof.
  intros Hf Hk Hv. pose proof (get_many_spec k id a Hf Hk) as Hs. apply find_arg_in in Hf as [Ha <-].
  apply valid_args_ok in Ha. rewrite /valid_arg in Ha. apply andb_true_iff in Ha as [Ha _].
  rewrite /given_by_user. destruct (am_args m !! arg_id a) as [x|].
  - rewrite !andb_true_iff in Ha. destruct Ha as [_ Ha]. case_bool_decide as Hx; [right|by left].
    simpl in Ha. apply andb_true_iff in Ha as [_ Ha%bool_decide_eq_true].
    destruct Hs as (l' & Hget & Hl & _). rewrite /get_one Hget /= in Hv.
    destruct (mt_values x) as [|y ys]; simpl in *; [by injection Hl as <-|].
    destruct (defaults_of a) as [|d ds]; [done|]. exists d. split; [done|]. simpl in Ha.
    destruct (parse_value _ d) as [z|]; [|done]. simpl in Ha.
    destruct (mapM (parse_value _) ds); [|done]. injection Ha as -> ->. simpl.
    destruct (downcast k y); [|done]. simpl in *. destruct (mapM (downcast k) ys); [|done].
    injection Hl as <-. by injection Hv as ->.
  - destruct Hs as [Hget _]. by rewrite /get_one Hget in Hv.
Qed.

Lemma flag_given id a :
  find_arg c id = Some a → parser_of a = BoolParser → defaults_of a = ["false"] →
  get_one KBool m id = Some (Some true) → given_by_user (am_args m) id = true.
Proof.
  intros Hf Hp Hd Hv. destruct (default_or_given KBool id a true Hf) as [?|(d & Hh & Hb)];
    [by rewrite /kind_of Hp|done..|].
  rewrite Hd in Hh. injection Hh as <-. by rewrite Hp in Hb.
Qed.

Lemma default_text id a d v :
  find_arg c id = Some a → parser_of a = StringParser → defaults_of a = [d] →
  given_by_user (am_args m) id = false → get_one KString m id = Some (Some v) → v = d.
Proof.
  intros Hf Hp Hd Hg Hv. destruct (default_or_given KString id a v Hf) as [?|(d' & Hh & Hb)];
    [by rewrite /kind_of Hp|done|congruence|].
  rewrite Hd in Hh. injection Hh as <-. rewrite Hp in Hb. by injection Hb as ->.
Qed.

Lemma given_without_default id a :
  find_arg c id = Some a → defaults_of a = [] → is_Some (am_args m !! id) →
  given_by_user (am_args m) id = true.
Proof.
  intros [Ha <-]%find_arg_in Hd [x Hx]. apply valid_args_ok in Ha. rewrite /valid_arg Hx in Ha.
  rewrite /given_by_user Hx. apply andb_true_iff in Ha as [[_ Ha]%andb_true_iff _].
  rewrite Hd in Ha. by case_bool_decide.
Qed.

Lemma given_present id : given_by_user (am_args m) id = true → is_Some (am_args m !! id).
Proof. rewrite /given_by_user. destruct (am_args m !! id); [by eexists|done]. Qed.

Lemma never_together id a id' :
  find_arg c id = Some a → id' ∈ conflicts_of c a →
  given_by_user (am_args m) id = true → given_by_user (am_args m) id' = false.
Proof.
  intros [Ha <-]%find_arg_in Hc Hg. apply valid_args_ok in Ha.
  apply andb_true_iff in Ha as [_ Ha]. rewrite Hg /= in Ha. apply andb_true_iff in Ha as [Ha _].
  apply (forallb_elem _ _ _ Ha) in Hc. by apply negb_true_iff.
Qed.

Lemma get_one_present k id v : get_one k m id = Some (Some v) → is_Some (am_args m !! id).
Proof.
  rewrite /get_one /get_many /lookup_arg. case_bool_decide; [|done]. simpl.
  destruct (am_args m !! id); [by eexists|done].
Qed.

(** Two arguments without defaults that conflict. *)
Definition excludes (id id' : string) : bool :=
  match find_arg c id, find_arg c id' with
  | Some a, Some a' =>
      bool_decide (defaults_of a = []) && bool_decide (defaults_of a' = []) &&
      bool_decide (id' ∈ conflicts_of c a)
  | _, _ => false
  end.

Lemma not_both k k' id id' o o' :
  excludes id id' = true → get_one k m id = Some o → get_one k' m id' = Some o' → o = None ∨ o' = None.
Proof.
  rewrite /excludes. destruct (find_arg c id) as [a|] eqn:Ha; [|done].
  destruct (find_arg c id') as [a'|] eqn:Ha'; [|done].
  rewrite !andb_true_iff !bool_decide_eq_true. intros [[Hd Hd'] Hc] Ho Ho'.
  destruct o as [v|]; [|by left]. destruct o' as [v'|]; [|by right].
  apply get_one_present in Ho, Ho'.
  pose proof (given_without_default _ _ Ha Hd Ho) as Hg.
  pose proof (given_without_default _ _ Ha' Hd' Ho') as Hg'.
  by rewrite (never_together _ _ _ Ha Hc Hg) in Hg'.
Qed.

Lemma comes_with id a id' b :
  find_arg c id = Some a → id' ∈ arg_requires a → find_arg c id' = Some b →
  given_by_user (am_args m) id = true →
  given_by_user (am_args m) id' = true ∨ ∃ o, o ∈ conflicts_of c b ∧ given_by_user (am_args m) o = true.
Proof.
  intros [Ha <-]%find_arg_in Hc Hb Hg. apply valid_args_ok in Ha.
  apply andb_true_iff in Ha as [_ Ha]. rewrite Hg /= in Ha. apply andb_true_iff in Ha as [_ Ha].
  apply (forallb_elem _ _ _ Ha), orb_true_iff in Hc as [Hc|Hc]; [by left|right].
  rewrite /waived Hb in Hc. apply existsb_exists in Hc as (o & Ho%list_elem_of_In & Hg'). eauto.
Qed.

Lemma group_given g :
  g ∈ cmd_groups c → ag_required g = true →
  ∃ id, id ∈ ag_args g ∧ given_by_user (am_args m) id = true.
Proof.
  intros Hg%valid_groups_ok Hr. rewrite /valid_group Hr /= in Hg.
  apply existsb_exists in Hg as (id & Hin%list_elem_of_In & Hid). eauto.
Qed.
End valid.

(** ** A parser

    One that the laws hold of: long options, flags and positional arguments. What it reads
    is checked before it is returned. *)

Definition find_long (c : Command) (s : string) : option Arg :=
  snd <$> list_find (λ a, ("--" +:+ default "" (arg_long a)) = s ∧ is_Some (arg_long a)) (cmd_args c).

Definition nth_positional (c : Command) (i : nat) : option Arg :=
  List.filter is_positional (cmd_args c) !! i.

(** The texts of the arguments, and the subcommand with what is left. *)
Fixpoint read_tokens (c : Command) (tokens : list string) (i : nat) (read : gmap string (list string)) :
    gmap string (list string) * option (string * list string) :=
  match tokens with
  | [] => (read, None)
  | t :: rest =>
      match find_long c t, rest with
      | Some a, rest =>
          match action_of a, rest with
          | ActionSetTrue, _ => read_tokens c rest i (<[arg_id a := ["true"]]> read)
          | _, v :: rest => read_tokens c rest i (<[arg_id a := default [] (read !! arg_id a) ++ [v]]> read)
          | _, [] => (read, None)
          end
      | None, rest =>
          match find_subcommand c t, nth_positional c i with
          | Some _, _ => (read, Some (t, rest))
          | None, Some a => read_tokens c rest (S i) (<[arg_id a := [t]]> read)
          | None, None => (read, None)
          end
      end
  end.

Definition match_arg (read : gmap string (list string)) (vars : gmap string string) (a : Arg) :
    option (string * MatchedArg) :=
  let matched source texts :=
    values ← mapM (parse_value (parser_of a)) texts;
    Some (arg_id a, {| mt_kind := kind_of a; mt_source := source; mt_values := values |}) in
  match read !! arg_id a, arg_env a ≫= λ v, vars !! v, defaults_of a with
  | Some texts, _, _ => matched CommandLine texts
  | None, Some text, _ => matched EnvVariable [text]
  | None, None, (_ :: _) as texts => matched DefaultValue texts
  | None, None, [] => None
  end.

Fixpoint parse_command (depth : nat) (c : Command) (vars : gmap string string) (tokens : list string) : ArgMatches :=
  let '(read, sub) := read_tokens c tokens 0 ∅ in
  Matches (list_to_map (omap (match_arg read vars) (cmd_args c)))
    ((arg_id <$> cmd_args c) ++ (ag_id <$> cmd_groups c)) (cmd_name <$> cmd_subcommands c)
    match depth, sub with
    | S depth, Some (name, rest) =>
        match find_subcommand c name with
        | Some c' => Some (name, parse_command depth c' vars rest)
        | None => None
        end
    | _, _ => None
    end.

#[local] Instance checked_clap : Clap := {|
  get_matches c argv vars :=
    let m := parse_command 3 c vars argv in
    if valid_matches c m then Ok m else Err "invalid arguments";
|}.

#[local] Instance checked_clap_laws : ClapLaws.
Proof. split. intros c argv vars m. simpl. by destruct (valid_matches _ _) eqn:Hv; [intros [= <-]|]. Qed.
