(* ===== verification/ServerCli.v ===== *)
(** * The command line of the policy server, and its start

    Models [crates/policy-server/src/cli.rs], the arguments that [Config::from_args] of
    [config.rs] reads, and what [main.rs] does with the options of the log, of the metrics and
    of the daemon: [setup_tracing] of [tracing.rs], [setup_metrics] of [metrics.rs] and
    [build_client_tls_config_from_env] of [config.rs]. *)

From S2P Require Import Prelude Bytes RustStr Config VerificationConstraints Sources Registry Fetcher Verify.
From S2P Require Import Certs CommandLine Clap.

(** ** [build_cli] *)

Definition server_args_declared : list Arg :=
  [Arg_new "log-level" |> long "log-level" |> env "KUBEWARDEN_LOG_LEVEL" |> default_value "info"
     |> value_parser (PossibleValues ["trace"; "debug"; "info"; "warn"; "error"]);
   Arg_new "log-fmt" |> long "log-fmt" |> env "KUBEWARDEN_LOG_FMT" |> default_value "text"
     |> value_parser (PossibleValues ["text"; "json"; "otlp"]);
   Arg_new "log-no-color" |> long "log-no-color" |> env "NO_COLOR" |> action ActionSetTrue;
   Arg_new "address" |> long "addr" |> default_value "0.0.0.0" |> env "KUBEWARDEN_BIND_ADDRESS";
   Arg_new "port" |> long "port" |> default_value "3000" |> env "KUBEWARDEN_PORT";
   Arg_new "readiness-probe-port" |> long "readiness-probe-port" |> default_value "8081"
     |> env "KUBEWARDEN_READINESS_PROBE_PORT";
   Arg_new "workers" |> long "workers" |> env "KUBEWARDEN_WORKERS";
   Arg_new "cert-file" |> long "cert-file" |> env "KUBEWARDEN_CERT_FILE" |> value_parser PathBufParser;
   Arg_new "key-file" |> long "key-file" |> env "KUBEWARDEN_KEY_FILE" |> value_parser PathBufParser;
   Arg_new "client-ca-file" |> long "client-ca-file" |> value_delimiter ","%char
     |> env "KUBEWARDEN_CLIENT_CA_FILE" |> value_parser PathBufParser;
   Arg_new "policies" |> long "policies" |> env "KUBEWARDEN_POLICIES" |> default_value "policies.yml";
   Arg_new "policies-download-dir" |> long "policies-download-dir" |> default_value "."
     |> env "KUBEWARDEN_POLICIES_DOWNLOAD_DIR";
   Arg_new "sigstore-cache-dir" |> long "sigstore-cache-dir" |> default_value "sigstore-data"
     |> env "KUBEWARDEN_SIGSTORE_CACHE_DIR";
   Arg_new "sigstore-trust-config" |> long "sigstore-trust-config"
     |> env "KUBEWARDEN_SIGSTORE_TRUST_CONFIG_PATH" |> value_parser PathBufParser;
   Arg_new "sources-path" |> long "sources-path" |> env "KUBEWARDEN_SOURCES_PATH";
   Arg_new "verification-path" |> long "verification-path" |> env "KUBEWARDEN_VERIFICATION_CONFIG_PATH";
   Arg_new "docker-config-json-path" |> long "docker-config-json-path"
     |> env "KUBEWARDEN_DOCKER_CONFIG_JSON_PATH";
   Arg_new "enable-metrics" |> long "enable-metrics" |> env "KUBEWARDEN_ENABLE_METRICS"
     |> action ActionSetTrue;
   Arg_new "always-accept-admission-reviews-on-namespace"
     |> long "always-accept-admission-reviews-on-namespace"
     |> env "KUBEWARDEN_ALWAYS_ACCEPT_ADMISSION_REVIEWS_ON_NAMESPACE" |> required false;
   Arg_new "disable-timeout-protection" |> long "disable-timeout-protection" |> action ActionSetTrue
     |> env "KUBEWARDEN_DISABLE_TIMEOUT_PROTECTION";
   Arg_new "policy-timeout" |> long "policy-timeout" |> env "KUBEWARDEN_POLICY_TIMEOUT"
     |> default_value "2";
   Arg_new "disable-memory-limit" |> long "disable-memory-limit" |> action ActionSetTrue
     |> env "KUBEWARDEN_DISABLE_MEMORY_LIMIT";
   Arg_new "policy-memory-limit" |> long "policy-memory-limit" |> env "KUBEWARDEN_POLICY_MEMORY_LIMIT"
     |> default_value "256";
   Arg_new "daemon" |> long "daemon" |> env "KUBEWARDEN_DAEMON" |> action ActionSetTrue;
   Arg_new "daemon-pid-file" |> long "daemon-pid-file" |> env "KUBEWARDEN_DAEMON_PID_FILE"
     |> default_value "policy-server.pid";
   Arg_new "daemon-stdout-file" |> long "daemon-stdout-file" |> env "KUBEWARDEN_DAEMON_STDOUT_FILE"
     |> required false;
   Arg_new "daemon-stderr-file" |> long "daemon-stderr-file" |> env "KUBEWARDEN_DAEMON_STDERR_FILE"
     |> required false;
   Arg_new "ignore-kubernetes-connection-failure" |> long "ignore-kubernetes-connection-failure"
     |> env "KUBEWARDEN_IGNORE_KUBERNETES_CONNECTION_FAILURE" |> action ActionSetTrue;
   Arg_new "enable-pprof" |> long "enable-pprof" |> env "KUBEWARDEN_ENABLE_PPROF"
     |> action ActionSetTrue;
   Arg_new "continue-on-errors" |> long "continue-on-errors" |> env "KUBEWARDEN_CONTINUE_ON_ERRORS"
     |> action ActionSetTrue].

Definition build_cli : Command :=
  Command_new "policy-server" |> args (sort_args server_args_declared)
    |> subcommands [Command_new "docs" |> arg (Arg_new "output" |> long "output" |> short "o"%char |> required true)].

(** No declaration trips an assertion of [clap]. *)
Lemma server_well_formed : well_formed 1 true build_cli = true.
Proof. vm_compute. reflexivity. Qed.

(** ** Reading the arguments *)

(** [get_one::<T>(id).expect(..)] *)
Definition expected (k : Kind) (m : ArgMatches) (id : string) : option (carrier k) := mjoin (get_one k m id).

Definition server_args (m : ArgMatches) : option ServerArgs :=
  address ← expected KString m "address";
  port ← expected KString m "port";
  readiness_probe_port ← expected KString m "readiness-probe-port";
  policies ← expected KString m "policies";
  policies_download_dir ← expected KString m "policies-download-dir";
  disable_timeout_protection ← expected KBool m "disable-timeout-protection";
  policy_timeout ← expected KString m "policy-timeout";
  disable_memory_limit ← expected KBool m "disable-memory-limit";
  policy_memory_limit ← expected KString m "policy-memory-limit";
  sources_path ← get_one KString m "sources-path";
  docker_config_json_path ← get_one KString m "docker-config-json-path";
  workers ← get_one KString m "workers";
  always_accept ← get_one KString m "always-accept-admission-reviews-on-namespace";
  enable_metrics ← expected KBool m "enable-metrics";
  ignore_failure ← expected KBool m "ignore-kubernetes-connection-failure";
  verification_path ← get_one KString m "verification-path";
  sigstore_cache_dir ← expected KString m "sigstore-cache-dir";
  sigstore_trust_config ← get_one KPath m "sigstore-trust-config";
  cert_file ← get_one KPath m "cert-file";
  key_file ← get_one KPath m "key-file";
  client_ca_file ← get_many KPath m "client-ca-file";
  enable_pprof ← expected KBool m "enable-pprof";
  continue_on_errors ← expected KBool m "continue-on-errors";
  Some {| sa_address := address; sa_port := port; sa_readiness_probe_port := readiness_probe_port;
          sa_policies := policies; sa_policies_download_dir := policies_download_dir;
          sa_disable_timeout_protection := disable_timeout_protection;
          sa_policy_timeout := policy_timeout; sa_disable_memory_limit := disable_memory_limit;
          sa_policy_memory_limit := policy_memory_limit; sa_sources_path := sources_path;
          sa_docker_config_json_path := docker_config_json_path; sa_workers := workers;
          sa_always_accept_namespace := always_accept; sa_enable_metrics := enable_metrics;
          sa_ignore_kubernetes_connection_failure := ignore_failure;
          sa_verification_path := verification_path; sa_sigstore_cache_dir := sigstore_cache_dir;
          sa_sigstore_trust_config := sigstore_trust_config; sa_cert_file := cert_file;
          sa_key_file := key_file; sa_client_ca_file := client_ca_file; sa_enable_pprof := enable_pprof;
          sa_continue_on_errors := continue_on_errors |}.

(** The options of the log and of the daemon. *)
Record ProcessArgs := {
  pa_log_level : string;
  pa_log_fmt : string;
  pa_log_no_color : bool;
  pa_daemon : bool;
  pa_daemon_pid_file : string;
  pa_daemon_stdout_file : option string;
  pa_daemon_stderr_file : option string;
}.

Definition process_args (m : ArgMatches) : option ProcessArgs :=
  daemon ← expected KBool m "daemon";
  daemon_pid_file ← expected KString m "daemon-pid-file";
  daemon_stdout_file ← get_one KString m "daemon-stdout-file";
  daemon_stderr_file ← get_one KString m "daemon-stderr-file";
  log_level ← expected KString m "log-level";
  log_fmt ← expected KString m "log-fmt";
  log_no_color ← expected KBool m "log-no-color";
  Some {| pa_log_level := log_level; pa_log_fmt := log_fmt; pa_log_no_color := log_no_color;
          pa_daemon := daemon; pa_daemon_pid_file := daemon_pid_file;
          pa_daemon_stdout_file := daemon_stdout_file; pa_daemon_stderr_file := daemon_stderr_file |}.

(** ** Telemetry *)

(** [ClientTlsConfig]: the CA and the identity it was given, if any. *)
Record ClientTlsConfig := {
  otlp_ca_certificate : option bytes;
  otlp_identity : option (bytes * bytes);
}.

Section telemetry.
Context (vars : gmap string string) (fs_read : string → result bytes string).

(** [env::var(name).or_else(|_| env::var(fallback)).ok()] *)
Definition var_or (name fallback : string) : option string :=
  match vars !! name with Some v => Some v | None => vars !! fallback end.

Definition build_client_tls_config_from_env (prefix : string) : result ClientTlsConfig string :=
  let ca_file := var_or ("OTEL_EXPORTER_OTLP_" +:+ prefix +:+ "CERTIFICATE") "OTEL_EXPORTER_OTLP_CERTIFICATE" in
  let? ca_certificate := match ca_file with
    | Some ca_path => res_map Some (fs_read ca_path)
    | None => Ok None
    end in
  let client_cert_file := var_or ("OTEL_EXPORTER_OTLP_" +:+ prefix +:+ "CLIENT_CERTIFICATE")
    "OTEL_EXPORTER_OTLP_CLIENT_CERTIFICATE" in
  let client_key_file := var_or ("OTEL_EXPORTER_OTLP_" +:+ prefix +:+ "CLIENT_KEY")
    "OTEL_EXPORTER_OTLP_CLIENT_KEY" in
  let? identity := match client_cert_file, client_key_file with
    | Some cert_path, Some key_path =>
        let? cert := fs_read cert_path in
        let? key := fs_read key_path in
        Ok (Some (cert, key))
    | _, _ => Ok None
    end in
  Ok {| otlp_ca_certificate := ca_certificate; otlp_identity := identity |}.

(** The layer the events are written with, and what is exported. *)
Inductive LogLayer := JsonLayer | TextLayer (ansi : bool) | OtlpLayer.

Record Telemetry := {
  tel_filter : list string;
  tel_layer : LogLayer;
  tel_tracer : option ClientTlsConfig;
}.

Definition filter_directives (log_level : string) : list string :=
  [log_level; "cranelift_codegen=off"; "cranelift_wasm=off"; "h2=off"; "hyper=off"; "regalloc=off";
   "wasmtime_cranelift=off"; "wasmtime_jit=off"].

(** [exporter] builds the exporter of a TLS configuration. *)
Definition setup_tracing (exporter : ClientTlsConfig → result unit string)
    (log_level log_fmt : string) (log_no_color : bool) : result Telemetry string :=
  let filter := filter_directives log_level in
  if decide (log_fmt = "json") then
    Ok {| tel_filter := filter; tel_layer := JsonLayer; tel_tracer := None |}
  else if decide (log_fmt = "text") then
    Ok {| tel_filter := filter; tel_layer := TextLayer log_no_color; tel_tracer := None |}
  else if decide (log_fmt = "otlp") then
    let? tls_config := build_client_tls_config_from_env "OTLP" in
    let? _ := exporter tls_config in
    Ok {| tel_filter := filter; tel_layer := OtlpLayer; tel_tracer := Some tls_config |}
  else Err "Unknown log message format".

(** The TLS configuration of the exporter of the metrics. *)
Definition setup_metrics (exporter : ClientTlsConfig → result unit string) : result ClientTlsConfig string :=
  let? tls_config := build_client_tls_config_from_env "METRICS" in
  let? _ := exporter tls_config in
  Ok tls_config.

(** ** [main] *)

(** The calls of the daemon: [fs::File::create] and [Daemonize::start]. *)
Context (fs_create : string → result unit string).
Context (daemonize : string → option string → option string → result unit string).

Definition daemon_file (what : string) (path : option string) : result unit string :=
  match path with
  | Some path => map_err (λ e, "Cannot create file for daemon " +:+ what +:+ ": " +:+ e) (fs_create path)
  | None => Ok tt
  end.

Definition start_daemon (p : ProcessArgs) : result unit string :=
  if negb (pa_daemon p) then Ok tt else
  let? _ := daemon_file "stdout" (pa_daemon_stdout_file p) in
  let? _ := daemon_file "stderr" (pa_daemon_stderr_file p) in
  map_err (λ e, "Cannot daemonize: " +:+ e)
    (daemonize (pa_daemon_pid_file p) (pa_daemon_stdout_file p) (pa_daemon_stderr_file p)).
End telemetry.

Inductive DocsFormat := Markdown | AsciiDoc.

(** What the process does before it serves: the documentation it writes, or the settings,
    the log and the metrics it goes on with. *)
Inductive Started `{UL : UrlLib, SG : Sigstore, CE : CliEnv} :=
| DocsWritten (output : string) (format : DocsFormat)
| Starting (settings : ServerSettings) (telemetry : Telemetry) (metrics : option ClientTlsConfig).

Section server_main.
Context `{HI : HashIter, UL : UrlLib, SG : Sigstore, YL : !YamlLib, SE : SourceEnv, CE : CliEnv}.
Context (fs_read : string → result bytes string) (fs_create fs_write_all : string → result unit string).
Context (exporter : ClientTlsConfig → result unit string).
Context (daemonize : string → option string → option string → result unit string).

Definition run_docs_subcommand (m : ArgMatches) : option (result Started string) :=
  output ← expected KString m "output";
  Some (
    let? _ := map_err (λ e, "cannot create file " +:+ output +:+ ": " +:+ e) (fs_create output) in
    let? _ := map_err (λ e, "cannot write to file " +:+ output +:+ ": " +:+ e) (fs_write_all output) in
    Ok (DocsWritten output (if ends_with output ".md" then Markdown else AsciiDoc))).

Definition server_main (m : ArgMatches) (vars : gmap string string) :
    option (result Started string) :=
  if decide (subcommand_name m = Some "docs") then
    sub ← subcommand_matches m "docs"; sub ← sub; run_docs_subcommand sub
  else
    a ← server_args m;
    p ← process_args m;
    r ← from_args a vars;
    Some (
      let? settings := r.1 in
      let? telemetry := setup_tracing r.2 fs_read exporter (pa_log_level p) (pa_log_fmt p) (pa_log_no_color p) in
      let? metrics := if ss_metrics_enabled settings then res_map Some (setup_metrics r.2 fs_read exporter)
                      else Ok None in
      let? _ := start_daemon fs_create daemonize p in
      Ok (Starting settings telemetry metrics)).
End server_main.

(** ** Properties *)

Section sound.
Context `{HI : HashIter, UL : UrlLib, SG : Sigstore, YL : !YamlLib, SE : SourceEnv, CE : CliEnv}.

Lemma from_args_panics a vars :
  from_args a vars = None → ∃ v e, sa_workers a = Some v ∧ parse_unsigned usize_bound v = Err e.
Proof.
  rewrite /from_args. destruct (let? addr := _ in _) as [[[[[[addr ready] ps] secs] mem] srcs]|e]; [|done].
  rewrite /pool_size. destruct (sa_workers a) as [v|]; [|done].
  destruct (parse_unsigned _ v) as [|e] eqn:Hv; [done|]. intros _. by exists v, e.
Qed.

(** What the server is started with. *)
Record args_sound (m : ArgMatches) (a : ServerArgs) (p : ProcessArgs) : Prop := {
  protected_by_default :
    (sa_disable_timeout_protection a = true → given_by_user (am_args m) "disable-timeout-protection" = true) ∧
    (sa_disable_memory_limit a = true → given_by_user (am_args m) "disable-memory-limit" = true) ∧
    (sa_enable_pprof a = true → given_by_user (am_args m) "enable-pprof" = true) ∧
    (sa_continue_on_errors a = true → given_by_user (am_args m) "continue-on-errors" = true);
  default_limits :
    (sa_policy_timeout a = "2" ∨ given_by_user (am_args m) "policy-timeout" = true) ∧
    (sa_policy_memory_limit a = "256" ∨ given_by_user (am_args m) "policy-memory-limit" = true);
  client_cas_given cas : sa_client_ca_file a = Some cas → cas ≠ [];
  known_log_fmt : pa_log_fmt p ∈ ["text"; "json"; "otlp"];
  known_log_level : pa_log_level p ∈ ["trace"; "debug"; "info"; "warn"; "error"];
}.

Ltac flag_given_by H :=
  let Hb := fresh in intros Hb; subst; eapply (flag_given _ _ H); [reflexivity..|eassumption].

Lemma text_or_given m id a d v :
  valid_matches build_cli m = true → find_arg build_cli id = Some a → parser_of a = StringParser →
  defaults_of a = [d] → get_one KString m id = Some (Some v) →
  v = d ∨ given_by_user (am_args m) id = true.
Proof.
  intros H Hf Hp Hd Hv. destruct (given_by_user (am_args m) id) eqn:Hg; [by right|left].
  by eapply (default_text _ _ H).
Qed.

Ltac read_expected H :=
  let E := fresh "E" in
  match goal with
  | |- context [expected ?k ?m ?id] =>
      destruct (get_one_always _ m H k id eq_refl) as [? E]; rewrite /(expected k m id) E
  | |- context [get_one ?k ?m ?id] =>
      destruct (get_one_total _ m H k id eq_refl) as [? E]; rewrite E
  | |- context [get_many ?k ?m ?id] =>
      destruct (get_many_total _ m H k id eq_refl) as [? E]; rewrite E
  end; cbn [mbind option_bind mjoin option_join].

Lemma server_args_sound m :
  valid_matches build_cli m = true →
  ∃ a p, server_args m = Some a ∧ process_args m = Some p ∧ args_sound m a p.
Proof.
  intros H. rewrite /server_args /process_args. repeat read_expected H.
  do 2 eexists. split; [done|]. split; [done|]. split; simpl.
  - split_and!; flag_given_by H.
  - split; (eapply (text_or_given _ _ _ _ _ H); [reflexivity..|eassumption]).
  - intros cas ->. match goal with E : get_many _ _ "client-ca-file" = _ |- _ => rename E into Ec end.
    destruct (contains_id_spec _ _ H KPath "client-ca-file" eq_refl) as (o & Ho & _ & Hiff).
    rewrite Ec in Ho. injection Ho as <-.
    destruct (get_many_present _ m H KPath "client-ca-file" eq_refl) as (v & l & Hl); [by apply Hiff; eexists|].
    rewrite Hl in Ec. by injection Ec as <-.
  - eapply (get_one_possible _ _ H "log-fmt"); [reflexivity..|eassumption].
  - eapply (get_one_possible _ _ H "log-level"); [reflexivity..|eassumption].
Qed.
End sound.

Section theorems.
Context `{HI : HashIter, UL : UrlLib, SG : Sigstore, YL : !YamlLib, SE : SourceEnv, CE : CliEnv}.
Context (fs_read : string → result bytes string) (fs_create fs_write_all : string → result unit string).
Context (exporter : ClientTlsConfig → result unit string).
Context (daemonize : string → option string → option string → result unit string).

Lemma docs_valid m :
  valid_matches build_cli m = true → subcommand_name m = Some "docs" →
  ∃ m', subcommand_matches m "docs" = Some (Some m') ∧ is_Some (expected KString m' "output").
Proof.
  intros H Hn. rewrite /subcommand_name in Hn. pose proof (valid_parts _ _ H) as (_ & _ & _ & _ & Hs).
  destruct (am_subcommand m) as [[name m']|] eqn:Hm; [|done]. injection Hn as ->.
  destruct Hs as (c & [Hin _]%find_subcommand_in & Hv). apply list_elem_of_singleton in Hin as ->.
  exists m'. split; [by rewrite (subcommand_matches_valid _ _ _ H) // Hm|].
  destruct (get_one_always _ _ Hv KString "output" eq_refl) as [v Hout]. by rewrite /expected Hout; eexists.
Qed.

(** C40. The declarations of the policy server and the code that reads them agree: on every command
    line and environment that are accepted, each argument is there with the type it is read
    with, and starting up panics only on a number of workers that is not a number. The
    protections are those the user asked for: policies run with the deadline and the memory
    limit of the declarations unless the user gave others, and the limits, the strict start
    and the absence of profiling endpoints are only given up on demand. A list of client CAs
    is never empty, and the format of the log is one that [setup_tracing] knows. *)
Theorem server_arguments_sound `{CP : Clap, CL : !ClapLaws} argv vars m :
  get_matches build_cli argv vars = Ok m →
  ∃ a p, server_args m = Some a ∧ process_args m = Some p ∧ args_sound m a p ∧
    (server_main fs_read fs_create fs_write_all exporter daemonize m vars = None →
     ∃ v e, sa_workers a = Some v ∧ parse_unsigned usize_bound v = Err e) ∧
    ∀ vars' e, setup_tracing vars' fs_read exporter (pa_log_level p) (pa_log_fmt p) (pa_log_no_color p) = Err e →
      pa_log_fmt p = "otlp".
Proof.
  intros H%get_matches_valid. destruct (server_args_sound m H) as (a & p & Ha & Hp & Hs).
  exists a, p. split_and!; [done..| |].
  - rewrite /server_main. case_decide as Hd.
    + destruct (docs_valid m H Hd) as (m' & Hm' & [out Hout]).
      by rewrite Hm' /= /run_docs_subcommand Hout.
    + rewrite Ha Hp /=. destruct (from_args a vars) eqn:Hf; [done|]. intros _. by eapply from_args_panics.
  - intros vars' e. rewrite /setup_tracing. pose proof (known_log_fmt _ _ _ Hs) as Hin.
    repeat (apply elem_of_cons in Hin as [->|Hin]); [..|by apply not_elem_of_nil in Hin]; done.
Qed.
End theorems.

(** The variables of the OpenTelemetry specification for the metrics alone have no effect:
    the names that are looked up lack a separator. *)
Lemma metrics_variables_ignored vars fs_read name value :
  name ∈ ["OTEL_EXPORTER_OTLP_METRICS_CERTIFICATE"; "OTEL_EXPORTER_OTLP_METRICS_CLIENT_CERTIFICATE";
          "OTEL_EXPORTER_OTLP_METRICS_CLIENT_KEY"] →
  build_client_tls_config_from_env (<[name := value]> vars) fs_read "METRICS" =
    build_client_tls_config_from_env vars fs_read "METRICS".
Proof.
  intros Hin. rewrite /build_client_tls_config_from_env /var_or.
  repeat (apply elem_of_cons in Hin as [->|Hin]); [..|by apply not_elem_of_nil in Hin].
  all: by rewrite !lookup_insert_ne.
Qed.

(** ** Examples *)

#[local] Existing Instance checked_clap.
#[local] Existing Instance checked_clap_laws.
#[local] Existing Instance example_cli.
#[local] Existing Instance simple_yaml.

Definition panics {A} (o : option A) : bool := match o with None => true | Some _ => false end.

Lemma server_arguments_sound_witness :
  ∃ a p, let m := parse_command 3 build_cli {["KUBEWARDEN_PORT" := "8443"]} ["--workers"; "four"] in
    server_args m = Some a ∧ sa_port a = "8443" ∧ sa_policy_timeout a = "2" ∧ args_sound m a p ∧
    panics (server_main (UL := simple_url) (λ _, Err "") (λ _, Ok tt) (λ _, Ok tt) (λ _, Ok tt) (λ _ _ _, Ok tt) m ∅) = true.
Proof.
  destruct (server_arguments_sound (UL := simple_url) (λ _, Err "") (λ _, Ok tt) (λ _, Ok tt) (λ _, Ok tt)
    (λ _ _ _, Ok tt) ["--workers"; "four"] {["KUBEWARDEN_PORT" := "8443"]}
    (parse_command 3 build_cli {["KUBEWARDEN_PORT" := "8443"]} ["--workers"; "four"]))
    as (a & p & Ha & Hp & Hs & _); [vm_compute; reflexivity|].
  exists a, p. split; [exact Ha|].
  assert (∃ a, server_args (parse_command 3 build_cli {["KUBEWARDEN_PORT" := "8443"]} ["--workers"; "four"]) = Some a ∧
    sa_port a = "8443" ∧ sa_policy_timeout a = "2") as (a' & Ha' & Hport & Ht).
  { vm_compute. eexists. split_and!; reflexivity. }
  rewrite Ha in Ha'. injection Ha' as <-. split; [exact Hport|]. split; [exact Ht|]. split; [exact Hs|].
  vm_compute. reflexivity.
Defined.

(** [--log-no-color] turns the colours of the text format on. *)
Example log_no_color_inverted vars fs_read exporter :
  setup_tracing vars fs_read exporter "info" "text" true =
    Ok {| tel_filter := filter_directives "info"; tel_layer := TextLayer true; tel_tracer := None |}.
Proof. reflexivity. Qed.

(** A client certificate without a key is dropped without an error. *)
Example client_certificate_without_key :
  build_client_tls_config_from_env {["OTEL_EXPORTER_OTLP_CLIENT_CERTIFICATE" := "missing.pem"]}
    (λ _, Err "No such file or directory") "METRICS" =
    Ok {| otlp_ca_certificate := None; otlp_identity := None |}.
Proof. vm_compute. reflexivity. Qed.
