(* ===== verification/WasmScanner.v ===== *)
(** * Host capabilities a module may use

    Models [crates/kwctl/src/wasm_scanner.rs]: the scan of the data segments of a
    Wasm module for the names of the host operations. The substring search of the
    [memchr] crate is the interface [Memmem]. *)

From S2P Require Import Prelude Bytes RustStr HostCapabilities.

(** [memmem::find]: the position of the first occurrence. *)
Class Memmem := memmem_find : bytes → bytes → option nat.

Definition occurs_at (needle data : bytes) (i : nat) : Prop := needle `prefix_of` drop i data.

Class MemmemLaws (MM : Memmem) : Prop := {
  memmem_Some data needle i : memmem_find data needle = Some i →
    i ≤ length data ∧ occurs_at needle data i ∧ ∀ j, j < i → ¬ occurs_at needle data j;
  memmem_None data needle : memmem_find data needle = None →
    ∀ i, i ≤ length data → ¬ occurs_at needle data i;
}.

#[export] Instance occurs_at_dec needle data i : Decision (occurs_at needle data i).
Proof. rw /occurs_at. apply _. Defined.

Record DetectedHostCapability := { dhc_namespace : string; dhc_operation : string }.

Section scanner.
Context `{MM : Memmem}.

(** [while let Some(pos) = memmem::find(&data[offset..], needle)]: each round moves the
    offset forward, so the length of the data bounds the number of rounds. The slice
    panics past the end. *)
Fixpoint standalone_loop (fuel : nat) (data needle longer : bytes) (offset : nat) : option bool :=
  match fuel with
  | O => None
  | S fuel =>
      if bool_decide (length data < offset) then None else
      match memmem_find (drop offset data) needle with
      | None => Some false
      | Some pos =>
          let abs_pos := offset + pos in
          if bool_decide (longer `prefix_of` drop abs_pos data)
          then standalone_loop fuel data needle longer (abs_pos + 1)
          else Some true
      end
  end.

Definition has_standalone_match (data needle longer : bytes) : option bool :=
  standalone_loop (S (length data)) data needle longer 0.

(** [all] over the siblings, stopping at the first that fails. *)
Fixpoint all_standalone (data operation : bytes) (longer_siblings : list string) : option bool :=
  match longer_siblings with
  | [] => Some true
  | longer :: rest =>
      b ← has_standalone_match data operation (as_bytes longer);
      if b : bool then all_standalone data operation rest else Some false
  end.

Definition found (data : bytes) (s : string) : bool :=
  bool_decide (is_Some (memmem_find data (as_bytes s))).

Definition is_operation_present (data : bytes) (namespace operation : string)
    (longer_siblings : list string) : option bool :=
  if negb (found data namespace) then Some false
  else match longer_siblings with
       | [] => Some (found data operation)
       | _ => all_standalone data (as_bytes operation) longer_siblings
       end.

(** The segments, each followed by a byte no operation contains. *)
Definition separator : ascii := Ascii.ascii_of_N 0xFF.

Definition all_data (segments : list bytes) : bytes :=
  concat ((λ s, s ++ [separator]) <$> segments).

Definition longer_siblings_of (operation : string) : list string :=
  filter (λ other, other ≠ operation ∧ starts_with other operation) (enumerate_operations.*2).

(** [scan] on the data segments of a module; [None] if a slice panics. *)
Definition scan (segments : list bytes) : option (list DetectedHostCapability) :=
  let data := all_data segments in
  foldl (λ acc no,
    capabilities ← acc;
    present ← is_operation_present data no.1 no.2 (longer_siblings_of no.2);
    Some (if present : bool
          then capabilities ++ [{| dhc_namespace := no.1; dhc_operation := no.2 |}]
          else capabilities)) (Some []) enumerate_operations.
End scanner.

(** ** Properties *)

(** An occurrence of [needle] where none of [longers] starts. *)
Definition standalone (data needle : bytes) (longers : list bytes) : Prop :=
  ∃ i, i ≤ length data ∧ occurs_at needle data i ∧ ∀ l, l ∈ longers → ¬ occurs_at l data i.

Section scanner_lemmas.
Context `{MM : Memmem, ML : !MemmemLaws MM}.
Implicit Types (data needle longer : bytes).

Lemma occurs_at_drop needle data o i : occurs_at needle (drop o data) i ↔ occurs_at needle data (o + i).
Proof. rw /occurs_at drop_drop. done. Qed.

Lemma occurs_at_length needle data i :
  needle ≠ [] → occurs_at needle data i → i < length data.
Proof.
  intros Hn [r Hr]. apply (f_equal length) in Hr. rewrite length_drop length_app in Hr.
  destruct needle; [done|]. simpl in Hr. lia.
Qed.

(** The loop ends within its fuel, and never slices past the end. *)
Lemma standalone_loop_spec fuel data needle longer offset :
  needle ≠ [] → offset ≤ length data → length data < fuel + offset →
  ∃ b : bool, standalone_loop fuel data needle longer offset = Some b ∧
    (b ↔ ∃ i, offset ≤ i ∧ occurs_at needle data i ∧ ¬ occurs_at longer data i).
Proof.
  intros Hne. revert offset. induction fuel as [|fuel IH]; intros offset Ho Hf; [lia|]. simpl.
  rw bool_decide_eq_false_2; [|lia].
  destruct (memmem_find (drop offset data) needle) as [pos|] eqn:Hfind; last first.
  { exists false. split; [done|]. split; [done|]. intros (i & Hi & Hocc & _).
    pose proof (occurs_at_length _ _ _ Hne Hocc).
    eapply memmem_None; [done| |apply occurs_at_drop].
    2: by replace (offset + (i - offset)) with i by lia.
    rw length_drop. lia. }
  apply memmem_Some in Hfind as (Hpos & Hocc & Hfirst). apply occurs_at_drop in Hocc.
  pose proof (occurs_at_length _ _ _ Hne Hocc).
  case_bool_decide as Hlonger; last first.
  { exists true. split; [done|]. split; [|done]. intros _. exists (offset + pos).
    split; [lia|done]. }
  destruct (IH (offset + pos + 1)) as (b & Hb & Hspec); [lia|lia|].
  exists b. split; [done|]. rw Hspec. split.
  - intros (i & Hi & Hrest). exists i. split; [lia|done].
  - intros (i & Hi & Hi1 & Hi2). exists i. split; [|done].
    destruct (decide (i < offset + pos)) as [Hlt|].
    { exfalso. apply (Hfirst (i - offset)); [lia|]. apply occurs_at_drop.
      by replace (offset + (i - offset)) with i by lia. }
    destruct (decide (i = offset + pos)) as [->|]; [done|lia].
Qed.

Lemma has_standalone_match_ok data needle longer :
  needle ≠ [] →
  ∃ b : bool, has_standalone_match data needle longer = Some b ∧
    (b ↔ standalone data needle [longer]).
Proof.
  intros Hne. destruct (standalone_loop_spec (S (length data)) data needle longer 0)
    as (b & Hb & Hspec); [done|lia|lia|].
  exists b. split; [done|]. rw Hspec /standalone. split.
  - intros (i & _ & Hi & Hl). exists i. pose proof (occurs_at_length _ _ _ Hne Hi).
    split_and!; [lia|done|]. by intros l ->%list_elem_of_singleton.
  - intros (i & _ & Hi & Hl). exists i. split_and!; [lia|done|]. apply Hl. set_solver.
Qed.

(** C31. The search for a standalone occurrence ends: one round more than the length of
    the data is enough, more rounds change nothing, and no slice is out of
    bounds. *)
Theorem standalone_loop_terminates data needle longer fuel :
  needle ≠ [] → length data < fuel →
  is_Some (has_standalone_match data needle longer) ∧
  standalone_loop fuel data needle longer 0 = has_standalone_match data needle longer.
Proof.
  intros Hne Hf. destruct (standalone_loop_spec fuel data needle longer 0)
    as (b & Hb & Hspec); [done|lia|lia|].
  destruct (standalone_loop_spec (S (length data)) data needle longer 0)
    as (b' & Hb' & Hspec'); [done|lia|lia|].
  rw /has_standalone_match Hb Hb'. split; [done|]. f_equal.
  apply eq_true_iff_eq. rewrite -!Is_true_true Hspec Hspec'. done.
Qed.

Lemma found_spec data s :
  s ≠ "" → found data s ↔ standalone data (as_bytes s) [].
Proof.
  intros Hs. rw /found bool_decide_spec /standalone. split.
  - intros [i Hi]. apply memmem_Some in Hi as (Hi & Hocc & _). exists i. set_solver.
  - intros (i & Hi & Hocc & _). destruct (memmem_find _ _) eqn:Hf; [done|].
    exfalso. by eapply memmem_None.
Qed.

(** *** Segments *)

Lemma prefix_separator n x r :
  separator ∉ n → n `prefix_of` (x ++ separator :: r) ↔ n `prefix_of` x.
Proof.
  revert n. induction x as [|c x IH]; intros n Hn; simpl.
  - destruct n as [|d n].
    + split; intros _; apply prefix_nil.
    + split.
      * intros Hp. pose proof (prefix_cons_inv_1 _ _ _ _ Hp). set_solver.
      * intros Hp. by apply prefix_nil_not in Hp.
  - destruct n as [|d n]; [split; intros _; apply prefix_nil|].
    split; intros Hp; pose proof (prefix_cons_inv_1 _ _ _ _ Hp); subst;
      apply prefix_cons_inv_2 in Hp; apply prefix_cons, IH; [set_solver|done|set_solver|done].
Qed.

Lemma occurs_at_segment n s rest i :
  separator ∉ n → n ≠ [] →
  occurs_at n (s ++ separator :: rest) i ↔
  occurs_at n s i ∨ ∃ j, i = length s + 1 + j ∧ occurs_at n rest j.
Proof.
  intros Hn Hne. rw /occurs_at. destruct (decide (i ≤ length s)) as [Hi|Hi].
  - rw drop_app_le // prefix_separator //. split; [by left|]. intros [?|(j & -> & _)]; [done|lia].
  - assert (∃ j, i = length s + 1 + j) as [j ->] by (exists (i - length s - 1); lia).
    rewrite -Nat.add_assoc drop_app_add. simpl. split.
    + intros Hp. right. exists j. split; [lia|done].
    + intros [Hp|(j' & Hj & Hp)]; [|by replace j with j' by lia].
      rewrite drop_ge in Hp; [|lia]. by apply prefix_nil_inv in Hp.
Qed.

(** Operations do not span segments. *)
Lemma standalone_all_data segments n longers :
  separator ∉ n → n ≠ [] → (∀ l, l ∈ longers → separator ∉ l ∧ l ≠ []) →
  standalone (all_data segments) n longers ↔
  ∃ s, s ∈ segments ∧ standalone s n longers.
Proof.
  intros Hn Hne Hl. induction segments as [|s segments IH].
  { rw /standalone. split; [|set_solver]. intros (i & _ & Hi & _).
    apply occurs_at_length in Hi; [simpl in Hi; lia|done]. }
  rw /all_data fmap_cons /=. rewrite -app_assoc /=. fold (all_data segments).
  setoid_rewrite elem_of_cons. split.
  - intros (i & _ & Hi & Hns). apply occurs_at_segment in Hi as [Hi|(j & -> & Hj)]; [| |done|done].
    + exists s. split; [by left|]. exists i. pose proof (occurs_at_length _ _ _ Hne Hi).
      split_and!; [lia|done|]. intros l Hin Hls. apply (Hns l Hin).
      apply occurs_at_segment; [by apply Hl..|]. by left.
    + assert (standalone (all_data segments) n longers) as Hst.
      { exists j. pose proof (occurs_at_length _ _ _ Hne Hj). split_and!; [lia|done|].
        intros l Hin Hls. apply (Hns l Hin). apply occurs_at_segment; [by apply Hl..|]. eauto. }
      apply IH in Hst as (s' & Hs' & Hst). eauto.
  - intros (s' & [->|Hs'] & Hst).
    + destruct Hst as (i & _ & Hi & Hns). exists i. pose proof (occurs_at_length _ _ _ Hne Hi).
      split_and!; [rw length_app; lia|apply occurs_at_segment; auto|].
      intros l Hin [Hls|(j & -> & _)]%occurs_at_segment; [by eapply Hns|lia|by apply Hl..].
    + assert (standalone (all_data segments) n longers) as (i & Hil & Hi & Hns) by (apply IH; eauto).
      exists (length s + 1 + i). pose proof (occurs_at_length _ _ _ Hne Hi).
      split_and!; [rw length_app /=; lia|apply occurs_at_segment; eauto|].
      intros l Hin [Hls|(j & Hj & Hlj)]%occurs_at_segment; [|..|by apply Hl|by apply Hl].
      * apply occurs_at_length in Hls; [lia|by apply Hl].
      * apply (Hns l Hin). by replace i with j by lia.
Qed.

Lemma as_bytes_nonempty s : s ≠ "" → as_bytes s ≠ [].
Proof. by destruct s. Qed.

(** With at most one longer sibling, an operation is present exactly when it occurs
    on its own. *)
Lemma is_operation_present_spec data namespace operation siblings :
  namespace ≠ "" → operation ≠ "" → length siblings ≤ 1 →
  ∃ b : bool, is_operation_present data namespace operation siblings = Some b ∧
    (b ↔ standalone data (as_bytes namespace) [] ∧
         standalone data (as_bytes operation) (as_bytes <$> siblings)).
Proof.
  intros Hns Hop Hsib. rw /is_operation_present.
  pose proof (found_spec data namespace Hns) as Hf.
  destruct (found data namespace); simpl in *; last first.
  { exists false. split; [done|]. simpl. naive_solver. }
  destruct siblings as [|longer [|]]; [| |simpl in Hsib; lia].
  - exists (found data operation). split; [done|]. rewrite (found_spec data operation Hop). naive_solver.
  - destruct (has_standalone_match_ok data (as_bytes operation) (as_bytes longer))
      as (b & Hb & Hspec); [by apply as_bytes_nonempty|].
    exists b. cbn [all_standalone]. rw Hb /=. split; [by destruct b|]. rw Hspec /=. naive_solver.
Qed.

Lemma scan_fold (present : string * string → option bool) (P : string * string → Prop) ops acc :
  (∀ no, no ∈ ops → ∃ b : bool, present no = Some b ∧ (b ↔ P no)) →
  ∃ l, foldl (λ acc no,
      capabilities ← acc; b ← present no;
      Some (if b : bool then capabilities ++ [{| dhc_namespace := no.1; dhc_operation := no.2 |}]
            else capabilities)) (Some acc) ops = Some (acc ++ l) ∧
    ∀ ns op, {| dhc_namespace := ns; dhc_operation := op |} ∈ l ↔ (ns, op) ∈ ops ∧ P (ns, op).
Proof.
  revert acc. induction ops as [|no ops IH]; intros acc Hp; simpl.
  { exists []. rw app_nil_r. split; [done|]. set_solver. }
  destruct (Hp no (list_elem_of_here _ _)) as (b & Hb & HP). rw Hb /=.
  destruct (IH (if b then acc ++ [{| dhc_namespace := no.1; dhc_operation := no.2 |}] else acc))
    as (l & Hl & Hspec); [set_solver|].
  destruct b; rw Hl.
  - exists ({| dhc_namespace := no.1; dhc_operation := no.2 |} :: l).
    rewrite -app_assoc. split; [done|]. intros ns op. rw !elem_of_cons Hspec.
    destruct no as [n o]. simpl. naive_solver.
  - exists l. split; [done|]. intros ns op. rw elem_of_cons Hspec. destruct no. naive_solver.
Qed.
End scanner_lemmas.

(** What the scan relies on of the tree of capabilities: no name is empty or contains
    the separator, and no operation is a prefix of two others. *)
Definition clean_name (s : string) : bool :=
  negb (String.eqb s "") && forallb (λ c, negb (Ascii.eqb c separator)) (as_bytes s).

Definition clean_operation (no : string * string) : bool :=
  clean_name no.1 && clean_name no.2 && forallb clean_name (longer_siblings_of no.2) &&
  (length (longer_siblings_of no.2) <=? 1).

Lemma clean_name_spec s : clean_name s = true → s ≠ "" ∧ separator ∉ as_bytes s.
Proof.
  rw /clean_name andb_true_iff negb_true_iff String.eqb_neq forallb_forall.
  intros [Hs Hc]. split; [done|]. intros Hin%list_elem_of_In. specialize (Hc _ Hin).
  by rewrite Ascii.eqb_refl in Hc.
Qed.

Lemma operations_clean no : no ∈ enumerate_operations → clean_operation no = true.
Proof.
  assert (forallb clean_operation enumerate_operations = true) as H by (vm_compute; reflexivity).
  rewrite -> forallb_forall in H. intros Hin%list_elem_of_In. by apply H.
Qed.

(** How the presence of an operation of the tree is decided. *)
Definition detected `{MM : Memmem} (segments : list bytes) (no : string * string) : Prop :=
  (∃ s, s ∈ segments ∧ standalone s (as_bytes no.1) []) ∧
  (∃ s, s ∈ segments ∧ standalone s (as_bytes no.2) (as_bytes <$> longer_siblings_of no.2)).

Lemma operation_detected `{MM : Memmem, ML : !MemmemLaws MM} segments no :
  no ∈ enumerate_operations →
  ∃ b : bool,
    is_operation_present (all_data segments) no.1 no.2 (longer_siblings_of no.2) = Some b ∧
    (b ↔ detected segments no).
Proof.
  destruct no as [ns op]. intros Hin%operations_clean.
  apply andb_true_iff in Hin as [Hin Hlen]. apply andb_true_iff in Hin as [Hin Hsib].
  apply andb_true_iff in Hin as [Hns Hop].
  apply Nat.leb_le in Hlen. apply clean_name_spec in Hns as [Hns Hns'].
  apply clean_name_spec in Hop as [Hop Hop']. cbn [fst snd].
  destruct (is_operation_present_spec (all_data segments) ns op (longer_siblings_of op))
    as (b & Hb & Hspec); [done..|].
  exists b. split; [done|]. rw Hspec /detected. cbn [fst snd].
  rewrite !standalone_all_data //; auto using as_bytes_nonempty.
  - intros l (s & -> & Hs)%list_elem_of_fmap. rewrite -> forallb_forall in Hsib.
    apply list_elem_of_In, Hsib, clean_name_spec in Hs as [? ?]. auto using as_bytes_nonempty.
  - set_solver.
Qed.

Lemma scan_returns `{MM : Memmem, ML : !MemmemLaws MM} segments : is_Some (scan segments).
Proof.
  destruct (scan_fold _ (detected segments) enumerate_operations [] (operation_detected segments))
    as (l & Hl & _). by exists l.
Qed.

(** The scan always returns, and detects an operation exactly when its namespace
    occurs in some data segment and the operation itself occurs in some segment, other
    than as the beginning of a longer operation. *)
Theorem scan_exact `{MM : Memmem, ML : !MemmemLaws MM} segments :
  ∃ capabilities, scan segments = Some capabilities ∧
    ∀ ns op, {| dhc_namespace := ns; dhc_operation := op |} ∈ capabilities ↔
      (ns, op) ∈ enumerate_operations ∧
      (∃ s, s ∈ segments ∧ standalone s (as_bytes ns) []) ∧
      (∃ s, s ∈ segments ∧ standalone s (as_bytes op) (as_bytes <$> longer_siblings_of op)).
Proof.
  destruct (scan_fold _ (detected segments) enumerate_operations [] (operation_detected segments))
    as (l & Hl & Hspec). exists l. split; [done|]. intros ns op. by rw Hspec.
Qed.

(** ** Witnesses *)

Fixpoint naive_find (needle data : bytes) : option nat :=
  if bool_decide (needle `prefix_of` data) then Some 0
  else match data with [] => None | _ :: data => S <$> naive_find needle data end.

Definition naive_memmem : Memmem := λ data needle, naive_find needle data.

#[export] Instance naive_memmem_laws : MemmemLaws naive_memmem.
Proof.
  split; rw /memmem_find /naive_memmem /occurs_at; intros data needle.
  - induction data as [|c data IH]; intros i; simpl; case_bool_decide as Hp.
    + intros [= <-]. split_and!; [simpl; lia|done|lia].
    + done.
    + intros [= <-]. split_and!; [simpl; lia|done|lia].
    + intros (j & Hj & ->)%fmap_Some. destruct (IH j Hj) as (Hle & Hocc & Hfirst).
      split_and!; [simpl; lia|done|]. intros [|k] Hk; [done|]. simpl. apply Hfirst. lia.
  - induction data as [|c data IH]; simpl; case_bool_decide as Hp; try done.
    + intros _ i Hi. by destruct i.
    + intros Hn%fmap_None i Hi. destruct i as [|i]; [done|]. simpl. apply IH; [done|lia].
Qed.

Lemma scan_exact_witness :
  ∃ capabilities, scan (MM := naive_memmem) [as_bytes "oci v1/oci_manifest_config"] = Some capabilities.
Proof.
  destruct (scan_exact (MM := naive_memmem) [as_bytes "oci v1/oci_manifest_config"])
    as (caps & Hcaps & _). exists caps. exact Hcaps.
Defined.

Lemma standalone_loop_terminates_witness :
  standalone_loop (MM := naive_memmem) 9 (as_bytes "ab abc") (as_bytes "ab") (as_bytes "abc") 0 =
    Some true.
Proof.
  rewrite (proj2 (standalone_loop_terminates (MM := naive_memmem) (as_bytes "ab abc")
    (as_bytes "ab") (as_bytes "abc") 9 ltac:(done) ltac:(simpl; lia))).
  reflexivity.
Defined.

(** A name that is only part of a longer one is not reported. *)
Example manifest_config_only :
  scan (MM := naive_memmem) [as_bytes "oci v1/oci_manifest_config"] =
    Some [{| dhc_namespace := "oci"; dhc_operation := "v1/oci_manifest_config" |}].
Proof. vm_compute. reflexivity. Qed.
