(* ===== verification/Annotate.v ===== *)
(** * Annotating policies with kwctl

    Models [crates/kwctl/src/]: [backend.rs] (which kind of policy a module is),
    [annotate.rs] (writing metadata into a module) and
    [command/run/policy_execution_mode.rs] (the mode a policy is run in).

    Files, the [walrus] module editor, ferricel and YAML are the parameter [KwctlTools], the
    Wasm parser is [Metadata.WasmParser]; the file system does not change while a command runs. *)

From S2P Require Import Prelude Bytes Json AdmissionResponse Request HostCapabilities Callback.
From S2P Require Import RustStr VerificationConstraints Sources Registry Metadata ArtifactHub WasmScanner.
From S2P Require Startup.

Record ProducerField := { pf_name : string; pf_values : list string }.
Record ModuleInfo := { mi_producers : list ProducerField; mi_vap_source : option string }.

Inductive ImportKind := ImportFunction | ImportOther.
Record Import := { im_module : string; im_name : string; im_kind : ImportKind }.

(** ** [walrus::Module]

    The raw custom sections, the data segments and the imports of a module, and the
    operations the command uses. *)
Class Walrus := {
  WasmModule : Type;
  raw_customs : WasmModule → list (string * bytes);
  (** [customs.remove_raw], with the data of the section it removes *)
  remove_raw : string → WasmModule → option bytes * WasmModule;
  (** [customs.add] of a [RawCustomSection] *)
  add_custom : string → bytes → WasmModule → WasmModule;
  data_segments : WasmModule → list bytes;
  module_imports : WasmModule → list Import;
  (** [imports.iter_mut().for_each] *)
  map_imports : (Import → Import) → WasmModule → WasmModule;
}.

Class WalrusLaws (WA : Walrus) : Prop := {
  remove_raw_Some name m data m' : remove_raw name m = (Some data, m') →
    ∃ l1 l2, raw_customs m = l1 ++ (name, data) :: l2 ∧ name ∉ l1.*1 ∧ raw_customs m' = l1 ++ l2;
  remove_raw_None name m m' : remove_raw name m = (None, m') →
    name ∉ (raw_customs m).*1 ∧ raw_customs m' = raw_customs m;
  raw_customs_add name data m : raw_customs (add_custom name data m) = raw_customs m ++ [(name, data)];
  raw_customs_map_imports f m : raw_customs (map_imports f m) = raw_customs m;
}.

Class KwctlTools `{Walrus, WasmParser} := {
  (** [std::fs::read], [read_to_string] and [File::open] *)
  fs_read_bytes : string → result bytes string;
  fs_read_to_string : string → result string string;
  ferricel_inspect : bytes → result ModuleInfo string;
  (** [kubewarden_protocol_detector]: builds the waPC policy of a file and asks it. *)
  query_protocol_version : string → result ProtocolVersion string;
  module_from_buffer : bytes → result WasmModule string;
  metadata_of_yaml : bytes → result Metadata string;
  metadata_to_json : Metadata → result bytes string;
  (** [emit_wasm_file], to a path *)
  emit_wasm_file : WasmModule → string → result unit string;
  debug_path : string → string;
  (** [Debug] of [ValidationErrors] *)
  debug_validation_errors : list (string * string) → string;
}.

Section kwctl.
Context `{WA : Walrus, WP : WasmParser, KT : !KwctlTools, MM : Memmem}.
Implicit Types (metadata : Metadata) (wasm_path : string).

(** ** [backend.rs] *)

Inductive Backend :=
| BackendOpa
| BackendOpaGatekeeper
| BackendWasi
| BackendKubewardenWapc (v : ProtocolVersion)
| BackendFerricel.

(** The exports, up to the first that starts with [opa_]. *)
Fixpoint opa_export (exports : list (result string string)) : result bool string :=
  match exports with
  | [] => Ok false
  | e :: exports =>
      let? name := map_err (λ e, "cannot parse WebAssembly export section: " +:+ e) e in
      if starts_with name "opa_" then Ok true else opa_export exports
  end.

Fixpoint opa_payload (payloads : list (result Payload string)) : result bool string :=
  match payloads with
  | [] => Ok false
  | p :: payloads =>
      let? p := map_err (λ e, "cannot parse WebAssembly file: " +:+ e) p in
      match p with
      | ExportSection exports =>
          let? b := opa_export exports in if b : bool then Ok true else opa_payload payloads
      | _ => opa_payload payloads
      end
  end.

Definition read_wasm wasm_path : result bytes string :=
  map_err (λ e, "cannot access file " +:+ debug_path wasm_path +:+ ": " +:+ e)
    (fs_read_bytes wasm_path).

Definition rego_policy_detector wasm_path : result bool string :=
  let? data := read_wasm wasm_path in
  opa_payload (parse_payloads data).

Definition processed_by_ferricel (info : ModuleInfo) : bool :=
  existsb (λ f, bool_decide (pf_name f = "processed-by") &&
                existsb (λ v, bool_decide (v = "ferricel")) (pf_values f)) (mi_producers info).

Definition ferricel_policy_detector wasm_path : result bool string :=
  let? data := read_wasm wasm_path in
  let? module_info := map_err (λ e, "cannot inspect WebAssembly file: " +:+ e)
    (ferricel_inspect data) in
  let is_ferricel_policy :=
    processed_by_ferricel module_info && bool_decide (is_Some (mi_vap_source module_info)) in
  let? _ := if is_ferricel_policy then Startup.ferricel_check_abi_version data else Ok tt in
  Ok is_ferricel_policy.

Record BackendDetector := {
  kubewarden_protocol_detector_func : string → result ProtocolVersion string;
  rego_detector_func : string → result bool string;
  ferricel_detector_func : string → result bool string;
}.

Definition BackendDetector_default : BackendDetector :=
  {| kubewarden_protocol_detector_func := query_protocol_version;
     rego_detector_func := rego_policy_detector;
     ferricel_detector_func := ferricel_policy_detector |}.

Definition is_rego_policy (d : BackendDetector) wasm_path : result bool string :=
  map_err (λ e, "Rego policy type check failure: " +:+ e) (rego_detector_func d wasm_path).

Definition is_ferricel_policy (d : BackendDetector) wasm_path : result bool string :=
  map_err (λ e, "Ferricel policy type check failure: " +:+ e) (ferricel_detector_func d wasm_path).

Definition wrong_mode (why : string) : string :=
  "Wrong value inside of policy's metadata for 'executionMode'. " +:+ why.

Definition detect (d : BackendDetector) wasm_path metadata : result Backend string :=
  let? rego := is_rego_policy d wasm_path in
  let? ferricel := is_ferricel_policy d wasm_path in
  match md_execution_mode metadata with
  | Wasi => Ok BackendWasi
  | Ferricel =>
      if ferricel : bool then Ok BackendFerricel
      else Err (wrong_mode "The policy is not a ValidatingAdmissionPolicy compiled by ferricel")
  | Opa =>
      if rego : bool then Ok BackendOpa
      else Err (wrong_mode "The policy has not been created using Rego")
  | OpaGatekeeper =>
      if rego then Ok BackendOpaGatekeeper
      else Err (wrong_mode "The policy has not been created using Rego")
  | KubewardenWapc =>
      if rego then Err (wrong_mode "This policy has been created using Rego")
      else if ferricel then Err (wrong_mode "This policy has been created using ferricel")
      else
        let? v := map_err (λ e, "Error while detecting Kubewarden protocol version: " +:+ e)
          (kubewarden_protocol_detector_func d wasm_path) in
        Ok (BackendKubewardenWapc v)
  end.

(** The version of kwctl, a pre-release of 1.39.0, is compared as it is. *)
Definition KWCTL_VERSION : string := "1.39.0-rc.3".
Definition KWCTL_SEMVER : Version * bool := ({| major := 1; minor := 39; patch_version := 0 |}, true).

Definition semver_key (v : Version) : N * (N * N) := (major v, (minor v, patch_version v)).

(** The order of [semver]: a pre-release comes before its release. *)
Definition semver_lt (a b : Version * bool) : bool :=
  let lt3 x y := bool_decide (x.1 < y.1)%N || (bool_decide (x.1 = y.1) &&
    (bool_decide (x.2.1 < y.2.1)%N || (bool_decide (x.2.1 = y.2.1) &&
     bool_decide (x.2.2 < y.2.2)%N))) in
  lt3 (semver_key a.1) (semver_key b.1) ||
  (bool_decide (semver_key a.1 = semver_key b.1) && a.2 && negb b.2).

Definition kwctl_has_minimum_kubewarden_version (opt_metadata : option Metadata) :
    result unit string :=
  match opt_metadata ≫= md_minimum_kubewarden_version with
  | None => Ok tt
  | Some v =>
      let sanitized := {| major := major v; minor := minor v; patch_version := 0 |} in
      if semver_lt KWCTL_SEMVER (sanitized, false)
      then Err ("Policy required Kubewarden version " +:+ Startup.Version_to_string sanitized +:+
                " or greater. But it's running on " +:+ KWCTL_VERSION)
      else Ok tt
  end.

(** ** [policy_execution_mode.rs] *)

Definition is_opa (m : PolicyExecutionMode) : bool :=
  match m with Opa | OpaGatekeeper => true | _ => false end.

Definition NOT_REGO : string :=
  "The policy has not been created with Rego, the policy execution mode specified via CLI flag is wrong".
Definition IS_REGO : string :=
  "The policy has been created with Rego, the policy execution mode specified via CLI flag is wrong".

Definition determine_execution_mode_from_metadata metadata
    (user_execution_mode : option PolicyExecutionMode) (is_rego : bool) :
    result PolicyExecutionMode string :=
  let? mode :=
    match user_execution_mode with
    | Some usermode =>
        if decide (usermode = md_execution_mode metadata) then Ok (md_execution_mode metadata)
        else Err ("The policy execution mode specified via CLI flag is different from the one reported inside of policy's metadata. Metadata reports " +:+
          PolicyExecutionMode_to_string (md_execution_mode metadata) +:+ " instead of " +:+
          PolicyExecutionMode_to_string usermode)
    | None => Ok (md_execution_mode metadata)
    end in
  if negb (is_opa mode) && is_rego then Err IS_REGO
  else if is_opa mode && negb is_rego then Err NOT_REGO
  else Ok mode.

Definition verify_user_provided_execution_mode (mode : PolicyExecutionMode) (is_rego : bool) :
    result PolicyExecutionMode string :=
  if is_opa mode then (if is_rego then Ok mode else Err NOT_REGO)
  else if is_rego then Err IS_REGO else Ok mode.

Definition determine_execution_mode (opt_metadata : option Metadata)
    (user_execution_mode : option PolicyExecutionMode) (d : BackendDetector) wasm_path :
    result PolicyExecutionMode string :=
  let? is_rego := is_rego_policy d wasm_path in
  match opt_metadata, user_execution_mode with
  | Some metadata, _ => determine_execution_mode_from_metadata metadata user_execution_mode is_rego
  | None, Some mode => verify_user_provided_execution_mode mode is_rego
  | None, None =>
      if is_rego : bool
      then Err "The policy has been created with Rego, please specify which Opa runtime has to be used"
      else Ok KubewardenWapc
  end.

(** ** [annotate.rs] *)

Definition KUBEWARDEN_ANNOTATION_POLICY_USAGE : string := "io.kubewarden.policy.usage".
Definition KUBEWARDEN_ANNOTATION_KWCTL_VERSION : string := "io.kubewarden.kwctl".

Inductive MetadataSource := MetadataFile (path : string) | MetadataPolicy.

Record AnnotateRequest := {
  an_wasm_path : string;
  an_metadata : MetadataSource;
  an_destination : string;
  an_annotations : list string;
  an_usage_path : option string;
  an_force : bool;
}.

Definition load_metadata_file (path : string) : result Metadata string :=
  let? contents := map_err (λ e, "Error opening metadata file: " +:+ e) (fs_read_bytes path) in
  map_err (λ e, "Error unmarshalling metadata " +:+ e) (metadata_of_yaml contents).

Definition ALREADY_ANNOTATED : string :=
  "The policy is already annotated. Use `annotate --force` to overwrite the existing metadata".
Definition NOT_ANNOTATED : string :=
  "The policy is not annotated. Use `annotate --metadata-path` to annotate it".

Definition resolve (source : MetadataSource) (existing : option bytes) (force : bool) :
    result Metadata string :=
  match source with
  | MetadataFile path =>
      if bool_decide (is_Some existing) && negb force then Err ALREADY_ANNOTATED
      else load_metadata_file path
  | MetadataPolicy =>
      let? raw := ok_or existing NOT_ANNOTATED in
      map_err (λ e, "Error reading the policy's existing metadata: " +:+ e) (metadata_of_json raw)
  end.

(** The loop that drops the remaining sections; each round removes one. *)
Fixpoint remove_all (fuel : nat) (name : string) (m : WasmModule) : option WasmModule :=
  match fuel with
  | O => None
  | S fuel =>
      match remove_raw name m with
      | (Some _, m) => remove_all fuel name m
      | (None, m) => Some m
      end
  end.

Definition take_metadata_section (m : WasmModule) : option (option bytes * WasmModule) :=
  let '(first, m) := remove_raw KUBEWARDEN_CUSTOM_SECTION_METADATA m in
  m ← remove_all (S (length (raw_customs m))) KUBEWARDEN_CUSTOM_SECTION_METADATA m;
  Some (first, m).

Inductive AnnotationValue := Literal (s : string) | ValueFile (path : string).

Inductive AnnotationOverrideError :=
| MissingValue (input : string)
| EmptyKey (input : string).

Definition AnnotationOverrideError_to_string (e : AnnotationOverrideError) : string :=
  match e with
  | MissingValue i => "invalid annotation " +:+ debug_str i +:+ ": expected KEY=VALUE or KEY=@PATH"
  | EmptyKey i => "invalid annotation " +:+ debug_str i +:+ ": the key must not be empty"
  end.

Definition parse_annotation_override (input : string) :
    result (string * AnnotationValue) AnnotationOverrideError :=
  let? kv := ok_or (split_once input "=") (MissingValue input) in
  if decide (kv.1 = "") then Err (EmptyKey input) else
  Ok (kv.1, match strip_prefix kv.2 "@" with
            | Some path => ValueFile path
            | None => Literal kv.2
            end).

Definition resolve_value (v : AnnotationValue) : result string string :=
  match v with
  | Literal s => Ok s
  | ValueFile path =>
      map_err (λ e, "Error reading annotation value file '" +:+ path +:+ "': " +:+ e)
        (fs_read_to_string path)
  end.

Definition add_override (overrides : gmap string string) (input : string) :
    result (gmap string string) string :=
  let? kv := map_err AnnotationOverrideError_to_string (parse_annotation_override input) in
  let? resolved := resolve_value kv.2 in
  Ok (<[kv.1 := resolved]> overrides).

Definition build_overrides (annotations : list string) (usage_path : option string) :
    result (gmap string string) string :=
  let? overrides := try_fold add_override ∅ annotations in
  match usage_path with
  | None => Ok overrides
  | Some path =>
      if bool_decide (is_Some (overrides !! KUBEWARDEN_ANNOTATION_POLICY_USAGE)) then
        Err ("conflicting values for '" +:+ KUBEWARDEN_ANNOTATION_POLICY_USAGE +:+
             "': both --usage-path and --annotation set it")
      else
        let? usage := map_err (λ e, "Error reading usage file: " +:+ e) (fs_read_to_string path) in
        Ok (<[KUBEWARDEN_ANNOTATION_POLICY_USAGE := usage]> overrides)
  end.

Definition set_protocol_version (v : ProtocolVersion) metadata : Metadata :=
  {| md_protocol_version := Some v; md_rules := md_rules metadata;
     md_annotations := md_annotations metadata; md_mutating := md_mutating metadata;
     md_background_audit := md_background_audit metadata;
     md_execution_mode := md_execution_mode metadata; md_policy_type := md_policy_type metadata;
     md_context_aware_resources := md_context_aware_resources metadata;
     md_host_capabilities := md_host_capabilities metadata;
     md_minimum_kubewarden_version := md_minimum_kubewarden_version metadata |}.

Definition set_annotations (a : gmap string string) metadata : Metadata :=
  {| md_protocol_version := md_protocol_version metadata; md_rules := md_rules metadata;
     md_annotations := Some a; md_mutating := md_mutating metadata;
     md_background_audit := md_background_audit metadata;
     md_execution_mode := md_execution_mode metadata; md_policy_type := md_policy_type metadata;
     md_context_aware_resources := md_context_aware_resources metadata;
     md_host_capabilities := md_host_capabilities metadata;
     md_minimum_kubewarden_version := md_minimum_kubewarden_version metadata |}.

Definition backend_protocol (b : Backend) : ProtocolVersion :=
  match b with BackendKubewardenWapc v => v | _ => ProtocolUnknown end.

Definition prepare_metadata metadata wasm_path (d : BackendDetector)
    (overrides : gmap string string) : result Metadata string :=
  let? backend := detect d wasm_path metadata in
  let metadata := set_protocol_version (backend_protocol backend) metadata in
  let annotations := foldl (λ a kv, <[kv.1 := kv.2]> a) (unwrap_or ∅ (md_annotations metadata))
    (btree_iter overrides) in
  let annotations := <[KUBEWARDEN_ANNOTATION_KWCTL_VERSION := KWCTL_VERSION]> annotations in
  let metadata := set_annotations annotations metadata in
  match Metadata_validate metadata with
  | [] => Ok metadata
  | errors => Err ("Metadata is invalid: " +:+ debug_validation_errors errors)
  end.

Record CapabilitiesMismatch := {
  used_but_undeclared : gset string;
  declared_but_unused : gset string;
}.

Definition compute_capabilities_mismatch (detected_set : gset string)
    (host_capabilities : HostCapabilities) : CapabilitiesMismatch :=
  {| used_but_undeclared := filter (λ cap, negb (is_allowed host_capabilities cap)) detected_set;
     declared_but_unused :=
       match host_capabilities with
       | DenyAll => ∅
       | AllowAll => {["*"]}
       | Patterns prefixes exact =>
           foldl (λ unused prefix,
             if existsb (λ cap, starts_with cap prefix) (btree_set_iter detected_set)
             then unused else {[prefix +:+ "*"]} ∪ unused)
             (exact ∖ detected_set) (btree_set_iter prefixes)
       end |}.

(** The mismatch reported for a module, if its declared patterns are valid. *)
Definition capabilities_mismatch (detected : list DetectedHostCapability) metadata :
    result CapabilitiesMismatch HostCapabilitiesPatternError :=
  let detected_set := list_to_set
    ((λ c, dhc_namespace c +:+ "/" +:+ dhc_operation c) <$> detected) in
  let? hc := HostCapabilities_new
    (match md_host_capabilities metadata with Some s => btree_set_iter s | None => [] end) in
  Ok (compute_capabilities_mismatch detected_set hc).

Definition rewrite_import (i : Import) : Import :=
  match im_kind i with
  | ImportFunction =>
      if bool_decide (im_module i = "kubewarden:javy/host" ∧ im_name i = "call")
      then {| im_module := "host"; im_name := im_name i; im_kind := im_kind i |} else i
  | ImportOther => i
  end.

Record Annotated := {
  an_module : WasmModule;
  (** what [warn_on_capabilities_mismatch] logs *)
  an_warning : result CapabilitiesMismatch HostCapabilitiesPatternError;
}.

(** The module written to the destination, with the mismatch that is logged. *)
Definition write_annotated_wasm_file (m : WasmModule) (output_path : string) metadata
    (detected_capabilities : list DetectedHostCapability) : result Annotated string :=
  let warning := capabilities_mismatch detected_capabilities metadata in
  let? metadata_json := metadata_to_json metadata in
  let m := add_custom KUBEWARDEN_CUSTOM_SECTION_METADATA metadata_json m in
  let m := map_imports rewrite_import m in
  let? _ := emit_wasm_file m output_path in
  Ok {| an_module := m; an_warning := warning |}.

(** [write_annotation], with the module it writes; [None] if a slice of the scan
    panics. *)
Definition write_annotation (request : AnnotateRequest) : option (result Annotated string) :=
  match
    let? overrides := build_overrides (an_annotations request) (an_usage_path request) in
    let? wasm_bytes := map_err (λ e, "Error reading wasm file: " +:+ e)
      (fs_read_bytes (an_wasm_path request)) in
    let? module := map_err (λ e, "Error parsing wasm module: " +:+ e)
      (module_from_buffer wasm_bytes) in
    Ok (overrides, module)
  with
  | Err e => Some (Err e)
  | Ok (overrides, module) =>
      em ← take_metadata_section module;
      let '(existing_metadata, module) := em in
      match resolve (an_metadata request) existing_metadata (an_force request) with
      | Err e => Some (Err e)
      | Ok base_metadata =>
          detected_capabilities ← scan (data_segments module);
          Some (
            let? metadata := prepare_metadata base_metadata (an_wasm_path request)
              BackendDetector_default overrides in
            write_annotated_wasm_file module (an_destination request) metadata
              detected_capabilities)
      end
  end.
End kwctl.

(** ** Properties *)

Section kwctl_lemmas.
Context `{WA : Walrus, WLaw : !WalrusLaws WA, WP : WasmParser, KT : !KwctlTools, MM : Memmem, ML : !MemmemLaws MM}.
Implicit Types (m : WasmModule) (metadata : Metadata).

(** *** Sections *)

Definition without (name : string) (l : list (string * bytes)) : list (string * bytes) :=
  filter (λ kd, kd.1 ≠ name) l.

Lemma without_absent name l : name ∉ l.*1 → without name l = l.
Proof.
  rw /without. induction l as [|[k d] l IH]; [done|]. simpl. intros Hn.
  rw filter_cons_True; [|set_solver]. rw IH //. set_solver.
Qed.

Lemma without_split name l1 d l2 :
  name ∉ l1.*1 → without name (l1 ++ (name, d) :: l2) = without name (l1 ++ l2).
Proof.
  intros Hn. rw /without !filter_app filter_cons_False //. simpl. tauto.
Qed.

Lemma remove_all_spec fuel name m :
  length (raw_customs m) < fuel →
  ∃ m', remove_all fuel name m = Some m' ∧ raw_customs m' = without name (raw_customs m).
Proof.
  revert m. induction fuel as [|fuel IH]; intros m Hf; [lia|]. simpl.
  destruct (remove_raw name m) as [[d|] m1] eqn:Hr.
  - apply remove_raw_Some in Hr as (l1 & l2 & Hm & Hn & Hm1).
    destruct (IH m1) as (m' & Hm' & Hc).
    { apply (f_equal length) in Hm. rewrite length_app /= in Hm.
      rw Hm1 length_app. lia. }
    exists m'. split; [done|]. by rw Hc Hm1 Hm without_split.
  - apply remove_raw_None in Hr as [Hn Hm1]. exists m1. split; [done|]. by rw without_absent.
Qed.

(** The metadata of a module: its first metadata section. *)
Definition first_section (name : string) (l : list (string * bytes)) : option bytes :=
  snd <$> find (λ kd, bool_decide (kd.1 = name)) l.

Lemma first_section_absent name l : name ∉ l.*1 → first_section name l = None.
Proof.
  rw /first_section. induction l as [|[k d] l IH]; [done|]. simpl. intros Hn.
  rw bool_decide_eq_false_2; [|set_solver]. apply IH. set_solver.
Qed.

Lemma first_section_split name l1 d l2 :
  name ∉ l1.*1 → first_section name (l1 ++ (name, d) :: l2) = Some d.
Proof.
  rw /first_section. induction l1 as [|[k e] l1 IH]; simpl; intros Hn.
  - by rw bool_decide_eq_true_2.
  - rw bool_decide_eq_false_2; [|set_solver]. apply IH. set_solver.
Qed.

Lemma take_metadata_section_spec m :
  ∃ m', take_metadata_section m =
      Some (first_section KUBEWARDEN_CUSTOM_SECTION_METADATA (raw_customs m), m') ∧
    raw_customs m' = without KUBEWARDEN_CUSTOM_SECTION_METADATA (raw_customs m).
Proof.
  rw /take_metadata_section.
  destruct (remove_raw KUBEWARDEN_CUSTOM_SECTION_METADATA m) as [[d|] m1] eqn:Hr;
    destruct (remove_all_spec (S (length (raw_customs m1))) KUBEWARDEN_CUSTOM_SECTION_METADATA m1)
      as (m' & Hm' & Hc); try lia; exists m'; rw Hm' /=.
  - apply remove_raw_Some in Hr as (l1 & l2 & -> & Hn & Hm1).
    split; [by rw first_section_split|]. by rw Hc Hm1 without_split.
  - apply remove_raw_None in Hr as [Hn Hm1]. split; [by rw first_section_absent|]. by rw Hc Hm1.
Qed.

(** *** Metadata *)

Lemma fold_insert_lookup (l : list (string * string)) (a : gmap string string) k :
  foldl (λ a kv, <[kv.1 := kv.2]> a) a l !! k =
  match field_get (reverse l) k with Some v => Some v | None => a !! k end.
Proof.
  induction l as [|[k' v'] l IH] using rev_ind; [done|].
  rw foldl_snoc reverse_snoc /=. case_decide as Hk; [subst; by rewrite lookup_insert_eq|].
  rewrite lookup_insert_ne //.
Qed.

Lemma overrides_lookup (overrides a : gmap string string) k :
  foldl (λ a kv, <[kv.1 := kv.2]> a) a (btree_iter overrides) !! k =
  match overrides !! k with Some v => Some v | None => a !! k end.
Proof.
  rw fold_insert_lookup. destruct (overrides !! k) as [v|] eqn:Hk.
  - rw (field_get_elem _ _ v) //.
    + rewrite reverse_Permutation /btree_iter merge_sort_Permutation.
      apply NoDup_fst_map_to_list.
    + rw elem_of_reverse. by apply elem_of_btree_iter.
  - destruct (field_get _ k) as [v|] eqn:Hg; [|done].
    apply field_get_Some_elem in Hg. rewrite elem_of_reverse elem_of_btree_iter in Hg. congruence.
Qed.

(** What [prepare_metadata] guarantees: the metadata passes the validator, and its
    annotations are the overrides, then the version of kwctl, over the ones it had. *)
Lemma prepare_metadata_Ok metadata wasm_path d overrides md :
  prepare_metadata metadata wasm_path d overrides = Ok md →
  Metadata_validate md = [] ∧ md_execution_mode md = md_execution_mode metadata ∧
  ∃ a, md_annotations md = Some a ∧
    ∀ k, a !! k = if decide (k = KUBEWARDEN_ANNOTATION_KWCTL_VERSION) then Some KWCTL_VERSION
                  else match overrides !! k with
                       | Some v => Some v
                       | None => md_annotations metadata ≫= (λ a, a !! k)
                       end.
Proof.
  rw /prepare_metadata. intros (b & Hb & H)%res_bind_Ok.
  destruct (Metadata_validate _) eqn:Hv; [|done]. injection H as <-.
  split_and!; [done|done|]. eexists. split; [done|]. intros k. simpl.
  case_decide as Hk; [subst; by rewrite lookup_insert_eq|].
  rewrite lookup_insert_ne //. rw overrides_lookup. destruct (overrides !! k); [done|].
  by destruct (md_annotations metadata).
Qed.

(** A run that succeeds, and where its metadata comes from. *)
Lemma write_annotation_outcome request :
  is_Some (write_annotation request) ∧
  ∀ out, write_annotation request = Some (Ok out) →
    ∃ wasm m overrides base md json,
      fs_read_bytes (an_wasm_path request) = Ok wasm ∧ module_from_buffer wasm = Ok m ∧
      build_overrides (an_annotations request) (an_usage_path request) = Ok overrides ∧
      resolve (an_metadata request) (first_section KUBEWARDEN_CUSTOM_SECTION_METADATA (raw_customs m))
        (an_force request) = Ok base ∧
      prepare_metadata base (an_wasm_path request) BackendDetector_default overrides = Ok md ∧
      metadata_to_json md = Ok json ∧
      raw_customs (an_module out) = without KUBEWARDEN_CUSTOM_SECTION_METADATA (raw_customs m) ++
        [(KUBEWARDEN_CUSTOM_SECTION_METADATA, json)].
Proof.
  rw /write_annotation.
  destruct (build_overrides _ _) as [overrides|e] eqn:Ho; simpl; [|by split; [eexists|]].
  destruct (fs_read_bytes (an_wasm_path request)) as [wasm|e] eqn:Hr; simpl; [|by split; [eexists|]].
  destruct (module_from_buffer wasm) as [m|e] eqn:Hm; simpl; [|by split; [eexists|]].
  destruct (take_metadata_section_spec m) as (m1 & Ht & Hc). rw Ht /=.
  destruct (resolve _ _ _) as [base|e] eqn:Hres; [|by split; [eexists|]].
  destruct (scan_returns (data_segments m1)) as [caps Hscan]. rw Hscan /=.
  split; [by eexists|]. intros out [= H].
  apply res_bind_Ok in H as (md & Hmd & Hann). rewrite /write_annotated_wasm_file in Hann.
  apply res_bind_Ok in Hann as (json & Hjson & (u & _ & [= <-])%res_bind_Ok).
  exists wasm, m, overrides, base, md, json. split_and!; try done.
  by rw raw_customs_map_imports raw_customs_add Hc.
Qed.

(** [kwctl annotate] always ends. The module it writes has one metadata section,
    after every other section of the original in their order; that section is metadata
    that passes the validator and carries the overrides; and metadata already in the
    policy is replaced by a file only when forced. *)
Theorem write_annotation_spec request :
  is_Some (write_annotation request) ∧
  ∀ out, write_annotation request = Some (Ok out) →
    ∃ wasm m overrides json md,
      fs_read_bytes (an_wasm_path request) = Ok wasm ∧ module_from_buffer wasm = Ok m ∧
      build_overrides (an_annotations request) (an_usage_path request) = Ok overrides ∧
      raw_customs (an_module out) = without KUBEWARDEN_CUSTOM_SECTION_METADATA (raw_customs m) ++
        [(KUBEWARDEN_CUSTOM_SECTION_METADATA, json)] ∧
      metadata_to_json md = Ok json ∧ Metadata_validate md = [] ∧
      (∀ k v, overrides !! k = Some v → k ≠ KUBEWARDEN_ANNOTATION_KWCTL_VERSION →
        (md_annotations md ≫= λ a, a !! k) = Some v) ∧
      (∀ path, an_metadata request = MetadataFile path → an_force request = false →
        first_section KUBEWARDEN_CUSTOM_SECTION_METADATA (raw_customs m) = None).
Proof.
  destruct (write_annotation_outcome request) as [Hends Hout]. split; [done|].
  intros out (wasm & m & overrides & base & md & json & Hr & Hm & Ho & Hres & Hmd & Hjson & Hcustoms)%Hout.
  apply prepare_metadata_Ok in Hmd as (Hvalid & _ & a & Ha & Hlook).
  exists wasm, m, overrides, json, md. split_and!; try done.
  - intros k v Hk Hne. rw Ha /= Hlook decide_False // Hk //.
  - intros path Hpath Hforce. rewrite /resolve Hpath Hforce andb_true_r in Hres.
    destruct (first_section _ _); [|done]. by rewrite bool_decide_eq_true_2 in Hres.
Qed.

(** *** Reading the annotated policy back

    [emit_wasm] writes the custom sections of a module, [from_buffer] reads them, and the
    parser of the policy server sees the same metadata sections in the bytes; [serde_json]
    reads what it wrote. *)
Class WalrusBytes := {
  emit_wasm : WasmModule → bytes;
  emitted_sections m : ∃ payloads, parse_payloads (emit_wasm m) = Ok <$> payloads ∧
    metadata_sections payloads = filter is_metadata (raw_customs m);
  buffer_sections wasm m : module_from_buffer wasm = Ok m →
    ∃ payloads, parse_payloads wasm = Ok <$> payloads ∧
      metadata_sections payloads = filter is_metadata (raw_customs m);
  serde_round_trip md json : metadata_to_json md = Ok json → metadata_of_json json = Ok md;
}.

Lemma first_metadata_of_sections wasm m :
  (∃ payloads, parse_payloads wasm = Ok <$> payloads ∧
    metadata_sections payloads = filter is_metadata (raw_customs m)) →
  metadata_from_contents wasm =
  match first_section KUBEWARDEN_CUSTOM_SECTION_METADATA (raw_customs m) with
  | Some data => res_map Some (map_err (MetadataDeserialize KUBEWARDEN_CUSTOM_SECTION_METADATA) (metadata_of_json data))
  | None => Ok None
  end.
Proof.
  intros (payloads & Hp & Hs). rewrite /metadata_from_contents Hp first_metadata_section Hs. clear.
  induction (raw_customs m) as [|[name data] l IH]; [done|].
  rewrite filter_cons /first_section /= /is_metadata /=.
  case_decide as Hn; [by subst; rewrite bool_decide_eq_true_2|]. by rewrite bool_decide_eq_false_2.
Qed.

Lemma without_no_section name l : name ∉ (without name l).*1.
Proof. intros (kd & -> & [Hne _]%list_elem_of_filter)%list_elem_of_fmap. done. Qed.

(** C20. What [kwctl annotate] writes is what the policy server reads: the metadata of the
    emitted module is the validated one, with the requested annotations and the execution
    mode of its source, even when the policy carried metadata, once or more, before. When
    the annotation starts from the policy's own metadata, that is the metadata the policy
    server read in the policy. *)
Theorem annotated_metadata_read_back `{WB : !WalrusBytes} request out
    (Hrun : write_annotation request = Some (Ok out)) :
  ∃ wasm overrides base md,
    fs_read_bytes (an_wasm_path request) = Ok wasm ∧
    build_overrides (an_annotations request) (an_usage_path request) = Ok overrides ∧
    metadata_from_contents (emit_wasm (an_module out)) = Ok (Some md) ∧
    Metadata_validate md = [] ∧ md_execution_mode md = md_execution_mode base ∧
    (∀ k, k ≠ KUBEWARDEN_ANNOTATION_KWCTL_VERSION →
      (md_annotations md ≫= λ a, a !! k) =
      match overrides !! k with Some v => Some v | None => md_annotations base ≫= λ a, a !! k end) ∧
    match an_metadata request with
    | MetadataFile path => load_metadata_file path = Ok base
    | MetadataPolicy => metadata_from_contents wasm = Ok (Some base)
    end.
Proof.
  destruct (proj2 (write_annotation_outcome request) out Hrun)
    as (wasm & m & overrides & base & md & json & Hr & Hm & Ho & Hres & Hmd & Hjson & Hcustoms).
  apply prepare_metadata_Ok in Hmd as (Hvalid & Hmode & a & Ha & Hlook).
  exists wasm, overrides, base, md. split_and!; try done.
  - rewrite (first_metadata_of_sections _ _ (emitted_sections (an_module out))) Hcustoms.
    rewrite first_section_split; [|apply without_no_section]. by rewrite (serde_round_trip _ _ Hjson).
  - intros k Hne. rewrite Ha /= Hlook decide_False //.
  - rewrite (first_metadata_of_sections _ _ (buffer_sections _ _ Hm)). rewrite /resolve in Hres.
    destruct (an_metadata request) as [path|]; [by destruct (_ && _)|].
    destruct (first_section _ _); [|done]. simpl in *. by destruct (metadata_of_json _); simplify_eq/=.
Qed.
End kwctl_lemmas.

(** *** Declared and detected capabilities *)

Lemma pattern_grants_prefix prefix path :
  valid_pattern (prefix +:+ "*") → pattern_grants (prefix +:+ "*") path ↔ starts_with path prefix.
Proof.
  intros (Ht & _). rw /pattern_grants Ht (proj2 (strip_suffix_Some (prefix +:+ "*") "*" prefix)) //.
Qed.

Lemma pattern_grants_exact p path :
  valid_pattern p → strip_suffix p "*" = None → pattern_grants p path ↔ p = path.
Proof. intros (Ht & _) Hs. by rw /pattern_grants Ht Hs. Qed.

Lemma unused_fold (detected_set acc : gset string) prefixes p :
  p ∈ foldl (λ unused prefix,
        if existsb (λ cap, starts_with cap prefix) (btree_set_iter detected_set)
        then unused else {[prefix +:+ "*"]} ∪ unused) acc prefixes ↔
  p ∈ acc ∨ ∃ prefix, prefix ∈ prefixes ∧ p = prefix +:+ "*" ∧
    ∀ cap, cap ∈ detected_set → ¬ starts_with cap prefix.
Proof.
  revert acc. induction prefixes as [|q prefixes IH]; intros acc; simpl; [set_solver|].
  rw IH. destruct (existsb _ _) eqn:He.
  - apply existsb_exists in He as (cap & Hin & Hst).
    apply list_elem_of_In, elem_of_btree_set_iter in Hin.
    setoid_rewrite elem_of_cons. split; [naive_solver|].
    intros [?|(x & [->|?] & Hp & Hno)]; [by left| |by eauto]. destruct (Hno cap Hin). by rw Hst.
  - assert (∀ cap, cap ∈ detected_set → ¬ starts_with cap q) as Hno.
    { intros cap Hin Hst. assert (existsb (λ cap, starts_with cap q) (btree_set_iter detected_set) = true);
        [|congruence].
      apply existsb_exists. exists cap. split; [by apply list_elem_of_In, elem_of_btree_set_iter|].
      by apply Is_true_true. }
    setoid_rewrite elem_of_cons. set_solver.
Qed.

Lemma declared_but_unused_spec detected_set prefixes exact p :
  HostCapabilities_wf (Patterns prefixes exact) →
  p ∈ declared_but_unused (compute_capabilities_mismatch detected_set (Patterns prefixes exact)) ↔
    p ∈ HostCapabilities_into (Patterns prefixes exact) ∧
    ∀ cap, cap ∈ detected_set → ¬ pattern_grants p cap.
Proof.
  intros (_ & Hpre & Hex). simpl. rw unused_fold elem_of_difference elem_of_app list_elem_of_fmap.
  setoid_rewrite elem_of_btree_set_iter. split.
  - intros [[Hp Hd]|(q & Hq & -> & Hno)].
    + destruct (Hex p Hp) as [Hv Hs]. split; [by right|]. intros cap Hcap.
      rw pattern_grants_exact //. congruence.
    + split; [eauto|]. intros cap Hcap. rw pattern_grants_prefix; [by auto|by auto].
  - intros [[(q & -> & Hq)|Hp] Hno].
    + right. exists q. split_and!; [done..|]. intros cap Hcap Hst. apply (Hno cap Hcap).
      by apply pattern_grants_prefix; [apply Hpre|].
    + left. destruct (Hex p Hp) as [Hv Hs]. split; [done|]. intros Hd. apply (Hno p Hd).
      by apply pattern_grants_exact.
Qed.

(** The mismatch compares the detected capabilities with the declared patterns: it
    reports exactly the detected paths no pattern grants and, unless everything is
    granted, exactly the normalised patterns that grant no detected path. *)
Theorem capabilities_mismatch_exact patterns host_capabilities detected_set :
  HostCapabilities_new patterns = Ok host_capabilities →
  let mismatch := compute_capabilities_mismatch detected_set host_capabilities in
  (∀ cap, cap ∈ used_but_undeclared mismatch ↔
     cap ∈ detected_set ∧ ¬ ∃ p, p ∈ patterns ∧ pattern_grants p cap) ∧
  (host_capabilities ≠ AllowAll → ∀ p, p ∈ declared_but_unused mismatch ↔
     p ∈ HostCapabilities_into host_capabilities ∧
     ∀ cap, cap ∈ detected_set → ¬ pattern_grants p cap).
Proof.
  intros Hnew mismatch. split.
  - intros cap. rw /mismatch /compute_capabilities_mismatch /= elem_of_filter.
    rw negb_True (new_loop_grants _ _ _ _ cap Hnew) /set_grants. set_solver.
  - intros Hall p. apply HostCapabilities_new_wf in Hnew. destruct host_capabilities as [| |pre ex].
    + rw /mismatch /=. set_solver.
    + done.
    + by apply declared_but_unused_spec.
Qed.

(** *** Execution modes *)

Lemma mode_check (m : PolicyExecutionMode) (is_rego : bool) (mode : PolicyExecutionMode) (e1 e2 : string) :
  (if negb (is_opa m) && is_rego then Err e1
   else if is_opa m && negb is_rego then Err e2 else Ok m) = Ok mode ↔
  mode = m ∧ is_opa mode = is_rego.
Proof.
  split.
  - destruct (is_opa m) eqn:Hm, is_rego; simpl; intros; simplify_eq; done.
  - intros [-> <-]. by destruct (is_opa m).
Qed.

Lemma user_mode_check (m : PolicyExecutionMode) (is_rego : bool) (mode : PolicyExecutionMode) :
  verify_user_provided_execution_mode m is_rego = Ok mode ↔ mode = m ∧ is_opa mode = is_rego.
Proof.
  rw /verify_user_provided_execution_mode. split.
  - destruct (is_opa m) eqn:Hm, is_rego; simpl; intros; simplify_eq; done.
  - intros [-> <-]. by destruct (is_opa m).
Qed.

(** The mode a policy is run in is the one its metadata or, without metadata, the
    user names, and waPC otherwise; it is refused exactly when the user contradicts the
    metadata, or when a Rego module is not run in an OPA mode or another module is. *)
Theorem determine_execution_mode_spec opt_metadata user_execution_mode d wasm_path mode :
  determine_execution_mode opt_metadata user_execution_mode d wasm_path = Ok mode ↔
  ∃ is_rego, rego_detector_func d wasm_path = Ok is_rego ∧ is_opa mode = is_rego ∧
    match opt_metadata with
    | Some metadata => mode = md_execution_mode metadata ∧
        (user_execution_mode = None ∨ user_execution_mode = Some mode)
    | None => match user_execution_mode with
              | Some usermode => mode = usermode
              | None => mode = KubewardenWapc
              end
    end.
Proof.
  rw /determine_execution_mode /is_rego_policy.
  destruct (rego_detector_func d wasm_path) as [is_rego|e]; simpl; [|naive_solver].
  assert (∀ P : bool → Prop, (∃ b, Ok (E := string) is_rego = Ok b ∧ P b) ↔ P is_rego) as ->.
  { intros P. split; [by intros (? & [= <-] & ?)|eauto]. }
  destruct opt_metadata as [metadata|]; [|destruct user_execution_mode as [usermode|]].
  - rw /determine_execution_mode_from_metadata.
    destruct user_execution_mode as [usermode|]; simpl; [case_decide as Hu; simpl|].
    + rw mode_check. split; [|tauto]. intros [-> ?]. subst. auto.
    + split; [done|]. intros (? & -> & [?|?]); congruence.
    + rw mode_check. split; [|tauto]. intros [-> ?]. auto.
  - rw user_mode_check. tauto.
  - destruct is_rego; [|split; [by intros [= <-]|by intros [? ->]]]. split; [done|]. by intros [? ->].
Qed.

(** kwctl compares its own version with the pre-release left in: it refuses exactly
    the policies the server refuses and those that ask for the minor version in
    preparation, which the server runs. *)
Theorem kwctl_version_stricter (metadata : Metadata) :
  kwctl_has_minimum_kubewarden_version (Some metadata) = Ok tt ↔
  Startup.has_minimum_kubewarden_version metadata = Ok tt ∧
  ∀ v, md_minimum_kubewarden_version metadata = Some v →
    ¬ (major v = major Startup.KUBEWARDEN_VERSION ∧ minor v = minor Startup.KUBEWARDEN_VERSION).
Proof.
  rw Startup.has_minimum_version_Ok /kwctl_has_minimum_kubewarden_version /=.
  destruct (md_minimum_kubewarden_version metadata) as [v|]; [|by split; [split|]].
  assert (∀ P : Version → Prop, (∀ w, Some v = Some w → P w) ↔ P v) as Hq.
  { intros P. split; [auto|by intros ? ? [= <-]]. }
  rw !Hq. destruct v as [a b c]. simpl.
  assert (semver_lt KWCTL_SEMVER ({| major := a; minor := b; patch_version := 0 |}, false) ↔
    (1 < a ∨ 1 = a ∧ 39 ≤ b)%N) as Hlt.
  { rw /semver_lt /semver_key /=. repeat case_bool_decide; simplify_eq/=; split; (done || lia). }
  destruct (semver_lt _ _); simpl in *; split; (done || lia).
Qed.
(** ** Witnesses *)

(** A module given by its sections, data segments and imports. *)
Record ListModule := {
  lm_customs : list (string * bytes);
  lm_data : list bytes;
  lm_imports : list Import;
}.

Fixpoint remove_first (name : string) (l : list (string * bytes)) :
    option bytes * list (string * bytes) :=
  match l with
  | [] => (None, [])
  | (k, d) :: l =>
      if decide (k = name) then (Some d, l)
      else let '(r, l) := remove_first name l in (r, (k, d) :: l)
  end.

#[local] Instance list_walrus : Walrus := {|
  WasmModule := ListModule;
  raw_customs := lm_customs;
  remove_raw name m := let '(r, l) := remove_first name (lm_customs m) in
    (r, {| lm_customs := l; lm_data := lm_data m; lm_imports := lm_imports m |});
  add_custom name data m :=
    {| lm_customs := lm_customs m ++ [(name, data)]; lm_data := lm_data m;
       lm_imports := lm_imports m |};
  data_segments := lm_data;
  module_imports := lm_imports;
  map_imports f m :=
    {| lm_customs := lm_customs m; lm_data := lm_data m; lm_imports := f <$> lm_imports m |};
|}.

Lemma remove_first_spec name l :
  match remove_first name l with
  | (Some d, l') => ∃ l1 l2, l = l1 ++ (name, d) :: l2 ∧ name ∉ l1.*1 ∧ l' = l1 ++ l2
  | (None, l') => name ∉ l.*1 ∧ l' = l
  end.
Proof.
  induction l as [|[k d] l IH]; simpl; [set_solver|]. case_decide as Hk.
  - exists [], l. subst. set_solver.
  - destruct (remove_first name l) as [[e|] l']; [|set_solver].
    destruct IH as (l1 & l2 & -> & Hn & ->). exists ((k, d) :: l1), l2. set_solver.
Qed.

#[local] Instance list_walrus_laws : WalrusLaws list_walrus.
Proof.
  split; try done; simpl; intros name m; pose proof (remove_first_spec name (lm_customs m)) as H;
    destruct (remove_first name (lm_customs m)) as [[e|] l']; intros; simplify_eq; done.
Qed.

(** A policy annotated twice, whose metadata is the default one. *)
Definition twice_annotated : ListModule :=
  {| lm_customs := [(KUBEWARDEN_CUSTOM_SECTION_METADATA, as_bytes "old"); ("name", []);
                    (KUBEWARDEN_CUSTOM_SECTION_METADATA, as_bytes "older")];
     lm_data := [as_bytes "oci v1/verify"];
     lm_imports := [{| im_module := "kubewarden:javy/host"; im_name := "call";
                       im_kind := ImportFunction |}] |}.

Definition patched_metadata : Metadata :=
  set_annotations {["a" := "b"; "c" := "file"; KUBEWARDEN_ANNOTATION_KWCTL_VERSION := KWCTL_VERSION]}
    (set_protocol_version ProtocolV1 Metadata_default).

(** A file format for the sections of a module; no bytes are the module above. *)
Definition write_sections (l : list (string * bytes)) : bytes := repeat "."%char (Pos.to_nat (encode l)).

Definition read_sections (b : bytes) : list (string * bytes) :=
  match length b with
  | O => lm_customs twice_annotated
  | n => unwrap_or [] (decode (Pos.of_nat n))
  end.

Lemma read_write_sections l : read_sections (write_sections l) = l.
Proof.
  rewrite /read_sections /write_sections repeat_length.
  destruct (Pos.to_nat (encode l)) as [|n] eqn:Hn; [lia|]. by rewrite -Hn Pos2Nat.id decode_encode.
Qed.

#[local] Instance example_parser : WasmParser := {|
  parse_payloads b := Ok <$> ((λ kd, CustomSection kd.1 kd.2) <$> read_sections b);
  metadata_of_json b := Ok (if decide (b = as_bytes "new") then patched_metadata else Metadata_default);
  ferricel_abi_version _ := Ok None; FERRICEL_ABI_VERSION := 2;
|}.

#[local] Instance example_tools : KwctlTools := {|
  fs_read_bytes _ := Ok [];
  fs_read_to_string path := Ok path;
  ferricel_inspect _ := Ok {| mi_producers := []; mi_vap_source := None |};
  query_protocol_version _ := Ok ProtocolV1;
  module_from_buffer b := Ok
    {| lm_customs := read_sections b; lm_data := lm_data twice_annotated;
       lm_imports := lm_imports twice_annotated |};
  metadata_of_yaml _ := Ok Metadata_default;
  metadata_to_json md := if decide (md = patched_metadata) then Ok (as_bytes "new") else Err "unexpected";
  emit_wasm_file _ _ := Ok tt;
  debug_path path := path;
  debug_validation_errors _ := "";
|}.

Lemma list_sections l :
  metadata_sections ((λ kd, CustomSection kd.1 kd.2) <$> l) = filter is_metadata l.
Proof. rewrite /metadata_sections. f_equal. induction l as [|[k d] l IH]; [done|]. cbn. f_equal. exact IH. Qed.

#[local, refine] Instance example_bytes : WalrusBytes := {| emit_wasm m := write_sections (lm_customs m) |}.
Proof.
  - intros m. eexists. split; [reflexivity|]. by rewrite list_sections read_write_sections.
  - intros wasm m [= <-]. eexists. split; [reflexivity|]. by rewrite list_sections.
  - intros md json. simpl. case_decide as Hmd; [|done]. intros [= <-]. by subst.
Defined.

Definition annotate_example (source : MetadataSource) : AnnotateRequest :=
  {| an_wasm_path := "policy.wasm"; an_metadata := source; an_destination := "out.wasm";
     an_annotations := ["a=b"; "c=@file"]; an_usage_path := None; an_force := false |}.

Example annotate_patches :
  option_map (res_map an_module) (write_annotation (MM := naive_memmem) (annotate_example MetadataPolicy)) =
  Some (Ok {| lm_customs := [("name", []); (KUBEWARDEN_CUSTOM_SECTION_METADATA, as_bytes "new")];
              lm_data := [as_bytes "oci v1/verify"];
              lm_imports := [{| im_module := "host"; im_name := "call"; im_kind := ImportFunction |}] |}).
Proof. vm_compute. reflexivity. Qed.

Example annotate_refuses :
  write_annotation (MM := naive_memmem) (annotate_example (MetadataFile "metadata.yml")) =
  Some (Err ALREADY_ANNOTATED).
Proof. vm_compute. reflexivity. Qed.

Lemma write_annotation_spec_witness :
  is_Some (write_annotation (MM := naive_memmem) (annotate_example MetadataPolicy)).
Proof.
  exact (proj1 (write_annotation_spec (WA := list_walrus) (MM := naive_memmem)
    (annotate_example MetadataPolicy))).
Defined.

Definition annotate_ok : bool :=
  match write_annotation (MM := naive_memmem) (annotate_example MetadataPolicy) with Some (Ok _) => true | _ => false end.

Lemma annotated_metadata_read_back_witness :
  ∃ out md, write_annotation (MM := naive_memmem) (annotate_example MetadataPolicy) = Some (Ok out) ∧
    metadata_from_contents (emit_wasm (an_module out)) = Ok (Some md) ∧
    (md_annotations md ≫= λ a, a !! "a") = Some "b".
Proof.
  assert (annotate_ok = true) as Hok by (vm_compute; reflexivity). rewrite /annotate_ok in Hok.
  destruct (write_annotation (MM := naive_memmem) (annotate_example MetadataPolicy)) as [[out|]|] eqn:Hrun; [|done..].
  destruct (annotated_metadata_read_back (MM := naive_memmem) _ out Hrun)
    as (wasm & overrides & base & md & _ & Ho & Hread & _ & _ & Hann & _).
  exists out, md. split_and!; [done..|]. rewrite Hann //. vm_compute in Ho. injection Ho as <-. reflexivity.
Defined.

Lemma capabilities_mismatch_exact_witness :
  ∃ hc, HostCapabilities_new ["oci/*"; "net/v1/dns_lookup_host"] = Ok hc ∧
    "net/v1/dns_lookup_host" ∈ declared_but_unused (compute_capabilities_mismatch {["oci/v1/verify"]} hc).
Proof.
  eexists. split; [reflexivity|].
  refine (proj2 (proj2 (capabilities_mismatch_exact ["oci/*"; "net/v1/dns_lookup_host"] _
    {["oci/v1/verify"]} eq_refl) (ltac:(discriminate)) "net/v1/dns_lookup_host") _).
  split.
  - apply elem_of_app. right. apply elem_of_btree_set_iter. apply elem_of_union_l, elem_of_singleton.
    vm_compute. reflexivity.
  - intros cap ->%elem_of_singleton. vm_compute. discriminate.
Defined.
