(* ===== verification/PolicyStore.v ===== *)
(** * The local store

    Models the listing and the lookups of [crates/policy-fetcher/src/store/mod.rs], and,
    under [crates/kwctl/src/], [utils.rs] (how a policy is named on the command line) and
    [rm.rs] (its removal), on Unix, over a tree of directories. The entries of a directory
    are in the order in which the system returns them. The paths of the policies are those
    of [Fetcher].

    Errors of the file system are those of the tree: a file that is not there, or that is
    not of the kind that is needed. Links are not modelled. *)

From S2P Require Import Prelude Bytes RustStr RustPath Json VerificationConstraints Sources Registry.
From S2P Require Import Fetcher Verify.

(** ** Trees *)

Inductive Node :=
| NFile (contents : bytes)
| NDir (entries : list (string * Node)).

(** The components of an absolute path. *)
Definition Components : Type := list string.

Definition entries_of (n : Node) : option (list (string * Node)) :=
  match n with NDir es => Some es | NFile _ => None end.

Fixpoint node_at (n : Node) (p : Components) : option Node :=
  match p with
  | [] => Some n
  | c :: p => match n with
              | NDir es => match field_get es c with Some n => node_at n p | None => None end
              | NFile _ => None
              end
  end.

Definition file_at (n : Node) (p : Components) : option bytes :=
  match node_at n p with Some (NFile b) => Some b | _ => None end.

(** The entry without what is at the path. *)
Fixpoint remove_at (n : Node) (p : Components) : Node :=
  match p, n with
  | [c], NDir es => NDir (List.filter (λ kv, negb (String.eqb kv.1 c)) es)
  | c :: p, NDir es =>
      NDir (map (λ kv, (kv.1, if String.eqb kv.1 c then remove_at kv.2 p else kv.2)) es)
  | _, _ => n
  end.

(** The files below a node, in the order of [WalkDir], with their paths. *)
Fixpoint walk (n : Node) : list (Components * bytes) :=
  match n with
  | NFile b => [([], b)]
  | NDir es =>
      (fix go es := match es with
       | [] => []
       | (name, n) :: es => ((λ f, (name :: f.1, f.2)) <$> walk n) ++ go es
       end) es
  end.

(** [std::fs] *)
Definition NO_ENTRY : string := "No such file or directory (os error 2)".
Definition NOT_A_DIRECTORY : string := "Not a directory (os error 20)".

Definition read_dir (n : Node) : result (list (string * Node)) string :=
  match n with NDir es => Ok es | NFile _ => Err NOT_A_DIRECTORY end.

Definition fs_remove_file (fs : Node) (p : Components) : result Node string :=
  match node_at fs p with
  | Some (NFile _) => Ok (remove_at fs p)
  | Some (NDir _) => Err "Is a directory (os error 21)"
  | None => Err NO_ENTRY
  end.

(** Only an empty directory is removed, and never the root. *)
Definition fs_remove_dir (fs : Node) (p : Components) : Node :=
  match node_at fs p with Some (NDir []) => remove_at fs p | _ => fs end.

Record StoredPolicy := { sp_uri : string; sp_path : Components }.

(** [scheme.rs] *)
Definition KNOWN_REMOTE_SCHEMES : list string := ["http"; "https"; "registry"].
Definition is_known_remote_scheme (scheme : string) : bool := bool_decide (scheme ∈ KNOWN_REMOTE_SCHEMES).

(** The text of an absolute path. *)
Definition path_text (p : Components) : string := "/" +:+ join "/" p.

Section store.
Context `{UL : UrlLib, SH : Sha256}.
(** The root of the store. *)
Context (root : Components).
Implicit Types (fs : Node) (p : Components).

(** ** Listing *)

Definition host_policies (scheme : string) (host : string * Node) : list StoredPolicy :=
  (λ f, {| sp_uri := scheme +:+ "://" +:+ host.1 +:+ path_text f.1;
           sp_path := root ++ scheme :: host.1 :: f.1 |}) <$> walk host.2.

Definition list_scheme (policies : list StoredPolicy) (scheme : string * Node) :
    result (list StoredPolicy) StoreError :=
  if negb (is_known_remote_scheme scheme.1) then Ok policies else
  let? hosts := map_err StoreFileReadError (read_dir scheme.2) in
  Ok (policies ++ (hosts ≫= host_policies scheme.1)).

Definition store_list fs : result (list StoredPolicy) StoreError :=
  match node_at fs root with
  | None => Ok []
  | Some store =>
      let? schemes := map_err StoreFileReadError (read_dir store) in
      try_fold list_scheme [] schemes
  end.

(** ** Lookups *)

(** [policy_full_path], as components. *)
Definition store_path (uri : string) : result Components StoreError :=
  res_map (λ text, root ++ components (RustPath.path_of text)) (policy_path uri PrefixAndFilename).

Definition get_policy_by_uri fs (uri : string) : result (option StoredPolicy) StoreError :=
  let? url := map_err StoreUrlParserError (url_parse uri) in
  if negb (is_known_remote_scheme (url_scheme url)) then Err (UnknownSchemeError (url_scheme url)) else
  let? policy_path := store_path (url_to_string url) in
  Ok (match node_at fs policy_path with
      | Some _ => Some {| sp_uri := url_to_string url; sp_path := policy_path |}
      | None => None
      end).

(** [Policy::digest] *)
Definition digest fs (policy : StoredPolicy) : result string StoreError :=
  match node_at fs (sp_path policy) with
  | Some (NFile b) => Ok (sha256_hex b)
  | Some (NDir _) => Err (StoreDigestError "Is a directory (os error 21)")
  | None => Err (StoreDigestError NO_ENTRY)
  end.

Definition match_sha fs (sha_prefix : string) (acc : option StoredPolicy) (policy : StoredPolicy) :
    result (option StoredPolicy) StoreError :=
  let? d := digest fs policy in
  if negb (starts_with d sha_prefix) then Ok acc else
  match acc with
  | Some _ => Err (MultiplePoliciesFoundError sha_prefix)
  | None => Ok (Some policy)
  end.

Definition get_policy_by_sha_prefix fs (sha_prefix : string) : result (option StoredPolicy) StoreError :=
  let? policies := store_list fs in
  try_fold (match_sha fs sha_prefix) None policies.
End store.

(** ** Policies on the command line ([utils.rs]) *)

Inductive LookupError :=
| PolicyMissing (uri : string)
| LookupStoreError (e : StoreError)
| UnknownScheme (scheme : string)
| LookupUrlError (e : UrlParseError)
| UrlToStringConversionError
| LookupIoError (e : string).

(** The regular expression [^\w+://], the working directory and the URLs of files. *)
Class CommandEnv := {
  uri_has_schema : string → bool;
  (** where a path of the command line points to *)
  locate : string → Components;
  from_file_path : Components → string;
}.

Section lookup.
Context `{UL : UrlLib, SE : SourceEnv, OL : OciLib, SH : Sha256, CE : CommandEnv}.
Context (root : Components).
Implicit Types (fs : Node).

Definition normalize_uri (uri : string) : string :=
  match strip_prefix uri "registry://" with
  | Some image => match reference_try_from image with
                  | Ok reference => "registry://" +:+ reference_whole reference
                  | Err _ => uri
                  end
  | None => uri
  end.

Definition map_path_to_uri fs (uri_or_sha_prefix : string) : result string LookupError :=
  if uri_has_schema uri_or_sha_prefix then Ok (normalize_uri uri_or_sha_prefix) else
  match node_at fs (locate uri_or_sha_prefix) with
  | Some _ => Ok (from_file_path (locate uri_or_sha_prefix))
  | None =>
      let? found := map_err LookupStoreError (get_policy_by_sha_prefix root fs uri_or_sha_prefix) in
      match found with
      | Some policy => Ok (sp_uri policy)
      | None => Err (PolicyMissing uri_or_sha_prefix)
      end
  end.

Definition get_uri fs (uri_or_sha_prefix : string) : result string LookupError :=
  let normalized := normalize_uri uri_or_sha_prefix in
  match map_path_to_uri fs normalized with
  | Ok uri => Ok uri
  | Err _ =>
      match reference_try_from normalized with
      | Ok oci_reference => Ok ("registry://" +:+ reference_whole oci_reference)
      | Err _ => Err (PolicyMissing uri_or_sha_prefix)
      end
  end.

Definition wasm_path fs (uri : string) : result Components LookupError :=
  let? url := map_err LookupUrlError (url_parse uri) in
  let scheme := url_scheme url in
  if decide (scheme = "file") then
    res_map (λ text, components (RustPath.path_of text)) (ok_or (url_to_file_path url) UrlToStringConversionError)
  else if decide (scheme = "http" ∨ scheme = "https" ∨ scheme = "registry") then
    let? policy := map_err LookupStoreError (get_policy_by_uri root fs uri) in
    match policy with
    | Some policy => Ok (sp_path policy)
    | None => Err (PolicyMissing uri)
    end
  else Err (UnknownScheme scheme).

Definition get_wasm_path fs (uri_or_sha_prefix : string) : result Components LookupError :=
  let? uri := get_uri fs uri_or_sha_prefix in
  wasm_path fs uri.

(** ** [rm.rs] *)

Inductive RmError :=
| RmLookup (e : LookupError)
| RmStore (e : StoreError)
| CouldNotDelete (uri : string) (e : string).

(** The directories of the policy, innermost first, up to the root of the store. *)
Definition leading_components (policy_path : Components) : list Components :=
  (λ i, take i policy_path) <$> reverse (seq (length root) (length policy_path - length root)).

Definition rm fs (uri_or_sha_prefix : string) : result unit RmError * Node :=
  match get_uri fs uri_or_sha_prefix with
  | Err e => (Err (RmLookup e), fs)
  | Ok uri =>
      match get_policy_by_uri root fs uri with
      | Err e => (Err (RmStore e), fs)
      | Ok None => (Err (RmLookup (PolicyMissing uri)), fs)
      | Ok (Some _) =>
          match store_path root uri with
          | Err e => (Err (RmStore e), fs)
          | Ok policy_path =>
              match fs_remove_file fs policy_path with
              | Err e => (Err (CouldNotDelete uri e), fs)
              | Ok fs => (Ok tt, foldl fs_remove_dir fs (leading_components policy_path))
              end
          end
      end
  end.
End lookup.

(** ** Properties of the trees *)

Section node_ind.
Context (P : Node → Prop).
Context (Hfile : ∀ b, P (NFile b)) (Hdir : ∀ es, Forall (λ kv, P kv.2) es → P (NDir es)).

Fixpoint Node_ind' (n : Node) : P n :=
  match n with
  | NFile b => Hfile b
  | NDir es => Hdir es
      ((fix go es : Forall (λ kv, P kv.2) es :=
          match es with
          | [] => Forall_nil_2 _
          | kv :: es => Forall_cons_2 _ _ _ (Node_ind' kv.2) (go es)
          end) es)
  end.
End node_ind.

(** No directory has two entries with the same name. *)
Inductive tree_wf : Node → Prop :=
| wf_file b : tree_wf (NFile b)
| wf_dir es : NoDup es.*1 → Forall (λ kv, tree_wf kv.2) es → tree_wf (NDir es).

Section trees.
Implicit Types (n fs : Node) (p q : Components).

Lemma field_get_filter (es : list (string * Node)) c k :
  field_get (List.filter (λ kv, negb (String.eqb kv.1 c)) es) k =
  if decide (k = c) then None else field_get es k.
Proof.
  induction es as [|[k' v] es IH]; simpl; [by case_decide|].
  destruct (String.eqb_spec k' c) as [->|Hne]; simpl; rewrite IH; repeat case_decide; congruence.
Qed.

Lemma field_get_alter (es : list (string * Node)) c (f : Node → Node) k :
  field_get (map (λ kv, (kv.1, if String.eqb kv.1 c then f kv.2 else kv.2)) es) k =
  (if decide (k = c) then f else id) <$> field_get es k.
Proof.
  induction es as [|[k' v] es IH]; simpl; [done|]. destruct (decide (k' = k)) as [->|Hk]; [|done]. simpl.
  destruct (String.eqb_spec k c); by case_decide.
Qed.

Lemma file_at_cons es c p :
  file_at (NDir es) (c :: p) = match field_get es c with Some n => file_at n p | None => None end.
Proof. rewrite /file_at /=. by destruct (field_get es c). Qed.

(** A removal removes what is below the path and nothing else. *)
Lemma file_at_remove n p q :
  p ≠ [] → file_at (remove_at n p) q = if decide (p `prefix_of` q) then None else file_at n q.
Proof.
  revert n q. induction p as [|c p IH]; [done|]. intros n q _.
  destruct n as [b|es].
  { assert (remove_at (NFile b) (c :: p) = NFile b) as -> by (by destruct p).
    destruct q as [|k q]; [|by case_decide].
    case_decide as Hp; [by apply prefix_nil_not in Hp|done]. }
  destruct q as [|k q].
  { case_decide as Hp; [by apply prefix_nil_not in Hp|by destruct p]. }
  assert (∀ k q, c :: p `prefix_of` k :: q ↔ k = c ∧ p `prefix_of` q) as Hpre.
  { intros k' q'. split; [|intros [-> ?]; by apply prefix_cons].
    intros H. split; [by apply prefix_cons_inv_1 in H|by apply prefix_cons_inv_2 in H]. }
  destruct p as [|c' p].
  - cbn [remove_at]. rewrite !file_at_cons field_get_filter.
    destruct (decide (k = c)) as [->|Hne].
    + case_decide as Hp; [done|]. destruct Hp. apply Hpre. split; [done|apply prefix_nil].
    + case_decide as Hp; [|done]. by apply Hpre in Hp as [-> _].
  - cbn [remove_at]. rewrite !file_at_cons (field_get_alter es c (λ n, remove_at n (c' :: p))).
    destruct (field_get es k) as [n|] eqn:Hk; simpl; [|by case_decide].
    destruct (decide (k = c)) as [->|Hne].
    + rewrite IH; [|done]. do 2 case_decide; naive_solver.
    + case_decide as Hp; [|done]. by apply Hpre in Hp as [-> _].
Qed.

Lemma file_at_below n p q b : node_at n p = Some (NFile b) → p `prefix_of` q → q ≠ p → file_at n q = None.
Proof.
  intros Hn [r ->] Hr. rewrite /file_at.
  assert (node_at n (p ++ r) = None) as ->; [|done].
  assert (r ≠ []) as Hne by (intros ->; by rewrite app_nil_r in Hr). clear Hr.
  revert n Hn. induction p as [|c p IH]; intros n; simpl.
  - intros [= ->]. by destruct r.
  - destruct n; [done|]. destruct (field_get entries c); [apply IH|done].
Qed.

Lemma node_at_app n p q : node_at n (p ++ q) = match node_at n p with Some m => node_at m q | None => None end.
Proof.
  revert n. induction p as [|c p IH]; intros n; simpl; [done|].
  destruct n; [done|]. destruct (field_get entries c); [apply IH|done].
Qed.

Lemma fs_remove_file_Ok fs p fs' :
  fs_remove_file fs p = Ok fs' → p ≠ [] →
  ∀ q, file_at fs' q = if decide (q = p) then None else file_at fs q.
Proof.
  rewrite /fs_remove_file. destruct (node_at fs p) as [[b|]|] eqn:Hp; intros [= <-] Hne q.
  rewrite file_at_remove; [|done]. repeat case_decide; try done.
  - by rewrite (file_at_below _ _ _ _ Hp).
  - by subst.
Qed.

Lemma fs_remove_dir_files fs p q : file_at (fs_remove_dir fs p) q = file_at fs q.
Proof.
  rewrite /fs_remove_dir. destruct (node_at fs p) as [[|[|]]|] eqn:Hp; try done.
  destruct (decide (p = [])) as [->|Hne]; [by destruct fs|].
  rewrite file_at_remove; [|done]. case_decide as Hpre; [|done]. destruct Hpre as [r ->].
  rewrite /file_at node_at_app Hp. by destruct r.
Qed.
End trees.

Section walking.
Implicit Types (n fs : Node) (p q : Components).

Lemma elem_of_walk_dir es f b :
  (f, b) ∈ walk (NDir es) ↔ ∃ name n rest, f = name :: rest ∧ (name, n) ∈ es ∧ (rest, b) ∈ walk n.
Proof.
  induction es as [|[name n] es IH]; [simpl; rewrite elem_of_nil; split; [done|]; by intros (? & ? & ? & _ & ?%elem_of_nil & _)|].
  change (walk (NDir ((name, n) :: es))) with (((λ f, (name :: f.1, f.2)) <$> walk n) ++ walk (NDir es)).
  rewrite elem_of_app IH list_elem_of_fmap. setoid_rewrite elem_of_cons. split.
  - intros [([rest b'] & [= -> ->] & Hin)|(name' & n' & rest & -> & Hes & Hin)]; simpl.
    + by exists name, n, rest; split_and!; [|left|].
    + exists name', n', rest. auto.
  - intros (name' & n' & rest & -> & [[= -> ->]|Hes] & Hin).
    + left. by exists (rest, b).
    + right. eauto 10.
Qed.

Lemma elem_of_walk n f b : tree_wf n → (f, b) ∈ walk n ↔ file_at n f = Some b.
Proof.
  intros Hwf. revert f. induction n as [b'|es IH] using Node_ind'; intros f.
  - simpl. rewrite list_elem_of_singleton /file_at. destruct f; simpl; naive_solver.
  - rewrite elem_of_walk_dir. inversion Hwf as [|? Hnd Hall]; subst. rewrite !Forall_forall in IH Hall. split.
    + intros (name & n & rest & -> & Hes & Hin). rewrite file_at_cons (field_get_elem _ _ _ Hnd Hes).
      apply (IH (name, n) Hes); [by apply (Hall (name, n))|done].
    + destruct f as [|name rest]; [done|]. rewrite file_at_cons.
      destruct (field_get es name) as [n|] eqn:Hn; [|done]. apply field_get_Some_elem in Hn.
      intros Hf. exists name, n, rest. split_and!; [done..|].
      apply (IH (name, n) Hn); [by apply (Hall (name, n))|done].
Qed.

Lemma tree_wf_at n p m : tree_wf n → node_at n p = Some m → tree_wf m.
Proof.
  revert n. induction p as [|c p IH]; intros n Hwf; simpl; [by intros [= <-]|].
  destruct n as [|es]; [done|]. destruct (field_get es c) as [n|] eqn:Hc; [|done].
  apply IH. inversion Hwf as [|? _ Hall]; subst. rewrite Forall_forall in Hall.
  by apply (Hall (c, n)), field_get_Some_elem.
Qed.
End walking.

Section store_properties.
Context `{UL : UrlLib, SH : Sha256}.
Context (root : Components).
Implicit Types (fs : Node) (policy : StoredPolicy).

(** A policy of the store: a file below a host of a known scheme. *)
Definition stored fs policy : Prop :=
  ∃ scheme host rest b, is_known_remote_scheme scheme = true ∧
    policy = {| sp_uri := scheme +:+ "://" +:+ host +:+ path_text rest;
                sp_path := root ++ scheme :: host :: rest |} ∧
    file_at fs (sp_path policy) = Some b.

Lemma list_schemes_elem schemes l0 l policy :
  try_fold (list_scheme root) l0 schemes = Ok l →
  policy ∈ l ↔ policy ∈ l0 ∨ ∃ scheme hosts host, (scheme, NDir hosts) ∈ schemes ∧
    is_known_remote_scheme scheme = true ∧ host ∈ hosts ∧ policy ∈ host_policies root scheme host.
Proof.
  revert l0. induction schemes as [|[scheme n] schemes IH]; intros l0; simpl.
  { intros [= ->]. split; [by left|]. intros [?|(? & ? & ? & ?%elem_of_nil & _)]; done. }
  intros (l1 & H1 & Hl)%res_bind_Ok. rewrite (IH l1 Hl). setoid_rewrite elem_of_cons.
  rewrite /list_scheme /= in H1. destruct (is_known_remote_scheme scheme) eqn:Hk; simpl in H1.
  - destruct n as [b|hosts]; simpl in H1; [done|]. injection H1 as <-.
    rewrite elem_of_app list_elem_of_bind. naive_solver.
  - injection H1 as <-. split.
    + intros [?|(s & h & ho & ? & ? & ? & ?)]; [by left|]. right. exists s, h, ho. auto.
    + intros [?|(s & h & ho & [[= -> _]|?] & ? & ? & ?)]; [by left|congruence|]. right. eauto 10.
Qed.

Lemma store_list_elem fs l policy :
  tree_wf fs → store_list root fs = Ok l → policy ∈ l ↔ stored fs policy.
Proof.
  intros Hwf. rewrite /store_list. destruct (node_at fs root) as [store|] eqn:Hroot.
  - intros (schemes & Hs%map_err_Ok & Hl)%res_bind_Ok. destruct store as [|es]; [done|]. injection Hs as ->.
    rewrite (list_schemes_elem _ _ _ _ Hl) elem_of_nil.
    pose proof (tree_wf_at _ _ _ Hwf Hroot) as Hwfs. inversion Hwfs as [|? Hnd Hall]; subst.
    assert (∀ p, file_at fs (root ++ p) = file_at (NDir schemes) p) as Hat
      by (intros p; by rewrite /file_at node_at_app Hroot).
    split.
    + intros [[]|(scheme & hosts & [host n] & Hin & Hk & Hh & Hp)].
      apply list_elem_of_fmap in Hp as ([rest b] & -> & Hw). exists scheme, host, rest, b. split_and!; [done..|].
      simpl. rewrite Hat file_at_cons (field_get_elem _ _ _ Hnd Hin).
      rewrite Forall_forall in Hall. specialize (Hall _ Hin). inversion Hall as [|? Hnd' Hall']; subst.
      rewrite file_at_cons (field_get_elem _ _ _ Hnd' Hh). rewrite Forall_forall in Hall'.
      apply elem_of_walk; [by apply (Hall' (host, n))|done].
    + intros (scheme & host & rest & b & Hk & -> & Hf). right. simpl in Hf. rewrite Hat file_at_cons in Hf.
      destruct (field_get schemes scheme) as [[|hosts]|] eqn:Hs; [done| |done]. rewrite file_at_cons in Hf.
      destruct (field_get hosts host) as [n|] eqn:Hh; [|done].
      apply field_get_Some_elem in Hs. apply field_get_Some_elem in Hh.
      exists scheme, hosts, (host, n). split_and!; [done..|]. apply list_elem_of_fmap. exists (rest, b).
      split; [done|]. apply elem_of_walk; [|done].
      apply (tree_wf_at (NDir schemes) [scheme; host]); [done|]. simpl.
      rewrite Forall_forall in Hall. specialize (Hall _ Hs). inversion Hall as [|? Hnd' _]; subst.
      by rewrite (field_get_elem _ _ _ Hnd Hs) (field_get_elem _ _ _ Hnd' Hh).
  - intros [= <-]. rewrite elem_of_nil. split; [done|]. intros (scheme & host & rest & b & _ & -> & Hf).
    by rewrite /file_at /= node_at_app Hroot in Hf.
Qed.

(** The policy's digest begins with the prefix. *)
Definition sha_matches fs (sha_prefix : string) policy : bool :=
  match file_at fs (sp_path policy) with
  | Some b => starts_with (sha256_hex b) sha_prefix
  | None => false
  end.

Definition one_match (sha_prefix : string) (acc : option StoredPolicy) (l : list StoredPolicy) :
    result (option StoredPolicy) StoreError :=
  match acc, l with
  | _, [] => Ok acc
  | None, [policy] => Ok (Some policy)
  | _, _ => Err (MultiplePoliciesFoundError sha_prefix)
  end.

Lemma match_sha_fold fs sha_prefix acc l :
  Forall (λ policy, is_Some (file_at fs (sp_path policy))) l →
  try_fold (match_sha fs sha_prefix) acc l =
  one_match sha_prefix acc (List.filter (sha_matches fs sha_prefix) l).
Proof.
  intros Hl. revert acc. induction Hl as [|policy l [b Hb] _ IH]; intros acc; simpl; [by destruct acc|].
  assert (digest fs policy = Ok (sha256_hex b)) as Hd.
  { revert Hb. rewrite /file_at /digest. repeat case_match; naive_solver. }
  rewrite /match_sha Hd /sha_matches Hb /=. destruct (starts_with (sha256_hex b) sha_prefix); simpl; [|apply IH].
  destruct acc; simpl; [done|]. rewrite IH. by destruct (List.filter _ l).
Qed.

(** The store lists exactly the files that are below a host of a known scheme, each
    with the URL it was pulled from; and a digest prefix finds the only listed policy whose
    digest begins with it: none is no policy, several are an error, whatever their order. *)
Theorem sha_prefix_lookup_exact fs l sha_prefix (Hwf : tree_wf fs) (Hlist : store_list root fs = Ok l) :
  (∀ policy, policy ∈ l ↔ stored fs policy) ∧
  get_policy_by_sha_prefix root fs sha_prefix =
    one_match sha_prefix None (List.filter (sha_matches fs sha_prefix) l).
Proof.
  pose proof (λ policy, store_list_elem fs l policy Hwf Hlist) as Hin. split; [done|].
  rewrite /get_policy_by_sha_prefix Hlist /=. apply match_sha_fold, Forall_forall.
  intros policy (? & ? & ? & b & _ & _ & Hb)%Hin. by exists b.
Qed.
End store_properties.

Section rm_properties.
Context `{UL : UrlLib, SE : SourceEnv, OL : OciLib, SH : Sha256, CE : CommandEnv}.
Context (root : Components).

(** C33. [kwctl rm] removes one file of the store, that of the policy it was asked for, and
    no other file of the system, although it also removes directories; when it fails it
    has changed nothing. *)
Theorem rm_removes_one_policy fs name r fs' (Hroot : root ≠ []) (Hrm : rm root fs name = (r, fs')) :
  (r = Ok tt → ∃ uri p b, get_uri root fs name = Ok uri ∧ store_path root uri = Ok p ∧
     file_at fs p = Some b ∧ ∀ q, file_at fs' q = if decide (q = p) then None else file_at fs q) ∧
  (r ≠ Ok tt → fs' = fs).
Proof.
  rewrite /rm in Hrm. destruct (get_uri root fs name) as [uri|e] eqn:Huri; [|by simplify_eq].
  destruct (get_policy_by_uri root fs uri) as [[policy|]|e]; [|by simplify_eq..].
  destruct (store_path root uri) as [p|e] eqn:Hp; [|by simplify_eq].
  destruct (fs_remove_file fs p) as [fs1|e] eqn:Hrem; [|by simplify_eq]. injection Hrm as <- <-.
  split; [|done]. intros _.
  assert (p ≠ []) as Hne.
  { rewrite /store_path in Hp. apply res_map_Ok in Hp as (text & _ & ->). by destruct root. }
  assert (∃ b, file_at fs p = Some b) as [b Hb].
  { revert Hrem. rewrite /fs_remove_file /file_at. repeat case_match; naive_solver. }
  exists uri, p, b. split_and!; [done..|]. intros q.
  rewrite -(fs_remove_file_Ok _ _ _ Hrem Hne q). generalize (leading_components root p) as l. clear.
  intros l. revert fs1. induction l as [|d l IH]; intros fs1; simpl; [done|]. by rewrite IH fs_remove_dir_files.
Qed.
End rm_properties.

(** ** From a listing back to the store *)

(** The names that URLs keep as they are: neither escaped nor normalized. *)
Class StoreUrls `{UrlLib} := {
  plain : string → Prop;
  plain_component c : plain c → c ≠ "" ∧ c ≠ "." ∧ contains_char c "/"%char = false;
  url_of_plain scheme host path :
    scheme ∈ KNOWN_REMOTE_SCHEMES → plain host → Forall plain path → path ≠ [] →
    ∃ u, url_parse (scheme +:+ "://" +:+ host +:+ path_text path) = Ok u ∧
      url_to_string u = scheme +:+ "://" +:+ host +:+ path_text path ∧
      url_scheme u = scheme ∧ url_path u = path_text path ∧ store_host_and_port u = host;
}.

Section joined.
Implicit Types (l : list string) (c : string).

Definition component c : Prop := c ≠ "" ∧ c ≠ "." ∧ contains_char c "/"%char = false.

Lemma join_snoc l c : l ≠ [] → join "/" (l ++ [c]) = join "/" l +:+ "/" +:+ c.
Proof.
  induction l as [|a l IH]; [done|]. intros _. destruct l as [|b l]; [done|].
  rewrite (join_cons _ a) // -app_comm_cons join_cons; [|by destruct l].
  rewrite IH //. by rewrite !str_app_assoc.
Qed.

Lemma no_slash l : Forall component l → Forall (λ p, contains_char p "/"%char = false) l.
Proof. intros H. eapply Forall_impl; [exact H|]. by intros c (_ & _ & ?). Qed.

Lemma component_no_leading c : component c → starts_with c "/" = false.
Proof.
  intros (_ & _ & Hc). destruct (starts_with c "/") eqn:Hs; [|done].
  apply Is_true_true, starts_with_spec in Hs as [t ->]. by rewrite contains_char_app /= in Hc.
Qed.

Lemma joined_no_trailing l : l ≠ [] → Forall component l → ends_with (join "/" l) "/" = false.
Proof.
  intros Hne Hl. destruct (ends_with (join "/" l) "/") eqn:He; [|done].
  apply Is_true_true, ends_with_spec in He as [t Ht].
  assert (join "/" l = join "/" (split t "/"%char ++ [""])) as Hj.
  { rewrite join_snoc; [|by destruct (split_cons t "/"%char) as (? & ? & ->)].
    by rewrite (join_split t "/"%char) Ht str_app_nil_r. }
  apply (f_equal (λ s, split s "/"%char)) in Hj.
  rewrite (split_join l "/"%char) // in Hj; [|by apply no_slash].
  rewrite (split_join _ "/"%char) in Hj; [|by destruct (split t _)|].
  - subst l. by apply Forall_app in Hl as [_ [[? _] _]%Forall_cons].
  - apply Forall_app. split; [apply split_pieces|by constructor].
Qed.

Lemma join_app l1 l2 : l1 ≠ [] → l2 ≠ [] → join "/" (l1 ++ l2) = join "/" l1 +:+ "/" +:+ join "/" l2.
Proof.
  induction l1 as [|a l1 IH]; [done|]. intros _ H2. destruct l1 as [|b l1]; simpl app.
  - by rewrite join_cons.
  - rewrite (join_cons _ a (b :: l1)) // join_cons // (IH ltac:(done) H2) !str_app_assoc. done.
Qed.

Lemma joined_no_leading l : l ≠ [] → Forall component l → starts_with (join "/" l) "/" = false.
Proof.
  intros Hne Hl. destruct (starts_with _ _) eqn:Hs; [|done]. apply Is_true_true, starts_with_spec in Hs as [t Ht].
  apply (f_equal (λ s, split s "/"%char)) in Ht. rewrite (split_join l "/"%char) // in Ht; [|by apply no_slash].
  subst l. by apply Forall_cons in Hl as [[? _] _].
Qed.

Lemma joined_nonempty l : l ≠ [] → Forall component l → join "/" l ≠ "".
Proof.
  intros Hne Hl. destruct l as [|a l]; [done|]. apply Forall_cons in Hl as [[Ha _] _].
  destruct l; [done|]. rewrite join_cons //. by destruct a.
Qed.

Lemma path_join_joined l1 l2 :
  l1 ≠ [] → l2 ≠ [] → Forall component l1 → Forall component l2 →
  Fetcher.path_join (join "/" l1) (join "/" l2) = join "/" (l1 ++ l2).
Proof.
  intros H1 H2 C1 C2. rewrite /Fetcher.path_join joined_no_leading // joined_no_trailing // orb_false_r.
  rewrite bool_decide_eq_false_2; [by rewrite join_app|by apply joined_nonempty].
Qed.

Lemma path_join_component l c :
  l ≠ [] → Forall component l → component c → Fetcher.path_join (join "/" l) c = join "/" (l ++ [c]).
Proof. intros Hne Hl Hc. apply (path_join_joined l [c]); [done..|by constructor]. Qed.

Lemma path_collect_components l : Forall component l → l ≠ [] → path_collect l = join "/" l.
Proof.
  intros Hl Hne. destruct l as [|a l _] using rev_ind; [done|]. clear Hne. rewrite /path_collect.
  apply Forall_app in Hl as [Hl [Ha _]%Forall_cons]. revert a Ha.
  induction l as [|b l IH] using rev_ind; intros a Ha; simpl.
  - rewrite /Fetcher.path_join component_no_leading //.
  - apply Forall_app in Hl as [Hl [Hb _]%Forall_cons]. rewrite foldl_app /= (IH Hl b Hb).
    rewrite path_join_component //; [by destruct l|]. apply Forall_app. by split; [|apply Forall_cons].
Qed.

Lemma components_joined l : l ≠ [] → Forall component l → components (RustPath.path_of (join "/" l)) = l.
Proof.
  intros Hne Hl. rewrite /RustPath.path_of /= split_join //; [|by apply no_slash].
  assert (∀ (P : string → Prop) `{∀ c, Decision (P c)} l, Forall P l → filter P l = l) as Hf.
  { intros P ? l' H. induction H; [done|]. rewrite filter_cons_True //. by f_equal. }
  rewrite Hf; [|by eapply Forall_impl; [exact Hl|]; intros c (? & _)].
  destruct l as [|a l]; [done|]. apply Forall_cons in Hl as [Ha Hl].
  assert (filter (λ c, c ≠ ".") l = l) as Hdot
    by (apply Hf; eapply Forall_impl; [exact Hl|]; by intros c (_ & ? & _)).
  rewrite joined_no_leading; [by rewrite Hdot|done|by constructor].
Qed.
End joined.

Section round_trip.
Context `{UL : UrlLib, SH : Sha256, SU : !StoreUrls}.
Context (root : Components).
Implicit Types (fs : Node) (policy : StoredPolicy).

Lemma known_component scheme : scheme ∈ KNOWN_REMOTE_SCHEMES → component scheme.
Proof. intros H. repeat (apply elem_of_cons in H as [->|H]; [done|]). by apply elem_of_nil in H. Qed.

Lemma split_path_text path :
  path ≠ [] → Forall component path → split (path_text path) "/"%char = "" :: path.
Proof.
  intros Hne Hp. rewrite /path_text (split_app "" (join "/" path) "/"%char) //.
  by rewrite (split_join path "/"%char) //; apply no_slash.
Qed.

(** The path of a URL with plain parts is made of them. *)
Lemma store_path_plain u scheme host path :
  url_scheme u = scheme → url_path u = path_text path → store_host_and_port u = host →
  component scheme → component host → Forall component path → path ≠ [] →
  Fetcher.path_join (policy_prefix u) (policy_file_name u) = join "/" (scheme :: host :: path).
Proof.
  intros Hs Hp Hh Cs Ch Cp Hne. rewrite /policy_prefix /policy_file_name /encode_path /encode_filename.
  rewrite Hs Hp Hh split_path_text //.
  destruct path as [|file init _] using rev_ind; [done|]. clear Hne.
  apply Forall_app in Cp as [Ci [Cf _]%Forall_cons].
  remember (join "/" (scheme :: host :: init ++ [file])) as text eqn:Htext.
  rewrite app_comm_cons last_snoc /= length_app /=. rewrite bool_decide_eq_false_2; [|lia].
  replace (length init + 1 - 1) with (length init) by lia. rewrite take_app_length. subst text.
  assert (Forall component [scheme; host]) as C2 by (by rewrite Forall_cons Forall_singleton).
  rewrite (path_join_component [scheme] host); [|done|by rewrite Forall_singleton|done]. cbn [app].
  destruct init as [|a init].
  - rewrite /path_collect {2}/Fetcher.path_join. cbn [foldl starts_with String.prefix].
    rewrite joined_no_trailing // orb_false_r bool_decide_eq_false_2; [|by apply joined_nonempty].
    rewrite str_app_nil_r /Fetcher.path_join component_no_leading //.
    assert (ends_with (join "/" [scheme; host] +:+ "/") "/" = true) as He
      by (apply Is_true_true, ends_with_spec; eauto).
    rewrite He orb_true_r str_app_assoc. by rewrite (join_snoc [scheme; host] file).
  - rewrite path_collect_components // (path_join_joined [scheme; host]) //.
    rewrite path_join_component //. apply Forall_app. by split.
Qed.

(** The store gives back what it lists: the URL of a listed policy, when its parts are
    names that URLs keep as they are, is found again, under the same URL and at the same
    path. *)
Theorem listed_policy_found fs policy scheme host rest b
    (Hfile : file_at fs (root ++ scheme :: host :: rest) = Some b)
    (Hpolicy : policy = {| sp_uri := scheme +:+ "://" +:+ host +:+ path_text rest;
                           sp_path := root ++ scheme :: host :: rest |})
    (Hscheme : scheme ∈ KNOWN_REMOTE_SCHEMES) (Hhost : plain host) (Hrest : Forall plain rest)
    (Hne : rest ≠ []) :
  get_policy_by_uri root fs (sp_uri policy) = Ok (Some policy).
Proof.
  destruct (url_of_plain scheme host rest) as (u & Hu & Htext & Hs & Hp & Hh); [done..|].
  assert (Forall component (scheme :: host :: rest)) as Hcomp.
  { rewrite !Forall_cons. split_and!; [by apply known_component|by apply plain_component|].
    eapply Forall_impl; [exact Hrest|]. apply plain_component. }
  assert (store_path root (url_to_string u) = Ok (root ++ scheme :: host :: rest)) as Hpath.
  { rewrite !Forall_cons in Hcomp. destruct Hcomp as (? & ? & ?).
    rewrite /store_path /policy_path Htext Hu. cbn [map_err res_bind res_map].
    rewrite (store_path_plain u scheme host rest) // components_joined //. by rewrite !Forall_cons. }
  subst policy. rewrite /get_policy_by_uri Hu. cbn [map_err res_bind].
  rewrite Hs /is_known_remote_scheme bool_decide_eq_true_2 // Hpath Htext /=.
  revert Hfile. rewrite /file_at. by destruct (node_at fs _).
Qed.
End round_trip.

(** ** Examples *)

Lemma split_once_char s t a :
  contains_char s a = false → split_once (s +:+ String a t) (String a "") = Some (s, t).
Proof.
  induction s as [|b s IH]; intros Hs.
  - rewrite app_Empty. cbn [split_once strip_prefix]. by rewrite decide_True.
  - simpl in Hs. apply orb_false_iff in Hs as [Ha Hs]. apply bool_decide_eq_false in Ha.
    rewrite app_String. cbn [split_once strip_prefix]. rewrite decide_False; [|congruence]. by rewrite (IH Hs).
Qed.

Lemma split_once_none s a : contains_char s a = false → split_once s (String a "") = None.
Proof.
  induction s as [|b s IH]; intros Hs; [done|].
  simpl in Hs. apply orb_false_iff in Hs as [Ha Hs]. apply bool_decide_eq_false in Ha.
  cbn [split_once strip_prefix]. rewrite decide_False; [|congruence]. by rewrite (IH Hs).
Qed.

#[export, refine] Instance simple_store_urls : StoreUrls (H := simple_url) := {|
  plain c := component c ∧ contains_char c ":"%char = false;
|}.
Proof.
  - by intros c [? _].
  - intros scheme host path Hs [(Hne & _ & Hslash) Hcolon] _ _.
    exists {| su_scheme := scheme; su_rest := host +:+ path_text path |}.
    assert (split_once (host +:+ path_text path) "/" = Some (host, join "/" path)) as Hsplit
      by (by apply split_once_char).
    split_and!.
    + repeat (apply elem_of_cons in Hs as [->|Hs]; [reflexivity|]). by apply elem_of_nil in Hs.
    + done.
    + done.
    + by rewrite /= /su_path /= Hsplit.
    + by rewrite /store_host_and_port /= /su_authority /= Hsplit split_once_none.
Defined.

#[local] Instance plain_sha256 : Sha256 := of_bytes.

#[local] Instance example_command_env : CommandEnv := {
  uri_has_schema s := contains s "://";
  locate s := ["work"; s];
  from_file_path p := "file://" +:+ path_text p;
}.

(** A store with two policies of one registry, and a file of someone else. *)
Definition example_root : Components := ["cache"; "store"].

Definition example_fs : Node :=
  NDir [("cache", NDir [("store", NDir [
    ("registry", NDir [("ghcr.io", NDir [("kw", NDir [("one", NFile (as_bytes "1")); ("two", NFile (as_bytes "2"))])])]);
    ("notes", NFile (as_bytes "mine"))])])].

Lemma example_fs_wf : tree_wf example_fs.
Proof.
  repeat match goal with
  | |- tree_wf _ => constructor
  | |- NoDup _ => apply (bool_decide_unpack _); vm_compute; exact I
  | |- Forall _ [] => apply Forall_nil_2
  | |- Forall _ _ => apply Forall_cons_2; simpl
  end.
Qed.

Lemma sha_prefix_lookup_exact_witness :
  get_policy_by_sha_prefix (SH := plain_sha256) example_root example_fs "1" =
    Ok (Some {| sp_uri := "registry://ghcr.io/kw/one";
                sp_path := ["cache"; "store"; "registry"; "ghcr.io"; "kw"; "one"] |}).
Proof.
  assert (∃ l, store_list example_root example_fs = Ok l ∧
    one_match "1" None (List.filter (sha_matches (SH := plain_sha256) example_fs "1") l) =
    Ok (Some {| sp_uri := "registry://ghcr.io/kw/one";
                sp_path := ["cache"; "store"; "registry"; "ghcr.io"; "kw"; "one"] |})) as (l & Hl & Hone).
  { eexists. split; [vm_compute; reflexivity|]. vm_compute. reflexivity. }
  rewrite -Hone. by apply (sha_prefix_lookup_exact (SH := plain_sha256) example_root example_fs l "1" example_fs_wf Hl).
Defined.

Definition rm_example := rm (UL := simple_url) (OL := simple_oci) (SH := plain_sha256) example_root example_fs
  "registry://ghcr.io/kw/one".

Lemma rm_removes_one_policy_witness :
  file_at rm_example.2 ["cache"; "store"; "registry"; "ghcr.io"; "kw"; "one"] = None ∧
  file_at rm_example.2 ["cache"; "store"; "registry"; "ghcr.io"; "kw"; "two"] = Some (as_bytes "2").
Proof.
  assert (rm_example.1 = Ok tt) as Hok by (vm_compute; reflexivity).
  assert (store_path (UL := simple_url) example_root "registry://ghcr.io/kw/one" =
    Ok ["cache"; "store"; "registry"; "ghcr.io"; "kw"; "one"]) as Hpath by (vm_compute; reflexivity).
  assert (get_uri (OL := simple_oci) (SH := plain_sha256) example_root example_fs
    "registry://ghcr.io/kw/one" = Ok "registry://ghcr.io/kw/one") as Huri by (vm_compute; reflexivity).
  destruct (rm_removes_one_policy (UL := simple_url) (OL := simple_oci) (SH := plain_sha256)
    example_root example_fs "registry://ghcr.io/kw/one" rm_example.1 rm_example.2) as [H _];
    [done|by destruct rm_example eqn:Hr; rewrite -Hr|].
  destruct (H Hok) as (uri & p & b & Hu & Hp & _ & Hq).
  rewrite Huri in Hu. injection Hu as <-. rewrite Hpath in Hp. injection Hp as <-.
  rewrite !Hq. split; [done|]. vm_compute. reflexivity.
Defined.

Lemma listed_policy_found_witness :
  get_policy_by_uri (UL := simple_url) example_root example_fs "registry://ghcr.io/kw/two" =
  Ok (Some {| sp_uri := "registry://ghcr.io/kw/two";
              sp_path := ["cache"; "store"; "registry"; "ghcr.io"; "kw"; "two"] |}).
Proof.
  apply (listed_policy_found (UL := simple_url) example_root example_fs
    {| sp_uri := "registry://ghcr.io/kw/two";
       sp_path := ["cache"; "store"; "registry"; "ghcr.io"; "kw"; "two"] |} "registry" "ghcr.io" ["kw"; "two"] (as_bytes "2")).
  - reflexivity.
  - reflexivity.
  - right. right. left.
  - done.
  - apply Forall_cons_2; [done|]. apply Forall_cons_2; [done|]. apply Forall_nil_2.
  - done.
Defined.

(** A directory of the store counts as a policy: it is found under its URL, and cannot be
    removed. *)
Example directory_found_as_policy :
  get_policy_by_uri (UL := simple_url) example_root example_fs "registry://ghcr.io/kw" =
    Ok (Some {| sp_uri := "registry://ghcr.io/kw"; sp_path := ["cache"; "store"; "registry"; "ghcr.io"; "kw"] |}) ∧
  (rm (UL := simple_url) (OL := simple_oci) (SH := plain_sha256) example_root example_fs "registry://ghcr.io/kw").1 =
    Err (CouldNotDelete "registry://ghcr.io/kw" "Is a directory (os error 21)").
Proof. split; vm_compute; reflexivity. Qed.
