(* ===== verification/WindowsPath.v ===== *)
(** * The store on Windows

    Models [crates/policy-fetcher/src/store/path/windows.rs] and, over it, the paths and the
    URIs of [store/mod.rs]: the file a policy is stored in and the URI that a file is listed
    under. Names of files are Unicode texts. A path is its components, as [std::path] reads and
    extends them on Windows: both slashes separate, the letter of a drive is a prefix, and
    pushing a path with a prefix replaces what was there. Network and verbatim prefixes,
    which start with two backslashes, are not modelled. *)

From S2P Require Import Prelude RustStr Bytes Base64 VerificationConstraints Sources Registry Fetcher PolicyStore.

(** ** Paths *)

Definition BACKSLASH : ascii := "\"%char.

Record WinPath := {
  (** the letter of a drive *)
  win_prefix : option ascii;
  win_root : bool;
  win_names : list string;
}.

#[export] Instance WinPath_eq_dec : EqDecision WinPath.
Proof. solve_decision. Defined.

Definition empty_path : WinPath := {| win_prefix := None; win_root := false; win_names := [] |}.

Definition is_letter (c : ascii) : bool := in_range 65 90 c || in_range 97 122 c.
Definition is_separator (c : ascii) : bool := bool_decide (c = "/"%char ∨ c = BACKSLASH).

(** The prefix of a text, and the rest of it. *)
Definition parse_prefix (s : string) : option ascii * string :=
  match s with
  | String c (String ":" rest) => if is_letter c then (Some c, rest) else (None, s)
  | _ => (None, s)
  end.

Definition has_root (s : string) : bool := match s with String c _ => is_separator c | "" => false end.

Definition no_cur_dir (l : list string) : list string := filter (λ n, n ≠ ".") l.

(** The names of a text after its prefix: [.] is only kept at the start of a relative path. *)
Definition parse_names (s : string) : list string :=
  match filter (λ n, n ≠ "") (RustStr.split s BACKSLASH ≫= λ t, RustStr.split t "/"%char) with
  | [] => []
  | n :: l => if has_root s then no_cur_dir (n :: l) else n :: no_cur_dir l
  end.

Definition win_path (s : string) : WinPath :=
  let '(prefix, rest) := parse_prefix s in
  {| win_prefix := prefix; win_root := has_root rest; win_names := parse_names rest |}.

(** [PathBuf::push] *)
Definition push_path (p q : WinPath) : WinPath :=
  if bool_decide (is_Some (win_prefix q)) then q
  else if win_root q then {| win_prefix := win_prefix p; win_root := true; win_names := win_names q |}
  else {| win_prefix := win_prefix p; win_root := win_root p;
          win_names := win_names p ++
            (if bool_decide (win_names p = []) && negb (win_root p) then win_names q else no_cur_dir (win_names q)) |}.

Definition win_push (p : WinPath) (s : string) : WinPath := push_path p (win_path s).

Inductive WinComponent := WinPrefix (letter : ascii) | WinRootDir | WinName (name : string).

Definition win_components (p : WinPath) : list WinComponent :=
  match win_prefix p with Some c => [WinPrefix c] | None => [] end ++
  (if win_root p then [WinRootDir] else []) ++ (WinName <$> win_names p).

Definition as_os_str (c : WinComponent) : string :=
  match c with
  | WinPrefix letter => String letter ":"
  | WinRootDir => String BACKSLASH ""
  | WinName name => name
  end.

(** [Path::to_str], and [to_slash_lossy] of the crate [path-slash] *)
Definition path_string (sep : string) (p : WinPath) : string :=
  match win_prefix p with Some c => String c ":" | None => "" end +:+
  (if win_root p then sep else "") +:+ RustStr.join sep (win_names p).

(** ** [windows.rs] *)

Section windows.
Context `{BE : Base64}.

(** One turn of the loop of [encode_path]. *)
Definition encode_component (encoded_path : WinPath) (component : WinComponent) : WinPath :=
  let str_component := as_os_str component in
  match component with
  | WinRootDir => win_push encoded_path str_component
  | _ =>
      if is_known_remote_scheme str_component then win_push encoded_path str_component
      else win_push encoded_path (b64_encode (as_bytes str_component))
  end.

Definition win_encode_path (path : WinPath) : WinPath := foldl encode_component empty_path (win_components path).

Definition win_encode_filename (filename : string) : string := b64_encode (as_bytes filename).

(** One turn of the loop of [decode_path]. *)
Definition decode_component (decoded_path : WinPath) (component : WinComponent) : result WinPath StoreError :=
  let str_component := as_os_str component in
  match component with
  | WinRootDir => Ok (win_push decoded_path str_component)
  | _ =>
      if is_known_remote_scheme str_component then Ok (win_push decoded_path str_component)
      else
        let? decoded_component := map_err DecoderError (b64_decode str_component) in
        Ok (win_push decoded_path (from_utf8_lossy decoded_component))
  end.

Definition win_decode_path (path : WinPath) : result WinPath StoreError :=
  try_fold decode_component empty_path (win_components path).

(** ** [store/mod.rs] over it *)

Context `{UL : UrlLib}.

(** [policy_prefix]; as in [Fetcher], [element_count - 2] wraps. *)
Definition win_policy_prefix (url : Url) : WinPath :=
  let elements := RustStr.split (url_path url) "/"%char in
  let element_count := length elements in
  let path := foldl win_push empty_path
    (if bool_decide (element_count < 2) then drop 1 elements
     else take (element_count - 2) (drop 1 elements)) in
  win_encode_path (push_path (win_push (win_path (url_scheme url)) (store_host_and_port url)) path).

Definition win_policy_file_name (url : Url) : string :=
  win_encode_filename (unwrap_or "" (last (RustStr.split (url_path url) "/"%char))).

(** [policy_path] with [PolicyPath::PrefixAndFilename] *)
Definition win_policy_path (url : Url) : WinPath := win_push (win_policy_prefix url) (win_policy_file_name url).

(** The URI that [list] gives to a file: the directories of its scheme and of its host, and its
    path below them. *)
Definition win_listed_uri (scheme host : string) (names : list string) : result string StoreError :=
  let? host := win_decode_path (win_path host) in
  let? path := win_decode_path {| win_prefix := None; win_root := true; win_names := names |} in
  Ok (scheme +:+ "://" +:+ path_string (String BACKSLASH "") host +:+ path_string "/" path).
End windows.

(** ** Names *)

(** A name that [win_push] adds as it is: no separator, not [.], not the letter of a drive. *)
Definition pushable (n : string) : bool :=
  bool_decide (n ≠ "" ∧ n ≠ ".") && negb (contains_char n "/"%char) && negb (contains_char n BACKSLASH)
  && bool_decide ((parse_prefix n).1 = None).

(** A name of a URL that the store of Windows keeps. *)
Definition storable (n : string) : bool := pushable n && bool_decide (utf8_check 0 (as_bytes n) = None).

Lemma parse_prefix_rest n : (parse_prefix n).1 = None → parse_prefix n = (None, n).
Proof. rewrite /parse_prefix. repeat case_match; simplify_eq/=; done. Qed.

Lemma contains_char_head c s d : contains_char (String c s) d = false → c ≠ d.
Proof. intros H ->. simpl in H. by rewrite bool_decide_true in H. Qed.

Lemma win_path_pushable n :
  pushable n = true → win_path n = {| win_prefix := None; win_root := false; win_names := [n] |}.
Proof.
  rewrite /pushable !andb_true_iff !negb_true_iff !bool_decide_eq_true.
  intros [[[[Hne Hdot] Hs] Hb] Hp]. rewrite /win_path parse_prefix_rest // /parse_names.
  rewrite (split_no_sep n BACKSLASH) //=. rewrite (split_no_sep n "/"%char) //= filter_cons_True //=.
  assert (has_root n = false) as ->; [|done].
  destruct n as [|c n]; [done|]. apply contains_char_head in Hs, Hb.
  rewrite /has_root /is_separator bool_decide_eq_false. naive_solver.
Qed.

Definition add_names (p : WinPath) (l : list string) : WinPath :=
  {| win_prefix := win_prefix p; win_root := win_root p; win_names := win_names p ++ l |}.

Lemma no_cur_dir_pushable l : Forall (λ n, pushable n = true) l → no_cur_dir l = l.
Proof.
  intros H. rewrite /no_cur_dir. induction H as [|n l Hn _ IH]; [done|].
  rewrite filter_cons_True; [by rewrite IH|].
  rewrite /pushable !andb_true_iff !bool_decide_eq_true in Hn. naive_solver.
Qed.

Lemma push_path_names p l :
  Forall (λ n, pushable n = true) l →
  push_path p {| win_prefix := None; win_root := false; win_names := l |} = add_names p l.
Proof. intros H. rewrite /push_path /= no_cur_dir_pushable //. by destruct (_ && _). Qed.

Lemma push_pushable p n : pushable n = true → win_push p n = add_names p [n].
Proof. intros H. rewrite /win_push win_path_pushable // push_path_names //. by apply Forall_singleton. Qed.

Lemma push_all l p :
  Forall (λ n, pushable n = true) l → foldl win_push p l = add_names p l.
Proof.
  intros H. revert p. induction H as [|n l Hn _ IH]; intros p; simpl.
  - destruct p. by rewrite /add_names /= app_nil_r.
  - rewrite push_pushable // IH /add_names /=. by rewrite -app_assoc.
Qed.

Lemma storable_pushable n : storable n = true → pushable n = true.
Proof. rewrite /storable andb_true_iff. naive_solver. Qed.

Lemma storable_utf8 n : storable n = true → utf8_check 0 (as_bytes n) = None.
Proof. rewrite /storable andb_true_iff bool_decide_eq_true. naive_solver. Qed.

(** ** Encoded names *)

(** The characters that every file system of Windows accepts in a name. *)
Definition portable (n : string) : Prop := Forall (λ c, c ∈ as_bytes URL_SAFE) (as_bytes n).

#[export] Instance portable_dec n : Decision (portable n).
Proof. unfold portable. apply _. Defined.

Lemma contains_char_elem s c : contains_char s c = true ↔ c ∈ as_bytes s.
Proof.
  induction s as [|d s IH]; simpl; [by rewrite elem_of_nil|].
  rewrite elem_of_cons orb_true_iff bool_decide_eq_true IH. naive_solver.
Qed.

Lemma portable_contains n c : portable n → c ∉ as_bytes URL_SAFE → contains_char n c = false.
Proof.
  intros Hn Hc. apply not_true_is_false. rewrite contains_char_elem. intros H.
  apply Hc. by eapply Forall_forall in Hn.
Qed.

Lemma parse_prefix_colon n : contains_char n ":"%char = false → (parse_prefix n).1 = None.
Proof.
  destruct n as [|c [|d n]]; [done..|]. simpl. rewrite !orb_false_iff.
  intros (_ & Hd & _). rewrite bool_decide_eq_false in Hd. repeat case_match; simplify_eq/=; done.
Qed.

Lemma portable_pushable n : portable n → n ≠ "" → pushable n = true.
Proof.
  intros Hn Hne. rewrite /pushable !andb_true_iff !negb_true_iff !bool_decide_eq_true.
  split_and!; [done|..].
  - intros ->. apply Forall_cons in Hn as [Hd _]. revert Hd. by apply (bool_decide_unpack _).
  - apply portable_contains; [done|by apply (bool_decide_unpack _)].
  - apply portable_contains; [done|by apply (bool_decide_unpack _)].
  - apply parse_prefix_colon, portable_contains; [done|by apply (bool_decide_unpack _)].
Qed.

Lemma known_portable scheme : scheme ∈ KNOWN_REMOTE_SCHEMES → portable scheme ∧ scheme ≠ "".
Proof.
  intros H. cut (Forall (λ s, portable s ∧ s ≠ "") KNOWN_REMOTE_SCHEMES); [by intros F; eapply Forall_forall in F|].
  apply (bool_decide_unpack _). vm_compute. exact I.
Qed.

Lemma known_storable scheme : scheme ∈ KNOWN_REMOTE_SCHEMES → storable scheme = true.
Proof.
  intros H. cut (Forall (λ s, storable s = true) KNOWN_REMOTE_SCHEMES); [by intros F; eapply Forall_forall in F|].
  repeat constructor.
Qed.

Section encoded.
Context `{BE : Base64, BL : !Base64Laws}.

(** The text of a component of an encoded path. *)
Definition encode_name (n : string) : string :=
  if is_known_remote_scheme n then n else b64_encode (as_bytes n).

Definition decode_name (n : string) : result string StoreError :=
  if is_known_remote_scheme n then Ok n
  else res_map from_utf8_lossy (map_err DecoderError (b64_decode n)).

(** No Unicode text has the encoding [http], [https] or [registry]. *)
Lemma encoded_not_scheme n :
  utf8_check 0 (as_bytes n) = None → is_known_remote_scheme (b64_encode (as_bytes n)) = false.
Proof.
  intros Hn. rewrite /is_known_remote_scheme bool_decide_eq_false /KNOWN_REMOTE_SCHEMES.
  rewrite !elem_of_cons elem_of_nil.
  assert (∀ s, match rfc4648_decode s with Some c => bool_decide (utf8_check 0 c = None) | None => false end = false →
    b64_encode (as_bytes n) ≠ s) as Hs.
  { intros s Hs. apply (b64_encode_ne _ _ (λ c, utf8_check 0 c = None)); [done|]. intros c Hc Hu.
    rewrite Hc bool_decide_true in Hs; done. }
  intros [H|[H|[H|[]]]]; revert H; apply Hs; vm_compute; reflexivity.
Qed.

Lemma b64_name_portable n : storable n = true →
  portable (b64_encode (as_bytes n)) ∧ pushable (b64_encode (as_bytes n)) = true.
Proof.
  intros Hn. assert (portable (b64_encode (as_bytes n))) as Hp by apply b64_alphabet.
  split; [done|]. apply portable_pushable; [done|]. apply b64_encode_nonempty.
  apply storable_pushable in Hn. destruct n; [by compute in Hn|done].
Qed.

Lemma encode_name_portable n : storable n = true → portable (encode_name n) ∧ pushable (encode_name n) = true.
Proof.
  intros Hn. rewrite /encode_name. destruct (is_known_remote_scheme n) eqn:Hk; [|by apply b64_name_portable].
  apply bool_decide_eq_true, known_portable in Hk as [Hk _]. split; [done|]. by apply storable_pushable.
Qed.

Lemma decode_b64_name n : storable n = true → decode_name (b64_encode (as_bytes n)) = Ok n.
Proof.
  intros Hn%storable_utf8. rewrite /decode_name encoded_not_scheme // decode_encode /=.
  by rewrite utf8_lossy_valid // of_bytes_as_bytes.
Qed.

Lemma decode_encoded_name n : storable n = true → decode_name (encode_name n) = Ok n.
Proof.
  intros Hn. rewrite /encode_name. destruct (is_known_remote_scheme n) eqn:Hk; [|by apply decode_b64_name].
  by rewrite /decode_name Hk.
Qed.
End encoded.

(** ** Encoded paths *)

Section paths.
Context `{BE : Base64, BL : !Base64Laws}.

(** A path without the letter of a drive. *)
Definition below (root : bool) (l : list string) : WinPath :=
  {| win_prefix := None; win_root := root; win_names := l |}.

Lemma push_root : win_push empty_path (String BACKSLASH "") = below true [].
Proof. vm_compute. reflexivity. Qed.

Lemma encode_names l : ∀ p, Forall (λ n, storable n = true) l →
  foldl encode_component p (WinName <$> l) = add_names p (encode_name <$> l).
Proof.
  induction l as [|n l IH]; intros p Hl; simpl.
  - destruct p. by rewrite /add_names /= app_nil_r.
  - apply Forall_cons in Hl as [Hn Hl]. pose proof (encode_name_portable n Hn) as [_ Hp].
    rewrite IH // /encode_name in Hp |- *.
    destruct (is_known_remote_scheme n); rewrite push_pushable // /add_names /= -app_assoc //.
Qed.

Lemma win_encode_spec root l :
  Forall (λ n, storable n = true) l → win_encode_path (below root l) = below root (encode_name <$> l).
Proof.
  intros Hl. rewrite /win_encode_path /win_components. cbn [win_prefix win_root win_names below app].
  destruct root; simpl; rewrite ?push_root encode_names //.
Qed.

Lemma decode_names l l' : ∀ p,
  Forall2 (λ e n, decode_name e = Ok n ∧ pushable n = true) l l' →
  try_fold decode_component p (WinName <$> l) = Ok (add_names p l').
Proof.
  intros p H. revert p. induction H as [|e n l l' [Hd Hn] _ IH]; intros p; simpl.
  - destruct p. by rewrite /add_names /= app_nil_r.
  - rewrite /decode_name in Hd. destruct (is_known_remote_scheme e).
    + injection Hd as <-. simpl. rewrite push_pushable // IH /add_names /= -app_assoc //.
    + destruct (b64_decode e) as [b|]; [|done]. injection Hd as <-. simpl.
      rewrite push_pushable // IH /add_names /= -app_assoc //.
Qed.

Lemma win_decode_spec root l l' :
  Forall2 (λ e n, decode_name e = Ok n ∧ pushable n = true) l l' →
  win_decode_path (below root l) = Ok (below root l').
Proof.
  intros H. rewrite /win_decode_path /win_components. cbn [win_prefix win_root win_names below app].
  destruct root; simpl; rewrite ?push_root; rewrite (decode_names l l') //.
Qed.

Lemma decode_encoded_names l :
  Forall (λ n, storable n = true) l →
  Forall2 (λ e n, decode_name e = Ok n ∧ pushable n = true) (encode_name <$> l) l.
Proof.
  intros H. apply Forall2_fmap_l, Forall_Forall2_diag. eapply Forall_impl; [exact H|]. intros n Hn.
  split; [by apply decode_encoded_name|by apply storable_pushable].
Qed.

(** [decode_path] undoes [encode_path], and an encoded path only has names of letters, digits,
    [-] and [_]. *)
Theorem windows_path_round_trip root l :
  Forall (λ n, storable n = true) l →
  win_decode_path (win_encode_path (below root l)) = Ok (below root l) ∧
  Forall portable (win_names (win_encode_path (below root l))).
Proof.
  intros Hl. rewrite win_encode_spec //. split; [by apply win_decode_spec, decode_encoded_names|].
  apply Forall_fmap. eapply Forall_impl; [exact Hl|]. intros n Hn. by apply encode_name_portable.
Qed.

Lemma decode_host host :
  storable host = true → win_decode_path (win_path (encode_name host)) = Ok (below false [host]).
Proof.
  intros Hh. pose proof (encode_name_portable host Hh) as [_ Hp]. rewrite win_path_pushable //.
  apply win_decode_spec. apply Forall2_cons; split; [|done].
  split; [by apply decode_encoded_name|by apply storable_pushable].
Qed.

Lemma split_path_text_storable l :
  l ≠ [] → Forall (λ n, storable n = true) l → RustStr.split (path_text l) "/"%char = "" :: l.
Proof.
  intros Hne Hl. apply split_path_text; [done|]. eapply Forall_impl; [exact Hl|]. intros n Hn%storable_pushable.
  rewrite /pushable !andb_true_iff !negb_true_iff bool_decide_eq_true in Hn. rewrite /component. naive_solver.
Qed.

Lemma win_policy_prefix_spec `{UL : UrlLib} url names file :
  url_scheme url ∈ KNOWN_REMOTE_SCHEMES → url_path url = path_text (names ++ [file]) →
  storable (store_host_and_port url) = true → Forall (λ n, storable n = true) (names ++ [file]) →
  win_policy_prefix url =
    below false (url_scheme url :: encode_name (store_host_and_port url) :: (encode_name <$> names)).
Proof.
  intros Hs Hp Hh Hn. pose proof (proj1 (Forall_app _ _ _) Hn) as [Hnames _].
  pose proof (known_storable _ Hs) as Hss.
  assert (Forall (λ n, pushable n = true) names) as Hnp
    by (eapply Forall_impl; [exact Hnames|]; apply storable_pushable).
  rewrite /win_policy_prefix Hp split_path_text_storable //; [|by destruct names].
  rewrite /= length_app /= bool_decide_eq_false_2; [|lia].
  replace (length names + 1 - 1) with (length names) by lia. rewrite take_app_length push_all //.
  rewrite (win_path_pushable (url_scheme url)); [|by apply storable_pushable].
  rewrite push_pushable; [|by apply storable_pushable]. rewrite push_path_names //.
  rewrite (win_encode_spec false (url_scheme url :: store_host_and_port url :: names)); [|by repeat constructor].
  rewrite /= {1}/encode_name. by rewrite /is_known_remote_scheme bool_decide_true.
Qed.

(** C34. A policy is listed under the URL that it was stored for: the path that [policy_path]
    computes for it is made of portable names below the directory of its scheme, and [list] gives
    the URL back. *)
Theorem windows_listing `{UL : UrlLib} url host names file :
  url_scheme url ∈ KNOWN_REMOTE_SCHEMES → store_host_and_port url = host →
  url_path url = path_text (names ++ [file]) →
  storable host = true → Forall (λ n, storable n = true) (names ++ [file]) →
  ∃ host_dir below_host,
    win_policy_path url = below false (url_scheme url :: host_dir :: below_host) ∧
    Forall portable (host_dir :: below_host) ∧
    win_listed_uri (url_scheme url) host_dir below_host =
      Ok (url_scheme url +:+ "://" +:+ host +:+ url_path url).
Proof.
  intros Hs <- Hp Hh Hn.
  pose proof (proj1 (Forall_app _ _ _) Hn) as [Hnames [Hf _]%Forall_cons].
  pose proof (b64_name_portable file Hf) as [Hfp Hfpush].
  exists (encode_name (store_host_and_port url)), ((encode_name <$> names) ++ [b64_encode (as_bytes file)]).
  split_and!.
  - rewrite /win_policy_path /win_policy_file_name /win_encode_filename Hp split_path_text_storable //; [|by destruct names].
    rewrite app_comm_cons last_snoc (win_policy_prefix_spec url names file) // push_pushable //.
  - apply Forall_cons. split; [by apply encode_name_portable|]. apply Forall_app. split; [|by apply Forall_singleton].
    apply Forall_fmap. eapply Forall_impl; [exact Hnames|]. intros n Hs'. by apply encode_name_portable.
  - rewrite /win_listed_uri decode_host //=. fold (below true ((encode_name <$> names) ++ [b64_encode (as_bytes file)])).
    rewrite (win_decode_spec true _ (names ++ [file])); [by rewrite Hp|].
    apply Forall2_app; [by apply decode_encoded_names|]. apply Forall2_cons; split; [|done].
    split; [by apply decode_b64_name|by apply storable_pushable].
Qed.
End paths.

(** ** Examples *)

#[local] Existing Instance rfc4648.
#[local] Existing Instance rfc4648_laws.
#[local] Existing Instance simple_url.

(** The path of the tests of [windows.rs], and a repository with the name of a scheme. *)
Example encoded_registry_path :
  win_encode_path (win_path "/registry/ghcr.io/some/wasm-module.wasm:1.0.0") =
    below true ["registry"; "Z2hjci5pbw"; "c29tZQ"; "d2FzbS1tb2R1bGUud2FzbToxLjAuMA"] ∧
  win_decode_path (below true ["registry"; "Z2hjci5pbw"; "http"; "cA"]) =
    Ok (below true ["registry"; "ghcr.io"; "http"; "p"]).
Proof. vm_compute. split; reflexivity. Qed.

(** A policy whose name is one letter: [p:latest] reads as a path of the drive [p:], which
    replaces the path decoded so far, so that the policy is listed under another URL. *)
Example one_letter_policy_lost :
  storable "p:latest" = false ∧
  win_listed_uri "registry" (b64_encode (as_bytes "ghcr.io"))
    [b64_encode (as_bytes "kubewarden"); b64_encode (as_bytes "p:latest")] = Ok "registry://ghcr.iop:latest".
Proof. vm_compute. split; reflexivity. Qed.

(** The names that Base64 gives to two policies can differ by case alone: a file system that
    ignores it stores both in one file. *)
Example encoded_names_clash :
  let lower s := of_bytes ((λ c, if in_range 65 90 c then Ascii.ascii_of_N (Ascii.N_of_ascii c + 32) else c) <$> as_bytes s) in
  lower (win_encode_filename "policy:1a") = lower (win_encode_filename "policy:1G") ∧
  lower "policy:1a" ≠ lower "policy:1G".
Proof. vm_compute. split; [reflexivity|discriminate]. Qed.

Definition example_url : Url := {| su_scheme := "registry"; su_rest := "ghcr.io/kubewarden/pods:v1" |}.

Lemma windows_listing_witness :
  ∃ host_dir below_host, win_policy_path example_url = below false ("registry" :: host_dir :: below_host) ∧
    win_listed_uri "registry" host_dir below_host = Ok "registry://ghcr.io/kubewarden/pods:v1".
Proof.
  destruct (windows_listing example_url "ghcr.io" ["kubewarden"] "pods:v1") as (h & b & H1 & _ & H2).
  - apply (bool_decide_unpack _). vm_compute. exact I.
  - vm_compute. reflexivity.
  - vm_compute. reflexivity.
  - vm_compute. reflexivity.
  - repeat constructor.
  - exists h, b. split; [exact H1|exact H2].
Defined.
