(* ===== verification/StoreArchive.v ===== *)
(** * Archives of policies

    Models [crates/kwctl/src/save.rs] and [load.rs]: policies of the store go to a tarball,
    and from a tarball to the store. The crates [tar] and [flate2] are the parameter [TarGz]:
    which paths can be appended, the bytes of an archive of files, and what unpacking an archive
    below a directory does to the file system. *)

From S2P Require Import Prelude Bytes RustStr RustPath Json VerificationConstraints Sources Registry Fetcher Verify.
From S2P Require Import PolicyStore.

Definition Entry : Type := Components * bytes.

Class TarGz := {
  (** why [Builder::append_file] refuses a path *)
  append_error : Components → option string;
  (** a [Builder] over a [GzEncoder], finished after it was given these files *)
  tar_gz : list Entry → bytes;
  (** what is on the disk when finishing it fails *)
  unfinished_gz : list Entry → bytes;
  (** [Archive::unpack] of a [GzDecoder] *)
  unpack : Components → bytes → Node → result unit string * Node;
}.

(** ** Creating files *)

Definition IS_A_DIRECTORY : string := "Is a directory (os error 21)".

(** A file below new directories. *)
Fixpoint fresh_at (p : Components) (b : bytes) : Node :=
  match p with
  | [] => NFile b
  | c :: p => NDir [(c, fresh_at p b)]
  end.

(** The file at the path, with the directories it needs, as an archive is unpacked. *)
Fixpoint put_file (p : Components) (b : bytes) (n : Node) : result Node string :=
  match p with
  | [] => match n with NFile _ => Ok (NFile b) | NDir _ => Err IS_A_DIRECTORY end
  | c :: p =>
      match n with
      | NFile _ => Err NOT_A_DIRECTORY
      | NDir es =>
          match field_get es c with
          | Some m =>
              let? m := put_file p b m in
              Ok (NDir (map (λ kv, (kv.1, if String.eqb kv.1 c then m else kv.2)) es))
          | None => Ok (NDir (es ++ [(c, fresh_at p b)]))
          end
      end
  end.

(** [File::create]: the directory must exist, a file is emptied before it is written. *)
Fixpoint create_file (p : Components) (b : bytes) (n : Node) : result Node string :=
  match p with
  | [] => match n with NFile _ => Ok (NFile b) | NDir _ => Err IS_A_DIRECTORY end
  | c :: p =>
      match n with
      | NFile _ => Err NOT_A_DIRECTORY
      | NDir es =>
          match field_get es c with
          | Some m =>
              let? m := create_file p b m in
              Ok (NDir (map (λ kv, (kv.1, if String.eqb kv.1 c then m else kv.2)) es))
          | None => if decide (p = []) then Ok (NDir (es ++ [(c, NFile b)])) else Err NO_ENTRY
          end
      end
  end.

(** ** [save.rs] *)

Inductive SaveError :=
| CannotCreateFile (output e : string)
| SaveLookup (e : LookupError)
| CannotFindPolicy (policy : string) (e : LookupError)
| CannotOpenPolicyFile (policy e : string)
| CannotFindPath (policy : string) (e : StoreError)
| CannotAppend (policy e : string).

Inductive LoadError :=
| CannotOpenFile (source e : string)
| CannotUnpack (source e : string).

Section archive.
Context `{UL : UrlLib, SE : SourceEnv, OL : OciLib, SH : Sha256, CE : CommandEnv, TG : TarGz}.
Context (root : Components).
Implicit Types (fs : Node).

(** A round of the loop: the entry of a policy. *)
Definition policy_entry fs (policy : string) : result Entry SaveError :=
  let? uri := map_err SaveLookup (map_path_to_uri root fs policy) in
  let? wasm_path := map_err (CannotFindPolicy policy) (wasm_path root fs uri) in
  let? contents := match node_at fs wasm_path with
    | Some (NFile b) => Ok b
    | Some (NDir _) => Err (CannotOpenPolicyFile policy IS_A_DIRECTORY)
    | None => Err (CannotOpenPolicyFile policy NO_ENTRY)
    end in
  let? policy_path := map_err (CannotFindPath policy) (policy_path uri PrefixAndFilename) in
  let path := components (RustPath.path_of policy_path) in
  match append_error path with
  | Some e => Err (CannotAppend policy e)
  | None => Ok (path, contents)
  end.

(** The entries appended before the first error. *)
Fixpoint policy_entries fs (policies : list string) : list Entry * result unit SaveError :=
  match policies with
  | [] => ([], Ok tt)
  | policy :: policies =>
      match policy_entry fs policy with
      | Err e => ([], Err e)
      | Ok entry => let '(entries, r) := policy_entries fs policies in (entry :: entries, r)
      end
  end.

(** The output is created first, and finished when the builder is dropped, on an error too.
    Whether finishing it works is [finished]: a failure there is not reported. *)
Definition save (finished : bool) fs (policies : list string) (output : string) : result unit SaveError * Node :=
  match create_file (locate output) [] fs with
  | Err e => (Err (CannotCreateFile output e), fs)
  | Ok fs =>
      let '(entries, r) := policy_entries fs policies in
      let archive := if finished then tar_gz entries else unfinished_gz entries in
      (r, match create_file (locate output) archive fs with Ok fs => fs | Err _ => fs end)
  end.

(** ** [load.rs] *)

Definition load fs (source_path : string) : result unit LoadError * Node :=
  match node_at fs (locate source_path) with
  | Some (NFile archive) =>
      let '(r, fs) := unpack root archive fs in (map_err (CannotUnpack source_path) r, fs)
  | Some (NDir _) => (Err (CannotUnpack source_path IS_A_DIRECTORY), fs)
  | None => (Err (CannotOpenFile source_path NO_ENTRY), fs)
  end.
End archive.

(** ** Properties *)

Section put_file.
Implicit Types (n : Node) (p q : Components) (b : bytes).

Definition is_dir n p : Prop := ∃ es, node_at n p = Some (NDir es).

(** The path is free: no file above it, no directory at it. *)
Definition fits n p : Prop :=
  (∀ q, q `prefix_of` p → q ≠ p → file_at n q = None) ∧ ¬ is_dir n p.

Lemma file_at_fresh p b q : file_at (fresh_at p b) q = if decide (q = p) then Some b else None.
Proof.
  revert q. induction p as [|c p IH]; intros [|k q]; simpl; try done.
  rewrite file_at_cons /=. case_decide as Hc.
  - subst. rewrite IH. repeat case_decide; congruence.
  - case_decide; [congruence|done].
Qed.

Lemma is_dir_cons es c p : is_dir (NDir es) (c :: p) ↔ ∃ m, field_get es c = Some m ∧ is_dir m p.
Proof.
  rewrite /is_dir /=. destruct (field_get es c) as [m|]; [|by split; [intros [? ?]|intros (? & ? & ?)]].
  split; [by eauto|]. by intros (? & [= <-] & ?).
Qed.

Lemma is_dir_fresh p b q : is_dir (fresh_at p b) q → q `prefix_of` p ∧ q ≠ p.
Proof.
  revert q. induction p as [|c p IH]; intros q.
  - intros [es H]. by destruct q.
  - destruct q as [|k q]; simpl; [intros _; by split; [apply prefix_nil|]|].
    rewrite is_dir_cons /=. intros (m & Hm & Hd). case_decide; simplify_eq.
    apply IH in Hd as [Hp Hne]. split; [by apply prefix_cons|congruence].
Qed.

(** A file that is put is there, and no other file changes. *)
Lemma put_file_Ok p b n n' :
  put_file p b n = Ok n' →
  (∀ q, file_at n' q = if decide (q = p) then Some b else file_at n q) ∧
  (∀ q, is_dir n' q → is_dir n q ∨ q `prefix_of` p ∧ q ≠ p).
Proof.
  revert n n'. induction p as [|c p IH]; intros n n'; simpl.
  - destruct n; [|done]. intros [= <-]. split; [|by intros [] []].
    intros [|k q]; by case_decide.
  - destruct n as [|es]; [done|]. destruct (field_get es c) as [m|] eqn:Hc.
    + intros (m' & Hm & [= <-])%res_bind_Ok. destruct (IH _ _ Hm) as [Hf Hd]. split.
      * intros [|k q]; [by case_decide|]. rewrite !file_at_cons (field_get_alter es c (λ _, m')).
        destruct (decide (k = c)) as [->|Hne].
        { rewrite Hc /= Hf. repeat case_decide; congruence. }
        case_decide; [congruence|]. by destruct (field_get es k).
      * intros [|k q]; [right; by split; [apply prefix_nil|]|].
        rewrite !is_dir_cons (field_get_alter es c (λ _, m')).
        intros (x & Hx & Hq). destruct (decide (k = c)) as [->|Hne].
        { rewrite Hc /= in Hx. simplify_eq. apply Hd in Hq as [Hq|[Hp Hn]]; [eauto|].
          right. split; [by apply prefix_cons|congruence]. }
        left. destruct (field_get es k) as [y|]; simplify_eq/=; eauto.
    + intros [= <-]. split.
      * intros [|k q]; [by case_decide|]. rewrite !file_at_cons field_get_snoc.
        destruct (decide (c = k)) as [<-|Hne].
        { rewrite Hc file_at_fresh. repeat case_decide; congruence. }
        case_decide; [congruence|]. by destruct (field_get es k).
      * intros [|k q]; [right; by split; [apply prefix_nil|]|].
        rewrite !is_dir_cons field_get_snoc. intros (x & Hx & Hq).
        destruct (field_get es k) as [y|] eqn:Hk; [simplify_eq; eauto|].
        case_decide; simplify_eq. apply is_dir_fresh in Hq as [Hp Hn].
        right. split; [by apply prefix_cons|congruence].
Qed.

Lemma put_file_fits p b n : fits n p → ∃ n', put_file p b n = Ok n'.
Proof.
  revert n. induction p as [|c p IH]; intros n [Hf Hd]; simpl.
  - destruct n as [b'|es]; [eauto|]. destruct Hd. by exists es.
  - destruct n as [b'|es].
    { assert (file_at (NFile b') [] = None); [|done]. apply Hf; [apply prefix_nil|done]. }
    destruct (field_get es c) as [m|] eqn:Hc; [|eauto].
    destruct (IH m) as [m' Hm']; [|rewrite Hm' /=; eauto]. split.
    + intros q Hq Hne. specialize (Hf (c :: q)). rewrite file_at_cons Hc in Hf. apply Hf; [by apply prefix_cons|congruence].
    + intros Hm. apply Hd, is_dir_cons. eauto.
Qed.

Lemma put_file_fitted p b n n' : put_file p b n = Ok n' → fits n p.
Proof.
  revert n n'. induction p as [|c p IH]; intros n n'; simpl.
  - destruct n as [b'|]; [|done]. intros _. split; [|by intros []].
    intros q Hq Hne. by apply prefix_nil_inv in Hq.
  - destruct n as [|es]; [done|]. intros Hput. split.
    + intros [|k q] Hq Hne; [done|]. rewrite file_at_cons.
      pose proof (prefix_cons_inv_1 _ _ _ _ Hq) as ->. apply prefix_cons_inv_2 in Hq.
      destruct (field_get es c) as [m|]; [|done]. apply res_bind_Ok in Hput as (m' & Hm & _).
      apply (IH _ _ Hm); [done|congruence].
    + rewrite is_dir_cons. intros (m & Hm & Hdir). rewrite Hm in Hput.
      apply res_bind_Ok in Hput as (m' & Hput & _). by apply (IH _ _ Hput).
Qed.

(** Paths neither of which is below the other. *)
Definition apart p q : Prop := p = q ∨ ¬ p `prefix_of` q ∧ ¬ q `prefix_of` p.

Lemma fits_after p b n n' q : put_file p b n = Ok n' → fits n q → apart p q → fits n' q.
Proof.
  intros [Hf Hd]%put_file_Ok [Hq Hdir] Hap. split.
  - intros r Hr Hne. rewrite Hf. case_decide as Heq; [|by apply Hq]. subst.
    destruct Hap as [->|[Hap _]]; [done|by destruct Hap].
  - intros [Hdq|[Hpre Hne]]%Hd; [done|]. destruct Hap as [->|[_ Hap]]; [done|by destruct Hap].
Qed.

Lemma create_put p b n n' : create_file p b n = Ok n' → put_file p b n = Ok n'.
Proof.
  revert n n'. induction p as [|c p IH]; intros n n'; simpl; [done|]. destruct n as [|es]; [done|].
  destruct (field_get es c) as [m|].
  - intros (m' & Hm & [= <-])%res_bind_Ok. by rewrite (IH _ _ Hm).
  - case_decide as Hp; [|done]. by subst.
Qed.

Lemma create_existing p b b' n : file_at n p = Some b' → ∃ n', create_file p b n = Ok n'.
Proof.
  revert n. induction p as [|c p IH]; intros n; simpl.
  - destruct n; [by eauto|done].
  - destruct n as [|es]; [done|]. rewrite file_at_cons. destruct (field_get es c) as [m|]; [|done].
    intros [m' Hm']%IH. rewrite Hm'. by eexists.
Qed.

(** A file that was created can be written. *)
Lemma create_again p b b' n n' :
  create_file p b n = Ok n' → ∃ n'', create_file p b' n' = Ok n'' ∧ file_at n'' p = Some b'.
Proof.
  intros [Hf _]%create_put%put_file_Ok. specialize (Hf p). rewrite decide_True // in Hf.
  destruct (create_existing p b' _ _ Hf) as [n'' Hn]. exists n''. split; [done|].
  apply create_put, put_file_Ok in Hn as [Hn _]. by rewrite Hn decide_True.
Qed.
End put_file.

(** What is documented of the crates: a path with [..] is not appended, and unpacking an archive of
    files, in a place where none of them hinders another or something that exists, extracts them all. *)
Class TarGzLaws (TG : TarGz) : Prop := {
  append_dot_dot p : append_error p = None → ".." ∉ p;
  unpack_tar root fs entries :
    (∀ p b, (p, b) ∈ entries → ".." ∉ p ∧ fits fs (root ++ p)) →
    (∀ p b p' b', (p, b) ∈ entries → (p', b') ∈ entries → apart p p' ∧ (p = p' → b = b')) →
    ∃ fs', unpack root (tar_gz entries) fs = (Ok tt, fs') ∧
      ∀ p b, (p, b) ∈ entries → file_at fs' (root ++ p) = Some b;
}.

(** A serialized URL is parsed again to the same URL. *)
Class UrlReparse `{UrlLib} : Prop := url_reparse s u : url_parse s = Ok u → url_parse (url_to_string u) = Ok u.

Section archive_properties.
Context `{UL : UrlLib, SE : SourceEnv, OL : OciLib, SH : Sha256, CE : CommandEnv}.
Context `{TG : TarGz, TGL : !TarGzLaws TG, UR : !UrlReparse}.
Implicit Types (fs : Node) (root : Components) (entries : list Entry).

Lemma empty_store_fits fs root p :
  node_at fs root = Some (NDir []) → p ≠ [] → fits fs (root ++ p).
Proof.
  intros Hroot Hp.
  assert (∀ c r, node_at fs (root ++ c :: r) = None) as Hbelow by (intros c r; by rewrite node_at_app Hroot).
  split.
  - intros q Hq _. rewrite /file_at. destruct (decide (root `prefix_of` q)) as [[[|c r] ->]|Hn].
    + by rewrite app_nil_r Hroot.
    + by rewrite Hbelow.
    + destruct (prefix_weak_total q root (root ++ p)) as [[r Hr]|]; [done|by apply prefix_app_r| |done].
      rewrite Hr node_at_app in Hroot. destruct (node_at fs q) as [[b|]|]; [|done..]. by destruct r.
  - intros [es Hes]. destruct p as [|c p]; [done|]. by rewrite Hbelow in Hes.
Qed.

Definition remote_uri (uri : string) : Prop :=
  ∃ u, url_parse uri = Ok u ∧ (url_scheme u = "http" ∨ url_scheme u = "https" ∨ url_scheme u = "registry").

(** Where the store keeps the policy of a remote URI. *)
Lemma remote_policy_path root fs uri :
  remote_uri uri →
  match policy_path uri PrefixAndFilename with
  | Ok text =>
      let p := components (RustPath.path_of text) in
      ∃ url, get_policy_by_uri root fs uri =
        Ok (match node_at fs (root ++ p) with Some _ => Some {| sp_uri := url; sp_path := root ++ p |} | None => None end)
  | Err _ => False
  end.
Proof.
  intros (u & Hu & Hs). rewrite /get_policy_by_uri /store_path /policy_path Hu. cbn [map_err res_bind].
  exists (url_to_string u). rewrite /is_known_remote_scheme bool_decide_eq_true_2; [|set_solver].
  by rewrite (url_reparse _ _ Hu).
Qed.

Lemma policy_entry_Ok root fs name uri p b :
  policy_entry root fs name = Ok (p, b) → map_path_to_uri root fs name = Ok uri → remote_uri uri →
  ".." ∉ p ∧ file_at fs (root ++ p) = Some b ∧
  ∀ root2 fs2, is_Some (file_at fs2 (root2 ++ p)) →
    ∃ policy, get_policy_by_uri root2 fs2 uri = Ok (Some policy) ∧ sp_path policy = root2 ++ p.
Proof.
  intros Hentry Huri Hremote. rewrite /policy_entry Huri in Hentry. cbn [map_err res_bind] in Hentry.
  apply res_bind_Ok in Hentry as (path & Hwasm%map_err_Ok & Hentry).
  apply res_bind_Ok in Hentry as (contents & Hread & Hentry).
  apply res_bind_Ok in Hentry as (text & Htext%map_err_Ok & Hentry).
  destruct (append_error _) as [e|] eqn:Hdot; [done|]. apply append_dot_dot in Hdot. injection Hentry as <- <-.
  assert (∀ root fs, ∃ url, get_policy_by_uri root fs uri =
    Ok (match node_at fs (root ++ components (RustPath.path_of text)) with
        | Some _ => Some {| sp_uri := url; sp_path := root ++ components (RustPath.path_of text) |}
        | None => None end)) as Hget.
  { intros root' fs'. pose proof (remote_policy_path root' fs' uri Hremote) as H. by rewrite Htext in H. }
  split; [done|]. split.
  - destruct Hremote as (u & Hu & Hs). rewrite /wasm_path Hu in Hwasm. cbn [map_err res_bind] in Hwasm.
    case_decide as Hf; [by rewrite Hf in Hs; destruct Hs as [|[]]|]. case_decide; [|done].
    destruct (Hget root fs) as [url Hurl]. rewrite Hurl in Hwasm.
    destruct (node_at fs (root ++ components (RustPath.path_of text))) as [n|] eqn:Hn; [|done].
    injection Hwasm as <-. rewrite /= Hn in Hread. rewrite /file_at Hn. by destruct n; simplify_eq.
  - intros root2 fs2 [b2 Hb2]. destruct (Hget root2 fs2) as [url Hurl]. rewrite Hurl.
    revert Hb2. rewrite /file_at. destruct (node_at fs2 _); [|done]. intros _. by eexists.
Qed.

Lemma policy_entries_Ok root fs policies entries :
  policy_entries root fs policies = (entries, Ok tt) → Forall2 (λ name e, policy_entry root fs name = Ok e) policies entries.
Proof.
  revert entries. induction policies as [|name policies IH]; intros entries; simpl; [intros [= <-]; constructor|].
  destruct (policy_entry root fs name) as [e|] eqn:He; [|done].
  destruct (policy_entries root fs policies) as [es r] eqn:Hes. intros [= <- ->]. constructor; eauto.
Qed.

(** The entries of remote policies are the files of the store. *)
Lemma entries_are_files root fs policies entries :
  Forall2 (λ name e, policy_entry root fs name = Ok e) policies entries → is_dir fs root →
  (∀ name uri, name ∈ policies → map_path_to_uri root fs name = Ok uri → remote_uri uri) →
  ∀ p b, (p, b) ∈ entries → ".." ∉ p ∧ p ≠ [] ∧ file_at fs (root ++ p) = Some b.
Proof.
  intros Hes [es Hroot] Hremote p b [i Hi]%list_elem_of_lookup.
  destruct (Forall2_lookup_r _ _ _ _ _ Hes Hi) as (name & Hname%list_elem_of_lookup_2 & He).
  destruct (map_path_to_uri root fs name) as [uri|e] eqn:Hu; [|by rewrite /policy_entry Hu in He].
  destruct (policy_entry_Ok _ _ _ _ _ _ He Hu) as (Hdot & Hf & _); [by eapply Hremote|].
  split; [done|]. split; [|done]. intros ->. by rewrite app_nil_r /file_at Hroot in Hf.
Qed.

(** Files of one tree are not below each other. *)
Lemma files_apart fs root p b p' b' :
  file_at fs (root ++ p) = Some b → file_at fs (root ++ p') = Some b' → apart p p' ∧ (p = p' → b = b').
Proof.
  intros Hb Hb'. split; [|intros ->; congruence].
  assert (∀ p p' b b', file_at fs (root ++ p) = Some b → file_at fs (root ++ p') = Some b' →
    p `prefix_of` p' → p' = p) as Hpre.
  { clear. intros p p' b b' Hb Hb' Hp. destruct (decide (p' = p)) as [|Hne]; [done|exfalso].
    revert Hb. rewrite /file_at. destruct (node_at fs (root ++ p)) as [[c|]|] eqn:Hn; try done. intros _.
    rewrite (file_at_below fs (root ++ p) (root ++ p') c) // in Hb'; [by apply prefix_app|by intros ?%app_inv_head]. }
  destruct (decide (p = p')) as [|Hne]; [by left|right].
  split; intros Hp; apply Hne; [symmetry; by eapply (Hpre p p')|by eapply (Hpre p' p)].
Qed.

(** C30. Saving and loading round trip: the archive that [kwctl save] writes for remote policies,
    when finishing it works, unpacked by [kwctl load] in an empty store, gives each of them back,
    under the URI it was saved by and with the contents it had. [created] is the file system once
    the output file is created. *)
Theorem saved_policies_load root fs policies output created saved
    (Hcreated : create_file (locate output) [] fs = Ok created)
    (Hsave : save root true fs policies output = (Ok tt, saved))
    (Hstore : is_dir created root)
    (Hremote : ∀ name uri, name ∈ policies → map_path_to_uri root created name = Ok uri → remote_uri uri) :
  ∃ archive, file_at saved (locate output) = Some archive ∧
    ∀ root2 fs2 source, node_at fs2 root2 = Some (NDir []) → file_at fs2 (locate source) = Some archive →
      ∃ loaded, load root2 fs2 source = (Ok tt, loaded) ∧
        ∀ name, name ∈ policies → ∃ uri policy policy2 contents,
          map_path_to_uri root created name = Ok uri ∧
          get_policy_by_uri root created uri = Ok (Some policy) ∧ file_at created (sp_path policy) = Some contents ∧
          get_policy_by_uri root2 loaded uri = Ok (Some policy2) ∧ file_at loaded (sp_path policy2) = Some contents.
Proof.
  rewrite /save Hcreated in Hsave. destruct (policy_entries root created policies) as [entries r] eqn:Hes.
  injection Hsave as -> Hsaved. apply policy_entries_Ok in Hes.
  exists (tar_gz entries). split.
  { destruct (create_again _ _ (tar_gz entries) _ _ Hcreated) as (n & Hn & Hf). rewrite Hn in Hsaved. by subst. }
  pose proof (entries_are_files root created policies entries Hes Hstore Hremote) as Hentry.
  intros root2 fs2 source Hempty Harchive.
  destruct (unpack_tar root2 fs2 entries) as (loaded & Hun & Hfiles).
  - intros p b (? & ? & _)%Hentry. split; [done|by apply empty_store_fits].
  - intros p b p' b' (_ & _ & Hf)%Hentry (_ & _ & Hf')%Hentry. by eapply files_apart.
  - exists loaded. split.
    { rewrite /load. revert Harchive. rewrite /file_at. destruct (node_at fs2 (locate source)) as [[]|]; try done.
      intros [= ->]. by rewrite Hun. }
    intros name [i Hi]%list_elem_of_lookup. destruct (Forall2_lookup_l _ _ _ _ _ Hes Hi) as ([p b] & Hp & He).
    apply list_elem_of_lookup_2 in Hp. apply list_elem_of_lookup_2 in Hi.
    destruct (map_path_to_uri root created name) as [uri|e] eqn:Hu; [|by rewrite /policy_entry Hu in He].
    destruct (policy_entry_Ok _ _ _ _ _ _ He Hu) as (_ & Hf & Hget); [by eapply Hremote|].
    destruct (Hget root created) as (policy & Hpol & Hpath); [by eexists|].
    destruct (Hget root2 loaded) as (policy2 & Hpol2 & Hpath2); [rewrite (Hfiles _ _ Hp); by eexists|].
    exists uri, policy, policy2, b. rewrite Hpath Hpath2. split_and!; try done. by apply Hfiles.
Qed.

(** What [kwctl save] reports does not depend on whether the archive was finished. *)
Lemma save_ignores_finishing root fs policies output :
  (save root false fs policies output).1 = (save root true fs policies output).1.
Proof. rewrite /save. destruct (create_file _ _ _); [|done]. by destruct (policy_entries _ _ _). Qed.
End archive_properties.

(** ** Examples *)

(** Archives as the binary digits of a number. *)
Fixpoint digits (p : positive) : bytes :=
  match p with
  | xH => []
  | xO p => "0"%char :: digits p
  | xI p => "1"%char :: digits p
  end.

Fixpoint number (b : bytes) : positive :=
  match b with
  | [] => xH
  | c :: b => if decide (c = "0"%char) then xO (number b) else xI (number b)
  end.

Lemma number_digits p : number (digits p) = p.
Proof. induction p as [p IH|p IH|]; simpl; [by rewrite IH..|done]. Qed.

(** The entries one after the other; those with a [..] are skipped. *)
Fixpoint unpack_entries (root : Components) (fs : Node) (entries : list Entry) : result unit string * Node :=
  match entries with
  | [] => (Ok tt, fs)
  | (path, contents) :: entries =>
      if decide (".." ∈ path) then unpack_entries root fs entries else
      match put_file (root ++ path) contents fs with
      | Err e => (Err e, fs)
      | Ok fs => unpack_entries root fs entries
      end
  end.

(** An unpacked file is an entry of the archive. *)
Lemma unpack_entries_files root fs entries r fs' q :
  unpack_entries root fs entries = (r, fs') →
  file_at fs' q = file_at fs q ∨
  ∃ p b, (p, b) ∈ entries ∧ ".." ∉ p ∧ q = root ++ p ∧ file_at fs' q = Some b.
Proof.
  revert fs. induction entries as [|[p b] entries IH]; intros fs; simpl; [intros [= <- <-]; by left|].
  case_decide as Hdot.
  { intros [?|(p' & b' & ? & ?)]%IH; [by left|right]. exists p', b'. set_solver. }
  destruct (put_file (root ++ p) b fs) as [fs1|e] eqn:Hput; [|intros [= <- <-]; by left].
  intros [Heq|(p' & b' & ? & ?)]%IH; [|right; exists p', b'; set_solver].
  destruct (put_file_Ok _ _ _ _ Hput) as [Hf _]. rewrite Heq Hf. case_decide as Hq; [|by left].
  right. exists p, b. set_solver.
Qed.

(** Entries that do not hinder each other are all unpacked. *)
Lemma unpack_entries_all root fs entries :
  (∀ p b, (p, b) ∈ entries → ".." ∉ p ∧ fits fs (root ++ p)) →
  (∀ p b p' b', (p, b) ∈ entries → (p', b') ∈ entries → apart p p' ∧ (p = p' → b = b')) →
  ∃ fs', unpack_entries root fs entries = (Ok tt, fs') ∧ ∀ p b, (p, b) ∈ entries → file_at fs' (root ++ p) = Some b.
Proof.
  revert fs. induction entries as [|[p b] entries IH]; intros fs Hfit Hap; simpl.
  { exists fs. split; [done|]. intros p b H. by apply elem_of_nil in H. }
  destruct (Hfit p b) as [Hdot Hp]; [set_solver|]. rewrite decide_False //.
  destruct (put_file_fits (root ++ p) b fs Hp) as [fs1 Hput]. rewrite Hput.
  destruct (IH fs1) as (fs' & Hun & Hfiles).
  - intros p' b' Hin. destruct (Hfit p' b') as [? Hp']; [set_solver|]. split; [done|].
    eapply fits_after; [done..|]. destruct (Hap p b p' b') as [[->|[H1 H2]] _]; [set_solver..|by left|].
    right. split; by intros ?%prefix_app_inv.
  - intros; apply Hap; set_solver.
  - exists fs'. split; [done|]. intros p' b' [[= -> ->]|Hin]%elem_of_cons; [|by apply Hfiles].
    destruct (unpack_entries_files _ _ _ _ _ (root ++ p) Hun) as [->|(p' & b' & Hin & _ & Heq & ->)].
    + rewrite (proj1 (put_file_Ok _ _ _ _ Hput)). by case_decide.
    + apply app_inv_head in Heq as ->. f_equal. symmetry. apply (Hap p' b p' b'); set_solver.
Qed.

#[local] Instance digit_archives : TarGz := {
  append_error p := if decide (".." ∈ p) then Some "paths in archives must not have `..`" else None;
  tar_gz es := digits (encode es);
  unfinished_gz _ := [];
  unpack root b fs :=
    match decode (number b) with
    | Some es => unpack_entries root fs es
    | None => (Err "invalid gzip header", fs)
    end;
}.

#[local] Instance digit_archives_laws : TarGzLaws digit_archives.
Proof.
  constructor.
  - intros p. simpl. by case_decide.
  - intros root fs entries Hfit Hap. simpl. rewrite number_digits decode_encode. by apply unpack_entries_all.
Qed.

#[local] Instance simple_reparse : UrlReparse (H := simple_url).
Proof.
  intros s u. simpl. destruct (split_once s "://") as [[h t]|] eqn:Hs; [|done]. intros [= <-]. simpl.
  rewrite -(split_once_Some _ _ _ _ Hs) Hs. done.
Qed.

#[local] Existing Instance PolicyStore.plain_sha256.
#[local] Existing Instance PolicyStore.example_command_env.

Definition saved_names : list string := ["registry://ghcr.io/kw/one"; "registry://ghcr.io/kw/two"].

(** The store, and a working directory. *)
Definition saving_fs : Node :=
  match example_fs with NDir es => NDir (("work", NDir []) :: es) | n => n end.

Definition example_save :=
  save (UL := simple_url) (OL := simple_oci) example_root true saving_fs saved_names "policies.tar.gz".

(** A machine with an empty store and the archive. *)
Definition other_machine (archive : bytes) : Node :=
  NDir [("work", NDir [("policies.tar.gz", NFile archive)]); ("store", NDir [])].

Lemma saved_policies_load_witness :
  ∃ archive loaded, file_at example_save.2 ["work"; "policies.tar.gz"] = Some archive ∧
    load ["store"] (other_machine archive) "policies.tar.gz" = (Ok tt, loaded) ∧
    ∀ name, name ∈ saved_names → ∃ uri policy2 contents,
      get_policy_by_uri (UL := simple_url) ["store"] loaded uri = Ok (Some policy2) ∧
      file_at loaded (sp_path policy2) = Some contents.
Proof.
  destruct (create_file (locate "policies.tar.gz") [] saving_fs) as [created|e] eqn:Hc; [|discriminate Hc].
  destruct (saved_policies_load (UL := simple_url) (OL := simple_oci) example_root saving_fs saved_names
    "policies.tar.gz" created example_save.2 Hc) as (archive & Ha & Hload).
  - assert (example_save.1 = Ok tt) as Hs by (vm_compute; reflexivity).
    rewrite -Hs. by destruct example_save eqn:H; rewrite -H.
  - injection Hc as <-. eexists. reflexivity.
  - intros name uri Hin. injection Hc as <-. apply elem_of_cons in Hin as [->|Hin];
      [|apply elem_of_cons in Hin as [->|[]%elem_of_nil]]; vm_compute; intros [= <-];
      (eexists; split; [reflexivity|]); right; right; reflexivity.
  - destruct (Hload ["store"] (other_machine archive) "policies.tar.gz" eq_refl eq_refl) as (loaded & Hl & Hget).
    exists archive, loaded. split; [exact Ha|]. split; [exact Hl|]. intros name Hin.
    destruct (Hget name Hin) as (uri & ? & policy2 & contents & _ & _ & _ & Hp & Hf). by exists uri, policy2, contents.
Defined.
