(* ===== verification/KwctlRun.v ===== *)
(** * Running a policy with [kwctl]

    Models, under [crates/kwctl/src/], [config/policy_definition.rs] (the policies of a
    YAML file or of the flags), [config/pull_and_run.rs] (their verification),
    [command/run/local_data.rs] (pulling them), [command/run/evaluator.rs] (what a policy
    is run with) and [command/run.rs].

    The policies are run through the interfaces of the policy server's model:
    [PolicyRuntime] and [PolicyGroupEvaluator]. Parsed custom resources, as the SDK defines
    them, are records of the fields that are read; YAML is the parameter [CrdYaml]. The
    builder of [PolicyBuilder] is the parameter [PolicyLoader]. *)

From S2P Require Import Prelude Bytes Json PolicyId AdmissionResponse ResponseHandler Request.
From S2P Require Import HostCapabilities Callback Runtime GroupEvaluator Config RustStr.
From S2P Require Import VerificationConstraints Sources Registry Fetcher Verify Downloader Metadata Startup.
From S2P Require Import WasmScanner Annotate.

(** ** Definitions of policies *)

Inductive PolicyExecutionConfiguration := UserDefined (mode : PolicyExecutionMode) | PolicyDefined.

Inductive ContextAwareConfiguration :=
| NoAccess
| TrustPolicyMetadata
| AllowList (resources : gset ContextAwareResource).

Record PolicyMember := { pm_uri : string; pm_settings : PolicyGroupMemberSettings }.

Record IndividualPolicy := {
  ip_id : string;
  ip_uri : string;
  ip_user_execution_cfg : PolicyExecutionConfiguration;
  ip_raw : bool;
  ip_policy_mode : PolicyMode;
  ip_allowed_to_mutate : bool;
  ip_custom_rejection_message : option string;
  ip_settings : PolicySettings;
  ip_ctx_aware_cfg : ContextAwareConfiguration;
  ip_allowed_host_capabilities : list string;
}.

Inductive PolicyDefinition :=
| DefPolicy (p : IndividualPolicy)
| DefGroup (id : string) (policy_mode : PolicyMode) (policy_members : gmap string PolicyMember)
    (expression message : string).

Definition get_policy_id (d : PolicyDefinition) : result PolicyID EvaluationError :=
  match d with
  | DefPolicy p => PolicyID_from_str (ip_id p)
  | DefGroup id _ _ _ _ => PolicyID_from_str id
  end.

Definition get_policy_custom_rejection_message (d : PolicyDefinition) : option string :=
  match d with DefPolicy p => ip_custom_rejection_message p | DefGroup _ _ _ _ _ => None end.

Definition get_policy_allowed_to_mutate (d : PolicyDefinition) : bool :=
  match d with DefPolicy p => ip_allowed_to_mutate p | DefGroup _ _ _ _ _ => false end.

Definition get_policy_mode (d : PolicyDefinition) : PolicyMode :=
  match d with DefPolicy p => ip_policy_mode p | DefGroup _ mode _ _ _ => mode end.

Definition uris (d : PolicyDefinition) : gset string :=
  match d with
  | DefPolicy p => {[ip_uri p]}
  | DefGroup _ _ members _ _ => list_to_set ((λ m, pm_uri m.2) <$> map_to_list members)
  end.

(** ** Custom resources *)

Record AdmissionPolicySpec := {
  aps_module : string;
  aps_mode : option PolicyMode;
  aps_mutating : bool;
  aps_message : option string;
  aps_settings : Value;
  (** only in [ClusterAdmissionPolicySpec] *)
  aps_context_aware_resources : list ContextAwareResource;
}.

Record CrdMember := { cm_module : string; cm_member : CrdGroupMember }.

Record PolicyGroupSpec := {
  pgs_mode : option PolicyMode;
  pgs_policies : gmap string CrdMember;
  pgs_expression : string;
  pgs_message : string;
}.

(** A resource: the name of its metadata, and its specification. *)
Record Resource Spec := { res_name : option string; res_spec : option Spec }.
#[global] Arguments res_name {Spec}.
#[global] Arguments res_spec {Spec}.

Class CrdYaml := {
  CrdDocument : Type;
  (** the documents of a file, each with its own errors *)
  documents : string → result (list (result CrdDocument string)) string;
  (** [ObjectReference]: [apiVersion] and [kind] *)
  object_reference : CrdDocument → result (option string * option string) string;
  as_policy : CrdDocument → result (Resource AdmissionPolicySpec) string;
  as_group : CrdDocument → result (Resource PolicyGroupSpec) string;
}.

Section definitions.
Context `{HI : HashIter, CY : CrdYaml}.

Definition name_of {Spec} (r : Resource Spec) : string := unwrap_or "crd-without-name" (res_name r).

Definition spec_of {Spec} (kind : string) (r : Resource Spec) : result Spec string :=
  ok_or (res_spec r) ("CRD does not have spec, but it is required for " +:+ kind).

(** [TryFrom<AdmissionPolicy>] and [TryFrom<ClusterAdmissionPolicy>] differ by what the
    policy may read of the cluster. *)
Definition try_from_policy (kind : string) (ctx_aware_cfg : AdmissionPolicySpec → ContextAwareConfiguration)
    (ap : Resource AdmissionPolicySpec) : result PolicyDefinition string :=
  let? spec := spec_of kind ap in
  let? settings := PolicySettings_try_from (aps_settings spec) in
  Ok (DefPolicy {| ip_id := name_of ap; ip_uri := aps_module spec;
    ip_user_execution_cfg := PolicyDefined; ip_raw := false;
    ip_policy_mode := unwrap_or PolicyMode_default (aps_mode spec);
    ip_allowed_to_mutate := aps_mutating spec;
    ip_custom_rejection_message := aps_message spec; ip_settings := settings;
    ip_ctx_aware_cfg := ctx_aware_cfg spec; ip_allowed_host_capabilities := [] |}).

Definition try_from_admission_policy := try_from_policy "AdmissionPolicy" (λ _, NoAccess).

Definition try_from_cluster_admission_policy :=
  try_from_policy "ClusterAdmissionPolicy"
    (λ spec, AllowList (list_to_set (aps_context_aware_resources spec))).

Definition add_crd_member (member_settings : CrdGroupMember → result PolicyGroupMemberSettings string)
    (members : gmap string PolicyMember) (entry : string * CrdMember) :
    result (gmap string PolicyMember) string :=
  let? settings := member_settings (cm_member entry.2) in
  Ok (<[entry.1 := {| pm_uri := cm_module entry.2; pm_settings := settings |}]> members).

Definition try_from_group (kind : string)
    (member_settings : CrdGroupMember → result PolicyGroupMemberSettings string)
    (group : Resource PolicyGroupSpec) : result PolicyDefinition string :=
  let? spec := spec_of kind group in
  let? members := try_fold (add_crd_member member_settings) ∅ (hash_iter (pgs_policies spec)) in
  Ok (DefGroup (name_of group) (unwrap_or PolicyMode_default (pgs_mode spec)) members
    (pgs_expression spec) (pgs_message spec)).

Definition try_from_cluster_admission_policy_group :=
  try_from_group "ClusterAdmissionPolicyGroup" member_settings_try_from_with_context.

Definition try_from_admission_policy_group :=
  try_from_group "AdmissionPolicyGroup" member_settings_try_from.

Definition debug_opt (o : option string) : string :=
  match o with Some s => "Some(" +:+ debug_str s +:+ ")" | None => "None" end.

(** [PolicyDefinition::new] *)
Definition PolicyDefinition_new (value : CrdDocument) : result PolicyDefinition string :=
  let? obj_ref := map_err (λ e, "cannot extract ObjectReference: " +:+ e) (object_reference value) in
  let parsed {A} kind (r : result A string) := map_err (λ e, "cannot parse value into " +:+ kind +:+ ": " +:+ e) r in
  if negb (bool_decide (obj_ref.1 = Some "policies.kubewarden.io/v1"))
  then Err ("invalid apiVersion " +:+ debug_opt obj_ref.1)
  else if decide (obj_ref.2 = Some "AdmissionPolicy") then
    let? ap := parsed "AdmissionPolicy" (as_policy value) in try_from_admission_policy ap
  else if decide (obj_ref.2 = Some "ClusterAdmissionPolicy") then
    let? cap := parsed "ClusterAdmissionPolicy" (as_policy value) in try_from_cluster_admission_policy cap
  else if decide (obj_ref.2 = Some "AdmissionPolicyGroup") then
    let? apg := parsed "AdmissionPolicyGroup" (as_group value) in try_from_admission_policy_group apg
  else if decide (obj_ref.2 = Some "ClusterAdmissionPolicyGroup") then
    let? capg := parsed "ClusterAdmissionPolicyGroup" (as_group value) in
    try_from_cluster_admission_policy_group capg
  else Err ("unknown kind " +:+ debug_opt obj_ref.2 +:+ ", not a Kubewarden policy").

Definition set_member_capabilities (hc : HostCapabilities) (m : PolicyMember) : PolicyMember :=
  {| pm_uri := pm_uri m; pm_settings :=
     {| pgm_settings := pgm_settings (pm_settings m);
        pgm_ctx_aware_resources_allow_list := pgm_ctx_aware_resources_allow_list (pm_settings m);
        pgm_epoch_deadline := pgm_epoch_deadline (pm_settings m);
        pgm_host_capabilities := hc |} |}.

(** The capabilities of the command line replace those of the definition. *)
Definition set_capabilities (patterns : list string) (hc : HostCapabilities) (d : PolicyDefinition) :
    PolicyDefinition :=
  match d with
  | DefPolicy p => DefPolicy {| ip_id := ip_id p; ip_uri := ip_uri p;
      ip_user_execution_cfg := ip_user_execution_cfg p; ip_raw := ip_raw p;
      ip_policy_mode := ip_policy_mode p; ip_allowed_to_mutate := ip_allowed_to_mutate p;
      ip_custom_rejection_message := ip_custom_rejection_message p; ip_settings := ip_settings p;
      ip_ctx_aware_cfg := ip_ctx_aware_cfg p; ip_allowed_host_capabilities := patterns |}
  | DefGroup id mode members expression message =>
      DefGroup id mode (set_member_capabilities hc <$> members) expression message
  end.

Definition invalid_pattern (e : HostCapabilitiesPatternError) : string :=
  "Invalid host capabilities pattern: " +:+ HostCapabilitiesPatternError_to_string e.

Definition from_yaml_file (yaml_path : string) (allowed_host_capabilities : list string) :
    result (list PolicyDefinition) string :=
  let? docs := map_err (λ e, "Cannot open YAML file " +:+ debug_str yaml_path +:+ ": " +:+ e)
    (documents yaml_path) in
  try_fold (λ policies document,
    let? value_yaml := map_err (λ e, "Cannot parse YAML file " +:+ debug_str yaml_path +:+ ": " +:+ e) document in
    let? policy := PolicyDefinition_new value_yaml in
    let? hc_allow_list := map_err invalid_pattern (HostCapabilities_new allowed_host_capabilities) in
    Ok (policies ++ [set_capabilities allowed_host_capabilities hc_allow_list policy])) [] docs.

(** The flags of [kwctl run] that define a policy; the URI has been looked up, the settings
    file or text has been parsed. *)
Record RunFlags := {
  rf_uri : result string string;
  rf_settings : option (result Value string);
  rf_execution_mode : option (result PolicyExecutionMode string);
  rf_allow_context_aware : bool;
  rf_raw : bool;
  rf_allowed_host_capabilities : list string;
}.

Definition from_cli (f : RunFlags) : result PolicyDefinition string :=
  let? uri := rf_uri f in
  let? settings := match rf_settings f with
    | Some value => let? v := value in PolicySettings_try_from v
    | None => Ok []
    end in
  let? user_execution_cfg := match rf_execution_mode f with
    | Some mode => res_map UserDefined mode
    | None => Ok PolicyDefined
    end in
  Ok (DefPolicy {| ip_id := "policy-from-cli"; ip_uri := uri;
    ip_user_execution_cfg := user_execution_cfg; ip_raw := rf_raw f;
    ip_policy_mode := Protect; ip_allowed_to_mutate := true;
    ip_custom_rejection_message := None; ip_settings := settings;
    ip_ctx_aware_cfg := if rf_allow_context_aware f then TrustPolicyMetadata else NoAccess;
    ip_allowed_host_capabilities := rf_allowed_host_capabilities f |}).

Definition parse_policy_definitions (uri_or_yaml : string) (f : RunFlags) :
    result (list PolicyDefinition) string :=
  if ends_with uri_or_yaml ".yaml" || ends_with uri_or_yaml ".yml" then
    if rf_raw f then Err ("The --raw option cannot be used with a YAML file: " +:+ uri_or_yaml)
    else from_yaml_file uri_or_yaml (rf_allowed_host_capabilities f)
  else res_map (λ d, [d]) (from_cli f).
End definitions.

(** ** Running *)

Class PolicyLoader `{ST : SdkTypes, PR : !PolicyRuntime} :=
  (** [PolicyEvaluatorBuilder] on the file of a policy: its contents, the execution mode,
      the memory limit and the cache of compiled modules *)
  load_policy : bytes → PolicyExecutionMode → option Z → bool → result PolicyEvaluatorPre string.

Inductive HostCapabilitiesMode :=
| HostCapabilitiesDirect
| HostCapabilitiesRecord (destination : string)
| HostCapabilitiesReplay (source : string).

Record PullAndRunSettings := {
  prs_sources : option Sources;
  prs_request : Value;
  prs_verified_manifest_digests : option (gmap string string);
  prs_enable_wasmtime_cache : bool;
  prs_policy_memory_limit_bytes : option Z;
  prs_host_capabilities_mode : HostCapabilitiesMode;
}.

Section run.
Context `{HI0 : HashIter, UL : UrlLib, SG : Sigstore, SE : SourceEnv, OL : OciLib, HI : !HostIO}.
Context `{CC : !CosignClient, YL : !YamlLib, SH : Sha256, WT : WasmTools}.
Context `{ST : SdkTypes, PR : !PolicyRuntime, R : !Rhai, PL : !PolicyLoader}.
Context (default_store_root : string).
(** [Verifier::new] with the trust root of the command, which can fail. *)
Context (verifier_new : option Sources → result Verifier string).
(** [BackendDetector::default()] on the files of a moment. *)
Context (detector : Host → BackendDetector).
(** [build_kube_client], and the channel of the callback handler of a mode, with or without
    a connection to the cluster. *)
Context (build_kube_client : result unit string).
Context (handler_channel : HostCapabilitiesMode → bool → result Channel string).
(** [serde_json::from_value::<AdmissionRequest>] *)
Context (admission_request_of : Value → result AdmissionRequest string).
Implicit Types (cfg : PullAndRunSettings).

(** The iteration of a [HashSet]. *)
Definition hash_set_iter (s : gset string) : list string := hash_keys (gset_to_gmap tt s).

(** *** Verification ([verify.rs] and [pull_and_run.rs]) *)

Definition verify_policy (url : string) (sources : option Sources) (config : VerificationConfigV1) :
    M St (result string string) :=
  let!? _ := m_ret (verifier_new sources) in
  let! r := Verifier_verify url config in
  m_ret (map_err VerifyError_to_string r).

Definition verify_local_checksum (policy : Policy) (sources : option Sources) (digest : string) :
    M St (result unit string) :=
  let!? verifier := m_ret (verifier_new sources) in
  let! r := verify_local_file_checksum verifier policy digest in
  m_ret (map_err VerifyError_to_string r).

Definition build_verified_manifest_digests (definitions : list PolicyDefinition)
    (config : VerificationConfigV1) (sources : option Sources) : M St (result (gmap string string) string) :=
  mr_fold (λ digests uri,
    let! r := verify_policy uri sources config in
    let!? digest := m_ret (map_err (λ e, "Policy " +:+ uri +:+ " cannot be validated" +:+ newline +:+ e) r) in
    m_ret (Ok (<[uri := digest]> digests))) ∅
    (hash_set_iter (⋃ (uris <$> definitions))).

(** *** Local files ([local_data.rs]) *)

Definition pull_uri cfg (local_paths : gmap string string) (uri : string) :
    M St (result (gmap string string) string) :=
  if decide (is_Some (local_paths !! uri)) then m_ret (Ok local_paths) else
  let! r := fetch_policy default_store_root uri MainStore (prs_sources cfg) in
  let!? policy := m_ret (map_err FetcherError_to_string r) in
  let!? _ := match prs_verified_manifest_digests cfg with
    | None => m_ret (Ok tt)
    | Some digests =>
        let!? digest := m_ret (ok_or (digests !! uri) ("No digest found for " +:+ uri)) in
        verify_local_checksum policy (prs_sources cfg) digest
    end in
  m_ret (Ok (<[uri := local_path policy]> local_paths)).

Definition pull_all (definitions : list PolicyDefinition) cfg : M St (result (gmap string string) string) :=
  mr_fold (pull_uri cfg) ∅ (definitions ≫= λ d, hash_set_iter (uris d)).

(** [Metadata::from_path] *)
Definition metadata_from_path (h : Host) (path : string) : result (option Metadata) string :=
  map_err MetadataError_to_string (metadata_from_read (read_file path h)).

Definition build_metadata (h : Host) (local_paths : gmap string string) :
    result (gmap string Metadata) string :=
  try_fold (λ modules '(uri, local_path),
    let? metadata := metadata_from_path h local_path in
    match metadata with
    | None => Ok modules
    | Some m =>
        let? _ := kwctl_has_minimum_kubewarden_version (Some m) in
        Ok (<[uri := m]> modules)
    end) ∅ (hash_iter local_paths).

Record LocalData := {
  ld_local_paths : gmap string string;
  ld_modules_metadata : gmap string Metadata;
}.

Definition LocalData_new (definitions : list PolicyDefinition) cfg : M St (result LocalData string) :=
  let!? local_paths := pull_all definitions cfg in
  let! h := host_query (λ h, h) in
  let!? modules_metadata := m_ret (build_metadata h local_paths) in
  m_ret (Ok {| ld_local_paths := local_paths; ld_modules_metadata := modules_metadata |}).

Definition path_of_uri (l : LocalData) (uri : string) : result string string :=
  ok_or (ld_local_paths l !! uri) ("No local path found for " +:+ uri).

(** *** The evaluator ([evaluator.rs]) *)

Definition has_raw_policy_type (metadata : option Metadata) : bool :=
  match metadata with
  | Some m => match md_policy_type m with Raw => true | Kubernetes => false end
  | None => false
  end.

Definition build_callback_handler (kube_client_needed : bool) cfg : result Channel string :=
  let? connected :=
    if negb kube_client_needed then Ok false else
    match prs_host_capabilities_mode cfg with
    | HostCapabilitiesReplay _ => Ok false
    | _ => let? _ := build_kube_client in Ok true
    end in
  handler_channel (prs_host_capabilities_mode cfg) connected.

Definition build_context_aware_allowed_resources (metadata : option Metadata)
    (ctx_aware_cfg : ContextAwareConfiguration) : gset ContextAwareResource :=
  match ctx_aware_cfg with
  | NoAccess => ∅
  | AllowList allowed => allowed
  | TrustPolicyMetadata =>
      match metadata with Some m => md_context_aware_resources m | None => ∅ end
  end.

Definition build_validate_request (request : Value) (raw_request : bool) :
    result ValidateRequest string :=
  if raw_request then Ok (RawRequest request) else
  match request with
  | JObject fields =>
      let? req_obj :=
        if decide (field_get fields "kind" ≫= value_as_str = Some "AdmissionReview")
        then ok_or (field_get fields "request") "invalid AdmissionReview object"
        else Ok request in
      let? adm_req := map_err (λ e, "cannot build AdmissionRequest object from given input: " +:+ e)
        (admission_request_of req_obj) in
      Ok (AdmissionReviewRequest adm_req)
  | _ => Err "Invalid request object"
  end.

Definition load_file (h : Host) cfg (path : string) (mode : PolicyExecutionMode) :
    result PolicyEvaluatorPre string :=
  let? contents := read_file path h in
  load_policy contents mode (prs_policy_memory_limit_bytes cfg) (prs_enable_wasmtime_cache cfg).

Inductive Evaluator :=
| EvaluatorPolicy (e : PolicyEvaluator) (settings : PolicySettings) (request : ValidateRequest)
| EvaluatorGroup (g : PolicyGroupEvaluator) (request : ValidateRequest).

Definition execution_mode_of (h : Host) (local_data : LocalData) (uri : string)
    (c : PolicyExecutionConfiguration) : result PolicyExecutionMode string :=
  match c with
  | UserDefined mode => Ok mode
  | PolicyDefined =>
      let? wasm_path := path_of_uri local_data uri in
      determine_execution_mode (ld_modules_metadata local_data !! uri) None (detector h) wasm_path
  end.

(** The context an individual policy runs in. *)
Definition policy_eval_context (p : IndividualPolicy) (metadata : option Metadata) (tx : Channel) :
    result EvaluationContext string :=
  let? hc := map_err invalid_pattern (HostCapabilities_new (ip_allowed_host_capabilities p)) in
  Ok {| policy_id := ip_uri p; callback_channel := Some tx;
        ctx_aware_resources_allow_list := build_context_aware_allowed_resources metadata (ip_ctx_aware_cfg p);
        epoch_deadline := None; host_capabilities := hc |}.

Definition policy_evaluator_new (h : Host) cfg (local_data : LocalData) (p : IndividualPolicy) :
    M World (result Evaluator string) :=
  let metadata := ld_modules_metadata local_data !! ip_uri p in
  let!? mode := m_ret (execution_mode_of h local_data (ip_uri p) (ip_user_execution_cfg p)) in
  let!? request := m_ret (build_validate_request (prs_request cfg) (ip_raw p || has_raw_policy_type metadata)) in
  let!? tx := m_ret (build_callback_handler
    (bool_decide (build_context_aware_allowed_resources metadata (ip_ctx_aware_cfg p) ≠ ∅)) cfg) in
  let!? path := m_ret (path_of_uri local_data (ip_uri p)) in
  let!? ctx := m_ret (policy_eval_context p metadata tx) in
  let!? pre := m_ret (load_file h cfg path mode) in
  let!? e := rehydrate pre ctx in
  m_ret (Ok (EvaluatorPolicy e (ip_settings p) request)).

Definition member_mode (h : Host) (local_data : LocalData) (member : PolicyMember) :
    result PolicyExecutionMode string :=
  execution_mode_of h local_data (pm_uri member) PolicyDefined.

Definition add_member (h : Host) cfg (local_data : LocalData) (g : PolicyGroupEvaluator)
    (entry : string * PolicyMember * PolicyExecutionMode) : result PolicyGroupEvaluator string :=
  let '(member_id, member, mode) := entry in
  let? path := path_of_uri local_data (pm_uri member) in
  let? pre := load_file h cfg path mode in
  Ok (add_policy_member g member_id pre (pm_settings member)).

Definition group_evaluator_new (h : Host) cfg (local_data : LocalData) (id : string)
    (members : gmap string PolicyMember) (expression message : string) : result Evaluator string :=
  let kube_client_needed := existsb (λ m,
    bool_decide (pgm_ctx_aware_resources_allow_list (pm_settings m.2) ≠ ∅)) (hash_iter members) in
  let? with_modes := try_fold (λ l '(member_id, member),
    let? mode := member_mode h local_data member in Ok (l ++ [(member_id, member, mode)])) []
    (hash_iter members) in
  let? tx := build_callback_handler kube_client_needed cfg in
  let? request := build_validate_request (prs_request cfg) false in
  let? g := try_fold (add_member h cfg local_data) (group_new id message expression (Some tx)) with_modes in
  Ok (EvaluatorGroup g request).

(** [Evaluator::new] *)
Definition Evaluator_new (h : Host) cfg (local_data : LocalData) (d : PolicyDefinition) :
    M World (result Evaluator string) :=
  match d with
  | DefPolicy p => policy_evaluator_new h cfg local_data p
  | DefGroup id _ members expression message =>
      m_ret (group_evaluator_new h cfg local_data id members expression message)
  end.

Definition evaluate (e : Evaluator) : M World AdmissionResponse :=
  match e with
  | EvaluatorPolicy e settings request => evaluator_validate e request settings
  | EvaluatorGroup g request => group_validate g request
  end.

Definition validate_settings (e : Evaluator) : M World SettingsValidationResponse :=
  match e with
  | EvaluatorPolicy e settings _ => evaluator_validate_settings e settings
  | EvaluatorGroup g _ => group_validate_settings g
  end.

(** *** The command ([run.rs]) *)

Definition run_definition (h : Host) cfg (local_data : LocalData) (d : PolicyDefinition) :
    M World (result AdmissionResponse string) :=
  let!? e := Evaluator_new h cfg local_data d in
  let! r := validate_settings e in
  if negb (sv_valid r) then
    m_ret (Err ("Provided settings are not valid: " +:+ unwrap_or "" (sv_message r)))
  else
  let! vanilla := evaluate e in
  let!? id := m_ret (map_err EvaluationError_to_string (get_policy_id d)) in
  m_ret (Ok (process_response {| h_policy_id := id; h_policy_mode := get_policy_mode d;
    h_allowed_to_mutate := get_policy_allowed_to_mutate d;
    h_custom_rejection_message := get_policy_custom_rejection_message d |} vanilla)).

(** The loop over the definitions: the answers that were printed, and how it ended. *)
Fixpoint run_all (h : Host) cfg (local_data : LocalData) (definitions : list PolicyDefinition) :
    M World (list AdmissionResponse * result unit string) :=
  match definitions with
  | [] => m_ret ([], Ok tt)
  | d :: definitions =>
      let! r := run_definition h cfg local_data d in
      match r with
      | Err e => m_ret ([], Err e)
      | Ok response =>
          let! (responses, r) := run_all h cfg local_data definitions in
          m_ret (response :: responses, r)
      end
  end.

Definition exec (definitions : list PolicyDefinition) cfg :
    M (St * World) (list AdmissionResponse * result unit string) := λ '(st, w),
  match LocalData_new definitions cfg st with
  | None => None
  | Some (Err e, st) => Some (([], Err e), (st, w))
  | Some (Ok local_data, st) =>
      match run_all (host st) cfg local_data definitions w with
      | None => None
      | Some (r, w) => Some (r, (st, w))
      end
  end.
End run.

(** ** Properties *)

Section verified.
Context `{HI0 : HashIter, UL : UrlLib, SG : Sigstore, SE : SourceEnv, OL : OciLib, HI : !HostIO}.
Context `{CC : !CosignClient, YL : !YamlLib, SH : Sha256, UrL : !UrlLaws, SL : !SigstoreLaws}.
Context (default_store_root : string) (verifier_new : option Sources → result Verifier string).
Implicit Types (cfg : PullAndRunSettings) (definitions : list PolicyDefinition).

Lemma elem_of_hash_set_iter (s : gset string) uri : uri ∈ hash_set_iter s ↔ uri ∈ s.
Proof.
  unfold hash_set_iter. rewrite elem_of_hash_keys. rewrite -elem_of_dom dom_gset_to_gmap. done.
Qed.

(** The signatures of the image satisfied the configuration, and the manifest that was
    verified has this digest. *)
Definition signed (config : VerificationConfigV1) (uri digest : string) : Prop :=
  ∃ layers st st', fetch_sigstore_remote_data uri st = Some (Ok (digest, layers), st') ∧
    config_satisfied config layers.

(** The file had the checksum of the only WebAssembly layer of that manifest. *)
Definition has_manifest_checksum (path digest : string) : Prop :=
  ∃ policy ver st st', local_path policy = path ∧
    verify_local_file_checksum ver policy digest st = Some (Ok tt, st').

Lemma digests_signed definitions config sources st digests st' :
  build_verified_manifest_digests verifier_new definitions config sources st = Some (Ok digests, st') →
  map_Forall (signed config) digests.
Proof.
  unfold build_verified_manifest_digests.
  apply (mr_fold_inv (λ _ m, map_Forall (signed config) m)); [apply map_Forall_empty|].
  intros m uri l w m' w' Hm Hf. apply m_bind_Some in Hf as (r & w1 & Hv & Hf).
  apply mr_bind_Ok in Hf as (digest & w2 & [= Hr <-] & Hf). apply map_err_Ok in Hr as ->.
  apply m_ret_Some in Hf. simplify_eq. apply map_Forall_insert_2; [|done].
  apply mr_bind_Ok in Hv as (ver & w3 & _ & Hv). apply m_bind_Some in Hv as (r & w4 & Hv & [= Hr _]).
  apply map_err_Ok in Hr as ->. apply Verifier_verify_Ok in Hv as (layers & ? & ?).
  by exists layers, w3, w4.
Qed.

Lemma pull_uri_Ok cfg digests m uri st m' st' :
  prs_verified_manifest_digests cfg = Some digests →
  pull_uri default_store_root verifier_new cfg m uri st = Some (Ok m', st') →
  m' = m ∧ is_Some (m !! uri) ∨
  ∃ path digest, m' = <[uri := path]> m ∧ digests !! uri = Some digest ∧ has_manifest_checksum path digest.
Proof.
  intros Hd. unfold pull_uri. case_decide as Hm.
  { intros [= <- <-]. by left. }
  intros (r & st1 & Hf & Hr)%m_bind_Some. apply mr_bind_Ok in Hr as (policy & st2 & [= Hp <-] & Hr).
  apply map_err_Ok in Hp as ->. rewrite Hd in Hr. apply mr_bind_Ok in Hr as ([] & st3 & Hv & [= <- <-]).
  apply mr_bind_Ok in Hv as (digest & st4 & [= Hdig <-] & Hv).
  apply ok_or_Ok in Hdig. apply mr_bind_Ok in Hv as (ver & st5 & [= _ <-] & Hv).
  apply m_bind_Some in Hv as (r & st6 & Hv & [= Hr ->]). apply map_err_Ok in Hr as ->.
  right. exists (local_path policy), digest. split; [done|]. split; [done|].
  by exists policy, ver, st1, st3.
Qed.

Lemma pull_all_Ok definitions cfg digests st paths st' :
  prs_verified_manifest_digests cfg = Some digests →
  pull_all default_store_root verifier_new definitions cfg st = Some (Ok paths, st') →
  (∀ d uri, d ∈ definitions → uri ∈ uris d → is_Some (paths !! uri)) ∧
  (∀ uri path, paths !! uri = Some path →
     ∃ digest, digests !! uri = Some digest ∧ has_manifest_checksum path digest).
Proof.
  intros Hd. unfold pull_all. set (all := definitions ≫= _). intros Hf.
  assert ((∀ uri, uri ∈ all → uri ∈ ([] : list string) ∨ is_Some (paths !! uri)) ∧
    (∀ uri path, paths !! uri = Some path →
     ∃ digest, digests !! uri = Some digest ∧ has_manifest_checksum path digest)) as [Hall Hok].
  { revert Hf. apply (mr_fold_inv (λ l (m : gmap string string),
      (∀ uri, uri ∈ all → uri ∈ l ∨ is_Some (m !! uri)) ∧
      (∀ uri path, m !! uri = Some path →
        ∃ digest, digests !! uri = Some digest ∧ has_manifest_checksum path digest))).
    { split; [auto|]. intros uri path. by rewrite lookup_empty. }
    intros m uri l w m' w' [Hin Hm] Hu.
    destruct (pull_uri_Ok _ _ _ _ _ _ _ Hd Hu) as [[-> Hs]|(path & digest & -> & Hdig & Hc)].
    - split; [|done]. intros u [[->|?]%elem_of_cons|?]%Hin; auto.
    - split.
      + intros u Hu'. destruct (decide (u = uri)) as [->|Hne]; [right; rewrite lookup_insert_eq; eauto|].
        destruct (Hin u Hu') as [[?|?]%elem_of_cons|?]; [done|by left|].
        right. by rewrite lookup_insert_ne.
      + intros u p [[<- <-]|[_ ?]]%lookup_insert_Some; eauto. }
  split; [|done]. intros d uri Hdef Huri.
  destruct (Hall uri) as [[]%elem_of_nil|?]; [|done].
  apply list_elem_of_bind. exists d. split; [by apply elem_of_hash_set_iter|done].
Qed.

(** When [kwctl run] verifies, every module that a definition refers to was verified
    before it is run: the signatures of its image satisfied the configuration, and the
    local file has the checksum of the manifest that was signed. *)
Theorem kwctl_runs_verified_policies definitions config cfg digests st0 st1 st2 paths st3 d uri
    (Hdigests : build_verified_manifest_digests verifier_new definitions config (prs_sources cfg) st0 =
       Some (Ok digests, st1))
    (Hcfg : prs_verified_manifest_digests cfg = Some digests)
    (Hpull : pull_all default_store_root verifier_new definitions cfg st2 = Some (Ok paths, st3))
    (Hd : d ∈ definitions) (Huri : uri ∈ uris d) :
  ∃ path digest, paths !! uri = Some path ∧ signed config uri digest ∧ has_manifest_checksum path digest.
Proof.
  destruct (pull_all_Ok _ _ _ _ _ _ Hcfg Hpull) as [Hall Hok].
  destruct (Hall d uri Hd Huri) as [path Hpath]. destruct (Hok uri path Hpath) as (digest & Hdig & Hc).
  exists path, digest. split_and!; [done| |done].
  by apply (digests_signed _ _ _ _ _ _ Hdigests).
Qed.
End verified.

Section privileges.
Context `{HI0 : HashIter, CY : CrdYaml}.

(** What a definition may read of the cluster, given the metadata of its module. *)
Definition cluster_access (d : PolicyDefinition) (metadata : option Metadata) : gset ContextAwareResource :=
  match d with
  | DefPolicy p => build_context_aware_allowed_resources metadata (ip_ctx_aware_cfg p)
  | DefGroup _ _ members _ _ =>
      ⋃ ((λ m, pgm_ctx_aware_resources_allow_list (pm_settings m.2)) <$> map_to_list members)
  end.

Lemma group_members_no_access spec members :
  try_fold (add_crd_member member_settings_try_from) ∅ (hash_iter (pgs_policies spec)) = Ok members →
  map_Forall (λ _ m, pgm_ctx_aware_resources_allow_list (pm_settings m) = ∅) members.
Proof.
  apply (try_fold_inv _ (map_Forall (λ _ m, pgm_ctx_aware_resources_allow_list (pm_settings m) = ∅))).
  - apply map_Forall_empty.
  - intros m [id policy] m' _ Hm Hs. unfold add_crd_member in Hs. apply res_bind_Ok in Hs as (settings & Hs & [= <-]).
    apply map_Forall_insert_2; [|done]. simpl.
    unfold member_settings_try_from in Hs. apply res_bind_Ok in Hs as (? & _ & [= <-]). done.
Qed.

(** A namespaced resource never reaches the cluster: whatever its module asks for in its
    metadata, and whatever its specification says, no kind of resource can be read. *)
Theorem namespaced_policy_no_cluster_access value kind d metadata
    (Hkind : object_reference value = Ok (Some "policies.kubewarden.io/v1", Some kind))
    (Hns : kind = "AdmissionPolicy" ∨ kind = "AdmissionPolicyGroup")
    (Hnew : PolicyDefinition_new value = Ok d) :
  cluster_access d metadata = ∅.
Proof.
  unfold PolicyDefinition_new in Hnew. rewrite Hkind /= in Hnew.
  destruct Hns as [->| ->]; simpl in Hnew; apply res_bind_Ok in Hnew as (r & _ & Hnew).
  - unfold try_from_admission_policy, try_from_policy in Hnew. res_simpl. done.
  - unfold try_from_admission_policy_group, try_from_group in Hnew.
    apply res_bind_Ok in Hnew as (spec & _ & Hnew). apply res_bind_Ok in Hnew as (members & Hm & [= <-]).
    apply group_members_no_access in Hm. simpl. apply empty_union_list_L, Forall_fmap, Forall_forall.
    intros [id m] Hin. apply elem_of_map_to_list in Hin. by apply (Hm id m).
Qed.

(** The capabilities of a definition of a YAML file are those of the command line, for
    every member of a group too: a file cannot grant itself any. *)
Theorem yaml_capabilities_from_flags yaml_path patterns definitions d
    (Hyaml : from_yaml_file yaml_path patterns = Ok definitions) (Hd : d ∈ definitions) :
  ∃ hc, HostCapabilities_new patterns = Ok hc ∧
  match d with
  | DefPolicy p => ip_allowed_host_capabilities p = patterns
  | DefGroup _ _ members _ _ => map_Forall (λ _ m, pgm_host_capabilities (pm_settings m) = hc) members
  end.
Proof.
  revert d Hd. unfold from_yaml_file in Hyaml. apply res_bind_Ok in Hyaml as (docs & _ & Hyaml).
  revert Hyaml. apply (try_fold_inv _ (λ l, ∀ d, d ∈ l → ∃ hc, HostCapabilities_new patterns = Ok hc ∧
    match d with
    | DefPolicy p => ip_allowed_host_capabilities p = patterns
    | DefGroup _ _ members _ _ => map_Forall (λ _ m, pgm_host_capabilities (pm_settings m) = hc) members
    end)); [by intros ? ?%elem_of_nil|].
  intros l doc l' _ Hl Hs. apply res_bind_Ok in Hs as (v & _ & Hs). apply res_bind_Ok in Hs as (p & _ & Hs).
  apply res_bind_Ok in Hs as (hc & Hhc & [= <-]). apply map_err_Ok in Hhc.
  intros d [?|Hd]%elem_of_app; [by apply Hl|]. apply list_elem_of_singleton in Hd as ->.
  exists hc. split; [done|].
  destruct p as [p|id mode members e m]; simpl; [done|].
  intros id' m' (m0 & <- & _)%lookup_fmap_Some. done.
Qed.
End privileges.

Section decisions.
Context `{HI0 : HashIter, UL : UrlLib, SG : Sigstore, SE : SourceEnv, OL : OciLib, HI : !HostIO}.
Context `{WT : WasmTools, ST : SdkTypes, PR : !PolicyRuntime, R : !Rhai, PL : !PolicyLoader}.
Context (detector : Host → BackendDetector) (build_kube_client : result unit string).
Context (handler_channel : HostCapabilitiesMode → bool → result Channel string).
Context (admission_request_of : Value → result AdmissionRequest string).

Let run := run_definition detector build_kube_client handler_channel admission_request_of.

(** What [kwctl run] prints for a definition: the settings were valid, and the decision is
    the one the policy server would take for that mode and that permission to mutate. The
    answer of a policy given by flags is printed as it is. *)
Theorem run_decides_like_server h cfg local_data d w response w'
    (Hrun : run h cfg local_data d w = Some (Ok response, w')) :
  ∃ e w1 s w2 vanilla,
    Evaluator_new detector build_kube_client handler_channel admission_request_of h cfg local_data d w =
      Some (Ok e, w1) ∧
    validate_settings e w1 = Some (s, w2) ∧ sv_valid s = true ∧
    evaluate e w2 = Some (vanilla, w') ∧
    allowed response = verdict (get_policy_mode d) (get_policy_allowed_to_mutate d) vanilla ∧
    (∀ f, from_cli f = Ok d → response = vanilla).
Proof.
  unfold run, run_definition in Hrun. apply mr_bind_Ok in Hrun as (e & w1 & He & Hrun).
  apply m_bind_Some in Hrun as (s & w2 & Hs & Hrun). destruct (sv_valid s) eqn:Hv; [|done]. simpl in Hrun.
  apply m_bind_Some in Hrun as (vanilla & w3 & Hvan & Hrun).
  apply mr_bind_Ok in Hrun as (id & w4 & [= _ <-] & [= <- <-]).
  exists e, w1, s, w2, vanilla. split_and!; try done.
  - by rewrite process_response_allowed.
  - intros f Hf. unfold from_cli in Hf. res_simpl. simpl.
    unfold process_response, apply_custom_rejection_message, apply_mutation_constraint, apply_monitor_mode.
    simpl. by destruct (allowed vanilla).
Qed.
End decisions.

(** ** Examples *)

Section witnesses.
#[local] Existing Instance Downloader.simple_cosign.
#[local] Existing Instance Downloader.simple_sha256.

Definition result_of {A E S} (r : option (result A E * S)) : option A :=
  match r with Some (Ok a, _) => Some a | _ => None end.

Lemma result_of_Some {A E S} (r : option (result A E * S)) a :
  result_of r = Some a → ∃ s, r = Some (Ok a, s).
Proof. destruct r as [[[a'|e] s]|]; [|done..]. intros [= <-]. by exists s. Qed.

Definition happy_flags : RunFlags :=
  {| rf_uri := Ok "ghcr.io/kubewarden/pol:v1"; rf_settings := None; rf_execution_mode := Some (Ok KubewardenWapc);
     rf_allow_context_aware := false; rf_raw := true; rf_allowed_host_capabilities := ["net/*"] |}.

Definition happy_policy : PolicyDefinition :=
  DefPolicy {| ip_id := "policy-from-cli"; ip_uri := "ghcr.io/kubewarden/pol:v1";
    ip_user_execution_cfg := UserDefined KubewardenWapc; ip_raw := true; ip_policy_mode := Protect;
    ip_allowed_to_mutate := true; ip_custom_rejection_message := None; ip_settings := [];
    ip_ctx_aware_cfg := NoAccess; ip_allowed_host_capabilities := ["net/*"] |}.

Lemma happy_from_cli : from_cli happy_flags = Ok happy_policy.
Proof. reflexivity. Qed.

Definition happy_settings : PullAndRunSettings :=
  {| prs_sources := None; prs_request := JObject [("uid", JString "42")];
     prs_verified_manifest_digests := Some {["ghcr.io/kubewarden/pol:v1" := "sha256:manifest"]};
     prs_enable_wasmtime_cache := false; prs_policy_memory_limit_bytes := None;
     prs_host_capabilities_mode := HostCapabilitiesDirect |}.

Definition plain_verifier (sources : option Sources) : result Verifier string :=
  Ok {| ver_sources := sources |}.

Lemma kwctl_runs_verified_policies_witness :
  ∃ path digest, signed (UL := simple_url) key_config "ghcr.io/kubewarden/pol:v1" digest ∧
    has_manifest_checksum (UL := simple_url) (SE := simple_env) path digest.
Proof.
  destruct (result_of_Some (build_verified_manifest_digests (UL := simple_url)
    (YL := simple_yaml) plain_verifier [happy_policy] key_config None (fresh_state [] []))
    {["ghcr.io/kubewarden/pol:v1" := "sha256:manifest"]}) as [st1 Hd]; [vm_compute; reflexivity|].
  destruct (result_of_Some (pull_all (UL := simple_url) (SE := simple_env) "/main"
    plain_verifier [happy_policy] happy_settings
    (fresh_state [Ok [Downloader.v1]] [Ok (Downloader.image_of Downloader.v1)]))
    {["ghcr.io/kubewarden/pol:v1" := "/main/registry/ghcr.io/kubewarden/pol:v1"]})
    as [st3 Hp]; [vm_compute; reflexivity|].
  destruct (kwctl_runs_verified_policies "/main" plain_verifier [happy_policy] key_config happy_settings
    _ _ _ _ _ _ happy_policy "ghcr.io/kubewarden/pol:v1" Hd eq_refl Hp
    (list_elem_of_here _ _) (elem_of_singleton_2 _ _ eq_refl)) as (path & digest & Hpath & Hs & Hc).
  exists path, digest. exact (conj Hs Hc).
Defined.

(** Documents that are their kind. *)
Definition kind_yaml : CrdYaml := {|
  CrdDocument := string;
  documents path := Ok [Ok "AdmissionPolicy"; Ok "AdmissionPolicyGroup"];
  object_reference kind := Ok (Some "policies.kubewarden.io/v1", Some kind);
  as_policy _ := Ok {| res_name := Some "pol"; res_spec := Some {| aps_module := "registry://pol";
    aps_mode := None; aps_mutating := false; aps_message := None; aps_settings := JNull;
    aps_context_aware_resources := [{| car_api_version := "v1"; car_kind := "Secret" |}] |} |};
  as_group _ := Ok {| res_name := None; res_spec := Some {| pgs_mode := None;
    pgs_policies := {["member" := {| cm_module := "registry://pol"; cm_member :=
      {| crd_settings := JNull; crd_context_aware_resources := [{| car_api_version := "v1"; car_kind := "Secret" |}];
         crd_timeout_eval_seconds := None |} |}]};
    pgs_expression := "member()"; pgs_message := "denied" |} |};
|}.
#[local] Existing Instance kind_yaml.

Lemma namespaced_policy_no_cluster_access_witness :
  ∃ d, PolicyDefinition_new "AdmissionPolicyGroup" = Ok d ∧ cluster_access d None = ∅.
Proof.
  eexists. split; [reflexivity|].
  eapply (namespaced_policy_no_cluster_access (CY := kind_yaml) "AdmissionPolicyGroup" "AdmissionPolicyGroup");
    [reflexivity|right; reflexivity|reflexivity].
Defined.

Lemma yaml_capabilities_from_flags_witness :
  ∃ d definitions, from_yaml_file "policies.yaml" ["net/*"] = Ok (d :: definitions) ∧
    ∃ hc, HostCapabilities_new ["net/*"] = Ok hc ∧
    match d with
    | DefPolicy p => ip_allowed_host_capabilities p = ["net/*"]
    | DefGroup _ _ members _ _ => map_Forall (λ _ m, pgm_host_capabilities (pm_settings m) = hc) members
    end.
Proof.
  eexists _, _. split; [reflexivity|].
  eapply (yaml_capabilities_from_flags (CY := kind_yaml) "policies.yaml" ["net/*"]); [reflexivity|apply list_elem_of_here].
Defined.

(** Modules that are the name of a policy of [constant_runtime]. *)
Definition named_loader : @PolicyLoader unit_sdk constant_runtime :=
  λ contents _ _ _, Ok (of_bytes (drop 4 contents)).

Definition happy_host : SimpleHost :=
  {| sh_files := {["/main/pol" := wasm_module "happy"]}; sh_pulls := []; sh_manifests := [] |}.

Definition happy_data : LocalData :=
  {| ld_local_paths := {["ghcr.io/kubewarden/pol:v1" := "/main/pol"]}; ld_modules_metadata := ∅ |}.

Definition happy_detector (_ : SimpleHost) : BackendDetector :=
  {| kubewarden_protocol_detector_func _ := Ok ProtocolV1; rego_detector_func _ := Ok false;
     ferricel_detector_func _ := Ok false |}.

Definition run_happy := run_definition (OL := simple_oci) (HI := simple_host) (ST := unit_sdk) (PR := constant_runtime) (R := conjunction_rhai)
  (PL := named_loader) happy_detector (Err "no cluster") (λ _ _, Ok (λ _, RecvError)) (λ _, Err "not an admission request")
  happy_host happy_settings happy_data happy_policy.

Lemma run_happy_result : result_of (run_happy 0) = Some (named_policy_response "happy" "42").
Proof. vm_compute. reflexivity. Qed.

Lemma run_decides_like_server_witness :
  ∃ vanilla, named_policy_response "happy" "42" = vanilla ∧
    allowed (named_policy_response "happy" "42") = verdict Protect true vanilla.
Proof.
  destruct (result_of_Some _ _ run_happy_result) as [w' Hrun].
  destruct (run_decides_like_server (OL := simple_oci) (HI := simple_host) (ST := unit_sdk)
    (PR := constant_runtime) (R := conjunction_rhai) (PL := named_loader) happy_detector
    (Err "no cluster") (λ _ _, Ok (λ _, RecvError)) (λ _, Err "not an admission request")
    happy_host happy_settings happy_data happy_policy 0 _ _ Hrun)
    as (e & w1 & s & w2 & vanilla & _ & _ & _ & _ & Ha & Heq).
  exists vanilla. exact (conj (Heq happy_flags happy_from_cli) Ha).
Defined.
End witnesses.
