(* ===== verification/KwctlSettings.v ===== *)
(** * The settings of a run of kwctl

    Models [parse_pull_and_run_settings] and [parse_policy_memory_limit_bytes] of
    [crates/kwctl/src/config/pull_and_run.rs] and the Sigstore trust root of
    [config/verification.rs]: from the flags of [kwctl run] to what its policies are verified
    against and confined to.

    The standard input, the JSON of the request and the Sigstore library are the parameter
    [RunEnv]. *)

From S2P Require Import Prelude Bytes Json PolicyId AdmissionResponse ResponseHandler Request.
From S2P Require Import HostCapabilities Callback Runtime GroupEvaluator Config RustStr.
From S2P Require Import VerificationConstraints Sources Registry Fetcher Verify Downloader Metadata Startup.
From S2P Require Import WasmScanner Annotate CommandLine KwctlRun.

Class RunEnv := {
  read_stdin : result string string;
  request_of_json : string → result Value string;
  TrustRoot : Type;
  (** [fs::read], [from_slice::<ClientTrustConfig>] with its [trusted_root] as JSON, and
      [SigstoreTrustRoot::from_trusted_root_json_unchecked] *)
  read_pki_file : string → result bytes string;
  trusted_root_of_json : bytes → result (option bytes) string;
  trust_root_of_json : bytes → result TrustRoot string;
  (** the directory of the TUF checkout, and [SigstoreTrustRoot::new] *)
  create_checkout_dir : result unit string;
  trust_root_from_tuf : result TrustRoot string;
}.

(** The flags. *)
Record RunArgs := {
  ra_request_path : string;
  ra_sources_path : option string;
  ra_docker_config_json_path : option string;
  ra_verification : VerificationArgs;
  ra_sigstore_trust_config : option string;
  ra_disable_wasmtime_cache : bool;
  ra_disable_memory_limit : bool;
  ra_policy_memory_limit : string;
  ra_record : option string;
  ra_replay : option string;
}.

Definition NO_TRUST_ROOT (e : string) : string :=
  "Error building Sigstore trust root: " +:+ e +:+
  ". Note that verification options were provided, so a Sigstore trust root is required.".

Definition parse_policy_memory_limit_bytes (disable_memory_limit : bool) (policy_memory_limit : string) :
    result (option Z) string :=
  if disable_memory_limit then Ok None else
  let? policy_memory_limit_mib := map_err (λ e, "Cannot parse 'policy-memory-limit' as a number: " +:+ e)
    (parse_unsigned usize_bound policy_memory_limit) in
  if decide (policy_memory_limit_mib = 0%Z) then
    Err ("policy-memory-limit must be greater than 0, or the limit must be disabled via " +:+
         "--disable-memory-limit")
  else Ok (Some (usize_mul policy_memory_limit_mib BYTES_PER_MIB)).

Section settings.
Context `{HI0 : HashIter, UL : UrlLib, SG : Sigstore, SE : SourceEnv, OL : OciLib, HI : !HostIO}.
Context `{CC : !CosignClient, YL : !YamlLib, SH : Sha256, CE : CliEnv, RE : RunEnv}.
(** [Verifier::new] with a trust root. *)
Context (verifier_new : option TrustRoot → option Sources → result Verifier string).
Implicit Types (a : RunArgs) (definitions : list PolicyDefinition) (cfg : PullAndRunSettings).

Definition build_sigstore_trust_root_from_config (pki_file : string) : result (option TrustRoot) string :=
  let? json_bytes := map_err (λ e, "could not read Sigstore PKI file " +:+ pki_file +:+ ": " +:+ e)
    (read_pki_file pki_file) in
  let? client_trust_config := map_err
    (λ e, "could not parse Sigstore trust config file " +:+ pki_file +:+ ": " +:+ e)
    (trusted_root_of_json json_bytes) in
  let? trust_root_bytes := ok_or client_trust_config
    ("Sigstore PKI file " +:+ pki_file +:+ " missing trusted_root field") in
  res_map Some (trust_root_of_json trust_root_bytes).

Definition build_sigstore_trust_root (sigstore_trust_config : option string) :
    result (option TrustRoot) string :=
  match sigstore_trust_config with
  | Some pki_file => build_sigstore_trust_root_from_config pki_file
  | None =>
      let? _ := create_checkout_dir in
      res_map Some trust_root_from_tuf
  end.

Definition request_value (request_path : string) : result Value string :=
  let? request_raw :=
    if decide (request_path = "-")
    then map_err (λ e, "Error reading request from stdin: " +:+ e) read_stdin
    else map_err (λ e, "Error opening request file " +:+ request_path +:+ "; " +:+ e) (read_text request_path) in
  request_of_json request_raw.

(** Without a trust root the run goes on only when nothing has to be verified. *)
Definition trust_root_for (verification_options : option VerificationConfigV1)
    (sigstore_trust_config : option string) : result (option TrustRoot) string :=
  match build_sigstore_trust_root sigstore_trust_config with
  | Ok trust_root => Ok trust_root
  | Err e => match verification_options with
             | Some _ => Err (NO_TRUST_ROOT e)
             | None => Ok None
             end
  end.

(** The last of the two flags wins. *)
Definition host_capabilities_mode_of a : HostCapabilitiesMode :=
  match ra_replay a, ra_record a with
  | Some source, _ => HostCapabilitiesReplay source
  | None, Some destination => HostCapabilitiesRecord destination
  | None, None => HostCapabilitiesDirect
  end.

(** With the environment of the process, which the credentials of a registry change. *)
Definition parse_pull_and_run_settings a definitions (env : gmap string string) :
    M St (result PullAndRunSettings string * gmap string string) :=
  match request_value (ra_request_path a) with
  | Err e => m_ret (Err e, env)
  | Ok request =>
      let '(sources, env) := remote_server_options (ra_sources_path a) (ra_docker_config_json_path a) env in
      let! r :=
        let!? sources := m_ret (map_err (λ e, "Error getting remote server options: " +:+ SourceError_to_string e) sources) in
        let!? verification_options := m_ret (build_verification_options (ra_verification a)) in
        let!? sigstore_trust_root := m_ret (trust_root_for verification_options (ra_sigstore_trust_config a)) in
        let!? verified_manifest_digests := match verification_options with
          | Some config =>
              let!? digests := build_verified_manifest_digests (verifier_new sigstore_trust_root) definitions
                config sources in
              m_ret (Ok (Some digests))
          | None => m_ret (Ok None)
          end in
        let!? policy_memory_limit_bytes := m_ret (parse_policy_memory_limit_bytes
          (ra_disable_memory_limit a) (ra_policy_memory_limit a)) in
        m_ret (Ok {| prs_sources := sources; prs_request := request;
          prs_verified_manifest_digests := verified_manifest_digests;
          prs_enable_wasmtime_cache := negb (ra_disable_wasmtime_cache a);
          prs_policy_memory_limit_bytes := policy_memory_limit_bytes;
          prs_host_capabilities_mode := host_capabilities_mode_of a |}) in
      m_ret (r, env)
  end.
End settings.

(** ** Properties *)

(** The limit is the number of mebibytes that was asked for, when that is a number of bytes
    of the machine. *)
Lemma memory_limit_exact disable text limit :
  parse_policy_memory_limit_bytes disable text = Ok limit →
  (limit = None ↔ disable = true) ∧
  ∀ bytes, limit = Some bytes → ∃ mib, parse_unsigned usize_bound text = Ok mib ∧ mib ≠ 0%Z ∧
    ((mib * BYTES_PER_MIB < usize_bound)%Z → bytes = (mib * BYTES_PER_MIB)%Z).
Proof.
  rewrite /parse_policy_memory_limit_bytes. destruct disable; [by intros [= <-]|].
  intros (mib & Hmib%map_err_Ok & Hok)%res_bind_Ok. case_decide as Hz; [done|]. injection Hok as <-.
  split; [done|]. intros bytes [= <-]. exists mib. split; [done|]. split; [done|]. intros Hlt.
  apply (parse_unsigned_bound usize_bound) in Hmib; [|done].
  rewrite /usize_mul Z.mod_small //. rewrite /BYTES_PER_MIB in Hlt |- *. lia.
Qed.

Section enforced.
Context `{HI0 : HashIter, UL : UrlLib, SG : Sigstore, SE : SourceEnv, OL : OciLib, HI : !HostIO}.
Context `{CC : !CosignClient, YL : !YamlLib, SH : Sha256, UrL : !UrlLaws, SL : !SigstoreLaws}.
Context `{CE : CliEnv, RE : RunEnv} (default_store_root : string).
Context (verifier_new : option TrustRoot → option Sources → result Verifier string).

(** Settings that are accepted: the parts they come from. *)
Lemma settings_Ok a definitions env st cfg env' st' :
  parse_pull_and_run_settings verifier_new a definitions env st = Some ((Ok cfg, env'), st') →
  ∃ options root,
    build_verification_options (ra_verification a) = Ok options ∧
    trust_root_for options (ra_sigstore_trust_config a) = Ok root ∧
    match options with
    | Some config => ∃ digests st1 st2,
        prs_verified_manifest_digests cfg = Some digests ∧
        build_verified_manifest_digests (verifier_new root) definitions config (prs_sources cfg) st1 =
          Some (Ok digests, st2)
    | None => prs_verified_manifest_digests cfg = None
    end ∧
    parse_policy_memory_limit_bytes (ra_disable_memory_limit a) (ra_policy_memory_limit a) =
      Ok (prs_policy_memory_limit_bytes cfg).
Proof.
  rewrite /parse_pull_and_run_settings. destruct (request_value _) as [request|]; [|by intros [= ]].
  destruct (remote_server_options _ _ _) as [sources env1].
  intros (r & w1 & Hrun & [= Hr <- <-])%m_bind_Some. subst r.
  apply mr_bind_Ok in Hrun as (srcs & w2 & [= _ <-] & Hrun).
  apply mr_bind_Ok in Hrun as (options & w3 & [= Hopt <-] & Hrun).
  apply mr_bind_Ok in Hrun as (root & w4 & [= Hroot <-] & Hrun).
  apply mr_bind_Ok in Hrun as (digests & w5 & Hdig & Hrun).
  apply mr_bind_Ok in Hrun as (limit & w6 & [= Hlimit <-] & [= <- <-]).
  exists options, root. split_and!; [done..| |done].
  destruct options as [config|]; [|by injection Hdig].
  apply mr_bind_Ok in Hdig as (d & w7 & Hb & [= <- <-]). by exists d, st, w7.
Qed.

(** C18. Verification that was asked for is never skipped: when [kwctl run] goes on although its
    flags or its configuration file ask for signatures, it has a trust root, and every module
    that a definition refers to was signed as asked and has the checksum of the manifest that
    was signed. It is not asked for otherwise. *)
Theorem requested_verification_enforced a definitions env st cfg env' st' options
    (Hopt : build_verification_options (ra_verification a) = Ok options)
    (Hparse : parse_pull_and_run_settings verifier_new a definitions env st = Some ((Ok cfg, env'), st')) :
  (options = None → prs_verified_manifest_digests cfg = None) ∧
  ∀ config, options = Some config →
    ∃ root, build_sigstore_trust_root (ra_sigstore_trust_config a) = Ok root ∧
      ∀ st2 paths st3 d uri,
      pull_all default_store_root (verifier_new root) definitions cfg st2 = Some (Ok paths, st3) →
      d ∈ definitions → uri ∈ uris d →
      ∃ path digest, paths !! uri = Some path ∧ signed config uri digest ∧ has_manifest_checksum path digest.
Proof.
  destruct (settings_Ok _ _ _ _ _ _ _ Hparse) as (options' & root & Hopt' & Hroot & Hdig & _).
  rewrite Hopt in Hopt'. injection Hopt' as <-. split; [by intros ->|]. intros config ->.
  exists root. split.
  - revert Hroot. rewrite /trust_root_for. by destruct (build_sigstore_trust_root _).
  - intros st2 paths st3 d uri Hpull Hd Huri. destruct Hdig as (digests & w1 & w2 & Hcfg & Hdig).
    destruct (pull_all_Ok _ _ _ _ _ _ _ _ Hcfg Hpull) as [Hall Hok].
    destruct (Hall d uri Hd Huri) as [path Hpath]. destruct (Hok uri path Hpath) as (digest & Hdg & Hc).
    exists path, digest. split_and!; [done| |done].
    by apply (digests_signed _ _ _ _ _ _ _ Hdig).
Qed.
End enforced.

(** ** Examples *)

#[local] Instance example_run_env : RunEnv := {
  read_stdin := Ok "{}";
  request_of_json _ := Ok (JObject [("uid", JString "42")]);
  TrustRoot := unit;
  read_pki_file _ := Err "No such file or directory";
  trusted_root_of_json _ := Ok None;
  trust_root_of_json _ := Ok tt;
  create_checkout_dir := Ok tt;
  trust_root_from_tuf := Ok tt;
}.

Definition example_run_args (trust_config : option string) : RunArgs :=
  {| ra_request_path := "-"; ra_sources_path := None; ra_docker_config_json_path := None;
     ra_verification := key_flags None; ra_sigstore_trust_config := trust_config;
     ra_disable_wasmtime_cache := false; ra_disable_memory_limit := false; ra_policy_memory_limit := "256";
     ra_record := None; ra_replay := None |}.

Section witnesses.
#[local] Existing Instance Downloader.simple_cosign.
#[local] Existing Instance Downloader.simple_sha256.
#[local] Existing Instance example_cli.

Definition example_verifier (root : option unit) (sources : option Sources) : result Verifier string :=
  Ok {| ver_sources := sources |}.

Definition example_parse (trust_config : option string) :=
  parse_pull_and_run_settings (UL := simple_url) (SE := simple_env) (YL := simple_yaml) (RE := example_run_env)
    example_verifier (example_run_args trust_config) [happy_policy] ∅ (fresh_state [] []).

Definition key_flags_config : VerificationConfigV1 :=
  {| all_of := Some [PubKey None "key" None]; any_of := None |}.

Lemma key_flags_options :
  build_verification_options (UL := simple_url) (YL := simple_yaml) (key_flags None) = Ok (Some key_flags_config).
Proof. vm_compute. reflexivity. Qed.

Definition parse_ok {A B E S} (r : option ((result A E * B) * S)) : option bool :=
  match r with Some ((Ok _, _), _) => Some true | Some ((Err _, _), _) => Some false | None => None end.

Lemma requested_verification_enforced_witness :
  ∃ cfg env' st' config root, example_parse None = Some ((Ok cfg, env'), st') ∧
    build_verification_options (UL := simple_url) (YL := simple_yaml) (key_flags None) = Ok (Some config) ∧
    ∀ st2 paths st3 d uri,
      pull_all (UL := simple_url) (SE := simple_env) "/main" (example_verifier root) [happy_policy] cfg st2 =
        Some (Ok paths, st3) →
      d ∈ [happy_policy] → uri ∈ uris d →
      ∃ path digest, paths !! uri = Some path ∧ signed (UL := simple_url) config uri digest ∧
        has_manifest_checksum (UL := simple_url) (SE := simple_env) path digest.
Proof.
  assert (parse_ok (example_parse None) = Some true) as Hok by (vm_compute; reflexivity).
  destruct (example_parse None) as [[[[cfg|e] env'] st']|] eqn:Hparse; [|done..].
  destruct (requested_verification_enforced (UL := simple_url) (SE := simple_env) (YL := simple_yaml)
    (RE := example_run_env) "/main" example_verifier (example_run_args None) [happy_policy] ∅ _ cfg env' st' _
    key_flags_options Hparse) as [_ Hv].
  destruct (Hv _ eq_refl) as (root & _ & Hpull).
  exists cfg, env', st', key_flags_config, root. split; [reflexivity|]. split; [exact key_flags_options|exact Hpull].
Defined.

(** With a trust configuration that cannot be read the run stops. *)
Example unreadable_trust_config_stops : parse_ok (example_parse (Some "pki.json")) = Some false.
Proof. vm_compute. reflexivity. Qed.
End witnesses.
