(* ===== verification/VapScaffold.v ===== *)
(** * Translating a ValidatingAdmissionPolicy

    Models [crates/kwctl/src/scaffold/vap.rs], [vap/interpreted.rs], [vap/compiled.rs] and
    [scaffold/kubewarden_crds.rs]: a ValidatingAdmissionPolicy and its binding become a
    ClusterAdmissionPolicy, that runs the CEL interpreter or a module compiled from the
    policy.

    The Kubernetes types are records of the fields that are read; their YAML is the
    parameter [VapYaml], the CEL compiler the parameter [VapCompiler]. What is matched is
    in [MatchResources], the files are written by [OutputFile]. Warnings are not modelled. *)

From S2P Require Import Prelude Bytes RustStr RustPath Json PolicyId Request HostCapabilities Callback.
From S2P Require Import HostWorld FerricelExtensions BuilderChains Metadata MatchResources OutputFile.

(** ** The policy and its binding *)

Record ObjectMeta := {
  om_name : option string;
  om_annotations : option (gmap string string);
}.

Record ParamKind := { pk_api_version : option string; pk_kind : option string }.

Record ParamRef := {
  pr_name : option string;
  pr_namespace : option string;
  pr_parameter_not_found_action : option string;
  pr_selector : option LabelSelector;
}.

Record Validation := {
  va_expression : string;
  va_message : option string;
  va_message_expression : option string;
  va_reason : option string;
}.

Record CelVariable := { cv_name : string; cv_expression : string }.
Record MatchCondition := { mc_name : string; mc_expression : string }.

Record ValidatingAdmissionPolicySpec := {
  vs_failure_policy : option string;
  vs_param_kind : option ParamKind;
  vs_match_constraints : option MatchResources;
  vs_match_conditions : option (list MatchCondition);
  vs_validations : option (list Validation);
  vs_variables : option (list CelVariable);
}.

Record ValidatingAdmissionPolicy := {
  vap_metadata : ObjectMeta;
  vap_spec : option ValidatingAdmissionPolicySpec;
}.

Record ValidatingAdmissionPolicyBindingSpec := {
  bs_match_resources : option MatchResources;
  bs_param_ref : option ParamRef;
  bs_policy_name : option string;
  bs_validation_actions : option (list string);
}.

Definition BindingSpec_default : ValidatingAdmissionPolicyBindingSpec :=
  {| bs_match_resources := None; bs_param_ref := None; bs_policy_name := None;
     bs_validation_actions := None |}.

Record ValidatingAdmissionPolicyBinding := {
  vb_metadata : ObjectMeta;
  vb_spec : option ValidatingAdmissionPolicyBindingSpec;
}.

(** ** The policy that is generated ([kubewarden_crds.rs]) *)

(** [serde_yaml::Mapping] *)
Definition Mapping : Type := list (string * Value).

Record ClusterAdmissionPolicySpec := {
  cs_module : string;
  cs_settings : Mapping;
  cs_rules : list Rule;
  cs_mutating : bool;
  cs_background_audit : bool;
  cs_context_aware_resources : gset ContextAwareResource;
  cs_failure_policy : option string;
  cs_mode : option PolicyMode;
  cs_match_policy : option string;
  cs_namespace_selector : option LabelSelector;
  cs_object_selector : option LabelSelector;
}.

Record ClusterAdmissionPolicy := {
  ca_api_version : string;
  ca_kind : string;
  ca_metadata : ObjectMeta;
  ca_spec : ClusterAdmissionPolicySpec;
}.

(** [serde_yaml] at the types of the scaffold. *)
Class VapYaml := {
  vap_of_yaml : bytes → result ValidatingAdmissionPolicy string;
  binding_of_yaml : bytes → result ValidatingAdmissionPolicyBinding string;
  param_kind_to_value : ParamKind → result Value string;
  param_ref_to_value : ParamRef → result Value string;
  variable_to_value : CelVariable → result Value string;
  validation_to_value : Validation → result Value string;
  metadata_to_yaml : Metadata → result bytes string;
  (** to the standard output *)
  policy_to_yaml : ClusterAdmissionPolicy → result string string;
}.

(** [ferricel_core], and the paths of the system. *)
Class VapCompiler := {
  compile_vap : list BuilderChainDecl → list ExtensionDecl → ValidatingAdmissionPolicy →
    result bytes string;
  extensions_used : bytes → result (list ExtensionKey) string;
  vap_variables_used : bytes → result (list string) string;
  (** [canonicalize] of a file that exists *)
  canonical : Path → Path;
  (** [Url::from_file_path] *)
  file_url : Path → option string;
}.

(** ** [vap.rs] *)

Inductive ValidationAction := Deny | Warn | Audit.

#[export] Instance ValidationAction_eq_dec : EqDecision ValidationAction.
Proof. solve_decision. Defined.

Definition ValidationAction_parse (value : string) : result ValidationAction string :=
  if decide (value = "Deny") then Ok Deny
  else if decide (value = "Warn") then Ok Warn
  else if decide (value = "Audit") then Ok Audit
  else Err ("validationActions must contain only 'Deny', 'Warn', or 'Audit', got '" +:+ value +:+ "'").

Definition policy_mode_from_validation_actions (validation_actions : option (list string)) :
    result PolicyMode string :=
  let? actions := match validation_actions with
    | Some ((_ :: _) as actions) => Ok actions
    | _ => Err "ValidatingAdmissionPolicyBinding spec.validationActions must set at least one value"
    end in
  let? actions := collect ValidationAction_parse actions in
  let has_deny := bool_decide (Deny ∈ actions) in
  let has_warn := bool_decide (Warn ∈ actions) in
  if has_deny && has_warn
  then Err "ValidatingAdmissionPolicyBinding spec.validationActions cannot contain both 'Deny' and 'Warn'"
  else Ok (if has_deny then Protect else Monitor).

(** Validations, variables and match conditions, in that order. *)
Definition cel_expressions (vap : ValidatingAdmissionPolicy) : list string :=
  match vap_spec vap with
  | None => []
  | Some s =>
      (va_expression <$> unwrap_or [] (vs_validations s)) ++
      (cv_expression <$> unwrap_or [] (vs_variables s)) ++
      (mc_expression <$> unwrap_or [] (vs_match_conditions s))
  end.

Definition vap_uses_namespace_object (vap : ValidatingAdmissionPolicy) : bool :=
  existsb (λ expr, contains expr "namespaceObject") (cel_expressions vap).

Record VapData := {
  vd_vap : ValidatingAdmissionPolicy;
  vd_metadata : ObjectMeta;
  vd_rules : list Rule;
  vd_match_policy : option string;
  vd_namespace_selector : option LabelSelector;
  vd_object_selector : option LabelSelector;
  vd_settings : Mapping;
  vd_param_resource : option ContextAwareResource;
  vd_uses_namespace_object : bool;
  vd_mode : PolicyMode;
}.

Definition NAMESPACE_RESOURCE : ContextAwareResource := {| car_api_version := "v1"; car_kind := "Namespace" |}.

Definition base_context_aware_resources (vap_data : VapData) (uses_namespace_object : bool) :
    gset ContextAwareResource :=
  match vd_param_resource vap_data with Some r => {[r]} | None => ∅ end ∪
  (if uses_namespace_object then {[NAMESPACE_RESOURCE]} else ∅).

Section vap.
Context `{VY : VapYaml}.

(** [parameterNotFoundAction] is [Deny] when it is not set. *)
Definition default_not_found_action (r : ParamRef) : ParamRef :=
  {| pr_name := pr_name r; pr_namespace := pr_namespace r;
     pr_parameter_not_found_action := Some (unwrap_or "Deny" (pr_parameter_not_found_action r));
     pr_selector := pr_selector r |}.

Definition resource_of_param_kind (k : ParamKind) : option ContextAwareResource :=
  api_version ← pk_api_version k; kind ← pk_kind k;
  Some {| car_api_version := api_version; car_kind := kind |}.

(** The settings with the parameters, and the resource they are read from. *)
Definition add_params (settings : Mapping) (param_kind : option ParamKind) (param_ref : option ParamRef) :
    result (Mapping * option ContextAwareResource) string :=
  match param_kind, param_ref with
  | Some vap_param_kind, Some vap_param_ref =>
      let? kind_value := param_kind_to_value vap_param_kind in
      let? ref_value := param_ref_to_value (default_not_found_action vap_param_ref) in
      Ok (field_insert "paramRef" ref_value (field_insert "paramKind" kind_value settings),
          resource_of_param_kind vap_param_kind)
  | None, None => Ok (settings, None)
  | _, _ => Err "Both paramKind and paramRef must be present together, or both absent"
  end.

Definition VapData_new (vap : ValidatingAdmissionPolicy) (vap_binding : ValidatingAdmissionPolicyBinding) :
    result VapData string :=
  let? spec := ok_or (vap_spec vap) "ValidatingAdmissionPolicy has no spec" in
  let binding_spec := unwrap_or BindingSpec_default (vb_spec vap_binding) in
  let? vap_name := ok_or (om_name (vap_metadata vap)) "ValidatingAdmissionPolicy has no metadata.name" in
  let? policy_name := ok_or (bs_policy_name binding_spec)
    "ValidatingAdmissionPolicyBinding has no spec.policyName" in
  if decide (policy_name ≠ vap_name)
  then Err ("ValidatingAdmissionPolicyBinding spec.policyName '" +:+ policy_name +:+
    "' does not match ValidatingAdmissionPolicy metadata.name '" +:+ vap_name +:+ "'") else
  let settings := match vs_failure_policy spec with
    | Some failure_policy => field_insert "failurePolicy" (JString failure_policy) []
    | None => []
    end in
  let? params := add_params settings (vs_param_kind spec) (bs_param_ref binding_spec) in
  let '(settings, param_resource) := params in
  let? match_fields := merge_match_fields
    (unwrap_or MatchResources_default (vs_match_constraints spec))
    (unwrap_or MatchResources_default (bs_match_resources binding_spec)) in
  let? mode := policy_mode_from_validation_actions (bs_validation_actions binding_spec) in
  Ok {| vd_vap := vap; vd_metadata := vb_metadata vap_binding; vd_rules := mf_rules match_fields;
        vd_match_policy := mf_match_policy match_fields;
        vd_namespace_selector := mf_namespace_selector match_fields;
        vd_object_selector := mf_object_selector match_fields;
        vd_settings := settings; vd_param_resource := param_resource;
        vd_uses_namespace_object := vap_uses_namespace_object vap; vd_mode := mode |}.

(** The policy both outputs generate. *)
Definition cluster_admission_policy (vap_data : VapData) (module : string) (settings : Mapping)
    (context_aware_resources : gset ContextAwareResource) : ClusterAdmissionPolicy :=
  {| ca_api_version := "policies.kubewarden.io/v1"; ca_kind := "ClusterAdmissionPolicy";
     ca_metadata := vd_metadata vap_data;
     ca_spec := {| cs_module := module; cs_settings := settings; cs_rules := vd_rules vap_data;
       cs_mutating := false; cs_background_audit := true;
       cs_context_aware_resources := context_aware_resources; cs_failure_policy := None;
       cs_mode := Some (vd_mode vap_data); cs_match_policy := vd_match_policy vap_data;
       cs_namespace_selector := vd_namespace_selector vap_data;
       cs_object_selector := vd_object_selector vap_data |} |}.

(** ** [interpreted.rs] *)

(** [expect] on the conversion of every element. *)
Fixpoint values_of {A} (to_value : A → result Value string) (l : list A) : option (list Value) :=
  match l with
  | [] => Some []
  | a :: l =>
      match to_value a with
      | Ok v => vs ← values_of to_value l; Some (v :: vs)
      | Err _ => None
      end
  end.

Definition insert_values {A} (key : string) (to_value : A → result Value string) (l : option (list A))
    (settings : Mapping) : option Mapping :=
  match l with
  | None => Some settings
  | Some l => vs ← values_of to_value l; Some (field_insert key (JArray vs) settings)
  end.

(** [None] is a panic. *)
Definition vap_interpreted (cel_policy_module : string) (vap_data : VapData) :
    option (result ClusterAdmissionPolicy string) :=
  spec ← vap_spec (vd_vap vap_data);
  let context_aware_resources :=
    base_context_aware_resources vap_data (vd_uses_namespace_object vap_data) in
  settings ← insert_values "variables" variable_to_value (vs_variables spec) (vd_settings vap_data);
  settings ← insert_values "validations" validation_to_value (vs_validations spec) settings;
  Some (Ok (cluster_admission_policy vap_data cel_policy_module settings context_aware_resources)).
End vap.

(** ** [compiled.rs] *)

Inductive CompileError :=
| ReservedForMetadata (path : Path)
| ModuleExists (path : Path)
| MetadataExists (path : Path)
| CompilationFailed (e : string)
| OutputFailed (e : WriteError)
| CannotCanonicalize (path : Path) (e : IoError)
| CannotReadExtensions (e : string)
| CannotSerializeMetadata (e : string)
| NoFileUrl (path : Path).

Section compiled.
Context `{SD : SdkTypes, FS : !FerricelSdk, VY : VapYaml, VC : VapCompiler}.
Implicit Types (vap_data : VapData).

Definition compiled_metadata vap_data (host_capabilities : option (gset string))
    (context_aware_resources : gset ContextAwareResource) : Metadata :=
  {| md_protocol_version := None; md_rules := vd_rules vap_data;
     md_annotations := match om_name (vd_metadata vap_data) with
                       | Some name => Some {["io.kubewarden.policy.title" := name]}
                       | None => None
                       end;
     md_mutating := false; md_background_audit := true; md_execution_mode := Ferricel;
     md_policy_type := Kubernetes; md_context_aware_resources := context_aware_resources;
     md_host_capabilities := host_capabilities; md_minimum_kubewarden_version := None |}.

Definition write_metadata_file vap_data (metadata_path : Path) (host_capabilities : option (gset string))
    (context_aware_resources : gset ContextAwareResource) (force : bool) : D (result unit CompileError) :=
  let policy_metadata := compiled_metadata vap_data host_capabilities context_aware_resources in
  let!? metadata_yaml := m_ret (map_err CannotSerializeMetadata (metadata_to_yaml policy_metadata)) in
  failed OutputFailed (write_output_file metadata_path metadata_yaml force "metadata.yml").

(** [Path::canonicalize] *)
Definition canonicalize (path : Path) : D (result Path IoError) :=
  syscall (λ d, (match files d !! resolve path with
                 | Some _ => Ok (canonical path)
                 | None => Err (OtherError "No such file or directory (os error 2)")
                 end, d)).

(** Neither destination may exist, unless [force] is set. *)
Definition check_destinations (wasm_path metadata_path : Path) (force : bool) :
    D (result unit CompileError) :=
  if force then m_ret (Ok tt) else
  let! wasm_exists := path_exists wasm_path in
  if wasm_exists : bool then m_ret (Err (ModuleExists wasm_path)) else
  let! metadata_exists := path_exists metadata_path in
  if metadata_exists : bool then m_ret (Err (MetadataExists metadata_path)) else m_ret (Ok tt).

Definition module_uses_namespace_object vap_data (wasm_bytes : bytes) : bool :=
  match vap_variables_used wasm_bytes with
  | Ok vars => bool_decide ("namespaceObject" ∈ vars)
  | Err _ => vd_uses_namespace_object vap_data
  end.

Definition module_capabilities (used : list ExtensionKey) : option (gset string) :=
  let caps := extension_capabilities used in
  if decide (caps = ∅) then None else Some caps.

Definition vap_compiled vap_data (wasm_path : Path) (force : bool) :
    D (result ClusterAdmissionPolicy CompileError) :=
  let metadata_path := metadata_path_for wasm_path in
  if decide (path_file_name wasm_path = path_file_name metadata_path)
  then m_ret (Err (ReservedForMetadata wasm_path)) else
  let!? _ := check_destinations wasm_path metadata_path force in
  let!? wasm_bytes := m_ret (map_err CompilationFailed
    (compile_vap compiler_builder_chains compiler_extension_decls (vd_vap vap_data))) in
  let!? _ := failed OutputFailed (write_output_file wasm_path wasm_bytes force "Wasm module") in
  let!? wasm_path_abs := failed (CannotCanonicalize wasm_path) (canonicalize wasm_path) in
  let!? used := m_ret (map_err CannotReadExtensions (extensions_used wasm_bytes)) in
  let context_aware_resources := base_context_aware_resources vap_data
    (module_uses_namespace_object vap_data wasm_bytes) in
  let! written := write_metadata_file vap_data metadata_path (module_capabilities used)
    context_aware_resources force in
  match written with
  | Err e =>
      let! _ := if force then m_ret (Ok tt) else remove_file wasm_path in
      m_ret (Err e)
  | Ok _ =>
      let!? module := m_ret (ok_or (file_url wasm_path_abs) (NoFileUrl wasm_path_abs)) in
      m_ret (Ok (cluster_admission_policy vap_data module (vd_settings vap_data) context_aware_resources))
  end.
End compiled.

(** ** The command *)

Inductive VapError :=
| CannotOpen (path : Path) (e : IoError)
| NotAPolicy (e : string)
| NotABinding (e : string)
| Untranslatable (e : string)
| NotCompiled (e : CompileError)
| NotInterpreted (e : string)
| NotPrinted (e : string).

(** [File::open], with the contents *)
Definition open_file (path : Path) : D (result bytes IoError) :=
  syscall (λ d, (match files d !! resolve path with
                 | Some f => Ok (f_contents f)
                 | None => Err (OtherError "No such file or directory (os error 2)")
                 end, d)).

Section command.
Context `{SD : SdkTypes, FS : !FerricelSdk, VY : VapYaml, VC : VapCompiler}.

(** The command prints the policy. *)
Definition vap (cel_policy_module : string) (vap_path binding_path : Path)
    (compile_to_wasm : option Path) (force : bool) : D (result string VapError) :=
  let!? vap_file := failed (CannotOpen vap_path) (open_file vap_path) in
  let!? binding_file := failed (CannotOpen binding_path) (open_file binding_path) in
  let!? vap := m_ret (map_err NotAPolicy (vap_of_yaml vap_file)) in
  let!? vap_binding := m_ret (map_err NotABinding (binding_of_yaml binding_file)) in
  let!? vap_data := m_ret (map_err Untranslatable (VapData_new vap vap_binding)) in
  let!? cluster_admission_policy :=
    match compile_to_wasm with
    | Some wasm_path => failed NotCompiled (vap_compiled vap_data wasm_path force)
    | None => λ d, r ← vap_interpreted cel_policy_module vap_data;
                   Some (map_err NotInterpreted r, d)
    end in
  m_ret (map_err NotPrinted (policy_to_yaml cluster_admission_policy)).
End command.

(** ** What the policy does *)

Lemma ValidationAction_parse_Ok s a :
  ValidationAction_parse s = Ok a ↔
  s = match a with Deny => "Deny" | Warn => "Warn" | Audit => "Audit" end.
Proof.
  rewrite /ValidationAction_parse. split.
  - intros H. repeat case_decide; by simplify_eq.
  - by intros ->; destruct a.
Qed.

Lemma actions_convert l actions a :
  collect ValidationAction_parse l = Ok actions →
  a ∈ actions ↔ match a with Deny => "Deny" | Warn => "Warn" | Audit => "Audit" end ∈ l.
Proof.
  intros Hf%collect_Ok. induction Hf as [|s b l actions Hs _ IH]; [by rewrite !elem_of_nil|].
  apply ValidationAction_parse_Ok in Hs as ->. rewrite !elem_of_cons IH. destruct a, b; naive_solver.
Qed.

(** A binding that denies protects; one that only warns or audits monitors; anything
    the API server would have rejected is an error. *)
Lemma policy_mode_exact validation_actions mode :
  policy_mode_from_validation_actions validation_actions = Ok mode ↔
  ∃ l, validation_actions = Some l ∧ l ≠ [] ∧ l ⊆ ["Deny"; "Warn"; "Audit"] ∧
    ¬ ("Deny" ∈ l ∧ "Warn" ∈ l) ∧ (mode = Protect ↔ "Deny" ∈ l).
Proof.
  rewrite /policy_mode_from_validation_actions. split.
  - intros (l & Hl & (actions & Hc & Hm)%res_bind_Ok)%res_bind_Ok.
    destruct validation_actions as [[|s l']|]; simplify_eq. exists (s :: l').
    pose proof (actions_convert _ _ Deny Hc) as Hd. pose proof (actions_convert _ _ Warn Hc) as Hw.
    split_and!; [done..| | |].
    + apply collect_Ok in Hc. intros x Hx. clear -Hc Hx. induction Hc as [|a b l actions Ha _ IH]; [set_solver|].
      apply ValidationAction_parse_Ok in Ha as ->. destruct b; set_solver.
    + rewrite -Hd -Hw. intros [H1 H2]. by rewrite (bool_decide_eq_true_2 _ H1) (bool_decide_eq_true_2 _ H2) in Hm.
    + rewrite -Hd. destruct (bool_decide (Deny ∈ actions)) eqn:Hden.
      * apply bool_decide_eq_true in Hden.
        destruct (bool_decide (Warn ∈ actions)); [done|]. by injection Hm as <-.
      * apply bool_decide_eq_false in Hden. by injection Hm as <-.
  - intros (l & -> & Hne & Hsub & Hnot & Hmode).
    destruct (collect_total ValidationAction_parse l) as [actions Hc].
    { intros x Hx%Hsub. repeat (apply elem_of_cons in Hx as [->|Hx]; [by eexists|]). by apply elem_of_nil in Hx. }
    destruct l as [|s l]; [done|]. cbn [res_bind]. rewrite Hc. cbn [res_bind].
    rewrite -(actions_convert _ _ Deny Hc) -(actions_convert _ _ Warn Hc) in Hnot.
    rewrite -(actions_convert _ _ Deny Hc) in Hmode.
    destruct (bool_decide (Deny ∈ actions)) eqn:Hd.
    + apply bool_decide_eq_true in Hd. rewrite bool_decide_eq_false_2; [|tauto]. simpl. f_equal. symmetry. tauto.
    + apply bool_decide_eq_false in Hd. simpl. destruct mode; [done|]. destruct Hd. by apply Hmode.
Qed.

(** The match fields of a generated policy. *)
Definition policy_match_fields (p : ClusterAdmissionPolicy) : MatchFields :=
  {| mf_rules := cs_rules (ca_spec p); mf_match_policy := cs_match_policy (ca_spec p);
     mf_namespace_selector := cs_namespace_selector (ca_spec p);
     mf_object_selector := cs_object_selector (ca_spec p) |}.

(** The constraints of a policy and of a binding. *)
Definition vap_constraints (vap : ValidatingAdmissionPolicy) : MatchResources :=
  unwrap_or MatchResources_default (vap_spec vap ≫= vs_match_constraints).
Definition binding_constraints (b : ValidatingAdmissionPolicyBinding) : MatchResources :=
  unwrap_or MatchResources_default (vb_spec b ≫= bs_match_resources).

(** The parameters are read from the kind the policy names. *)
Definition param_resource (vap : ValidatingAdmissionPolicy) : option ContextAwareResource :=
  (vap_spec vap ≫= vs_param_kind) ≫= resource_of_param_kind.

Section faithful.
Context `{SD : SdkTypes, FS : !FerricelSdk, VY : VapYaml, VC : VapCompiler}.
Variable equivalents : AdmissionAttributes → list AdmissionAttributes.

Lemma VapData_new_Ok vap binding vd :
  VapData_new vap binding = Ok vd →
  ∃ name f, om_name (vap_metadata vap) = Some name ∧ (vb_spec binding ≫= bs_policy_name) = Some name ∧
    merge_match_fields (vap_constraints vap) (binding_constraints binding) = Ok f ∧
    f = {| mf_rules := vd_rules vd; mf_match_policy := vd_match_policy vd;
           mf_namespace_selector := vd_namespace_selector vd;
           mf_object_selector := vd_object_selector vd |} ∧
    policy_mode_from_validation_actions (vb_spec binding ≫= bs_validation_actions) = Ok (vd_mode vd) ∧
    vd_vap vd = vap ∧ vd_metadata vd = vb_metadata binding ∧
    vd_uses_namespace_object vd = vap_uses_namespace_object vap ∧
    vd_param_resource vd = param_resource vap.
Proof.
  rewrite /VapData_new /vap_constraints /binding_constraints /param_resource.
  intros (spec & Hspec & (name & Hname & (pname & Hpname & H)%res_bind_Ok)%res_bind_Ok)%res_bind_Ok.
  apply ok_or_Ok in Hspec, Hname, Hpname. case_decide as Hne; [done|]. subst pname.
  apply res_bind_Ok in H as ([settings pres] & Hp & (f & Hf & (mode & Hm & [= <-])%res_bind_Ok)%res_bind_Ok).
  rewrite Hspec. exists name, f. simpl.
  assert (∀ A (g : ValidatingAdmissionPolicyBindingSpec → option A),
    g BindingSpec_default = None → (vb_spec binding ≫= g) = g (unwrap_or BindingSpec_default (vb_spec binding))) as Hb
    by (intros A g Hg; by destruct (vb_spec binding)).
  rewrite !Hb; [|done..]. split_and!; [done|done|done|by destruct f|done|done|done|done|].
  rewrite /add_params in Hp. destruct (vs_param_kind spec) as [k|], (bs_param_ref _) as [r|]; simplify_eq/=; [|done].
  by res_simpl.
Qed.

(** A successful compilation: the module and its metadata are on the disk, and the
    policy refers to the module. *)
Definition compiled_to (vd : VapData) (wasm_path : Path) (d d' : Disk) (cap : ClusterAdmissionPolicy)
    (wasm : bytes) (used : list ExtensionKey) (yaml : bytes) : Prop :=
  let grants := base_context_aware_resources vd (module_uses_namespace_object vd wasm) in
  compile_vap compiler_builder_chains compiler_extension_decls (vd_vap vd) = Ok wasm ∧
  extensions_used wasm = Ok used ∧
  metadata_to_yaml (compiled_metadata vd (module_capabilities used) grants) = Ok yaml ∧
  (∃ module, file_url (canonical wasm_path) = Some module ∧
     cap = cluster_admission_policy vd module (vd_settings vd) grants) ∧
  ∃ m1 m2, files d' = <[resolve (metadata_path_for wasm_path) := {| f_contents := yaml; f_mode := m2 |}]>
    (<[resolve wasm_path := {| f_contents := wasm; f_mode := m1 |}]> (files d)).

(** Nothing but the two destinations changes, and they do not replace a file unless
    they are forced to. *)
Definition confined (wasm_path : Path) (force : bool) (d d' : Disk) : Prop :=
  (∀ q, q ≠ resolve wasm_path → q ≠ resolve (metadata_path_for wasm_path) → files d' !! q = files d !! q) ∧
  (force = false → files d ⊆ files d').

Lemma confined_refl wasm_path force d d' : files d' = files d → confined wasm_path force d d'.
Proof. intros Hf. split; [intros|]; by rewrite Hf. Qed.

Lemma destinations_differ wasm_path :
  path_file_name wasm_path ≠ path_file_name (metadata_path_for wasm_path) →
  resolve wasm_path ≠ resolve (metadata_path_for wasm_path).
Proof.
  intros Hn Heq. apply Hn. assert (path_file_name (metadata_path_for wasm_path) = Some "metadata.yml") as Hm
    by (by apply path_join_file_name). rewrite Hm. by eapply resolve_file_name.
Qed.

Lemma check_destinations_outcome wasm_path metadata_path force d :
  outcome (check_destinations wasm_path metadata_path force) d (λ _ d', same_files d d').
Proof.
  rewrite /check_destinations. destruct force; [by apply outcome_ret|].
  apply outcome_bind. eapply outcome_weaken; [apply path_exists_outcome|]. intros b d1 [Hd1 _].
  destruct b; [by apply outcome_ret|].
  apply outcome_bind. eapply outcome_weaken; [apply path_exists_outcome|]. intros b d2 [Hd2 _].
  destruct b; apply outcome_ret; by trans d1.
Qed.

Lemma write_metadata_file_outcome vd path caps grants force d :
  outcome (write_metadata_file vd path caps grants force) d (λ r d', umask d' = umask d ∧
    ((∃ e, r = Err e) ∧ files d' = files d ∨
     r = Ok tt ∧ (force = false → files d !! resolve path = None) ∧
     ∃ yaml mode, metadata_to_yaml (compiled_metadata vd caps grants) = Ok yaml ∧
       files d' = <[resolve path := {| f_contents := yaml; f_mode := mode |}]> (files d))).
Proof.
  apply outcome_mr_bind, outcome_ret. destruct (metadata_to_yaml _) as [yaml|e]; simpl; [|by eauto 10].
  apply outcome_failed. eapply outcome_weaken; [apply write_output_file_outcome|].
  intros r d' [Hu [[[e ->] Hf]|(-> & Hforce & mode & _ & Hf)]]; (split; [done|]); [left; simpl; eauto|].
  right. split_and!; [done..|]. by exists yaml, mode.
Qed.

Lemma canonicalize_outcome path d :
  outcome (canonicalize path) d (λ r d', same_files d d' ∧ ∀ p, r = Ok p → p = canonical path).
Proof.
  eapply outcome_weaken; [apply outcome_pure; by intros d1 [-> _]|].
  intros r d' [Hd Hr]. split; [done|]. intros p ->. destruct Hr as [Hr|[e [=]]].
  destruct (files d !! resolve path); by simplify_eq.
Qed.

Lemma vap_compiled_outcome vd wasm_path force d :
  outcome (vap_compiled vd wasm_path force) d (λ r d', confined wasm_path force d d' ∧
    ∀ cap, r = Ok cap → ∃ wasm used yaml, compiled_to vd wasm_path d d' cap wasm used yaml).
Proof.
  rewrite /vap_compiled. case_decide as Hname.
  { apply outcome_ret. split; [by apply confined_refl|done]. }
  apply destinations_differ in Hname. set (w := resolve wasm_path) in *.
  set (m := resolve (metadata_path_for wasm_path)) in *.
  apply outcome_mr_bind. eapply outcome_weaken; [apply check_destinations_outcome|].
  intros r d1 [Hf1 _]. destruct r as [[]|e]; [|split; [by apply confined_refl|done]].
  apply outcome_mr_bind, outcome_ret.
  destruct (compile_vap _ _ _) as [wasm|e] eqn:Hwasm; simpl; [|split; [by apply confined_refl|done]].
  apply outcome_mr_bind, outcome_failed. eapply outcome_weaken; [apply write_output_file_outcome|].
  intros r d2 [_ [[[e ->] Hf2]|(-> & Hforce & mode & _ & Hf2)]]; simpl.
  { split; [apply confined_refl; congruence|done]. }
  rewrite Hf1 in Hforce, Hf2.
  assert (∀ d', files d' = files d2 → confined wasm_path force d d') as Hconf.
  { intros d' Hd'. rewrite /confined Hd' Hf2. split; [intros q Hq _; by rewrite lookup_insert_ne|].
    intros Hno. by apply insert_subseteq, Hforce. }
  apply outcome_mr_bind, outcome_failed. eapply outcome_weaken; [apply canonicalize_outcome|].
  intros r d3 [[Hf3 _] Hp]. destruct r as [abs|e]; simpl; [|by split; [apply Hconf|]].
  specialize (Hp abs eq_refl) as ->.
  apply outcome_mr_bind, outcome_ret.
  destruct (extensions_used wasm) as [used|e] eqn:Hused; simpl; [|by split; [apply Hconf|]].
  apply outcome_bind. eapply outcome_weaken; [apply write_metadata_file_outcome|].
  intros r d4 [_ [[[e ->] Hf4]|(-> & Hforce4 & yaml & mode' & Hyaml & Hf4)]].
  - apply outcome_bind. destruct force.
    { apply outcome_ret, outcome_ret. split; [apply Hconf; congruence|done]. }
    eapply outcome_weaken; [apply remove_file_outcome|].
    intros r d5 [_ [[_ Hf5]|[_ Hf5]]]; apply outcome_ret; (split; [|done]); [|apply Hconf; congruence].
    apply confined_refl. rewrite Hf5 Hf4 Hf3 Hf2. by apply delete_insert_id, Hforce.
  - rewrite Hf3 Hf2 in Hforce4, Hf4.
    assert (confined wasm_path force d d4) as Hc.
    { rewrite /confined Hf4. split; [intros q Hq1 Hq2; by rewrite !lookup_insert_ne|].
      intros Hno. trans (<[w:={| f_contents := wasm; f_mode := mode |}]> (files d)).
      - by apply insert_subseteq, Hforce.
      - by apply insert_subseteq, Hforce4. }
    apply outcome_mr_bind, outcome_ret.
    destruct (file_url (canonical wasm_path)) as [module|] eqn:Hurl; simpl; [|by split].
    apply outcome_ret. split; [done|]. intros cap [= <-]. exists wasm, used, yaml.
    split_and!; [done..| |by exists mode, mode']. by exists module.
Qed.

(** The two outputs, and whether they take the policy to read [namespaceObject]: the interpreted one
    searches the text of the expressions, the compiled one asks the module. *)
Inductive generated (vd : VapData) (cap : ClusterAdmissionPolicy) : bool → Prop :=
| generated_interpreted module :
    vap_interpreted module vd = Some (Ok cap) →
    generated vd cap (vap_uses_namespace_object (vd_vap vd))
| generated_compiled wasm_path force d d' wasm :
    vap_compiled vd wasm_path force d = Some (Ok cap, d') →
    compile_vap compiler_builder_chains compiler_extension_decls (vd_vap vd) = Ok wasm →
    generated vd cap (module_uses_namespace_object vd wasm).

Lemma generated_policy vap binding vd cap uses :
  VapData_new vap binding = Ok vd → generated vd cap uses → ∃ module settings,
    cap = cluster_admission_policy vd module settings (base_context_aware_resources vd uses).
Proof.
  intros (_ & _ & _ & _ & _ & _ & _ & <- & _ & Hu & _)%VapData_new_Ok
    [module H|wasm_path force d d' wasm H Hw].
  - rewrite /vap_interpreted in H. apply bind_Some in H as (spec & _ & (s1 & _ & (s2 & _ & [= <-])%bind_Some)%bind_Some).
    rewrite Hu. by eexists _, _.
  - destruct (vap_compiled_outcome vd wasm_path force d _ _ H) as [_ Hc].
    destruct (Hc cap eq_refl) as (wasm' & used & yaml & Hwasm & _ & _ & (module & _ & ->) & _).
    rewrite Hw in Hwasm. injection Hwasm as <-. by eexists _, _.
Qed.

(** A policy with other match conditions. *)
Definition with_match_conditions (conditions : option (list MatchCondition)) (vap : ValidatingAdmissionPolicy) :
    ValidatingAdmissionPolicy :=
  {| vap_metadata := vap_metadata vap;
     vap_spec := (λ s, {| vs_failure_policy := vs_failure_policy s; vs_param_kind := vs_param_kind s;
       vs_match_constraints := vs_match_constraints s; vs_match_conditions := conditions;
       vs_validations := vs_validations s; vs_variables := vs_variables s |}) <$> vap_spec vap |}.

Lemma interpreted_ignores_conditions conditions module vap binding vd cap :
  VapData_new vap binding = Ok vd → vap_interpreted module vd = Some (Ok cap) →
  vap_uses_namespace_object (with_match_conditions conditions vap) = vap_uses_namespace_object vap →
  ∃ vd', VapData_new (with_match_conditions conditions vap) binding = Ok vd' ∧
    vap_interpreted module vd' = Some (Ok cap).
Proof.
  intros Hvd Hcap Huses.
  exists {| vd_vap := with_match_conditions conditions vap; vd_metadata := vd_metadata vd; vd_rules := vd_rules vd;
    vd_match_policy := vd_match_policy vd; vd_namespace_selector := vd_namespace_selector vd;
    vd_object_selector := vd_object_selector vd; vd_settings := vd_settings vd;
    vd_param_resource := vd_param_resource vd; vd_uses_namespace_object := vd_uses_namespace_object vd;
    vd_mode := vd_mode vd |}. split.
  - rewrite /VapData_new in Hvd |- *. rewrite Huses. destruct (vap_spec vap) as [spec|] eqn:Hspec; [|done].
    rewrite /with_match_conditions /= Hspec /= in Hvd |- *.
    destruct (om_name (vap_metadata vap)); [|done]. destruct (bs_policy_name _); [|done]. simpl in *.
    case_decide; [done|]. destruct (add_params _ _ _) as [[]|]; [|done]. simpl in *.
    destruct (merge_match_fields _ _); [|done]. simpl in *.
    destruct (policy_mode_from_validation_actions _); [|done]. by injection Hvd as <-.
  - apply VapData_new_Ok in Hvd as (_ & _ & _ & _ & _ & _ & _ & Hv & _ & Hu & _).
    rewrite /vap_interpreted Hv /= in Hcap |- *. by destruct (vap_spec vap).
Qed.

(** The interpreter is given every validation and every variable of the policy. *)
Definition expressions_given (vap : ValidatingAdmissionPolicy) (settings : Mapping) : Prop :=
  ∀ spec, vap_spec vap = Some spec →
    (∀ l, vs_validations spec = Some l → ∃ vs, values_of validation_to_value l = Some vs ∧
       field_get settings "validations" = Some (JArray vs)) ∧
    (∀ l, vs_variables spec = Some l → ∃ vs, values_of variable_to_value l = Some vs ∧
       field_get settings "variables" = Some (JArray vs)).

Lemma interpreted_expressions module vap binding vd cap :
  VapData_new vap binding = Ok vd → vap_interpreted module vd = Some (Ok cap) →
  expressions_given vap (cs_settings (ca_spec cap)).
Proof.
  intros (_ & _ & _ & _ & _ & _ & _ & Hv & _)%VapData_new_Ok Hcap spec Hspec.
  rewrite /vap_interpreted Hv Hspec /= in Hcap.
  apply bind_Some in Hcap as (s1 & H1 & (s2 & H2 & [= <-])%bind_Some). simpl.
  rewrite /insert_values in H1, H2. split; intros l Hl; rewrite Hl in H1, H2.
  - apply bind_Some in H2 as (vs & Hvs & [= <-]). exists vs. split; [done|].
    rewrite field_get_insert. by case_decide.
  - apply bind_Some in H1 as (vs & Hvs & [= <-]). exists vs. split; [done|].
    destruct (vs_validations spec); [apply bind_Some in H2 as (vs' & _ & [= <-])|injection H2 as <-];
      rewrite !field_get_insert; by repeat case_decide.
Qed.

(** C19. A generated policy stands for the policy and the binding it was made from. With either
    output: the binding binds that policy; the policy matches a request exactly when the policy has
    resource rules and the constraints of the policy and of the binding (rules, selectors, match
    policy) both match it; it rejects exactly when the binding denies; it never mutates; and it may
    read exactly the kind of its parameters and, when it is taken to use it, the namespace. The
    match conditions are not part of what is matched: the compiler gets them with the policy, the
    interpreted output ignores them, as it warns. It carries every validation and variable, and
    policies that differ in their match conditions alone are translated to the same one, as long as
    the search for [namespaceObject], which reads the conditions too, comes out the same. *)
Theorem translated_policy_faithful vap binding vd cap uses
    (Hdata : VapData_new vap binding = Ok vd) (Hcap : generated vd cap uses) :
  (∃ name, om_name (vap_metadata vap) = Some name ∧ (vb_spec binding ≫= bs_policy_name) = Some name) ∧
  (∀ req, fields_match equivalents (policy_match_fields cap) req ↔
     unwrap_or [] (ms_resource_rules (vap_constraints vap)) ≠ [] ∧
     constraints_match equivalents (vap_constraints vap) req ∧
     constraints_match equivalents (binding_constraints binding) req) ∧
  (cs_mode (ca_spec cap) = Some Protect ↔
     "Deny" ∈ unwrap_or [] (vb_spec binding ≫= bs_validation_actions)) ∧
  cs_mutating (ca_spec cap) = false ∧
  (∀ r, r ∈ cs_context_aware_resources (ca_spec cap) ↔
     param_resource vap = Some r ∨ uses = true ∧ r = NAMESPACE_RESOURCE) ∧
  (∀ module, vap_interpreted module vd = Some (Ok cap) →
     expressions_given vap (cs_settings (ca_spec cap)) ∧
     ∀ conditions,
       vap_uses_namespace_object (with_match_conditions conditions vap) = vap_uses_namespace_object vap →
       ∃ vd', VapData_new (with_match_conditions conditions vap) binding = Ok vd' ∧
         vap_interpreted module vd' = Some (Ok cap)).
Proof.
  destruct (VapData_new_Ok _ _ _ Hdata) as (name & f & Hname & Hpname & Hf & -> & Hmode & _ & _ & _ & Hparam).
  destruct (generated_policy _ _ _ _ _ Hdata Hcap) as (module & settings & Heq).
  split; [by exists name|]. split_and!.
  - intros req. subst cap. by apply merged_fields_rules.
  - subst cap. apply policy_mode_exact in Hmode as (l & -> & _ & _ & _ & Hm). simpl. rewrite -Hm. split; congruence.
  - by subst cap.
  - intros r. subst cap. simpl. rewrite /base_context_aware_resources Hparam.
    destruct (param_resource vap), uses; set_solver.
  - intros module' Hint. split; [by eapply interpreted_expressions|].
    intros conditions. by eapply interpreted_ignores_conditions.
Qed.

(** C32. Scaffolding a compiled policy changes nothing on the disk but the module and the
    [metadata.yml] next to it, whatever call fails; unless it is forced, every file that
    existed is as it was. When it succeeds both files are complete, the module that was
    compiled under its own name and the metadata under the other, and the policy that is
    printed points at the module. *)
Theorem compiled_output_confined vd wasm_path force d r d'
    (Hrun : vap_compiled vd wasm_path force d = Some (r, d')) :
  confined wasm_path force d d' ∧
  ∀ cap, r = Ok cap → ∃ wasm used yaml, compiled_to vd wasm_path d d' cap wasm used yaml ∧
    f_contents <$> files d' !! resolve wasm_path = Some wasm ∧
    f_contents <$> files d' !! resolve (metadata_path_for wasm_path) = Some yaml.
Proof.
  destruct (vap_compiled_outcome vd wasm_path force d _ _ Hrun) as [Hc Hok]. split; [done|].
  intros cap ->. destruct (Hok cap eq_refl) as (wasm & used & yaml & Hto). exists wasm, used, yaml.
  split; [done|]. destruct Hto as (_ & _ & _ & _ & m1 & m2 & Hf).
  assert (resolve wasm_path ≠ resolve (metadata_path_for wasm_path)) as Hne.
  { apply destinations_differ. intros Heq. rewrite /vap_compiled decide_True in Hrun; done. }
  rewrite Hf lookup_insert_eq lookup_insert_ne; [|done]. by rewrite lookup_insert_eq.
Qed.

(** The capabilities in the metadata of a compiled policy are enough for what its
    module calls: with them the host authorizes every extension that the module uses and the
    host knows. *)
Theorem compiled_capabilities_suffice vd wasm_path d d' cap wasm used yaml
    (Hto : compiled_to vd wasm_path d d' cap wasm used yaml) :
  ∃ md, metadata_to_yaml md = Ok yaml ∧ ∀ ctx,
    (∀ p, p ∈ unwrap_or ∅ (md_host_capabilities md) → can_access_host_capability ctx p = true) →
    ∀ key, key ∈ used → is_Some (spec_for key) → authorize_extension_call ctx key = Ok tt.
Proof.
  destruct Hto as (_ & _ & Hyaml & _). eexists. split; [exact Hyaml|]. intros ctx Hgrants.
  apply (proj2 (extension_capabilities_suffice used ctx)).
  intros p Hp. apply Hgrants. simpl. rewrite /module_capabilities.
  case_decide as Hempty; [by rewrite Hempty in Hp|done].
Qed.
End faithful.

(** ** Examples *)

#[local] Instance example_yaml : VapYaml := {
  vap_of_yaml _ := Err "not used";
  binding_of_yaml _ := Err "not used";
  param_kind_to_value _ := Ok JNull;
  param_ref_to_value r := Ok (JString (unwrap_or "" (pr_parameter_not_found_action r)));
  variable_to_value v := Ok (JString (cv_expression v));
  validation_to_value v := Ok (JString (va_expression v));
  metadata_to_yaml _ := Ok (as_bytes "rules: []");
  policy_to_yaml _ := Ok "kind: ClusterAdmissionPolicy";
}.

(** A compiler whose modules read a Kubernetes resource. *)
#[local] Instance example_compiler : VapCompiler := {
  compile_vap _ _ _ := Ok (as_bytes "wasm");
  extensions_used _ := Ok [(Some "kw.k8s", "get")];
  vap_variables_used _ := Ok ["object"; "namespaceObject"];
  canonical p := path_join (path_of "/work") (unwrap_or "" (path_file_name p));
  file_url _ := Some "file:///work/policy.wasm";
}.

Definition example_policy : ValidatingAdmissionPolicy :=
  {| vap_metadata := {| om_name := Some "replicas"; om_annotations := None |};
     vap_spec := Some {| vs_failure_policy := Some "Fail";
       vs_param_kind := Some {| pk_api_version := Some "v1"; pk_kind := Some "ConfigMap" |};
       vs_match_constraints := Some example_vap; vs_match_conditions := None;
       vs_validations := Some [{| va_expression := "object.spec.replicas <= params.data.max";
         va_message := None; va_message_expression := None; va_reason := None |}];
       vs_variables := None |} |}.

Definition example_policy_binding : ValidatingAdmissionPolicyBinding :=
  {| vb_metadata := {| om_name := Some "replicas-binding"; om_annotations := None |};
     vb_spec := Some {| bs_match_resources := Some example_binding;
       bs_param_ref := Some {| pr_name := Some "limits"; pr_namespace := None;
         pr_parameter_not_found_action := None; pr_selector := None |};
       bs_policy_name := Some "replicas"; bs_validation_actions := Some ["Deny"; "Audit"] |} |}.

Definition empty_disk : Disk := {| files := ∅; umask := 18; faults := [] |}.

Definition example_interpreted : bool :=
  match VapData_new example_policy example_policy_binding with
  | Ok vd => match vap_interpreted "cel-policy:v1.0.0" vd with Some (Ok _) => true | _ => false end
  | Err _ => false
  end.

Definition example_compiled : bool :=
  match VapData_new example_policy example_policy_binding with
  | Ok vd => match vap_compiled (FS := simple_ferricel_sdk) vd (path_of "out/policy.wasm") false empty_disk with
             | Some (Ok _, _) => true
             | _ => false
             end
  | Err _ => false
  end.

Lemma translated_policy_faithful_witness :
  ∃ vd cap, VapData_new example_policy example_policy_binding = Ok vd ∧
    vap_interpreted "cel-policy:v1.0.0" vd = Some (Ok cap) ∧
    cs_mode (ca_spec cap) = Some Protect ∧
    {| car_api_version := "v1"; car_kind := "ConfigMap" |} ∈ cs_context_aware_resources (ca_spec cap).
Proof.
  assert (example_interpreted = true) as Hex by (vm_compute; reflexivity). rewrite /example_interpreted in Hex.
  destruct (VapData_new example_policy example_policy_binding) as [vd|e] eqn:Hvd; [|done].
  destruct (vap_interpreted "cel-policy:v1.0.0" vd) as [[cap|e]|] eqn:Hcap; [|done..].
  exists vd, cap. split; [done|]. split; [done|].
  destruct (translated_policy_faithful (FS := simple_ferricel_sdk) (λ _, []) _ _ _ cap _ Hvd
    (generated_interpreted (FS := simple_ferricel_sdk) _ _ _ Hcap)) as (_ & _ & Hmode & _ & Hgrant & _).
  split; [apply Hmode; left|]. apply Hgrant. by left.
Defined.

Lemma compiled_output_confined_witness :
  ∃ vd cap d', VapData_new example_policy example_policy_binding = Ok vd ∧
    vap_compiled (FS := simple_ferricel_sdk) vd (path_of "out/policy.wasm") false empty_disk = Some (Ok cap, d') ∧
    f_contents <$> files d' !! path_of "out/metadata.yml" = Some (as_bytes "rules: []").
Proof.
  assert (example_compiled = true) as Hex by (vm_compute; reflexivity). rewrite /example_compiled in Hex.
  destruct (VapData_new example_policy example_policy_binding) as [vd|e] eqn:Hvd; [|done].
  destruct (vap_compiled (FS := simple_ferricel_sdk) vd (path_of "out/policy.wasm") false empty_disk)
    as [[[cap|e] d']|] eqn:Hrun; [|done..].
  exists vd, cap, d'. split; [done|]. split; [done|].
  destruct (compiled_output_confined (FS := simple_ferricel_sdk) _ _ _ _ _ _ Hrun) as [_ Hok].
  destruct (Hok cap eq_refl) as (wasm & used & yaml & (_ & _ & [= <-] & _) & _ & Hmeta). exact Hmeta.
Defined.

Lemma compiled_capabilities_suffice_witness :
  ∃ md, metadata_to_yaml md = Ok (as_bytes "rules: []") ∧ ∀ ctx : @EvaluationContext unit_sdk,
    (∀ p, p ∈ unwrap_or ∅ (md_host_capabilities md) → can_access_host_capability ctx p = true) →
    authorize_extension_call (FS := simple_ferricel_sdk) ctx (Some "kw.k8s", "get") = Ok tt.
Proof.
  assert (example_compiled = true) as Hex by (vm_compute; reflexivity). rewrite /example_compiled in Hex.
  destruct (VapData_new example_policy example_policy_binding) as [vd|e] eqn:Hvd; [|done].
  destruct (vap_compiled (FS := simple_ferricel_sdk) vd (path_of "out/policy.wasm") false empty_disk)
    as [[[cap|e] d']|] eqn:Hrun; [|done..].
  destruct (vap_compiled_outcome (FS := simple_ferricel_sdk) _ _ _ _ _ _ Hrun) as [_ Hok].
  destruct (Hok cap eq_refl) as (wasm & used & yaml & Hto).
  destruct (compiled_capabilities_suffice (FS := simple_ferricel_sdk) _ _ _ _ _ _ _ _ Hto) as (md & Hmd & Hauth).
  destruct Hto as (_ & [= <-] & [= <-] & _).
  exists md. split; [exact Hmd|]. intros ctx Hgrants. apply (Hauth ctx Hgrants); [left|by eexists].
Defined.

(** A compiler whose modules cannot be inspected. *)
Definition unreadable_compiler : VapCompiler := {|
  compile_vap _ _ _ := Ok (as_bytes "wasm");
  extensions_used _ := Err "no extensions section";
  vap_variables_used _ := Err "no variables section";
  canonical p := p;
  file_url _ := None;
|}.

(** Only a failure to write the metadata removes the module: when the module cannot be
    inspected the command fails and the module stays, so that the next run, that finds it,
    fails too. *)
Example failed_scaffold_keeps_module :
  match VapData_new example_policy example_policy_binding with
  | Ok vd =>
      match vap_compiled (FS := simple_ferricel_sdk) (VC := unreadable_compiler) vd
              (path_of "policy.wasm") false empty_disk with
      | Some (Err (CannotReadExtensions _), d') =>
          match vap_compiled (FS := simple_ferricel_sdk) (VC := unreadable_compiler) vd
                  (path_of "policy.wasm") false d' with
          | Some (Err (ModuleExists _), _) => true
          | _ => false
          end
      | _ => false
      end
  | Err _ => false
  end = true.
Proof. vm_compute. reflexivity. Qed.
