(* ===== verification/Manifest.v ===== *)
(** * Manifests and pushed policies

    Models [crates/kwctl/src/scaffold/manifest.rs] (the custom resource that deploys a
    policy of the store) and [crates/kwctl/src/push.rs] (a policy goes to a registry).

    The validation of host names is the parameter [HostnameValidator]; the YAML of the
    settings and of the output is [ManifestYaml]. *)

From S2P Require Import Prelude Bytes RustStr Json PolicyId Request HostCapabilities Callback Metadata.
From S2P Require Import VerificationConstraints Sources Registry Fetcher Verify Startup WasmScanner Annotate.
From S2P Require Import MatchResources VapScaffold PolicyStore.

(** ** [manifest.rs] *)

Inductive ManifestType := TypeClusterAdmissionPolicy | TypeAdmissionPolicy.

Definition ManifestType_from_str (value : string) : result ManifestType string :=
  if decide (value = "ClusterAdmissionPolicy") then Ok TypeClusterAdmissionPolicy
  else if decide (value = "AdmissionPolicy") then Ok TypeAdmissionPolicy
  else Err "unknown manifest type".

Record AdmissionPolicySpec := {
  as_module : string;
  as_settings : Mapping;
  as_rules : list Rule;
  as_mutating : bool;
  as_background_audit : bool;
}.

Record AdmissionPolicy := {
  ap_api_version : string;
  ap_kind : string;
  ap_metadata : ObjectMeta;
  ap_spec : AdmissionPolicySpec;
}.

Inductive ManifestResource :=
| ResourceCluster (p : ClusterAdmissionPolicy)
| ResourceNamespaced (p : AdmissionPolicy).

Record ScaffoldPolicyData := {
  sc_uri : string;
  sc_policy_title : option string;
  sc_metadata : Metadata;
  sc_settings : Mapping;
}.

Definition POLICY_TITLE : string := "io.kubewarden.policy.title".
Definition POLICY_SEVERITY : string := "io.kubewarden.policy.severity".
Definition POLICY_CATEGORY : string := "io.kubewarden.policy.category".

Definition keep_annotation (key : string) (an annots : gmap string string) : gmap string string :=
  match an !! key with Some v => <[key := v]> annots | None => annots end.

Definition build_objmetadata (data : ScaffoldPolicyData) : ObjectMeta :=
  let annots := match md_annotations (sc_metadata data) with
    | Some an => keep_annotation POLICY_CATEGORY an (keep_annotation POLICY_SEVERITY an ∅)
    | None => ∅
    end in
  {| om_name := sc_policy_title data;
     om_annotations := if decide (annots = ∅) then None else Some annots |}.

(** The errors of [validate]. *)
Definition validated (m : Metadata) : result unit (list (string * string)) :=
  match Metadata_validate m with [] => Ok tt | errors => Err errors end.

Definition cluster_policy_try_from (data : ScaffoldPolicyData) :
    result ClusterAdmissionPolicy (list (string * string)) :=
  let m := sc_metadata data in
  let? _ := validated m in
  Ok {| ca_api_version := "policies.kubewarden.io/v1"; ca_kind := "ClusterAdmissionPolicy";
        ca_metadata := build_objmetadata data;
        ca_spec := {| cs_module := sc_uri data; cs_settings := sc_settings data; cs_rules := md_rules m;
          cs_mutating := md_mutating m; cs_background_audit := md_background_audit m;
          cs_context_aware_resources := md_context_aware_resources m; cs_failure_policy := None;
          cs_mode := None; cs_match_policy := None; cs_namespace_selector := None;
          cs_object_selector := None |} |}.

Definition admission_policy_try_from (data : ScaffoldPolicyData) :
    result AdmissionPolicy (list (string * string)) :=
  let m := sc_metadata data in
  let? _ := validated m in
  Ok {| ap_api_version := "policies.kubewarden.io/v1"; ap_kind := "AdmissionPolicy";
        ap_metadata := build_objmetadata data;
        ap_spec := {| as_module := sc_uri data; as_settings := sc_settings data; as_rules := md_rules m;
          as_mutating := md_mutating m; as_background_audit := md_background_audit m |} |}.

(** [hostname_validator::is_valid] *)
Class HostnameValidator := hostname_is_valid : string → bool.

Fixpoint no_uppercase (s : string) : bool :=
  match s with
  | EmptyString => true
  | String a s =>
      negb (bool_decide (65 ≤ Ascii.N_of_ascii a ∧ Ascii.N_of_ascii a ≤ 90)%N) && no_uppercase s
  end.

Definition is_valid_k8s_hostname `{HostnameValidator} (hostname : string) : bool :=
  hostname_is_valid hostname && no_uppercase hostname &&
  negb (contains_char hostname "_"%char) && bool_decide (String.length hostname ≤ 253).

Definition invalid_title (title : string) : string :=
  "Invalid title '" +:+ title +:+ "'. Must conform to RFC 1123: use lowercase alphanumeric chars, '-' or '.', and start/end with an alphanumeric character.".

Definition validate_policy_title `{HostnameValidator} (title : string) : result unit string :=
  if negb (is_valid_k8s_hostname title) then Err (invalid_title title) else Ok tt.

Definition get_policy_title_from_cli_or_metadata (policy_title : option string) (metadata : Metadata) :
    option string :=
  match policy_title with
  | Some t => Some t
  | None => unwrap_or ∅ (md_annotations metadata) !! POLICY_TITLE
  end.

Definition without_resources (data : ScaffoldPolicyData) : ScaffoldPolicyData :=
  let m := sc_metadata data in
  {| sc_uri := sc_uri data; sc_policy_title := sc_policy_title data;
     sc_metadata := {| md_protocol_version := md_protocol_version m; md_rules := md_rules m;
       md_annotations := md_annotations m; md_mutating := md_mutating m;
       md_background_audit := md_background_audit m; md_execution_mode := md_execution_mode m;
       md_policy_type := md_policy_type m; md_context_aware_resources := ∅;
       md_host_capabilities := md_host_capabilities m;
       md_minimum_kubewarden_version := md_minimum_kubewarden_version m |};
     sc_settings := sc_settings data |}.

Definition generate_resource (scaffold_data : ScaffoldPolicyData) (resource_type : ManifestType)
    (allow_context_aware_resources : bool) : result ManifestResource (list (string * string)) :=
  match resource_type with
  | TypeClusterAdmissionPolicy =>
      let scaffold_data :=
        if bool_decide (md_context_aware_resources (sc_metadata scaffold_data) = ∅) then scaffold_data
        else if allow_context_aware_resources then scaffold_data
        else without_resources scaffold_data in
      res_map ResourceCluster (cluster_policy_try_from scaffold_data)
  | TypeAdmissionPolicy => res_map ResourceNamespaced (admission_policy_try_from scaffold_data)
  end.

Class ManifestYaml := {
  settings_of_yaml : string → result Mapping string;
  resource_to_yaml : ManifestResource → result string string;
}.

Inductive ManifestError :=
| ManifestLookup (e : LookupError)
| CannotReadModule (e : MetadataError)
| NoMetadata (uri : string)
| InvalidSettings (e : string)
| InvalidTitle (e : string)
| InvalidMetadata (errors : list (string * string))
| CannotPrint (e : string).

Section manifest.
Context `{UL : UrlLib, SE : SourceEnv, OL : OciLib, SH : Sha256, CE : CommandEnv}.
Context `{WP : WasmParser, HV : HostnameValidator, MY : ManifestYaml}.
Context (root : Components).

(** [Metadata::from_path] *)
Definition metadata_at (fs : Node) (p : Components) : result (option Metadata) MetadataError :=
  metadata_from_read match node_at fs p with
    | Some (NFile b) => Ok b
    | Some (NDir _) => Err "Is a directory (os error 21)"
    | None => Err NO_ENTRY
    end.

(** The resource that is printed. *)
Definition manifest_resource (fs : Node) (uri_or_sha_prefix : string) (resource_type : ManifestType)
    (settings policy_title : option string) (allow_context_aware_resources : bool) :
    result ManifestResource ManifestError :=
  let? uri := map_err ManifestLookup (get_uri root fs uri_or_sha_prefix) in
  let? wasm_path := map_err ManifestLookup (wasm_path root fs uri) in
  let? found := map_err CannotReadModule (metadata_at fs wasm_path) in
  let? metadata := ok_or found (NoMetadata uri) in
  let? settings_yml := map_err InvalidSettings (settings_of_yaml (unwrap_or "{}" settings)) in
  let policy_title := get_policy_title_from_cli_or_metadata policy_title metadata in
  let? _ := match policy_title with
    | Some title => map_err InvalidTitle (validate_policy_title title)
    | None => Ok tt
    end in
  map_err InvalidMetadata (generate_resource
    {| sc_uri := uri; sc_policy_title := policy_title; sc_metadata := metadata; sc_settings := settings_yml |}
    resource_type allow_context_aware_resources).

Definition manifest (fs : Node) (uri_or_sha_prefix : string) (resource_type : ManifestType)
    (settings policy_title : option string) (allow_context_aware_resources : bool) :
    result string ManifestError :=
  let? resource := manifest_resource fs uri_or_sha_prefix resource_type settings policy_title
    allow_context_aware_resources in
  map_err CannotPrint (resource_to_yaml resource).
End manifest.

(** ** [push.rs] *)

Definition POLICY_SOURCE : string := "io.kubewarden.policy.source".
Definition IMAGE_SOURCE : string := "org.opencontainers.image.source".

Definition newline : ascii := Ascii.ascii_of_N 10.

(** [str::lines().count()]: a final line terminator does not start a line. *)
Definition line_count (s : string) : nat :=
  let pieces := split s newline in
  length (match last pieces with Some EmptyString => take (length pieces - 1) pieces | _ => pieces end).

Definition single_line (s : string) : bool := bool_decide (line_count s ≤ 1).

Definition build_oci_annotations (annotations : gmap string string) : gmap string string :=
  let annotations := trim <$> filter (λ kv, single_line kv.2) annotations in
  match annotations !! POLICY_SOURCE, annotations !! IMAGE_SOURCE with
  | Some source, None => <[IMAGE_SOURCE := source]> annotations
  | _, _ => annotations
  end.

Inductive PushError :=
| PushMetadata (e : MetadataError)
| RegoWithoutMetadata
| NotAnnotated
| NotUnderstood (e : string)
| CannotOpenPolicy (e : string)
| PushRegistry (e : RegistryError).

Section push.
Context `{UL : UrlLib, SE : SourceEnv, OL : OciLib, HI : !HostIO, OP : !OciPush}.
Context `{WP : WasmParser, WA : Walrus, KT : !KwctlTools, MM : Memmem}.

Definition can_be_force_pushed_without_metadata (d : BackendDetector) (wasm_path : string) :
    result bool PushError :=
  let? is_rego := map_err NotUnderstood (is_rego_policy d wasm_path) in
  Ok (negb is_rego).

Definition kwctl_push (wasm_path uri : string) (sources : option Sources) (force : bool) :
    M St (result string PushError) :=
  let!? metadata := m_ret (map_err PushMetadata (metadata_from_read (fs_read_bytes wasm_path))) in
  let!? _ := m_ret (match metadata with
    | Some _ => Ok tt
    | None =>
        if force then
          let? allowed := can_be_force_pushed_without_metadata BackendDetector_default wasm_path in
          if allowed : bool then Ok tt else Err RegoWithoutMetadata
        else Err NotAnnotated
    end) in
  let annotations := build_oci_annotations <$> (metadata ≫= md_annotations) in
  let!? policy := m_ret (map_err CannotOpenPolicy (fs_read_bytes wasm_path)) in
  let! r := Registry.push policy uri sources annotations in
  m_ret (map_err PushRegistry r).
End push.

(** ** Properties *)

(** Trimming takes a part of the string. *)
Lemma trim_part s : ∃ a b, s = a +:+ trim s +:+ b.
Proof.
  assert (∃ a, s = a +:+ trim_start s) as [a Ha].
  { apply (trim_with_inv strip_prefix white_space (λ t, ∃ a, s = a +:+ t)); [by exists ""|].
    intros s' w t _ Ht%strip_prefix_Some [a ->]. exists (a +:+ w). by rewrite Ht str_app_assoc. }
  assert (∃ b, trim_start s = trim s +:+ b) as [b Hb].
  { apply (trim_with_inv strip_suffix white_space (λ t, ∃ b, trim_start s = t +:+ b)).
    - exists "". by rewrite str_app_nil_r.
    - intros s' w t _ Ht%strip_suffix_Some [b Hb]. exists (w +:+ b). by rewrite Hb Ht str_app_assoc. }
  exists a, b. by rewrite -Hb.
Qed.

Lemma contains_char_false_app s t c :
  contains_char (s +:+ t) c = false ↔ contains_char s c = false ∧ contains_char t c = false.
Proof. by rewrite contains_char_app orb_false_iff. Qed.

(** One line has no terminator but a final one. *)
Lemma single_line_shape s :
  single_line s = true → contains_char s newline = false ∨
  ∃ t, s = t +:+ String newline "" ∧ contains_char t newline = false.
Proof.
  rewrite /single_line bool_decide_eq_true /line_count => H.
  pose proof (split_pieces s newline) as Hp. pose proof (join_split s newline) as Hj.
  destruct (split s newline) as [|x [|y [|z l]]] eqn:Hs.
  - by destruct (split_cons s newline) as (? & ? & ?); simplify_eq.
  - left. rewrite -Hj. by apply Forall_cons in Hp as [? _].
  - right. simpl in H. destruct y; [|simpl in H; lia]. exists x. rewrite -Hj.
    split; [|by apply Forall_cons in Hp as [? _]]. by rewrite join_cons // str_app_nil_r.
  - exfalso. assert (2 ≤ length (x :: y :: z :: l) - 1) by (simpl; lia).
    destruct (last (x :: y :: z :: l)) as [[|a u]|]; rewrite ?length_take in H; lia.
Qed.

Lemma newline_is_space : String newline "" ∈ white_space.
Proof. vm_compute. right. left. Qed.

(** Where a string that ends with its only [c] is cut. *)
Lemma cut_before_last c x y t :
  x +:+ y = t +:+ String c "" → contains_char t c = false →
  y = "" ∨ ∃ y', y = y' +:+ String c "" ∧ contains_char x c = false ∧ contains_char y' c = false.
Proof.
  revert t. induction x as [|a x IH]; intros t Heq Ht; [right; by exists t|].
  destruct t as [|b t]; simpl in *; injection Heq as -> Heq; [left; by destruct x|].
  apply orb_false_iff in Ht as [Hb Ht]. destruct (IH t Heq Ht) as [->|(y' & -> & Hx & Hy)]; [by left|].
  right. exists y'. by rewrite Hb Hx.
Qed.

Lemma trimmed_line s : single_line s = true → contains_char (trim s) newline = false.
Proof.
  destruct (trim_part s) as (a & b & Hab). intros [Hs|(t & Ht & Hnl)]%single_line_shape.
  { rewrite Hab !contains_char_false_app in Hs. naive_solver. }
  assert (a +:+ trim s +:+ b = t +:+ String newline "") as Hcut by congruence.
  destruct (cut_before_last _ _ _ _ Hcut Hnl) as [He|(y & Hy & _ & Hc)]; [by destruct (trim s)|].
  destruct (cut_before_last _ _ _ _ Hy Hc) as [->|(? & _ & Hv & _)]; [|done].
  destruct (trim_done s) as [_ []]. rewrite str_app_nil_r in Hy.
  exists (String newline ""), y. split; [apply newline_is_space|]. by apply strip_suffix_Some.
Qed.

(** What a policy of the store deploys. *)
Definition granted (r : ManifestResource) : gset ContextAwareResource :=
  match r with ResourceCluster p => cs_context_aware_resources (ca_spec p) | ResourceNamespaced _ => ∅ end.

Definition deployed_as (r : ManifestResource) : ManifestType :=
  match r with ResourceCluster _ => TypeClusterAdmissionPolicy | ResourceNamespaced _ => TypeAdmissionPolicy end.

Definition resource_meta (r : ManifestResource) : ObjectMeta :=
  match r with ResourceCluster p => ca_metadata p | ResourceNamespaced p => ap_metadata p end.

Definition deployed_rules (r : ManifestResource) : string * Mapping * list Rule * bool * bool :=
  match r with
  | ResourceCluster p =>
      let s := ca_spec p in (cs_module s, cs_settings s, cs_rules s, cs_mutating s, cs_background_audit s)
  | ResourceNamespaced p =>
      let s := ap_spec p in (as_module s, as_settings s, as_rules s, as_mutating s, as_background_audit s)
  end.

Lemma validated_Ok m : validated m = Ok tt ↔ Metadata_validate m = [].
Proof. rewrite /validated. by destruct (Metadata_validate m). Qed.

Lemma generate_resource_Ok data rt allow r :
  generate_resource data rt allow = Ok r →
  deployed_as r = rt ∧ resource_meta r = build_objmetadata data ∧
  deployed_rules r = (sc_uri data, sc_settings data, md_rules (sc_metadata data),
    md_mutating (sc_metadata data), md_background_audit (sc_metadata data)) ∧
  granted r = (if allow then match rt with
                 | TypeClusterAdmissionPolicy => md_context_aware_resources (sc_metadata data)
                 | TypeAdmissionPolicy => ∅
                 end else ∅) ∧
  Forall (λ rule, Rule_validate rule = []) (md_rules (sc_metadata data)).
Proof.
  assert (∀ m, Metadata_validate m = [] → Forall (λ rule, Rule_validate rule = []) (md_rules m)) as Hrules.
  { intros m (_ & (Hr & _)%app_eq_nil)%app_eq_nil. apply Forall_forall. intros rule Hin.
    apply elem_of_nil_inv. intros x Hx. assert (x ∈ md_rules m ≫= Rule_validate) as Hb
      by (apply list_elem_of_bind; by exists rule). rewrite Hr in Hb. by apply elem_of_nil in Hb. }
  destruct rt; simpl; intros Hok.
  - case_bool_decide as Hempty; [|destruct allow];
      apply res_map_Ok in Hok as (p & (u & Hv & [= <-])%res_bind_Ok & ->);
      destruct u; apply validated_Ok in Hv; split_and!; try done; try (by apply Hrules in Hv); simpl.
    rewrite Hempty. by destruct allow.
  - apply res_map_Ok in Hok as (p & (u & Hv & [= <-])%res_bind_Ok & ->).
    destruct u. apply validated_Ok in Hv. split_and!; try done; [by destruct allow|by apply Hrules].
Qed.

Lemma title_checked `{HostnameValidator} title :
  validate_policy_title title = Ok tt ↔
  hostname_is_valid title = true ∧ no_uppercase title = true ∧
  contains_char title "_"%char = false ∧ String.length title ≤ 253.
Proof.
  rewrite /validate_policy_title /is_valid_k8s_hostname.
  destruct (hostname_is_valid title), (no_uppercase title), (contains_char title "_"%char);
    simpl; try naive_solver. case_bool_decide; naive_solver.
Qed.

Section manifest_lemmas.
Context `{UL : UrlLib, SE : SourceEnv, OL : OciLib, SH : Sha256, CE : CommandEnv}.
Context `{WP : WasmParser, HV : HostnameValidator, MY : ManifestYaml}.
Context (root : Components).

(** C35. The resource that [kwctl scaffold manifest] prints deploys the policy of the store
    with what its own metadata declares: the rules, whether it mutates, whether it is
    audited. It is of the kind that was asked for, its name is one Kubernetes accepts, its
    rules are valid, and it grants the cluster resources of the metadata only to a
    cluster-wide policy, and only when the user allowed it. *)
Theorem manifest_least_privilege fs name rt settings title allow r
    (Hok : manifest_resource root fs name rt settings title allow = Ok r) :
  ∃ uri path m yml,
    get_uri root fs name = Ok uri ∧ wasm_path root fs uri = Ok path ∧
    metadata_at fs path = Ok (Some m) ∧ settings_of_yaml (unwrap_or "{}" settings) = Ok yml ∧
    deployed_as r = rt ∧
    deployed_rules r = (uri, yml, md_rules m, md_mutating m, md_background_audit m) ∧
    Forall (λ rule, Rule_validate rule = []) (md_rules m) ∧
    (∀ car, car ∈ granted r ↔
      allow = true ∧ rt = TypeClusterAdmissionPolicy ∧ car ∈ md_context_aware_resources m) ∧
    (∀ t, om_name (resource_meta r) = Some t →
      hostname_is_valid t = true ∧ no_uppercase t = true ∧ contains_char t "_"%char = false ∧
      String.length t ≤ 253).
Proof.
  rewrite /manifest_resource in Hok.
  apply res_bind_Ok in Hok as (uri & Huri%map_err_Ok & Hok).
  apply res_bind_Ok in Hok as (path & Hpath%map_err_Ok & Hok).
  apply res_bind_Ok in Hok as (found & Hfound%map_err_Ok & Hok).
  apply res_bind_Ok in Hok as (m & ->%ok_or_Ok & Hok).
  apply res_bind_Ok in Hok as (yml & Hyml%map_err_Ok & Hok).
  apply res_bind_Ok in Hok as ([] & Htitle & Hok%map_err_Ok%generate_resource_Ok).
  destruct Hok as (Hkind & Hmeta & Hrules & Hgrant & Hvalid).
  exists uri, path, m, yml. split_and!; try done.
  - intros car. rewrite Hgrant. destruct allow, rt; set_solver.
  - intros t. rewrite Hmeta /=. intros Ht. rewrite Ht in Htitle.
    by apply map_err_Ok, title_checked in Htitle.
Qed.
End manifest_lemmas.

(** A value that is kept for the registry. *)
Definition kept (v : string) : option string := if single_line v then Some (trim v) else None.

Lemma filtered_lookup (an : gmap string string) k :
  (trim <$> filter (λ kv, single_line kv.2) an) !! k = an !! k ≫= kept.
Proof.
  rewrite lookup_fmap map_lookup_filter /kept. destruct (an !! k) as [v|]; simpl; [|done].
  by destruct (single_line v).
Qed.

(** The annotations that go to the registry: those of the metadata that fit on one line,
    trimmed, and the source of the policy as the source of the image unless the metadata has
    one that fits. None of them has a line break or outer white space. *)
Theorem pushed_annotations_exact an k :
  build_oci_annotations an !! k =
    match an !! k ≫= kept with
    | Some v => Some v
    | None => if decide (k = IMAGE_SOURCE) then an !! POLICY_SOURCE ≫= kept else None
    end ∧
  ∀ v, build_oci_annotations an !! k = Some v → contains_char v newline = false ∧ trim v = v.
Proof.
  assert (build_oci_annotations an !! k =
    match an !! k ≫= kept with
    | Some v => Some v
    | None => if decide (k = IMAGE_SOURCE) then an !! POLICY_SOURCE ≫= kept else None
    end) as Heq.
  { rewrite /build_oci_annotations !filtered_lookup. case_decide as Hk.
    - subst. destruct (an !! POLICY_SOURCE ≫= kept), (an !! IMAGE_SOURCE ≫= kept) eqn:Hi;
        rewrite ?lookup_insert_eq ?filtered_lookup ?Hi //.
    - destruct (an !! POLICY_SOURCE ≫= kept), (an !! IMAGE_SOURCE ≫= kept);
        rewrite ?lookup_insert_ne // filtered_lookup; by destruct (_ ≫= _). }
  split; [done|]. intros v. rewrite Heq. clear Heq.
  assert (∀ o : option string, o ≫= kept = Some v → contains_char v newline = false ∧ trim v = v) as Hkept.
  { intros [w|]; [|done]. simpl. rewrite /kept. destruct (single_line w) eqn:Hs; [|done]. intros [= <-].
    split; [by apply trimmed_line|apply trim_idemp]. }
  destruct (an !! k ≫= kept) eqn:Hk; [intros [= ->]; eauto|]. case_decide; [eauto|done].
Qed.

Section push_lemmas.
Context `{UL : UrlLib, SE : SourceEnv, OL : OciLib, HI : !HostIO, OP : !OciPush}.
Context `{WP : WasmParser, WA : Walrus, KT : !KwctlTools, MM : Memmem}.

(** The policies that may be pushed. *)
Definition pushable (metadata : option Metadata) (wasm_path : string) (force : bool) : Prop :=
  is_Some metadata ∨ force = true ∧ is_rego_policy BackendDetector_default wasm_path = Ok false.

(** A policy without metadata is pushed only when forced, and a Rego one never is: the
    push is refused before any connection to the registry, which stays as it was. A policy
    that may be pushed goes to the registry with the annotations of its metadata. *)
Theorem push_needs_metadata wasm_path uri sources force policy metadata st
    (Hread : fs_read_bytes wasm_path = Ok policy) (Hmd : metadata_from_contents policy = Ok metadata) :
  (pushable metadata wasm_path force →
    kwctl_push wasm_path uri sources force st =
    m_bind (Registry.push policy uri sources (build_oci_annotations <$> (metadata ≫= md_annotations)))
      (λ r, m_ret (map_err PushRegistry r)) st) ∧
  (¬ pushable metadata wasm_path force → ∃ e, kwctl_push wasm_path uri sources force st = Some (Err e, st)).
Proof.
  rewrite /kwctl_push /metadata_from_read Hread /= Hmd /pushable /mr_bind /m_bind /=.
  destruct metadata as [m|]; simpl; [by split; [|intros []; left]|].
  destruct force; simpl; [|by split; [intros [[]|[]]|eauto]].
  rewrite /can_be_force_pushed_without_metadata.
  destruct (is_rego_policy BackendDetector_default wasm_path) as [[]|e]; simpl.
  - split; [by intros [[]|[]]|eauto].
  - split; [done|]. intros []. by right.
  - split; [by intros [[]|[]]|eauto].
Qed.
End push_lemmas.

(** ** Examples *)

(** The contents of a module is the JSON of its metadata; an empty module has none. *)
Definition example_metadata : Metadata :=
  {| md_protocol_version := Some ProtocolV1;
     md_rules := [{| r_api_groups := [""]; r_api_versions := ["v1"]; r_resources := ["pods"];
                     r_operations := [OpCreate]; r_scope := None |}];
     md_annotations := Some {[POLICY_TITLE := "privileged-pods"; POLICY_SEVERITY := "high"]};
     md_mutating := false; md_background_audit := true; md_execution_mode := KubewardenWapc;
     md_policy_type := Kubernetes;
     md_context_aware_resources := {[ {| car_api_version := "v1"; car_kind := "Namespace" |} ]};
     md_host_capabilities := None; md_minimum_kubewarden_version := None |}.

#[local] Instance example_parser : WasmParser := {
  parse_payloads b := match b with
    | [] => [Ok OtherPayload; Ok (ExportSection [Ok "memory"; Ok "opa_eval"])]
    | _ => [Ok OtherPayload; Ok (CustomSection KUBEWARDEN_CUSTOM_SECTION_METADATA b)]
    end;
  metadata_of_json _ := Ok example_metadata;
  ferricel_abi_version _ := Ok None; FERRICEL_ABI_VERSION := 2;
}.

#[local] Instance example_hostnames : HostnameValidator := λ s, negb (contains_char s " "%char).

#[local] Instance example_yaml : ManifestYaml := {
  settings_of_yaml _ := Ok [];
  resource_to_yaml r := Ok "kind: ClusterAdmissionPolicy";
}.

#[local] Existing Instance PolicyStore.plain_sha256.
#[local] Existing Instance PolicyStore.example_command_env.

Definition example_manifest (rt : ManifestType) (allow : bool) :=
  manifest_resource (UL := simple_url) (OL := simple_oci) example_root example_fs
    "registry://ghcr.io/kw/one" rt None None allow.

Lemma manifest_least_privilege_witness :
  ∃ r, example_manifest TypeClusterAdmissionPolicy true = Ok r ∧
    {| car_api_version := "v1"; car_kind := "Namespace" |} ∈ granted r.
Proof.
  assert (∃ r, example_manifest TypeClusterAdmissionPolicy true = Ok r) as [r Hr]
    by (eexists; vm_compute; reflexivity).
  assert (wasm_path (UL := simple_url) example_root example_fs "registry://ghcr.io/kw/one" =
    Ok ["cache"; "store"; "registry"; "ghcr.io"; "kw"; "one"]) as Hwasm by (vm_compute; reflexivity).
  assert (metadata_at example_fs ["cache"; "store"; "registry"; "ghcr.io"; "kw"; "one"] = Ok (Some example_metadata))
    as Hat by (vm_compute; reflexivity).
  exists r. split; [exact Hr|].
  destruct (manifest_least_privilege (UL := simple_url) (OL := simple_oci) _ _ _ _ _ _ _ _ Hr)
    as (uri & path & m & yml & Huri & Hpath & Hm & _ & _ & _ & _ & Hg & _).
  apply Hg. split; [reflexivity|]. split; [reflexivity|].
  assert (get_uri (OL := simple_oci) example_root example_fs "registry://ghcr.io/kw/one" =
    Ok "registry://ghcr.io/kw/one") as Hu by (vm_compute; reflexivity).
  rewrite Hu in Huri. injection Huri as <-. rewrite Hwasm in Hpath. injection Hpath as <-.
  rewrite Hat in Hm. injection Hm as <-. set_solver.
Defined.

Example unallowed_manifest_grants_nothing :
  res_map granted (example_manifest TypeClusterAdmissionPolicy false) = Ok ∅.
Proof. vm_compute. reflexivity. Qed.

(** A module that exports [opa_eval], without metadata. *)
#[local] Instance example_tools : @KwctlTools Annotate.list_walrus example_parser := {|
  fs_read_bytes _ := Ok [];
  fs_read_to_string path := Ok path;
  ferricel_inspect _ := Err "not used";
  query_protocol_version _ := Err "not used";
  module_from_buffer _ := Err "not used";
  metadata_of_yaml _ := Err "not used";
  metadata_to_json _ := Err "not used";
  emit_wasm_file _ _ := Err "not used";
  debug_path path := path;
  debug_validation_errors _ := "";
|}.

Definition push_example :=
  kwctl_push (UL := simple_url) (SE := simple_env) (OP := simple_push) (KT := example_tools) "policy.wasm"
    "registry://ghcr.io/kw/one:v1" None true (fresh_state [] []).

Lemma push_needs_metadata_witness :
  ∃ e, push_example = Some (Err e, fresh_state [] []).
Proof.
  apply (push_needs_metadata (UL := simple_url) (SE := simple_env) (OP := simple_push) (KT := example_tools) "policy.wasm"
    "registry://ghcr.io/kw/one:v1" None true [] None (fresh_state [] []) eq_refl eq_refl).
  intros [[m [=]]|[_ Hrego]]. vm_compute in Hrego. discriminate.
Defined.
