(* ===== verification/Inspect.v ===== *)
(** * Inspecting policies with kwctl

    Models [crates/kwctl/src/inspect.rs] (what a policy says about itself, and its
    signatures) and [policies.rs] (the table of the local store).

    What is printed is a list of blocks: the tables with their rows, the texts and the
    markdown that [prettytable] and [termimad] render. The YAML, ferricel and the printed form
    of library types are the parameter [InspectLib]. *)

From S2P Require Import Prelude Bytes RustStr Json PolicyId Request HostCapabilities Callback Metadata.
From S2P Require Import VerificationConstraints Sources Registry Fetcher Verify Startup WasmScanner Annotate.
From S2P Require Import MatchResources VapScaffold PolicyStore Manifest.

(** ** Output *)

Inductive Block :=
| Line (text : string)
| Text (text : string)
| Table (rows : list (list string))
| Markdown (no_color : bool) (text : string).

(** What was printed when a function returned, and its result. *)
Definition Out : Type := list Block * result unit string.

Definition printed (l : list Block) : Out := (l, Ok tt).

Definition out_seq (o1 o2 : Out) : Out :=
  match o1.2 with Ok _ => (o1.1 ++ o2.1, o2.2) | Err _ => o1 end.

Definition out_bind {A} (r : result A string) (f : A → Out) : Out :=
  match r with Ok a => f a | Err e => ([], Err e) end.

Declare Scope out_scope.
Delimit Scope out_scope with out.
Infix "+>" := out_seq (at level 60, right associativity) : out_scope.

(** ** Parameters *)

(** What [ferricel_core::inspect] says of a module. *)
Record InspectedModule := {
  im_producers : list (string * list (string * string));
  im_vap_source : option string;
  im_vap_variables : list string;
}.

(** [FerricelYaml]: what is skipped when empty is [None]. *)
Record FerricelYaml := {
  fy_producers : list (string * list (string * string));
  fy_vap_source : option string;
  fy_vap_variables : option (list string);
}.

Class InspectLib := {
  protocol_text : ProtocolVersion → string;
  version_text : Version → string;
  yaml_of_metadata : Metadata → result string string;
  yaml_of_rules : list Rule → result string string;
  yaml_of_resources : gset ContextAwareResource → result string string;
  yaml_of_ferricel : FerricelYaml → result string string;
  (** the mapping of [signatures] to the manifest *)
  yaml_of_signatures : list OciDescriptor → result string string;
  inspect_module : bytes → result InspectedModule string;
  (** the other fields of a descriptor *)
  descriptor_size : OciDescriptor → Z;
  descriptor_annotations : OciDescriptor → option (gmap string string);
  (** [Debug] of an error of the metadata *)
  debug_metadata_error : MetadataError → string;
  (** [humansize::format_size] *)
  format_size : nat → string;
}.

Inductive OutputType := OutputYaml | OutputPretty.

Definition OutputType_try_from (value : option string) : result OutputType string :=
  match value with
  | None => Ok OutputPretty
  | Some v => if decide (v = "yaml") then Ok OutputYaml else Err ("Invalid output format '" +:+ v +:+ "'")
  end.

(** ** [MetadataPrinter] *)

Definition POLICY_DESCRIPTION : string := "io.kubewarden.policy.description".
Definition POLICY_AUTHOR : string := "io.kubewarden.policy.author".
Definition POLICY_URL : string := "io.kubewarden.policy.url".
Definition POLICY_LICENSE : string := "io.kubewarden.policy.license".
Definition POLICY_USAGE : string := "io.kubewarden.policy.usage".

Definition pretty_annotations : list string :=
  [POLICY_TITLE; POLICY_DESCRIPTION; POLICY_AUTHOR; POLICY_URL; POLICY_SOURCE; POLICY_LICENSE].

(** [str::trim_start_matches] with a prefix that is not empty. *)
Fixpoint trim_start_matches (fuel : nat) (s prefix : string) : string :=
  match fuel with
  | 0 => s
  | S fuel => match strip_prefix s prefix with Some s => trim_start_matches fuel s prefix | None => s end
  end.

Definition annotation_to_row_key (text : string) : string :=
  let out := text +:+ ":" in trim_start_matches (String.length out) out "io.kubewarden.policy.".

Definition PolicyType_to_string (t : PolicyType) : string :=
  match t with Kubernetes => "kubernetes" | Raw => "raw" end.

Definition bool_text (b : bool) : string := if b then "true" else "false".

(** One of the annotations of the details: its row, and the others. *)
Definition detail_row (acc : gmap string string * list (list string)) (annotation : string) :
    gmap string string * list (list string) :=
  match acc.1 !! annotation with
  | Some value => (delete annotation acc.1, acc.2 ++ [[annotation_to_row_key annotation; value]])
  | None => acc
  end.

Section printers.
Context `{IL : InspectLib}.
Implicit Types (metadata : Metadata) (no_color : bool).

Definition generic_info metadata : Out :=
  out_bind (ok_or (md_protocol_version metadata) "Invalid policy: protocol_version not defined")
  (λ protocol_version,
    let '(annotations, rows) :=
      foldl detail_row (unwrap_or ∅ (md_annotations metadata), [["Details"]]) pretty_annotations in
    let rows := rows ++
      [["mutating:"; bool_text (md_mutating metadata)];
       ["background audit support:"; bool_text (md_background_audit metadata)];
       ["context aware:"; bool_text (negb (bool_decide (md_context_aware_resources metadata = ∅)))];
       ["policy type:"; PolicyType_to_string (md_policy_type metadata)];
       ["execution mode:"; PolicyExecutionMode_to_string (md_execution_mode metadata)]] ++
      (if decide (md_execution_mode metadata = KubewardenWapc)
       then [["protocol version:"; protocol_text protocol_version]] else []) ++
      match md_minimum_kubewarden_version metadata with
      | Some v => [["minimum kubewarden version:"; version_text v]]
      | None => []
      end in
    let annotations := delete POLICY_USAGE annotations in
    printed [Table (rows ++
      if decide (annotations = ∅) then []
      else [[]; ["Annotations"]] ++ ((λ '(k, v), [k; v]) <$> btree_iter annotations))]).

Definition yaml_fence (yaml : string) : string :=
  "```yaml" +:+ String Manifest.newline yaml +:+ "```".

Definition print_rules metadata no_color : Out :=
  out_bind (yaml_of_rules (md_rules metadata)) (λ rules_yaml,
    printed [Table [["Rules"]]; Markdown no_color (yaml_fence rules_yaml)]).

Definition print_context_aware_resources metadata no_color : Out :=
  out_bind (yaml_of_resources (md_context_aware_resources metadata)) (λ resources_yaml,
    printed [Table [["Context Aware"]];
      Line "The policy requires access to the following Kubernetes resources at evaluation time:";
      Markdown no_color (yaml_fence resources_yaml);
      Line "To avoid abuses, review carefully what the policy requires access to."]).

Definition print_usage metadata no_color : Out :=
  match md_annotations metadata ≫= lookup POLICY_USAGE with
  | None => printed []
  | Some usage => printed [Table [["Usage"]];
      Markdown no_color ("---" +:+ String Manifest.newline usage +:+ String Manifest.newline "---")]
  end.

Definition print_metadata (output : OutputType) metadata no_color : Out :=
  match output with
  | OutputYaml => out_bind (yaml_of_metadata metadata) (λ yaml, printed [Text yaml])
  | OutputPretty =>
      (generic_info metadata +> printed [Line ""] +>
       print_rules metadata no_color +> printed [Line ""] +>
       (if decide (md_context_aware_resources metadata = ∅) then printed []
        else print_context_aware_resources metadata no_color +> printed [Line ""]) +>
       print_usage metadata no_color)%out
  end.

(** ** [SignaturesPrinter] *)

Definition layer_rows (layer : OciDescriptor) : list (list string) :=
  [["Digest: "; od_digest layer]; ["Media type: "; od_media_type layer];
   ["Size: "; pretty (descriptor_size layer)]] ++
  match descriptor_annotations layer with
  | Some annotations => ["Annotations"] :: ((λ '(k, v), [k; v]) <$> btree_iter annotations)
  | None => []
  end.

Definition print_signatures (output : OutputType) (layers : list OciDescriptor) : list Block :=
  match output with
  | OutputYaml => match yaml_of_signatures layers with Ok yaml => [Text yaml] | Err _ => [] end
  | OutputPretty =>
      [Line ""; Line "Sigstore signatures"; Line ""] ++
      (layers ≫= λ layer, [Table (layer_rows layer); Line ""])
  end.

(** ** [FerricelPrinter] *)

Definition producer_text (v : string * string) : string :=
  if decide (v.2 = "") then v.1 else v.1 +:+ " " +:+ v.2.

Definition print_ferricel_yaml (info : InspectedModule) : Out :=
  out_bind (yaml_of_ferricel {| fy_producers := im_producers info; fy_vap_source := im_vap_source info;
    fy_vap_variables := match im_vap_variables info with [] => None | l => Some l end |})
    (λ yaml, printed [Text yaml]).

Definition print_ferricel_pretty (info : InspectedModule) no_color : Out :=
  printed ([Table [["Ferricel"]]] ++
    ((λ field, Table [[field.1 +:+ ":"; join ", " (producer_text <$> field.2)]]) <$> im_producers info) ++
    match im_vap_variables info with
    | [] => []
    | variables => [Table [["VAP variables (referenced):"; join ", " variables]]]
    end ++
    match im_vap_source info with
    | Some src => [Line ""; Table [["source:"]]; Markdown no_color (yaml_fence src)]
    | None => []
    end).

Definition print_ferricel (output : OutputType) (info : InspectedModule) no_color : Out :=
  match output with
  | OutputYaml => print_ferricel_yaml info
  | OutputPretty => print_ferricel_pretty info no_color
  end.
End printers.

(** ** The commands *)

Definition NO_METADATA (uri : string) : string :=
  "No Kubewarden metadata found inside of '" +:+ uri +:+ "'." +:+ String Manifest.newline
  "Policies can be annotated with the `kwctl annotate` command.".

Definition MANIFEST_UNKNOWN : string := "OCI API error: manifest unknown on".

Definition CANNOT_DETERMINE (error : string) : string :=
  "Cannot determine if the policy has been signed. There was an error while attempting to fetch its signatures from the remote registry: "
  +:+ error +:+ " ".

Section inspect.
Context `{HI0 : HashIter, UL : UrlLib, SG : Sigstore, SE : SourceEnv, OL : OciLib, HI : !HostIO}.
Context `{CC : !CosignClient, SH : Sha256, KE : CommandEnv, WP : WasmParser, IL : InspectLib}.
Context (root : Components) (store_tree : Host → Node).
(** [ClientBuilder::build] for a configuration. *)
Context (cosign_build : SourcesClientConfig → result unit string).
Implicit Types (fs : Node).

Definition LookupError_to_string (e : LookupError) : string :=
  match e with
  | PolicyMissing uri => "Cannot find policy with uri: " +:+ uri
  | LookupStoreError e => StoreError_to_string e
  | UnknownScheme scheme => "Unknown scheme: " +:+ scheme
  | LookupUrlError e => url_error_to_string e
  | UrlToStringConversionError => "Error while converting URL to string"
  | LookupIoError e => e
  end.

Definition sigstore_auth (a : RegistryAuth) : SigstoreAuth :=
  match a with
  | Anonymous => SigstoreAnonymous
  | Basic username password => SigstoreBasic username password
  | Bearer token => SigstoreBearer token
  end.

Definition fetch_signatures_manifest (uri : string) (sources : option Sources) :
    M St (result (option (list OciDescriptor)) string) :=
  let!? _ := m_ret (cosign_build (sigstore_client_config (unwrap_or Sources_default sources))) in
  let!? image_name := m_ret (ok_or (strip_prefix uri "registry://") "invalid uri") in
  let!? image_ref := m_ret (map_err sigstore_error_to_string (oci_reference_from_str image_name)) in
  let! r := on_host (triangulate image_ref (sigstore_auth (auth image_name))) in
  let!? (cosign_signature_image, _) := m_ret (map_err sigstore_error_to_string r) in
  let! r := Registry.manifest cosign_signature_image sources in
  let!? manifest := m_ret (map_err RegistryError_to_string r) in
  m_ret (Ok (match manifest with ManifestImage layers => Some layers | ManifestImageIndex => None end)).

(** The part of [inspect] that reads the local module. *)
Definition inspect_local fs (uri_or_sha_prefix : string) (output : OutputType) (no_color : bool) :
    Out * option string :=
  match (let? uri := map_path_to_uri root fs uri_or_sha_prefix in
         let? path := wasm_path root fs uri in Ok (uri, path)) with
  | Err e => (([], Err (LookupError_to_string e)), None)
  | Ok (uri, path) =>
      (out_bind (map_err (λ e, "Error parsing policy metadata: " +:+ MetadataError_to_string e) (metadata_at fs path))
        (λ metadata, match metadata with
         | None => ([], Err (NO_METADATA uri))
         | Some metadata =>
             (print_metadata output metadata no_color +>
              (if decide (md_execution_mode metadata = Ferricel) then
                 out_bind (ok_or (file_at fs path) ("cannot read wasm file: " +:+ NO_ENTRY)) (λ wasm,
                 out_bind (map_err (λ e, "cannot inspect ferricel module: " +:+ e) (inspect_module wasm)) (λ info,
                   printed [Line ""] +> print_ferricel output info no_color))
               else printed []))%out
         end), Some uri)
  end.

(** The signatures are a report: their absence is not an error. *)
Definition signatures_blocks (output : OutputType)
    (signatures : result (option (list OciDescriptor)) string) : list Block :=
  match signatures with
  | Ok (Some layers) => print_signatures output layers
  | Ok None => []
  | Err error =>
      [Line ""; if starts_with error MANIFEST_UNKNOWN then Line "No sigstore signatures found"
                else Line (CANNOT_DETERMINE error)]
  end.

Definition inspect (uri_or_sha_prefix : string) (output : OutputType) (sources : option Sources)
    (no_color no_signatures : bool) : M St Out :=
  let! fs := host_query store_tree in
  match inspect_local fs uri_or_sha_prefix output no_color with
  | ((blocks, Ok _), Some uri) =>
      if no_signatures then m_ret (printed blocks) else
      let! signatures := fetch_signatures_manifest uri sources in
      m_ret (printed (blocks ++ signatures_blocks output signatures))
  | (out, _) => m_ret out
  end.

(** ** [policies.rs] *)

Definition policy_row fs (policy : StoredPolicy) : result (list string) string :=
  let? metadata := map_err (λ e, "error processing metadata of policy " +:+ sp_uri policy +:+ ": " +:+
    debug_metadata_error e) (metadata_at fs (sp_path policy)) in
  let '(mutating, context_aware) := match metadata with
    | Some m => (if md_mutating m then "yes" else "no",
                 if decide (md_context_aware_resources m = ∅) then "no" else "yes")
    | None => ("unknown", "no")
    end in
  let? sha256sum := map_err StoreError_to_string (digest fs policy) in
  let? size := ok_or (length <$> file_at fs (sp_path policy)) NO_ENTRY in
  Ok [sp_uri policy; mutating; context_aware; Stdlib.Strings.String.substring 0 12 sha256sum; format_size size].

Definition list_policies fs : Out :=
  out_bind (map_err StoreError_to_string (store_list root fs)) (λ policies,
    if decide (policies = []) then printed [] else
    out_bind (try_fold (λ rows policy, let? row := policy_row fs policy in Ok (rows ++ [row])) [] policies)
      (λ rows, printed [Table (["Policy"; "Mutating"; "Context aware"; "SHA-256"; "Size"] :: rows)])).
End inspect.

(** ** Properties *)

(** The details take their annotations out, in order. *)
Lemma detail_rows l an rows :
  NoDup l →
  foldl detail_row (an, rows) l =
    (filter (λ kv, kv.1 ∉ l) an, rows ++ omap (λ k, (λ v, [annotation_to_row_key k; v]) <$> an !! k) l).
Proof.
  revert an rows. induction l as [|k l IH]; intros an rows; simpl.
  { intros _. rewrite app_nil_r. f_equal. symmetry. apply map_filter_id. intros. apply not_elem_of_nil. }
  intros [Hk Hnd]%NoDup_cons. rewrite /detail_row /=. destruct (an !! k) as [v|] eqn:Hv; rewrite IH //=.
  - f_equal.
    + apply map_eq. intros i. apply option_eq. intros x.
      rewrite !map_lookup_filter_Some lookup_delete_Some not_elem_of_cons. naive_solver.
    + rewrite -app_assoc /=. do 2 f_equal. apply list_omap_ext, Forall2_same_length_lookup_2; [done|].
      intros i x y Hx Hy. simplify_eq. rewrite lookup_delete_ne //.
      intros ->. apply Hk. by eapply list_elem_of_lookup_2.
  - f_equal. apply map_eq. intros i. apply option_eq. intros x.
    rewrite !map_lookup_filter_Some not_elem_of_cons. naive_solver.
Qed.

Section shown.
Context `{IL : InspectLib}.

(** Where an annotation is shown. *)
Definition shown_key (k : string) : string :=
  if decide (k ∈ pretty_annotations) then annotation_to_row_key k else k.

Lemma pretty_annotations_NoDup : NoDup pretty_annotations.
Proof. apply (bool_decide_unpack _). vm_compute. exact I. Qed.

Lemma generic_info_rows metadata version :
  md_protocol_version metadata = Some version →
  ∃ rows, generic_info metadata = printed [Table rows] ∧
    ∀ k v, unwrap_or ∅ (md_annotations metadata) !! k = Some v → k ≠ POLICY_USAGE → [shown_key k; v] ∈ rows.
Proof.
  intros Hv. rewrite /generic_info Hv. cbn [ok_or out_bind].
  rewrite detail_rows; [|apply pretty_annotations_NoDup]. eexists. split; [done|].
  intros k v Hk Hu. rewrite /shown_key. case_decide as Hp.
  - apply elem_of_app. left. apply elem_of_app. left. apply elem_of_app. right.
    apply list_elem_of_omap. exists k. by rewrite Hk.
  - apply elem_of_app. right. set (rest := delete POLICY_USAGE _).
    assert (rest !! k = Some v) as Hr.
    { apply lookup_delete_Some. split; [done|]. by apply map_lookup_filter_Some. }
    rewrite decide_False; [|intros He; by rewrite He lookup_empty in Hr].
    apply elem_of_app. right. apply list_elem_of_fmap. exists (k, v). split; [done|]. by apply elem_of_btree_iter.
Qed.

(** The readable form of [kwctl inspect] shows the metadata whole: every annotation is in
    the table, under its name or its short one, or is the usage, which is rendered; what the
    policy can read of the cluster is shown whenever there is something. *)
Theorem inspect_shows_metadata metadata version rules resources no_color :
  md_protocol_version metadata = Some version →
  yaml_of_rules (md_rules metadata) = Ok rules →
  yaml_of_resources (md_context_aware_resources metadata) = Ok resources →
  ∃ blocks, print_metadata OutputPretty metadata no_color = (blocks, Ok tt) ∧
    Markdown no_color (yaml_fence rules) ∈ blocks ∧
    (md_context_aware_resources metadata ≠ ∅ → Markdown no_color (yaml_fence resources) ∈ blocks) ∧
    ∀ k v, unwrap_or ∅ (md_annotations metadata) !! k = Some v →
      if decide (k = POLICY_USAGE)
      then Markdown no_color ("---" +:+ String Manifest.newline v +:+ String Manifest.newline "---") ∈ blocks
      else ∃ rows, Table rows ∈ blocks ∧ [shown_key k; v] ∈ rows.
Proof.
  intros (rows & Hinfo & Hrows)%generic_info_rows Hrules Hres.
  rewrite /print_metadata Hinfo /print_rules Hrules /print_context_aware_resources Hres /out_bind.
  assert (print_usage metadata no_color =
    ((print_usage metadata no_color).1, Ok tt)) as Hu by (rewrite /print_usage; by case_match).
  rewrite Hu. match goal with |- ∃ _, ?o = _ ∧ _ => exists o.1 end.
  split; [by case_decide|]. split_and!.
  - case_decide; cbn; set_solver.
  - intros Hne. rewrite decide_False //. cbn. set_solver.
  - intros k v Hk. case_decide as Hku; [subst k|].
    + assert (Markdown no_color ("---" +:+ String Manifest.newline v +:+ String Manifest.newline "---")
        ∈ (print_usage metadata no_color).1).
      { rewrite /print_usage. destruct (md_annotations metadata); [|done]. simpl in *. rewrite Hk. set_solver. }
      case_decide; cbn; set_solver.
    + exists rows. split; [|by apply Hrows]. case_decide; cbn; set_solver.
Qed.
End shown.

Section reported.
Context `{HI0 : HashIter, UL : UrlLib, SG : Sigstore, SE : SourceEnv, OL : OciLib, HI : !HostIO}.
Context `{CC : !CosignClient, SH : Sha256, KE : CommandEnv, WP : WasmParser, IL : InspectLib}.
Context (root : Components) (store_tree : Host → Node).
Context (cosign_build : SourcesClientConfig → result unit string).

(** A failure to fetch the signatures never makes the inspection fail: the result and the
    beginning of the output are those of the local part. *)
Theorem signatures_do_not_fail name output sources no_color no_signatures st out st' :
  inspect root store_tree cosign_build name output sources no_color no_signatures st = Some (out, st') →
  out.2 = (inspect_local root (store_tree (host st)) name output no_color).1.2 ∧
  (inspect_local root (store_tree (host st)) name output no_color).1.1 `prefix_of` out.1.
Proof.
  intros (fs & st1 & [= <- <-] & Hrun)%m_bind_Some. revert Hrun.
  destruct (inspect_local _ _ _ _ _) as [[blocks r] uri]. destruct r as [[]|e].
  - destruct uri as [uri|]; [|by intros [= <- _]]. destruct no_signatures; [by intros [= <- _]|].
    intros (signatures & st2 & _ & [= <- _])%m_bind_Some. split; [done|]. by apply prefix_app_r.
  - by intros [= <- _].
Qed.

(** The errors of the registry have a prefix that the report does not expect: when the
    registry has no signatures for the policy, the report is not that there are none. *)
Theorem missing_signatures_reported_as_failure output rest :
  signatures_blocks output
    (map_err RegistryError_to_string (Err (OCIRegistryError (MANIFEST_UNKNOWN +:+ rest)))) =
  [Line ""; Line (CANNOT_DETERMINE ("Fail to interact with OCI registry: " +:+ MANIFEST_UNKNOWN +:+ rest))].
Proof. reflexivity. Qed.

(** The credentials of a registry are looked up under the whole name of the image. When there
    are none under that name, the registry is asked anonymously, whatever is configured for it. *)
Theorem signatures_fetched_anonymously uri image image_ref sources e st h' r :
  cosign_build (sigstore_client_config (unwrap_or Sources_default sources)) = Ok tt →
  strip_prefix uri "registry://" = Some image →
  oci_reference_from_str image = Ok image_ref →
  get_credential image = Err e →
  triangulate image_ref SigstoreAnonymous (host st) = (Err r, h') →
  fetch_signatures_manifest cosign_build uri sources st =
    Some (Err (sigstore_error_to_string r), {| host := h'; connections := connections st |}).
Proof.
  intros Hc Hi Hr He Ht. rewrite /fetch_signatures_manifest Hc Hi /mr_bind /m_bind /= Hr /=.
  by rewrite /on_host /auth He /= Ht.
Qed.
End reported.

(** ** Examples *)

(** A registry that asks for the credentials that are configured for it. *)
Definition private_oci : OciLib := {|
  Reference := string;
  reference_try_from image := Ok image;
  reference_registry _ := "ghcr.io"; reference_repository _ := "kubewarden/pol";
  reference_tag _ := Some "v1"; reference_whole image := image;
  get_credential registry := if decide (registry = "ghcr.io") then Ok (UsernamePassword "user" "secret")
    else Err "no credentials for this server";
|}.

Definition private_host : @HostIO private_oci := {|
  Host := unit;
  pull_manifest _ _ _ h := (Ok (ManifestImage []), h);
  fetch_manifest_digest _ _ _ h := (Err "unused", h);
  pull _ _ _ _ h := (Err "unused", h); http_get _ _ h := (Err "unused", h);
  path_exists _ _ := false; path_is_dir _ _ := false; read_file _ _ := Err "unused";
  write_file _ _ h := (Err "unused", h); create_dir_all _ h := (Err "unused", h);
|}.

Definition private_cosign : @CosignClient simple_sigstore private_oci private_host := {|
  OciReference := string;
  oci_reference_from_str s := Ok s;
  triangulate _ a h := match a with
    | SigstoreAnonymous => (Err (OtherSigstoreError "Not authorized"), h)
    | _ => (Ok ("ghcr.io/kubewarden/pol:sha256-0.sig", "sha256:0"), h)
    end;
  trusted_signature_layers _ _ h := (Ok [], h);
|}.

Definition fetched {A E S} (r : option (result A E * S)) : option bool :=
  match r with Some (r, _) => Some (is_ok r) | None => None end.

Definition private_state : @St private_oci private_host :=
  {| host := (tt : @Host private_oci private_host); connections := [] |}.

(** The verification of the policy reaches the registry, its inspection does not. *)
Example private_signatures_not_inspected :
  fetched (fetch_sigstore_remote_data (OL := private_oci) (HI := private_host) (CC := private_cosign)
    "registry://ghcr.io/kubewarden/pol:v1" private_state) = Some true ∧
  fetched (fetch_signatures_manifest (UL := simple_url) (SE := simple_env) (OL := private_oci) (HI := private_host)
    (CC := private_cosign) (λ _, Ok tt) "registry://ghcr.io/kubewarden/pol:v1" None
    private_state) = Some false.
Proof. split; vm_compute; reflexivity. Qed.
