(* ===== verification/PullCommand.v ===== *)
(** * The commands of kwctl that reach a registry

    Models the arms of [main] in [crates/kwctl/src/main.rs] that verify, pull, push or look
    up a policy ([verify], [pull], [push], [digest], [scaffold manifest]) with
    [pull_command], [pull_if_needed] and [scaffold_manifest_command], [pull.rs], and
    [scaffold/verification_config.rs].

    The flags are the records [RemoteArgs] and [ManifestArgs], which [KwctlMain] reads in the
    matches of [clap]. The local store is seen twice, as in [PolicyStore] and [Fetcher]: as the
    files of the host, which pulling writes, and as a tree that is looked up; the parameter
    [store_tree] is the tree of a host. The text of an error does not have the causes that
    [anyhow] appends to it. *)

From S2P Require Import Prelude Bytes Json PolicyId AdmissionResponse ResponseHandler Request.
From S2P Require Import HostCapabilities Callback Runtime GroupEvaluator Config RustStr.
From S2P Require Import VerificationConstraints Sources Registry Fetcher Verify Downloader Metadata Startup.
From S2P Require Import WasmScanner Annotate CommandLine KwctlRun KwctlSettings PolicyStore Manifest.

(** The flags every command that reaches a registry has. *)
Record RemoteArgs := {
  rem_sources_path : option string;
  rem_docker_config_json_path : option string;
  rem_verification : VerificationArgs;
  rem_sigstore_trust_config : option string;
}.

(** The flags of [kwctl scaffold manifest]. *)
Record ManifestArgs := {
  ma_uri_or_sha_prefix : string;
  ma_type : string;
  ma_settings_path : option string;
  ma_settings_json : option string;
  ma_title : option string;
  ma_allow_context_aware : bool;
}.

Inductive CommandError :=
| CommandText (e : string)
| CommandLookup (e : LookupError)
| CommandManifest (e : ManifestError)
| CommandPush (e : PushError)
| CommandRegistry (e : RegistryError).

(** [PathBuf] of [--output-path]. *)
Definition destination_of (output_path : option string) : PullDestination :=
  match output_path with Some path => LocalFile path | None => MainStore end.

Definition push_destination (uri : string) : string :=
  if starts_with uri "registry://" then uri else "registry://" +:+ uri.

(** [scaffold/verification_config.rs]: the configuration that is printed. *)
Definition scaffolded_verification_config `{UL : UrlLib} : VersionedVerificationConfig :=
  V1 {| all_of := Some [GithubAction "kubewarden" None None]; any_of := None |}.

Section commands.
Context `{HI0 : HashIter, UL : UrlLib, SG : Sigstore, SE : SourceEnv, OL : OciLib, HI : !HostIO}.
Context `{CC : !CosignClient, YL : !YamlLib, SH : Sha256, CE : CliEnv, RE : RunEnv}.
Context `{KE : CommandEnv, WP : WasmParser, HV : HostnameValidator, MY : ManifestYaml}.
Context `{OP : !OciPush, WA : Walrus, KT : !KwctlTools, MM : Memmem}.
Context (default_store_root : string) (root : Components) (store_tree : Host → Node).
(** [Verifier::new] with a trust root. *)
Context (verifier_new : option TrustRoot → option Sources → result Verifier string).
Implicit Types (a : RemoteArgs) (env : gmap string string).

(** A command with the sources of its flags; the environment of the process, which the
    credentials of a registry change, is threaded. *)
Definition with_sources {A} a env (command : option Sources → M St (result A CommandError)) :
    M St (result A CommandError * gmap string string) :=
  let '(sources, env) := remote_server_options (rem_sources_path a) (rem_docker_config_json_path a) env in
  let! r := match sources with
    | Err e => m_ret (Err (CommandText (SourceError_to_string e)))
    | Ok sources => command sources
    end in
  m_ret (r, env).

Definition cannot_be_validated (uri e : string) : CommandError :=
  CommandText ("Policy " +:+ uri +:+ " cannot be validated" +:+ Verify.newline +:+ e).

(** The verification of [pull] and of [verify]. *)
Definition verify_uri a (sources : option Sources) (config : VerificationConfigV1) (uri : string) :
    M St (result string CommandError) :=
  let!? trust_root := m_ret (map_err CommandText (build_sigstore_trust_root (rem_sigstore_trust_config a))) in
  let! r := verify_policy (verifier_new trust_root) uri sources config in
  m_ret (map_err (cannot_be_validated uri) r).

(** [pull::pull] *)
Definition kwctl_pull (uri : string) (sources : option Sources) (destination : PullDestination) :
    M St (result Policy CommandError) :=
  let! r := fetch_policy default_store_root uri destination sources in
  m_ret (map_err (λ e, CommandText (FetcherError_to_string e)) r).

Definition pull_with a (destination : PullDestination) (uri : string) (sources : option Sources) :
    M St (result unit CommandError) :=
  let!? verification_options := m_ret (map_err CommandText (build_verification_options (rem_verification a))) in
  match verification_options with
  | None => let!? _ := kwctl_pull uri sources destination in m_ret (Ok tt)
  | Some verification_config =>
      let!? verified_manifest_digest := verify_uri a sources verification_config uri in
      let!? policy := kwctl_pull uri sources destination in
      let!? trust_root := m_ret (map_err CommandText (build_sigstore_trust_root (rem_sigstore_trust_config a))) in
      let! r := verify_local_checksum (verifier_new trust_root) policy sources verified_manifest_digest in
      m_ret (map_err CommandText r)
  end.

Definition pull_command a (uri : string) (destination : PullDestination) env :=
  with_sources a env (pull_with a destination uri).

(** The arms of [main]. *)
Definition main_pull a (uri : string) (output_path : option string) env :=
  pull_command a (normalize_uri uri) (destination_of output_path) env.

Definition main_verify a (uri : string) env : M St (result unit CommandError * gmap string string) :=
  let uri := normalize_uri uri in
  with_sources a env (λ sources,
    let!? found := m_ret (map_err CommandText (build_verification_options (rem_verification a))) in
    let!? verification_options := m_ret (ok_or found (CommandText "could not retrieve sigstore options")) in
    let!? _ := verify_uri a sources verification_options uri in
    m_ret (Ok tt)).

Definition main_digest a (uri : string) env : M St (result string CommandError * gmap string string) :=
  with_sources a env (λ sources,
    let! r := manifest_digest uri sources in
    m_ret (map_err CommandRegistry (res_map (λ digest, uri +:+ "@" +:+ digest) r))).

(** The reference that is printed. *)
Definition main_push a (policy uri : string) (force : bool) env :
    M St (result string CommandError * gmap string string) :=
  with_sources a env (λ sources,
    let! fs := host_query store_tree in
    let!? wasm_uri := m_ret (map_err CommandLookup (map_path_to_uri root fs policy)) in
    let!? wasm_path := m_ret (map_err CommandLookup (wasm_path root fs wasm_uri)) in
    let! r := kwctl_push (path_text wasm_path) (push_destination uri) sources force in
    m_ret (map_err CommandPush r)).

(** Only a policy that is not in the store is pulled. *)
Definition pull_if_needed a (uri_or_sha_prefix : string) env :
    M St (result unit CommandError * gmap string string) :=
  let! fs := host_query store_tree in
  match get_wasm_path root fs uri_or_sha_prefix with
  | Err (PolicyMissing uri) => pull_command a uri MainStore env
  | Err e => m_ret (Err (CommandLookup e), env)
  | Ok _ => m_ret (Ok tt, env)
  end.

(** The settings of the two flags. *)
Definition manifest_settings (m : ManifestArgs) : result (option string) CommandError :=
  match ma_settings_path m, ma_settings_json m with
  | Some _, Some _ => Err (CommandText "'settings-path' and 'settings-json' cannot be used at the same time")
  | Some path, None =>
      map_err (λ e, CommandText ("Error reading settings from " +:+ path +:+ ": " +:+ e))
        (res_map Some (read_text path))
  | None, Some json => Ok (Some json)
  | None, None => Ok None
  end.

Definition manifest_of_args (m : ManifestArgs) (uri_or_sha_prefix : string) (fs : Node) :
    result string CommandError :=
  let? settings := manifest_settings m in
  let? resource_type := map_err CommandText (ManifestType_from_str (ma_type m)) in
  map_err CommandManifest (Manifest.manifest root fs uri_or_sha_prefix resource_type settings (ma_title m)
    (ma_allow_context_aware m)).

Definition scaffold_manifest_command a (m : ManifestArgs) env :
    M St (result string CommandError * gmap string string) :=
  let uri_or_sha_prefix := normalize_uri (ma_uri_or_sha_prefix m) in
  let! (r, env) := pull_if_needed a uri_or_sha_prefix env in
  match r with
  | Err e => m_ret (Err e, env)
  | Ok _ =>
      let! fs := host_query store_tree in
      m_ret (manifest_of_args m uri_or_sha_prefix fs, env)
  end.
End commands.

(** ** Properties *)

Section pulled.
Context `{HI0 : HashIter, UL : UrlLib, SG : Sigstore, SE : SourceEnv, OL : OciLib, HI : !HostIO}.
Context `{CC : !CosignClient, YL : !YamlLib, SH : Sha256, UrL : !UrlLaws, SL : !SigstoreLaws}.
Context `{CE : CliEnv, RE : RunEnv, KE : CommandEnv, WP : WasmParser, HV : HostnameValidator, MY : ManifestYaml}.
Context (default_store_root : string) (root : Components) (store_tree : Host → Node).
Context (verifier_new : option TrustRoot → option Sources → result Verifier string).
Implicit Types (a : RemoteArgs) (env : gmap string string).

Let pull_with := pull_with default_store_root verifier_new.
Let pull_command := pull_command default_store_root verifier_new.

Lemma with_sources_inv {A} a env (command : option Sources → M St (result A CommandError)) st x env' st' :
  with_sources a env command st = Some ((Ok x, env'), st') →
  ∃ sources, remote_server_options (rem_sources_path a) (rem_docker_config_json_path a) env =
      (Ok sources, env') ∧ command sources st = Some (Ok x, st').
Proof.
  rewrite /with_sources. destruct (remote_server_options _ _ _) as [[sources|e] env1].
  - intros (r & st1 & Hc & [= -> -> ->])%m_bind_Some. by exists sources.
  - intros (r & st1 & [= <- <-] & [=])%m_bind_Some.
Qed.

Lemma verify_uri_Ok a sources config uri st digest st' :
  verify_uri verifier_new a sources config uri st = Some (Ok digest, st') → signed config uri digest.
Proof.
  intros (trust_root & st1 & _ & Hv)%mr_bind_Ok. apply m_bind_Some in Hv as (r & st2 & Hv & [= Hr ->]).
  apply map_err_Ok in Hr as ->. apply mr_bind_Ok in Hv as (ver & st3 & [= _ <-] & Hv).
  apply m_bind_Some in Hv as (r & st4 & Hv & [= Hr ->]). apply map_err_Ok in Hr as ->.
  apply Verifier_verify_Ok in Hv as (layers & ? & ?). by exists layers, st1, st'.
Qed.

Lemma kwctl_pull_Ok uri sources destination st policy st' :
  kwctl_pull default_store_root uri sources destination st = Some (Ok policy, st') →
  fetch_policy default_store_root uri destination sources st = Some (Ok policy, st').
Proof. intros (r & st1 & Hf & [= Hr ->])%m_bind_Some. by apply map_err_Ok in Hr as ->. Qed.

(** A policy that [kwctl] has pulled as it was asked to. *)
Definition pulled_as_asked a (uri : string) (destination : PullDestination) (st : St) : Prop :=
  ∃ sources policy st1 st2,
    fetch_policy default_store_root uri destination sources st1 = Some (Ok policy, st2) ∧
    ∀ config, build_verification_options (rem_verification a) = Ok (Some config) →
      is_ok (build_sigstore_trust_root (rem_sigstore_trust_config a)) ∧
      ∃ ver digest, signed config uri digest ∧
        verify_local_file_checksum ver policy digest st2 = Some (Ok tt, st).

Lemma pull_with_Ok a destination uri sources st st' :
  pull_with a destination uri sources st = Some (Ok tt, st') → pulled_as_asked a uri destination st'.
Proof.
  rewrite /pull_with /PullCommand.pull_with.
  intros (options & st1 & [= Hopt <-] & Hpull)%mr_bind_Ok. apply map_err_Ok in Hopt.
  destruct options as [config|].
  - apply mr_bind_Ok in Hpull as (digest & st1 & Hv & Hpull).
    apply mr_bind_Ok in Hpull as (policy & st2 & Hp%kwctl_pull_Ok & Hpull).
    apply mr_bind_Ok in Hpull as (trust_root & st3 & [= Hroot <-] & Hpull). apply map_err_Ok in Hroot.
    apply m_bind_Some in Hpull as (r & st4 & Hc & [= Hr ->]). apply map_err_Ok in Hr as ->.
    apply mr_bind_Ok in Hc as (ver & st5 & [= _ <-] & Hc).
    apply m_bind_Some in Hc as (r & st6 & Hc & [= Hr ->]). apply map_err_Ok in Hr as ->.
    exists sources, policy, st1, st2. split; [done|]. rewrite Hopt. intros ? [= <-].
    split; [by rewrite Hroot|]. exists ver, digest. split; [by eapply verify_uri_Ok|done].
  - apply mr_bind_Ok in Hpull as (policy & st2 & Hp%kwctl_pull_Ok & _).
    exists sources, policy, st, st2. split; [done|]. rewrite Hopt. by intros ? [=].
Qed.

(** [kwctl pull] reports success only for a policy that was pulled as the flags ask: when
    there is something to verify, there is a trust root, the signatures of the image satisfied
    the configuration, and after the download the file had the checksum of the manifest that
    was signed. The verification comes first: when it fails, nothing is downloaded. *)
Theorem pull_command_verified a uri destination env st :
  (∀ env' st', pull_command a uri destination env st = Some ((Ok tt, env'), st') →
    pulled_as_asked a uri destination st') ∧
  (∀ sources config e st1,
    build_verification_options (rem_verification a) = Ok (Some config) →
    verify_uri verifier_new a sources config uri st = Some (Err e, st1) →
    pull_with a destination uri sources st = Some (Err e, st1)).
Proof.
  split.
  - intros env' st' (sources & _ & Hp)%with_sources_inv. by eapply pull_with_Ok.
  - intros sources config e st1 Hopt Hv.
    by rewrite /pull_with /PullCommand.pull_with Hopt /mr_bind /m_bind /= Hv.
Qed.

(** What [kwctl scaffold manifest] prints describes a policy that was in the store before the
    command or that it pulled as the flags ask. A policy that is in the store is not verified:
    the command does the same whatever its flags ask for. *)
Theorem scaffolded_policy_origin a m env st :
  (∀ text env' st',
    scaffold_manifest_command default_store_root root store_tree verifier_new a m env st =
      Some ((Ok text, env'), st') →
    manifest_of_args root m (normalize_uri (ma_uri_or_sha_prefix m)) (store_tree (host st')) = Ok text ∧
    (st' = st ∧ is_ok (get_wasm_path root (store_tree (host st)) (normalize_uri (ma_uri_or_sha_prefix m))) ∨
     ∃ uri, get_wasm_path root (store_tree (host st)) (normalize_uri (ma_uri_or_sha_prefix m)) =
         Err (PolicyMissing uri) ∧ pulled_as_asked a uri MainStore st')) ∧
  (is_ok (get_wasm_path root (store_tree (host st)) (normalize_uri (ma_uri_or_sha_prefix m))) →
   ∀ a' env', scaffold_manifest_command default_store_root root store_tree verifier_new a' m env' st =
     Some ((manifest_of_args root m (normalize_uri (ma_uri_or_sha_prefix m)) (store_tree (host st)), env'), st)).
Proof.
  set (uri := normalize_uri _). split.
  - intros text env' st' ([r env1] & st1 & Hn & Hs)%m_bind_Some. fold uri in Hn, Hs.
    destruct r as [[]|e]; [|by injection Hs].
    apply m_bind_Some in Hs as (fs & st2 & [= <- <-] & [= Htext <- <-]). split; [done|].
    apply m_bind_Some in Hn as (fs & st3 & [= <- <-] & Hn).
    destruct (get_wasm_path _ _ _) as [p|err] eqn:Hw; [left; by injection Hn as <- <-|].
    destruct err; try by injection Hn. right. eexists. split; [done|].
    apply with_sources_inv in Hn as (sources & _ & Hn). by eapply pull_with_Ok.
  - intros Hp a' env'. rewrite /scaffold_manifest_command /pull_if_needed /m_bind /host_query.
    fold uri. by destruct (get_wasm_path _ _ _).
Qed.
End pulled.

Section scaffolded.
Context `{UL : UrlLib, SG : Sigstore, YL : !YamlLib, UrL : !UrlLaws, SL : !SigstoreLaws}.

(** The configuration that [kwctl scaffold verification-config] prints keeps what its header
    says, once it is read back: it is accepted, and the images it accepts are those with a
    layer that GitHub signed for a workflow of a repository of [kubewarden]. *)
Theorem scaffolded_config_trusts_kubewarden text :
  yaml_from_str text = Ok (inl scaffolded_verification_config) →
  ∃ config, build_latest_verification_config text = Ok config ∧
    ∀ layers, verify_signatures_against_config config layers = Some (Ok tt) ↔
      ∃ layer c subject r' extension r, layer ∈ layers ∧ certificate_signature layer = Some c ∧
        cs_issuer c = Some GITHUB_ACTION_ISSUER ∧
        cs_subject c = SubjectUri subject ∧ GitHubRepo_try_from subject = Ok r' ∧
        cs_github_workflow_repository c = Some extension ∧
        GitHubRepo_try_from ("https://github.com/" +:+ extension) = Ok r ∧ gr_owner r = "kubewarden".
Proof.
  intros Hy. eexists. split; [by rewrite /build_latest_verification_config Hy|]. intros layers.
  set (config := {| all_of := _; any_of := _ |}).
  destruct (verify_signatures_spec config layers) as (r & -> & Hr).
  transitivity (config_satisfied config layers); [rewrite -Hr; split; congruence|].
  rewrite /config_satisfied /=. split.
  - intros (_ & Hall & _). specialize (Hall _ eq_refl). apply Forall_singleton in Hall as (layer & Hin & Hs & _).
    destruct Hs as (c & subject & r' & extension & r0 & Hs). exists layer, c, subject, r', extension, r0.
    naive_solver.
  - intros (layer & c & subject & r' & extension & r0 & Hin & Hs). split_and!; [by left| |done].
    intros ? [= <-]. apply Forall_singleton. exists layer. split; [done|]. split; [|done].
    exists c, subject, r', extension, r0. naive_solver.
Qed.
End scaffolded.

(** ** Examples *)

Section witnesses.
#[local] Existing Instance Downloader.simple_cosign.
#[local] Existing Instance Downloader.simple_sha256.
#[local] Existing Instance example_cli.

Definition keyed_args : RemoteArgs :=
  {| rem_sources_path := None; rem_docker_config_json_path := None; rem_verification := key_flags None;
     rem_sigstore_trust_config := None |}.

Definition example_pull (st : @St simple_oci simple_host) :=
  pull_command (UL := simple_url) (SE := simple_env) (YL := simple_yaml) (RE := KwctlSettings.example_run_env)
    "/main" KwctlSettings.example_verifier keyed_args "registry://ghcr.io/kubewarden/pol:v1" MainStore ∅ st.

(** Whether a command succeeded, and the policy that is in the store afterwards. *)
Definition pull_outcome {A B E} (r : option ((result A E * B) * @St simple_oci simple_host)) :
    option (bool * option bytes) :=
  match r with
  | Some ((r, _), st) => Some (is_ok r, sh_files (host st) !! "/main/registry/ghcr.io/kubewarden/pol:v1")
  | None => None
  end.

Lemma pull_command_verified_witness :
  ∃ env' st', example_pull (fresh_state [Ok [Downloader.v1]] [Ok (Downloader.image_of Downloader.v1)]) =
      Some ((Ok tt, env'), st') ∧
    pulled_as_asked (UL := simple_url) (SE := simple_env) (YL := simple_yaml)
      (RE := KwctlSettings.example_run_env) "/main" keyed_args "registry://ghcr.io/kubewarden/pol:v1" MainStore st'.
Proof.
  set (st := fresh_state _ _). assert (pull_outcome (example_pull st) = Some (true, Some Downloader.v1)) as Hok
    by (vm_compute; reflexivity).
  destruct (example_pull st) as [[[[[]|e] env'] st']|] eqn:Hp; [|done..].
  exists env', st'. split; [reflexivity|].
  exact (proj1 (pull_command_verified (UL := simple_url) (SE := simple_env) (YL := simple_yaml)
    (RE := KwctlSettings.example_run_env) "/main" KwctlSettings.example_verifier keyed_args
    "registry://ghcr.io/kubewarden/pol:v1" MainStore ∅ st) env' st' Hp).
Defined.

Definition after {A} (r : option (A * @St simple_oci simple_host)) (st : @St simple_oci simple_host) :=
  match r with Some (_, st) => st | None => st end.

(** A file whose checksum is refused stays in the store, and is not downloaded again: once the
    registry serves the signed module, the pull is still refused. *)
Example refused_file_stays :
  let first := example_pull (fresh_state [Ok [Downloader.evil]; Ok [Downloader.v1]]
    [Ok (Downloader.image_of Downloader.v1); Ok (Downloader.image_of Downloader.v1)]) in
  pull_outcome first = Some (false, Some Downloader.evil) ∧
  pull_outcome (example_pull (after first (fresh_state [] []))) = Some (false, Some Downloader.evil).
Proof. vm_compute. split; reflexivity. Qed.
End witnesses.
