(* ===== verification/AdmissionScaffold.v ===== *)
(** * Scaffolded admission requests

    Models [crates/kwctl/src/scaffold/admission_request.rs]: a catalog of the resources of a
    cluster, kept in a file, and the admission request of an object that is created.

    A run of the command asks the API server each question at most once, so the answers of the
    cluster are the parameter [Cluster]. The YAML and JSON of objects, requests and catalogs,
    and the conversion of [kube] from a type to a kind, are [ScaffoldCodec]. *)

From S2P Require Import Prelude Bytes RustStr Json Request.

Record APIResource := { api_name : string; api_kind : string; api_namespaced : bool }.

Record GroupVersion := { gv_group_version : string; gv_version : string }.

Record APIGroup := {
  ag_name : string;
  ag_preferred_version : option GroupVersion;
  ag_versions : list GroupVersion;
}.

Record TypeMeta := { tm_api_version : string; tm_kind : string }.

(** [DynamicObject]: the parts that are used; [do_value] is what it is made of. *)
Record DynamicObject := {
  do_types : option TypeMeta;
  do_name : option string;
  do_namespace : option string;
  do_value : Value;
}.

Definition Resources : Type := gmap string APIResource.

(** The answers of an API server; the first is the one to the connection. *)
Record Cluster := {
  cl_client : result unit string;
  cl_core_api_resources : string → result (list APIResource) string;
  cl_api_groups : result (list APIGroup) string;
  cl_api_group_resources : string → result (list APIResource) string;
}.

Class ScaffoldCodec := {
  object_of_yaml : bytes → result DynamicObject string;
  gvk_of_type : TypeMeta → result GroupVersionKind string;
  catalog_of_json : bytes → result Resources string;
  catalog_to_json : Resources → bytes;
  object_to_value : DynamicObject → result Value string;
  request_to_json : AdmissionRequest → result string string;
}.

(** ** Operations *)

Inductive Operation := Create | Update | Delete.

Definition Operation_from_str (s : string) : result Operation string :=
  if decide (s = "CREATE") then Ok Create
  else if decide (s = "UPDATE") then Ok Update
  else if decide (s = "DELETE") then Ok Delete
  else Err ("Invalid operation: " +:+ s).

Definition Operation_to_string (o : Operation) : string :=
  match o with Create => "CREATE" | Update => "UPDATE" | Delete => "DELETE" end.

Definition given {A} (o : option A) : bool := match o with Some _ => true | None => false end.

Definition validate_params (operation : Operation) (object_path old_object_path : option string) :
    result unit string :=
  match operation with
  | Create =>
      if negb (given object_path) then Err "CREATE operation requires an object"
      else if given old_object_path then Err "CREATE operation does not require an old_object"
      else Ok tt
  | Update =>
      if negb (given object_path) then Err "UPDATE operation requires an object"
      else if negb (given old_object_path) then Err "UPDATE operation requires an old_object"
      else Ok tt
  | Delete =>
      if given object_path then Err "DELETE operation does not require an object"
      else if negb (given old_object_path) then Err "DELETE operation requires an old_object"
      else Ok tt
  end.

(** ** The catalog *)

Inductive RestoredFrom := FromCache | FromApiServer | FromNothing.

Record Catalog := { cat_resources : Resources; cat_restored_from : RestoredFrom }.

Definition gvk_to_string (gvk : GroupVersionKind) : string :=
  gvk_group gvk +:+ "|" +:+ gvk_version gvk +:+ "|" +:+ gvk_kind gvk.

Definition add_resource (group version : string) (resources : Resources) (r : APIResource) : Resources :=
  if contains (api_name r) "/" then resources else
  <[gvk_to_string {| gvk_group := group; gvk_version := version; gvk_kind := api_kind r |} := r]> resources.

Definition add_group (cluster : Cluster) (resources : Resources) (group : APIGroup) : result Resources string :=
  let? version := ok_or (match ag_preferred_version group with
      | Some v => Some v
      | None => head (ag_versions group)
      end) ("cannot find preferred version or version for group " +:+ ag_name group) in
  let? listed := cl_api_group_resources cluster (gv_group_version version) in
  Ok (foldl (add_resource (ag_name group) (gv_version version)) resources listed).

Definition build (cluster : Cluster) : result Resources string :=
  let? core := cl_core_api_resources cluster "v1" in
  let resources := foldl (add_resource "" "v1") ∅ core in
  let? groups := cl_api_groups cluster in
  try_fold (add_group cluster) resources groups.

(** The file of the catalog, and what becomes of the next attempts to write it: the directory
    or the file cannot be created, or the write stops after some bytes. *)
Inductive SaveFault := CannotCreate | Interrupted (written : bytes).

Record CacheFile := { cf_contents : option (result bytes string); cf_faults : list (option SaveFault) }.

Section catalog.
Context `{SC : ScaffoldCodec}.
Implicit Types (cluster : Cluster) (cache : CacheFile) (catalog : Catalog).

Definition set_contents (b : bytes) (faults : list (option SaveFault)) : CacheFile :=
  {| cf_contents := Some (Ok b); cf_faults := faults |}.

(** [save]; its errors are only logged. *)
Definition save catalog cache : CacheFile :=
  let json := catalog_to_json (cat_resources catalog) in
  match cf_faults cache with
  | [] => set_contents json []
  | None :: faults => set_contents json faults
  | Some CannotCreate :: faults => {| cf_contents := cf_contents cache; cf_faults := faults |}
  | Some (Interrupted written) :: faults => set_contents written faults
  end.

Definition init cluster cache : result Catalog string * CacheFile :=
  match cf_contents cache with
  | Some contents =>
      (let? contents := contents in
       let? resources := catalog_of_json contents in
       Ok {| cat_resources := resources; cat_restored_from := FromCache |}, cache)
  | None =>
      match (let? _ := cl_client cluster in build cluster) with
      | Err e => (Err e, cache)
      | Ok resources =>
          let catalog := {| cat_resources := resources; cat_restored_from := FromApiServer |} in
          (Ok catalog, save catalog cache)
      end
  end.

Definition catalog_new cluster cache : Catalog * CacheFile :=
  match init cluster cache with
  | (Ok catalog, cache) => (catalog, cache)
  | (Err _, cache) => ({| cat_resources := ∅; cat_restored_from := FromNothing |}, cache)
  end.

Definition lookup_resource catalog (gvk : GroupVersionKind) : option APIResource :=
  cat_resources catalog !! gvk_to_string gvk.

Definition refresh cluster catalog : result Catalog string :=
  match cat_restored_from catalog with
  | FromCache =>
      let? _ := cl_client cluster in
      let? resources := build cluster in
      Ok {| cat_resources := resources; cat_restored_from := FromApiServer |}
  | _ => Ok catalog
  end.

(** The resource of a kind, with at most one refresh. *)
Definition find_resource cluster catalog cache (gvk : GroupVersionKind) : option APIResource * CacheFile :=
  match lookup_resource catalog gvk with
  | Some ar => (Some ar, cache)
  | None =>
      match refresh cluster catalog with
      | Ok catalog => (lookup_resource catalog gvk, save catalog cache)
      | Err _ => (None, cache)
      end
  end.

(** ** The request *)

Definition FALLBACK_API_RESOURCE_PLURAL_NAME : string :=
  "this-is-the-plural-name-of-the-resource-this-information-is-not-used-by-policies-and-requires-a-connection-to-an-api-server-to-be-obtained".

Definition scaffolded_namespace (object : DynamicObject) (api_resource : option APIResource) : option string :=
  match do_namespace object with
  | Some ns => Some ns
  | None => match api_resource with
            | Some ar => if api_namespaced ar then Some "default" else None
            | None => None
            end
  end.

Definition scaffolded_request (object : DynamicObject) (gvk : GroupVersionKind)
    (object_json : Value) (api_resource : option APIResource) : AdmissionRequest :=
  let resource := match api_resource with
    | Some ar => api_name ar
    | None => FALLBACK_API_RESOURCE_PLURAL_NAME
    end in
  let gvr := {| gvr_group := gvk_group gvk; gvr_version := gvk_version gvk; gvr_resource := resource |} in
  {| ar_uid := "705ab4f5-6393-11e8-b7cc-42010a800002"; ar_kind := gvk; ar_resource := gvr;
     ar_sub_resource := None; ar_request_kind := Some gvk; ar_request_resource := Some gvr;
     ar_request_sub_resource := None; ar_name := do_name object;
     ar_namespace := scaffolded_namespace object api_resource;
     ar_operation := Operation_to_string Create;
     ar_user_info := JObject [("groups", JArray [JString "system:masters"]); ("username", JString "test-user")];
     ar_object := Some object_json; ar_old_object := None; ar_dry_run := None; ar_options := None |}.

(** The catalog is made before the object is read. *)
Definition scaffold_create cluster cache (object_path : string) (contents : result bytes string) :
    result string string * CacheFile :=
  let '(resource_catalog, cache) := catalog_new cluster cache in
  match
    let? file := map_err (λ e, "failed to open object file " +:+ object_path +:+ ": " +:+ e) contents in
    let? object := map_err (λ e, "failed to parse object file " +:+ object_path +:+ ": " +:+ e)
      (object_of_yaml file) in
    let? types := ok_or (do_types object)
      ("object defined inside of " +:+ object_path +:+ " is missing types") in
    let? gvk := gvk_of_type types in
    Ok (object, gvk)
  with
  | Err e => (Err e, cache)
  | Ok (object, gvk) =>
      let '(api_resource, cache) := find_resource cluster resource_catalog cache gvk in
      (let? object_json := object_to_value object in
       request_to_json (scaffolded_request object gvk object_json api_resource), cache)
  end.

(** What is printed; [None] when the process panics in a [todo!()] or an [unwrap]. *)
Definition admission_request cluster cache (operation : Operation) (object old_object : option string)
    (read : string → result bytes string) : option (result string string * CacheFile) :=
  match validate_params operation object old_object with
  | Err e => Some (Err e, cache)
  | Ok _ =>
      match operation with
      | Create => match object with
                  | Some path => Some (scaffold_create cluster cache path (read path))
                  | None => None
                  end
      | _ => None
      end
  end.
End catalog.

(** ** Properties *)

(** What the cluster lists, sub-resources aside, in the order it is asked. *)
Definition entries (group version : string) (l : list APIResource) : list (GroupVersionKind * APIResource) :=
  (λ r, ({| gvk_group := group; gvk_version := version; gvk_kind := api_kind r |}, r)) <$>
    List.filter (λ r, negb (contains (api_name r) "/")) l.

(** The resources of a group at its version: the preferred one, else the first. *)
Inductive group_lists (cluster : Cluster) (group : APIGroup) : list (GroupVersionKind * APIResource) → Prop :=
| group_lists_at v l :
    ag_preferred_version group = Some v ∨
    ag_preferred_version group = None ∧ head (ag_versions group) = Some v →
    cl_api_group_resources cluster (gv_group_version v) = Ok l →
    group_lists cluster group (entries (ag_name group) (gv_version v) l).

Definition lists (cluster : Cluster) (l : list (GroupVersionKind * APIResource)) : Prop :=
  ∃ core groups ls, cl_core_api_resources cluster "v1" = Ok core ∧ cl_api_groups cluster = Ok groups ∧
    Forall2 (group_lists cluster) groups ls ∧ l = entries "" "v1" core ++ mjoin ls.

#[export] Instance GroupVersionKind_eq_dec : EqDecision GroupVersionKind.
Proof. solve_decision. Defined.

(** A name of Kubernetes has no pipe. *)
Definition piped (gvk : GroupVersionKind) : bool :=
  contains_char (gvk_group gvk) "|"%char || contains_char (gvk_version gvk) "|"%char.

Lemma split_at_pipe a b s t :
  contains_char a "|"%char = false → contains_char b "|"%char = false →
  a +:+ "|" +:+ s = b +:+ "|" +:+ t → a = b ∧ s = t.
Proof.
  revert b. induction a as [|x a IH]; intros [|y b]; simpl; intros Ha Hb Heq.
  - by injection Heq.
  - injection Heq as <- _. by rewrite bool_decide_eq_true_2 in Hb.
  - injection Heq as -> _. by rewrite bool_decide_eq_true_2 in Ha.
  - injection Heq as <- Heq. apply orb_false_iff in Ha as [_ Ha]. apply orb_false_iff in Hb as [_ Hb].
    destruct (IH b Ha Hb Heq) as [-> ->]. done.
Qed.

Lemma gvk_to_string_inj g h :
  piped g = false → piped h = false → gvk_to_string g = gvk_to_string h → g = h.
Proof.
  destruct g as [g1 g2 g3], h as [h1 h2 h3]. rewrite /piped /gvk_to_string /= !orb_false_iff.
  intros [Hg1 Hg2] [Hh1 Hh2] Heq. destruct (split_at_pipe _ _ _ _ Hg1 Hh1 Heq) as [-> Heq'].
  by destruct (split_at_pipe _ _ _ _ Hg2 Hh2 Heq') as [-> ->].
Qed.

(** Inserting entries one after the other: the last one of a kind is kept. *)
Definition insert_entries (m : Resources) (l : list (GroupVersionKind * APIResource)) : Resources :=
  foldl (λ m e, <[gvk_to_string e.1 := e.2]> m) m l.

Lemma insert_entries_lookup m l gvk :
  piped gvk = false → Forall (λ e, piped e.1 = false) l →
  insert_entries m l !! gvk_to_string gvk =
  match last (List.filter (λ e, bool_decide (e.1 = gvk)) l) with
  | Some e => Some e.2
  | None => m !! gvk_to_string gvk
  end.
Proof.
  intros Hg. revert m. induction l as [|e l IH] using rev_ind; intros m Hl; [done|].
  apply Forall_app in Hl as [Hl [He _]%Forall_cons]. rewrite /insert_entries foldl_snoc -/(insert_entries m l).
  rewrite List.filter_app /=. case_bool_decide as Heq.
  - subst. by rewrite lookup_insert_eq last_snoc.
  - rewrite app_nil_r lookup_insert_ne; [by apply IH|]. intros Hs. apply Heq. by apply gvk_to_string_inj.
Qed.

Lemma add_resources_entries group version m l :
  foldl (add_resource group version) m l = insert_entries m (entries group version l).
Proof.
  revert m. induction l as [|r l IH]; intros m; [done|]. simpl. rewrite IH /add_resource.
  rewrite /entries /=. by destruct (contains (api_name r) "/").
Qed.

Lemma add_groups_lists cluster m groups m' :
  try_fold (add_group cluster) m groups = Ok m' →
  ∃ ls, Forall2 (group_lists cluster) groups ls ∧ m' = insert_entries m (mjoin ls).
Proof.
  revert m. induction groups as [|g groups IH]; intros m; simpl; [intros [= <-]; by exists []|].
  intros (m1 & Hg & (ls & Hls & ->)%IH)%res_bind_Ok. rewrite /add_group in Hg.
  apply res_bind_Ok in Hg as (v & Hv%ok_or_Ok & Hg). apply res_bind_Ok in Hg as (listed & Hl & [= <-]).
  exists (entries (ag_name g) (gv_version v) listed :: ls). split.
  - constructor; [|done]. constructor; [|done]. destruct (ag_preferred_version g); simplify_eq; auto.
  - by rewrite add_resources_entries /= /insert_entries foldl_app.
Qed.

(** The catalog of a cluster is exact: a kind is in it exactly when the cluster lists a
    resource of that kind, in the core group or at the preferred version of its group, that is
    not a sub-resource; the last one is kept. *)
Theorem catalog_lists_cluster cluster resources gvk
    (Hbuild : build cluster = Ok resources) (Hgvk : piped gvk = false) :
  ∃ l, lists cluster l ∧ (Forall (λ e, piped e.1 = false) l →
    resources !! gvk_to_string gvk = snd <$> last (List.filter (λ e, bool_decide (e.1 = gvk)) l)).
Proof.
  rewrite /build in Hbuild. apply res_bind_Ok in Hbuild as (core & Hcore & Hbuild).
  apply res_bind_Ok in Hbuild as (groups & Hgroups & (ls & Hls & ->)%add_groups_lists).
  exists (entries "" "v1" core ++ mjoin ls). split; [by exists core, groups, ls|]. intros Hpipes.
  rewrite add_resources_entries {1}/insert_entries -/(insert_entries ∅ _).
  rewrite /insert_entries -foldl_app -/(insert_entries ∅ _) insert_entries_lookup //.
Qed.

Section caching.
Context `{SC : ScaffoldCodec}.
(** [serde_json] reads the catalog it wrote. *)
Context (Hserde : ∀ m, catalog_of_json (catalog_to_json m) = Ok m).
Implicit Types (cluster : Cluster) (cache : CacheFile).


















End caching.

(** The command line accepts [CREATE] only, and then nothing panics. *)
Lemma create_never_panics `{ScaffoldCodec} cluster cache object old_object read :
  is_Some (admission_request cluster cache Create object old_object read).
Proof.
  rewrite /admission_request /=. destruct object; simpl; [|by eexists]. by destruct old_object; eexists.
Qed.

(** ** Examples *)

Definition pods : APIResource := {| api_name := "pods"; api_kind := "Pod"; api_namespaced := true |}.
Definition deployments : APIResource := {| api_name := "deployments"; api_kind := "Deployment"; api_namespaced := true |}.

Definition example_cluster : Cluster := {|
  cl_client := Ok tt;
  cl_core_api_resources _ := Ok [pods; {| api_name := "pods/status"; api_kind := "Pod"; api_namespaced := true |}];
  cl_api_groups := Ok [{| ag_name := "apps"; ag_preferred_version := None;
                          ag_versions := [{| gv_group_version := "apps/v1"; gv_version := "v1" |}] |}];
  cl_api_group_resources _ := Ok [deployments];
|}.


(** The catalog of the cluster. *)
Definition example_resources : Resources :=
  match build example_cluster with Ok m => m | Err _ => ∅ end.

Definition kind_of (group kind : string) : GroupVersionKind :=
  {| gvk_group := group; gvk_version := "v1"; gvk_kind := kind |}.

Lemma example_build : build example_cluster = Ok example_resources.
Proof. vm_compute. reflexivity. Qed.

Lemma catalog_lists_cluster_witness :
  ∃ l, lists example_cluster l ∧ (Forall (λ e, piped e.1 = false) l →
    example_resources !! "apps|v1|Deployment" =
    snd <$> last (List.filter (λ e, bool_decide (e.1 = kind_of "apps" "Deployment")) l)).
Proof. exact (catalog_lists_cluster example_cluster _ (kind_of "apps" "Deployment") example_build eq_refl). Defined.

(** Catalogs as the digits of a number. *)
#[local] Instance APIResource_eq_dec : EqDecision APIResource.
Proof. solve_decision. Defined.
#[local] Instance APIResource_countable : Countable APIResource.
Proof.
  refine (inj_countable' (λ r, (api_name r, api_kind r, api_namespaced r))
    (λ t, {| api_name := t.1.1; api_kind := t.1.2; api_namespaced := t.2 |}) _). by intros [].
Defined.

#[local] Instance example_codec : ScaffoldCodec := {
  object_of_yaml _ := Ok {| do_types := Some {| tm_api_version := "v1"; tm_kind := "Pod" |};
    do_name := Some "nginx"; do_namespace := None; do_value := JNull |};
  gvk_of_type t := Ok (kind_of "" (tm_kind t));
  catalog_of_json b := ok_or (decode (Pos.of_nat (length b))) "expected value";
  catalog_to_json m := repeat "."%char (Pos.to_nat (encode m));
  object_to_value o := Ok (do_value o);
  request_to_json r := Ok (unwrap_or "" (ar_namespace r));
}.

