(* ===== verification/KwctlCli.v ===== *)
(** * The command line of kwctl

    Models [crates/kwctl/src/cli.rs]: the commands that [build_cli] declares, with their
    arguments, in the order it declares them. [Clap] says what a declaration means. *)

From S2P Require Import Prelude RustStr Clap.

(** Minimum set of flags required to pull a policy from a registry. *)
Definition pull_shared_flags : list Arg :=
  [Arg_new "docker-config-json-path" |> long "docker-config-json-path";
   Arg_new "sources-path" |> long "sources-path";
   Arg_new "verification-config-path" |> long "verification-config-path";
   Arg_new "verification-key" |> short "k"%char |> long "verification-key" |> action ActionAppend
     |> num_args 1;
   Arg_new "verification-annotation" |> short "a"%char |> long "verification-annotation"
     |> action ActionAppend |> num_args 1;
   Arg_new "cert-email" |> long "cert-email" |> num_args 1;
   Arg_new "cert-oidc-issuer" |> long "cert-oidc-issuer" |> num_args 1;
   Arg_new "github-owner" |> long "github-owner" |> num_args 1;
   Arg_new "github-repo" |> long "github-repo" |> num_args 1;
   Arg_new "sigstore-trust-config" |> long "sigstore-trust-config" |> value_parser PathBufParser].

Definition subcommand_pull : Command :=
  Command_new "pull" |> args (sort_args (pull_shared_flags ++
    [Arg_new "output-path" |> short "o"%char |> long "output-path"]) ++
    [Arg_new "uri" |> required true |> index 1]).

Definition subcommand_verify : Command :=
  Command_new "verify" |> args (sort_args
  [Arg_new "docker-config-json-path" |> long "docker-config-json-path";
   Arg_new "sources-path" |> long "sources-path";
   Arg_new "verification-config-path" |> long "verification-config-path";
   Arg_new "verification-key" |> short "k"%char |> long "verification-key" |> action ActionAppend
     |> num_args 1;
   Arg_new "verification-annotation" |> short "a"%char |> long "verification-annotation"
     |> action ActionAppend |> num_args 1;
   Arg_new "cert-email" |> long "cert-email" |> num_args 1;
   Arg_new "cert-oidc-issuer" |> long "cert-oidc-issuer" |> num_args 1;
   Arg_new "github-owner" |> long "github-owner" |> num_args 1;
   Arg_new "github-repo" |> long "github-repo" |> num_args 1;
   Arg_new "sigstore-trust-config" |> long "sigstore-trust-config" |> value_parser PathBufParser] ++
    [Arg_new "uri" |> required true |> index 1]).

Definition subcommand_push : Command :=
  Command_new "push" |> args (sort_args
  [Arg_new "docker-config-json-path" |> long "docker-config-json-path";
   Arg_new "sources-path" |> long "sources-path";
   Arg_new "force" |> short "f"%char |> long "force" |> action ActionSetTrue;
   Arg_new "output" |> long "output" |> short "o"%char |> value_parser (PossibleValues ["text"; "json"])
     |> default_value "text"] ++
    [Arg_new "policy" |> required true |> index 1;
     Arg_new "uri" |> required true |> index 2]).

Definition run_args : list Arg :=
  [Arg_new "docker-config-json-path" |> long "docker-config-json-path";
   Arg_new "sources-path" |> long "sources-path";
   Arg_new "verification-config-path" |> long "verification-config-path";
   Arg_new "request-path" |> long "request-path" |> short "r"%char |> required true;
   Arg_new "settings-path" |> long "settings-path" |> short "s"%char;
   Arg_new "settings-json" |> long "settings-json";
   Arg_new "verification-key" |> short "k"%char |> long "verification-key" |> action ActionAppend
     |> num_args 1;
   Arg_new "verification-annotation" |> short "a"%char |> long "verification-annotation"
     |> action ActionAppend |> num_args 1;
   Arg_new "cert-email" |> long "cert-email" |> num_args 1;
   Arg_new "cert-oidc-issuer" |> long "cert-oidc-issuer" |> num_args 1;
   Arg_new "github-owner" |> long "github-owner" |> num_args 1;
   Arg_new "github-repo" |> long "github-repo" |> num_args 1;
   Arg_new "execution-mode" |> long "execution-mode" |> short "e"%char
     |> value_parser (PossibleValues ["opa"; "gatekeeper"; "kubewarden"; "wasi"; "ferricel"]);
   Arg_new "raw" |> long "raw" |> num_args 0 |> default_value "false";
   Arg_new "disable-wasmtime-cache" |> long "disable-wasmtime-cache" |> num_args 0;
   Arg_new "disable-memory-limit" |> long "disable-memory-limit" |> action ActionSetTrue;
   Arg_new "policy-memory-limit" |> long "policy-memory-limit" |> default_value "256";
   Arg_new "allow-context-aware" |> long "allow-context-aware" |> num_args 0;
   Arg_new "record-host-capabilities-interactions" |> long "record-host-capabilities-interactions";
   Arg_new "replay-host-capabilities-interactions" |> long "replay-host-capabilities-interactions";
   Arg_new "sigstore-trust-config" |> long "sigstore-trust-config" |> value_parser PathBufParser;
   Arg_new "allowed-host-capabilities" |> long "allowed-host-capabilities" |> num_args_between 0 None
     |> default_values ["*"]].

(** These flags cannot be used at the same time. *)
Definition host_capabilities_proxy : ArgGroup :=
  {| ag_id := "host-capabilities-proxy";
     ag_args := ["record-host-capabilities-interactions"; "replay-host-capabilities-interactions"];
     ag_multiple := false; ag_required := false |}.

Definition subcommand_run : Command :=
  Command_new "run"
    |> args (sort_args run_args ++ [Arg_new "uri_or_sha_prefix_or_yaml_file" |> required true |> index 1])
    |> group host_capabilities_proxy.

(** At least one source of metadata must be given. *)
Definition metadata_source : ArgGroup :=
  {| ag_id := "metadata-source"; ag_args := ["metadata-path"; "annotation"; "usage-path"];
     ag_multiple := true; ag_required := true |}.

Definition subcommand_annotate : Command :=
  Command_new "annotate" |> args (sort_args
  [Arg_new "metadata-path" |> long "metadata-path" |> short "m"%char;
   Arg_new "annotation" |> long "annotation" |> short "a"%char |> action ActionAppend |> num_args 1;
   Arg_new "usage-path" |> long "usage-path" |> short "u"%char;
   Arg_new "output-path" |> long "output-path" |> short "o"%char |> required true;
   Arg_new "force" |> short "f"%char |> long "force" |> action ActionSetTrue] ++
    [Arg_new "wasm-path" |> required true |> index 1])
    |> group metadata_source.

Definition subcommand_inspect : Command :=
  Command_new "inspect" |> args (sort_args
  [Arg_new "output" |> long "output" |> short "o"%char |> value_parser (PossibleValues ["yaml"]);
   Arg_new "sources-path" |> long "sources-path";
   Arg_new "docker-config-json-path" |> long "docker-config-json-path";
   Arg_new "show-signatures" |> long "show-signatures" |> num_args 0] ++
    [Arg_new "uri_or_sha_prefix" |> required true |> index 1]).

Definition artifacthub_args : list Arg := sort_args
  [Arg_new "metadata-path" |> long "metadata-path" |> short "m"%char;
   Arg_new "version" |> long "version" |> short "v"%char |> num_args 1;
   Arg_new "questions-path" |> long "questions-path" |> short "q"%char;
   Arg_new "output" |> long "output" |> short "o"%char].

(** When scaffolding the manifest of a missing policy, we can pull it from a registry. *)
Definition manifest_args : list Arg :=
  sort_args ([Arg_new "settings-path" |> long "settings-path" |> short "s"%char;
   Arg_new "settings-json" |> long "settings-json" |> conflicts_with "settings-path";
   Arg_new "type" |> long "type" |> short "t"%char |> required true
     |> value_parser (PossibleValues ["ClusterAdmissionPolicy"; "AdmissionPolicy"]);
   Arg_new "title" |> long "title";
   Arg_new "allow-context-aware" |> long "allow-context-aware" |> num_args 0] ++ pull_shared_flags) ++
  [Arg_new "uri_or_sha_prefix" |> required true |> index 1].

Definition vap_args : list Arg := sort_args
  [Arg_new "cel-policy" |> long "cel-policy"
     |> default_value "ghcr.io/kubewarden/policies/cel-policy:latest"
     |> conflicts_with "compile-to-wasm";
   Arg_new "compile-to-wasm" |> long "compile-to-wasm" |> conflicts_with "cel-policy";
   Arg_new "force" |> long "force" |> short "f"%char |> num_args 0 |> requires "compile-to-wasm";
   Arg_new "policy" |> long "policy" |> short "p"%char |> required true;
   Arg_new "binding" |> long "binding" |> short "b"%char |> required true].

Definition admission_request_args : list Arg := sort_args
  [Arg_new "operation" |> long "operation" |> short "o"%char |> required true
     |> value_parser (PossibleValues ["CREATE"]);
   Arg_new "object" |> long "object";
   Arg_new "old-object" |> long "old-object"].

Definition subcommand_scaffold : Command :=
  Command_new "scaffold" |> subcommand_required true |> subcommands (sort_commands
    [Command_new "verification-config";
     Command_new "artifacthub" |> args artifacthub_args;
     Command_new "manifest" |> args manifest_args;
     Command_new "vap" |> args vap_args;
     Command_new "admission-request" |> args admission_request_args]).

Definition subcommand_digest : Command :=
  Command_new "digest" |> args (sort_args
  [Arg_new "sources-path" |> long "sources-path";
   Arg_new "docker-config-json-path" |> long "docker-config-json-path"] ++
    [Arg_new "uri" |> required true |> index 1]).

Definition subcommand_bench : Command :=
  Command_new "bench" |> args (sort_args
  ([Arg_new "measurement_time" |> long "measurement-time" |> num_args 1;
   Arg_new "num_resamples" |> long "num-resamples" |> num_args 1;
   Arg_new "num_samples" |> long "num-samples" |> num_args 1;
   Arg_new "warm_up_time" |> long "warm-up-time" |> num_args 1;
   Arg_new "dump_results_to_disk" |> long "dump-results-to-disk"] ++ run_args) ++
    [Arg_new "uri_or_sha_prefix_or_yaml_file" |> required true |> index 1])
    |> group host_capabilities_proxy.

Definition subcommand_save : Command :=
  Command_new "save"
    |> arg (Arg_new "output" |> long "output" |> short "o"%char |> required true)
    |> arg (Arg_new "policies" |> num_args_between 1 None |> required true).

Definition subcommand_docs : Command :=
  Command_new "docs" |> arg (Arg_new "output" |> long "output" |> short "o"%char |> required true).

Definition build_cli : Command :=
  Command_new "kwctl"
    |> arg (Arg_new "verbose" |> short "v"%char |> long "verbose" |> num_args 0)
    |> arg (Arg_new "no-color" |> long "no-color" |> num_args 0)
    |> subcommands (sort_commands
      [Command_new "policies";
       Command_new "info";
       Command_new "rm" |> arg (Arg_new "uri_or_sha_prefix" |> required true |> index 1);
       Command_new "completions" |> arg (Arg_new "shell" |> long "shell" |> short "s"%char |> required true
     |> value_parser (PossibleValues ["bash"; "elvish"; "fish"; "powershell"; "zsh"]));
       Command_new "load" |> arg (Arg_new "input" |> long "input" |> required true);
       subcommand_pull; subcommand_verify; subcommand_push; subcommand_run; subcommand_annotate;
       subcommand_inspect; subcommand_scaffold; subcommand_digest; subcommand_bench; subcommand_save;
       subcommand_docs])
    |> subcommand_required true
    |> arg_required_else_help true.

(** No command of [kwctl] trips an assertion of [clap]. *)
Lemma kwctl_well_formed : well_formed 2 true build_cli = true.
Proof. vm_compute. reflexivity. Qed.
