(* ===== verification/KwctlMain.v ===== *)
(** * From the command line of kwctl to its commands

    Models [main] of [crates/kwctl/src/main.rs] up to the call of each command, with the
    places where the commands read their arguments: [config/verification.rs],
    [config/sources.rs], [config/pull_and_run.rs], [config/policy_definition.rs] and
    [cli/bench.rs]; and [completions.rs]. The commands themselves are in [PullCommand],
    [KwctlSettings], [KwctlRun], [Annotate], [Inspect], [Manifest], [VapScaffold],
    [AdmissionScaffold], [PolicyStore] and [StoreArchive]: an [Invocation] is what they are called with.

    An argument is read before its command runs, where the code may read it later: reading has
    no effect but a panic, which is [None]. *)

From S2P Require Import Prelude RustStr Request Config Fetcher Sources Registry Verify Metadata.
From S2P Require Import Clap KwctlCli CommandLine KwctlRun KwctlSettings PolicyStore Annotate.
From S2P Require Import Inspect AdmissionScaffold Manifest PullCommand.

(** ** Arguments of several commands *)

Definition verification_args (m : ArgMatches) : option VerificationArgs :=
  keys ← get_many KString m "verification-key";
  annotations ← get_many KString m "verification-annotation";
  cert_email ← get_many KString m "cert-email";
  cert_oidc_issuer ← get_many KString m "cert-oidc-issuer";
  github_owner ← get_many KString m "github-owner";
  github_repo ← get_many KString m "github-repo";
  config_path ← get_one KString m "verification-config-path";
  Some {| va_keys := keys; va_annotations := annotations; va_cert_email := cert_email;
          va_cert_oidc_issuer := cert_oidc_issuer; va_github_owner := github_owner;
          va_github_repo := github_repo; va_config_path := config_path |}.

Definition remote_args (m : ArgMatches) : option RemoteArgs :=
  sources_path ← get_one KString m "sources-path";
  docker_config_json_path ← get_one KString m "docker-config-json-path";
  verification ← verification_args m;
  sigstore_trust_config ← get_one KPath m "sigstore-trust-config";
  Some {| rem_sources_path := sources_path; rem_docker_config_json_path := docker_config_json_path;
          rem_verification := verification; rem_sigstore_trust_config := sigstore_trust_config |}.

Definition no_verification : VerificationArgs :=
  {| va_keys := None; va_annotations := None; va_cert_email := None; va_cert_oidc_issuer := None;
     va_github_owner := None; va_github_repo := None; va_config_path := None |}.

(** The commands that only need [remote_server_options]. *)
Definition registry_args (m : ArgMatches) : option RemoteArgs :=
  sources_path ← get_one KString m "sources-path";
  docker_config_json_path ← get_one KString m "docker-config-json-path";
  Some {| rem_sources_path := sources_path; rem_docker_config_json_path := docker_config_json_path;
          rem_verification := no_verification; rem_sigstore_trust_config := None |}.

(** [get_one::<bool>(id).unwrap_or(&false)] *)
Definition flag_or_false (m : ArgMatches) (id : string) : option bool :=
  b ← get_one KBool m id; Some (default false b).

(** [get_one(id).unwrap()] and [get_one(id).expect(..)] *)
Definition expect_one (m : ArgMatches) (id : string) : option string := mjoin (get_one KString m id).

(** ** [kwctl run] and [kwctl bench] *)

(** What [parse_policy_definitions] and [PolicyDefinition::from_cli] read. *)
Record DefinitionArgs := {
  da_uri : string;
  da_settings_path : option string;
  da_settings_json : option string;
  da_execution_mode : option string;
  da_allow_context_aware : bool;
  da_raw : bool;
  da_allowed_host_capabilities : list string;
}.

Definition definition_args (m : ArgMatches) : option DefinitionArgs :=
  uri ← expect_one m "uri_or_sha_prefix_or_yaml_file";
  settings_path ← get_one KString m "settings-path";
  settings_json ← get_one KString m "settings-json";
  execution_mode ← get_one KString m "execution-mode";
  allow_context_aware ← flag_or_false m "allow-context-aware";
  raw ← flag_or_false m "raw";
  allowed_host_capabilities ← get_many KString m "allowed-host-capabilities";
  Some {| da_uri := uri; da_settings_path := settings_path; da_settings_json := settings_json;
          da_execution_mode := execution_mode; da_allow_context_aware := allow_context_aware;
          da_raw := raw; da_allowed_host_capabilities := default [] allowed_host_capabilities |}.

(** The names are those of the serialization of [PolicyExecutionMode]. *)
Definition execution_modes : list PolicyExecutionMode := [KubewardenWapc; Opa; OpaGatekeeper; Wasi; Ferricel].

Definition new_policy_execution_mode_from_str (name : string) : result PolicyExecutionMode string :=
  match list_find (λ mode, PolicyExecutionMode_to_string mode = name) execution_modes with
  | Some (_, mode) => Ok mode
  | None =>
      Err ("Unknown policy execution mode " +:+ dquote +:+ name +:+ dquote +:+ ". Valid values are " +:+
           join ", " ((λ mode, dquote +:+ PolicyExecutionMode_to_string mode +:+ dquote) <$> execution_modes))
  end.

(** How [from_cli] uses them: the URI is looked up in the store, the settings come from a
    file or from the command line, the file first. *)
Definition run_flags (map_path_to_uri settings_of_file settings_of_json : string → result _ string)
    (d : DefinitionArgs) : RunFlags :=
  {| rf_uri := map_path_to_uri (da_uri d);
     rf_settings :=
       match da_settings_path d, da_settings_json d with
       | Some path, _ => Some (settings_of_file path)
       | None, Some json => Some (settings_of_json json)
       | None, None => None
       end;
     rf_execution_mode := new_policy_execution_mode_from_str <$> da_execution_mode d;
     rf_allow_context_aware := da_allow_context_aware d; rf_raw := da_raw d;
     rf_allowed_host_capabilities := da_allowed_host_capabilities d |}.

Definition pull_and_run_args (m : ArgMatches) : option RunArgs :=
  request_path ← expect_one m "request-path";
  remote ← remote_args m;
  disable_wasmtime_cache ← flag_or_false m "disable-wasmtime-cache";
  disable_memory_limit ← flag_or_false m "disable-memory-limit";
  policy_memory_limit ← expect_one m "policy-memory-limit";
  record ← get_one KString m "record-host-capabilities-interactions";
  replay ← get_one KString m "replay-host-capabilities-interactions";
  Some {| ra_request_path := request_path; ra_sources_path := rem_sources_path remote;
          ra_docker_config_json_path := rem_docker_config_json_path remote;
          ra_verification := rem_verification remote;
          ra_sigstore_trust_config := rem_sigstore_trust_config remote;
          ra_disable_wasmtime_cache := disable_wasmtime_cache;
          ra_disable_memory_limit := disable_memory_limit;
          ra_policy_memory_limit := policy_memory_limit;
          ra_record := record; ra_replay := replay |}.

(** [tiny_bench::BenchmarkConfig], in the fields that have a flag. *)
Record BenchmarkConfig := {
  measurement_time : Z;
  num_resamples : Z;
  num_samples : Z;
  warm_up_time : Z;
  dump_results_to_disk : bool;
}.

(** [Debug] of a [ParseIntError] *)
Definition debug_parse_int_error (e : string) : string :=
  let kind :=
    if decide (e = "cannot parse integer from empty string") then "Empty"
    else if decide (e = "invalid digit found in string") then "InvalidDigit" else "PosOverflow" in
  "ParseIntError { kind: " +:+ kind +:+ " }".

(** One of the four flags with a number. *)
Definition bench_number (text : option string) (what : string) (initial : Z) : result Z string :=
  match text with
  | Some text =>
      map_err (λ e, "Cannot convert " +:+ what +:+ ": " +:+ debug_parse_int_error e) (parse_unsigned usize_bound text)
  | None => Ok initial
  end.

Definition create_benchmark_config (initial : BenchmarkConfig) (m : ArgMatches) :
    option (result BenchmarkConfig string) :=
  measurement ← get_one KString m "measurement_time";
  resamples ← get_one KString m "num_resamples";
  samples ← get_one KString m "num_samples";
  warm_up ← get_one KString m "warm_up_time";
  dump ← contains_id m "dump_results_to_disk";
  Some (
    let? measurement_time := bench_number measurement "'measurement-time' to seconds" (measurement_time initial) in
    let? num_resamples := bench_number resamples "'num-resamples' to number" (num_resamples initial) in
    let? num_samples := bench_number samples "'num-samples' to number" (num_samples initial) in
    let? warm_up_time := bench_number warm_up "'warm-up-time' to seconds" (warm_up_time initial) in
    Ok {| measurement_time := measurement_time; num_resamples := num_resamples; num_samples := num_samples;
          warm_up_time := warm_up_time; dump_results_to_disk := dump |}).

(** ** [main] *)

Inductive Invocation :=
| ListPolicies
| Info
| Pull (remote : RemoteArgs) (uri : string) (output_path : option string)
| Verify (remote : RemoteArgs) (uri : string)
| Push (remote : RemoteArgs) (policy uri : string) (force : bool) (output : option string)
| Rm (uri_or_sha_prefix : string)
| Run (definition : DefinitionArgs) (run : RunArgs)
| Bench (definition : DefinitionArgs) (run : RunArgs) (config : result BenchmarkConfig string)
| AnnotatePolicy (request : AnnotateRequest)
| InspectPolicy (remote : RemoteArgs) (uri_or_sha_prefix : string) (output : OutputType)
    (no_color no_signatures : bool)
| ScaffoldVerificationConfig
| ScaffoldArtifacthub (metadata_path questions_path output : option string) (deprecated_version : bool)
| ScaffoldManifest (remote : RemoteArgs) (manifest : ManifestArgs)
| ScaffoldVap (cel_policy policy binding : string) (compile_to_wasm : option string) (force : bool)
| ScaffoldAdmissionRequest (operation : Operation) (object_path old_object_path : option string)
| NoScaffold
| Completions (shell : string)
| Digest (remote : RemoteArgs) (uri : string)
| Save (policies : list string) (output : string)
| Load (input : string)
| Docs (output : string).

(** What the arm of a subcommand calls, or the error it returns before that. *)
Notation Arm := (ArgMatches → option (result Invocation string)).

Section main.
Context (bench_default : BenchmarkConfig) (no_color : bool).
Implicit Types m : ArgMatches.

Definition arm_pull : Arm := λ m,
  uri ← expect_one m "uri";
  output_path ← get_one KString m "output-path";
  remote ← remote_args m;
  Some (Ok (Pull remote uri output_path)).

Definition arm_verify : Arm := λ m,
  uri ← expect_one m "uri";
  remote ← remote_args m;
  Some (Ok (Verify remote uri)).

Definition arm_push : Arm := λ m,
  remote ← registry_args m;
  policy ← expect_one m "policy";
  uri ← expect_one m "uri";
  force ← get_flag m "force";
  output ← get_one KString m "output";
  Some (Ok (Push remote policy uri force output)).

Definition arm_rm : Arm := λ m,
  uri_or_sha_prefix ← expect_one m "uri_or_sha_prefix";
  Some (Ok (Rm uri_or_sha_prefix)).

Definition arm_run : Arm := λ m,
  definition ← definition_args m;
  run ← pull_and_run_args m;
  Some (Ok (Run definition run)).

Definition arm_bench : Arm := λ m,
  definition ← definition_args m;
  run ← pull_and_run_args m;
  config ← create_benchmark_config bench_default m;
  Some (Ok (Bench definition run config)).

Definition arm_annotate : Arm := λ m,
  wasm_path ← expect_one m "wasm-path";
  metadata_path ← get_one KString m "metadata-path";
  destination ← expect_one m "output-path";
  usage_path ← get_one KString m "usage-path";
  annotations ← get_many KString m "annotation";
  force ← get_flag m "force";
  Some (Ok (AnnotatePolicy {|
    an_wasm_path := wasm_path;
    an_metadata := match metadata_path with Some path => MetadataFile path | None => MetadataPolicy end;
    an_destination := destination; an_annotations := default [] annotations;
    an_usage_path := usage_path; an_force := force |})).

Definition arm_inspect : Arm := λ m,
  uri_or_sha_prefix ← expect_one m "uri_or_sha_prefix";
  output ← get_one KString m "output";
  match OutputType_try_from output with
  | Err e => Some (Err e)
  | Ok output =>
      remote ← registry_args m;
      show_signatures ← flag_or_false m "show-signatures";
      Some (Ok (InspectPolicy remote uri_or_sha_prefix output no_color (negb show_signatures)))
  end.

Definition scaffold_artifacthub : Arm := λ m,
  metadata_path ← get_one KString m "metadata-path";
  version ← get_one KString m "version";
  questions_path ← get_one KString m "questions-path";
  output ← get_one KString m "output";
  Some (Ok (ScaffoldArtifacthub metadata_path questions_path output (given version))).

(** [scaffold_manifest_command] *)
Definition scaffold_manifest : Arm := λ m,
  uri_or_sha_prefix ← expect_one m "uri_or_sha_prefix";
  remote ← remote_args m;
  resource_type ← expect_one m "type";
  settings_path ← get_one KString m "settings-path";
  settings_json ← get_one KString m "settings-json";
  title ← get_one KString m "title";
  allow_context_aware ← flag_or_false m "allow-context-aware";
  Some (Ok (ScaffoldManifest remote {| ma_uri_or_sha_prefix := uri_or_sha_prefix; ma_type := resource_type;
    ma_settings_path := settings_path; ma_settings_json := settings_json; ma_title := title;
    ma_allow_context_aware := allow_context_aware |})).

Definition scaffold_vap : Arm := λ m,
  cel_policy_uri ← expect_one m "cel-policy";
  vap_file ← expect_one m "policy";
  vap_binding_file ← expect_one m "binding";
  compile_to_wasm ← get_one KString m "compile-to-wasm";
  force ← get_flag m "force";
  Some (Ok (ScaffoldVap cel_policy_uri vap_file vap_binding_file compile_to_wasm force)).

(** [if matches.contains_id(id) { Some(matches.get_one(id).unwrap()) } else { None }] *)
Definition contained m (id : string) : option (option string) :=
  there ← contains_id m id;
  if there : bool then Some <$> expect_one m id else Some None.

Definition scaffold_admission_request : Arm := λ m,
  operation ← expect_one m "operation";
  match Operation_from_str operation with
  | Err e => Some (Err ("Error parsing operation: " +:+ e))
  | Ok operation =>
      object_path ← contained m "object";
      old_object_path ← contained m "old-object";
      Some (Ok (ScaffoldAdmissionRequest operation object_path old_object_path))
  end.

(** The five [if let] of the arm, of which at most one is taken. *)
Definition arm_scaffold : Arm := λ m,
  verification_config ← subcommand_matches m "verification-config";
  artifacthub ← subcommand_matches m "artifacthub";
  manifest ← subcommand_matches m "manifest";
  vap ← subcommand_matches m "vap";
  admission_request ← subcommand_matches m "admission-request";
  match verification_config, artifacthub, manifest, vap, admission_request with
  | Some _, _, _, _, _ => Some (Ok ScaffoldVerificationConfig)
  | _, Some m, _, _, _ => scaffold_artifacthub m
  | _, _, Some m, _, _ => scaffold_manifest m
  | _, _, _, Some m, _ => scaffold_vap m
  | _, _, _, _, Some m => scaffold_admission_request m
  | None, None, None, None, None => Some (Ok NoScaffold)
  end.

Definition arm_completions : Arm := λ m,
  shell ← expect_one m "shell"; Some (Ok (Completions shell)).

Definition arm_digest : Arm := λ m,
  uri ← expect_one m "uri";
  remote ← registry_args m;
  Some (Ok (Digest remote uri)).

Definition arm_save : Arm := λ m,
  policies ← mjoin (get_many KString m "policies");
  output ← expect_one m "output";
  Some (Ok (Save policies output)).

Definition arm_load : Arm := λ m, input ← expect_one m "input"; Some (Ok (Load input)).

Definition arm_docs : Arm := λ m, output ← expect_one m "output"; Some (Ok (Docs output)).

(** The [match] on the name of the subcommand. *)
Definition arms : list (string * Arm) :=
  [("policies", λ _, Some (Ok ListPolicies)); ("info", λ _, Some (Ok Info)); ("pull", arm_pull);
   ("verify", arm_verify); ("push", arm_push); ("rm", arm_rm); ("run", arm_run); ("bench", arm_bench);
   ("annotate", arm_annotate); ("inspect", arm_inspect); ("scaffold", arm_scaffold);
   ("completions", arm_completions); ("digest", arm_digest); ("save", arm_save); ("load", arm_load);
   ("docs", arm_docs)].

(** [None] is [unreachable!] for a command line without subcommand. *)
Definition kwctl_dispatch m : option (result Invocation string) :=
  name ← subcommand_name m;
  match list_find (λ arm, arm.1 = name) arms with
  | Some (_, (_, arm)) => sub ← subcommand_matches m name; sub ← sub; arm sub
  | None => Some (Err ("unknown subcommand: " +:+ name))
  end.
End main.

Inductive LevelFilter := DEBUG | INFO.

Record Setup := {
  (** [TERM], for the tables *)
  set_term : string;
  set_level : LevelFilter;
  set_ansi : bool;
}.

Definition main (bench_default : BenchmarkConfig) (m : ArgMatches) (term : option string) :
    option (Setup * result Invocation string) :=
  no_color ← flag_or_false m "no-color";
  verbose ← flag_or_false m "verbose";
  invocation ← kwctl_dispatch bench_default no_color m;
  Some ({| set_term := if no_color : bool then "dumb" else default "dumb" term;
           set_level := if verbose : bool then DEBUG else INFO;
           set_ansi := negb no_color |}, invocation).

(** [completions]: the shells it knows. *)
Inductive Shell := Bash | Fish | Zsh | Elvish | PowerShell.

Definition completions (shell : string) : result Shell string :=
  if decide (shell = "bash") then Ok Bash
  else if decide (shell = "fish") then Ok Fish
  else if decide (shell = "zsh") then Ok Zsh
  else if decide (shell = "elvish") then Ok Elvish
  else if decide (shell = "powershell") then Ok PowerShell
  else Err ("Unknown shell '" +:+ shell +:+ "'").

(** ** Properties *)

(** What a command can rely on. *)
Definition DEFAULT_CEL_POLICY : string := "ghcr.io/kubewarden/policies/cel-policy:latest".

Definition run_sound (d : DefinitionArgs) (a : RunArgs) : Prop :=
  (ra_record a = None ∨ ra_replay a = None) ∧
  (∀ name, da_execution_mode d = Some name →
     (name = "kubewarden" ∧ ∃ e, new_policy_execution_mode_from_str name = Err e) ∨
     ∃ mode, new_policy_execution_mode_from_str name = Ok mode ∧ mode ≠ KubewardenWapc).

(** The arguments that the user gave to the command that runs. *)
Fixpoint deepest (m : ArgMatches) : ArgMatches :=
  match am_subcommand m with None => m | Some (_, m') => deepest m' end.

Definition given_to (m : ArgMatches) (id : string) : bool := given_by_user (am_args (deepest m)) id.

Lemma given_sub m n m' : am_subcommand m = Some (n, m') → given_to m = given_to m'.
Proof. rewrite /given_to. destruct m. by intros [= ->]. Qed.

Definition sound (user : string → bool) (i : Invocation) : Prop :=
  match i with
  | Push _ _ _ _ output => output = Some "text" ∨ output = Some "json"
  | Run d a | Bench d a _ => run_sound d a
  | AnnotatePolicy r => an_metadata r ≠ MetadataPolicy ∨ an_annotations r ≠ [] ∨ is_Some (an_usage_path r)
  | ScaffoldManifest _ ma =>
      (ma_settings_path ma = None ∨ ma_settings_json ma = None) ∧ is_ok (ManifestType_from_str (ma_type ma))
  | ScaffoldVap cel _ _ compile force =>
      (force = true → is_Some compile ∨ user "cel-policy" = true) ∧ (is_Some compile → cel = DEFAULT_CEL_POLICY)
  | ScaffoldAdmissionRequest operation _ _ => operation = Create
  | NoScaffold => False
  | Completions shell => is_ok (completions shell)
  | Save policies _ => policies ≠ []
  | _ => True
  end.

(** Reads the next argument of the goal in valid matches. *)
Ltac read_next H :=
  let E := fresh "E" in
  match goal with
  | |- context [get_one ?k ?m ?id] =>
      first [destruct (get_one_always _ m H k id eq_refl) as [? E]
            |destruct (get_one_total _ m H k id eq_refl) as [? E]]; rewrite E
  | |- context [get_many ?k ?m ?id] =>
      first [destruct (get_many_always _ m H k id eq_refl) as (? & ? & E)
            |destruct (get_many_total _ m H k id eq_refl) as [? E]]; rewrite E
  | |- context [contains_id ?m ?id] =>
      destruct (contains_id_spec _ m H KString id eq_refl) as (? & ? & E & ?); rewrite E
  end; cbn [mbind option_bind mjoin option_join from_option default fst snd].

Ltac read_args H :=
  rewrite /expect_one /flag_or_false /get_flag; repeat read_next H.

Section sound.
Context (bench_default : BenchmarkConfig) (no_color : bool).

(** The modes of [--execution-mode]. *)
Lemma mode_sound c m a l name :
  valid_matches c m = true → find_arg c "execution-mode" = Some a →
  parser_of a = PossibleValues ["opa"; "gatekeeper"; "kubewarden"; "wasi"; "ferricel"] →
  get_one KString m "execution-mode" = Some l → l = Some name →
  (name = "kubewarden" ∧ ∃ e, new_policy_execution_mode_from_str name = Err e) ∨
  ∃ mode, new_policy_execution_mode_from_str name = Ok mode ∧ mode ≠ KubewardenWapc.
Proof.
  intros H Hf Hp Hl ->. pose proof (get_one_possible c m H _ _ _ _ Hf Hp Hl) as Hin.
  repeat (apply elem_of_cons in Hin as [->|Hin]); [..|by apply not_elem_of_nil in Hin].
  1,2,4,5: right; eexists; split; [vm_compute; reflexivity|done].
  left. split; [done|]. eexists. vm_compute. reflexivity.
Qed.

Lemma arm_pull_sound m : valid_matches subcommand_pull m = true → ∃ i, arm_pull m = Some (Ok i) ∧ sound (given_to m) i.
Proof. intros H. rewrite /arm_pull /remote_args /verification_args. read_args H. by eexists. Qed.

Lemma arm_verify_sound m :
  valid_matches subcommand_verify m = true → ∃ i, arm_verify m = Some (Ok i) ∧ sound (given_to m) i.
Proof. intros H. rewrite /arm_verify /remote_args /verification_args. read_args H. by eexists. Qed.

Lemma arm_push_sound m : valid_matches subcommand_push m = true → ∃ i, arm_push m = Some (Ok i) ∧ sound (given_to m) i.
Proof.
  intros H. rewrite /arm_push /registry_args. read_args H. eexists. split; [done|]. simpl.
  match goal with E : get_one _ _ "output" = _ |- _ =>
    pose proof (get_one_possible _ _ H "output" _ _ _ eq_refl eq_refl E) as Hin end.
  by repeat (apply elem_of_cons in Hin as [->|Hin]); [left|right|apply not_elem_of_nil in Hin].
Qed.

Lemma run_args_sound c m :
  valid_matches c m = true → c = subcommand_run ∨ c = subcommand_bench →
  ∃ d a, definition_args m = Some d ∧ pull_and_run_args m = Some a ∧ run_sound d a.
Proof.
  intros H Hc. rewrite /definition_args /pull_and_run_args /remote_args /verification_args.
  destruct Hc as [-> | ->]; read_args H; do 2 eexists; (split; [done|]); (split; [done|]); split; simpl.
  1,3: by eapply (not_both _ _ H KString KString "record-host-capabilities-interactions"
    "replay-host-capabilities-interactions").
  1,2: intros name Hn; by eapply (mode_sound _ m _ _ _ H eq_refl eq_refl).
Qed.

Lemma arm_run_sound m : valid_matches subcommand_run m = true → ∃ i, arm_run m = Some (Ok i) ∧ sound (given_to m) i.
Proof.
  intros H. destruct (run_args_sound _ m H) as (d & a & Hd & Ha & Hs); [by left|].
  rewrite /arm_run Hd Ha /=. by eexists.
Qed.

Lemma arm_bench_sound m :
  valid_matches subcommand_bench m = true → ∃ i, arm_bench bench_default m = Some (Ok i) ∧ sound (given_to m) i.
Proof.
  intros H. destruct (run_args_sound _ m H) as (d & a & Hd & Ha & Hs); [by right|].
  rewrite /arm_bench Hd Ha /= /create_benchmark_config. read_args H. by eexists.
Qed.

(** The value of an argument that the user gave. *)
Lemma given_value c m k id o :
  valid_matches c m = true → get_one k m id = Some o → given_by_user (am_args m) id = true →
  valued c k id = true → is_Some o.
Proof.
  intros H Ho Hg%given_present Hk. destruct (get_many_present c m H k id Hk Hg) as (v & l & Hl).
  rewrite /get_one Hl in Ho. injection Ho as <-. by eexists.
Qed.

Lemma arm_annotate_sound m :
  valid_matches subcommand_annotate m = true → ∃ i, arm_annotate m = Some (Ok i) ∧ sound (given_to m) i.
Proof.
  intros H. rewrite /arm_annotate. read_args H. eexists. split; [done|]. simpl.
  destruct (group_given _ m H metadata_source) as (id & Hid & Hg); [by apply list_elem_of_singleton|done|].
  repeat (apply elem_of_cons in Hid as [->|Hid]); [..|by apply not_elem_of_nil in Hid].
  - left. match goal with E : get_one _ _ "metadata-path" = _ |- _ =>
      destruct (given_value _ _ _ _ _ H E Hg eq_refl) as [? ->] end. done.
  - right; left. apply given_present in Hg.
    destruct (get_many_present _ m H KString "annotation" eq_refl Hg) as (v & l & Hl).
    match goal with E : get_many _ _ "annotation" = _ |- _ => rewrite Hl in E; injection E as <- end. done.
  - right; right. match goal with E : get_one _ _ "usage-path" = _ |- _ =>
      exact (given_value _ _ _ _ _ H E Hg eq_refl) end.
Qed.

Lemma arm_inspect_sound m :
  valid_matches subcommand_inspect m = true → ∃ i, arm_inspect no_color m = Some (Ok i) ∧ sound (given_to m) i.
Proof.
  intros H. rewrite /arm_inspect /registry_args. read_args H.
  match goal with E : get_one _ _ "output" = Some ?o |- _ => destruct o as [v|]; [|by eexists];
    pose proof (get_one_possible _ _ H "output" _ _ _ eq_refl eq_refl E) as Hin end.
  apply list_elem_of_singleton in Hin as ->. by eexists.
Qed.

Lemma scaffold_manifest_sound c m :
  valid_matches c m = true → c = (Command_new "manifest" |> args manifest_args) →
  ∃ i, scaffold_manifest m = Some (Ok i) ∧ sound (given_to m) i.
Proof.
  intros H ->. rewrite /scaffold_manifest /remote_args /verification_args. read_args H.
  eexists. split; [done|]. split; simpl.
  - by eapply (not_both _ _ H KString KString "settings-path" "settings-json").
  - match goal with E : get_one _ _ "type" = _ |- _ =>
      pose proof (get_one_possible _ _ H "type" _ _ _ eq_refl eq_refl E) as Hin end.
    by repeat (apply elem_of_cons in Hin as [->|Hin]); [vm_compute..|apply not_elem_of_nil in Hin].
Qed.

Lemma scaffold_vap_sound c m :
  valid_matches c m = true → c = (Command_new "vap" |> args vap_args) →
  ∃ i, scaffold_vap m = Some (Ok i) ∧ sound (given_to m) i.
Proof.
  intros H ->. rewrite /scaffold_vap. read_args H. eexists. split; [done|].
  assert (deepest m = m) as Hdeep.
  { destruct (valid_parts _ m H) as (_ & _ & _ & _ & Hsub). destruct m as [? ? ? [[n m']|]]; [|done].
    by destruct Hsub as (c' & Hc' & _). }
  rewrite /given_to Hdeep. split.
  - intros ->. destruct (comes_with _ _ H "force" _ "compile-to-wasm" _ eq_refl ltac:(by left) eq_refl)
      as [Hg|(o & Ho & Hg)]; [by eapply (flag_given _ _ H)|left|right].
    + match goal with E : get_one _ _ "compile-to-wasm" = _ |- _ => by eapply (given_value _ _ _ _ _ H E) end.
    + by repeat (apply elem_of_cons in Ho as [->|Ho]); [done..|apply not_elem_of_nil in Ho].
  - intros [v Hv]. eapply (default_text _ _ H "cel-policy"); [reflexivity..| |done].
    eapply (never_together _ _ H "compile-to-wasm"); [reflexivity|by left|].
    eapply (given_without_default _ _ H); [reflexivity..|]. rewrite Hv in E0. exact (get_one_present m _ _ _ E0).
Qed.

Lemma contained_total c m id :
  valid_matches c m = true → declares c KString id = true →
  valued c KString id = true → is_Some (contained m id).
Proof.
  intros H Hd Hk. rewrite /contained. destruct (contains_id_spec c m H KString id Hd) as (o & Ho & -> & Hiff).
  simpl. case_bool_decide as Hs; [|by eexists].
  destruct (get_many_present c m H _ _ Hk) as (v & l & Hl); [by apply Hiff|].
  rewrite /expect_one /get_one Hl. by eexists.
Qed.

Lemma scaffold_admission_request_sound c m :
  valid_matches c m = true → c = (Command_new "admission-request" |> args admission_request_args) →
  ∃ i, scaffold_admission_request m = Some (Ok i) ∧ sound (given_to m) i.
Proof.
  intros H ->. rewrite /scaffold_admission_request.
  destruct (contained_total _ m "object" H eq_refl eq_refl) as [o ->].
  destruct (contained_total _ m "old-object" H eq_refl eq_refl) as [o' ->]. read_args H.
  match goal with E : get_one _ _ "operation" = _ |- _ =>
    pose proof (get_one_possible _ _ H "operation" _ _ _ eq_refl eq_refl E) as Hin end.
  apply list_elem_of_singleton in Hin as ->. by eexists.
Qed.

Lemma scaffold_subcommands :
  cmd_subcommands subcommand_scaffold =
    [Command_new "admission-request" |> args admission_request_args;
     Command_new "artifacthub" |> args artifacthub_args;
     Command_new "manifest" |> args manifest_args;
     Command_new "vap" |> args vap_args;
     Command_new "verification-config"].
Proof. vm_compute. reflexivity. Qed.

Lemma arm_scaffold_sound m :
  valid_matches subcommand_scaffold m = true → ∃ i, arm_scaffold m = Some (Ok i) ∧ sound (given_to m) i.
Proof.
  intros H. destruct (valid_subcommand _ _ H eq_refl) as (s & m' & Hin & Hm & Hs).
  rewrite scaffold_subcommands in Hin. rewrite /arm_scaffold (given_sub _ _ _ Hm).
  do 5 (rewrite (subcommand_matches_valid _ _ _ H); [|reflexivity]). rewrite Hm.
  repeat (apply elem_of_cons in Hin as [->|Hin]); [..|by apply not_elem_of_nil in Hin]; simpl.
  - by eapply scaffold_admission_request_sound.
  - rewrite /scaffold_artifacthub. read_args Hs. by eexists.
  - by eapply scaffold_manifest_sound.
  - by eapply scaffold_vap_sound.
  - by eexists.
Qed.

Lemma kwctl_subcommands :
  cmd_subcommands build_cli =
    [subcommand_annotate; subcommand_bench;
     Command_new "completions" |> arg (Arg_new "shell" |> long "shell" |> short "s"%char |> required true
       |> value_parser (PossibleValues ["bash"; "elvish"; "fish"; "powershell"; "zsh"]));
     subcommand_digest; subcommand_docs; Command_new "info"; subcommand_inspect;
     Command_new "load" |> arg (Arg_new "input" |> long "input" |> required true);
     Command_new "policies"; subcommand_pull; subcommand_push;
     Command_new "rm" |> arg (Arg_new "uri_or_sha_prefix" |> required true |> index 1);
     subcommand_run; subcommand_save; subcommand_scaffold; subcommand_verify].
Proof. vm_compute. reflexivity. Qed.

Lemma arm_completions_sound c m :
  valid_matches c m = true →
  c = (Command_new "completions" |> arg (Arg_new "shell" |> long "shell" |> short "s"%char |> required true
       |> value_parser (PossibleValues ["bash"; "elvish"; "fish"; "powershell"; "zsh"]))) →
  ∃ i, arm_completions m = Some (Ok i) ∧ sound (given_to m) i.
Proof.
  intros H ->. rewrite /arm_completions. read_args H. eexists. split; [done|]. simpl.
  match goal with E : get_one _ _ "shell" = _ |- _ =>
    pose proof (get_one_possible _ _ H "shell" _ _ _ eq_refl eq_refl E) as Hin end.
  by repeat (apply elem_of_cons in Hin as [->|Hin]); [vm_compute..|apply not_elem_of_nil in Hin].
Qed.

Lemma kwctl_dispatch_sound m :
  valid_matches build_cli m = true → ∃ i, kwctl_dispatch bench_default no_color m = Some (Ok i) ∧ sound (given_to m) i.
Proof.
  intros H. destruct (valid_subcommand _ _ H eq_refl) as (s & m' & Hin & Hm & Hs).
  assert (∀ j n arm, list_find (λ arm, arm.1 = cmd_name s) (arms bench_default no_color) = Some (j, (n, arm)) →
    kwctl_dispatch bench_default no_color m = arm m') as Hd.
  { intros j n arm Hf. rewrite /kwctl_dispatch /subcommand_name Hm. cbn [fmap option_fmap option_map fst mbind option_bind].
    rewrite Hf (subcommand_matches_valid _ _ _ H); last by apply bool_decide_true, list_elem_of_fmap_2.
    by rewrite Hm /= decide_True. }
  rewrite kwctl_subcommands in Hin. rewrite (given_sub _ _ _ Hm).
  repeat (apply elem_of_cons in Hin as [->|Hin]); [..|by apply not_elem_of_nil in Hin];
    rewrite (Hd _ _ _ eq_refl).
  - by apply arm_annotate_sound.
  - by apply arm_bench_sound.
  - by eapply arm_completions_sound.
  - rewrite /arm_digest /registry_args. read_args Hs. by eexists.
  - rewrite /arm_docs. read_args Hs. by eexists.
  - by eexists.
  - by apply arm_inspect_sound.
  - rewrite /arm_load. read_args Hs. by eexists.
  - by eexists.
  - by apply arm_pull_sound.
  - by apply arm_push_sound.
  - rewrite /arm_rm. read_args Hs. by eexists.
  - by apply arm_run_sound.
  - rewrite /arm_save. read_args Hs. by eexists.
  - by apply arm_scaffold_sound.
  - by apply arm_verify_sound.
Qed.
End sound.

(** C39. The declarations of [cli.rs] and the code that reads the matches agree. On every command
    line that is accepted, [main] reaches one command: no argument is read with another type or
    without being declared, no [unwrap] or [expect] fails, and no error arm of a value that
    [clap] has checked is taken. What the commands get keeps what the declarations say: a
    session is not recorded and replayed at the same time, a manifest has one source of
    settings, [--compile-to-wasm] excludes another CEL policy, [--force] comes with
    [--compile-to-wasm] unless a CEL policy is given, in which case [clap] accepts it and it is ignored,
    there is something to annotate with, and something to save. One mode of execution is an
    exception: [kubewarden] is accepted by [clap] and then refused, so that no command line
    selects waPC. *)
Theorem kwctl_arguments_sound `{CP : Clap, CL : !ClapLaws} bench_default term argv vars m :
  get_matches build_cli argv vars = Ok m →
  ∃ setup i, main bench_default m term = Some (setup, Ok i) ∧ sound (given_to m) i.
Proof.
  intros H%get_matches_valid.
  assert (∀ id, declares build_cli KBool id = true → is_Some (flag_or_false m id)) as Hflag.
  { intros id Hid. destruct (get_one_total _ m H KBool id Hid) as [o Ho].
    rewrite /flag_or_false Ho. by eexists. }
  destruct (Hflag "no-color" eq_refl) as [no_color Hn]. destruct (Hflag "verbose" eq_refl) as [verbose Hv].
  destruct (kwctl_dispatch_sound bench_default no_color m H) as (i & Hd & Hs).
  rewrite /main Hn Hv /= Hd. by do 2 eexists.
Qed.

(** ** Examples *)

#[local] Existing Instance checked_clap.
#[local] Existing Instance checked_clap_laws.

Definition bench_example : BenchmarkConfig :=
  {| measurement_time := 5; num_resamples := 100; num_samples := 100; warm_up_time := 3;
     dump_results_to_disk := false |}.

Definition run_argv : list string :=
  ["run"; "--execution-mode"; "kubewarden"; "--request-path"; "request.json"; "policy.wasm"].

(** The mode passes the declared values; [new_policy_execution_mode_from_str] refuses it. *)
Lemma kwctl_arguments_sound_witness :
  ∃ setup d a e, main bench_example (parse_command 3 build_cli ∅ run_argv) None = Some (setup, Ok (Run d a)) ∧
    run_sound d a ∧ da_execution_mode d = Some "kubewarden" ∧
    rf_execution_mode (run_flags Ok (λ _, Err "") (λ _, Err "") d) = Some (Err e).
Proof.
  destruct (kwctl_arguments_sound bench_example None run_argv ∅ (parse_command 3 build_cli ∅ run_argv))
    as (setup & i & Hm & Hs); [vm_compute; reflexivity|].
  assert (∃ setup d a, main bench_example (parse_command 3 build_cli ∅ run_argv) None = Some (setup, Ok (Run d a)) ∧
    da_execution_mode d = Some "kubewarden") as (setup' & d & a & Hm' & Hd).
  { vm_compute. do 3 eexists. split; reflexivity. }
  rewrite Hm in Hm'. injection Hm' as <- ->.
  exists setup, d, a. eexists. split; [exact Hm|]. split; [exact Hs|]. split; [exact Hd|].
  rewrite /run_flags Hd. vm_compute. reflexivity.
Defined.

(** [--force] is documented to be valid together with [--compile-to-wasm] only. *)
Example force_ignored :
  match get_matches build_cli ["scaffold"; "vap"; "--force"; "--cel-policy"; "cel:v1"; "--policy"; "p.yml";
          "--binding"; "b.yml"] ∅ with
  | Ok m => snd <$> main bench_example m None = Some (Ok (ScaffoldVap "cel:v1" "p.yml" "b.yml" None true))
  | Err _ => False
  end.
Proof. vm_compute. reflexivity. Qed.

(** Without [--allowed-host-capabilities] a policy may use every host capability, and its
    memory is limited to 256 MiB. *)
Example run_defaults :
  match main bench_example (parse_command 3 build_cli ∅ ["run"; "--request-path"; "-"; "policy.wasm"]) (Some "xterm") with
  | Some (setup, Ok (Run d a)) =>
      da_allowed_host_capabilities d = ["*"] ∧ ra_policy_memory_limit a = "256" ∧ set_term setup = "xterm"
  | _ => False
  end.
Proof. vm_compute. repeat split; reflexivity. Qed.

(** [--dump-results-to-disk] takes a value; [--allowed-host-capabilities] is not appended to, so
    that it cannot be repeated. *)
Example bench_declarations :
  action_of <$> find_arg subcommand_bench "dump_results_to_disk" = Some ActionSet ∧
  least_values <$> find_arg subcommand_bench "dump_results_to_disk" = Some 1 ∧
  action_of <$> find_arg subcommand_run "allowed-host-capabilities" = Some ActionSet ∧
  action_of <$> find_arg subcommand_run "verification-key" = Some ActionAppend.
Proof. vm_compute. repeat split; reflexivity. Qed.

(** The policies of a YAML file do not depend on [--execution-mode], nor on the settings of the
    flags. *)
Lemma yaml_ignores_execution_mode `{HI : HashIter, CY : CrdYaml} path (f g : RunFlags) :
  ends_with path ".yaml" = true → rf_raw f = rf_raw g →
  rf_allowed_host_capabilities f = rf_allowed_host_capabilities g →
  parse_policy_definitions path f = parse_policy_definitions path g.
Proof. intros Hp Hr Hc. unfold parse_policy_definitions. by rewrite Hp Hr Hc. Qed.
