(* ===== verification/KwctlCommands.v ===== *)
(** * Other commands of kwctl

    Models, under [crates/kwctl/src/]: [kwctl bench] ([command/bench.rs]) with the handler it
    rewinds ([callback_handler/mod.rs]), [kwctl scaffold artifacthub] ([scaffold/artifacthub.rs]
    and its arm in [main.rs], with [find_file_matching_file] of [utils.rs]), [kwctl info]
    ([info.rs]), and the Kubernetes client of [kwctl run] ([command/run/evaluator.rs]). *)

From S2P Require Import Prelude Bytes Json PolicyId AdmissionResponse ResponseHandler Request.
From S2P Require Import HostCapabilities Callback Runtime GroupEvaluator Config RustStr Burrego OpaBuiltins.
From S2P Require Import VerificationConstraints Sources Registry Fetcher Verify Downloader Metadata Startup.
From S2P Require Import SessionProxy WasmScanner Annotate ArtifactHub KwctlRun KwctlMain.

(** ** The Kubernetes client *)

Record KubeConfig := {
  (** the host of [cluster_url] *)
  kc_host : option string;
  kc_tls_server_name : option string;
}.

Definition IN_CLUSTER_NAME : string := "kubernetes.default.svc".

Section kube.
(** [parse::<Ipv4Addr>] and [parse::<Ipv6Addr>], [Config::infer] and [Client::try_from] *)
Context (is_ipv4 is_ipv6 : string → bool).
Context (infer : result KubeConfig string) (client_of : KubeConfig → result unit string).

Definition name_for_ip (c : KubeConfig) : KubeConfig :=
  match kc_host c with
  | Some host =>
      match kc_tls_server_name c with
      | None => if is_ipv4 host || is_ipv6 host
                then {| kc_host := kc_host c; kc_tls_server_name := Some IN_CLUSTER_NAME |} else c
      | Some _ => c
      end
  | None => c
  end.

Definition build_kube_client : result unit string :=
  let? kube_config := infer in
  client_of (name_for_ip kube_config).

(** The name the certificate of the API server is checked against. *)
Definition checked_name (c : KubeConfig) : option string :=
  match kc_tls_server_name c with Some name => Some name | None => kc_host c end.

(** It is the one of the user when there is one, and never an address. *)
Lemma server_name_checked c :
  (∀ name, kc_tls_server_name c = Some name → checked_name (name_for_ip c) = Some name) ∧
  (kc_tls_server_name c = None →
   ∀ name, checked_name (name_for_ip c) = Some name → is_ipv4 IN_CLUSTER_NAME = false →
     is_ipv6 IN_CLUSTER_NAME = false → is_ipv4 name = false ∧ is_ipv6 name = false).
Proof.
  rewrite /checked_name /name_for_ip. destruct c as [[host|] [n|]]; simpl; try naive_solver.
  split; [done|]. intros _ name. destruct (is_ipv4 host) eqn:H4, (is_ipv6 host) eqn:H6; simpl; naive_solver.
Qed.
End kube.

(** ** [kwctl bench] *)

(** The handler of a mode: a replayed session is the one that can be rewound. *)
Inductive KwctlHandler := DirectHandler | RecordingHandler (destination : string) | ReplayingHandler (source : string).

Definition KwctlHandler_new (mode : HostCapabilitiesMode) : KwctlHandler :=
  match mode with
  | HostCapabilitiesRecord destination => RecordingHandler destination
  | HostCapabilitiesReplay source => ReplayingHandler source
  | HostCapabilitiesDirect => DirectHandler
  end.

Definition replay_reset_handle (h : KwctlHandler) : option unit :=
  match h with ReplayingHandler _ => Some tt | _ => None end.

Fixpoint repeat_m {W A} (n : nat) (c : M W A) : M W unit :=
  match n with 0 => m_ret tt | S n => let! _ := c in repeat_m n c end.

Section bench.
Context `{HI0 : HashIter, UL : UrlLib, SG : Sigstore, SE : SourceEnv, OL : OciLib, HI : !HostIO}.
Context `{CC : !CosignClient, YL : !YamlLib, SH : Sha256, WT : WasmTools}.
Context `{ST : SdkTypes, PR : !PolicyRuntime, R : !Rhai, PL : !PolicyLoader}.
Context (default_store_root : string) (verifier_new : option Sources → result Verifier string).
Context (detector : Host → BackendDetector) (kube_client : result unit string).
Context (handler_channel : HostCapabilitiesMode → bool → result Channel string).
Context (admission_request_of : Value → result AdmissionRequest string).
(** [ReplayResetHandle::reset], and how often [bench_with_configuration_labeled] runs a closure
    of a configuration *)
Context (reset_session : M World unit) (rounds : BenchmarkConfig → nat).
Implicit Types (cfg : PullAndRunSettings) (d : PolicyDefinition).

(** [Display] *)
Definition definition_name d : string :=
  match d with
  | DefPolicy p => "Policy " +:+ ip_id p +:+ " (" +:+ ip_uri p +:+ ")"
  | DefGroup id _ _ _ _ => "Policy Group " +:+ id
  end.

Definition in_definition d (e : string) : string := "[" +:+ definition_name d +:+ "] - " +:+ e.

(** The closure of a benchmark: the session is rewound before every run. *)
Definition bench_round {A} cfg (c : M World A) : M World A :=
  let! _ := match replay_reset_handle (KwctlHandler_new (prs_host_capabilities_mode cfg)) with
            | Some _ => reset_session
            | None => m_ret tt
            end in
  c.

Definition pull_and_bench (h : Host) cfg (local_data : LocalData) (config : BenchmarkConfig) d :
    M World (result unit string) :=
  let!? e := Evaluator_new detector kube_client handler_channel admission_request_of h cfg local_data d in
  let! r := KwctlRun.validate_settings e in
  if negb (sv_valid r) then
    m_ret (Err (in_definition d ("provided settings are not valid: " +:+ unwrap_or "" (sv_message r))))
  else
  let! _ := repeat_m (rounds config) (bench_round cfg (KwctlRun.validate_settings e)) in
  let! _ := repeat_m (rounds config) (bench_round cfg (KwctlRun.evaluate e)) in
  m_ret (Ok tt).

Fixpoint bench_all (h : Host) cfg (local_data : LocalData) (config : BenchmarkConfig)
    (definitions : list PolicyDefinition) : M World (result unit string) :=
  match definitions with
  | [] => m_ret (Ok tt)
  | d :: definitions =>
      let! r := pull_and_bench h cfg local_data config d in
      let!? _ := m_ret (map_err (in_definition d) r) in
      bench_all h cfg local_data config definitions
  end.

Definition bench_exec (definitions : list PolicyDefinition) cfg (config : BenchmarkConfig) :
    M (St * World) (result unit string) := λ '(st, w),
  match LocalData_new default_store_root verifier_new definitions cfg st with
  | None => None
  | Some (Err e, st) => Some (Err e, (st, w))
  | Some (Ok local_data, st) =>
      match bench_all (host st) cfg local_data config definitions w with
      | None => None
      | Some (r, w) => Some (r, (st, w))
      end
  end.

(** Only a policy that accepts its settings is measured; the refusal of one names the
    definition twice. *)
Lemma bench_needs_valid_settings h cfg local_data config d w r w' :
  pull_and_bench h cfg local_data config d w = Some (r, w') →
  (r = Ok tt → ∃ e w1 v w2,
     Evaluator_new detector kube_client handler_channel admission_request_of h cfg local_data d w = Some (Ok e, w1) ∧
     KwctlRun.validate_settings e w1 = Some (v, w2) ∧ sv_valid v = true) ∧
  (∀ e w1 v w2 rest,
     Evaluator_new detector kube_client handler_channel admission_request_of h cfg local_data d w = Some (Ok e, w1) →
     KwctlRun.validate_settings e w1 = Some (v, w2) → sv_valid v = false →
     bench_all h cfg local_data config (d :: rest) w =
       Some (Err (in_definition d (in_definition d ("provided settings are not valid: " +:+ unwrap_or "" (sv_message v)))), w2)).
Proof.
  intros H. split.
  - intros ->. apply mr_bind_Ok in H as (e & w1 & He & H). apply m_bind_Some in H as (v & w2 & Hv & H).
    exists e, w1, v, w2. split_and!; [done..|]. by destruct (sv_valid v).
  - intros e w1 v w2 rest He Hv Hinv. rewrite /= /mr_bind /m_bind /pull_and_bench /mr_bind /m_bind He Hv Hinv. done.
Qed.
End bench.

(** ** [kwctl scaffold artifacthub] *)

Definition ARTIFACTHUB_HEADER : string :=
  join newline ["# Kubewarden Artifacthub Package config"; "#";
    "# Use this config to submit the policy to https://artifacthub.io."; "#";
    "# This config can be saved to its default location with:";
    "#   kwctl scaffold artifacthub > artifacthub-pkg.yml "].

Section artifacthub.
Context `{AL : ArtifactHubLib, WA : Walrus, WP : WasmParser, KT : !KwctlTools}.
(** [Path::exists], the time, [serde_yaml::to_string] and [fs::write] *)
Context (path_exists : string → bool) (now : OffsetDateTime).
Context (pkg_to_yaml : ArtifactHubPkg → result string string) (fs_write : string → string → result unit string).

Definition find_file_matching_file (possible_names : list string) : option string :=
  snd <$> list_find (λ name, path_exists name = true) possible_names.

Definition artifacthub (metadata_path : string) (questions_path : option string) : result string string :=
  let? metadata := load_metadata_file metadata_path in
  let? questions := match questions_path with
    | Some path => map_err (λ e, "Error reading questions file: " +:+ e) (res_map Some (fs_read_to_string path))
    | None => Ok None
    end in
  let? pkg := map_err ArtifactHubError_to_string (from_metadata metadata now questions) in
  let? yaml := pkg_to_yaml pkg in
  Ok (ARTIFACTHUB_HEADER +:+ newline +:+ yaml).

(** The arm: the text that is printed, or [None] when it was written to a file. *)
Definition scaffold_artifacthub_command (metadata_path questions_path output : option string) :
    result (option string) string :=
  let? metadata_file := ok_or
    (match metadata_path with
     | Some path => Some path
     | None => find_file_matching_file ["metadata.yml"; "metadata.yaml"]
     end)
    "path to metadata file not provided, plus 'metadata.yml' not found" in
  let questions_file :=
    match questions_path with
    | Some path => Some path
    | None => find_file_matching_file ["questions-ui.yml"; "questions-ui.yaml"; "questions.yml"; "questions.yaml"]
    end in
  let? content := artifacthub metadata_file questions_file in
  match output with
  | Some output_path => let? _ := fs_write output_path content in Ok None
  | None => Ok (Some content)
  end.

(** What is published is made of metadata that can be: the file the user named, or the first
    of the usual ones that is there; its questions are those of a file that could be read. *)
Theorem scaffolded_package_publishable metadata_path questions_path output r :
  scaffold_artifacthub_command metadata_path questions_path output = Ok r →
  ∃ file metadata questions, load_metadata_file file = Ok metadata ∧ publishable metadata questions ∧
    (metadata_path = Some file ∨
     metadata_path = None ∧ path_exists file = true ∧ file ∈ ["metadata.yml"; "metadata.yaml"]) ∧
    (∀ text, questions = Some text → ∃ path, fs_read_to_string path = Ok text) ∧
    (∀ path, questions_path = Some path → ∃ text, fs_read_to_string path = Ok text ∧ questions = Some text).
Proof.
  intros (file & Hfile%ok_or_Ok & H)%res_bind_Ok. apply res_bind_Ok in H as (content & Hc & _).
  apply res_bind_Ok in Hc as (metadata & Hm & Hc). apply res_bind_Ok in Hc as (questions & Hq & Hc).
  apply res_bind_Ok in Hc as (pkg & Hpkg%map_err_Ok & _). exists file, metadata, questions. split_and!.
  - done.
  - by eapply from_metadata_publishable.
  - destruct metadata_path as [path|]; [left; congruence|right]. rewrite /find_file_matching_file in Hfile.
    apply fmap_Some in Hfile as ([i x] & Hf & ->). apply list_find_Some in Hf as (Hl & Hx & _).
    split_and!; [done..|]. by eapply list_elem_of_lookup_2.
  - intros text ->. destruct (match questions_path with Some _ => _ | None => _ end) as [path|] eqn:He; [|done].
    apply map_err_Ok, res_map_Ok in Hq as (t & Ht & [= ->]). by exists path.
  - intros path ->. apply map_err_Ok, res_map_Ok in Hq as (t & Ht & ->). by exists t.
Qed.
End artifacthub.

(** ** [kwctl info] *)

(** [keys().sorted()]: the names in the order of their bytes *)
Definition name_order (a b : string) : Prop := String.leb a b = true.

#[local] Instance name_order_dec : RelDecision name_order.
Proof. intros a b. unfold name_order. apply _. Defined.

Definition sorted_names (l : list string) : list string := merge_sort name_order l.

Definition info (version store_root config_dir cache_dir : string) : string :=
  "kwctl version: " +:+ version +:+ newline +:+ newline +:+
  "Open Policy Agent/Gatekeeper implemented builtins:" +:+ newline +:+
  join newline ((λ builtin, "  - " +:+ builtin) <$> sorted_names implemented_builtins) +:+ newline +:+ newline +:+
  "Policy store: " +:+ store_root +:+ newline +:+
  "Config directory: " +:+ config_dir +:+ newline +:+
  "kwctl cache directory: " +:+ cache_dir +:+ newline +:+ "    ".

(** ** Examples *)

Example info_lists_builtins :
  head (sorted_names implemented_builtins) = Some "base64url.encode_no_pad" ∧
  length (sorted_names implemented_builtins) = length implemented_builtins.
Proof. vm_compute. split; reflexivity. Qed.

(** A kubeconfig of a local cluster. *)
Example local_cluster_name :
  checked_name (name_for_ip (λ host, bool_decide (host = "127.0.0.1")) (λ _, false)
    {| kc_host := Some "127.0.0.1"; kc_tls_server_name := None |}) = Some IN_CLUSTER_NAME.
Proof. vm_compute. reflexivity. Qed.
